(* ===== verification/_CoqProject ===== *)
-Q . S2P
Prelude.v
Float.v
Buffer.v
Crypto.v
Hash.v
Token.v
Identity.v
Msgpack.v
Packet.v
Framing.v
Hdlc.v
Kiss.v
Counters.v
Ifac.v
Tcp.v
PacketCache.v
LinkTable.v
AnnounceTable.v
AnnounceLimits.v
PathTable.v
Destination.v
Links.v
Channel.v
PathRequests.v
Tunnels.v
RnodeModem.v
Resource.v
ResourceOut.v
ResourceIn.v
ResourceManager.v
Requests.v
ResourceTransfer.v
Exchange.v
ResourceSafety.v
RequestExchange.v
Streams.v
IfaceControl.v
Ifaces.v
Storage.v
Blackholes.v
Inbound.v
Handler.v
Transport.v
Persist.v
Loop.v
Api.v
Tables.v
TransportSafety.v
TransportRouting.v
TransportGaps.v
Restart.v
