(* ===== verification/Prelude.v ===== *)
(** * Reticulum-rs: a verification development

    Reticulum is a network stack for links of any kind.  A node receives bytes
    on its interfaces, cuts them into frames, checks access codes, parses
    packets and drops duplicates; a transport node learns paths from announces,
    rebroadcasts them, relays link requests, proofs and data, and answers path
    requests.  The endpoints of a link agree on a session key and exchange
    messages, channel messages, requests and resources of any size over it.
    The development translates this from the Rust sources into executable
    definitions and proves what makes it correct.

    ** The files, bottom up

    - [Prelude]: errors ([reticulum-core/src/error.rs]), the state-and-error
      monad, machine integers, byte strings, ordered iteration of [BTreeMap]s,
      the tactics and the hint database [rns].
    - [Float]: IEEE arithmetic and durations made from it.
    - [Buffer]: [buffer.rs], the fixed buffer and the two cursors.
      [StaticBuffer] refines a bounded byte log.
    - [Crypto], [Hash]: the cryptographic crates as classes; [hash.rs].
    - [Token], [Identity]: [crypt/fernet.rs] and [identity.rs].  What is
      encrypted for an identity or one of its ratchets is decrypted by its
      owner; a token with another tag is refused.
    - [Msgpack]: the files in which identities and ratchets persist.  They are
      read back as written, and skipping unknown values terminates.
    - [Packet]: [packet.rs] and [serde.rs].  The cursor-based parser
      computes a reference parser; a serialized packet is parsed back up to
      the flags its header byte can carry, a parsed one prints as its bytes up
      to an unassigned context byte; the packet hash ignores what relays
      change.
    - [Framing]: the contract of a byte-stream framing.  A client needs only
      it to conclude that a sequence of frames arrives as sent, however the
      stream is cut.
    - [Hdlc], [Kiss]: [iface/hdlc.rs], [iface/kiss.rs], [iface/ax25.rs] and
      [rnode-modem-core/src/frame.rs], whose decoders are instances of it.
    - [Ifac]: [iface/ifac.rs].  What [strip] accepts is exactly what [apply]
      makes with the same key; open and protected interfaces drop each
      other's packets.
    - [Tcp]: the receive loop of [iface/tcp_client.rs] with its sliding
      window, also instances of the contract.
    - [PacketCache]: [transport/packet_cache.rs], the duplicate filter and the
      announce store, which refines a bounded queue.
    - [LinkTable]: [transport/link_table.rs].  Relayed links carry traffic both
      ways, only authentic proofs have an effect, clean-up is exact.
    - [AnnounceTable], [AnnounceLimits]: [transport/announce_table.rs] and
      [announce_limits.rs].  How often announces and path responses are sent,
      over any sequence of operations, and what a flooding destination gets.
    - [PathTable]: [transport/path_table.rs].  Stored paths are the shortest
      announced, are replaced only by better ones and expire as documented;
      forwarding along a line of nodes delivers the packet with its hash
      unchanged.
    - [PathRequests]: [transport/path_requests.rs].  Encoding, duplicate
      suppression, spacing and batching of path requests.
    - [Tunnels]: [transport/tunnels.rs].  Synthesis packets are accepted, and
      paths survive the loss of an interface.
    - [Destination]: [destination.rs].  Announces are accepted by everyone and
      bind all that a receiver uses; ratchets stay readable as long as they
      are retained.
    - [Links]: [destination/link.rs] and [link_map.rs].  Two endpoints come to
      share a key, messages arrive and are proved, a link becomes active only
      through the destination's signature.
    - [Channel]: [channel.rs].  Messages arrive once and in order under loss,
      repetition and reordering; windows and retries are bounded.
    - [RnodeModem]: [rnode-modem-core].  The modem's protocol, airtime limits
      and the separation of its interfaces.
    - [Resource], [ResourceOut], [ResourceIn], [ResourceManager]:
      [src/resource].  Advertisements, the sending and the receiving side of a
      transfer, and the manager of all transfers, handlers and requests.
    - [Requests]: the part of [transport.rs] that hands the packets of a link
      to the manager, sends resources, requests and responses, and sweeps.
    - [ResourceTransfer], [Exchange]: a sender and a receiver that handle each
      other's packets.  The first proves what each operation does in a
      transfer without loss, the second that the data arrives.
    - [ResourceSafety]: what a receiver keeps whatever arrives.
    - [RequestExchange]: a request, its handler and its answer; what a sweep
      leaves as it is.
    - [Streams]: [buffer_stream.rs].  A reader that keeps up gets a prefix of
      what the writer wrote, and all of it once the frames have arrived and
      were read.
    - [Counters], [IfaceControl], [Ifaces]: [iface.rs] and [iface/control.rs],
      the counters, the burst and airtime control of an interface and the
      manager of all interfaces.  Held and queued announces come out as
      documented; an announce reaches the interfaces its mode allows and a
      stopped interface gets nothing.
    - [Storage]: [storage/mod.rs], what is remembered of announced
      destinations.  It refines a dictionary, restarts included.
    - [Blackholes]: [transport/blackholes.rs].  What one node publishes
      another reads back.
    - [Inbound]: the inbound queues, the packet filter and the receipts of
      [transport.rs].
    - [Handler]: the state of the transport ([TransportHandler]) and the
      monad [Tr] of its handlers: state, clocks, random draws, outputs and
      panics.
    - [Transport], [Persist], [Loop], [Api]: the handlers of packets, the saved
      tables, the tasks of [manage_transport] and the public interface.
      [TransportStep] and [transport_run] put them together: a run is any
      sequence of received packets, timer ticks and calls of the user.
    - [Tables], [TransportSafety]: invariants of the tables and a logic of
      handlers that keep them.  In every run the paths, the tunnels and the
      repeated announces are those of announces with a valid signature, the
      tables are keyed by what they hold, and no packet leaves with more than
      127 hops.
    - [TransportRouting]: a packet crosses any number of relays, is delivered,
      and its proof comes back to the sender.
    - [Restart]: paths survive saving and loading.
    - [TransportGaps]: three places where the transport does not do what its
      comments say: path requests of local clients, the timeout of pending links,
      and the links this node opened.

    ** Conventions

    - Names are the source's; a method of a type with a module of its own is
      in that module, others carry the type's name first.
    - Integers are [Z], lengths and indices [nat].  Unchecked [+] on a [u8]
      wraps, as in the release profile.
    - A method on [&mut self] takes and returns the state.  [Result] is
      [result] or the monad [St], which keeps the changes made before an
      error.  A panic is [None] of an outer [option].
    - A [HashMap] or [BTreeMap] is a [gmap]; where the order of iteration
      shows, the keys are sorted ([btree_iter]).
    - Time is a number of nanoseconds passed as [now]; an operation that reads
      the clock more than once is given one reading.  Random draws are
      arguments.  Logging is left out.
    - Loops are structural recursions over the data they consume.  Where they
      are not, the fuel is a bound that the code gives: [roll] runs over the
      bins of the airtime tracker, [skip_value_fuel] over the bytes left,
      [drain] over the stored messages; [map_loop] runs over the random draws
      it is given, one for each collision of map hashes.  [net_run] counts the
      packets handled; [Resource_transfer] states that some count is enough.
    - Code outside the repository is a class whose laws are its documented
      behaviour: [Sha256] (output length and range, no collision resistance),
      [Hkdf], [Signing], [Verifying], [Ed25519], [Ed25519Keys] (a signature
      verifies under its own key; no unforgeability), [X25519] (both sides
      agree), [CbcCipher], [HmacSha256], the msgpack crates [Rmp],
      [RmpDecode], [RmpCursor], [RmpStr], [Rmpv], [RmpvCodec] (they write and
      read the format), and [Bz2].  [Storage] is the trait of that name, with
      [StorageLaws] what it documents, and [Channel.Message] likewise.  Each
      has a concrete instance, with which the witnesses are evaluated.

    ** What is not modelled

    How the asynchronous runtime schedules the tasks: a handler runs under one
    lock, so it is one step, and a run is any sequence of steps.  Waiting for
    room in a channel and subscriptions to events are left out; the outputs of
    a step are the events and packets it produces.  The socket and serial
    tasks of the interfaces, the KISS flow-control queue, the file system
    behind [Storage], the daemon, the command-line programs, the bindings,
    LXST and the firmware are input and output around the core.  LXMF
    messages, statistics and queries that only read are left for extension. *)

From Stdlib Require Export ZArith Lia.
From stdpp Require Export base numbers list strings gmap fin_maps sorting option.

#[global] Open Scope Z_scope.

(** ** Errors and results

    [RnsError] is [reticulum-core/src/error.rs]; a fallible function of the
    source returns [result]. *)

Inductive RnsError : Type :=
| ResourceMsg (msg : string)
| OutOfMemory
| InvalidArgument
| IncorrectSignature
| IncorrectHash
| CryptoError
| PacketError
| ConnectionError
| LinkClosed
| LinkNotReady
| ChannelError
| ChannelMessageTooBig
| ChannelUnknownMessageType
| Resource
| Storage
| Request
| Iface
| Unsupported.

#[export] Instance RnsError_eq_dec : EqDecision RnsError.
Proof. solve_decision. Defined.

Inductive result (A : Type) : Type :=
| Ok (a : A)
| Err (e : RnsError).
Arguments Ok {A} a.
Arguments Err {A} e.

#[export] Instance result_eq_dec {A} `{EqDecision A} : EqDecision (result A).
Proof. solve_decision. Defined.

#[export] Instance result_ret : MRet result := fun A a => Ok a.
#[export] Instance result_bind : MBind result := fun A B f m =>
  match m with
  | Ok a => f a
  | Err e => Err e
  end.

(** ** A state-and-error monad

    A method taking [&mut self] and returning [Result] is a function from the
    state to the outcome and the state it leaves behind: an error returned by
    [?] keeps the state changes made before it. *)

Definition St (S A : Type) : Type := S -> result A * S.

#[export] Instance St_ret {S} : MRet (St S) := fun A a s => (Ok a, s).
#[export] Instance St_bind {S} : MBind (St S) := fun A B f m s =>
  match m s with
  | (Ok a, s') => f a s'
  | (Err e, s') => (Err e, s')
  end.

Definition throw {S A} (e : RnsError) : St S A := fun s => (Err e, s).
Definition get_state {S} : St S S := fun s => (Ok s, s).

(** ** Machine integers

    A [w]-bit unsigned integer is a [Z]; arithmetic that the source leaves
    unchecked wraps, as it does in the release profile. *)

Definition wrap (w z : Z) : Z := z mod 2 ^ w.
Definition in_width (w z : Z) : Prop := 0 <= z < 2 ^ w.
Definition is_u8 (z : Z) : Prop := in_width 8 z.

#[export] Instance in_width_dec w z : Decision (in_width w z).
Proof. unfold in_width. apply _. Defined.
#[export] Instance is_u8_dec z : Decision (is_u8 z).
Proof. unfold is_u8. apply _. Defined.

(** [u8::saturating_add], and [+] on [u8] as the release profile runs it. *)
Definition u8_saturating_add (a b : Z) : Z := Z.min (a + b) 255.
Definition u8_add (a b : Z) : Z := wrap 8 (a + b).
Definition u32_add (a b : Z) : Z := wrap 32 (a + b).

(** Bytes and byte strings. *)
Abbreviation bytes := (list Z) (only parsing).
Definition all_u8 (l : bytes) : Prop := Forall is_u8 l.

#[export] Instance all_u8_dec l : Decision (all_u8 l).
Proof. unfold all_u8. apply _. Defined.

(** Big-endian encodings ([to_be_bytes] / [from_be_bytes]). *)
Fixpoint be_encode (n : nat) (v : Z) : bytes :=
  match n with
  | O => []
  | S n' => be_encode n' (v / 256) ++ [v mod 256]
  end.

Definition be_decode (l : bytes) : Z := fold_left (fun acc b => acc * 256 + b) l 0.

(** ** Slices

    [slice i j l] is [l[i..j]]; [splice i src l] overwrites [l] from [i] on
    with [src], as [l[i..i + src.len()].copy_from_slice(src)]. *)
Definition slice {A} (i j : nat) (l : list A) : list A := take (j - i) (drop i l).
Definition splice {A} (i : nat) (src l : list A) : list A :=
  take i l ++ src ++ drop (i + length src) l.

(** Byte-string order, the derived [Ord] of arrays and vectors of bytes:
    iteration over a [BTreeMap] visits the keys in this order. *)
Fixpoint bytes_leb (a b : bytes) : bool :=
  match a, b with
  | [], _ => true
  | _ :: _, [] => false
  | x :: a', y :: b' =>
      if x <? y then true else if y <? x then false else bytes_leb a' b'
  end.
Definition bytes_le (a b : bytes) : Prop := bytes_leb a b = true.

#[export] Instance bytes_le_dec : RelDecision bytes_le.
Proof. intros a b. unfold bytes_le. apply _. Defined.

Definition key_le {K A} (le : relation K) (a b : K * A) : Prop := le a.1 b.1.

#[export] Instance key_le_dec {K A} (le : relation K) `{!RelDecision le} (a b : K * A) :
  Decision (key_le le a b).
Proof. unfold key_le. apply _. Defined.

(** The entries of a [BTreeMap] in iteration order: ascending keys. *)
Definition btree_iter `{Countable K} (le : relation K) `{!RelDecision le} {A} (m : gmap K A)
    : list (K * A) :=
  merge_sort (key_le le) (map_to_list m).

(** Lexicographic order of pairs of byte strings. *)
Definition bytes2_le (a b : bytes * bytes) : Prop :=
  if decide (a.1 = b.1) then bytes_le a.2 b.2 else bytes_le a.1 b.1.

#[export] Instance bytes2_le_dec : RelDecision bytes2_le.
Proof. intros a b. unfold bytes2_le. destruct (decide (a.1 = b.1)); apply _. Defined.

(** ** Automation *)

Create HintDb rns discriminated.

(** Split every [if]/[match] scrutinee in the goal, discarding absurd cases. *)
Ltac crush_match :=
  repeat match goal with
  | |- context [match ?x with _ => _ end] => destruct x eqn:?; simplify_eq/=; try done
  end.

Ltac crush_match_in H :=
  repeat match type of H with
  | context [match ?x with _ => _ end] => destruct x eqn:?; simplify_eq/=; try done
  end.

(** Linear arithmetic with division and modulo by constants. *)
Ltac div_lia := Z.to_euclidean_division_equations; lia.

(** Turn boolean arithmetic tests in the context into propositions. *)
Ltac zb :=
  repeat match goal with
  | H : (_ <? _) = true |- _ => apply Z.ltb_lt in H
  | H : (_ <? _) = false |- _ => apply Z.ltb_ge in H
  | H : (_ <=? _) = true |- _ => apply Z.leb_le in H
  | H : (_ <=? _) = false |- _ => apply Z.leb_gt in H
  | H : (_ =? _) = true |- _ => apply Z.eqb_eq in H
  | H : (_ =? _) = false |- _ => apply Z.eqb_neq in H
  | H : (_ <? _)%nat = true |- _ => apply Nat.ltb_lt in H
  | H : (_ <? _)%nat = false |- _ => apply Nat.ltb_ge in H
  | H : (_ <=? _)%nat = true |- _ => apply Nat.leb_le in H
  | H : (_ <=? _)%nat = false |- _ => apply Nat.leb_gt in H
  | H : (_ =? _)%nat = true |- _ => apply Nat.eqb_eq in H
  | H : (_ =? _)%nat = false |- _ => apply Nat.eqb_neq in H
  | H : andb _ _ = true |- _ => apply andb_true_iff in H as [? ?]
  | H : orb _ _ = false |- _ => apply orb_false_iff in H as [? ?]
  | H : negb _ = true |- _ => apply negb_true_iff in H
  | H : negb _ = false |- _ => apply negb_false_iff in H
  end.

(** ** Monad lemmas *)

Lemma St_bind_Ok {S A B} (m : St S A) (f : A -> St S B) s a s' :
  m s = (Ok a, s') -> (m ≫= f) s = f a s'.
Proof. intros H. unfold mbind, St_bind. by rewrite H. Qed.

Lemma St_bind_Err {S A B} (m : St S A) (f : A -> St S B) s e s' :
  m s = (Err e, s') -> (m ≫= f) s = (Err e, s').
Proof. intros H. unfold mbind, St_bind. by rewrite H. Qed.

Lemma St_bind_inv_Ok {S A B} (m : St S A) (f : A -> St S B) s b s' :
  (m ≫= f) s = (Ok b, s') -> exists a s0, m s = (Ok a, s0) /\ f a s0 = (Ok b, s').
Proof. unfold mbind, St_bind. destruct (m s) as [[a|e] s0]; naive_solver. Qed.

(** ** Integer lemmas *)

Lemma wrap_small w z : in_width w z -> wrap w z = z.
Proof. intros H. by apply Z.mod_small. Qed.

Lemma wrap_in_width w z : 0 <= w -> in_width w (wrap w z).
Proof. intros H. apply Z.mod_pos_bound. lia. Qed.

Lemma is_u8_bound z : is_u8 z <-> 0 <= z < 256.
Proof. done. Qed.

Lemma u8_saturating_add_u8 a b : is_u8 a -> 0 <= b -> is_u8 (u8_saturating_add a b).
Proof. rewrite !is_u8_bound. unfold u8_saturating_add. lia. Qed.

Lemma u8_add_small a b : 0 <= a + b < 256 -> u8_add a b = a + b.
Proof. intros H. by apply (wrap_small 8). Qed.

Lemma all_u8_app l k : all_u8 (l ++ k) <-> all_u8 l /\ all_u8 k.
Proof. apply Forall_app. Qed.

Lemma all_u8_cons b l : all_u8 (b :: l) <-> is_u8 b /\ all_u8 l.
Proof. apply Forall_cons_iff. Qed.

Lemma all_u8_take n l : all_u8 l -> all_u8 (take n l).
Proof. apply Forall_take. Qed.

Lemma all_u8_drop n l : all_u8 l -> all_u8 (drop n l).
Proof. apply Forall_drop. Qed.

#[export] Hint Resolve all_u8_take all_u8_drop : rns.

(** A boolean statement about one byte is decided by its 256 instances. *)
Lemma u8_forall (P : Z -> bool) :
  forallb P (seqZ 0 256) = true -> forall z, is_u8 z -> P z = true.
Proof.
  intros H z Hz. rewrite is_u8_bound in Hz. rewrite forallb_forall in H. apply H.
  apply list_elem_of_In, elem_of_seqZ. lia.
Qed.

Lemma is_u8_testbit z : is_u8 z <-> 0 <= z /\ forall i, 8 <= i -> Z.testbit z i = false.
Proof.
  rewrite is_u8_bound. split.
  - intros [H0 H1]. split; [done|]. intros i Hi.
    destruct (decide (z = 0)) as [->|Hne]; [by rewrite Z.testbit_0_l|].
    apply Z.bits_above_log2; [done|].
    assert (Z.log2 z < 8); [|lia]. apply Z.log2_lt_pow2; lia.
  - intros [H0 H]. split; [done|].
    replace z with (z mod 2 ^ 8); [apply (Z.mod_pos_bound z (2 ^ 8)); lia|].
    rewrite <- Z.land_ones by lia. apply Z.bits_inj'. intros i Hi.
    rewrite Z.land_spec. destruct (decide (i < 8)).
    + rewrite Z.ones_spec_low by lia. by rewrite andb_true_r.
    + rewrite (H i) by lia. done.
Qed.

Lemma is_u8_lxor a b : is_u8 a -> is_u8 b -> is_u8 (Z.lxor a b).
Proof.
  rewrite !is_u8_testbit. intros [Ha Ha'] [Hb Hb']. split.
  - apply Z.lxor_nonneg. tauto.
  - intros i Hi. rewrite Z.lxor_spec, Ha', Hb' by done. done.
Qed.

Lemma is_u8_lor a b : is_u8 a -> is_u8 b -> is_u8 (Z.lor a b).
Proof.
  rewrite !is_u8_testbit. intros [Ha Ha'] [Hb Hb']. split.
  - apply Z.lor_nonneg. tauto.
  - intros i Hi. rewrite Z.lor_spec, Ha', Hb' by done. done.
Qed.

#[export] Hint Resolve is_u8_lxor is_u8_lor : rns.

Lemma be_encode_length n v : length (be_encode n v) = n.
Proof. revert v. induction n; intros v; simpl; [done|]. rewrite length_app, IHn. simpl. lia. Qed.

Lemma be_encode_u8 n v : all_u8 (be_encode n v).
Proof.
  revert v. induction n; intros v; simpl; [constructor|].
  apply all_u8_app. split; [apply IHn|]. repeat constructor.
  all: apply Z.mod_pos_bound; lia.
Qed.

Lemma be_decode_snoc l b : be_decode (l ++ [b]) = be_decode l * 256 + b.
Proof. unfold be_decode. by rewrite fold_left_app. Qed.

Lemma be_decode_encode n v :
  0 <= v < 256 ^ Z.of_nat n -> be_decode (be_encode n v) = v.
Proof.
  revert v. induction n as [|n IH]; intros v Hv.
  - change (be_decode (be_encode 0 v)) with 0. change (256 ^ Z.of_nat 0) with 1 in Hv. lia.
  - rewrite Nat2Z.inj_succ, Z.pow_succ_r in Hv by lia.
    simpl. rewrite be_decode_snoc, IH.
    + pose proof (Z.div_mod v 256). lia.
    + split; [apply Z.div_pos; lia|]. apply Z.div_lt_upper_bound; lia.
Qed.

Lemma be_decode_bound l : all_u8 l -> 0 <= be_decode l < 256 ^ Z.of_nat (length l).
Proof.
  induction l as [|b l IH] using rev_ind; intros H; [done|].
  apply all_u8_app in H as [Hl Hb]. apply all_u8_cons in Hb as [Hb _]. apply (proj1 (is_u8_bound b)) in Hb.
  specialize (IH Hl). rewrite be_decode_snoc, length_app, Nat.add_1_r, Nat2Z.inj_succ.
  rewrite Z.pow_succ_r by lia. generalize dependent (256 ^ Z.of_nat (length l)). lia.
Qed.

Lemma be_encode_decode l : all_u8 l -> be_encode (length l) (be_decode l) = l.
Proof.
  induction l as [|b l IH] using rev_ind; intros H; [done|].
  apply all_u8_app in H as [Hl Hb]. apply all_u8_cons in Hb as [Hb _]. apply (proj1 (is_u8_bound b)) in Hb.
  rewrite length_app, Nat.add_1_r, be_decode_snoc. simpl.
  replace ((be_decode l * 256 + b) / 256) with (be_decode l).
  - rewrite IH by done. do 2 f_equal.
    rewrite Z.add_comm, Z.mod_add, Z.mod_small by lia. done.
  - rewrite Z.div_add_l by lia. rewrite Z.div_small by lia. lia.
Qed.

(** ** List lemmas *)

Lemma splice_length {A} i (src l : list A) :
  (i + length src <= length l)%nat -> length (splice i src l) = length l.
Proof.
  intros H. unfold splice. rewrite !length_app, length_take, length_drop. lia.
Qed.

(** After writing at [i], the prefix up to the end of the write is the old
    prefix followed by the data. *)
Lemma take_splice {A} i (src l : list A) :
  (i + length src <= length l)%nat ->
  take (i + length src) (splice i src l) = take i l ++ src.
Proof.
  intros H. unfold splice. rewrite app_assoc. apply take_app_length'.
  rewrite length_app, length_take. lia.
Qed.

Lemma slice_length {A} i j (l : list A) :
  (i <= j)%nat -> (j <= length l)%nat -> length (slice i j l) = (j - i)%nat.
Proof. intros. unfold slice. rewrite length_take, length_drop. lia. Qed.

Lemma slice_all_u8 i j l : all_u8 l -> all_u8 (slice i j l).
Proof. intros. unfold slice. auto with rns. Qed.

#[export] Hint Resolve slice_all_u8 : rns.

Lemma slice_app_mid {A} (a b c : list A) :
  slice (length a) (length a + length b) (a ++ b ++ c) = b.
Proof.
  unfold slice. rewrite drop_app_length. apply take_app_length'. lia.
Qed.

(** ** Byte-string order *)

#[export] Instance bytes_le_total : Total bytes_le.
Proof.
  intros a. unfold bytes_le. induction a as [|x a IH]; intros [|y b]; simpl; auto.
  destruct (Z.ltb_spec x y), (Z.ltb_spec y x); auto; lia.
Qed.

#[export] Instance bytes_le_trans : Transitive bytes_le.
Proof.
  intros a. unfold bytes_le. induction a as [|x a IH]; intros [|y b] [|z c]; simpl; auto; try done.
  intros H1 H2.
  destruct (Z.ltb_spec x y), (Z.ltb_spec y x), (Z.ltb_spec y z), (Z.ltb_spec z y),
    (Z.ltb_spec x z), (Z.ltb_spec z x); try done; try lia. eauto.
Qed.

#[export] Instance bytes_le_antisym : AntiSymm (=) bytes_le.
Proof.
  intros a. unfold bytes_le. induction a as [|x a IH]; intros [|y b]; simpl; try done.
  intros H1 H2.
  destruct (Z.ltb_spec x y), (Z.ltb_spec y x); try done; try lia.
  assert (x = y) as -> by lia. f_equal. eauto.
Qed.

(** Removing a list of keys from a map. *)
Lemma foldl_delete_lookup `{Countable K} {A} (l : list K) (m : gmap K A) h :
  foldl (fun m h => delete h m) m l !! h = if decide (h ∈ l) then None else m !! h.
Proof.
  revert m. induction l as [|x l IH]; intros m; cbn [foldl].
  { by rewrite decide_False by apply not_elem_of_nil. }
  rewrite IH. destruct (decide (h ∈ l)) as [Hin|Hout].
  - by rewrite decide_True by (by apply elem_of_cons; right).
  - destruct (decide (h = x)) as [->|Hne].
    + rewrite lookup_delete_eq. by rewrite decide_True by (by apply elem_of_cons; left).
    + rewrite lookup_delete_ne by done. rewrite decide_False; [done|].
      intros [?|?]%elem_of_cons; done.
Qed.

Section BTreeIter.
Context `{Countable K} (le : relation K) `{!RelDecision le} {A : Type}.
Implicit Types (m : gmap K A).

Lemma btree_iter_Permutation m : btree_iter le m ≡ₚ map_to_list m.
Proof. apply merge_sort_Permutation. Qed.

Lemma elem_of_btree_iter m k v : (k, v) ∈ btree_iter le m <-> m !! k = Some v.
Proof. rewrite btree_iter_Permutation. apply elem_of_map_to_list. Qed.

Lemma NoDup_btree_iter_keys m : NoDup (btree_iter le m).*1.
Proof. rewrite btree_iter_Permutation. apply NoDup_fst_map_to_list. Qed.

Lemma btree_iter_to_map m : list_to_map (btree_iter le m) = m.
Proof.
  rewrite <- (list_to_map_to_list m) at 2. apply list_to_map_proper; [apply NoDup_btree_iter_keys|apply btree_iter_Permutation].
Qed.

Lemma btree_iter_length m : length (btree_iter le m) = size m.
Proof. by rewrite btree_iter_Permutation, length_map_to_list. Qed.

End BTreeIter.
