(* ===== verification/Float.v ===== *)
(** * Floating point as the code uses it

    IEEE 754 arithmetic through the standard library's executable [SpecFloat]
    (round to nearest, ties to even): [f64] has precision 53 and exponent
    bound 1024, [f32] has 24 and 128.  [Duration::from_secs_f64] converts to
    nanoseconds, rounding to nearest, ties to even.  Durations and instants
    are integers counting nanoseconds. *)

From Stdlib Require Import Floats.SpecFloat.
From S2P Require Import Prelude.

Definition f64 : Set := spec_float.
Definition f64_of_Z (z : Z) : f64 := binary_normalize 53 1024 z 0 false.
Definition f64_add : f64 -> f64 -> f64 := SFadd 53 1024.
Definition f64_sub : f64 -> f64 -> f64 := SFsub 53 1024.
Definition f64_mul : f64 -> f64 -> f64 := SFmul 53 1024.
Definition f64_div : f64 -> f64 -> f64 := SFdiv 53 1024.
(** The value [m * 2 ^ e], for literals such as [0.5]. *)
Definition f64_lit (m e : Z) : f64 := binary_normalize 53 1024 m e false.

(** A decimal literal [n / 10 ^ d], rounded once. *)
Definition f64_dec (n d : Z) : f64 := f64_div (f64_of_Z n) (f64_of_Z (10 ^ d)).

Definition f32 : Set := spec_float.
Definition f32_of_Z (z : Z) : f32 := binary_normalize 24 128 z 0 false.
Definition f32_add : f32 -> f32 -> f32 := SFadd 24 128.
Definition f32_sub : f32 -> f32 -> f32 := SFsub 24 128.
Definition f32_mul : f32 -> f32 -> f32 := SFmul 24 128.
Definition f32_div : f32 -> f32 -> f32 := SFdiv 24 128.
(** A decimal literal [n / 10 ^ d], rounded once. *)
Definition f32_dec (n d : Z) : f32 := f32_div (f32_of_Z n) (f32_of_Z (10 ^ d)).

Definition f_lt : spec_float -> spec_float -> bool := SFltb.
Definition f_le : spec_float -> spec_float -> bool := SFleb.
Definition f_eq : spec_float -> spec_float -> bool := SFeqb.

(** [x as uN] and [x as iN]: towards zero, saturating, 0 for NaN. *)
Definition f_trunc (x : spec_float) : option Z :=
  match x with
  | S754_finite s m e =>
      let v := if 0 <=? e then Z.pos m * 2 ^ e else Z.pos m / 2 ^ (- e) in
      Some (if s then - v else v)
  | S754_zero _ => Some 0
  | _ => None
  end.

Definition f_cast (lo hi : Z) (x : spec_float) : Z :=
  match x with
  | S754_nan => 0
  | S754_infinity s => if s then lo else hi
  | _ => Z.max lo (Z.min hi (default 0 (f_trunc x)))
  end.

(** Division rounding to nearest, ties to even, for a positive divisor. *)
Definition round_div (a b : Z) : Z :=
  let q := a / b in
  let r := a mod b in
  match Z.compare (2 * r) b with
  | Lt => q
  | Gt => q + 1
  | Eq => if Z.even q then q else q + 1
  end.

Definition NANOS : Z := 1000000000.

(** The largest [Duration] in nanoseconds. *)
Definition DURATION_MAX : Z := 2 ^ 64 * NANOS - 1.

(** [None] is the panic on a negative, infinite, undefined or too large
    argument. *)
Definition from_secs_f64 (x : f64) : option Z :=
  match x with
  | S754_zero _ => Some 0
  | S754_finite false m e =>
      let ns := if 0 <=? e then Z.pos m * 2 ^ e * NANOS else round_div (Z.pos m * NANOS) (2 ^ (- e)) in
      if ns <=? DURATION_MAX then Some ns else None
  | _ => None
  end.

(** [Duration::as_secs_f64]: whole seconds plus the fraction. *)
Definition as_secs_f64 (ns : Z) : f64 :=
  f64_add (f64_of_Z (ns / NANOS)) (f64_div (f64_of_Z (ns mod NANOS)) (f64_of_Z NANOS)).

(** [f64::clamp] *)
Definition f64_clamp (lo hi x : f64) : f64 := if f_lt x lo then lo else if f_lt hi x then hi else x.

(** [f64::max] and [f64::min]: an undefined argument is passed over. *)
Definition f_is_nan (x : spec_float) : bool := match x with S754_nan => true | _ => false end.
Definition f64_max (x y : f64) : f64 := if f_is_nan x then y else if f_lt x y then y else x.
Definition f64_min (x y : f64) : f64 := if f_is_nan x then y else if f_lt y x then y else x.

(** [f64::ceil] of a non-negative number. *)
Definition f64_ceil (x : f64) : f64 :=
  match x with
  | S754_finite false m e => if 0 <=? e then x else f64_of_Z ((Z.pos m + 2 ^ (- e) - 1) / 2 ^ (- e))
  | _ => x
  end.

Definition f_is_finite (x : spec_float) : bool :=
  match x with S754_zero _ | S754_finite _ _ _ => true | _ => false end.

(** ** Bit patterns

    [f64::to_bits] of a value in canonical form (every undefined value is given
    as the quiet one), [f32::from_bits], and widening. *)
Definition f64_to_bits (x : f64) : Z :=
  let sign (s : bool) := if s then 2 ^ 63 else 0 in
  match x with
  | S754_zero s => sign s
  | S754_infinity s => sign s + 2047 * 2 ^ 52
  | S754_nan => 2047 * 2 ^ 52 + 2 ^ 51
  | S754_finite s m e =>
      sign s + (if Z.pos m <? 2 ^ 52 then Z.pos m else (e + 1075) * 2 ^ 52 + (Z.pos m - 2 ^ 52))
  end.

Definition f32_from_bits (b : Z) : f32 :=
  let s := 2 ^ 31 <=? b in
  let e := (b / 2 ^ 23) mod 256 in
  let m := b mod 2 ^ 23 in
  if e =? 255 then (if m =? 0 then S754_infinity s else S754_nan)
  else if e =? 0 then (match m with Z.pos p => S754_finite s p (-149) | _ => S754_zero s end)
  else match m + 2 ^ 23 with Z.pos p => S754_finite s p (e - 150) | _ => S754_nan end.

Definition f64_from_bits (b : Z) : f64 :=
  let s := 2 ^ 63 <=? b in
  let e := (b / 2 ^ 52) mod 2048 in
  let m := b mod 2 ^ 52 in
  if e =? 2047 then (if m =? 0 then S754_infinity s else S754_nan)
  else if e =? 0 then (match m with Z.pos p => S754_finite s p (-1074) | _ => S754_zero s end)
  else match m + 2 ^ 52 with Z.pos p => S754_finite s p (e - 1075) | _ => S754_nan end.

Definition f64_from_f32 (x : f32) : f64 :=
  match x with
  | S754_finite s m e => binary_normalize 53 1024 (if s then Z.neg m else Z.pos m) e s
  | _ => x
  end.

Lemma round_div_nonneg a b : 0 <= a -> 0 < b -> 0 <= round_div a b.
Proof.
  intros Ha Hb. unfold round_div. pose proof (Z.div_pos a b Ha Hb).
  destruct (_ ?= _); [destruct (Z.even _)|..]; lia.
Qed.

Lemma from_secs_f64_nonneg x n : from_secs_f64 x = Some n -> 0 <= n.
Proof.
  destruct x as [s|s| |[] m e]; try done; cbn [from_secs_f64]; [by intros [= <-]|].
  destruct (_ <=? DURATION_MAX); [|done]. intros [= <-]. destruct (Z.leb_spec 0 e); unfold NANOS.
  - pose proof (Z.pow_nonneg 2 e). lia.
  - apply round_div_nonneg; [lia|]. apply Z.pow_pos_nonneg; lia.
Qed.

(** ** Bit patterns of valid numbers *)
Lemma digits2_pos_bounds m : 2 ^ (Z.pos (digits2_pos m) - 1) <= Z.pos m < 2 ^ Z.pos (digits2_pos m).
Proof.
  induction m as [m IH|m IH|]; cbn [digits2_pos]; [| |done];
    rewrite Pos2Z.inj_succ; replace (Z.succ (Z.pos (digits2_pos m)) - 1) with (Z.succ (Z.pos (digits2_pos m) - 1)) by lia;
    rewrite !Z.pow_succ_r by lia; lia.
Qed.

(** A valid number has the full 53 digits, or the lowest exponent. *)
Lemma f64_bounded m e :
  bounded 53 1024 m e = true ->
  -1074 <= e <= 971 /\ Z.pos m < 2 ^ 53 /\ (2 ^ 52 <= Z.pos m \/ e = -1074).
Proof.
  unfold bounded, canonical_mantissa, fexp, emin. intros [Hc%Z.eqb_eq He%Z.leb_le]%andb_true_iff.
  pose proof (digits2_pos_bounds m) as [Hl Hu]. set (d := Z.pos (digits2_pos m)) in *.
  assert (d <= 53) as Hd by lia. pose proof (Z.pow_le_mono_r 2 d 53 ltac:(lia) Hd).
  split; [lia|]. split; [lia|]. destruct (Z.eq_dec d 53) as [Ed|]; [left; rewrite Ed in Hl; exact Hl|right; lia].
Qed.

Lemma f64_bits_range x : valid_binary 53 1024 x = true -> 0 <= f64_to_bits x < 2 ^ 64.
Proof.
  destruct x as [s|s| |s m e]; cbn [valid_binary f64_to_bits]; intros Hv; [destruct s; lia..|lia|].
  apply f64_bounded in Hv. destruct (Z.ltb_spec (Z.pos m) (2 ^ 52)); destruct s; lia.
Qed.

Lemma f64_bits_split s e m :
  0 <= e < 2048 -> 0 <= m < 2 ^ 52 -> let b := (if s : bool then 2 ^ 63 else 0) + (e * 2 ^ 52 + m) in
  (2 ^ 63 <=? b) = s /\ (b / 2 ^ 52) mod 2048 = e /\ b mod 2 ^ 52 = m.
Proof.
  intros He Hm b. assert (b = ((if s then 2048 else 0) + e) * 2 ^ 52 + m) as -> by (unfold b; destruct s; lia).
  split; [destruct s; lia|]. rewrite Z.div_add_l, (Z.div_small m) by lia. split.
  - destruct s; [|by rewrite Z.add_0_r, Z.mod_small by lia].
    rewrite Z.add_0_r, <- (Z.mul_1_l 2048) at 1. rewrite Z.add_comm, Z.mod_add, Z.mod_small by lia. done.
  - rewrite Z.add_comm, Z.mod_add, Z.mod_small by lia. done.
Qed.

(** Every valid number is read back from its bits. *)
Lemma f64_bits_roundtrip x : valid_binary 53 1024 x = true -> f64_from_bits (f64_to_bits x) = x.
Proof.
  destruct x as [s|s| |s m e]; cbn [valid_binary]; intros Hv; [by destruct s..|done|].
  apply f64_bounded in Hv as (He & Hm & Hor). unfold f64_to_bits. destruct (Z.ltb_spec (Z.pos m) (2 ^ 52)) as [Hs|Hs].
  - destruct (f64_bits_split s 0 (Z.pos m) ltac:(lia) ltac:(lia)) as (E1 & E2 & E3). rewrite Z.mul_0_l, Z.add_0_l in E1, E2, E3.
    unfold f64_from_bits. rewrite E1, E2, E3. cbn. f_equal. lia.
  - destruct (f64_bits_split s (e + 1075) (Z.pos m - 2 ^ 52) ltac:(lia) ltac:(lia)) as (E1 & E2 & E3).
    unfold f64_from_bits. rewrite E1, E2, E3. destruct (Z.eqb_spec (e + 1075) 2047); [lia|].
    destruct (Z.eqb_spec (e + 1075) 0); [lia|]. rewrite Z.sub_add. f_equal. lia.
Qed.
