(* ===== verification/Buffer.v ===== *)
(** * Byte buffers ([reticulum-core/src/buffer.rs])

    [StaticBuffer] is the fixed-capacity packet payload, [OutputBuffer] the
    cursor a serializer writes through and [InputBuffer] the cursor a parser
    reads through.  Each method that returns [Result] is a computation in the
    state-and-error monad [St] of the prelude; a slice expression that can
    panic is an [option]. *)

From S2P Require Import Prelude.

(** ** StaticBuffer

    The backing array [[u8; N]] is the list [buffer]; its length is the
    constant [N]. *)
Module StaticBuffer.

Record t := mk { buffer : bytes; len : nat }.

#[global] Instance eq_dec : EqDecision t.
Proof. solve_decision. Defined.

Definition capacity (b : t) : nat := length (buffer b).

Definition new (N : nat) : t := mk (replicate N 0) 0.

Definition reset (b : t) : t := mk (buffer b) 0.

Definition resize (n : nat) (b : t) : t := mk (buffer b) (n `min` capacity b).

Definition is_empty (b : t) : bool := (len b =? 0)%nat.

Definition as_slice (b : t) : bytes := take (len b) (buffer b).

Definition write (data : bytes) : St t nat := fun b =>
  let data_size := length data in
  if (data_size =? 0)%nat then (Ok 0%nat, b)
  else if (capacity b <? len b + data_size)%nat then (Err OutOfMemory, b)
  else (Ok data_size, mk (splice (len b) data (buffer b)) (len b + data_size)).

Definition chain_write (data : bytes) : St t unit := write data ≫= fun _ => mret tt.

(** [self.write(..).unwrap_or(0)] keeps the state whatever the outcome. *)
Definition safe_write (data : bytes) (b : t) : nat * t :=
  let max_size := (length data `min` (capacity b - len b))%nat in
  match write (take max_size data) b with
  | (Ok n, b') => (n, b')
  | (Err _, b') => (0%nat, b')
  end.

Definition chain_safe_write (data : bytes) (b : t) : t := snd (safe_write data b).

Definition new_from_slice (N : nat) (data : bytes) : t := chain_safe_write data (new N).

Definition rotate_left (mid : nat) : St t nat := fun b =>
  if (len b <? mid)%nat then (Err InvalidArgument, b)
  else (Ok (len b - mid)%nat,
        mk (drop mid (buffer b) ++ take mid (buffer b)) (len b - mid)).

(** [accuire_buf] hands out [&mut buffer[..len]]; the slice panics when [len]
    exceeds the capacity. *)
Definition accuire_buf (n : nat) (b : t) : option (t * bytes) :=
  if (capacity b <? n)%nat then None
  else Some (mk (buffer b) n, take n (buffer b)).

Definition accuire_buf_max (b : t) : option (t * bytes) := accuire_buf (capacity b) b.

(** Store through the slice handed out by [accuire_buf]. *)
Definition fill (data : bytes) (b : t) : t := mk (splice 0 data (buffer b)) (len b).

(** The representation invariant: the used prefix fits the array. *)
Definition wf (b : t) : Prop := (len b <= capacity b)%nat.

End StaticBuffer.

(** ** OutputBuffer *)
Module OutputBuffer.

Record t := mk { buffer : bytes; offset : nat }.

Definition new (buffer : bytes) : t := mk buffer 0.

Definition write (data : bytes) : St t nat := fun b =>
  let data_size := length data in
  if (data_size =? 0)%nat then (Ok 0%nat, b)
  else if (length (buffer b) <? offset b + data_size)%nat then (Err OutOfMemory, b)
  else (Ok data_size, mk (splice (offset b) data (buffer b)) (offset b + data_size)).

Definition write_byte (byte : Z) : St t nat := write [byte].

Definition reset (b : t) : t := mk (buffer b) 0.

Definition is_full (b : t) : bool := (offset b =? length (buffer b))%nat.

Definition as_slice (b : t) : bytes := take (offset b) (buffer b).

(** [Ok(buffer.offset())], the value most encoders return. *)
Definition ret_offset : St t nat := fun b => (Ok (offset b), b).

Definition wf (b : t) : Prop := (offset b <= length (buffer b))%nat.

(** Bytes that can still be written. *)
Definition room (b : t) : nat := length (buffer b) - offset b.

End OutputBuffer.

(** ** InputBuffer

    [read] fills a caller's slice; here it returns the bytes stored in it. *)
Module InputBuffer.

Record t := mk { buffer : bytes; offset : nat }.

Definition new (buffer : bytes) : t := mk buffer 0.

Definition read (size : nat) : St t bytes := fun b =>
  if (length (buffer b) <? offset b + size)%nat then (Err OutOfMemory, b)
  else (Ok (slice (offset b) (offset b + size) (buffer b)),
        mk (buffer b) (offset b + size)).

(** [read_size(buf, size)]: [buf_len] is [buf.len()]. *)
Definition read_size (buf_len size : nat) : St t bytes := fun b =>
  if (length (buffer b) <? offset b + size)%nat then (Err OutOfMemory, b)
  else if (buf_len <? size)%nat then (Err OutOfMemory, b)
  else (Ok (slice (offset b) (offset b + size) (buffer b)),
        mk (buffer b) (offset b + size)).

Definition read_byte : St t Z := read 1 ≫= fun buf => mret (nth 0 buf 0).

Definition read_slice (size : nat) : St t bytes := read size.

Definition bytes_left (b : t) : nat := length (buffer b) - offset b.

(** What is still to be read. *)
Definition rest (b : t) : bytes := drop (offset b) (buffer b).

Definition wf (b : t) : Prop := (offset b <= length (buffer b))%nat.

End InputBuffer.

(** ** Specification of the bounded byte log

    What callers rely on: a buffer is a capacity and a byte string no longer
    than it; a write appends or fails, a safe write appends the longest prefix
    that fits, a rotation drops bytes at the front. *)
Module ByteLog.

Record t := mk { cap : nat; content : bytes }.

Inductive op :=
| OpWrite (data : bytes)
| OpSafeWrite (data : bytes)
| OpRotateLeft (mid : nat)
| OpReset.

Definition step (o : op) (s : t) : result nat * t :=
  match o with
  | OpWrite data =>
      if (length (content s) + length data <=? cap s)%nat
      then (Ok (length data), mk (cap s) (content s ++ data))
      else (Err OutOfMemory, s)
  | OpSafeWrite data =>
      let room := (cap s - length (content s))%nat in
      (Ok (length data `min` room)%nat, mk (cap s) (content s ++ take room data))
  | OpRotateLeft mid =>
      if (mid <=? length (content s))%nat
      then (Ok (length (content s) - mid)%nat, mk (cap s) (drop mid (content s)))
      else (Err InvalidArgument, s)
  | OpReset => (Ok 0%nat, mk (cap s) [])
  end.

Fixpoint run (ops : list op) (s : t) : list (result nat) * t :=
  match ops with
  | [] => ([], s)
  | o :: ops' =>
      let '(r, s1) := step o s in
      let '(rs, s2) := run ops' s1 in
      (r :: rs, s2)
  end.

(** The same operations on the concrete buffer. *)
Definition cstep (o : op) (b : StaticBuffer.t) : result nat * StaticBuffer.t :=
  match o with
  | OpWrite data => StaticBuffer.write data b
  | OpSafeWrite data => let '(n, b') := StaticBuffer.safe_write data b in (Ok n, b')
  | OpRotateLeft mid => StaticBuffer.rotate_left mid b
  | OpReset => (Ok 0%nat, StaticBuffer.reset b)
  end.

Fixpoint crun (ops : list op) (b : StaticBuffer.t) : list (result nat) * StaticBuffer.t :=
  match ops with
  | [] => ([], b)
  | o :: ops' =>
      let '(r, b1) := cstep o b in
      let '(rs, b2) := crun ops' b1 in
      (r :: rs, b2)
  end.

Definition abs (b : StaticBuffer.t) : t :=
  mk (StaticBuffer.capacity b) (StaticBuffer.as_slice b).

End ByteLog.

(** ** StaticBuffer lemmas *)
Section StaticBufferLemmas.
Import StaticBuffer.
Implicit Types (b : StaticBuffer.t) (data : bytes).

Lemma as_slice_length b : wf b -> length (as_slice b) = len b.
Proof. unfold wf, as_slice, capacity. rewrite length_take. lia. Qed.

Lemma new_wf N : wf (new N).
Proof. unfold wf. simpl. lia. Qed.

Lemma sb_write_Ok data b :
  wf b -> (len b + length data <= capacity b)%nat ->
  exists b', write data b = (Ok (length data), b') /\ wf b' /\
    capacity b' = capacity b /\ as_slice b' = as_slice b ++ data.
Proof.
  intros Hwf Hfit. unfold write.
  destruct (Nat.eqb_spec (length data) 0) as [E|E].
  - rewrite E. exists b. apply nil_length_inv in E as ->. by rewrite app_nil_r.
  - destruct (Nat.ltb_spec (capacity b) (len b + length data)); [lia|].
    eexists. split; [done|]. unfold wf, capacity, as_slice in *. simpl.
    rewrite splice_length by lia. rewrite take_splice by lia. done.
Qed.

Lemma sb_write_Err data b :
  data <> [] -> (capacity b < len b + length data)%nat -> write data b = (Err OutOfMemory, b).
Proof.
  intros Hne Hbig. unfold write. destruct data; [done|].
  destruct (Nat.eqb_spec (length (z :: data)) 0); [done|].
  by destruct (Nat.ltb_spec (capacity b) (len b + length (z :: data))); [|lia].
Qed.

Lemma sb_safe_write data b :
  wf b -> exists b',
    safe_write data b = ((length data `min` (capacity b - len b))%nat, b') /\ wf b' /\
    capacity b' = capacity b /\
    as_slice b' = as_slice b ++ take (capacity b - len b) data.
Proof.
  intros Hwf. unfold safe_write. set (m := (length data `min` _)%nat).
  destruct (sb_write_Ok (take m data) b) as (b' & E & ? & ? & Hs); [done| |].
  { unfold wf in Hwf. rewrite length_take. lia. }
  rewrite E. exists b'. rewrite length_take. repeat split; try done.
  - f_equal. lia.
  - rewrite Hs. f_equal. subst m. destruct (decide (length data <= capacity b - len b)%nat).
    + rewrite !take_ge by lia. done.
    + f_equal. lia.
Qed.

Lemma sb_rotate_left mid b :
  wf b -> (mid <= len b)%nat -> exists b',
    rotate_left mid b = (Ok (len b - mid)%nat, b') /\ wf b' /\
    capacity b' = capacity b /\ as_slice b' = drop mid (as_slice b).
Proof.
  intros Hwf Hm. unfold rotate_left. destruct (Nat.ltb_spec (len b) mid); [lia|].
  eexists. split; [done|]. unfold wf, capacity, as_slice in *. simpl.
  rewrite length_app, length_drop, length_take.
  repeat split; try lia.
  rewrite take_app_le by (rewrite length_drop; lia).
  by rewrite skipn_firstn_comm.
Qed.

End StaticBufferLemmas.

#[export] Hint Resolve new_wf : rns.

(** the buffer is a bounded byte log. From any well-formed buffer, every
    sequence of [write], [safe_write], [rotate_left] and [reset] returns
    exactly what the abstract bounded log returns, and leaves exactly its
    contents readable through [as_slice]. *)
Theorem StaticBuffer_refines_ByteLog (ops : list ByteLog.op) (b : StaticBuffer.t)
    (Hwf : StaticBuffer.wf b) :
  let '(outs, b') := ByteLog.crun ops b in
  ByteLog.run ops (ByteLog.abs b) = (outs, ByteLog.abs b') /\ StaticBuffer.wf b'.
Proof.
  revert b Hwf. induction ops as [|o ops IH]; intros b Hwf; [done|].
  assert (exists r b1, ByteLog.cstep o b = (r, b1) /\
            ByteLog.step o (ByteLog.abs b) = (r, ByteLog.abs b1) /\ StaticBuffer.wf b1)
    as (r & b1 & E1 & E2 & Hwf1).
  { pose proof (as_slice_length b Hwf) as Hlen. unfold ByteLog.abs.
    destruct o as [data|data|mid|]; simpl; rewrite ?Hlen.
    - destruct (Nat.leb_spec (StaticBuffer.len b + length data) (StaticBuffer.capacity b)).
      + destruct (sb_write_Ok data b) as (b' & -> & ? & Hc & Hs); [done..|].
        eexists _, _. split; [done|]. by rewrite Hc, Hs.
      + rewrite sb_write_Err; [eauto| |done]. intros ->. simpl in *. unfold StaticBuffer.wf in *. lia.
    - destruct (sb_safe_write data b) as (b' & -> & ? & Hc & Hs); [done|].
      eexists _, _. split; [done|]. by rewrite Hc, Hs.
    - destruct (Nat.leb_spec mid (StaticBuffer.len b)).
      + destruct (sb_rotate_left mid b) as (b' & -> & ? & Hc & Hs); [done..|].
        eexists _, _. split; [done|]. by rewrite Hc, Hs.
      + unfold StaticBuffer.rotate_left.
        destruct (Nat.ltb_spec (StaticBuffer.len b) mid); [eauto|lia].
    - eexists _, _. split; [done|]. unfold StaticBuffer.wf. simpl. split; [done|lia]. }
  simpl. rewrite E1, E2. specialize (IH b1 Hwf1). destruct (ByteLog.crun ops b1) as [outs b'].
  destruct IH as [-> ?]. done.
Qed.

Lemma StaticBuffer_refines_ByteLog_witness :
  let b := StaticBuffer.new 4 in
  StaticBuffer.wf b /\
  ByteLog.run [ByteLog.OpWrite [1; 2; 3]; ByteLog.OpWrite [4; 5]; ByteLog.OpRotateLeft 1;
               ByteLog.OpSafeWrite [6; 7; 8]] (ByteLog.abs b)
  = ([Ok 3; Err OutOfMemory; Ok 2; Ok 2]%nat, ByteLog.mk 4 [2; 3; 6; 7]).
Proof.
  split; [apply new_wf|].
  destruct (StaticBuffer_refines_ByteLog
              [ByteLog.OpWrite [1; 2; 3]; ByteLog.OpWrite [4; 5]; ByteLog.OpRotateLeft 1;
               ByteLog.OpSafeWrite [6; 7; 8]] (StaticBuffer.new 4) (new_wf 4)) as [H _].
  exact H.
Defined.

(** ** OutputBuffer and InputBuffer lemmas *)
Section CursorLemmas.

Lemma ob_new_wf buf : OutputBuffer.wf (OutputBuffer.new buf).
Proof. unfold OutputBuffer.wf. simpl. lia. Qed.

Lemma ob_write_Ok data b :
  OutputBuffer.wf b -> (length data <= OutputBuffer.room b)%nat ->
  exists b', OutputBuffer.write data b = (Ok (length data), b') /\ OutputBuffer.wf b' /\
    OutputBuffer.room b' = (OutputBuffer.room b - length data)%nat /\
    OutputBuffer.as_slice b' = OutputBuffer.as_slice b ++ data.
Proof.
  intros Hwf Hfit.
  unfold OutputBuffer.write, OutputBuffer.room, OutputBuffer.wf, OutputBuffer.as_slice in *.
  destruct (Nat.eqb_spec (length data) 0) as [E|E].
  - rewrite E. exists b. apply nil_length_inv in E as ->. rewrite app_nil_r.
    repeat split; try done. lia.
  - destruct (Nat.ltb_spec (length (OutputBuffer.buffer b)) (OutputBuffer.offset b + length data));
      [lia|].
    eexists. split; [done|]. simpl. rewrite splice_length by lia. rewrite take_splice by lia.
    repeat split; try done; lia.
Qed.

(** A write that does not fit fails and leaves the buffer as it was. *)
Lemma ob_write_Err data b :
  OutputBuffer.wf b -> (OutputBuffer.room b < length data)%nat ->
  OutputBuffer.write data b = (Err OutOfMemory, b).
Proof.
  intros Hwf Hbig. unfold OutputBuffer.write, OutputBuffer.room, OutputBuffer.wf in *.
  destruct (Nat.eqb_spec (length data) 0); [lia|].
  by destruct (Nat.ltb_spec (length (OutputBuffer.buffer b)) (OutputBuffer.offset b + length data));
    [|lia].
Qed.

Lemma ib_read_Ok n b :
  (n <= length (InputBuffer.rest b))%nat -> InputBuffer.wf b ->
  InputBuffer.read n b =
    (Ok (take n (InputBuffer.rest b)), InputBuffer.mk (InputBuffer.buffer b) (InputBuffer.offset b + n)).
Proof.
  unfold InputBuffer.rest, InputBuffer.wf. rewrite length_drop. intros H Hwf.
  unfold InputBuffer.read.
  destruct (Nat.ltb_spec (length (InputBuffer.buffer b)) (InputBuffer.offset b + n)); [lia|].
  unfold slice. repeat f_equal. lia.
Qed.

Lemma ib_read_Err n b :
  (length (InputBuffer.rest b) < n)%nat -> InputBuffer.wf b ->
  InputBuffer.read n b = (Err OutOfMemory, b).
Proof.
  unfold InputBuffer.rest, InputBuffer.wf. rewrite length_drop. intros H Hwf.
  unfold InputBuffer.read.
  by destruct (Nat.ltb_spec (length (InputBuffer.buffer b)) (InputBuffer.offset b + n)); [|lia].
Qed.

Lemma ib_rest_advance n b :
  InputBuffer.rest (InputBuffer.mk (InputBuffer.buffer b) (InputBuffer.offset b + n))
  = drop n (InputBuffer.rest b).
Proof. unfold InputBuffer.rest. simpl. by rewrite drop_drop. Qed.

Lemma ib_bytes_left b : InputBuffer.bytes_left b = length (InputBuffer.rest b).
Proof. unfold InputBuffer.bytes_left, InputBuffer.rest. by rewrite length_drop. Qed.

(** Reading when the unread input is known to start with [a]. *)
Lemma ib_read_app a k b :
  InputBuffer.wf b -> InputBuffer.rest b = a ++ k ->
  exists b', InputBuffer.read (length a) b = (Ok a, b') /\ InputBuffer.wf b' /\
    InputBuffer.rest b' = k.
Proof.
  intros Hwf E. rewrite ib_read_Ok; [|by rewrite E, length_app; lia|done].
  rewrite E, take_app_length. eexists. split; [done|].
  rewrite ib_rest_advance, E, drop_app_length. split; [|done].
  unfold InputBuffer.wf in *. simpl. apply (f_equal length) in E.
  unfold InputBuffer.rest in E. rewrite length_drop, length_app in E. lia.
Qed.

Lemma ib_read_byte_cons x k b :
  InputBuffer.wf b -> InputBuffer.rest b = x :: k ->
  exists b', InputBuffer.read_byte b = (Ok x, b') /\ InputBuffer.wf b' /\ InputBuffer.rest b' = k.
Proof.
  intros Hwf E. destruct (ib_read_app [x] k b) as (b' & Er & ? & ?); [done..|].
  exists b'. split; [|done]. unfold InputBuffer.read_byte. by rewrite (St_bind_Ok _ _ _ _ _ Er).
Qed.

Lemma ib_new_wf l : InputBuffer.wf (InputBuffer.new l).
Proof. unfold InputBuffer.wf. simpl. lia. Qed.

Lemma ib_new_rest l : InputBuffer.rest (InputBuffer.new l) = l.
Proof. done. Qed.

End CursorLemmas.

#[export] Hint Resolve ob_new_wf ib_new_wf : rns.

(** ** Serializers as byte producers

    [emits m w R]: on a buffer with room for [w] the serializer [m] appends
    exactly [w] and returns a value satisfying [R]; otherwise it fails with
    [OutOfMemory]. *)
Definition emits {A} (m : St OutputBuffer.t A) (w : bytes) (R : A -> OutputBuffer.t -> Prop) : Prop :=
  forall b, OutputBuffer.wf b ->
  if (length w <=? OutputBuffer.room b)%nat
  then exists a b', m b = (Ok a, b') /\ OutputBuffer.wf b' /\
         OutputBuffer.room b' = (OutputBuffer.room b - length w)%nat /\
         OutputBuffer.as_slice b' = OutputBuffer.as_slice b ++ w /\ R a b'
  else exists b', m b = (Err OutOfMemory, b').

Lemma emits_write w : emits (OutputBuffer.write w) w (fun a _ => a = length w).
Proof.
  intros b Hb. destruct (Nat.leb_spec (length w) (OutputBuffer.room b)).
  - destruct (ob_write_Ok w b) as (b' & ? & ? & ? & ?); [done..|]. eauto 10.
  - exists b. by apply ob_write_Err.
Qed.

Lemma emits_write_byte x : emits (OutputBuffer.write_byte x) [x] (fun a _ => a = 1%nat).
Proof. apply (emits_write [x]). Qed.

Lemma emits_ret {A} (a : A) : emits (mret a) [] (fun a' _ => a' = a).
Proof. intros b Hb. simpl. exists a, b. rewrite app_nil_r. repeat split; try done. lia. Qed.

Lemma emits_ret_offset : emits OutputBuffer.ret_offset [] (fun a b' => a = OutputBuffer.offset b').
Proof.
  intros b Hb. simpl. exists (OutputBuffer.offset b), b. rewrite app_nil_r.
  repeat split; try done. lia.
Qed.

Lemma emits_weaken {A} (m : St OutputBuffer.t A) w (R R' : A -> OutputBuffer.t -> Prop) :
  (forall a b, R a b -> R' a b) -> emits m w R -> emits m w R'.
Proof.
  intros HR Hm b Hb. specialize (Hm b Hb). destruct (_ <=? _)%nat; [|done].
  destruct Hm as (a & b' & ? & ? & ? & ? & ?). eauto 10.
Qed.

Lemma emits_bind_dep {A B} (m : St OutputBuffer.t A) (f : A -> St OutputBuffer.t B) w1 w2 R1 R2 :
  emits m w1 R1 -> (forall a b, R1 a b -> emits (f a) w2 R2) -> emits (m ≫= f) (w1 ++ w2) R2.
Proof.
  intros Hm Hf b Hb. specialize (Hm b Hb). rewrite length_app.
  destruct (Nat.leb_spec (length w1) (OutputBuffer.room b)) as [Hfit|Hno].
  - destruct Hm as (a & b1 & E & Hb1 & Hroom & Hs & HR).
    rewrite (St_bind_Ok _ _ _ _ _ E). specialize (Hf a b1 HR b1 Hb1). rewrite Hroom, Hs in Hf.
    destruct (Nat.leb_spec (length w2) (OutputBuffer.room b - length w1)),
      (Nat.leb_spec (length w1 + length w2) (OutputBuffer.room b)); try lia; [|done].
    destruct Hf as (a2 & b2 & -> & ? & Hr2 & Hs2 & ?). exists a2, b2.
    rewrite app_assoc. repeat split; try done. lia.
  - destruct Hm as (b' & E).
    destruct (Nat.leb_spec (length w1 + length w2) (OutputBuffer.room b)); [lia|].
    exists b'. by apply St_bind_Err.
Qed.

Lemma emits_bind {A B} (m : St OutputBuffer.t A) (f : A -> St OutputBuffer.t B) w1 w2 R1 R2 :
  emits m w1 R1 -> (forall a, emits (f a) w2 R2) -> emits (m ≫= f) (w1 ++ w2) R2.
Proof. intros Hm Hf. eapply emits_bind_dep; eauto. Qed.

#[export] Hint Resolve emits_write emits_write_byte emits_ret emits_ret_offset : rns.
