(* ===== verification/Crypto.v ===== *)
(** * Cryptographic parameters

    HKDF-SHA256 ([hkdf] crate), Ed25519 ([ed25519-dalek] crate) and X25519
    ([x25519-dalek] crate) are not part of the repository.  The classes state
    what their documentation guarantees and the code relies on: output lengths
    and byte range, the longest HKDF output, that a signature verifies under
    the public key of its signing key, and that both sides of a key exchange
    compute the same secret.  A signing key is given by its 32-byte seed, a
    verifying key by its 32 bytes.  (Where the code replaces bytes that are no
    key by the default key, strict verification fails, as it rejects that weak
    key.) *)

From S2P Require Import Prelude.

Definition PUBLIC_KEY_LENGTH : nat := 32.
Definition SIGNATURE_LENGTH : nat := 64.

(** Largest output of HKDF-SHA256: 255 times 32 bytes. *)
Definition HKDF_MAX_OUTPUT : nat := 255 * 32.

Class Hkdf := {
  (** output key material for salt, input key material and length *)
  hkdf_expand : bytes -> bytes -> nat -> option bytes;
  hkdf_expand_ok : forall salt ikm n, (n <= HKDF_MAX_OUTPUT)%nat ->
    exists okm, hkdf_expand salt ikm n = Some okm /\ length okm = n /\ all_u8 okm;
  hkdf_expand_long : forall salt ikm n, (HKDF_MAX_OUTPUT < n)%nat -> hkdf_expand salt ikm n = None;
}.

Class Signing := {
  (** signature of a message under the key with the given 32-byte seed *)
  sign : bytes -> bytes -> bytes;
  sign_length : forall seed m, length (sign seed m) = 64%nat;
  sign_u8 : forall seed m, all_u8 (sign seed m);
}.

Class Verifying := {
  (** strict verification: key, message, signature *)
  verify_signature : bytes -> bytes -> bytes -> bool;
}.

Class Ed25519 `{!Signing} `{!Verifying} := {
  ed25519_public : bytes -> bytes;
  ed25519_public_length : forall seed, length (ed25519_public seed) = 32%nat;
  verify_sign : forall seed m, verify_signature (ed25519_public seed) m (sign seed m) = true;
}.

(** Decoding of verifying keys, and the verification that, unlike the strict
    one, does not reject weak keys. *)
Class Ed25519Keys `{!Signing} `{!Verifying} `{!Ed25519} := {
  (** whether 32 bytes are a verifying key *)
  ed25519_key_ok : bytes -> bool;
  ed25519_key_ok_public : forall seed, ed25519_key_ok (ed25519_public seed) = true;
  ed25519_public_u8 : forall seed, all_u8 (ed25519_public seed);
  (** bytes of [VerifyingKey::default()] *)
  ed25519_default_key : bytes;
  ed25519_default_key_length : length ed25519_default_key = PUBLIC_KEY_LENGTH;
  (** [VerifyingKey::verify]: key, message, signature *)
  verify_lax : bytes -> bytes -> bytes -> bool;
  verify_lax_sign : forall seed m, verify_lax (ed25519_public seed) m (sign seed m) = true;
}.

Class X25519 := {
  x25519_public : bytes -> bytes;
  x25519_public_length : forall secret, length (x25519_public secret) = PUBLIC_KEY_LENGTH;
  x25519_public_u8 : forall secret, all_u8 (x25519_public secret);
  (** shared secret of a secret key and a public key *)
  diffie_hellman : bytes -> bytes -> bytes;
  diffie_hellman_comm : forall a b,
    diffie_hellman a (x25519_public b) = diffie_hellman b (x25519_public a);
}.

(** ** Concrete instances for witnesses *)
Definition toy_hkdf : Hkdf.
Proof.
  refine {| hkdf_expand salt ikm n :=
    if (n <=? HKDF_MAX_OUTPUT)%nat
    then Some (map (fun i => wrap 8 (Z.of_nat i * 7 + foldr Z.add 3 ikm)) (seq 0 n)) else None |}.
  - intros salt ikm n Hn. destruct (Nat.leb_spec n HKDF_MAX_OUTPUT); [|lia].
    eexists. split; [done|]. rewrite length_map, length_seq. split; [done|].
    apply Forall_map, Forall_true. intros i. by apply wrap_in_width.
  - intros salt ikm n Hn. by destruct (Nat.leb_spec n HKDF_MAX_OUTPUT); [lia|].
Defined.

Definition toy_signing : Signing.
Proof.
  refine {| sign seed m := map (fun i => wrap 8 (Z.of_nat i + foldr Z.add 11 m)) (seq 0 64) |}.
  - intros seed m. by rewrite length_map, length_seq.
  - intros seed m. apply Forall_map, Forall_true. intros i. by apply wrap_in_width.
Defined.

Definition toy_verifying : Verifying :=
  {| verify_signature key m sig := bool_decide (sig = @sign toy_signing key m) |}.

Definition toy_ed25519 : @Ed25519 toy_signing toy_verifying.
Proof.
  refine {| ed25519_public seed := replicate 32 5 |}.
  - intros seed. apply length_replicate.
  - intros seed m. apply bool_decide_eq_true_2. reflexivity.
Defined.

Definition toy_keys : @Ed25519Keys toy_signing toy_verifying toy_ed25519.
Proof.
  refine {| ed25519_key_ok key := bool_decide (key = replicate 32 5);
            ed25519_default_key := 1 :: replicate 31 0;
            verify_lax key m sig := bool_decide (sig = @sign toy_signing key m) |}.
  - intros seed. by apply bool_decide_eq_true_2.
  - intros seed. apply Forall_replicate. by apply is_u8_bound.
  - reflexivity.
  - intros seed m. apply bool_decide_eq_true_2. reflexivity.
Defined.

(** The public key carries the sum of the secret's bytes, and the shared secret
    is the product of the two sums. *)
Definition toy_x25519 : X25519.
Proof.
  refine {| x25519_public secret := be_encode 32 (foldr Z.add 0 secret mod 256 ^ 32);
            diffie_hellman a B := be_encode 32 ((foldr Z.add 0 a mod 256 ^ 32) * be_decode B) |}.
  - intros. apply be_encode_length.
  - intros. apply be_encode_u8.
  - intros a b.
    pose proof (Z.mod_pos_bound (foldr Z.add 0 a) (256 ^ 32) ltac:(lia)).
    pose proof (Z.mod_pos_bound (foldr Z.add 0 b) (256 ^ 32) ltac:(lia)).
    rewrite !be_decode_encode by done. by rewrite Z.mul_comm.
Defined.
