(* ===== verification/Hash.v ===== *)
(** * Hashes and addresses ([reticulum-core/src/hash.rs])

    SHA-256 is the [sha2] crate, which is not part of the repository: it is
    the class [Sha256], whose laws state the output length and byte range that
    the crate's types guarantee.  A [Hash] is 32 bytes, an [AddressHash] 16. *)

From S2P Require Import Prelude.

Class Sha256 := {
  sha256 : bytes -> bytes;
  sha256_length : forall d, length (sha256 d) = 32%nat;
  sha256_u8 : forall d, all_u8 (sha256 d);
}.

Definition HASH_SIZE : nat := 32.
Definition ADDRESS_HASH_SIZE : nat := 16.

(** [Hash([u8; 32])] and [AddressHash([u8; 16])]: the byte strings, with the
    array lengths as predicates. *)
Abbreviation Hash := (list Z) (only parsing).
Abbreviation AddressHash := (list Z) (only parsing).
Definition is_hash (h : Hash) : Prop := length h = HASH_SIZE /\ all_u8 h.
Definition is_address (a : AddressHash) : Prop := length a = ADDRESS_HASH_SIZE /\ all_u8 a.

#[export] Instance is_address_dec a : Decision (is_address a).
Proof. unfold is_address. apply _. Defined.

Section Hashing.
Context `{Sha256}.

(** [create_hash(data, out)] with [out_len = out.len()]: [copy_from_slice]
    panics unless the lengths agree, that is unless [out_len <= 32]. *)
Definition create_hash (data : bytes) (out_len : nat) : option bytes :=
  let digest := take (out_len `min` HASH_SIZE) (sha256 data) in
  if (length digest =? out_len)%nat then Some digest else None.

Definition Hash_new_from_slice (data : bytes) : Hash :=
  default [] (create_hash data HASH_SIZE).

Definition AddressHash_new_from_slice (data : bytes) : AddressHash :=
  default [] (create_hash data ADDRESS_HASH_SIZE).

Definition AddressHash_new_from_hash (h : Hash) : AddressHash := slice 0 ADDRESS_HASH_SIZE h.

(** [Hash::new_from_rand]: [seed] is what the random generator filled in. *)
Definition Hash_new_from_rand (seed : bytes) : Hash := Hash_new_from_slice seed.
Definition AddressHash_new_from_rand (seed : bytes) : AddressHash :=
  AddressHash_new_from_hash (Hash_new_from_rand seed).

End Hashing.

Definition AddressHash_new_from_raw_slice (data : bytes) : option AddressHash :=
  if (length data =? ADDRESS_HASH_SIZE)%nat then Some data else None.

Definition AddressHash_new_empty : AddressHash := replicate ADDRESS_HASH_SIZE 0.

(** [AddressHash::is_empty] tests the array length, a constant. *)
Definition AddressHash_is_empty (a : AddressHash) : bool := (length a =? 0)%nat.

(** ** Hexadecimal text

    Text is its UTF-8 bytes. *)
Definition hex_char (d : Z) : Z := if d <? 10 then 48 + d else 87 + d.

Definition hex_digit (c : Z) : option Z :=
  if (48 <=? c) && (c <=? 57) then Some (c - 48)
  else if (97 <=? c) && (c <=? 102) then Some (c - 87)
  else if (65 <=? c) && (c <=? 70) then Some (c - 55)
  else None.

(** [u8::from_str_radix(_, 16)] on a two-byte string; a leading plus sign is
    accepted by the standard library. *)
Definition from_str_radix16 (a b : Z) : option Z :=
  if a =? 43 then hex_digit b
  else x ← hex_digit a; y ← hex_digit b; Some (x * 16 + y).

Fixpoint parse_hex_pairs (n : nat) (s : bytes) : option bytes :=
  match n, s with
  | O, _ => Some []
  | S n', a :: b :: s' => x ← from_str_radix16 a b; l ← parse_hex_pairs n' s'; Some (x :: l)
  | S _, _ => None
  end.

(** [None] is the panic of [unwrap] on text that is not hexadecimal. *)
Definition AddressHash_new_from_hex_string (s : bytes) : option (result AddressHash) :=
  if (length s <? ADDRESS_HASH_SIZE * 2)%nat then Some (Err IncorrectHash)
  else Ok <$> parse_hex_pairs ADDRESS_HASH_SIZE s.

Definition AddressHash_to_hex_string (a : AddressHash) : bytes :=
  a ≫= fun byte => [hex_char (byte / 16); hex_char (byte mod 16)].

(** ** Lemmas *)
Section HashingLemmas.
Context `{Sha256}.

Lemma create_hash_spec data n :
  (n <= HASH_SIZE)%nat -> create_hash data n = Some (take n (sha256 data)).
Proof.
  intros Hn. unfold create_hash. rewrite Nat.min_l by done.
  rewrite length_take, sha256_length.
  destruct (Nat.eqb_spec (n `min` 32) n); [done|]. unfold HASH_SIZE in *. lia.
Qed.

Lemma Hash_new_from_slice_spec data : Hash_new_from_slice data = sha256 data.
Proof.
  unfold Hash_new_from_slice. rewrite create_hash_spec by done. simpl.
  apply take_ge. rewrite sha256_length. done.
Qed.

Lemma AddressHash_new_from_slice_spec data :
  AddressHash_new_from_slice data = take ADDRESS_HASH_SIZE (sha256 data).
Proof.
  unfold AddressHash_new_from_slice. rewrite create_hash_spec; [done|].
  unfold ADDRESS_HASH_SIZE, HASH_SIZE. lia.
Qed.

Lemma AddressHash_new_from_slice_is_address data : is_address (AddressHash_new_from_slice data).
Proof.
  rewrite AddressHash_new_from_slice_spec. split.
  - rewrite length_take, sha256_length. done.
  - apply all_u8_take, sha256_u8.
Qed.

Lemma AddressHash_new_from_hash_is_address h : is_hash h -> is_address (AddressHash_new_from_hash h).
Proof.
  intros [Hl Hu]. unfold AddressHash_new_from_hash. split.
  - rewrite slice_length; rewrite ?Hl; unfold ADDRESS_HASH_SIZE, HASH_SIZE; lia.
  - auto with rns.
Qed.

Lemma Hash_new_from_slice_is_hash data : is_hash (Hash_new_from_slice data).
Proof. rewrite Hash_new_from_slice_spec. split; [apply sha256_length|apply sha256_u8]. Qed.

(** The truncated hash of some data is the prefix of its full hash, however
    it is computed. *)
Lemma AddressHash_of_hash data :
  AddressHash_new_from_hash (Hash_new_from_slice data) = AddressHash_new_from_slice data.
Proof.
  rewrite Hash_new_from_slice_spec, AddressHash_new_from_slice_spec.
  unfold AddressHash_new_from_hash, slice. by rewrite drop_0.
Qed.

End HashingLemmas.

#[export] Hint Resolve AddressHash_new_from_slice_is_address AddressHash_new_from_hash_is_address
  Hash_new_from_slice_is_hash : rns.

Lemma hex_digit_char d : 0 <= d < 16 -> hex_digit (hex_char d) = Some d /\ hex_char d <> 43.
Proof.
  intros Hd. pose (P := fun d => bool_decide (hex_digit (hex_char d) = Some d /\ hex_char d <> 43)).
  assert (forallb P (seqZ 0 16) = true) as HP by (vm_compute; reflexivity).
  rewrite forallb_forall in HP. specialize (HP d). apply bool_decide_eq_true in HP; [done|].
  apply list_elem_of_In, elem_of_seqZ. lia.
Qed.

Lemma from_str_radix16_byte b :
  is_u8 b -> from_str_radix16 (hex_char (b / 16)) (hex_char (b mod 16)) = Some b.
Proof.
  rewrite is_u8_bound. intros Hb.
  assert (0 <= b / 16 < 16) by (split; [apply Z.div_pos|apply Z.div_lt_upper_bound]; lia).
  pose proof (Z.mod_pos_bound b 16 ltac:(lia)).
  destruct (hex_digit_char (b / 16)) as [Hx Hp]; [done|].
  destruct (hex_digit_char (b mod 16)) as [Hy _]; [done|].
  unfold from_str_radix16. destruct (Z.eqb_spec (hex_char (b / 16)) 43); [done|].
  rewrite Hx, Hy. simpl. f_equal. pose proof (Z.div_mod b 16). lia.
Qed.

Lemma parse_hex_pairs_to_hex a rest :
  all_u8 a -> parse_hex_pairs (length a) (AddressHash_to_hex_string a ++ rest) = Some a.
Proof.
  induction a as [|b a IH]; intros Ha; [done|].
  apply all_u8_cons in Ha as [Hb Ha]. simpl length.
  change (AddressHash_to_hex_string (b :: a)) with
    ([hex_char (b / 16); hex_char (b mod 16)] ++ AddressHash_to_hex_string a).
  rewrite <- app_assoc. simpl. rewrite from_str_radix16_byte by done. simpl.
  by rewrite IH.
Qed.

Lemma to_hex_string_length a :
  length (AddressHash_to_hex_string a) = (2 * length a)%nat.
Proof. induction a; simpl in *; [done|]. rewrite IHa. lia. Qed.

(** A concrete instance for witnesses. *)
Definition toy_sha256 : Sha256.
Proof.
  refine {| sha256 d := be_encode 32 (be_decode d) |}.
  - intros. apply be_encode_length.
  - intros. apply be_encode_u8.
Defined.

(** printing an address in hexadecimal and parsing it back gives the
    address, also when other text follows. *)
Theorem AddressHash_hex_roundtrip (a : AddressHash) (rest : bytes) (Ha : is_address a) :
  AddressHash_new_from_hex_string (AddressHash_to_hex_string a ++ rest) = Some (Ok a).
Proof.
  destruct Ha as [Hl Hu]. unfold AddressHash_new_from_hex_string.
  destruct (Nat.ltb_spec (length (AddressHash_to_hex_string a ++ rest)) (ADDRESS_HASH_SIZE * 2)).
  - rewrite length_app, to_hex_string_length, Hl in *. lia.
  - rewrite <- Hl. by rewrite parse_hex_pairs_to_hex.
Qed.

Lemma AddressHash_hex_roundtrip_witness :
  let a := [0xde; 0xad; 0xbe; 0xef; 0; 1; 2; 3; 4; 5; 6; 7; 8; 9; 10; 255] in
  is_address a /\
  AddressHash_new_from_hex_string (AddressHash_to_hex_string a ++ [120]) = Some (Ok a).
Proof.
  assert (is_address [0xde; 0xad; 0xbe; 0xef; 0; 1; 2; 3; 4; 5; 6; 7; 8; 9; 10; 255]) as H.
  { apply (bool_decide_unpack _). vm_compute. exact I. }
  split; [exact H|]. exact (AddressHash_hex_roundtrip _ [120] H).
Defined.
