(* ===== verification/Token.v ===== *)
(** * Encrypted tokens ([reticulum-core/src/crypt/fernet.rs])

    A token is an initialization vector, the CBC encryption of the padded text
    and an HMAC-SHA256 tag over both.  AES, CBC and HMAC are third-party crates
    ([aes], [cbc], [hmac]): the classes [CbcCipher] and [HmacSha256] state the
    documented behaviour the code relies on.  PKCS#7 padding is written out.

    An output buffer is given by its length.  A result is [None] where a slice
    expression of the code panics. *)

From S2P Require Import Prelude.

Definition AES128_BLOCKSIZE : nat := 16.
Definition HMAC_OUT_SIZE : nat := 32.
Definition IV_KEY_SIZE : nat := 16.
Definition FERNET_OVERHEAD_SIZE : nat := IV_KEY_SIZE + HMAC_OUT_SIZE.
Definition AES128_KEY_SIZE : nat := 16.
Definition AES256_KEY_SIZE : nat := 32.

Definition block_multiple (l : bytes) : Prop := (length l mod AES128_BLOCKSIZE = 0)%nat.

(** Encryption and decryption of whole blocks under a key of 16 (AES-128) or 32
    bytes (AES-256) and a 16-byte initialization vector. *)
Class CbcCipher := {
  cbc_encrypt : bytes -> bytes -> bytes -> bytes;
  cbc_decrypt : bytes -> bytes -> bytes -> bytes;
  cbc_encrypt_length : forall k iv d, block_multiple d -> length (cbc_encrypt k iv d) = length d;
  cbc_encrypt_u8 : forall k iv d, all_u8 (cbc_encrypt k iv d);
  cbc_decrypt_length : forall k iv c, block_multiple c -> length (cbc_decrypt k iv c) = length c;
  cbc_decrypt_encrypt : forall k iv d,
    block_multiple d -> all_u8 d -> cbc_decrypt k iv (cbc_encrypt k iv d) = d;
}.

Class HmacSha256 := {
  hmac : bytes -> bytes -> bytes;
  hmac_length : forall k d, length (hmac k d) = HMAC_OUT_SIZE;
  hmac_u8 : forall k d, all_u8 (hmac k d);
}.

(** ** PKCS#7 padding *)
Definition pkcs7_pad (text : bytes) : bytes :=
  let n := (AES128_BLOCKSIZE - length text mod AES128_BLOCKSIZE)%nat in
  text ++ replicate n (Z.of_nat n).

Definition pkcs7_unpad (padded : bytes) : option bytes :=
  let len := length padded in
  let n := Z.to_nat (List.last padded 0) in
  if (len =? 0)%nat || (n =? 0)%nat || (AES128_BLOCKSIZE <? n)%nat then None
  else if decide (drop (len - n) padded = replicate n (Z.of_nat n)) then Some (take (len - n) padded)
  else None.

(** ** Keys *)
Record Fernet := mkFernet {
  sign_key : bytes;
  enc_key : bytes;
}.

(** Copying at most [n] bytes into a zeroed array of [n]. *)
Definition fixed_key (n : nat) (k : bytes) : bytes := take n k ++ replicate (n - length k) 0.

Definition Fernet_new_from_slices (sign enc : bytes) : Fernet :=
  if (length sign <=? AES128_KEY_SIZE)%nat && (length enc <=? AES128_KEY_SIZE)%nat
  then mkFernet (fixed_key AES128_KEY_SIZE sign) (fixed_key AES128_KEY_SIZE enc)
  else mkFernet (fixed_key AES256_KEY_SIZE sign) (fixed_key AES256_KEY_SIZE enc).

Definition Fernet_new_from_key (key : bytes) : result Fernet :=
  if (length key =? 32)%nat then Ok (Fernet_new_from_slices (take 16 key) (drop 16 key))
  else if (length key =? 64)%nat then Ok (Fernet_new_from_slices (take 32 key) (drop 32 key))
  else Err InvalidArgument.

Section Tokens.
Context `{CbcCipher} `{HmacSha256}.

(** The generic [encrypt]: [iv] is what the random generator produced,
    [out_len] the length of the output buffer. *)
Definition fernet_encrypt_with (enc sign iv text : bytes) (out_len : nat) : option (result bytes) :=
  let padded := pkcs7_pad text in
  if (out_len - IV_KEY_SIZE <? length padded)%nat then Some (Err InvalidArgument)
  else
    let body := iv ++ cbc_encrypt enc iv padded in
    if (out_len <? length body + HMAC_OUT_SIZE)%nat then None
    else Some (Ok (body ++ hmac sign body)).

Definition Fernet_encrypt (f : Fernet) (iv text : bytes) (out_len : nat) : option (result bytes) :=
  let blocks := ((length text + AES128_BLOCKSIZE - 1) / AES128_BLOCKSIZE)%nat in
  let padded_len := (blocks * AES128_BLOCKSIZE + IV_KEY_SIZE)%nat in
  let required := (padded_len + HMAC_OUT_SIZE)%nat in
  if (out_len <? required)%nat then Some (Err InvalidArgument)
  else fernet_encrypt_with (enc_key f) (sign_key f) iv text out_len.

(** The tags are compared element by element, then by length. *)
Fixpoint tags_equal (expected actual : bytes) : bool :=
  match expected, actual with
  | [], [] => true
  | x :: expected', y :: actual' => if x =? y then tags_equal expected' actual' else false
  | _, _ => false
  end.

Definition Fernet_verify (f : Fernet) (token : bytes) : result bytes :=
  if (length token <=? FERNET_OVERHEAD_SIZE)%nat then Err InvalidArgument
  else
    let tag_start := (length token - HMAC_OUT_SIZE)%nat in
    if tags_equal (drop tag_start token) (hmac (sign_key f) (take tag_start token))
    then Ok token else Err IncorrectSignature.

Definition Fernet_decrypt (f : Fernet) (token : bytes) (out_len : nat) : result bytes :=
  if (length token <=? FERNET_OVERHEAD_SIZE)%nat then Err InvalidArgument
  else
    let tag_start := (length token - HMAC_OUT_SIZE)%nat in
    let iv := take IV_KEY_SIZE token in
    let ciphertext := slice IV_KEY_SIZE tag_start token in
    if negb (length ciphertext mod AES128_BLOCKSIZE =? 0)%nat || (out_len <? length ciphertext)%nat
    then Err CryptoError
    else
      match pkcs7_unpad (cbc_decrypt (enc_key f) iv ciphertext) with
      | Some text => Ok text
      | None => Err CryptoError
      end.

End Tokens.

(** ** Padding lemmas *)

Lemma pkcs7_pad_length text :
  length (pkcs7_pad text) = (length text / AES128_BLOCKSIZE * AES128_BLOCKSIZE + AES128_BLOCKSIZE)%nat.
Proof.
  unfold pkcs7_pad, AES128_BLOCKSIZE. rewrite length_app, length_replicate.
  pose proof (Nat.div_mod_eq (length text) 16). pose proof (Nat.mod_upper_bound (length text) 16). lia.
Qed.

Lemma pkcs7_pad_block text : block_multiple (pkcs7_pad text).
Proof.
  unfold block_multiple. rewrite pkcs7_pad_length. unfold AES128_BLOCKSIZE.
  replace (length text / 16 * 16 + 16)%nat with ((length text / 16 + 1) * 16)%nat by lia.
  apply Nat.Div0.mod_mul.
Qed.

Lemma pkcs7_pad_u8 text : all_u8 text -> all_u8 (pkcs7_pad text).
Proof.
  intros Ht. apply all_u8_app. split; [done|]. apply Forall_replicate. unfold AES128_BLOCKSIZE.
  apply is_u8_bound. pose proof (Nat.mod_upper_bound (length text) 16). lia.
Qed.

Lemma last_app_replicate (l : bytes) n x : (0 < n)%nat -> List.last (l ++ replicate n x) 0 = x.
Proof.
  intros Hn. destruct n as [|n]; [lia|]. rewrite replicate_S_end, app_assoc. apply last_last.
Qed.

Lemma pkcs7_unpad_pad text : pkcs7_unpad (pkcs7_pad text) = Some text.
Proof.
  unfold pkcs7_unpad, pkcs7_pad, AES128_BLOCKSIZE.
  pose proof (Nat.mod_upper_bound (length text) 16) as Hm.
  set (n := (16 - length text mod 16)%nat) in *. assert (1 <= n <= 16)%nat as Hn by (unfold n; lia).
  rewrite last_app_replicate, length_app, length_replicate, Nat2Z.id by lia.
  destruct (Nat.eqb_spec (length text + n) 0); [lia|]. destruct (Nat.eqb_spec n 0); [lia|].
  destruct (Nat.ltb_spec 16 n); [lia|]. cbn [orb].
  replace (length text + n - n)%nat with (length text) by lia.
  rewrite drop_app_length, take_app_length. by rewrite decide_True.
Qed.

Lemma tags_equal_spec a b : tags_equal a b = bool_decide (a = b).
Proof.
  revert b. induction a as [|x a IH]; intros [|y b]; simpl; try done.
  destruct (Z.eqb_spec x y) as [->|Hne].
  - rewrite IH. apply bool_decide_ext. split; congruence.
  - symmetry. apply bool_decide_eq_false_2. congruence.
Qed.

(** The number of blocks the size check counts, against the padded length. *)
Lemma blocks_padded text :
  let blocks := ((length text + AES128_BLOCKSIZE - 1) / AES128_BLOCKSIZE * AES128_BLOCKSIZE)%nat in
  if decide (length text mod AES128_BLOCKSIZE = 0)%nat
  then blocks = length text /\ length (pkcs7_pad text) = (length text + 16)%nat
  else blocks = length (pkcs7_pad text).
Proof.
  cbv zeta. rewrite pkcs7_pad_length. unfold AES128_BLOCKSIZE.
  pose proof (Nat.div_mod_eq (length text) 16) as E. pose proof (Nat.mod_upper_bound (length text) 16).
  set (q := (length text / 16)%nat) in *. set (r := (length text mod 16)%nat) in *.
  destruct (decide (r = 0)%nat).
  - split; [|lia]. replace (length text + 16 - 1)%nat with (15 + q * 16)%nat by lia.
    rewrite Nat.div_add by lia. change (15 / 16)%nat with 0%nat. lia.
  - replace (length text + 16 - 1)%nat with ((r - 1) + (q + 1) * 16)%nat by lia.
    rewrite Nat.div_add by lia. rewrite (Nat.div_small (r - 1)) by lia. lia.
Qed.

Section TokenTheorems.
Context `{CbcCipher} `{HmacSha256}.

Definition token_of (f : Fernet) (iv text : bytes) : bytes :=
  let body := iv ++ cbc_encrypt (enc_key f) iv (pkcs7_pad text) in body ++ hmac (sign_key f) body.

Lemma token_of_length f iv text :
  length iv = IV_KEY_SIZE ->
  length (token_of f iv text) = (FERNET_OVERHEAD_SIZE + length (pkcs7_pad text))%nat.
Proof.
  intros Hiv. unfold token_of, FERNET_OVERHEAD_SIZE. rewrite !length_app, hmac_length, Hiv.
  rewrite cbc_encrypt_length by apply pkcs7_pad_block. lia.
Qed.

Lemma token_of_u8 f iv text : all_u8 iv -> all_u8 (token_of f iv text).
Proof.
  intros Hiv. unfold token_of. rewrite !all_u8_app. auto using cbc_encrypt_u8, hmac_u8.
Qed.

(** The outcome of [encrypt] by the length of the buffer. *)
Lemma Fernet_encrypt_eq f iv text out_len :
  length iv = IV_KEY_SIZE ->
  Fernet_encrypt f iv text out_len =
    if decide (length text mod AES128_BLOCKSIZE = 0)%nat then
      if (out_len <? length text + FERNET_OVERHEAD_SIZE)%nat then Some (Err InvalidArgument)
      else if (out_len <? length text + FERNET_OVERHEAD_SIZE + AES128_BLOCKSIZE)%nat then None
      else Some (Ok (token_of f iv text))
    else
      if (out_len <? length (pkcs7_pad text) + FERNET_OVERHEAD_SIZE)%nat then Some (Err InvalidArgument)
      else Some (Ok (token_of f iv text)).
Proof.
  intros Hiv. unfold Fernet_encrypt, fernet_encrypt_with. pose proof (blocks_padded text) as Hb.
  cbv zeta in *. set (blocks := (_ / _ * _)%nat) in *.
  rewrite !length_app, Hiv, cbc_encrypt_length by apply pkcs7_pad_block.
  fold (token_of f iv text). unfold FERNET_OVERHEAD_SIZE, IV_KEY_SIZE, HMAC_OUT_SIZE in *.
  destruct (decide _) as [E|E].
  - destruct Hb as [-> Hp]. rewrite Hp. change AES128_BLOCKSIZE with 16%nat.
    destruct (Nat.ltb_spec out_len (length text + 16 + 32)), (Nat.ltb_spec out_len (length text + (16 + 32)));
      try lia; [done|]. destruct (Nat.ltb_spec (out_len - 16) (length text + 16)); [lia|].
    destruct (Nat.ltb_spec out_len (16 + (length text + 16) + 32)),
      (Nat.ltb_spec out_len (length text + (16 + 32) + 16)); try lia; done.
  - rewrite Hb. destruct (Nat.ltb_spec out_len (length (pkcs7_pad text) + 16 + 32)),
      (Nat.ltb_spec out_len (length (pkcs7_pad text) + (16 + 32))); try lia; [done|].
    destruct (Nat.ltb_spec (out_len - 16) (length (pkcs7_pad text))); [lia|].
    destruct (Nat.ltb_spec out_len (16 + length (pkcs7_pad text) + 32)); [lia|done].
Qed.

Lemma Fernet_encrypt_fits f iv text out_len :
  length iv = IV_KEY_SIZE -> (length (pkcs7_pad text) + FERNET_OVERHEAD_SIZE <= out_len)%nat ->
  Fernet_encrypt f iv text out_len = Some (Ok (token_of f iv text)).
Proof.
  intros Hiv Hfit. rewrite Fernet_encrypt_eq by done. pose proof (blocks_padded text) as Hb. cbv zeta in Hb.
  unfold AES128_BLOCKSIZE in *. destruct (decide _) as [E|E].
  - destruct Hb as [_ Hp]. rewrite Hp in Hfit. repeat (case_match; zb; [lia|]). done.
  - destruct (Nat.ltb_spec out_len (length (pkcs7_pad text) + FERNET_OVERHEAD_SIZE)); [lia|done].
Qed.

Lemma token_split f iv text :
  length iv = IV_KEY_SIZE ->
  let tag_start := (length (token_of f iv text) - HMAC_OUT_SIZE)%nat in
  let body := iv ++ cbc_encrypt (enc_key f) iv (pkcs7_pad text) in
  take tag_start (token_of f iv text) = body /\
  drop tag_start (token_of f iv text) = hmac (sign_key f) body /\
  slice IV_KEY_SIZE tag_start (token_of f iv text) = cbc_encrypt (enc_key f) iv (pkcs7_pad text).
Proof.
  intros Hiv tag_start body.
  assert (tag_start = length body) as ->.
  { unfold tag_start, token_of. fold body. rewrite length_app, hmac_length. lia. }
  unfold token_of. fold body. split; [apply take_app_length|]. split; [apply drop_app_length|].
  unfold body. rewrite <- Hiv, length_app, <- app_assoc. apply slice_app_mid.
Qed.

Lemma token_opens f iv text out_len :
  length iv = IV_KEY_SIZE -> all_u8 text -> (length (pkcs7_pad text) <= out_len)%nat ->
  Fernet_verify f (token_of f iv text) = Ok (token_of f iv text) /\
  Fernet_decrypt f (token_of f iv text) out_len = Ok text.
Proof.
  intros Hiv Ht Hout. pose proof (token_split f iv text Hiv) as (E1 & E2 & E3).
  pose proof (token_of_length f iv text Hiv) as Hl. pose proof (pkcs7_pad_block text) as Hblk.
  assert (0 < length (pkcs7_pad text))%nat as Hpos by (rewrite pkcs7_pad_length; unfold AES128_BLOCKSIZE; lia).
  unfold Fernet_verify, Fernet_decrypt. cbv zeta. rewrite E1, E2, E3.
  destruct (Nat.leb_spec (length (token_of f iv text)) FERNET_OVERHEAD_SIZE); [lia|].
  rewrite tags_equal_spec, bool_decide_eq_true_2 by done. split; [done|].
  rewrite cbc_encrypt_length by done. unfold block_multiple in Hblk. rewrite Hblk.
  cbn [Nat.eqb negb orb]. destruct (Nat.ltb_spec out_len (length (pkcs7_pad text))); [lia|].
  replace (take IV_KEY_SIZE (token_of f iv text)) with iv.
  - rewrite cbc_decrypt_encrypt by (done || by apply pkcs7_pad_u8). by rewrite pkcs7_unpad_pad.
  - unfold token_of. rewrite <- Hiv, <- app_assoc. by rewrite take_app_length.
Qed.

(** the token round trip. With an output buffer of the token's length or
    more, encryption succeeds, the token is 48 bytes longer than the padded
    text, it verifies under the same keys, and decrypts to the text exactly
    when the receiving buffer has room for the padded text. *)
Theorem Token_roundtrip (f : Fernet) (iv text : bytes) (out_len in_len : nat)
    (Hiv : length iv = IV_KEY_SIZE) (Htext : all_u8 text)
    (Hout : (length (pkcs7_pad text) + FERNET_OVERHEAD_SIZE <= out_len)%nat) :
  exists token, Fernet_encrypt f iv text out_len = Some (Ok token) /\
    length token = (FERNET_OVERHEAD_SIZE + length (pkcs7_pad text))%nat /\
    Fernet_verify f token = Ok token /\
    Fernet_decrypt f token in_len =
      (if (length (pkcs7_pad text) <=? in_len)%nat then Ok text else Err CryptoError).
Proof.
  exists (token_of f iv text). split; [by apply Fernet_encrypt_fits|].
  split; [by apply token_of_length|].
  split; [by apply (token_opens f iv text (length (pkcs7_pad text)))|].
  destruct (Nat.leb_spec (length (pkcs7_pad text)) in_len); [by apply token_opens|].
  pose proof (token_split f iv text Hiv) as (_ & _ & E3). pose proof (token_of_length f iv text Hiv) as Hl.
  assert (0 < length (pkcs7_pad text))%nat by (rewrite pkcs7_pad_length; unfold AES128_BLOCKSIZE; lia).
  unfold Fernet_decrypt. cbv zeta. rewrite E3, cbc_encrypt_length by apply pkcs7_pad_block.
  destruct (Nat.leb_spec (length (token_of f iv text)) FERNET_OVERHEAD_SIZE); [lia|].
  destruct (Nat.ltb_spec in_len (length (pkcs7_pad text))); [|lia]. by rewrite orb_true_r.
Qed.

(** when encryption panics. The size check counts the blocks of the text
    without the padding block that a text of whole blocks gets: for such a text
    a buffer that passes the check but is up to 15 bytes short makes the copy
    of the tag panic, and there is no other panic.  In particular a text of
    2000 bytes panics with the 2048-byte buffer of a packet. *)
Theorem Token_encrypt_panics (f : Fernet) (iv text : bytes) (out_len : nat)
    (Hiv : length iv = IV_KEY_SIZE) :
  (Fernet_encrypt f iv text out_len = None <->
     (length text mod 16 = 0)%nat /\ (length text + 48 <= out_len < length text + 64)%nat) /\
  (length text = 2000%nat -> Fernet_encrypt f iv text 2048 = None).
Proof.
  assert (Fernet_encrypt f iv text out_len = None <->
     (length text mod 16 = 0)%nat /\ (length text + 48 <= out_len < length text + 64)%nat) as Hgen.
  { rewrite Fernet_encrypt_eq by done. unfold FERNET_OVERHEAD_SIZE, IV_KEY_SIZE, HMAC_OUT_SIZE, AES128_BLOCKSIZE.
    destruct (decide (length text mod 16 = 0)%nat) as [E|E].
    - repeat case_match; zb; split; try done; lia.
    - case_match; zb; split; try done; lia. }
  split; [exact Hgen|]. intros Hl. rewrite Fernet_encrypt_eq, Hl by done. done.
Qed.

End TokenTheorems.

(** ** Concrete instances for witnesses *)
Definition toy_cbc : CbcCipher.
Proof.
  refine {| cbc_encrypt k iv d := map (fun b => wrap 8 (b + 1)) d;
            cbc_decrypt k iv c := map (fun b => wrap 8 (b - 1)) c |}.
  - intros k iv d _. apply length_map.
  - intros k iv d. apply Forall_map, Forall_true. intros b. by apply wrap_in_width.
  - intros k iv c _. apply length_map.
  - intros k iv d _ Hd. rewrite map_map. rewrite <- (map_id d) at 2. apply map_ext_in.
    intros b Hb. eapply Forall_forall in Hd; [|exact Hb].
    apply (proj1 (is_u8_bound b)) in Hd. unfold wrap. rewrite Zminus_mod_idemp_l.
    replace (b + 1 - 1) with b by lia. by apply Z.mod_small.
Defined.

Definition toy_hmac : HmacSha256.
Proof.
  refine {| hmac k d := be_encode 32 (foldr Z.add 5 (k ++ d)) |}.
  - intros. apply be_encode_length.
  - intros. apply be_encode_u8.
Defined.

Lemma Token_roundtrip_witness :
  let f := Fernet_new_from_slices (replicate 32 1) (replicate 32 2) in
  exists token, @Fernet_encrypt toy_cbc toy_hmac f (replicate 16 9) [1; 2; 3] 64 = Some (Ok token) /\
    @Fernet_decrypt toy_cbc f token 100 = Ok [1; 2; 3].
Proof.
  intros f.
  destruct (@Token_roundtrip toy_cbc toy_hmac f (replicate 16 9) [1; 2; 3] 64 100
              ltac:(reflexivity) ltac:(repeat constructor; discriminate) ltac:(vm_compute; lia))
    as (token & E1 & _ & _ & E2).
  exists token. split; [exact E1|exact E2].
Defined.

Lemma Token_encrypt_panics_witness :
  @Fernet_encrypt toy_cbc toy_hmac (mkFernet [] []) (replicate 16 0) (replicate 16 7) 70 = None.
Proof.
  apply (proj2 (proj1 (@Token_encrypt_panics toy_cbc toy_hmac (mkFernet [] []) (replicate 16 0)
    (replicate 16 7) 70 ltac:(reflexivity)))).
  simpl. lia.
Defined.
