(* ===== verification/Identity.v ===== *)
(** * Identities ([reticulum-core/src/identity.rs])

    Key pairs, their text and byte forms, derived keys, and encryption for an
    identity with its ratchets.  A secret key is its 32 bytes, a public key
    too.  A random draw is an argument; an output buffer is given by its
    length; [None] is a panic of the token encryption (see [Token]). *)

From S2P Require Import Prelude Crypto Hash Token.

Definition RATCHET_KEY_LENGTH : nat := 256 / 8.
Definition RATCHET_EXPIRY_SECS : Z := 60 * 60 * 24 * 30.
Definition RATCHET_ID_LENGTH : nat := 80 / 8.
Definition DERIVED_KEY_LENGTH : nat := 512 / 8.
Definition SINGLE_TOKEN_PUB_OVERHEAD : nat := RATCHET_KEY_LENGTH.

Record Identity := mkIdentity {
  public_key : bytes;
  verifying_key : bytes;
  address_hash : AddressHash;
}.

Record PrivateIdentity := mkPrivateIdentity {
  identity : Identity;
  private_key : bytes;
  signing_key : bytes;
}.

#[export] Instance Identity_eq_dec : EqDecision Identity.
Proof. solve_decision. Defined.

(** ** Construction and text form *)
Section Keys.
Context `{Sha256} `{Signing} `{!Verifying} `{!Ed25519} `{!Ed25519Keys} `{X25519}.

Definition Identity_new (pk vk : bytes) : Identity :=
  mkIdentity pk vk (AddressHash_new_from_hash (sha256 (pk ++ vk))).

(** 32 bytes that are no verifying key are replaced by the default key. *)
Definition identity_of_keys (pk vk : bytes) : Identity :=
  Identity_new pk (if ed25519_key_ok vk then vk else ed25519_default_key).

(** [None]: [copy_from_slice] panics unless both slices have 32 bytes. *)
Definition Identity_new_from_slices (pk vk : bytes) : option Identity :=
  if (length pk =? PUBLIC_KEY_LENGTH)%nat && (length vk =? PUBLIC_KEY_LENGTH)%nat
  then Some (identity_of_keys pk vk) else None.

(** [None]: text that is long enough but not hexadecimal. *)
Definition Identity_new_from_hex_string (s : bytes) : option (result Identity) :=
  if (length s <? PUBLIC_KEY_LENGTH * 2 * 2)%nat then Some (Err IncorrectHash)
  else
    pk ← parse_hex_pairs PUBLIC_KEY_LENGTH s;
    vk ← parse_hex_pairs PUBLIC_KEY_LENGTH (drop (PUBLIC_KEY_LENGTH * 2) s);
    Ok <$> Identity_new_from_slices pk vk.

Definition Identity_to_hex_string (i : Identity) : bytes :=
  AddressHash_to_hex_string (public_key i) ++ AddressHash_to_hex_string (verifying_key i).

Definition Identity_verify (i : Identity) (data sig : bytes) : result unit :=
  if verify_signature (verifying_key i) data sig then Ok () else Err IncorrectSignature.

Definition Identity_to_bytes (i : Identity) : bytes := public_key i ++ verifying_key i.

Definition Identity_default : Identity :=
  Identity_new (replicate PUBLIC_KEY_LENGTH 0) ed25519_default_key.

Definition PrivateIdentity_new (secret seed : bytes) : PrivateIdentity :=
  mkPrivateIdentity (Identity_new (x25519_public secret) (ed25519_public seed)) secret seed.

Definition PrivateIdentity_new_from_name (name : bytes) : PrivateIdentity :=
  let h := Hash_new_from_slice name in
  PrivateIdentity_new h (Hash_new_from_slice h).

Definition PrivateIdentity_new_from_hex_string (s : bytes) : option (result PrivateIdentity) :=
  if (length s <? PUBLIC_KEY_LENGTH * 2 * 2)%nat then Some (Err IncorrectHash)
  else
    secret ← parse_hex_pairs PUBLIC_KEY_LENGTH s;
    seed ← parse_hex_pairs PUBLIC_KEY_LENGTH (drop (PUBLIC_KEY_LENGTH * 2) s);
    Some (Ok (PrivateIdentity_new secret seed)).

Definition PrivateIdentity_to_hex_string (p : PrivateIdentity) : bytes :=
  AddressHash_to_hex_string (private_key p) ++ AddressHash_to_hex_string (signing_key p).

Definition PrivateIdentity_to_bytes (p : PrivateIdentity) : bytes := private_key p ++ signing_key p.

Definition PrivateIdentity_new_from_bytes (b : bytes) : result PrivateIdentity :=
  if negb (length b =? PUBLIC_KEY_LENGTH * 2)%nat then Err IncorrectHash
  else Ok (PrivateIdentity_new (take PUBLIC_KEY_LENGTH b) (drop PUBLIC_KEY_LENGTH b)).

Definition PrivateIdentity_sign (p : PrivateIdentity) (data : bytes) : bytes :=
  sign (signing_key p) data.

Definition PrivateIdentity_exchange (p : PrivateIdentity) (pk : bytes) : bytes :=
  diffie_hellman (private_key p) pk.

(** ** Ratchets *)
Definition ratchet_public_from_private (ratchet : bytes) : bytes := x25519_public ratchet.

Definition ratchet_id (ratchet_public : bytes) : Hash :=
  splice 0 (take RATCHET_ID_LENGTH (Hash_new_from_slice ratchet_public)) (replicate HASH_SIZE 0).

End Keys.

(** ** Derived keys

    The 64 bytes HKDF expands; without a salt it uses zeros. *)
Section DerivedKeys.
Context `{Hkdf} `{X25519}.

Definition DerivedKey_new (shared : bytes) (salt : option bytes) : bytes :=
  default (replicate DERIVED_KEY_LENGTH 0)
    (hkdf_expand (default (replicate HASH_SIZE 0) salt) shared DERIVED_KEY_LENGTH).

Definition DerivedKey_new_empty : bytes := replicate DERIVED_KEY_LENGTH 0.

Definition DerivedKey_new_from_private_key (secret pk : bytes) (salt : option bytes) : bytes :=
  DerivedKey_new (diffie_hellman secret pk) salt.

Definition DerivedKey_new_from_ephemeral_key (ephemeral pk : bytes) (salt : option bytes) : bytes :=
  DerivedKey_new (diffie_hellman ephemeral pk) salt.

End DerivedKeys.

(** The token keys of a derived key: its two halves. *)
Definition derived_fernet (key : bytes) : Fernet :=
  Fernet_new_from_slices (take (DERIVED_KEY_LENGTH / 2) key) (drop (DERIVED_KEY_LENGTH / 2) key).

(** ** Encryption *)
Section Encryption.
Context `{Sha256} `{Hkdf} `{X25519} `{CbcCipher} `{HmacSha256}.

Definition Identity_encrypt_with_ephemeral (i : Identity) (ephemeral iv text : bytes)
    (ratchet : option bytes) (out_len : nat) : option (result bytes) :=
  if (out_len <=? RATCHET_KEY_LENGTH)%nat then Some (Err InvalidArgument)
  else
    let target_public_key := default (public_key i) ratchet in
    let shared_key := diffie_hellman ephemeral target_public_key in
    let derived_key := DerivedKey_new shared_key (Some (address_hash i)) in
    let fernet := derived_fernet derived_key in
    r ← Fernet_encrypt fernet iv text (out_len - RATCHET_KEY_LENGTH);
    Some (token ← r; Ok (x25519_public ephemeral ++ token)).

Definition decrypt_token (derived_key data : bytes) (out_len : nat) : result bytes :=
  let fernet := derived_fernet derived_key in
  token ← Fernet_verify fernet data;
  Fernet_decrypt fernet token out_len.

(** The loop over the ratchets: the first that opens the token, with its id. *)
Fixpoint try_ratchets (salt peer ciphertext : bytes) (ratchets : list bytes) (out_len : nat)
    : option (bytes * bytes) :=
  match ratchets with
  | [] => None
  | ratchet :: rest =>
      let derived_key := DerivedKey_new (diffie_hellman ratchet peer) (Some salt) in
      match decrypt_token derived_key ciphertext out_len with
      | Ok text => Some (text, take RATCHET_ID_LENGTH (ratchet_id (ratchet_public_from_private ratchet)))
      | Err _ => try_ratchets salt peer ciphertext rest out_len
      end
  end.

Definition decrypt_ratchet (p : PrivateIdentity) (data : bytes) (ratchets : list bytes)
    (enforce_ratchets : bool) (out_len : nat) : result (bytes * option bytes) :=
  if (length data <=? RATCHET_KEY_LENGTH)%nat then Err InvalidArgument
  else
    let peer := take RATCHET_KEY_LENGTH data in
    let ciphertext := drop RATCHET_KEY_LENGTH data in
    let salt := address_hash (identity p) in
    match try_ratchets salt peer ciphertext ratchets out_len with
    | Some (text, id) => Ok (text, Some id)
    | None =>
        if enforce_ratchets then Err CryptoError
        else
          let derived_key := DerivedKey_new (diffie_hellman (private_key p) peer) (Some salt) in
          text ← decrypt_token derived_key ciphertext out_len;
          Ok (text, None)
    end.

Definition PrivateIdentity_decrypt (p : PrivateIdentity) (data : bytes) (ratchets : list bytes)
    (out_len : nat) : result bytes :=
  r ← decrypt_ratchet p data ratchets false out_len; Ok r.1.

(** *** The trait [EncryptIdentity] / [DecryptIdentity]

    [Identity] writes a fresh public key before the token and cuts the derived
    key after 16 bytes; [PrivateIdentity] writes the token alone. *)
Definition Identity_encrypt_derived (ephemeral iv text derived_key : bytes) (out_len : nat)
    : option (result bytes) :=
  if (out_len <? PUBLIC_KEY_LENGTH)%nat then Some (Err InvalidArgument)
  else
    r ← Fernet_encrypt (Fernet_new_from_slices (take 16 derived_key) (drop 16 derived_key)) iv text
          (out_len - PUBLIC_KEY_LENGTH);
    Some (token ← r; Ok (x25519_public ephemeral ++ token)).

Definition PrivateIdentity_encrypt_derived (iv text derived_key : bytes) (out_len : nat)
    : option (result bytes) :=
  Fernet_encrypt (derived_fernet derived_key) iv text out_len.

Definition PrivateIdentity_decrypt_derived (data derived_key : bytes) (out_len : nat) : result bytes :=
  if (length data <=? PUBLIC_KEY_LENGTH)%nat then Err InvalidArgument
  else decrypt_token derived_key data out_len.

End Encryption.

Definition EmptyIdentity_copy (text : bytes) (out_len : nat) : result bytes :=
  if (out_len <? length text)%nat then Err OutOfMemory else Ok text.

(** ** Lemmas *)
Lemma hex_pair_parses (a b rest : bytes) n :
  length a = n -> all_u8 a -> length b = n -> all_u8 b ->
  let s := AddressHash_to_hex_string a ++ AddressHash_to_hex_string b ++ rest in
  (n * 2 * 2 <= length s)%nat /\ parse_hex_pairs n s = Some a /\
  parse_hex_pairs n (drop (n * 2) s) = Some b.
Proof.
  intros Ha Ua Hb Ub s. unfold s. split; [|split].
  - rewrite !length_app, !to_hex_string_length. lia.
  - rewrite <- Ha. by apply parse_hex_pairs_to_hex.
  - replace (n * 2)%nat with (length (AddressHash_to_hex_string a)) by (rewrite to_hex_string_length; lia).
    rewrite drop_app_length, <- Hb. by apply parse_hex_pairs_to_hex.
Qed.

Section IdentityTheorems.
Context `{Sha256} `{Hkdf} `{X25519} `{CbcCipher} `{HmacSha256}.
Context `{Signing} `{!Verifying} `{!Ed25519} `{!Ed25519Keys}.

Lemma DerivedKey_new_length shared salt : length (DerivedKey_new shared salt) = DERIVED_KEY_LENGTH.
Proof.
  unfold DerivedKey_new.
  destruct (hkdf_expand_ok (default (replicate HASH_SIZE 0) salt) shared DERIVED_KEY_LENGTH)
    as (okm & -> & Hl & _); [|done].
  unfold DERIVED_KEY_LENGTH, HKDF_MAX_OUTPUT. apply Nat.leb_le. reflexivity.
Qed.

Lemma address_hash_is_address secret seed :
  is_address (address_hash (identity (PrivateIdentity_new secret seed))).
Proof. apply AddressHash_new_from_hash_is_address. split; [apply sha256_length|apply sha256_u8]. Qed.

(** What [encrypt_with_ephemeral] writes when the buffer is large enough. *)
Definition sealed (i : Identity) (ephemeral iv text : bytes) (ratchet : option bytes) : bytes :=
  x25519_public ephemeral ++
  token_of (derived_fernet (DerivedKey_new (diffie_hellman ephemeral (default (public_key i) ratchet))
                              (Some (address_hash i)))) iv text.

Definition sealed_length (text : bytes) : nat :=
  SINGLE_TOKEN_PUB_OVERHEAD + FERNET_OVERHEAD_SIZE + length (pkcs7_pad text).

Lemma encrypt_with_ephemeral_fits i ephemeral iv text ratchet out_len :
  length iv = IV_KEY_SIZE -> (sealed_length text <= out_len)%nat ->
  Identity_encrypt_with_ephemeral i ephemeral iv text ratchet out_len =
    Some (Ok (sealed i ephemeral iv text ratchet)).
Proof.
  intros Hiv Hfit. unfold Identity_encrypt_with_ephemeral, sealed_length, SINGLE_TOKEN_PUB_OVERHEAD in *.
  pose proof (pkcs7_pad_length text). unfold AES128_BLOCKSIZE in *.
  destruct (Nat.leb_spec out_len RATCHET_KEY_LENGTH); [lia|].
  rewrite Fernet_encrypt_fits by (done || lia). done.
Qed.

Lemma decrypt_token_opens key iv text out_len :
  length iv = IV_KEY_SIZE -> all_u8 text -> (length (pkcs7_pad text) <= out_len)%nat ->
  decrypt_token key (token_of (derived_fernet key) iv text) out_len = Ok text.
Proof.
  intros Hiv Ht Hout. unfold decrypt_token.
  destruct (token_opens (derived_fernet key) iv text out_len) as [-> E]; [done..|]. apply E.
Qed.

(** A ratchet opens the sealed text if [try_ratchets] would stop at it. *)
Definition opens_with (salt peer ciphertext : bytes) (out_len : nat) (ratchet : bytes) : Prop :=
  exists text,
    decrypt_token (DerivedKey_new (diffie_hellman ratchet peer) (Some salt)) ciphertext out_len = Ok text.

Lemma try_ratchets_skip salt peer ciphertext before ratchets out_len :
  Forall (fun r => ~ opens_with salt peer ciphertext out_len r) before ->
  try_ratchets salt peer ciphertext (before ++ ratchets) out_len =
  try_ratchets salt peer ciphertext ratchets out_len.
Proof.
  induction 1 as [|r before Hr _ IH]; [done|]. simpl. destruct (decrypt_token _ _ _) eqn:E; [|done].
  destruct Hr. by eexists.
Qed.

Lemma sealed_split i ephemeral iv text ratchet :
  take RATCHET_KEY_LENGTH (sealed i ephemeral iv text ratchet) = x25519_public ephemeral /\
  drop RATCHET_KEY_LENGTH (sealed i ephemeral iv text ratchet) =
    token_of (derived_fernet (DerivedKey_new (diffie_hellman ephemeral (default (public_key i) ratchet))
                                (Some (address_hash i)))) iv text.
Proof.
  unfold sealed. rewrite <- (x25519_public_length ephemeral : _ = RATCHET_KEY_LENGTH).
  by rewrite take_app_length, drop_app_length.
Qed.

Lemma sealed_length_eq i ephemeral iv text ratchet :
  length iv = IV_KEY_SIZE -> length (sealed i ephemeral iv text ratchet) = sealed_length text.
Proof.
  intros Hiv. unfold sealed, sealed_length. rewrite length_app, token_of_length by done.
  rewrite x25519_public_length. unfold SINGLE_TOKEN_PUB_OVERHEAD, PUBLIC_KEY_LENGTH.
  change RATCHET_KEY_LENGTH with 32%nat. lia.
Qed.

Lemma sealed_opens (secret seed ephemeral iv text : bytes) (ratchet : option bytes)
    (before after : list bytes) (enforce : bool) (out_len in_len : nat)
    (Hiv : length iv = IV_KEY_SIZE) (Htext : all_u8 text)
    (Hout : (sealed_length text <= out_len)%nat) (Hin : (length (pkcs7_pad text) <= in_len)%nat)
    (p := PrivateIdentity_new secret seed)
    (data := sealed (identity p) ephemeral iv text (ratchet_public_from_private <$> ratchet))
    (Hbefore : Forall (fun r => ~ opens_with (address_hash (identity p)) (x25519_public ephemeral)
                         (drop RATCHET_KEY_LENGTH data) in_len r) before) :
  Identity_encrypt_with_ephemeral (identity p) ephemeral iv text
    (ratchet_public_from_private <$> ratchet) out_len = Some (Ok data) /\
  match ratchet with
  | Some r =>
      decrypt_ratchet p data (before ++ r :: after) enforce in_len =
        Ok (text, Some (take RATCHET_ID_LENGTH (sha256 (ratchet_public_from_private r))))
  | None =>
      decrypt_ratchet p data before enforce in_len =
        (if enforce then Err CryptoError else Ok (text, None))
  end.
Proof.
  split; [by apply encrypt_with_ephemeral_fits|].
  pose proof (sealed_split (identity p) ephemeral iv text (ratchet_public_from_private <$> ratchet))
    as [E1 E2]. fold data in E1, E2.
  pose proof (sealed_length_eq (identity p) ephemeral iv text (ratchet_public_from_private <$> ratchet) Hiv)
    as Hl. fold data in Hl.
  assert (RATCHET_KEY_LENGTH < length data)%nat as Hlt.
  { rewrite Hl. unfold sealed_length, SINGLE_TOKEN_PUB_OVERHEAD, FERNET_OVERHEAD_SIZE, IV_KEY_SIZE. lia. }
  unfold decrypt_ratchet. rewrite E1.
  destruct ratchet as [r|]; destruct (Nat.leb_spec (length data) RATCHET_KEY_LENGTH); try lia.
  - rewrite try_ratchets_skip by done. rewrite E2. cbn [default fmap option_fmap option_map].
    simpl try_ratchets. unfold ratchet_public_from_private at 2. rewrite diffie_hellman_comm.
    rewrite decrypt_token_opens by done. do 3 f_equal. unfold ratchet_id, splice.
    rewrite Hash_new_from_slice_spec. rewrite take_0, app_nil_l, take_app_le, take_take; [done|].
    rewrite length_take, sha256_length. done.
  - replace before with (before ++ []) by apply app_nil_r. rewrite try_ratchets_skip by done.
    simpl. destruct enforce; [done|]. rewrite E2. simpl. rewrite diffie_hellman_comm.
    by rewrite decrypt_token_opens.
Qed.

(** C24: encryption for an identity reaches its owner. The text sealed for a
    ratchet is recovered with that ratchet, wherever it stands in the owner's
    list, together with the ratchet's id, whether or not ratchets are enforced;
    sealed for the identity key it is recovered without a ratchet id, or refused
    if ratchets are enforced.  (No ratchet tried earlier may open the token.) *)
Theorem Identity_ratchet_roundtrip (secret seed ephemeral iv text : bytes) (ratchet : option bytes)
    (before after : list bytes) (enforce : bool) (out_len in_len : nat)
    (Hiv : length iv = IV_KEY_SIZE) (Htext : all_u8 text)
    (Hout : (sealed_length text <= out_len)%nat) (Hin : (length (pkcs7_pad text) <= in_len)%nat)
    (p := PrivateIdentity_new secret seed)
    (data := sealed (identity p) ephemeral iv text (ratchet_public_from_private <$> ratchet))
    (Hbefore : Forall (fun r => ~ opens_with (address_hash (identity p)) (x25519_public ephemeral)
                         (drop RATCHET_KEY_LENGTH data) in_len r) before) :
  Identity_encrypt_with_ephemeral (identity p) ephemeral iv text
    (ratchet_public_from_private <$> ratchet) out_len = Some (Ok data) /\
  match ratchet with
  | Some r =>
      decrypt_ratchet p data (before ++ r :: after) enforce in_len =
        Ok (text, Some (take RATCHET_ID_LENGTH (sha256 (ratchet_public_from_private r))))
  | None =>
      decrypt_ratchet p data before enforce in_len =
        (if enforce then Err CryptoError else Ok (text, None))
  end.
Proof. by apply sealed_opens. Qed.

(** the text and byte forms of keys round trip. A private identity is read
    back from its hexadecimal text (whatever follows it) and from its bytes; the
    public identity printed from it is read back with the same address. *)
Theorem Identity_text_roundtrip (secret seed rest : bytes)
    (Hsecret : length secret = PUBLIC_KEY_LENGTH /\ all_u8 secret)
    (Hseed : length seed = PUBLIC_KEY_LENGTH /\ all_u8 seed)
    (p := PrivateIdentity_new secret seed) :
  PrivateIdentity_new_from_hex_string (PrivateIdentity_to_hex_string p ++ rest) = Some (Ok p) /\
  PrivateIdentity_new_from_bytes (PrivateIdentity_to_bytes p) = Ok p /\
  Identity_new_from_hex_string (Identity_to_hex_string (identity p) ++ rest) = Some (Ok (identity p)).
Proof.
  destruct Hsecret as [Ls Us], Hseed as [Ld Ud]. split; [|split].
  - unfold PrivateIdentity_new_from_hex_string, PrivateIdentity_to_hex_string. rewrite <- app_assoc.
    destruct (hex_pair_parses secret seed rest PUBLIC_KEY_LENGTH) as (Hl & E1 & E2); [done..|].
    cbn [p PrivateIdentity_new private_key signing_key]. case_match; zb; [lia|].
    rewrite E1. cbn [mbind option_bind]. by rewrite E2.
  - unfold PrivateIdentity_new_from_bytes, PrivateIdentity_to_bytes.
    cbn [p PrivateIdentity_new private_key signing_key].
    rewrite length_app, Ls, Ld. simpl negb. cbv iota.
    rewrite <- Ls. by rewrite take_app_length, drop_app_length.
  - unfold Identity_new_from_hex_string, Identity_to_hex_string. rewrite <- app_assoc.
    destruct (hex_pair_parses (x25519_public secret) (ed25519_public seed) rest PUBLIC_KEY_LENGTH)
      as (Hl & E1 & E2);
      [apply x25519_public_length|apply x25519_public_u8|apply ed25519_public_length|apply ed25519_public_u8|].
    cbn [p PrivateIdentity_new identity Identity_new public_key verifying_key].
    case_match; zb; [lia|]. rewrite E1. cbn [mbind option_bind]. rewrite E2. cbn [mbind option_bind].
    unfold Identity_new_from_slices, identity_of_keys. rewrite x25519_public_length, ed25519_public_length.
    by rewrite ed25519_key_ok_public.
Qed.

End IdentityTheorems.

(** ** Witnesses *)
#[local] Existing Instance toy_sha256.
#[local] Existing Instance toy_hkdf.
#[local] Existing Instance toy_x25519.
#[local] Existing Instance toy_cbc.
#[local] Existing Instance toy_hmac.
#[local] Existing Instance toy_signing.
#[local] Existing Instance toy_verifying.
#[local] Existing Instance toy_ed25519.
#[local] Existing Instance toy_keys.

Lemma Identity_ratchet_roundtrip_witness :
  let p := PrivateIdentity_new (replicate 32 1) (replicate 32 2) in
  let r := replicate 32 3 in
  exists data,
    Identity_encrypt_with_ephemeral (identity p) (replicate 32 4) (replicate 16 9) [1; 2; 3]
      (Some (ratchet_public_from_private r)) 200 = Some (Ok data) /\
    decrypt_ratchet p data [replicate 32 5; r] true 100 =
      Ok ([1; 2; 3], Some (take RATCHET_ID_LENGTH (sha256 (ratchet_public_from_private r)))).
Proof.
  intros p r. eexists.
  apply (Identity_ratchet_roundtrip (replicate 32 1) (replicate 32 2) (replicate 32 4) (replicate 16 9)
    [1; 2; 3] (Some r) [replicate 32 5] [] true 200 100).
  - reflexivity.
  - apply (bool_decide_unpack _). vm_compute. exact I.
  - apply Nat.leb_le. vm_compute. reflexivity.
  - apply Nat.leb_le. vm_compute. reflexivity.
  - constructor; [|constructor]. intros [text E]. vm_compute in E. discriminate E.
Defined.

Lemma Identity_text_roundtrip_witness :
  let p := PrivateIdentity_new (replicate 32 200) (replicate 32 7) in
  PrivateIdentity_new_from_bytes (PrivateIdentity_to_bytes p) = Ok p.
Proof.
  intros p. apply (Identity_text_roundtrip (replicate 32 200) (replicate 32 7) []);
    (split; [reflexivity|apply (bool_decide_unpack _); vm_compute; exact I]).
Defined.
