(* ===== verification/Msgpack.v ===== *)
(** * Persistent identity data ([reticulum-core/src/identity.rs])

    The files with known destinations, received ratchets and a destination's own
    ratchets: what is written, and the reader [MsgReader], which is the code's
    own.  The writing functions of the [rmp] crate are the class [Rmp]; its laws
    are the MessagePack format.  A floating-point time is its 64-bit pattern. *)

From S2P Require Import Prelude Float Crypto Hash Identity.

(** ** The writer *)
Definition msgpack_bin_header (n : Z) : bytes :=
  if n <? 256 then 0xc4 :: be_encode 1 n
  else if n <? 65536 then 0xc5 :: be_encode 2 n else 0xc6 :: be_encode 4 n.

Definition msgpack_str_header (n : Z) : bytes :=
  if n <? 32 then [0xa0 + n]
  else if n <? 256 then 0xd9 :: be_encode 1 n
  else if n <? 65536 then 0xda :: be_encode 2 n else 0xdb :: be_encode 4 n.

Definition msgpack_header (fix_marker marker16 marker32 n : Z) : bytes :=
  if n <? 16 then [fix_marker + n]
  else if n <? 65536 then marker16 :: be_encode 2 n else marker32 :: be_encode 4 n.

Class Rmp := {
  write_map_len : Z -> bytes;
  write_array_len : Z -> bytes;
  write_bin : bytes -> bytes;
  write_str : bytes -> bytes;
  write_nil : bytes;
  write_f64 : Z -> bytes;
  write_sint : Z -> bytes;
  write_map_len_spec : forall n, 0 <= n < 2 ^ 32 -> write_map_len n = msgpack_header 0x80 0xde 0xdf n;
  write_array_len_spec : forall n, 0 <= n < 2 ^ 32 -> write_array_len n = msgpack_header 0x90 0xdc 0xdd n;
  write_bin_spec : forall d, Z.of_nat (length d) < 2 ^ 32 ->
    write_bin d = msgpack_bin_header (Z.of_nat (length d)) ++ d;
  write_str_spec : forall d, Z.of_nat (length d) < 2 ^ 32 ->
    write_str d = msgpack_str_header (Z.of_nat (length d)) ++ d;
  write_nil_spec : write_nil = [0xc0];
  write_f64_spec : forall b, 0 <= b < 2 ^ 64 -> write_f64 b = 0xcb :: be_encode 8 b;
  write_sint_spec : forall v, -32 <= v < 128 -> write_sint v = [wrap 8 v];
}.

(** [rmp::decode::read_f64]: the bits, if the data starts with that marker. *)
Class RmpDecode := {
  decode_f64 : bytes -> option Z;
  decode_f64_spec : forall b rest, 0 <= b < 2 ^ 64 -> decode_f64 (0xcb :: be_encode 8 b ++ rest) = Some b;
}.

(** ** Data *)
Inductive DestinationUses :=
| Never
| Retained
| LastUsed (time : Z).

Record KnownDestinationData := mkKnown {
  kd_time : Z;
  kd_packet_hash : Hash;
  kd_public_key : bytes;
  kd_app_data : option bytes;
  kd_uses : DestinationUses;
}.

Record RatchetFileData := mkRatchetFile {
  rf_ratchet : bytes;
  rf_received : Z;
}.

#[export] Instance DestinationUses_eq_dec : EqDecision DestinationUses.
Proof. solve_decision. Defined.
#[export] Instance KnownDestinationData_eq_dec : EqDecision KnownDestinationData.
Proof. solve_decision. Defined.
#[export] Instance RatchetFileData_eq_dec : EqDecision RatchetFileData.
Proof. solve_decision. Defined.

Definition is_retained (u : DestinationUses) : bool := match u with Retained => true | _ => false end.
Definition was_used (u : DestinationUses) : bool := match u with LastUsed _ => true | _ => false end.

Definition recall `{Sha256} (entries : list (AddressHash * KnownDestinationData)) (target_hash : AddressHash)
    (from_identity_hash : bool) : option (AddressHash * KnownDestinationData) :=
  if from_identity_hash
  then List.find (fun '(_, entry) => bool_decide (AddressHash_new_from_slice (kd_public_key entry) = target_hash))
         entries
  else List.find (fun '(hash, _) => bool_decide (hash = target_hash)) entries.

(** ASCII text of the map keys. *)
Definition key_ratchet : bytes := [114; 97; 116; 99; 104; 101; 116].
Definition key_received : bytes := [114; 101; 99; 101; 105; 118; 101; 100].
Definition key_signature : bytes := [115; 105; 103; 110; 97; 116; 117; 114; 101].
Definition key_ratchets : bytes := [114; 97; 116; 99; 104; 101; 116; 115].

Section Packing.
Context `{Rmp}.

Definition pack_known_destination (e : AddressHash * KnownDestinationData) : bytes :=
  let '(hash, entry) := e in
  write_bin hash ++ write_array_len 5 ++ write_f64 (kd_time entry) ++ write_bin (kd_packet_hash entry) ++
  write_bin (kd_public_key entry) ++
  (match kd_app_data entry with Some data => write_bin data | None => write_nil end) ++
  match kd_uses entry with
  | Never => write_sint 0
  | Retained => write_sint (-1)
  | LastUsed time => write_f64 time
  end.

Definition pack_known_destinations (entries : list (AddressHash * KnownDestinationData)) : bytes :=
  write_map_len (wrap 32 (Z.of_nat (length entries))) ++ (entries ≫= pack_known_destination).

Definition pack_ratchet (data : RatchetFileData) : bytes :=
  write_map_len 2 ++ write_str key_ratchet ++ write_bin (rf_ratchet data) ++
  write_str key_received ++ write_f64 (rf_received data).

Definition pack_ratchet_list (keys : list bytes) : bytes :=
  write_array_len (wrap 32 (Z.of_nat (length keys))) ++ (keys ≫= write_bin).

Definition pack_destination_ratchets (keys : list bytes) (signature : bytes) : bytes :=
  write_map_len 2 ++ write_str key_signature ++ write_bin signature ++
  write_str key_ratchets ++ write_bin (pack_ratchet_list keys).

End Packing.

(** ** The reader *)
Record MsgReader := mkReader {
  data : bytes;
  pos : nat;
}.

Definition MsgReader_new (d : bytes) : MsgReader := mkReader d 0.

Definition read_byte : St MsgReader Z := fun r =>
  match data r !! pos r with
  | Some b => (Ok b, mkReader (data r) (pos r + 1))
  | None => (Err PacketError, r)
  end.

Definition read_take (len : nat) : St MsgReader bytes := fun r =>
  if (length (data r) <? pos r + len)%nat then (Err PacketError, r)
  else (Ok (slice (pos r) (pos r + len) (data r)), mkReader (data r) (pos r + len)).

(** [self.pos -= 1] *)
Definition unread : St MsgReader unit := fun r => (Ok (), mkReader (data r) (pos r - 1)).

Definition read_u16 : St MsgReader Z := b ← read_take 2; mret (be_decode b).
Definition read_u32 : St MsgReader Z := b ← read_take 4; mret (be_decode b).
Definition read_u64 : St MsgReader Z := b ← read_take 8; mret (be_decode b).

Definition between (lo hi m : Z) : bool := (lo <=? m) && (m <=? hi).

Definition read_map_len : St MsgReader Z :=
  marker ← read_byte;
  if between 0x80 0x8f marker then mret (Z.land marker 0x0f)
  else if marker =? 0xde then read_u16
  else if marker =? 0xdf then read_u32
  else throw PacketError.

Definition read_array_len : St MsgReader Z :=
  marker ← read_byte;
  if between 0x90 0x9f marker then mret (Z.land marker 0x0f)
  else if marker =? 0xdc then read_u16
  else if marker =? 0xdd then read_u32
  else throw PacketError.

Definition read_bin_len : St MsgReader nat :=
  marker ← read_byte;
  n ← (if marker =? 0xc4 then read_byte
       else if marker =? 0xc5 then read_u16
       else if marker =? 0xc6 then read_u32
       else if between 0xa0 0xbf marker then mret (Z.land marker 0x1f)
       else if marker =? 0xd9 then read_byte
       else if marker =? 0xda then read_u16
       else if marker =? 0xdb then read_u32
       else throw PacketError);
  mret (Z.to_nat n).

Definition read_bin : St MsgReader bytes := len ← read_bin_len; read_take len.

Definition read_fixed_bin (n : nat) : St MsgReader bytes :=
  len ← read_bin_len;
  if negb (len =? n)%nat then throw PacketError else read_take n.

Definition read_opt_bin : St MsgReader (option bytes) := fun r =>
  match data r !! pos r with
  | None => (Err PacketError, r)
  | Some marker =>
      if marker =? 0xc0 then (Ok None, mkReader (data r) (pos r + 1))
      else (d ← read_bin; mret (Some d)) r
  end.

Definition read_key : St MsgReader bytes := read_bin.

Inductive Num :=
| NumInt (v : Z)
| NumF64 (bits : Z).

(** The value of a two's complement number of [w] bits. *)
Definition signed (w z : Z) : Z := if z <? 2 ^ (w - 1) then z else z - 2 ^ w.

(** [read_number] outside the marker 0xcb, on which it calls [read_f64]. *)
Definition read_int (marker : Z) : St MsgReader Num :=
  if between 0x00 0x7f marker then mret (NumInt marker)
  else if between 0xe0 0xff marker then mret (NumInt (signed 8 marker))
  else if marker =? 0xcc then (v ← read_byte; mret (NumInt v))
  else if marker =? 0xcd then (v ← read_u16; mret (NumInt v))
  else if marker =? 0xce then (v ← read_u32; mret (NumInt v))
  else if marker =? 0xcf then (v ← read_u64; mret (NumInt (signed 64 v)))
  else if marker =? 0xd0 then (v ← read_byte; mret (NumInt (signed 8 v)))
  else if marker =? 0xd1 then (b ← read_take 2; mret (NumInt (signed 16 (be_decode b))))
  else if marker =? 0xd2 then (b ← read_take 4; mret (NumInt (signed 32 (be_decode b))))
  else if marker =? 0xd3 then (b ← read_take 8; mret (NumInt (signed 64 (be_decode b))))
  else throw PacketError.

(** [read_f64]; its call of [read_number] never meets the marker 0xcb. *)
Definition read_f64 : St MsgReader Z :=
  marker ← read_byte;
  if marker =? 0xcb then read_u64
  else if marker =? 0xca then (b ← read_u32; mret (f64_to_bits (f64_from_f32 (f32_from_bits b))))
  else
    _ ← unread;
    marker' ← read_byte;
    value ← read_int marker';
    mret (match value with
          | NumF64 value => value
          | NumInt value => f64_to_bits (f64_of_Z value)
          end).

Definition read_number : St MsgReader Num :=
  marker ← read_byte;
  if marker =? 0xcb then (_ ← unread; v ← read_f64; mret (NumF64 v))
  else read_int marker.

Definition uses_of (n : Num) : DestinationUses :=
  match n with
  | NumInt v => if v =? 0 then Never else if v =? -1 then Retained
                else LastUsed (f64_to_bits (f64_of_Z v))
  | NumF64 v => LastUsed v
  end.

Definition read_uses : St MsgReader DestinationUses := n ← read_number; mret (uses_of n).

Definition expect_end : St MsgReader unit := fun r =>
  if (pos r =? length (data r))%nat then (Ok (), r) else (Err PacketError, r).

(** *** Skipping a value of any kind

    [None]: the fuel ran out. *)
Definition Outcome : Type := option (result unit * MsgReader).

Fixpoint skip_n_values (skip : MsgReader -> Outcome) (count : nat) (r : MsgReader) : Outcome :=
  match count with
  | O => Some (Ok (), r)
  | S count' =>
      match skip r with
      | Some (Ok _, r') => skip_n_values skip count' r'
      | other => other
      end
  end.

Definition with_len (m : St MsgReader Z) (k : Z -> MsgReader -> Outcome) (r : MsgReader) : Outcome :=
  match m r with
  | (Ok n, r') => k n r'
  | (Err e, r') => Some (Err e, r')
  end.

Definition skip_bytes (n : Z) (r : MsgReader) : Outcome :=
  Some ((_ ← read_take (Z.to_nat n); mret ()) r).

(** [u32] doubling of a map's length. *)
Definition pairs (n : Z) : nat := Z.to_nat (wrap 32 (n * 2)).

Fixpoint skip_value_fuel (fuel : nat) (r : MsgReader) : Outcome :=
  match fuel with
  | O => None
  | S fuel' =>
      let skip_n n := skip_n_values (skip_value_fuel fuel') n in
      with_len read_byte (fun marker =>
        if (marker =? 0xc0) || (marker =? 0xc2) || (marker =? 0xc3) then fun r => Some (Ok (), r)
        else if between 0x00 0x7f marker || between 0xe0 0xff marker then fun r => Some (Ok (), r)
        else if (marker =? 0xcc) || (marker =? 0xd0) then skip_bytes 1
        else if (marker =? 0xcd) || (marker =? 0xd1) then skip_bytes 2
        else if (marker =? 0xce) || (marker =? 0xd2) || (marker =? 0xca) then skip_bytes 4
        else if (marker =? 0xcf) || (marker =? 0xd3) || (marker =? 0xcb) then skip_bytes 8
        else if between 0xa0 0xbf marker then skip_bytes (Z.land marker 0x1f)
        else if marker =? 0xd9 then with_len read_byte skip_bytes
        else if marker =? 0xda then with_len read_u16 skip_bytes
        else if marker =? 0xdb then with_len read_u32 skip_bytes
        else if marker =? 0xc4 then with_len read_byte skip_bytes
        else if marker =? 0xc5 then with_len read_u16 skip_bytes
        else if marker =? 0xc6 then with_len read_u32 skip_bytes
        else if between 0x90 0x9f marker then skip_n (Z.to_nat (Z.land marker 0x0f))
        else if marker =? 0xdc then with_len read_u16 (fun n => skip_n (Z.to_nat n))
        else if marker =? 0xdd then with_len read_u32 (fun n => skip_n (Z.to_nat n))
        else if between 0x80 0x8f marker then skip_n (pairs (Z.land marker 0x0f))
        else if marker =? 0xde then with_len read_u16 (fun n => skip_n (pairs n))
        else if marker =? 0xdf then with_len read_u32 (fun n => skip_n (pairs n))
        else fun r => Some (Err PacketError, r)) r
  end.

Definition remaining (r : MsgReader) : nat := length (data r) - pos r.

(** Every value takes a byte, so the number of bytes left bounds the nesting. *)
Definition skip_value : St MsgReader unit := fun r =>
  default (Err PacketError, r) (skip_value_fuel (S (remaining r)) r).

(** ** Unpacking *)

(** [for _ in 0..len] collecting what is read. *)
Fixpoint read_n {A} (m : St MsgReader A) (n : nat) : St MsgReader (list A) :=
  match n with
  | O => mret []
  | S n' => x ← m; l ← read_n m n'; mret (x :: l)
  end.

Definition unpack_known_destination : St MsgReader (AddressHash * KnownDestinationData) :=
  hash_bytes ← read_bin;
  if negb (length hash_bytes =? ADDRESS_HASH_SIZE)%nat then throw IncorrectHash
  else
    array_len ← read_array_len;
    if array_len <? 4 then throw PacketError
    else
      time ← read_f64;
      packet_hash ← read_fixed_bin HASH_SIZE;
      public_key ← read_fixed_bin (PUBLIC_KEY_LENGTH * 2);
      app_data ← read_opt_bin;
      uses ← (if 5 <=? array_len then read_uses else mret Never);
      mret (hash_bytes, mkKnown time packet_hash public_key app_data uses).

(** The end of every unpacking function: nothing may follow. *)
Definition read_file {A} (m : St MsgReader A) (b : bytes) : result A :=
  ((x ← m; _ ← expect_end; mret x) (MsgReader_new b)).1.

Definition unpack_known_destinations : bytes -> result (list (AddressHash * KnownDestinationData)) :=
  read_file (len ← read_map_len; read_n unpack_known_destination (Z.to_nat len)).

Fixpoint read_ratchet_entries (n : nat) (d : RatchetFileData) : St MsgReader RatchetFileData :=
  match n with
  | O => mret d
  | S n' =>
      key ← read_key;
      d' ← (if decide (key = key_ratchet) then
              (x ← read_fixed_bin RATCHET_KEY_LENGTH; mret (mkRatchetFile x (rf_received d)))
            else if decide (key = key_received) then
              (x ← read_f64; mret (mkRatchetFile (rf_ratchet d) x))
            else (_ ← skip_value; mret d));
      read_ratchet_entries n' d'
  end.

Definition unpack_ratchet : bytes -> result RatchetFileData :=
  read_file (len ← read_map_len;
             if len <? 2 then throw PacketError
             else read_ratchet_entries (Z.to_nat len) (mkRatchetFile (replicate RATCHET_KEY_LENGTH 0) 0)).

Definition unpack_ratchet_list : bytes -> result (list bytes) :=
  read_file (len ← read_array_len; read_n (read_fixed_bin RATCHET_KEY_LENGTH) (Z.to_nat len)).

(** A nested [Result] inside the reader's. *)
Definition lift_result {A} (x : result A) : St MsgReader A := fun r => (x, r).

Fixpoint read_destination_ratchets (n : nat) (acc : option (list bytes) * option bytes)
    : St MsgReader (option (list bytes) * option bytes) :=
  match n with
  | O => mret acc
  | S n' =>
      key ← read_key;
      acc' ← (if decide (key = key_signature) then
                (x ← read_fixed_bin SIGNATURE_LENGTH; mret (acc.1, Some x))
              else if decide (key = key_ratchets) then
                (packed ← read_bin; l ← lift_result (unpack_ratchet_list packed); mret (Some l, acc.2))
              else (_ ← skip_value; mret acc));
      read_destination_ratchets n' acc'
  end.

Definition unpack_destination_ratchets (b : bytes) : result (list bytes * bytes) :=
  acc ← read_file (len ← read_map_len;
                   if len <? 2 then throw PacketError
                   else read_destination_ratchets (Z.to_nat len) (None, None)) b;
  match acc with
  | (Some ratchets, Some signature) => Ok (ratchets, signature)
  | _ => Err PacketError
  end.

(** ** What a reader recognises

    [reads m enc a]: [m] applied where [enc] stands reads [a] and stops behind
    it; where the data ends inside [enc] it reports an error. *)
Definition reads {A} (m : St MsgReader A) (enc : bytes) (a : A) : Prop :=
  (forall d p rest, (p <= length d)%nat -> drop p d = enc ++ rest ->
     m (mkReader d p) = (Ok a, mkReader d (p + length enc))) /\
  (forall d p k, (p <= length d)%nat -> drop p d = take k enc -> (k < length enc)%nat ->
     exists e r, m (mkReader d p) = (Err e, r)).

Lemma St_bind_assoc {S A B C} (m : St S A) (f : A -> St S B) (g : B -> St S C) s :
  ((m ≫= f) ≫= g) s = (m ≫= fun x => f x ≫= g) s.
Proof. unfold mbind, St_bind. by destruct (m s) as [[|] ?]. Qed.

Lemma drop_app_step {A} p (d e rest : list A) :
  (p <= length d)%nat -> drop p d = e ++ rest ->
  (p + length e <= length d)%nat /\ drop (p + length e) d = rest.
Proof.
  intros Hp E. assert (length (drop p d) = length (e ++ rest)) as L by by rewrite E.
  rewrite length_drop, length_app in L. split; [lia|].
  rewrite <- drop_drop, E. apply drop_app_length.
Qed.

Lemma drop_app_lookup {A} p (d e : list A) x rest : drop p d = x :: rest -> d !! p = Some x.
Proof. intros E. rewrite <- (Nat.add_0_r p), <- lookup_drop, E. done. Qed.

Lemma drop_nil_lookup {A} p (d : list A) : drop p d = [] -> d !! p = None.
Proof. intros E. rewrite <- (Nat.add_0_r p), <- lookup_drop, E. done. Qed.

Lemma reads_ret {A} (a : A) : reads (mret a) [] a.
Proof.
  split; [intros d p rest _ _; simpl; by rewrite Nat.add_0_r|]. intros d p k _ _ H. simpl in H. lia.
Qed.

Lemma reads_bind {A B} (m : St MsgReader A) (f : A -> St MsgReader B) e1 e2 a b :
  reads m e1 a -> reads (f a) e2 b -> reads (m ≫= f) (e1 ++ e2) b.
Proof.
  intros [M1 M2] [F1 F2]. split.
  - intros d p rest Hp E. rewrite <- app_assoc in E. destruct (drop_app_step _ _ _ _ Hp E) as [Hp' E'].
    rewrite (St_bind_Ok _ _ _ _ _ (M1 _ _ _ Hp E)), (F1 _ _ _ Hp' E'), length_app. do 2 f_equal. lia.
  - intros d p k Hp E Hk. rewrite length_app in Hk. destruct (decide (k < length e1)%nat).
    + rewrite take_app_le in E by lia. destruct (M2 _ _ _ Hp E) as (e & r & Hm); [done|].
      exists e, r. by apply St_bind_Err.
    + rewrite take_app_ge in E by lia. destruct (drop_app_step _ _ _ _ Hp E) as [Hp' E'].
      rewrite (St_bind_Ok _ _ _ _ _ (M1 _ _ _ Hp E)). eapply F2; [done..|lia].
Qed.

Lemma reads_map {A B} (m : St MsgReader A) (f : A -> B) e a :
  reads m e a -> reads (x ← m; mret (f x)) e (f a).
Proof. intros Hm. rewrite <- (app_nil_r e). by eapply reads_bind, reads_ret. Qed.

Lemma reads_byte b : reads read_byte [b] b.
Proof.
  split.
  - intros d p rest _ E. unfold read_byte. simpl. by rewrite (drop_app_lookup p d [] b rest E).
  - intros d p k _ E Hk. simpl in Hk. replace k with 0%nat in E by lia.
    unfold read_byte. simpl. rewrite (drop_nil_lookup _ _ E). by eexists _, _.
Qed.

Lemma reads_take l : reads (read_take (length l)) l l.
Proof.
  split; unfold read_take; simpl.
  - intros d p rest Hp E. destruct (drop_app_step _ _ _ _ Hp E) as [Hp' _].
    destruct (Nat.ltb_spec (length d) (p + length l)); [lia|]. unfold slice.
    replace (p + length l - p)%nat with (length l) by lia. by rewrite E, take_app_length.
  - intros d p k Hp E Hk. assert (length (drop p d) = length (take k l)) as L by by rewrite E.
    rewrite length_drop, length_take in L.
    destruct (Nat.ltb_spec (length d) (p + length l)); [by eexists _, _|lia].
Qed.

Lemma reads_take_n n l : length l = n -> reads (read_take n) l l.
Proof. intros <-. apply reads_take. Qed.

Lemma reads_be n v :
  0 <= v < 256 ^ Z.of_nat n -> reads (b ← read_take n; mret (be_decode b)) (be_encode n v) v.
Proof.
  intros Hv. rewrite <- (be_decode_encode n v Hv) at 2. apply reads_map, reads_take_n, be_encode_length.
Qed.

Lemma reads_be1 n : 0 <= n < 256 -> reads read_byte (be_encode 1 n) n.
Proof. intros Hn. simpl. rewrite Z.mod_small by lia. apply reads_byte. Qed.

Lemma reads_u16 n : 0 <= n < 65536 -> reads read_u16 (be_encode 2 n) n.
Proof. intros Hn. by apply reads_be. Qed.

Lemma reads_u32 n : 0 <= n < 2 ^ 32 -> reads read_u32 (be_encode 4 n) n.
Proof. intros Hn. by apply reads_be. Qed.

Lemma reads_u64 n : 0 <= n < 2 ^ 64 -> reads read_u64 (be_encode 8 n) n.
Proof. intros Hn. by apply reads_be. Qed.

(** A reader that first reads a marker byte. *)
Lemma reads_marker {B} (f : Z -> St MsgReader B) m e b :
  reads (f m) e b -> reads (marker ← read_byte; f marker) (m :: e) b.
Proof. intros Hf. apply (reads_bind read_byte f [m] e m b); [apply reads_byte|exact Hf]. Qed.

(** A byte that is a marker plus a small length. *)
Lemma land_marker_16 hi n : 0 <= n < 16 -> Z.land (hi * 16 + n) 0x0f = n.
Proof.
  intros Hn. change 0x0f with (Z.ones 4). rewrite Z.land_ones by lia.
  rewrite Z.add_comm, Z.mod_add by lia. by apply Z.mod_small.
Qed.

Lemma land_marker_32 hi n : 0 <= n < 32 -> Z.land (hi * 32 + n) 0x1f = n.
Proof.
  intros Hn. change 0x1f with (Z.ones 5). rewrite Z.land_ones by lia.
  rewrite Z.add_comm, Z.mod_add by lia. by apply Z.mod_small.
Qed.

Lemma between_true lo hi m : lo <= m <= hi -> between lo hi m = true.
Proof. intros H. unfold between. apply andb_true_iff. split; apply Z.leb_le; lia. Qed.

(** Both container lengths, with the markers as parameters. *)
Lemma reads_map_len n : 0 <= n < 2 ^ 32 -> reads read_map_len (msgpack_header 0x80 0xde 0xdf n) n.
Proof.
  intros Hn. unfold msgpack_header. destruct (Z.ltb_spec n 16).
  - apply reads_marker. rewrite between_true by lia.
    change 0x80 with (8 * 16). rewrite land_marker_16 by lia. apply reads_ret.
  - destruct (Z.ltb_spec n 65536); apply reads_marker; [apply (reads_u16 n)|apply (reads_u32 n)]; lia.
Qed.

Lemma reads_array_len n : 0 <= n < 2 ^ 32 -> reads read_array_len (msgpack_header 0x90 0xdc 0xdd n) n.
Proof.
  intros Hn. unfold msgpack_header. destruct (Z.ltb_spec n 16).
  - apply reads_marker. rewrite between_true by lia.
    change 0x90 with (9 * 16). rewrite land_marker_16 by lia. apply reads_ret.
  - destruct (Z.ltb_spec n 65536); apply reads_marker; [apply (reads_u16 n)|apply (reads_u32 n)]; lia.
Qed.

Lemma reads_bin_len n : 0 <= n < 2 ^ 32 -> reads read_bin_len (msgpack_bin_header n) (Z.to_nat n).
Proof.
  intros Hn. unfold msgpack_bin_header.
  destruct (Z.ltb_spec n 256); [|destruct (Z.ltb_spec n 65536)]; apply reads_marker, reads_map;
    [apply (reads_be1 n)|apply (reads_u16 n)|apply (reads_u32 n)]; lia.
Qed.

Lemma reads_str_len n : 0 <= n < 2 ^ 32 -> reads read_bin_len (msgpack_str_header n) (Z.to_nat n).
Proof.
  intros Hn. unfold msgpack_str_header. destruct (Z.ltb_spec n 32).
  - apply reads_marker, reads_map. rewrite (between_true 0xa0 0xbf) by lia.
    repeat case_match; zb; try lia.
    change 0xa0 with (5 * 32). rewrite land_marker_32 by lia. apply reads_ret.
  - destruct (Z.ltb_spec n 256); [|destruct (Z.ltb_spec n 65536)]; apply reads_marker, reads_map;
      [apply (reads_be1 n)|apply (reads_u16 n)|apply (reads_u32 n)]; lia.
Qed.

Section Reading.
Context `{Rmp}.

Definition fits32 (d : bytes) : Prop := Z.of_nat (length d) < 2 ^ 32.

Lemma reads_bin d : fits32 d -> reads read_bin (write_bin d) d.
Proof.
  intros Hd. rewrite write_bin_spec by done. eapply reads_bind; [apply reads_bin_len; split; [lia|done]|].
  apply reads_take_n. lia.
Qed.

Lemma reads_str d : fits32 d -> reads read_bin (write_str d) d.
Proof.
  intros Hd. rewrite write_str_spec by done. eapply reads_bind; [apply reads_str_len; split; [lia|done]|].
  apply reads_take_n. lia.
Qed.

Lemma reads_fixed_bin n d : length d = n -> fits32 d -> reads (read_fixed_bin n) (write_bin d) d.
Proof.
  intros Hl Hd. rewrite write_bin_spec by done. eapply reads_bind; [apply reads_bin_len; split; [lia|done]|].
  rewrite Nat2Z.id, Hl, Nat.eqb_refl. by apply reads_take_n.
Qed.

Lemma reads_f64 b : 0 <= b < 2 ^ 64 -> reads read_f64 (write_f64 b) b.
Proof. intros Hb. rewrite write_f64_spec by done. apply reads_marker. by apply (reads_u64 b). Qed.

(** A reader that first looks at the next byte. *)
Lemma reads_peek {A} (m m' : St MsgReader A) x e a :
  reads m' (x :: e) a ->
  (forall d p, d !! p = Some x -> m (mkReader d p) = m' (mkReader d p)) ->
  (forall d p, d !! p = None -> exists er r, m (mkReader d p) = (Err er, r)) ->
  reads m (x :: e) a.
Proof.
  intros [M1 M2] Hm Hn. split.
  - intros d p rest Hp E. rewrite Hm; [by eapply M1|]. by eapply (drop_app_lookup p d []).
  - intros d p [|k] Hp E Hk.
    + apply Hn. by apply drop_nil_lookup.
    + rewrite Hm; [by eapply M2|]. by eapply (drop_app_lookup p d []).
Qed.

Lemma msgpack_bin_header_head n : 0 <= n -> exists x e, msgpack_bin_header n = x :: e /\ x <> 0xc0 /\ x <> 0xcb.
Proof. intros Hn. unfold msgpack_bin_header. repeat case_match; by eexists _, _. Qed.

Lemma reads_opt_bin o :
  from_option fits32 True o ->
  reads read_opt_bin (match o with Some d => write_bin d | None => write_nil end) o.
Proof.
  intros Ho. destruct o as [d|].
  - pose proof (reads_bin d Ho) as Hr. rewrite write_bin_spec in * by done.
    destruct (msgpack_bin_header_head (Z.of_nat (length d))) as (x & e & Ex & Hx & _); [lia|].
    rewrite Ex in *. simpl in *. eapply reads_peek; [apply reads_map, Hr|..]; intros d' p E; unfold read_opt_bin; simpl;
      rewrite E; [|by eexists _, _]. by destruct (Z.eqb_spec x 0xc0).
  - rewrite write_nil_spec. apply (reads_peek _ (_ ← read_byte; mret None)).
    + apply reads_marker, reads_ret.
    + intros d p E. unfold read_opt_bin, read_byte, mbind, St_bind. simpl. by rewrite E.
    + intros d p E. unfold read_opt_bin. simpl. rewrite E. by eexists _, _.
Qed.

Lemma reads_number_f64 b : 0 <= b < 2 ^ 64 -> reads read_number (write_f64 b) (NumF64 b).
Proof.
  intros Hb. pose proof (reads_f64 b Hb) as Hr. rewrite write_f64_spec in * by done.
  eapply reads_peek; [apply (reads_map read_f64 NumF64), Hr|..]; intros d p E; unfold read_number, mbind, St_bind.
  - unfold read_byte at 1. simpl. rewrite E. simpl. unfold unread. simpl. by rewrite Nat.add_sub.
  - unfold read_byte. simpl. rewrite E. by eexists _, _.
Qed.

Definition uses_wf (u : DestinationUses) : Prop :=
  match u with LastUsed b => 0 <= b < 2 ^ 64 | _ => True end.

Lemma reads_uses u :
  uses_wf u ->
  reads read_uses (match u with Never => write_sint 0 | Retained => write_sint (-1)
                   | LastUsed time => write_f64 time end) u.
Proof.
  intros Hu. destruct u as [| |b].
  - rewrite write_sint_spec by lia. apply (reads_map read_number uses_of _ (NumInt 0)). apply reads_marker, reads_ret.
  - rewrite write_sint_spec by lia. apply (reads_map read_number uses_of _ (NumInt (-1))). apply reads_marker, reads_ret.
  - apply (reads_map read_number uses_of _ (NumF64 b)). by apply reads_number_f64.
Qed.

Lemma reads_n {A} (m : St MsgReader A) (enc : A -> bytes) l :
  Forall (fun x => reads m (enc x) x) l -> reads (read_n m (length l)) (l ≫= enc) l.
Proof.
  induction 1 as [|x l Hx _ IH]; [apply reads_ret|]. simpl. eapply reads_bind; [done|]. by apply reads_map.
Qed.


(** ** Whole files *)
Definition known_wf (e : AddressHash * KnownDestinationData) : Prop :=
  length e.1 = ADDRESS_HASH_SIZE /\ 0 <= kd_time e.2 < 2 ^ 64 /\ length (kd_packet_hash e.2) = HASH_SIZE /\
  length (kd_public_key e.2) = (PUBLIC_KEY_LENGTH * 2)%nat /\ from_option fits32 True (kd_app_data e.2) /\
  uses_wf (kd_uses e.2).

Lemma fits32_small d n : length d = n -> (n <=? 64)%nat = true -> fits32 d.
Proof. intros <- Hn. apply Nat.leb_le in Hn. unfold fits32. lia. Qed.

Lemma reads_known_destination e :
  known_wf e -> reads unpack_known_destination (pack_known_destination e) e.
Proof.
  destruct e as [hash [time ph pk app uses]]. unfold known_wf. cbn [fst snd kd_time kd_packet_hash kd_public_key kd_app_data kd_uses].
  intros (Hh & Ht & Hph & Hpk & Happ & Hu). unfold unpack_known_destination, pack_known_destination.
  eapply reads_bind; [apply reads_bin; by eapply fits32_small|]. rewrite Hh, Nat.eqb_refl. cbn [negb].
  eapply reads_bind; [rewrite write_array_len_spec by lia; apply reads_array_len; lia|].
  cbn [Z.ltb Z.leb Z.compare Pos.compare Pos.compare_cont].
  eapply reads_bind; [by apply reads_f64|].
  eapply reads_bind; [apply reads_fixed_bin; [done|by eapply fits32_small]|].
  eapply reads_bind; [apply reads_fixed_bin; [done|by eapply fits32_small]|].
  eapply reads_bind; [by apply reads_opt_bin|].
  apply (reads_map read_uses (fun u => (hash, mkKnown time ph pk app u))). by apply reads_uses.
Qed.

(** [accepts_only unpack enc a]: the encoding is read as [a]; every truncation of
    it and everything longer is refused. *)
Definition accepts_only {A} (unpack : bytes -> result A) (enc : bytes) (a : A) : Prop :=
  unpack enc = Ok a /\ (forall n, (n < length enc)%nat -> exists e, unpack (take n enc) = Err e) /\
  (forall x rest, unpack (enc ++ x :: rest) = Err PacketError).

Lemma read_file_accepts {A} (m : St MsgReader A) enc a :
  reads m enc a -> accepts_only (read_file m) enc a.
Proof.
  intros [M1 M2]. unfold read_file, MsgReader_new. split; [|split].
  - erewrite St_bind_Ok by (apply (M1 enc 0%nat []); [lia|by rewrite app_nil_r]).
    erewrite St_bind_Ok by (unfold expect_end; simpl; by rewrite Nat.eqb_refl). done.
  - intros n Hn. destruct (M2 (take n enc) 0%nat n) as (e & r & E); [lia|done..|].
    exists e. by rewrite (St_bind_Err _ _ _ _ _ E).
  - intros x rest. erewrite St_bind_Ok by (apply (M1 _ 0%nat (x :: rest)); [lia|done]).
    unfold mbind, St_bind, expect_end. simpl. rewrite length_app.
    destruct (Nat.eqb_spec (length enc) (length enc + length (x :: rest))) as [E|_]; [|done].
    simpl in E. lia.
Qed.

Lemma wrap32_length {A} (l : list A) :
  Z.of_nat (length l) < 2 ^ 32 -> wrap 32 (Z.of_nat (length l)) = Z.of_nat (length l).
Proof. intros Hl. apply wrap_small. split; [lia|done]. Qed.

Lemma ratchet_list_accepts keys :
  Forall (fun k => length k = RATCHET_KEY_LENGTH) keys -> Z.of_nat (length keys) < 2 ^ 32 ->
  accepts_only unpack_ratchet_list (pack_ratchet_list keys) keys.
Proof.
  intros Hk Hl. apply read_file_accepts.
  unfold pack_ratchet_list. rewrite wrap32_length, write_array_len_spec by lia.
  eapply reads_bind; [apply reads_array_len; lia|]. rewrite Nat2Z.id. apply reads_n.
  eapply Forall_impl; [|exact Hk]. intros k E. apply reads_fixed_bin; [done|by apply (fits32_small k RATCHET_KEY_LENGTH)].
Qed.

Lemma pack_ratchet_list_length keys :
  Forall (fun k => length k = RATCHET_KEY_LENGTH) keys -> Z.of_nat (length keys) < 2 ^ 20 ->
  fits32 (pack_ratchet_list keys).
Proof.
  intros Hk Hl. unfold pack_ratchet_list, fits32. rewrite wrap32_length, write_array_len_spec by lia.
  assert (length (keys ≫= write_bin) = 34 * length keys)%nat as E.
  { clear Hl. induction Hk as [|k keys Hk _ IH]; [done|]. cbn [mbind list_bind].
    rewrite length_app, IH, write_bin_spec by (rewrite Hk; vm_compute; reflexivity).
    rewrite length_app, Hk. cbn [length]. change (Z.of_nat RATCHET_KEY_LENGTH) with 32.
    change (length (msgpack_bin_header 32)) with 2%nat. change RATCHET_KEY_LENGTH with 32%nat. lia. }
  rewrite length_app, E. unfold msgpack_header.
  repeat case_match; cbn [length]; rewrite ?be_encode_length; lia.
Qed.

Lemma reads_ratchet_entries data :
  length (rf_ratchet data) = RATCHET_KEY_LENGTH -> 0 <= rf_received data < 2 ^ 64 ->
  reads (read_ratchet_entries 2 (mkRatchetFile (replicate RATCHET_KEY_LENGTH 0) 0))
    (write_str key_ratchet ++ write_bin (rf_ratchet data) ++
     write_str key_received ++ write_f64 (rf_received data)) data.
Proof.
  intros Hr Ht. destruct data as [r t]. cbn [rf_ratchet rf_received] in *. cbn [read_ratchet_entries].
  eapply reads_bind; [by apply reads_str|]. rewrite decide_True by done.
  eapply reads_bind; [apply (reads_map (read_fixed_bin RATCHET_KEY_LENGTH)), reads_fixed_bin; [done|by eapply fits32_small]|].
  eapply reads_bind; [by apply reads_str|]. rewrite decide_False, decide_True by done.
  rewrite <- (app_nil_r (write_f64 t)).
  eapply reads_bind; [by apply (reads_map read_f64), reads_f64|]. apply reads_ret.
Qed.

Lemma reads_lift {A} (x : A) : reads (lift_result (Ok x)) [] x.
Proof. apply reads_ret. Qed.

Lemma reads_destination_ratchets keys signature :
  Forall (fun k => length k = RATCHET_KEY_LENGTH) keys -> Z.of_nat (length keys) < 2 ^ 20 ->
  length signature = SIGNATURE_LENGTH ->
  reads (read_destination_ratchets 2 (None, None))
    (write_str key_signature ++ write_bin signature ++
     write_str key_ratchets ++ write_bin (pack_ratchet_list keys)) (Some keys, Some signature).
Proof.
  intros Hk Hl Hs. cbn [read_destination_ratchets].
  eapply reads_bind; [by apply reads_str|]. rewrite decide_True by done.
  eapply reads_bind; [apply (reads_map (read_fixed_bin SIGNATURE_LENGTH)), reads_fixed_bin;
                      [done|by eapply fits32_small]|].
  eapply reads_bind; [by apply reads_str|]. rewrite decide_False, decide_True by done.
  rewrite <- (app_nil_r (write_bin (pack_ratchet_list keys))).
  eapply reads_bind; [|apply reads_ret]. rewrite <- (app_nil_r (write_bin (pack_ratchet_list keys))).
  eapply reads_bind; [apply reads_bin; by apply pack_ratchet_list_length|].
  destruct (ratchet_list_accepts keys) as [-> _]; [done|lia|].
  apply (reads_map (lift_result (Ok keys)) (fun l => (Some l, Some signature))), reads_lift.
Qed.

Lemma known_destinations_accepts entries : Forall known_wf entries -> Z.of_nat (length entries) < 2 ^ 32 ->
  accepts_only unpack_known_destinations (pack_known_destinations entries) entries.
Proof.
  intros Hwf Hlen. apply read_file_accepts. unfold pack_known_destinations. rewrite wrap32_length, write_map_len_spec by lia.
  eapply reads_bind; [apply reads_map_len; lia|]. rewrite Nat2Z.id. apply reads_n.
  eapply Forall_impl; [|exact Hwf]. apply reads_known_destination.
Qed.

Lemma ratchet_file_accepts data : length (rf_ratchet data) = RATCHET_KEY_LENGTH -> 0 <= rf_received data < 2 ^ 64 ->
  accepts_only unpack_ratchet (pack_ratchet data) data.
Proof.
  intros Hr Ht. apply read_file_accepts. unfold pack_ratchet. rewrite write_map_len_spec by lia.
  eapply reads_bind; [apply reads_map_len; lia|]. by apply reads_ratchet_entries.
Qed.

(** the file of known destinations is read back as written, and nothing
    else is mistaken for it: every truncation of the file and every file with
    something behind it is refused. *)
Theorem known_destinations_roundtrip (entries : list (AddressHash * KnownDestinationData))
    (Hwf : Forall known_wf entries) (Hlen : Z.of_nat (length entries) < 2 ^ 32) :
  accepts_only unpack_known_destinations (pack_known_destinations entries) entries.
Proof. by apply known_destinations_accepts. Qed.

(** a received ratchet's file, and the file with a destination's own
    ratchets and their signature, are read back as written; truncated and
    extended files are refused. *)
Theorem ratchet_files_roundtrip (data : RatchetFileData) (keys : list bytes) (signature : bytes)
    (Hratchet : length (rf_ratchet data) = RATCHET_KEY_LENGTH) (Hreceived : 0 <= rf_received data < 2 ^ 64)
    (Hkeys : Forall (fun k => length k = RATCHET_KEY_LENGTH) keys)
    (Hlen : Z.of_nat (length keys) < 2 ^ 20) (Hsig : length signature = SIGNATURE_LENGTH) :
  accepts_only unpack_ratchet (pack_ratchet data) data /\
  accepts_only unpack_destination_ratchets (pack_destination_ratchets keys signature) (keys, signature).
Proof.
  split.
  - by apply ratchet_file_accepts.
  - unfold unpack_destination_ratchets.
    match goal with |- context [read_file ?m] =>
      destruct (read_file_accepts m (pack_destination_ratchets keys signature) (Some keys, Some signature))
        as (E1 & E2 & E3) end.
    + unfold pack_destination_ratchets. rewrite write_map_len_spec by lia.
      eapply reads_bind; [apply reads_map_len; lia|]. by apply reads_destination_ratchets.
    + split; [by rewrite E1|]. split; [|intros x rest; by rewrite E3].
      intros n Hn. destruct (E2 n Hn) as [e ->]. by exists e.
Qed.

End Reading.

(** ** Skipping *)

(** A step that ends where it stands or further on, in the same data. *)
Definition advances (strict : bool) (r : MsgReader) (o : result unit * MsgReader) : Prop :=
  data o.2 = data r /\
  match o.1 with
  | Ok _ => (pos r + (if strict then 1 else 0) <= pos o.2)%nat
  | Err _ => True
  end.

Lemma with_len_total (m : St MsgReader Z) k r (P : result unit * MsgReader -> Prop) :
  (forall e r', m r = (Err e, r') -> P (Err e, r')) ->
  (forall n r', m r = (Ok n, r') -> exists o, k n r' = Some o /\ P o) ->
  exists o, with_len m k r = Some o /\ P o.
Proof.
  intros He Hk. unfold with_len. destruct (m r) as [[n|e] r'] eqn:E; [by apply Hk|].
  eexists. split; [done|]. by apply He.
Qed.

Lemma read_byte_moves r :
  data (read_byte r).2 = data r /\
  match (read_byte r).1 with
  | Ok _ => pos (read_byte r).2 = S (pos r) /\ (pos r < length (data r))%nat
  | Err _ => True
  end.
Proof.
  unfold read_byte. destruct (data r !! pos r) eqn:E; [|done]. simpl. split; [done|].
  split; [lia|]. by eapply lookup_lt_Some.
Qed.

Lemma read_take_moves n r :
  data (read_take n r).2 = data r /\
  match (read_take n r).1 with Ok _ => pos (read_take n r).2 = (pos r + n)%nat | Err _ => True end.
Proof. unfold read_take. by case_match. Qed.

(** A reader that stays in the data and never goes back. *)
Definition steady {A} (m : St MsgReader A) : Prop :=
  forall r, data (m r).2 = data r /\
    match (m r).1 with Ok _ => (pos r <= pos (m r).2)%nat | Err _ => True end.

Lemma steady_byte : steady read_byte.
Proof. intros r. destruct (read_byte_moves r) as [? H]. split; [done|]. case_match; [lia|done]. Qed.

Lemma steady_be n : steady (b ← read_take n; mret (be_decode b)).
Proof.
  intros r. destruct (read_take_moves n r) as [? H]. unfold mbind, St_bind, mret, St_ret.
  destruct (read_take n r) as [[|] r']; simpl in *; [|done]. split; [done|lia].
Qed.

Lemma skip_bytes_advances n r : exists o, skip_bytes n r = Some o /\ advances false r o.
Proof.
  eexists. split; [done|]. destruct (read_take_moves (Z.to_nat n) r) as [? H].
  unfold advances, mbind, St_bind, mret, St_ret.
  destruct (read_take _ r) as [[|] r']; simpl in *; [|done]. split; [done|lia].
Qed.

Lemma skip_n_values_advances skip n r fuel :
  (forall r, (remaining r < fuel)%nat -> exists o, skip r = Some o /\ advances false r o) ->
  (remaining r < fuel)%nat -> exists o, skip_n_values skip n r = Some o /\ advances false r o.
Proof.
  intros Hskip. revert r. induction n as [|n IH]; intros r Hr; simpl.
  - eexists. split; [done|]. split; [done|simpl; lia].
  - destruct (Hskip r Hr) as ([[[]|e] r'] & E & Hd & Hp); rewrite E.
    + cbn [fst snd] in *. destruct (IH r') as (o & Eo & Hd' & Hp').
      { unfold remaining in *. rewrite Hd. lia. }
      exists o. split; [done|]. split; [congruence|]. destruct o.1; [lia|done].
    + eexists. split; [done|]. by split.
Qed.

Lemma with_len_advances (m : St MsgReader Z) k r fuel :
  steady m -> (remaining r < fuel)%nat ->
  (forall n r, (remaining r < fuel)%nat -> exists o, k n r = Some o /\ advances false r o) ->
  exists o, with_len m k r = Some o /\ advances false r o.
Proof.
  intros Hm Hr Hk. destruct (Hm r) as [Hd Hp]. apply with_len_total.
  - intros e r' E. rewrite E in *. by split.
  - intros n r' E. rewrite E in *. cbn [fst snd] in *. destruct (Hk n r') as (o & Eo & Hd' & Hp').
    { unfold remaining in *. rewrite Hd. lia. }
    exists o. split; [done|]. split; [congruence|]. destruct o.1; [lia|done].
Qed.

Lemma skip_value_fuel_advances fuel r :
  (remaining r < fuel)%nat -> exists o, skip_value_fuel fuel r = Some o /\ advances true r o.
Proof.
  revert r. induction fuel as [|fuel IH]; intros r Hr; [lia|]. cbn [skip_value_fuel].
  destruct (read_byte_moves r) as [Hd Hp]. apply with_len_total.
  { intros e r' E. rewrite E in *. by split. }
  intros marker r' E. rewrite E in *. cbn [fst snd] in *. destruct Hp as [Hp Hlt].
  assert (remaining r' < fuel)%nat as Hr' by (unfold remaining in *; rewrite Hd; lia).
  assert (forall o, advances false r' o -> advances true r o) as Hadv.
  { intros o [Hd' Hp']. split; [congruence|]. destruct o.1; [lia|done]. }
  enough (forall k, (forall r, (remaining r < fuel)%nat -> exists o, k r = Some o /\ advances false r o) ->
            exists o, k r' = Some o /\ advances true r o) as Hk.
  2:{ intros k Hk. destruct (Hk r' Hr') as (o & ? & ?). eauto. }
  apply Hk. clear - IH. intros s Hs.
  assert (forall n t, (remaining t < fuel)%nat ->
    exists o, skip_n_values (skip_value_fuel fuel) n t = Some o /\ advances false t o) as Hn.
  { intros n t Ht. apply (skip_n_values_advances _ n t fuel); [|done]. intros u Hu.
    destruct (IH u Hu) as (o & ? & Hd' & Hp'). exists o. split; [done|]. split; [done|].
    destruct o.1; [lia|done]. }
  assert (forall o : result unit, exists o', Some (o, s) = Some o' /\ advances false s o') as Hret.
  { intros o. eexists. split; [done|]. split; [done|]. simpl. destruct o; [lia|done]. }
  repeat case_match; eauto using skip_bytes_advances;
    (eapply with_len_advances; [first [apply steady_byte|apply steady_be]|done|]); eauto using skip_bytes_advances.
Qed.

Lemma skip_n_values_mono (s1 s2 : MsgReader -> Outcome) n r o :
  (forall r o, s1 r = Some o -> s2 r = Some o) ->
  skip_n_values s1 n r = Some o -> skip_n_values s2 n r = Some o.
Proof.
  intros Hs. revert r. induction n as [|n IH]; intros r; simpl; [done|].
  destruct (s1 r) as [[[[]|e] r']|] eqn:E; [| |done]; rewrite (Hs _ _ E); auto.
Qed.

Lemma with_len_mono m (k1 k2 : Z -> MsgReader -> Outcome) r o :
  (forall n r o, k1 n r = Some o -> k2 n r = Some o) ->
  with_len m k1 r = Some o -> with_len m k2 r = Some o.
Proof. intros Hk. unfold with_len. destruct (m r) as [[n|e] r']; auto. Qed.

Lemma skip_value_fuel_mono fuel fuel' r o :
  (fuel <= fuel')%nat -> skip_value_fuel fuel r = Some o -> skip_value_fuel fuel' r = Some o.
Proof.
  revert fuel' r o. induction fuel as [|fuel IH]; intros fuel' r o Hle; [done|].
  destruct fuel' as [|fuel']; [lia|]. cbn [skip_value_fuel]. apply with_len_mono. clear r o.
  intros marker r o.
  assert (forall n r o, skip_n_values (skip_value_fuel fuel) n r = Some o ->
            skip_n_values (skip_value_fuel fuel') n r = Some o) as Hn.
  { intros n. intros. eapply skip_n_values_mono; [|done]. intros. apply IH; [lia|done]. }
  repeat case_match; auto; apply with_len_mono; auto.
Qed.

(** ** MessagePack values and their encoding, as a reference for skipping *)
#[warnings="-register-all"]
Inductive Value :=
| VNil
| VBool (b : bool)
| VFixint (v : Z)
| VUint (w : nat) (v : Z)
| VSint (w : nat) (v : Z)
| VF32 (bits : Z)
| VF64 (bits : Z)
| VStr (d : bytes)
| VBin (d : bytes)
| VArray (l : list Value)
| VMap (l : list (Value * Value)).

(** The place of an integer width of 1, 2, 4 or 8 bytes among the markers. *)
Definition width_index (w : nat) : Z := Z.log2 (Z.of_nat w).

Fixpoint encode_value (v : Value) : bytes :=
  match v with
  | VNil => [0xc0]
  | VBool b => [if b then 0xc3 else 0xc2]
  | VFixint v => [wrap 8 v]
  | VUint w v => 0xcc + width_index w :: be_encode w v
  | VSint w v => 0xd0 + width_index w :: be_encode w v
  | VF32 bits => 0xca :: be_encode 4 bits
  | VF64 bits => 0xcb :: be_encode 8 bits
  | VStr d => msgpack_str_header (Z.of_nat (length d)) ++ d
  | VBin d => msgpack_bin_header (Z.of_nat (length d)) ++ d
  | VArray l => msgpack_header 0x90 0xdc 0xdd (Z.of_nat (length l)) ++ concat (map encode_value l)
  | VMap l => msgpack_header 0x80 0xde 0xdf (Z.of_nat (length l)) ++
      concat (map (fun kv => encode_value kv.1 ++ encode_value kv.2) l)
  end.

Fixpoint value_wf (v : Value) : bool :=
  match v with
  | VFixint v => (-32 <=? v) && (v <? 128)
  | VUint w _ | VSint w _ => (w =? 1)%nat || (w =? 2)%nat || (w =? 4)%nat || (w =? 8)%nat
  | VStr d | VBin d => Z.of_nat (length d) <? 2 ^ 32
  | VArray l => (Z.of_nat (length l) <? 2 ^ 32) && forallb value_wf l
  | VMap l => (Z.of_nat (length l) <? 2 ^ 31) && forallb (fun kv => value_wf kv.1 && value_wf kv.2) l
  | _ => true
  end.

(** [skips k enc]: the step [k] applied where [enc] stands stops behind it. *)
Definition skips (k : MsgReader -> Outcome) (enc : bytes) : Prop :=
  forall d p rest, (p <= length d)%nat -> drop p d = enc ++ rest ->
    k (mkReader d p) = Some (Ok (), mkReader d (p + length enc)).

Lemma skips_with_len (m : St MsgReader Z) k e1 e2 n :
  reads m e1 n -> skips (k n) e2 -> skips (with_len m k) (e1 ++ e2).
Proof.
  intros [M1 _] Hk d p rest Hp E. rewrite <- app_assoc in E.
  destruct (drop_app_step _ _ _ _ Hp E) as [Hp' E']. unfold with_len.
  rewrite (M1 _ _ _ Hp E), (Hk _ _ _ Hp' E'), length_app. do 3 f_equal. lia.
Qed.

Lemma skips_marker (k : Z -> MsgReader -> Outcome) m e :
  skips (k m) e -> skips (with_len read_byte k) (m :: e).
Proof. intros Hk. apply (skips_with_len read_byte k [m] e m); [apply reads_byte|exact Hk]. Qed.

Lemma skips_bytes n e : Z.of_nat (length e) = n -> skips (skip_bytes n) e.
Proof.
  intros <- d p rest Hp E. unfold skip_bytes. rewrite Nat2Z.id.
  destruct (reads_take e) as [M1 _]. by rewrite (St_bind_Ok _ _ _ _ _ (M1 _ _ _ Hp E)).
Qed.

Lemma skips_nothing : skips (fun r => Some (Ok (), r)) [].
Proof. intros d p rest _ _. simpl. by rewrite Nat.add_0_r. Qed.

Lemma skips_n (skip : MsgReader -> Outcome) encs :
  Forall (skips skip) encs -> skips (skip_n_values skip (length encs)) (concat encs).
Proof.
  induction 1 as [|e encs He _ IH]; [exact skips_nothing|].
  intros d p rest Hp E. simpl in *. rewrite <- app_assoc in E.
  destruct (drop_app_step _ _ _ _ Hp E) as [Hp' E'].
  rewrite (He _ _ _ Hp E), (IH _ _ _ Hp' E'), length_app. do 3 f_equal. lia.
Qed.

Lemma skip_header_str fuel n d :
  0 <= n < 2 ^ 32 -> Z.of_nat (length d) = n ->
  skips (skip_value_fuel (S fuel)) (msgpack_str_header n ++ d).
Proof.
  intros Hn Hd. cbn [skip_value_fuel]. unfold msgpack_str_header. destruct (Z.ltb_spec n 32).
  - apply skips_marker. rewrite (between_true 0xa0 0xbf) by lia.
    unfold between. repeat (case_match; zb; try lia).
    change 0xa0 with (5 * 32). rewrite land_marker_32 by lia. by apply skips_bytes.
  - destruct (Z.ltb_spec n 256); [|destruct (Z.ltb_spec n 65536)]; apply skips_marker;
      (eapply skips_with_len; [first [apply (reads_be1 n)|apply (reads_u16 n)|apply (reads_u32 n)]; lia|]);
      by apply skips_bytes.
Qed.

Lemma skip_header_bin fuel n d :
  0 <= n < 2 ^ 32 -> Z.of_nat (length d) = n ->
  skips (skip_value_fuel (S fuel)) (msgpack_bin_header n ++ d).
Proof.
  intros Hn Hd. cbn [skip_value_fuel]. unfold msgpack_bin_header.
  destruct (Z.ltb_spec n 256); [|destruct (Z.ltb_spec n 65536)]; apply skips_marker;
    (eapply skips_with_len; [first [apply (reads_be1 n)|apply (reads_u16 n)|apply (reads_u32 n)]; lia|]);
    by apply skips_bytes.
Qed.

Lemma skip_header_array fuel encs :
  Z.of_nat (length encs) < 2 ^ 32 -> Forall (skips (skip_value_fuel fuel)) encs ->
  skips (skip_value_fuel (S fuel)) (msgpack_header 0x90 0xdc 0xdd (Z.of_nat (length encs)) ++ concat encs).
Proof.
  intros Hn He. apply skips_n in He. rewrite <- (Nat2Z.id (length encs)) in He.
  set (n := Z.of_nat (length encs)) in *. assert (0 <= n) by (unfold n; lia).
  cbn [skip_value_fuel]. unfold msgpack_header. destruct (Z.ltb_spec n 16).
  - apply skips_marker. rewrite (between_true 0x90 0x9f) by lia.
    unfold between. repeat (case_match; zb; try lia).
    change 0x90 with (9 * 16). by rewrite land_marker_16 by lia.
  - destruct (Z.ltb_spec n 65536); apply skips_marker;
      (eapply skips_with_len; [first [apply (reads_u16 n)|apply (reads_u32 n)]; lia|]); exact He.
Qed.

Lemma skip_header_map fuel n encs :
  0 <= n < 2 ^ 31 -> Z.of_nat (length encs) = n * 2 -> Forall (skips (skip_value_fuel fuel)) encs ->
  skips (skip_value_fuel (S fuel)) (msgpack_header 0x80 0xde 0xdf n ++ concat encs).
Proof.
  intros Hn Hl He. apply skips_n in He.
  assert (length encs = pairs n) as El.
  { unfold pairs. rewrite wrap_small by (unfold in_width; lia). lia. }
  rewrite El in He. cbn [skip_value_fuel]. unfold msgpack_header. destruct (Z.ltb_spec n 16).
  - apply skips_marker. rewrite (between_true 0x80 0x8f) by lia.
    unfold between. repeat (case_match; zb; try lia).
    change 0x80 with (8 * 16). by rewrite land_marker_16 by lia.
  - destruct (Z.ltb_spec n 65536); apply skips_marker;
      (eapply skips_with_len; [first [apply (reads_u16 n)|apply (reads_u32 n)]; lia|]); exact He.
Qed.

Lemma header_length a b c n : (1 <= length (msgpack_header a b c n))%nat.
Proof. unfold msgpack_header. repeat case_match; simpl; lia. Qed.

Lemma encode_value_length v : (1 <= length (encode_value v))%nat.
Proof.
  destruct v; simpl; rewrite ?length_app; try lia.
  - unfold msgpack_str_header. repeat case_match; simpl; lia.
  - unfold msgpack_bin_header. repeat case_match; simpl; lia.
  - pose proof (header_length 0x90 0xdc 0xdd (Z.of_nat (length l))). lia.
  - pose proof (header_length 0x80 0xde 0xdf (Z.of_nat (length l))). lia.
Qed.

Lemma concat_length_le {A} (l : list (list A)) x : x ∈ l -> (length x <= length (concat l))%nat.
Proof.
  induction l as [|y l IH]; intros Hx; [by apply not_elem_of_nil in Hx|].
  simpl. rewrite length_app. apply elem_of_cons in Hx as [->|Hx]; [lia|]. specialize (IH Hx). lia.
Qed.

(** The encodings of the keys and values of a map, one by one. *)
Definition map_parts (l : list (Value * Value)) : list bytes :=
  l ≫= fun kv => [encode_value kv.1; encode_value kv.2].

Lemma concat_map_parts l :
  concat (map_parts l) = concat (map (fun kv => encode_value kv.1 ++ encode_value kv.2) l) /\
  Z.of_nat (length (map_parts l)) = Z.of_nat (length l) * 2.
Proof.
  induction l as [|kv l [IH1 IH2]]; [done|].
  change (map_parts (kv :: l)) with (encode_value kv.1 :: encode_value kv.2 :: map_parts l).
  split; [simpl; by rewrite IH1, app_assoc|]. cbn [length]. lia.
Qed.

Lemma skip_fixint fuel v : -32 <= v < 128 -> skips (skip_value_fuel (S fuel)) [wrap 8 v].
Proof.
  intros Hv. cbn [skip_value_fuel]. apply skips_marker.
  assert (between 0x00 0x7f (wrap 8 v) || between 0xe0 0xff (wrap 8 v) = true) as ->.
  { unfold wrap. destruct (decide (0 <= v)).
    - rewrite Z.mod_small, (between_true 0x00 0x7f) by lia. done.
    - rewrite <- (Z.mod_add v 1), Z.mod_small, (between_true 0xe0 0xff) by lia. apply orb_true_r. }
  case_match; apply skips_nothing.
Qed.

Lemma skip_value_fuel_exact fuel v :
  (length (encode_value v) <= fuel)%nat -> value_wf v = true ->
  skips (skip_value_fuel fuel) (encode_value v).
Proof.
  revert v. induction fuel as [|fuel IH]; intros v Hf Hwf; [pose proof (encode_value_length v); lia|].
  assert (forall hd encs, (1 <= length hd)%nat -> (length (hd ++ concat encs) <= S fuel)%nat ->
    Forall (fun e => exists v, e = encode_value v /\ value_wf v = true) encs ->
    Forall (skips (skip_value_fuel fuel)) encs) as Hsub.
  { intros hd encs Hh Hl He. rewrite length_app in Hl. apply list.Forall_forall. intros e Hin.
    eapply list.Forall_forall in He; [|exact Hin]. destruct He as (v' & -> & Hv').
    apply IH; [|done]. pose proof (concat_length_le _ _ Hin). lia. }
  destruct v as [|b|i|w i|w i|bits|bits|d|d|l|l]; cbn [encode_value value_wf] in *.
  - apply skips_marker, skips_nothing.
  - destruct b; apply skips_marker, skips_nothing.
  - zb. by apply skip_fixint.
  - apply orb_true_iff in Hwf as [[[->%Nat.eqb_eq| ->%Nat.eqb_eq]%orb_true_iff| ->%Nat.eqb_eq]%orb_true_iff| ->%Nat.eqb_eq];
      apply skips_marker; by apply skips_bytes.
  - apply orb_true_iff in Hwf as [[[->%Nat.eqb_eq| ->%Nat.eqb_eq]%orb_true_iff| ->%Nat.eqb_eq]%orb_true_iff| ->%Nat.eqb_eq];
      apply skips_marker; by apply skips_bytes.
  - apply skips_marker. by apply skips_bytes.
  - apply skips_marker. by apply skips_bytes.
  - zb. apply skip_header_str; [lia|done].
  - zb. apply skip_header_bin; [lia|done].
  - zb. rewrite <- (length_map encode_value l) in *. apply skip_header_array; [done|].
    eapply Hsub; [apply header_length|exact Hf|]. apply Forall_map, List.Forall_forall.
    intros v Hv. exists v. split; [done|]. by eapply forallb_forall in Hv.
  - zb. destruct (concat_map_parts l) as [E1 E2]. rewrite <- E1 in *.
    apply skip_header_map; [lia|done|]. eapply Hsub; [apply header_length|exact Hf|].
    unfold map_parts. apply Forall_bind. eapply Forall_impl; [|apply List.Forall_forall; by apply forallb_forall].
    intros kv Hkv. apply andb_true_iff in Hkv as [? ?]. repeat constructor; eauto.
Qed.

(** skipping a value ends, whatever the bytes are. The number of bytes left
    is enough fuel, and more changes nothing; after a success the reader has
    moved on within the data; and where a MessagePack value stands, of any kind
    and nesting, it stops exactly behind it. *)
Theorem skip_value_total (r : MsgReader) (fuel : nat) (Hfuel : (remaining r < fuel)%nat) :
  skip_value_fuel fuel r = Some (skip_value r) /\
  data (skip_value r).2 = data r /\
  ((skip_value r).1 = Ok () -> (pos r < pos (skip_value r).2)%nat) /\
  (forall v rest, value_wf v = true -> (pos r <= length (data r))%nat ->
     drop (pos r) (data r) = encode_value v ++ rest ->
     skip_value r = (Ok (), mkReader (data r) (pos r + length (encode_value v)))).
Proof.
  destruct (skip_value_fuel_advances (S (remaining r)) r) as (o & E & Hd & Hp); [lia|].
  unfold skip_value. rewrite E. cbn [default from_option]. unfold id. split; [|split; [done|split]].
  - eapply skip_value_fuel_mono; [|exact E]. lia.
  - intros Ho. rewrite Ho in Hp. lia.
  - intros v rest Hwf Hle Hr. destruct r as [d p]. cbn [data pos] in *.
    assert (length (encode_value v) <= remaining (mkReader d p))%nat as Hlen.
    { apply (f_equal length) in Hr. rewrite length_drop, length_app in Hr. unfold remaining. simpl. lia. }
    pose proof (skip_value_fuel_exact (S (remaining (mkReader d p))) v ltac:(lia) Hwf d p rest Hle Hr) as E'.
    congruence.
Qed.

(** ** Witnesses *)
Definition msgpack_rmp : Rmp.
Proof.
  refine {| write_map_len := msgpack_header 0x80 0xde 0xdf;
            write_array_len := msgpack_header 0x90 0xdc 0xdd;
            write_bin d := msgpack_bin_header (Z.of_nat (length d)) ++ d;
            write_str d := msgpack_str_header (Z.of_nat (length d)) ++ d;
            write_nil := [0xc0];
            write_f64 b := 0xcb :: be_encode 8 b;
            write_sint v := [wrap 8 v] |}; done.
Defined.

Definition toy_rmp_decode : RmpDecode.
Proof.
  refine {| decode_f64 d := match d with
                            | m :: rest => if m =? 0xcb then Some (be_decode (take 8 rest)) else None
                            | [] => None
                            end |}.
  intros b rest Hb. cbn [Z.eqb Pos.eqb]. rewrite take_app_length' by (by rewrite be_encode_length).
  by rewrite be_decode_encode.
Defined.

Lemma known_destinations_roundtrip_witness :
  let e := (replicate 16 7, mkKnown 4742290407621132288 (replicate 32 1) (replicate 64 2)
              (Some [104; 105]) (LastUsed 4742290407621132288)) in
  unpack_known_destinations (@pack_known_destinations msgpack_rmp [e; e]) = Ok [e; e].
Proof.
  intros e.
  assert (known_wf e) as He by (unfold known_wf, fits32; repeat split; done).
  exact (proj1 (@known_destinations_roundtrip msgpack_rmp [e; e]
    (Forall_cons_2 _ _ _ He (Forall_cons_2 _ _ _ He (Forall_nil_2 _))) eq_refl)).
Defined.

Lemma ratchet_files_roundtrip_witness :
  unpack_destination_ratchets
    (@pack_destination_ratchets msgpack_rmp [replicate 32 1; replicate 32 2] (replicate 64 9))
  = Ok ([replicate 32 1; replicate 32 2], replicate 64 9).
Proof.
  assert (Forall (fun k : bytes => length k = RATCHET_KEY_LENGTH) [replicate 32 1; replicate 32 2]) as Hk
    by repeat constructor.
  exact (proj1 (proj2 (@ratchet_files_roundtrip msgpack_rmp (mkRatchetFile (replicate 32 3) 17)
    [replicate 32 1; replicate 32 2] (replicate 64 9) eq_refl ltac:(simpl; lia) Hk eq_refl eq_refl))).
Defined.

Lemma skip_value_total_witness :
  let v := VMap [(VStr [97], VArray [VNil; VFixint (-1); VUint 2 700]); (VBin [1; 2], VMap [])] in
  skip_value (mkReader (encode_value v ++ [1; 2]) 0) =
    (Ok (), mkReader (encode_value v ++ [1; 2]) (length (encode_value v))).
Proof.
  intros v.
  destruct (skip_value_total (mkReader (encode_value v ++ [1; 2]) 0) 50) as (_ & _ & _ & H).
  - vm_compute. lia.
  - exact (H v [1; 2] eq_refl (Nat.le_0_l _) eq_refl).
Defined.
