(* ===== verification/Packet.v ===== *)
(** * Packets and their wire format
      ([reticulum-core/src/packet.rs], [reticulum-core/src/serde.rs])

    The header byte, the packet record, serialization through [OutputBuffer]
    and parsing through [InputBuffer], with the round trips between them. *)

From S2P Require Import Prelude Buffer Hash.

(** ** Protocol constants *)

Definition PACKET_MDU : nat := Z.to_nat 2048.
Definition PACKET_IFAC_MAX_LENGTH : nat := 64.
Definition PROTOCOL_MTU : Z := 500.
Definition TRUNCATED_HASHLENGTH_BYTES : Z := 16.
Definition HEADER_MINSIZE : Z := 2 + 1 + TRUNCATED_HASHLENGTH_BYTES.
Definition HEADER_MAXSIZE : Z := 2 + 1 + TRUNCATED_HASHLENGTH_BYTES * 2.
Definition IFAC_MIN_SIZE : Z := 1.
Definition TOKEN_OVERHEAD : Z := 48.
Definition AES128_BLOCKSIZE : Z := 16.
Definition RATCHET_KEY_LENGTH : Z := 32.
Definition PACKET_PROTOCOL_MDU : Z := PROTOCOL_MTU - HEADER_MAXSIZE - IFAC_MIN_SIZE.
Definition LINK_MDU : Z :=
  (PROTOCOL_MTU - IFAC_MIN_SIZE - HEADER_MINSIZE - TOKEN_OVERHEAD)
    / AES128_BLOCKSIZE * AES128_BLOCKSIZE - 1.
Definition LINK_MTU_MIN : Z :=
  IFAC_MIN_SIZE + HEADER_MINSIZE + TOKEN_OVERHEAD + AES128_BLOCKSIZE.
Definition SINGLE_PLAINTEXT_MDU : Z :=
  (PROTOCOL_MTU - HEADER_MAXSIZE - IFAC_MIN_SIZE - RATCHET_KEY_LENGTH - TOKEN_OVERHEAD)
    / AES128_BLOCKSIZE * AES128_BLOCKSIZE - 1.
Definition PATHFINDER_M : Z := 128.

(** ** Header fields *)

Inductive IfacFlag := Open | Authenticated.
Inductive HeaderType := Type1 | Type2.
Inductive PropagationType := Broadcast | Transport | Reserved1 | Reserved2.
Inductive DestinationType := Single | Group | Plain | Link.
Inductive PacketType := Data | Announce | LinkRequest | Proof.

Inductive PacketContext :=
| CtxNone
| CtxResource
| CtxResourceAdvertisement
| CtxResourceRequest
| CtxResourceHashUpdate
| CtxResourceProof
| CtxResourceInitiatorCancel
| CtxResourceReceiverCancel
| CtxCacheRequest
| CtxRequest
| CtxResponse
| CtxPathResponse
| CtxCommand
| CtxCommandStatus
| CtxChannel
| CtxKeepAlive
| CtxLinkIdentify
| CtxLinkClose
| CtxLinkProof
| CtxLinkRTT
| CtxLinkRequestProof.

#[export] Instance IfacFlag_eq_dec : EqDecision IfacFlag.
Proof. solve_decision. Defined.
#[export] Instance HeaderType_eq_dec : EqDecision HeaderType.
Proof. solve_decision. Defined.
#[export] Instance PropagationType_eq_dec : EqDecision PropagationType.
Proof. solve_decision. Defined.
#[export] Instance DestinationType_eq_dec : EqDecision DestinationType.
Proof. solve_decision. Defined.
#[export] Instance PacketType_eq_dec : EqDecision PacketType.
Proof. solve_decision. Defined.
#[export] Instance PacketContext_eq_dec : EqDecision PacketContext.
Proof. solve_decision. Defined.

(** Casts [_ as u8] and the [From<u8>] conversions. *)
Definition IfacFlag_as_u8 (f : IfacFlag) : Z := match f with Open => 0 | Authenticated => 1 end.
Definition IfacFlag_from (v : Z) : IfacFlag := if v =? 1 then Authenticated else Open.

Definition HeaderType_as_u8 (h : HeaderType) : Z := match h with Type1 => 0 | Type2 => 1 end.
Definition HeaderType_from (v : Z) : HeaderType := if Z.land v 1 =? 1 then Type2 else Type1.

Definition PropagationType_as_u8 (p : PropagationType) : Z :=
  match p with Broadcast => 0 | Transport => 1 | Reserved1 => 2 | Reserved2 => 3 end.
Definition PropagationType_from (v : Z) : PropagationType :=
  match Z.land v 3 with 0 => Broadcast | 1 => Transport | 2 => Reserved1 | 3 => Reserved2
  | _ => Broadcast end.

Definition DestinationType_as_u8 (d : DestinationType) : Z :=
  match d with Single => 0 | Group => 1 | Plain => 2 | Link => 3 end.
Definition DestinationType_from (v : Z) : DestinationType :=
  match Z.land v 3 with 0 => Single | 1 => Group | 2 => Plain | 3 => Link | _ => Single end.

Definition PacketType_as_u8 (p : PacketType) : Z :=
  match p with Data => 0 | Announce => 1 | LinkRequest => 2 | Proof => 3 end.
Definition PacketType_from (v : Z) : PacketType :=
  match Z.land v 3 with 0 => Data | 1 => Announce | 2 => LinkRequest | 3 => Proof | _ => Data end.

Definition PacketContext_as_u8 (c : PacketContext) : Z :=
  match c with
  | CtxNone => 0x00
  | CtxResource => 0x01
  | CtxResourceAdvertisement => 0x02
  | CtxResourceRequest => 0x03
  | CtxResourceHashUpdate => 0x04
  | CtxResourceProof => 0x05
  | CtxResourceInitiatorCancel => 0x06
  | CtxResourceReceiverCancel => 0x07
  | CtxCacheRequest => 0x08
  | CtxRequest => 0x09
  | CtxResponse => 0x0A
  | CtxPathResponse => 0x0B
  | CtxCommand => 0x0C
  | CtxCommandStatus => 0x0D
  | CtxChannel => 0x0E
  | CtxKeepAlive => 0xFA
  | CtxLinkIdentify => 0xFB
  | CtxLinkClose => 0xFC
  | CtxLinkProof => 0xFD
  | CtxLinkRTT => 0xFE
  | CtxLinkRequestProof => 0xFF
  end.

Definition PacketContext_from (v : Z) : PacketContext :=
  match v with
  | 0x01 => CtxResource
  | 0x02 => CtxResourceAdvertisement
  | 0x03 => CtxResourceRequest
  | 0x04 => CtxResourceHashUpdate
  | 0x05 => CtxResourceProof
  | 0x06 => CtxResourceInitiatorCancel
  | 0x07 => CtxResourceReceiverCancel
  | 0x08 => CtxCacheRequest
  | 0x09 => CtxRequest
  | 0x0A => CtxResponse
  | 0x0B => CtxPathResponse
  | 0x0C => CtxCommand
  | 0x0D => CtxCommandStatus
  | 0x0E => CtxChannel
  | 0xFA => CtxKeepAlive
  | 0xFB => CtxLinkIdentify
  | 0xFC => CtxLinkClose
  | 0xFD => CtxLinkProof
  | 0xFE => CtxLinkRTT
  | 0xFF => CtxLinkRequestProof
  | _ => CtxNone
  end.

(** ** Header *)

Record Header := mkHeader {
  ifac_flag : IfacFlag;
  context_flag : bool;
  header_type : HeaderType;
  propagation_type : PropagationType;
  destination_type : DestinationType;
  packet_type : PacketType;
  hops : Z;
}.

#[export] Instance Header_eq_dec : EqDecision Header.
Proof. solve_decision. Defined.

Definition Header_default : Header :=
  mkHeader Open false Type1 Broadcast Single Data 0.

Definition with_hops (h : Header) (n : Z) : Header :=
  mkHeader (ifac_flag h) (context_flag h) (header_type h) (propagation_type h)
    (destination_type h) (packet_type h) n.

(** [<<] on [u8] drops the bits shifted out. *)
Definition u8_shl (a n : Z) : Z := wrap 8 (Z.shiftl a n).

Definition to_meta (h : Header) : Z :=
  Z.lor (Z.lor (Z.lor (Z.lor (Z.lor
    (u8_shl (IfacFlag_as_u8 (ifac_flag h)) 7)
    (u8_shl (HeaderType_as_u8 (header_type h)) 6))
    (u8_shl (Z.b2z (context_flag h)) 5))
    (u8_shl (PropagationType_as_u8 (propagation_type h)) 4))
    (u8_shl (DestinationType_as_u8 (destination_type h)) 2))
    (PacketType_as_u8 (packet_type h)).

Definition from_meta (meta : Z) : Header :=
  {| ifac_flag := IfacFlag_from (Z.shiftr meta 7);
     context_flag := negb (Z.land meta 0x20 =? 0);
     header_type := HeaderType_from (Z.shiftr meta 6);
     propagation_type := PropagationType_from (Z.shiftr meta 4);
     destination_type := DestinationType_from (Z.shiftr meta 2);
     packet_type := PacketType_from meta;
     hops := 0 |}.

(** ** Packet *)

Record PacketIfac := mkIfac { access_code : bytes; ifac_length : nat }.

#[export] Instance PacketIfac_eq_dec : EqDecision PacketIfac.
Proof. solve_decision. Defined.

(** [None]: the slice panics beyond 64 bytes. *)
Definition PacketIfac_new_from_slice (s : bytes) : option PacketIfac :=
  if (PACKET_IFAC_MAX_LENGTH <? length s)%nat then None
  else Some (mkIfac (splice 0 s (replicate PACKET_IFAC_MAX_LENGTH 0)) (length s)).

Definition PacketIfac_as_slice (i : PacketIfac) : bytes := take (ifac_length i) (access_code i).

Record Packet := mkPacket {
  header : Header;
  ifac : option PacketIfac;
  destination : AddressHash;
  transport : option AddressHash;
  context : PacketContext;
  data : StaticBuffer.t;
}.

#[export] Instance Packet_eq_dec : EqDecision Packet.
Proof. solve_decision. Defined.

Definition PacketDataBuffer_new : StaticBuffer.t := StaticBuffer.new PACKET_MDU.
Definition PacketDataBuffer_new_from_slice (d : bytes) : StaticBuffer.t :=
  StaticBuffer.new_from_slice PACKET_MDU d.

Definition Packet_default : Packet :=
  mkPacket Header_default None AddressHash_new_empty None CtxNone PacketDataBuffer_new.

(** The payload bytes, [packet.data.as_slice()]. *)
Definition payload (p : Packet) : bytes := StaticBuffer.as_slice (data p).

Definition Packet_hash `{Sha256} (p : Packet) : Hash :=
  sha256 ([Z.land (to_meta (header p)) 0x0f] ++ destination p
            ++ [PacketContext_as_u8 (context p)] ++ payload p).

(** ** Serialization ([impl Serialize]) *)

Definition AddressHash_serialize (a : AddressHash) : St OutputBuffer.t nat := OutputBuffer.write a.

Definition Header_serialize (h : Header) : St OutputBuffer.t nat :=
  OutputBuffer.write [to_meta h; hops h].

Definition PacketContext_serialize (c : PacketContext) : St OutputBuffer.t nat :=
  OutputBuffer.write [PacketContext_as_u8 c].

Definition Packet_serialize (p : Packet) : St OutputBuffer.t nat :=
  Header_serialize (header p) ≫= fun _ =>
  (match header_type (header p), transport p with
   | Type2, Some t => AddressHash_serialize t
   | _, _ => mret 0%nat
   end) ≫= fun _ =>
  AddressHash_serialize (destination p) ≫= fun _ =>
  PacketContext_serialize (context p) ≫= fun _ =>
  OutputBuffer.write (payload p).

(** ** Parsing ([deserialize]) *)

Definition Header_deserialize : St InputBuffer.t Header :=
  InputBuffer.read_byte ≫= fun meta =>
  InputBuffer.read_byte ≫= fun n =>
  let h := with_hops (from_meta meta) n in
  if PATHFINDER_M <=? hops h then throw PacketError else mret h.

Definition AddressHash_deserialize : St InputBuffer.t AddressHash :=
  InputBuffer.read ADDRESS_HASH_SIZE.

Definition PacketContext_deserialize : St InputBuffer.t PacketContext :=
  InputBuffer.read_byte ≫= fun b => mret (PacketContext_from b).

Definition Packet_deserialize : St InputBuffer.t Packet :=
  Header_deserialize ≫= fun header =>
  (match header_type header with
   | Type2 => AddressHash_deserialize ≫= fun t => mret (Some t)
   | Type1 => mret None
   end) ≫= fun transport =>
  AddressHash_deserialize ≫= fun destination =>
  PacketContext_deserialize ≫= fun context =>
  get_state ≫= fun buffer =>
  let remaining := InputBuffer.bytes_left buffer in
  if (PACKET_MDU <? remaining)%nat then throw OutOfMemory
  else
    match StaticBuffer.accuire_buf remaining PacketDataBuffer_new with
    | None => throw OutOfMemory (* unreachable: guarded above *)
    | Some (data, _) =>
        InputBuffer.read remaining ≫= fun read =>
        mret (mkPacket header None destination transport context (StaticBuffer.fill read data))
    end.

(** ** Reference wire format and reference parser *)

Definition transport_field (p : Packet) : bytes :=
  match header_type (header p), transport p with
  | Type2, Some t => t
  | _, _ => []
  end.

Definition wire (p : Packet) : bytes :=
  [to_meta (header p); hops (header p)] ++ transport_field p ++ destination p
    ++ [PacketContext_as_u8 (context p)] ++ payload p.

(** The payload buffer a parser leaves: the payload in a zeroed array. *)
Definition payload_buffer (d : bytes) : StaticBuffer.t :=
  StaticBuffer.fill d (StaticBuffer.mk (replicate PACKET_MDU 0) (length d)).

Definition parse (raw : bytes) : result Packet :=
  match raw with
  | m :: n :: r =>
      if PATHFINDER_M <=? n then Err PacketError
      else
        let h := with_hops (from_meta m) n in
        let t_len := match header_type h with Type1 => 0%nat | Type2 => 16%nat end in
        if (length r <? t_len + 17)%nat then Err OutOfMemory
        else
          let d := drop (t_len + 17) r in
          if (PACKET_MDU <? length d)%nat then Err OutOfMemory
          else
            Ok (mkPacket h None (slice t_len (t_len + 16) r)
                  (match header_type h with Type1 => None | Type2 => Some (take 16 r) end)
                  (PacketContext_from (nth (t_len + 16) r 0)) (payload_buffer d))
  | _ => Err OutOfMemory
  end.

(** The part of the parser after the transport field. *)
Definition deserialize_tail (h : Header) (t : option AddressHash) : St InputBuffer.t Packet :=
  AddressHash_deserialize ≫= fun destination =>
  PacketContext_deserialize ≫= fun context =>
  get_state ≫= fun buffer =>
  let remaining := InputBuffer.bytes_left buffer in
  if (PACKET_MDU <? remaining)%nat then throw OutOfMemory
  else
    match StaticBuffer.accuire_buf remaining PacketDataBuffer_new with
    | None => throw OutOfMemory
    | Some (data, _) =>
        InputBuffer.read remaining ≫= fun read =>
        mret (mkPacket h None destination t context (StaticBuffer.fill read data))
    end.

(** What the header byte can carry: bit 5 is both the context flag and the
    high bit of the propagation type, so either sets the other. *)
Definition promote_propagation (p : PropagationType) : PropagationType :=
  match p with Broadcast => Reserved1 | Transport => Reserved2 | p => p end.
Definition reserved_propagation (p : PropagationType) : bool :=
  match p with Reserved1 | Reserved2 => true | _ => false end.

Definition Header_normalize (h : Header) : Header :=
  {| ifac_flag := ifac_flag h;
     context_flag := context_flag h || reserved_propagation (propagation_type h);
     header_type := header_type h;
     propagation_type :=
       if context_flag h then promote_propagation (propagation_type h) else propagation_type h;
     destination_type := destination_type h;
     packet_type := packet_type h;
     hops := hops h |}.

(** A packet a sender may serialize: addresses of the right length, a
    transport id exactly when the header has one, a legal hop count. *)
Definition Packet_wf (p : Packet) : Prop :=
  0 <= hops (header p) < PATHFINDER_M /\
  is_address (destination p) /\
  match header_type (header p), transport p with
  | Type1, None => True
  | Type2, Some t => is_address t
  | _, _ => False
  end /\
  StaticBuffer.wf (data p) /\ StaticBuffer.capacity (data p) = PACKET_MDU /\ all_u8 (payload p).

(** The packet a receiver sees for a packet that was sent. *)
Definition Packet_normalize (p : Packet) : Packet :=
  mkPacket (Header_normalize (header p)) None (destination p) (transport p) (context p)
    (payload_buffer (payload p)).

(** Offset of the context byte on the wire. *)
Definition context_offset (h : Header) : nat :=
  match header_type h with Type1 => 18%nat | Type2 => 34%nat end.

(** Whether a context byte is one of the assigned values. *)
Definition context_assigned (b : Z) : bool :=
  PacketContext_as_u8 (PacketContext_from b) =? b.

(** ** Header lemmas *)

Lemma Header_from_to_meta_hops0 h : with_hops (from_meta (to_meta h)) (hops h) = Header_normalize h.
Proof. destruct h as [[] [] [] [] [] [] n]; reflexivity. Qed.

Lemma to_meta_u8 h : is_u8 (to_meta h).
Proof.
  apply (bool_decide_unpack _). destruct h as [[] [] [] [] [] [] n]; vm_compute; exact I.
Qed.

Lemma to_meta_normalize h : to_meta (Header_normalize h) = to_meta h.
Proof. destruct h as [[] [] [] [] [] [] n]; reflexivity. Qed.

Lemma to_meta_hops h n : to_meta (with_hops h n) = to_meta h.
Proof. done. Qed.

Lemma to_meta_from_meta m : is_u8 m -> to_meta (from_meta m) = m.
Proof.
  intros Hm. apply Z.eqb_eq.
  apply (u8_forall (fun m => to_meta (from_meta m) =? m)); [vm_compute; reflexivity|done].
Qed.

Lemma PacketContext_from_as c : PacketContext_from (PacketContext_as_u8 c) = c.
Proof. by destruct c. Qed.

(** the header byte. Decoding an encoded header gives it back with bit 5
    read both as the context flag and as the high bit of the propagation type;
    in particular a ratchet announce ([context_flag], [Broadcast]) comes back
    as [Reserved1]. *)
Theorem Header_meta_decode (h : Header) :
  with_hops (from_meta (to_meta h)) (hops h) = Header_normalize h /\
  (Header_normalize h = h <-> context_flag h = reserved_propagation (propagation_type h)).
Proof.
  split; [apply Header_from_to_meta_hops0|].
  destruct h as [a [] b [] c d n]; unfold Header_normalize; simpl; split; congruence.
Qed.

(** ** Serialization lemmas *)

Lemma Packet_serialize_emits p :
  emits (Packet_serialize p) (wire p) (fun n _ => n = length (payload p)).
Proof.
  unfold Packet_serialize, wire, transport_field, Header_serialize, AddressHash_serialize,
    PacketContext_serialize.
  eapply emits_bind; [eauto with rns|]. intros _.
  eapply (emits_bind _ _ (match header_type (header p), transport p with
                          | Type2, Some t => t | _, _ => [] end) _ (fun _ _ => True)).
  { destruct (header_type (header p)), (transport p) as [t|];
      (eapply emits_weaken; [|eauto with rns]); done. }
  intros _. repeat (eapply emits_bind; [eauto with rns|]; intros _). eauto with rns.
Qed.

Lemma is_address_u8 a : is_address a -> all_u8 a.
Proof. by intros []. Qed.

Lemma PacketContext_as_u8_u8 c : is_u8 (PacketContext_as_u8 c).
Proof. apply (bool_decide_unpack _). destruct c; vm_compute; exact I. Qed.

Lemma wire_u8 p : Packet_wf p -> all_u8 (wire p).
Proof.
  intros (Hh & Hd & Ht & _ & _ & Hp). unfold wire, transport_field.
  rewrite !all_u8_app. unfold PATHFINDER_M in Hh. repeat split.
  - repeat constructor; try apply to_meta_u8. all: lia.
  - destruct (header_type (header p)), (transport p); try constructor; by apply is_address_u8.
  - by apply is_address_u8.
  - repeat constructor; apply PacketContext_as_u8_u8.
  - done.
Qed.

Lemma payload_length p : StaticBuffer.wf (data p) -> length (payload p) = StaticBuffer.len (data p).
Proof. apply as_slice_length. Qed.

Lemma transport_field_length p :
  Packet_wf p -> length (transport_field p) =
    match header_type (header p) with Type1 => 0%nat | Type2 => 16%nat end.
Proof.
  intros (_ & _ & Ht & _). unfold transport_field.
  by destruct (header_type (header p)), (transport p); try done; destruct Ht.
Qed.

(** The longest packet on the wire: both addresses and a full payload. *)
Lemma wire_length_bound p :
  Packet_wf p -> (length (wire p) <= 35 + PACKET_MDU)%nat.
Proof.
  intros Hwf. unfold wire. rewrite !length_app, transport_field_length by done.
  destruct Hwf as (_ & [Hd _] & _ & Hb & Hc & _).
  rewrite payload_length, Hd by done. unfold StaticBuffer.wf in Hb. rewrite Hc in Hb.
  simpl. unfold ADDRESS_HASH_SIZE. destruct (header_type (header p)); lia.
Qed.

(** [Packet::serialize] appends exactly the wire format of the packet when
    it fits the output buffer and fails with [OutOfMemory] when it does not. *)
Theorem Packet_serialize_wire (p : Packet) (b : OutputBuffer.t) (Hb : OutputBuffer.wf b) :
  if (length (wire p) <=? OutputBuffer.room b)%nat
  then exists b', Packet_serialize p b = (Ok (length (payload p)), b') /\
         OutputBuffer.as_slice b' = OutputBuffer.as_slice b ++ wire p
  else exists b', Packet_serialize p b = (Err OutOfMemory, b').
Proof.
  pose proof (Packet_serialize_emits p b Hb) as H.
  destruct (_ <=? _)%nat; [|done]. destruct H as (a & b' & E & _ & _ & Hs & ->). eauto.
Qed.

(** ** Parser lemmas *)

Lemma PacketDataBuffer_capacity : StaticBuffer.capacity PacketDataBuffer_new = PACKET_MDU.
Proof. apply length_replicate. Qed.

Lemma read_byte_nil b :
  InputBuffer.wf b -> InputBuffer.rest b = [] -> InputBuffer.read_byte b = (Err OutOfMemory, b).
Proof.
  intros Hb E. apply St_bind_Err. apply ib_read_Err; [|done]. rewrite E. simpl. lia.
Qed.

Lemma Header_deserialize_cons m n r b :
  InputBuffer.wf b -> InputBuffer.rest b = m :: n :: r ->
  exists b', InputBuffer.wf b' /\ InputBuffer.rest b' = r /\
    Header_deserialize b =
    if PATHFINDER_M <=? n then (Err PacketError, b') else (Ok (with_hops (from_meta m) n), b').
Proof.
  intros Hb E. unfold Header_deserialize.
  destruct (ib_read_byte_cons _ _ _ Hb E) as (b1 & E1 & Hb1 & Er1).
  destruct (ib_read_byte_cons _ _ _ Hb1 Er1) as (b2 & E2 & Hb2 & Er2).
  exists b2. repeat split; try done.
  rewrite (St_bind_Ok _ _ _ _ _ E1), (St_bind_Ok _ _ _ _ _ E2). simpl.
  by destruct (PATHFINDER_M <=? n).
Qed.

Lemma AddressHash_deserialize_rest b :
  InputBuffer.wf b ->
  if (length (InputBuffer.rest b) <? 16)%nat
  then AddressHash_deserialize b = (Err OutOfMemory, b)
  else exists b', InputBuffer.wf b' /\ InputBuffer.rest b' = drop 16 (InputBuffer.rest b) /\
         AddressHash_deserialize b = (Ok (take 16 (InputBuffer.rest b)), b').
Proof.
  intros Hb. unfold AddressHash_deserialize, ADDRESS_HASH_SIZE.
  destruct (Nat.ltb_spec (length (InputBuffer.rest b)) 16).
  - by apply ib_read_Err.
  - destruct (ib_read_app (take 16 (InputBuffer.rest b)) (drop 16 (InputBuffer.rest b)) b)
      as (b' & E & ? & ?); [done|by rewrite take_drop|].
    exists b'. repeat split; try done. rewrite length_take, Nat.min_l in E by lia. done.
Qed.

Lemma deserialize_tail_spec h t b :
  InputBuffer.wf b ->
  fst (deserialize_tail h t b) =
    let r := InputBuffer.rest b in
    if (length r <? 17)%nat then Err OutOfMemory
    else if (PACKET_MDU <? length (drop 17 r))%nat then Err OutOfMemory
    else Ok (mkPacket h None (take 16 r) t (PacketContext_from (nth 16 r 0))
               (payload_buffer (drop 17 r))).
Proof.
  intros Hb. unfold deserialize_tail. pose proof (AddressHash_deserialize_rest b Hb) as H.
  set (r := InputBuffer.rest b) in *. cbv zeta.
  destruct (Nat.ltb_spec (length r) 16).
  { rewrite (St_bind_Err _ _ _ _ _ H). destruct (Nat.ltb_spec (length r) 17); [done|lia]. }
  destruct H as (b1 & Hb1 & Er1 & E1). rewrite (St_bind_Ok _ _ _ _ _ E1).
  unfold PacketContext_deserialize.
  destruct (drop 16 r) as [|c k] eqn:Ek.
  { apply (f_equal length) in Ek. rewrite length_drop in Ek. simpl in Ek.
    destruct (Nat.ltb_spec (length r) 17); [|lia].
    pose proof (read_byte_nil b1 Hb1 Er1) as E2.
    rewrite (St_bind_Err _ _ b1 OutOfMemory b1); [done|]. by apply St_bind_Err. }
  destruct (ib_read_byte_cons _ _ _ Hb1 Er1) as (b2 & E2 & Hb2 & Er2).
  assert (length r = 17 + length k)%nat as Hlen.
  { apply (f_equal length) in Ek. rewrite length_drop in Ek. simpl in Ek. lia. }
  assert (drop 17 r = k) as Hk.
  { change 17%nat with (16 + 1)%nat. rewrite <- drop_drop, Ek. done. }
  assert (nth 16 r 0 = c) as Hc.
  { rewrite <- (take_drop 16 r), Ek. rewrite app_nth2; rewrite length_take; [|lia].
    rewrite Nat.min_l by lia. done. }
  destruct (Nat.ltb_spec (length r) 17); [lia|]. rewrite Hk, Hc.
  erewrite (St_bind_Ok _ _ b1); [|by rewrite (St_bind_Ok _ _ _ _ _ E2)].
  erewrite (St_bind_Ok get_state); [|done]. rewrite ib_bytes_left, Er2.
  destruct (Nat.ltb_spec PACKET_MDU (length k)); [done|].
  unfold StaticBuffer.accuire_buf.
  destruct (Nat.ltb_spec (StaticBuffer.capacity PacketDataBuffer_new) (length k)) as [Hcap|].
  { rewrite PacketDataBuffer_capacity in Hcap. lia. }
  destruct (ib_read_app k [] b2) as (b3 & E3 & _); [done|by rewrite app_nil_r|].
  rewrite (St_bind_Ok _ _ _ _ _ E3). done.
Qed.

Lemma slice_drop_take {A} i j (l : list A) : slice i (i + j) l = take j (drop i l).
Proof. unfold slice. f_equal. lia. Qed.

Lemma nth_drop {A} i j (l : list A) d : nth j (drop i l) d = nth (i + j) l d.
Proof. revert i. induction l; intros [|i]; destruct j; simpl; try done; apply (IHl i). Qed.

Lemma Packet_deserialize_parse b :
  InputBuffer.wf b -> fst (Packet_deserialize b) = parse (InputBuffer.rest b).
Proof.
  intros Hb. unfold Packet_deserialize. unfold parse.
  destruct (InputBuffer.rest b) as [|m [|n r]] eqn:Er.
  { rewrite (St_bind_Err _ _ b OutOfMemory b); [done|]. apply St_bind_Err. by apply read_byte_nil. }
  { destruct (ib_read_byte_cons _ _ _ Hb Er) as (b1 & E1 & Hb1 & Er1).
    rewrite (St_bind_Err _ _ b OutOfMemory b1); [done|]. unfold Header_deserialize.
    rewrite (St_bind_Ok _ _ _ _ _ E1). apply St_bind_Err. by apply read_byte_nil. }
  destruct (Header_deserialize_cons _ _ _ _ Hb Er) as (b1 & Hb1 & Er1 & E1).
  destruct (PATHFINDER_M <=? n); [by rewrite (St_bind_Err _ _ _ _ _ E1)|].
  rewrite (St_bind_Ok _ _ _ _ _ E1). set (h := with_hops _ _).
  destruct (header_type h) eqn:Eh.
  - erewrite (St_bind_Ok (mret None)); [|done].
    transitivity (fst (deserialize_tail h None b1)); [done|].
    rewrite deserialize_tail_spec, Er1 by done. cbv zeta. unfold slice. by rewrite drop_0.
  - pose proof (AddressHash_deserialize_rest b1 Hb1) as H. rewrite Er1 in H.
    destruct (Nat.ltb_spec (length r) 16).
    { rewrite (St_bind_Err _ _ b1 OutOfMemory b1); [|by apply St_bind_Err].
      by destruct (Nat.ltb_spec (length r) (16 + 17)); [|lia]. }
    destruct H as (b2 & Hb2 & Er2 & E2).
    erewrite (St_bind_Ok _ _ b1); [|by rewrite (St_bind_Ok _ _ _ _ _ E2)].
    transitivity (fst (deserialize_tail h (Some (take 16 r)) b2)); [done|].
    rewrite deserialize_tail_spec, Er2 by done. cbv zeta.
    rewrite length_drop, drop_drop, slice_drop_take, nth_drop.
    by destruct (Nat.ltb_spec (length r - 16) 17), (Nat.ltb_spec (length r) (16 + 17)); try lia.
Qed.

(** C18: the cursor-based [Packet::deserialize] computes the reference parser:
    a total function of the input bytes that never panics, fails with
    [PacketError] exactly on a hop count of 128 or more and with [OutOfMemory]
    on input that is too short or carries more than [PACKET_MDU] bytes. *)
Theorem Packet_deserialize_refines_parse (raw : bytes) :
  fst (Packet_deserialize (InputBuffer.new raw)) = parse raw.
Proof. rewrite Packet_deserialize_parse by apply ib_new_wf. done. Qed.

Lemma payload_buffer_payload d :
  (length d <= PACKET_MDU)%nat -> StaticBuffer.as_slice (payload_buffer d) = d.
Proof.
  intros H. unfold payload_buffer, StaticBuffer.as_slice, StaticBuffer.fill.
  cbn [StaticBuffer.len StaticBuffer.buffer].
  apply (take_splice 0 d). rewrite length_replicate. lia.
Qed.

Lemma payload_buffer_wf d : (length d <= PACKET_MDU)%nat ->
  StaticBuffer.wf (payload_buffer d) /\ StaticBuffer.capacity (payload_buffer d) = PACKET_MDU.
Proof.
  intros H. unfold StaticBuffer.wf, StaticBuffer.capacity, payload_buffer, StaticBuffer.fill.
  cbn [StaticBuffer.len StaticBuffer.buffer].
  rewrite splice_length; rewrite length_replicate; lia.
Qed.

Lemma Packet_wf_payload p : Packet_wf p -> (length (payload p) <= PACKET_MDU)%nat.
Proof.
  intros (_ & _ & _ & Hb & Hc & _). rewrite payload_length by done.
  unfold StaticBuffer.wf in Hb. lia.
Qed.

Lemma header_type_with_meta m n : header_type (with_hops (from_meta m) n) = header_type (from_meta m).
Proof. done. Qed.

Lemma header_type_normalize h : header_type (Header_normalize h) = header_type h.
Proof. done. Qed.

Lemma parse_wire p : Packet_wf p -> parse (wire p) = Ok (Packet_normalize p).
Proof.
  intros Hwf. pose proof (Packet_wf_payload p Hwf) as Hpl.
  pose proof (transport_field_length p Hwf) as Htl.
  destruct Hwf as (Hh & [Hd _] & Ht & _). unfold ADDRESS_HASH_SIZE in Hd.
  unfold wire. cbn [app parse]. rewrite Header_from_to_meta_hops0.
  destruct (Z.leb_spec PATHFINDER_M (hops (header p))); [lia|]. rewrite header_type_normalize.
  set (c := PacketContext_as_u8 (context p)).
  set (tl := match header_type (header p) with Type1 => 0%nat | Type2 => 16%nat end) in *.
  set (r := transport_field p ++ destination p ++ c :: payload p).
  assert (length r = tl + 17 + length (payload p))%nat as Hlen.
  { unfold r. rewrite !length_app, Htl, Hd. simpl. lia. }
  destruct (Nat.ltb_spec (length r) (tl + 17)); [lia|].
  assert (drop tl r = destination p ++ c :: payload p) as Hdr.
  { unfold r. rewrite <- Htl. apply drop_app_length. }
  assert (drop (tl + 17) r = payload p) as ->.
  { rewrite <- drop_drop, Hdr. change 17%nat with (16 + 1)%nat.
    rewrite <- drop_drop, <- Hd at 1. by rewrite drop_app_length. }
  destruct (Nat.ltb_spec PACKET_MDU (length (payload p))); [lia|].
  unfold Packet_normalize. do 2 f_equal.
  - rewrite slice_drop_take, Hdr, <- Hd. apply take_app_length.
  - assert (take tl r = transport_field p) as Htk by (rewrite <- Htl; apply take_app_length).
    clearbody r. unfold transport_field, tl in Htk.
    destruct (header_type (header p)), (transport p) as [t|]; try done. by rewrite Htk.
  - rewrite <- nth_drop, Hdr, app_nth2, Hd, Nat.sub_diag by lia. apply PacketContext_from_as.
Qed.

(** A buffer of the largest size takes every well-formed packet. *)
Lemma serialize_wf p : Packet_wf p ->
  exists b n, Packet_serialize p (OutputBuffer.new (replicate (35 + PACKET_MDU) 0)) = (Ok n, b) /\ OutputBuffer.as_slice b = wire p.
Proof.
  intros Hwf. pose proof (Packet_serialize_emits p (OutputBuffer.new (replicate (35 + PACKET_MDU) 0)) (ob_new_wf _)) as H.
  destruct (Nat.leb_spec (length (wire p)) (OutputBuffer.room (OutputBuffer.new (replicate (35 + PACKET_MDU) 0)))) as [_|Hno].
  - destruct H as (n & b & E & _ & _ & Hs & _). by exists b, n.
  - exfalso. pose proof (wire_length_bound p Hwf). revert Hno. unfold OutputBuffer.room.
    cbn [OutputBuffer.buffer OutputBuffer.offset OutputBuffer.new]. rewrite length_replicate. lia.
Qed.

(** C16: round trip through the wire. A well-formed packet that is serialized
    and parsed comes back with its destination, transport id, context, payload
    and hop count, and with the header the flags byte can carry. *)
Theorem Packet_wire_roundtrip (p : Packet) (Hwf : Packet_wf p) :
  exists b n, Packet_serialize p (OutputBuffer.new (replicate (35 + PACKET_MDU) 0)) = (Ok n, b) /\
  fst (Packet_deserialize (InputBuffer.new (OutputBuffer.as_slice b))) = Ok (Packet_normalize p) /\
  payload (Packet_normalize p) = payload p.
Proof.
  destruct (serialize_wf p Hwf) as (b & n & E & Hs). exists b, n. split; [done|].
  rewrite Hs, Packet_deserialize_parse by apply ib_new_wf. rewrite ib_new_rest.
  split; [by apply parse_wire|]. by apply payload_buffer_payload, Packet_wf_payload.
Qed.

(** A ratchet announce with transport header and a short payload. *)
Definition sample_packet : Packet :=
  mkPacket (mkHeader Open true Type2 Broadcast Single Announce 3) None (replicate 16 7)
    (Some (replicate 16 9)) CtxPathResponse (PacketDataBuffer_new_from_slice [1; 2; 255]).

Lemma sample_packet_wf : Packet_wf sample_packet.
Proof.
  unfold Packet_wf. split; [vm_compute; split; [discriminate|reflexivity]|].
  split; [apply (bool_decide_unpack _); vm_compute; exact I|].
  split; [apply (bool_decide_unpack _); vm_compute; exact I|].
  split; [unfold StaticBuffer.wf; apply Nat.leb_le; vm_compute; reflexivity|].
  split; [vm_compute; reflexivity|apply (bool_decide_unpack _); vm_compute; exact I].
Qed.

Lemma Packet_serialize_wire_witness :
  OutputBuffer.wf (OutputBuffer.new (replicate 64 0)) /\
  exists b', Packet_serialize sample_packet (OutputBuffer.new (replicate 64 0)) = (Ok 3%nat, b') /\
    OutputBuffer.as_slice b' = wire sample_packet.
Proof.
  split; [apply ob_new_wf|].
  pose proof (Packet_serialize_wire sample_packet (OutputBuffer.new (replicate 64 0))
                (ob_new_wf _)) as H.
  destruct (length (wire sample_packet) <=? _)%nat eqn:E.
  - destruct H as (b' & E1 & E2). exists b'. split; [exact E1|exact E2].
  - exfalso. vm_compute in E. discriminate.
Defined.

Lemma Packet_wire_roundtrip_witness :
  Packet_wf sample_packet /\
  exists b n,
    Packet_serialize sample_packet (OutputBuffer.new (replicate (35 + PACKET_MDU) 0)) = (Ok n, b) /\
    fst (Packet_deserialize (InputBuffer.new (OutputBuffer.as_slice b)))
      = Ok (Packet_normalize sample_packet) /\
    payload (Packet_normalize sample_packet) = [1; 2; 255].
Proof.
  split; [exact sample_packet_wf|].
  exact (Packet_wire_roundtrip sample_packet sample_packet_wf).
Defined.

Lemma parse_inv raw p :
  parse raw = Ok p ->
  exists m n t dst c d, raw = [m; n] ++ t ++ dst ++ [c] ++ d /\
    0 <= PATHFINDER_M - n - 1 /\
    length dst = 16%nat /\ (length d <= PACKET_MDU)%nat /\
    length t = match header_type (from_meta m) with Type1 => 0%nat | Type2 => 16%nat end /\
    p = mkPacket (with_hops (from_meta m) n) None dst
          (match header_type (from_meta m) with Type1 => None | Type2 => Some t end)
          (PacketContext_from c) (payload_buffer d).
Proof.
  unfold parse. intros H. destruct raw as [|m [|n r]]; [done..|].
  destruct (Z.leb_spec PATHFINDER_M n); [done|]. rewrite header_type_with_meta in H.
  set (tl := match header_type (from_meta m) with Type1 => 0%nat | Type2 => 16%nat end) in *.
  destruct (Nat.ltb_spec (length r) (tl + 17)); [done|].
  destruct (Nat.ltb_spec PACKET_MDU (length (drop (tl + 17) r))) as [|Hmdu]; [done|].
  injection H as <-.
  exists m, n, (take tl r), (take 16 (drop tl r)), (nth (tl + 16) r 0), (drop (tl + 17) r).
  assert (drop (tl + 16) r = nth (tl + 16) r 0 :: drop (tl + 17) r) as Hc.
  { assert (nth (tl + 16) r 0 = nth 0 (drop (tl + 16) r) 0) as ->
      by (rewrite nth_drop; f_equal; lia).
    replace (tl + 17)%nat with (tl + 16 + 1)%nat by lia. rewrite <- (drop_drop r 1 (tl + 16)).
    destruct (drop (tl + 16) r) eqn:E; [|done].
    apply (f_equal length) in E. rewrite length_drop in E. simpl in E. lia. }
  assert (length (take tl r) = tl) by (rewrite length_take; lia).
  repeat split; try done; try lia.
  - cbn [app]. rewrite <- Hc, <- (drop_drop r 16 tl), !take_drop. done.
  - rewrite length_take, length_drop. lia.
  - change (HeaderType_from (Z.shiftr m 6)) with (header_type (from_meta m)).
    rewrite slice_drop_take. unfold tl. by destruct (header_type (from_meta m)).
Qed.

(** A parsed packet is well formed, and its wire format differs from the input
    in the context byte at most. *)
Lemma parse_ok_layout raw p :
  all_u8 raw -> parse raw = Ok p ->
  Packet_wf p /\ exists pre c post, raw = pre ++ c :: post /\
    length pre = context_offset (header p) /\ context p = PacketContext_from c /\
    wire p = pre ++ PacketContext_as_u8 (context p) :: post.
Proof.
  intros Hraw Hp.
  destruct (parse_inv _ _ Hp) as (m & n & t & dst & c & d & -> & Hn & Hdst & Hd & Ht & ->).
  rewrite !all_u8_app in Hraw. destruct Hraw as (Hmn & Hut & Hud & Huc & Hup).
  apply all_u8_cons in Hmn as [Hm Hn8]. apply all_u8_cons in Hn8 as [Hn8 _].
  apply (proj1 (is_u8_bound n)) in Hn8. unfold PATHFINDER_M in *.
  set (h := with_hops (from_meta m) n). set (p := mkPacket _ _ _ _ _ _).
  assert (payload p = d) as Hpay by (by apply payload_buffer_payload).
  split.
  - repeat split; cbn [header p hops destination h with_hops transport data]; try done; try lia.
    + unfold PATHFINDER_M. lia.
    + unfold h. rewrite header_type_with_meta. by destruct (header_type (from_meta m)).
    + by apply payload_buffer_wf.
    + by apply payload_buffer_wf.
    + by rewrite Hpay.
  - exists ([m; n] ++ t ++ dst), c, d. rewrite <- !app_assoc. repeat split; try done.
    + rewrite !length_app, Ht, Hdst. unfold context_offset, p, h. cbn [header].
      rewrite header_type_with_meta. by destruct (header_type (from_meta m)).
    + unfold wire. rewrite Hpay. unfold p, transport_field. cbn [header transport destination context].
      unfold h. rewrite to_meta_hops, to_meta_from_meta, header_type_with_meta by done.
      cbn [hops with_hops]. destruct (header_type (from_meta m)); [|done].
      by apply nil_length_inv in Ht as ->.
Qed.

(** C17: parsing and re-serializing. A packet parsed from bytes is well formed
    and serializes to those bytes except that an unassigned context byte becomes
    0; with an assigned context byte the bytes are unchanged. *)
Theorem Packet_parse_print (raw : bytes) (p : Packet) (Hraw : all_u8 raw)
    (Hp : fst (Packet_deserialize (InputBuffer.new raw)) = Ok p) :
  Packet_wf p /\
  exists b n, Packet_serialize p (OutputBuffer.new (replicate (35 + PACKET_MDU) 0)) = (Ok n, b) /\
    OutputBuffer.as_slice b = <[context_offset (header p) := PacketContext_as_u8 (context p)]> raw /\
    (OutputBuffer.as_slice b = raw <-> exists c, raw !! context_offset (header p) = Some c /\ context_assigned c = true).
Proof.
  rewrite Packet_deserialize_parse, ib_new_rest in Hp by apply ib_new_wf.
  destruct (parse_ok_layout _ _ Hraw Hp) as (Hwf & pre & c & post & -> & <- & Hc & Hw).
  split; [done|]. destruct (serialize_wf p Hwf) as (b & n & E & Hs). exists b, n. split; [done|]. rewrite Hs, Hw, list_lookup_middle by done.
  rewrite <- (Nat.add_0_r (length pre)), insert_app_r. split; [done|].
  unfold context_assigned. rewrite Hc. split.
  - intros Eq. simplify_eq. exists c. split; [done|]. by apply Z.eqb_eq.
  - intros (c' & [= <-] & Eq). apply Z.eqb_eq in Eq. by rewrite Eq.
Qed.

Lemma Packet_parse_print_witness :
  let raw := [0; 1] ++ replicate 16 5 ++ [0x55; 42] in
  exists p b n, all_u8 raw /\ fst (Packet_deserialize (InputBuffer.new raw)) = Ok p /\
    Packet_serialize p (OutputBuffer.new (replicate (35 + PACKET_MDU) 0)) = (Ok n, b) /\
    OutputBuffer.as_slice b = [0; 1] ++ replicate 16 5 ++ [0; 42].
Proof.
  assert (all_u8 ([0; 1] ++ replicate 16 5 ++ [0x55; 42])) as Hu
    by (apply (bool_decide_unpack _); vm_compute; exact I).
  destruct (fst (Packet_deserialize (InputBuffer.new ([0; 1] ++ replicate 16 5 ++ [0x55; 42])))) as [p|e] eqn:E; [|vm_compute in E; discriminate E].
  destruct (Packet_parse_print _ _ Hu E) as (_ & b & n & Hs & Hw & _). exists p, b, n. split; [exact Hu|]. split; [exact E|]. split; [exact Hs|].
  rewrite Hw. vm_compute in E. injection E as <-. reflexivity.
Defined.

(** ** Packet hashes *)

Lemma to_meta_low_nibble h1 h2 :
  destination_type h1 = destination_type h2 -> packet_type h1 = packet_type h2 ->
  Z.land (to_meta h1) 0x0f = Z.land (to_meta h2) 0x0f.
Proof.
  assert (forall h, Z.land (to_meta h) 0x0f =
            DestinationType_as_u8 (destination_type h) * 4 + PacketType_as_u8 (packet_type h)) as Hlow
    by (intros [[] [] [] [] [] [] n]; reflexivity).
  intros H1 H2. by rewrite !Hlow, H1, H2.
Qed.

(** What a relay may change without changing the identity of the packet. *)
Definition same_packet (p q : Packet) : Prop :=
  destination_type (header p) = destination_type (header q) /\
  packet_type (header p) = packet_type (header q) /\
  destination p = destination q /\ context p = context q /\ payload p = payload q.

Lemma Packet_hash_same `{Sha256} p q : same_packet p q -> Packet_hash p = Packet_hash q.
Proof.
  intros (Hd & Ht & Hdst & Hc & Hp). unfold Packet_hash.
  by rewrite (to_meta_low_nibble _ _ Hd Ht), Hdst, Hc, Hp.
Qed.

Lemma same_packet_refl p : same_packet p p.
Proof. done. Qed.

#[export] Instance same_packet_equiv : Equivalence same_packet.
Proof.
  split; unfold same_packet.
  - done.
  - intros p q (-> & -> & -> & -> & ->). done.
  - intros p q r (-> & -> & -> & -> & ->) (-> & -> & -> & -> & ->). done.
Qed.

#[export] Instance Packet_hash_proper `{Sha256} : Proper (same_packet ==> eq) Packet_hash.
Proof. intros p q. apply Packet_hash_same. Qed.

(** the packet hash identifies a packet across hops: the hash of a packet
    received from the wire is the hash of the packet that was sent, and it does
    not depend on hop count, transport header, propagation type, context flag
    or access-code flag. *)
Theorem Packet_hash_hop_invariant `{Sha256} (p : Packet) (Hwf : Packet_wf p) :
  (forall q, fst (Packet_deserialize (InputBuffer.new (wire p))) = Ok q -> Packet_hash q = Packet_hash p) /\
  (forall f c ht pt n i t,
     Packet_hash (mkPacket (mkHeader f c ht pt (destination_type (header p)) (packet_type (header p)) n)
                    i (destination p) t (context p) (data p)) = Packet_hash p).
Proof.
  split.
  - intros q Hq. rewrite Packet_deserialize_parse, ib_new_rest, parse_wire in Hq by (done || apply ib_new_wf).
    injection Hq as <-. apply Packet_hash_same. unfold same_packet. repeat split; try done.
    by apply payload_buffer_payload, Packet_wf_payload.
  - intros. by apply Packet_hash_same.
Qed.

(** A toy digest, to instantiate the parameter in witnesses. *)
Lemma Packet_hash_hop_invariant_witness :
  Packet_wf sample_packet /\
  @Packet_hash toy_sha256 (Packet_normalize sample_packet) = @Packet_hash toy_sha256 sample_packet.
Proof.
  split; [exact sample_packet_wf|].
  apply (proj1 (@Packet_hash_hop_invariant toy_sha256 sample_packet sample_packet_wf)).
  vm_compute. reflexivity.
Defined.

(** ** Packet payloads built by appending *)

(** A buffer of capacity [PACKET_MDU] that holds [l]. *)
Definition buffer_holds (l : bytes) (b : StaticBuffer.t) : Prop :=
  StaticBuffer.wf b /\ StaticBuffer.capacity b = PACKET_MDU /\ StaticBuffer.as_slice b = l.

Lemma buffer_holds_new : buffer_holds [] PacketDataBuffer_new.
Proof.
  split; [unfold StaticBuffer.wf; simpl; lia|]. split; [apply PacketDataBuffer_capacity|done].
Qed.

Lemma buffer_holds_append l b dat :
  buffer_holds l b -> (length l + length dat <= PACKET_MDU)%nat ->
  buffer_holds (l ++ dat) (snd (StaticBuffer.safe_write dat b)).
Proof.
  intros (Hwf & Hc & Hs) Hl. destruct (sb_safe_write dat b Hwf) as (b' & -> & Hwf' & Hc' & Hs').
  cbn [snd]. split; [done|]. split; [by rewrite Hc'|]. rewrite Hs', Hs. f_equal. apply take_ge.
  apply (f_equal length) in Hs. rewrite as_slice_length in Hs by done. rewrite Hc, Hs. lia.
Qed.
