(* ===== verification/Framing.v ===== *)
(** * Stream framing: the interface between byte links and packets

    A framed link turns payloads into byte strings and a byte stream back into
    payloads with an incremental decoder.  [Framing] states what a link layer
    promises: from an idle decoder, one encoded frame yields exactly that frame
    and leaves the decoder idle.  What a client may conclude (frame boundaries
    do not depend on how the stream is chunked, a sequence of frames is
    received as sent) is proved here against the interface; [Hdlc.v] and
    [Kiss.v] discharge it. *)

From S2P Require Import Prelude.

(** ** Incremental decoders *)
Section Decoder.
Context {State Frame : Type} (step : State -> Z -> State * list Frame).

Fixpoint feed (s : State) (data : bytes) : State * list Frame :=
  match data with
  | [] => (s, [])
  | b :: data' =>
      let '(s1, out1) := step s b in
      let '(s2, out2) := feed s1 data' in
      (s2, out1 ++ out2)
  end.

Fixpoint feed_chunks (s : State) (chunks : list bytes) : State * list Frame :=
  match chunks with
  | [] => (s, [])
  | c :: cs =>
      let '(s1, out1) := feed s c in
      let '(s2, out2) := feed_chunks s1 cs in
      (s2, out1 ++ out2)
  end.

Lemma feed_app s a b :
  feed s (a ++ b) =
    let '(s1, out1) := feed s a in let '(s2, out2) := feed s1 b in (s2, out1 ++ out2).
Proof.
  revert s. induction a as [|x a IH]; intros s; simpl; [by destruct (feed s b)|].
  destruct (step s x) as [s1 o1]. rewrite IH. destruct (feed s1 a) as [s2 o2].
  destruct (feed s2 b) as [s3 o3]. by rewrite app_assoc.
Qed.

(** Feeding a stream in chunks is feeding it whole. *)
Lemma feed_chunks_concat s chunks : feed_chunks s chunks = feed s (concat chunks).
Proof.
  revert s. induction chunks as [|c cs IH]; intros s; simpl; [done|].
  rewrite feed_app. destruct (feed s c) as [s1 o1]. by rewrite IH.
Qed.

Lemma feed_compose s a b s1 o1 s2 o2 :
  feed s a = (s1, o1) -> feed s1 b = (s2, o2) -> feed s (a ++ b) = (s2, o1 ++ o2).
Proof. intros E1 E2. by rewrite feed_app, E1, E2. Qed.

End Decoder.

(** ** The framing interface *)
Class Framing (State Payload Frame : Type) := {
  fr_step : State -> Z -> State * list Frame;
  fr_encode : Payload -> bytes;
  (** what the decoder reports for a payload *)
  fr_frame : Payload -> Frame;
  (** between frames *)
  fr_idle : State -> Prop;
  (** payloads the decoder in this state can deliver whole *)
  fr_fits : State -> Payload -> Prop;
  fr_deliver : forall s p, fr_idle s -> fr_fits s p ->
    exists s', feed fr_step s (fr_encode p) = (s', [fr_frame p]) /\ fr_idle s' /\
      forall q, fr_fits s q -> fr_fits s' q;
}.

Section Client.
Context `{F : Framing State Payload Frame}.

(** A sequence of frames arrives as it was sent, however the bytes are
    chunked. *)
Lemma framing_stream s ps chunks :
  fr_idle s -> Forall (fr_fits s) ps -> concat chunks = concat (map fr_encode ps) ->
  exists s', feed_chunks fr_step s chunks = (s', map fr_frame ps) /\ fr_idle s'.
Proof.
  intros Hi Hf Hc. rewrite feed_chunks_concat, Hc. clear chunks Hc.
  revert s Hi Hf. induction ps as [|p ps IH]; intros s Hi Hf; simpl; [eauto|].
  inversion_clear Hf as [|? ? Hp Hps].
  destruct (fr_deliver s p Hi Hp) as (s1 & E1 & Hi1 & Hfit).
  destruct (IH s1 Hi1) as (s2 & E2 & Hi2).
  { eapply Forall_impl; [|exact Hps]. exact Hfit. }
  exists s2. split; [|done]. by rewrite (feed_compose _ _ _ _ _ _ _ _ E1 E2).
Qed.

End Client.
