(* ===== verification/Hdlc.v ===== *)
(** * HDLC framing ([src/iface/hdlc.rs])

    The byte-stuffed framing of the serial, pipe, local and TCP interfaces:
    the buffer encoders, the vector encoder, the one-shot decoder and the
    incremental decoder.  The incremental decoder with the vector encoder is
    an instance of [Framing]. *)

From S2P Require Import Prelude Buffer Framing.

Definition HDLC_FRAME_FLAG : Z := 0x7e.
Definition HDLC_ESCAPE_BYTE : Z := 0x7d.
Definition HDLC_ESCAPE_MASK : Z := 0x20.

Definition needs_escape (byte : Z) : bool :=
  (byte =? HDLC_FRAME_FLAG) || (byte =? HDLC_ESCAPE_BYTE).

(** ** Encoders *)

(** The loop body shared by [encode] and [escape]. *)
Definition write_escaped (byte : Z) : St OutputBuffer.t nat :=
  if needs_escape byte
  then OutputBuffer.write [HDLC_ESCAPE_BYTE; Z.lxor byte HDLC_ESCAPE_MASK]
  else OutputBuffer.write_byte byte.

Fixpoint write_all_escaped (data : bytes) : St OutputBuffer.t unit :=
  match data with
  | [] => mret tt
  | byte :: data' => write_escaped byte ≫= fun _ => write_all_escaped data'
  end.

Definition Hdlc_encode (data : bytes) : St OutputBuffer.t nat :=
  OutputBuffer.write_byte HDLC_FRAME_FLAG ≫= fun _ =>
  write_all_escaped data ≫= fun _ =>
  OutputBuffer.write_byte HDLC_FRAME_FLAG ≫= fun _ =>
  OutputBuffer.ret_offset.

Definition Hdlc_escape (data : bytes) : St OutputBuffer.t nat :=
  write_all_escaped data ≫= fun _ => OutputBuffer.ret_offset.

Definition Hdlc_encode_frame (data : bytes) : St OutputBuffer.t nat :=
  OutputBuffer.write_byte HDLC_FRAME_FLAG ≫= fun _ =>
  Hdlc_escape data ≫= fun _ =>
  OutputBuffer.write_byte HDLC_FRAME_FLAG ≫= fun _ =>
  OutputBuffer.ret_offset.

Definition escape_byte (byte : Z) : bytes :=
  if needs_escape byte then [HDLC_ESCAPE_BYTE; Z.lxor byte HDLC_ESCAPE_MASK] else [byte].

Definition Hdlc_encode_frame_vec (data : bytes) : bytes :=
  [HDLC_FRAME_FLAG] ++ (data ≫= escape_byte) ++ [HDLC_FRAME_FLAG].

(** ** Finding a frame

    The loop of [find] with its four local variables. *)
Fixpoint find_loop (data : bytes) (i : nat) (start : bool) (start_index : nat)
    : option (nat * nat) :=
  match data with
  | [] => None
  | byte :: data' =>
      if negb (byte =? HDLC_FRAME_FLAG) then find_loop data' (S i) start start_index
      else if negb start then find_loop data' (S i) true i
      else Some (start_index, i)
  end.

Definition Hdlc_find (data : bytes) : option (nat * nat) := find_loop data 0 false 0.

(** ** One-shot decoder *)
Fixpoint decode_loop (data : bytes) (started escape : bool) : St OutputBuffer.t bool :=
  match data with
  | [] => mret false
  | byte :: data' =>
      if escape
      then OutputBuffer.write_byte (Z.lxor byte HDLC_ESCAPE_MASK) ≫= fun _ =>
           decode_loop data' started false
      else if byte =? HDLC_FRAME_FLAG
      then if started then mret true else decode_loop data' true false
      else if byte =? HDLC_ESCAPE_BYTE then decode_loop data' started true
      else OutputBuffer.write_byte byte ≫= fun _ => decode_loop data' started false
  end.

Definition Hdlc_decode (data : bytes) : St OutputBuffer.t nat :=
  decode_loop data false false ≫= fun finished =>
  if negb finished then throw OutOfMemory else OutputBuffer.ret_offset.

(** ** Incremental decoder *)
Module HdlcDecoder.

Record t := mk { frame : bytes; in_frame : bool; escape : bool; mtu : nat }.

Definition new (mtu : nat) : t := mk [] false false mtu.

(** One iteration of the loop of [feed]; the list is the frames handed to
    [on_frame]. *)
Definition step (d : t) (byte : Z) : t * list bytes :=
  if in_frame d && (byte =? HDLC_FRAME_FLAG) then
    (mk [] false false (mtu d), [frame d])
  else if byte =? HDLC_FRAME_FLAG then
    (mk [] true false (mtu d), [])
  else if in_frame d && (length (frame d) <? mtu d)%nat then
    if byte =? HDLC_ESCAPE_BYTE then
      (mk (frame d) (in_frame d) true (mtu d), [])
    else
      let byte1 :=
        if escape d && (byte =? Z.lxor HDLC_FRAME_FLAG HDLC_ESCAPE_MASK)
        then HDLC_FRAME_FLAG else byte in
      let byte2 :=
        if escape d && (byte1 =? Z.lxor HDLC_ESCAPE_BYTE HDLC_ESCAPE_MASK)
        then HDLC_ESCAPE_BYTE else byte1 in
      (mk (frame d ++ [byte2]) (in_frame d) false (mtu d), [])
  else (d, []).

Definition feed (d : t) (data : bytes) : t * list bytes := Framing.feed step d data.

Definition reset (d : t) : t := mk [] false false (mtu d).

End HdlcDecoder.

(** ** Encoder lemmas *)

Lemma write_escaped_emits byte : emits (write_escaped byte) (escape_byte byte) (fun _ _ => True).
Proof.
  unfold write_escaped, escape_byte. destruct (needs_escape byte);
    (eapply emits_weaken; [|eauto with rns]); done.
Qed.

Lemma write_all_escaped_emits data :
  emits (write_all_escaped data) (data ≫= escape_byte) (fun _ _ => True).
Proof.
  induction data as [|byte data IH]; [eapply emits_weaken; [|apply emits_ret]; done|].
  change ((byte :: data) ≫= escape_byte) with (escape_byte byte ++ (data ≫= escape_byte)).
  eapply emits_bind; [apply write_escaped_emits|done].
Qed.

Lemma Hdlc_encode_emits data :
  emits (Hdlc_encode data) (Hdlc_encode_frame_vec data) (fun n b => n = OutputBuffer.offset b).
Proof.
  unfold Hdlc_encode, Hdlc_encode_frame_vec.
  eapply emits_bind; [eauto with rns|]. intros _.
  eapply emits_bind; [apply write_all_escaped_emits|]. intros _.
  rewrite <- (app_nil_r [HDLC_FRAME_FLAG]) at 1.
  eapply emits_bind; [eauto with rns|]. intros _. eauto with rns.
Qed.

Lemma Hdlc_encode_frame_emits data :
  emits (Hdlc_encode_frame data) (Hdlc_encode_frame_vec data) (fun n b => n = OutputBuffer.offset b).
Proof.
  unfold Hdlc_encode_frame, Hdlc_encode_frame_vec, Hdlc_escape.
  eapply emits_bind; [eauto with rns|]. intros _.
  eapply emits_bind.
  { rewrite <- (app_nil_r (data ≫= escape_byte)).
    eapply emits_bind; [apply write_all_escaped_emits|]. intros _. eauto with rns. }
  intros _. rewrite <- (app_nil_r [HDLC_FRAME_FLAG]) at 1.
  eapply emits_bind; [eauto with rns|]. intros _. eauto with rns.
Qed.

(** the three HDLC encoders agree: [encode] and [encode_frame] append the
    bytes of [encode_frame_vec] to the output buffer and return its new length
    when they fit, and fail with [OutOfMemory] when they do not. *)
Theorem Hdlc_encoders_agree (data : bytes) (b : OutputBuffer.t) (Hb : OutputBuffer.wf b) :
  let frame := Hdlc_encode_frame_vec data in
  forall enc, enc = Hdlc_encode data \/ enc = Hdlc_encode_frame data ->
  if (length frame <=? OutputBuffer.room b)%nat
  then exists b', enc b = (Ok (OutputBuffer.offset b'), b') /\
         OutputBuffer.as_slice b' = OutputBuffer.as_slice b ++ frame
  else exists b', enc b = (Err OutOfMemory, b').
Proof.
  intros frame enc Henc.
  assert (emits enc frame (fun n b => n = OutputBuffer.offset b)) as H.
  { destruct Henc as [-> | ->]; [apply Hdlc_encode_emits|apply Hdlc_encode_frame_emits]. }
  specialize (H b Hb). destruct (_ <=? _)%nat; [|done].
  destruct H as (n & b' & E & _ & _ & Hs & ->). eauto.
Qed.

Lemma Hdlc_encoders_agree_witness :
  let b := OutputBuffer.new (replicate 8 0) in
  OutputBuffer.wf b /\
  exists b', Hdlc_encode_frame [0x7e; 0x7d; 1] b = (Ok 7%nat, b') /\
    OutputBuffer.as_slice b' = [0x7e; 0x7d; 0x5e; 0x7d; 0x5d; 1; 0x7e].
Proof.
  split; [apply ob_new_wf|].
  destruct (Hdlc_encoders_agree [0x7e; 0x7d; 1] (OutputBuffer.new (replicate 8 0)) (ob_new_wf _)
              _ (or_intror eq_refl)) as (b' & E & Hs).
  exists b'. split; [|exact Hs].
  assert (b' = snd (Hdlc_encode_frame [0x7e; 0x7d; 1] (OutputBuffer.new (replicate 8 0)))) as ->
    by (rewrite E; reflexivity).
  reflexivity.
Defined.

(** ** Incremental decoder lemmas *)
Section DecoderLemmas.
Import HdlcDecoder.

(** Inside a frame, the escaped form of a byte pushes that byte. *)
Lemma feed_escape_byte d byte :
  in_frame d = true -> escape d = false -> (length (frame d) < mtu d)%nat ->
  Framing.feed step d (escape_byte byte) = (mk (frame d ++ [byte]) true false (mtu d), []).
Proof.
  destruct d as [f i e m]. simpl. intros -> -> Hlen.
  unfold escape_byte, needs_escape.
  destruct (Z.eqb_spec byte HDLC_FRAME_FLAG) as [->|Hf];
    [|destruct (Z.eqb_spec byte HDLC_ESCAPE_BYTE) as [->|He]]; simpl.
  1,2: unfold step, HDLC_FRAME_FLAG, HDLC_ESCAPE_BYTE, HDLC_ESCAPE_MASK; simpl;
    destruct (Nat.ltb_spec (length f) m); simpl; [|lia];
    by destruct (Nat.ltb_spec (length f) m); [|lia].
  unfold step. simpl. destruct (Z.eqb_spec byte HDLC_FRAME_FLAG); [done|].
  destruct (Nat.ltb_spec (length f) m); [|lia].
  by destruct (Z.eqb_spec byte HDLC_ESCAPE_BYTE).
Qed.

Lemma feed_escaped data d :
  in_frame d = true -> escape d = false -> (length (frame d) + length data <= mtu d)%nat ->
  Framing.feed step d (data ≫= escape_byte) = (mk (frame d ++ data) true false (mtu d), []).
Proof.
  revert d. induction data as [|byte data IH]; intros d Hi He Hlen.
  { rewrite app_nil_r. destruct d as [f i e m]; simpl in *. by subst. }
  change ((byte :: data) ≫= escape_byte) with (escape_byte byte ++ (data ≫= escape_byte)).
  simpl in Hlen. rewrite feed_app, feed_escape_byte by (done || lia).
  rewrite IH; simpl; [|done|done|rewrite length_app; simpl; lia]. by rewrite <- app_assoc.
Qed.

Lemma Hdlc_deliver d data :
  in_frame d = false -> (length data <= mtu d)%nat ->
  Framing.feed step d (Hdlc_encode_frame_vec data) = (mk [] false false (mtu d), [data]).
Proof.
  intros Hi Hlen. unfold Hdlc_encode_frame_vec.
  assert (Framing.feed step d [HDLC_FRAME_FLAG] = (mk [] true false (mtu d), [])) as E1.
  { destruct d as [f i e m]. simpl in *. by subst. }
  rewrite feed_app, E1, feed_app, feed_escaped by done. done.
Qed.

Lemma Hdlc_deliver_idle d data :
  in_frame d = false -> (length data <= mtu d)%nat ->
  exists d', Framing.feed step d (Hdlc_encode_frame_vec data) = (d', [id data]) /\
    in_frame d' = false /\ forall q : bytes, (length q <= mtu d)%nat -> (length q <= mtu d')%nat.
Proof. intros Hi Hlen. eexists. split; [by apply Hdlc_deliver|]. done. Qed.

End DecoderLemmas.

#[export] Instance Hdlc_framing : Framing HdlcDecoder.t bytes bytes := {|
  fr_step := HdlcDecoder.step;
  fr_encode := Hdlc_encode_frame_vec;
  fr_frame := id;
  fr_idle d := HdlcDecoder.in_frame d = false;
  fr_fits d data := (length data <= HdlcDecoder.mtu d)%nat;
  fr_deliver := Hdlc_deliver_idle;
|}.

(** C33: HDLC links deliver every payload. Any sequence of payloads within the
    decoder's MTU, framed by [encode_frame_vec] and cut into arbitrary chunks,
    is received as exactly that sequence by a decoder that is between frames. *)
Theorem Hdlc_stream_roundtrip (d : HdlcDecoder.t) (payloads chunks : list bytes)
    (Hidle : HdlcDecoder.in_frame d = false)
    (Hfit : Forall (fun p => (length p <= HdlcDecoder.mtu d)%nat) payloads)
    (Hchunks : concat chunks = concat (map Hdlc_encode_frame_vec payloads)) :
  exists d', feed_chunks HdlcDecoder.step d chunks = (d', payloads) /\
    HdlcDecoder.in_frame d' = false.
Proof.
  destruct (framing_stream (F := Hdlc_framing) d payloads chunks Hidle Hfit Hchunks) as (d' & E & Hi).
  exists d'. split; [|exact Hi]. rewrite map_id in E. exact E.
Qed.

Lemma Hdlc_stream_roundtrip_witness :
  let d := HdlcDecoder.new 564 in
  let chunks := [[0x7e; 0x7d]; [0x5e; 1; 0x7e; 0x7e]; [9; 0x7e]] in
  HdlcDecoder.in_frame d = false /\
  exists d', feed_chunks HdlcDecoder.step d chunks = (d', [[0x7e; 1]; [9]]) /\
    HdlcDecoder.in_frame d' = false.
Proof.
  split; [reflexivity|].
  apply (Hdlc_stream_roundtrip (HdlcDecoder.new 564) [[0x7e; 1]; [9]]
           [[0x7e; 0x7d]; [0x5e; 1; 0x7e; 0x7e]; [9; 0x7e]]).
  - reflexivity.
  - repeat constructor; simpl; lia.
  - reflexivity.
Defined.

(** ** One-shot decoder and frame search *)

Lemma decode_loop_escape_byte byte k :
  decode_loop (escape_byte byte ++ k) true false =
    OutputBuffer.write_byte byte ≫= fun _ => decode_loop k true false.
Proof.
  unfold escape_byte, needs_escape.
  destruct (Z.eqb_spec byte HDLC_FRAME_FLAG) as [->|Hf]; [done|].
  destruct (Z.eqb_spec byte HDLC_ESCAPE_BYTE) as [->|He]; [done|].
  simpl. destruct (Z.eqb_spec byte HDLC_FRAME_FLAG); [done|].
  by destruct (Z.eqb_spec byte HDLC_ESCAPE_BYTE).
Qed.

Lemma decode_loop_escaped data rest :
  emits (decode_loop ((data ≫= escape_byte) ++ HDLC_FRAME_FLAG :: rest) true false) data
    (fun finished _ => finished = true).
Proof.
  induction data as [|byte data IH].
  { change (decode_loop _ true false) with (mret true : St OutputBuffer.t bool). apply emits_ret. }
  change ((byte :: data) ≫= escape_byte) with (escape_byte byte ++ (data ≫= escape_byte)).
  rewrite <- app_assoc, decode_loop_escape_byte.
  change (byte :: data) with ([byte] ++ data).
  eapply emits_bind; [apply emits_write_byte|done].
Qed.

Lemma Hdlc_decode_emits data rest :
  emits (Hdlc_decode (Hdlc_encode_frame_vec data ++ rest)) data (fun n b => n = OutputBuffer.offset b).
Proof.
  unfold Hdlc_decode, Hdlc_encode_frame_vec. rewrite <- !app_assoc.
  rewrite <- (app_nil_r data) at 2.
  eapply emits_bind_dep; [apply decode_loop_escaped|]. intros ? _ ->. apply emits_ret_offset.
Qed.

Lemma find_loop_skip noise k i start si :
  Forall (fun b => b <> HDLC_FRAME_FLAG) noise ->
  find_loop (noise ++ k) i start si = find_loop k (i + length noise) start si.
Proof.
  revert i. induction noise as [|b noise IH]; intros i Hn; simpl; [by rewrite Nat.add_0_r|].
  inversion_clear Hn. destruct (Z.eqb_spec b HDLC_FRAME_FLAG); [done|]. simpl.
  rewrite IH by done. f_equal. lia.
Qed.

Lemma escaped_no_flag data : Forall (fun b => b <> HDLC_FRAME_FLAG) (data ≫= escape_byte).
Proof.
  apply Forall_bind, Forall_true. intros byte. unfold compose, escape_byte, needs_escape.
  destruct (Z.eqb_spec byte HDLC_FRAME_FLAG) as [->|Hf];
    [|destruct (Z.eqb_spec byte HDLC_ESCAPE_BYTE) as [->|He]];
    cbn [orb]; rewrite ?Forall_cons_iff; repeat split; try apply Forall_nil; first [assumption|discriminate].
Qed.

Lemma Hdlc_find_frame noise data rest :
  Forall (fun b => b <> HDLC_FRAME_FLAG) noise ->
  Hdlc_find (noise ++ Hdlc_encode_frame_vec data ++ rest) =
    Some (length noise, length noise + length (Hdlc_encode_frame_vec data) - 1)%nat.
Proof.
  intros Hn. unfold Hdlc_find, Hdlc_encode_frame_vec. rewrite find_loop_skip by done.
  rewrite <- !app_assoc. simpl. rewrite find_loop_skip by apply escaped_no_flag. simpl.
  do 2 f_equal. rewrite length_app. simpl. lia.
Qed.

(** receiving through [find] and [decode]. In a stream that starts with
    bytes other than the flag, [find] locates the first frame exactly, and
    [decode] of that range appends the framed payload to the output. *)
Theorem Hdlc_find_decode (noise data rest : bytes) (b : OutputBuffer.t)
    (Hnoise : Forall (fun x => x <> HDLC_FRAME_FLAG) noise)
    (Hb : OutputBuffer.wf b) (Hroom : (length data <= OutputBuffer.room b)%nat) :
  let stream := noise ++ Hdlc_encode_frame_vec data ++ rest in
  exists i j b', Hdlc_find stream = Some (i, j) /\
    Hdlc_decode (slice i (S j) stream) b = (Ok (OutputBuffer.offset b'), b') /\
    OutputBuffer.as_slice b' = OutputBuffer.as_slice b ++ data.
Proof.
  intros stream. pose proof (Hdlc_decode_emits data [] b Hb) as H.
  destruct (Nat.leb_spec (length data) (OutputBuffer.room b)); [|lia].
  destruct H as (n & b' & E & _ & _ & Hs & ->).
  eexists _, _, b'. split; [by apply Hdlc_find_frame|]. split; [|done].
  rewrite <- E. f_equal. rewrite app_nil_r. unfold stream.
  replace (S _) with (length noise + length (Hdlc_encode_frame_vec data))%nat.
  - by rewrite slice_app_mid.
  - unfold Hdlc_encode_frame_vec. rewrite length_app. simpl. lia.
Qed.

Lemma Hdlc_find_decode_witness :
  let b := OutputBuffer.new (replicate 4 0) in
  OutputBuffer.wf b /\
  exists i j b',
    Hdlc_find ([1; 2] ++ Hdlc_encode_frame_vec [0x7e; 5] ++ [8]) = Some (i, j) /\
    Hdlc_decode (slice i (S j) ([1; 2] ++ Hdlc_encode_frame_vec [0x7e; 5] ++ [8])) b
      = (Ok (OutputBuffer.offset b'), b') /\
    OutputBuffer.as_slice b' = [0x7e; 5].
Proof.
  split; [apply ob_new_wf|].
  apply (Hdlc_find_decode [1; 2] [0x7e; 5] [8] (OutputBuffer.new (replicate 4 0))).
  - repeat constructor; discriminate.
  - apply ob_new_wf.
  - vm_compute. lia.
Defined.
