(* ===== verification/Kiss.v ===== *)
(** * KISS and AX.25 framing

    Models [src/src/iface/kiss.rs] (TNC commands, frame escaping, the
    incremental [KissDecoder], the identification beacon),
    [src/src/iface/ax25.rs] (UI header and address fields) and
    [src/rnode-modem-core/src/frame.rs] (the modem side of the same framing,
    [FrameParser]).  Both decoders are instances of [Framing].

    Times are nanoseconds on the monotonic clock. *)

From S2P Require Import Prelude Framing.

Definition FEND : Z := 0xC0.
Definition FESC : Z := 0xDB.
Definition TFEND : Z := 0xDC.
Definition TFESC : Z := 0xDD.

Definition CMD_UNKNOWN : Z := 0xFE.
Definition CMD_DATA : Z := 0x00.
Definition CMD_TXDELAY : Z := 0x01.
Definition CMD_P : Z := 0x02.
Definition CMD_SLOTTIME : Z := 0x03.
Definition CMD_TXTAIL : Z := 0x04.
Definition CMD_READY : Z := 0x0F.

(** ** TNC configuration *)
Record CsmaParams := mkCsmaParams {
  preamble : Z;
  txtail : Z;
  persistence : Z;
  slottime : Z;
}.

Definition CsmaParams_default : CsmaParams := mkCsmaParams 350 20 64 20.

Definition kiss_command (command value : Z) : bytes := [FEND; command; value; FEND].
Definition set_preamble (preamble_ms : Z) : bytes :=
  kiss_command CMD_TXDELAY (Z.min (preamble_ms / 10) 255).
Definition set_txtail (txtail_ms : Z) : bytes :=
  kiss_command CMD_TXTAIL (Z.min (txtail_ms / 10) 255).
Definition set_persistence (persistence : Z) : bytes :=
  kiss_command CMD_P (Z.min persistence 255).
Definition set_slottime (slottime_ms : Z) : bytes :=
  kiss_command CMD_SLOTTIME (Z.min (slottime_ms / 10) 255).
Definition set_flow_control (enabled : bool) : bytes :=
  kiss_command CMD_READY (if enabled then 1 else 0).

Definition CsmaParams_commands (c : CsmaParams) : list bytes :=
  [set_preamble (preamble c); set_txtail (txtail c); set_persistence (persistence c);
   set_slottime (slottime c); set_flow_control true].

(** ** Encoding *)
Definition kiss_escape_byte (byte : Z) : bytes :=
  if byte =? FESC then [FESC; TFESC]
  else if byte =? FEND then [FESC; TFEND]
  else [byte].

Definition kiss_escape (data : bytes) : bytes := data ≫= kiss_escape_byte.

Definition kiss_encode_frame (data : bytes) : bytes :=
  [FEND; CMD_DATA] ++ kiss_escape data ++ [FEND].

(** The modem's encoder ([frame.rs]), which takes the command. *)
Fixpoint kiss_frame_body (payload : bytes) : bytes :=
  match payload with
  | [] => []
  | byte :: rest =>
      (if byte =? FEND then [FESC; TFEND]
       else if byte =? FESC then [FESC; TFESC]
       else [byte]) ++ kiss_frame_body rest
  end.

Definition kiss_frame (command : Z) (payload : bytes) : bytes :=
  [FEND; command] ++ kiss_frame_body payload ++ [FEND].

(** ** Host decoder *)
Inductive KissEvent :=
| KissData (frame : bytes)
| KissReady.

Module KissDecoder.

Record t := mk {
  frame : bytes;
  in_frame : bool;
  escape : bool;
  command : Z;
  mtu : nat;
}.

Definition new (mtu : nat) : t := mk [] false false CMD_UNKNOWN mtu.

(** One iteration of the loop of [feed]. *)
Definition step (d : t) (byte : Z) : t * list KissEvent :=
  if in_frame d && (byte =? FEND) && (command d =? CMD_DATA) then
    (mk [] false false CMD_UNKNOWN (mtu d), [KissData (frame d)])
  else if byte =? FEND then
    (mk [] true false CMD_UNKNOWN (mtu d), [])
  else if in_frame d && (length (frame d) <? mtu d)%nat then
    if (length (frame d) =? 0)%nat && (command d =? CMD_UNKNOWN) then
      (mk (frame d) (in_frame d) (escape d) (Z.land byte 0x0F) (mtu d), [])
    else if command d =? CMD_DATA then
      if byte =? FESC then (mk (frame d) (in_frame d) true (command d) (mtu d), [])
      else
        let byte1 := if escape d && (byte =? TFEND) then FEND else byte in
        let byte2 := if escape d && (byte1 =? TFESC) then FESC else byte1 in
        (mk (frame d ++ [byte2]) (in_frame d) false (command d) (mtu d), [])
    else if command d =? CMD_READY then
      (mk (frame d) (in_frame d) (escape d) CMD_UNKNOWN (mtu d), [KissReady])
    else (d, [])
  else (d, []).

Definition feed (d : t) (data : bytes) : t * list KissEvent := Framing.feed step d data.

(** A data frame is open. *)
Definition receiving (d : t) : bool := in_frame d && (command d =? CMD_DATA).

End KissDecoder.

(** ** Modem decoder *)
Definition MAX_PAYLOAD : nat := 512.

Module FrameParser.

Record t := mk {
  command : Z;
  payload : bytes;
  active : bool;
  escaped : bool;
}.

Definition new : t := mk 0xFE [] false false.

(** One iteration of the loop of [feed]; completed frames are the arguments of
    the calls of [on_frame]. *)
Definition step (p : t) (byte : Z) : t * list (Z * bytes) :=
  if byte =? FEND then
    (mk (command p) (if active p then [] else payload p) false false,
     if active p then [(command p, payload p)] else [])
  else if negb (active p) then (mk byte [] true false, [])
  else if escaped p then
    let decoded := if byte =? TFEND then FEND else if byte =? TFESC then FESC else byte in
    (mk (command p)
        (if (length (payload p) <? MAX_PAYLOAD)%nat then payload p ++ [decoded] else payload p)
        (active p) false, [])
  else if byte =? FESC then (mk (command p) (payload p) (active p) true, [])
  else if (length (payload p) <? MAX_PAYLOAD)%nat then
    (mk (command p) (payload p ++ [byte]) (active p) (escaped p), [])
  else (p, []).

Definition feed (p : t) (data : bytes) : t * list (Z * bytes) := Framing.feed step p data.

End FrameParser.

(** ** Identification beacon *)
Definition NANOS_PER_SEC : Z := 1000000000.
Definition NANOS_PER_MILLI : Z := 1000000.

Module IdBeacon.

Record t := mk {
  interval : Z;
  callsign : bytes;
  first_tx : option Z;
}.

Definition new (interval_secs : Z) (callsign : bytes) : t :=
  mk (interval_secs * NANOS_PER_SEC) callsign None.

Definition time_until_due (b : t) (now : Z) : option Z :=
  started ← first_tx b;
  Some (Z.max 0 (started + interval b + NANOS_PER_MILLI - now)).

Definition take_if_due (b : t) (now : Z) : option bytes :=
  started ← first_tx b;
  if started + interval b <? now then
    Some (if (length (callsign b) <? 15)%nat
          then callsign b ++ replicate (15 - length (callsign b)) 0
          else callsign b)
  else None.

Definition is_padded_id (b : t) (data : bytes) : bool :=
  (length (callsign b) <? 15)%nat && (length data =? 15)%nat
  && bool_decide (take (length (callsign b)) data = callsign b)
  && forallb (fun byte => byte =? 0) (drop (length (callsign b)) data).

Definition note_sent (b : t) (data : bytes) (now : Z) : t :=
  if decide (data = callsign b) then mk (interval b) (callsign b) None
  else if is_padded_id b data || bool_decide (first_tx b = None)
  then mk (interval b) (callsign b) (Some now)
  else b.

End IdBeacon.

(** ** AX.25 *)
Definition PID_NOLAYER3 : Z := 0xF0.
Definition CTRL_UI : Z := 0x03.
Definition AX25_HEADER_SIZE : nat := 16.

(** ["APZRNS"] in ASCII. *)
Definition DEFAULT_DESTINATION_CALLSIGN : bytes := [0x41; 0x50; 0x5A; 0x52; 0x4E; 0x53].
Definition DEFAULT_DESTINATION_SSID : Z := 0.

(** The callsign is given by its UTF-8 bytes. *)
Definition validate_callsign (callsign : bytes) (ssid : Z) : result unit :=
  if (length callsign <? 3)%nat || (6 <? length callsign)%nat then Err InvalidArgument
  else if negb (forallb (fun b => b <? 0x80) callsign) then Err InvalidArgument
  else if 15 <? ssid then Err InvalidArgument
  else Ok ().

Definition encode_address (callsign : bytes) (ssid : Z) (last : bool) : bytes :=
  let chars := map (fun b => wrap 8 (Z.shiftl b 1)) (take 6 callsign) in
  let encoded_ssid := Z.lor 0x60 (wrap 8 (Z.shiftl ssid 1)) in
  chars ++ replicate (6 - length chars) 0x20
    ++ [if last then Z.lor encoded_ssid 0x01 else encoded_ssid].

Definition pack_ax25_frame_to (data src_call : bytes) (src_ssid : Z) (dst_call : bytes)
    (dst_ssid : Z) : bytes :=
  encode_address dst_call dst_ssid false ++ encode_address src_call src_ssid true
    ++ [CTRL_UI; PID_NOLAYER3] ++ data.

Definition pack_ax25_frame (data callsign : bytes) (ssid : Z) : bytes :=
  pack_ax25_frame_to data callsign ssid DEFAULT_DESTINATION_CALLSIGN DEFAULT_DESTINATION_SSID.

Definition strip_ax25_header (frame : bytes) : option bytes :=
  if (AX25_HEADER_SIZE <? length frame)%nat then Some (drop AX25_HEADER_SIZE frame) else None.

(** The address field has 7 bytes; the callsign is the list of the characters'
    code points. *)
Definition decode_address (address : bytes) : bytes * Z :=
  let chars := map (fun b => Z.shiftr b 1) (take 6 address) in
  (filter (fun b => b <> 0x10 /\ b <> 0x00) chars,
   Z.land (Z.shiftr (nth 6 address 0) 1) 0x0F).

(** ** Encoder lemmas *)

Lemma kiss_frame_body_escape data : kiss_frame_body data = kiss_escape data.
Proof.
  induction data as [|byte data IH]; [done|]. simpl. rewrite IH. unfold kiss_escape. simpl.
  f_equal. unfold kiss_escape_byte.
  destruct (Z.eqb_spec byte FEND) as [->|]; [done|]. by destruct (byte =? FESC).
Qed.

Lemma kiss_encode_frame_data data : kiss_encode_frame data = kiss_frame CMD_DATA data.
Proof. unfold kiss_encode_frame, kiss_frame. by rewrite kiss_frame_body_escape. Qed.

Lemma kiss_escape_cons byte data : kiss_escape (byte :: data) = kiss_escape_byte byte ++ kiss_escape data.
Proof. done. Qed.

(** A buffer that stops growing at [m] elements keeps the first [m] of what is
    pushed. *)
Lemma push_take {A} (f l : list A) x m :
  (length f < m)%nat ->
  (f ++ [x]) ++ take (m - length (f ++ [x])) l = f ++ take (m - length f) (x :: l).
Proof.
  intros Hm. rewrite length_app. simpl. rewrite <- app_assoc. simpl.
  replace (m - length f)%nat with (S (m - (length f + 1))) by lia. done.
Qed.

(** ** Host decoder lemmas *)
Section KissLemmas.
Import KissDecoder.

Lemma kiss_feed_byte f m byte :
  Framing.feed step (mk f true false CMD_DATA m) (kiss_escape_byte byte) =
    (mk (if (length f <? m)%nat then f ++ [byte] else f) true false CMD_DATA m, []).
Proof.
  unfold kiss_escape_byte.
  destruct (Z.eqb_spec byte FESC) as [->|Hs]; [|destruct (Z.eqb_spec byte FEND) as [->|He]];
    simpl; unfold step; simpl; destruct (length f <? m)%nat eqn:E; simpl;
    rewrite ?andb_false_r; simpl; rewrite ?E; simpl; try done.
  all: destruct (Z.eqb_spec byte FEND); [done|]; rewrite ?andb_false_r; simpl; try done.
  by destruct (Z.eqb_spec byte FESC).
Qed.

Lemma kiss_feed_escaped data f m :
  Framing.feed step (mk f true false CMD_DATA m) (kiss_escape data) =
    (mk (f ++ take (m - length f) data) true false CMD_DATA m, []).
Proof.
  revert f. induction data as [|byte data IH]; intros f.
  { by rewrite take_nil, app_nil_r. }
  rewrite kiss_escape_cons, feed_app, kiss_feed_byte.
  destruct (Nat.ltb_spec (length f) m) as [Hl|Hl]; rewrite IH.
  - by rewrite push_take.
  - by replace (m - length f)%nat with 0%nat by lia.
Qed.

Lemma kiss_deliver d data :
  receiving d = false -> (1 <= mtu d)%nat ->
  Framing.feed step d (kiss_encode_frame data) =
    (mk [] false false CMD_UNKNOWN (mtu d), [KissData (take (mtu d) data)]).
Proof.
  intros Hr Hm. unfold kiss_encode_frame.
  assert (Framing.feed step d [FEND; CMD_DATA] = (mk [] true false CMD_DATA (mtu d), [])) as E1.
  { destruct d as [f i e c m]; unfold receiving in Hr; simpl in *. unfold step at 1. simpl.
    rewrite andb_true_r, Hr. simpl. unfold step. simpl.
    by destruct (Nat.ltb_spec 0 m); [|lia]. }
  rewrite feed_app, E1, feed_app, kiss_feed_escaped. simpl. by rewrite Nat.sub_0_r.
Qed.

Lemma kiss_deliver_idle d data :
  receiving d = false -> (1 <= mtu d /\ length data <= mtu d)%nat ->
  exists d', Framing.feed step d (kiss_encode_frame data) = (d', [KissData data]) /\
    receiving d' = false /\
    forall q : bytes, (1 <= mtu d /\ length q <= mtu d)%nat -> (1 <= mtu d' /\ length q <= mtu d')%nat.
Proof.
  intros Hi [Hm Hl]. eexists. rewrite kiss_deliver by done. rewrite take_ge by done. done.
Qed.

End KissLemmas.

#[export] Instance Kiss_framing : Framing KissDecoder.t bytes KissEvent := {|
  fr_step := KissDecoder.step;
  fr_encode := kiss_encode_frame;
  fr_frame := KissData;
  fr_idle d := KissDecoder.receiving d = false;
  fr_fits d data := (1 <= KissDecoder.mtu d /\ length data <= KissDecoder.mtu d)%nat;
  fr_deliver := kiss_deliver_idle;
|}.

(** ** Modem decoder lemmas *)
Section ParserLemmas.
Import FrameParser.

Lemma parser_feed_byte c p byte :
  Framing.feed step (mk c p true false) (kiss_escape_byte byte) =
    (mk c (if (length p <? MAX_PAYLOAD)%nat then p ++ [byte] else p) true false, []).
Proof.
  unfold kiss_escape_byte.
  destruct (Z.eqb_spec byte FESC) as [->|Hs]; [|destruct (Z.eqb_spec byte FEND) as [->|He]];
    cbn [Framing.feed]; unfold step; simpl; destruct (length p <? MAX_PAYLOAD)%nat eqn:E;
    simpl; rewrite ?E; try done.
  all: destruct (Z.eqb_spec byte FEND); [done|]; simpl; by destruct (Z.eqb_spec byte FESC).
Qed.

Lemma parser_feed_escaped data c p :
  Framing.feed step (mk c p true false) (kiss_escape data) =
    (mk c (p ++ take (MAX_PAYLOAD - length p) data) true false, []).
Proof.
  revert p. induction data as [|byte data IH]; intros p.
  { by rewrite take_nil, app_nil_r. }
  rewrite kiss_escape_cons, feed_app, parser_feed_byte.
  destruct (Nat.ltb_spec (length p) MAX_PAYLOAD) as [Hl|Hl]; rewrite IH.
  - by rewrite push_take.
  - by replace (MAX_PAYLOAD - length p)%nat with 0%nat by lia.
Qed.

Lemma parser_deliver p c data :
  active p = false -> c <> FEND ->
  Framing.feed step p (kiss_frame c data) = (mk c [] false false, [(c, take MAX_PAYLOAD data)]).
Proof.
  intros Ha Hc. unfold kiss_frame. rewrite kiss_frame_body_escape.
  assert (Framing.feed step p [FEND; c] = (mk c [] true false, [])) as E1.
  { destruct p as [c0 p0 a e]. simpl in *. subst. unfold step. simpl.
    by destruct (Z.eqb_spec c FEND). }
  rewrite feed_app, E1, feed_app, parser_feed_escaped. done.
Qed.

Lemma parser_deliver_idle p (cd : Z * bytes) :
  active p = false -> (cd.1 <> FEND /\ (length cd.2 <= MAX_PAYLOAD)%nat) ->
  exists p', Framing.feed step p (kiss_frame cd.1 cd.2) = (p', [id cd]) /\ active p' = false /\
    forall q : Z * bytes, (q.1 <> FEND /\ (length q.2 <= MAX_PAYLOAD)%nat) ->
                          (q.1 <> FEND /\ (length q.2 <= MAX_PAYLOAD)%nat).
Proof.
  destruct cd as [c data]. cbn [fst snd]. intros Ha [Hc Hl]. eexists.
  rewrite parser_deliver by done. rewrite take_ge by done. done.
Qed.

End ParserLemmas.

#[export] Instance Parser_framing : Framing FrameParser.t (Z * bytes) (Z * bytes) := {|
  fr_step := FrameParser.step;
  fr_encode cd := kiss_frame cd.1 cd.2;
  fr_frame := id;
  fr_idle p := FrameParser.active p = false;
  fr_fits _ cd := cd.1 <> FEND /\ (length cd.2 <= MAX_PAYLOAD)%nat;
  fr_deliver := parser_deliver_idle;
|}.

(** receiving on a KISS port. From any state in which no data frame is
    open, the host decoder delivers a sequence of data frames as sent, however
    the serial reads split the bytes; and a payload longer than the decoder's
    limit arrives cut to its first [mtu] bytes. *)
Theorem Kiss_stream_roundtrip (d : KissDecoder.t)
    (Hd : KissDecoder.receiving d = false) (Hm : (1 <= KissDecoder.mtu d)%nat) :
  (forall payloads chunks,
     Forall (fun p => (length p <= KissDecoder.mtu d)%nat) payloads ->
     concat chunks = concat (map kiss_encode_frame payloads) ->
     exists d', feed_chunks KissDecoder.step d chunks = (d', map KissData payloads) /\
       KissDecoder.receiving d' = false) /\
  (forall data, snd (KissDecoder.feed d (kiss_encode_frame data)) =
     [KissData (take (KissDecoder.mtu d) data)]).
Proof.
  split.
  - intros payloads chunks Hp Hc.
    apply (framing_stream (F := Kiss_framing)); [done| |done].
    eapply Forall_impl; [|exact Hp]. done.
  - intros data. unfold KissDecoder.feed. by rewrite kiss_deliver.
Qed.

Lemma Kiss_stream_roundtrip_witness :
  KissDecoder.receiving (KissDecoder.new 4) = false /\
  exists d', feed_chunks KissDecoder.step (KissDecoder.new 4)
      [[0xC0]; [0; 0xDB]; [0xDC; 7; 0xC0; 0xC0; 0; 0xC0]] = (d', [KissData [0xC0; 7]; KissData []]) /\
    KissDecoder.receiving d' = false.
Proof.
  split; [reflexivity|].
  refine (proj1 (Kiss_stream_roundtrip (KissDecoder.new 4) _ _) [[0xC0; 7]; []] _ _ _).
  - reflexivity.
  - simpl. lia.
  - repeat constructor; simpl; lia.
  - reflexivity.
Defined.

(** host and modem speak the same framing. The host's data frames are the
    modem's frames of command 0, and the modem's parser, between frames,
    receives every sequence of command frames as sent, however it is split;
    longer payloads are cut to [MAX_PAYLOAD] bytes. *)
Theorem Kiss_modem_interop (p : FrameParser.t) (Hp : FrameParser.active p = false) :
  (forall data, kiss_encode_frame data = kiss_frame CMD_DATA data) /\
  (forall frames chunks,
     Forall (fun cd : Z * bytes => cd.1 <> FEND /\ (length cd.2 <= MAX_PAYLOAD)%nat) frames ->
     concat chunks = concat (map (fun cd => kiss_frame cd.1 cd.2) frames) ->
     exists p', feed_chunks FrameParser.step p chunks = (p', frames) /\
       FrameParser.active p' = false) /\
  (forall c data, c <> FEND ->
     snd (FrameParser.feed p (kiss_frame c data)) = [(c, take MAX_PAYLOAD data)]).
Proof.
  split; [apply kiss_encode_frame_data|]. split.
  - intros frames chunks Hf Hc.
    destruct (framing_stream (F := Parser_framing) p frames chunks Hp Hf Hc) as (p' & E & Hi).
    exists p'. split; [|exact Hi]. rewrite map_id in E. exact E.
  - intros c data Hc. unfold FrameParser.feed. by rewrite parser_deliver.
Qed.

Lemma Kiss_modem_interop_witness :
  FrameParser.active FrameParser.new = false /\
  snd (FrameParser.feed FrameParser.new (kiss_frame 0x21 [0xC0; 0xDB])) = [(0x21, [0xC0; 0xDB])].
Proof.
  split; [reflexivity|].
  exact (proj2 (proj2 (Kiss_modem_interop FrameParser.new eq_refl)) 0x21 [0xC0; 0xDB]
           ltac:(discriminate)).
Defined.

(** TNC configuration commands carry their value byte unescaped: a parser
    receives the value except when it is one of the two framing bytes (192 or
    219), in which case it receives an empty command. *)
Theorem kiss_command_received (command value : Z) (Hc : command <> FEND) :
  snd (FrameParser.feed FrameParser.new (kiss_command command value)) =
    [(command, if (value =? FEND) || (value =? FESC) then [] else [value])].
Proof.
  assert (Framing.feed FrameParser.step FrameParser.new [FEND; command] =
            (FrameParser.mk command [] true false, [])) as E.
  { simpl. unfold FrameParser.step. simpl. by destruct (Z.eqb_spec command FEND). }
  change (kiss_command command value) with ([FEND; command] ++ [value; FEND]).
  unfold FrameParser.feed. rewrite feed_app, E. simpl. unfold FrameParser.step at 1. simpl.
  destruct (Z.eqb_spec value FEND) as [->|]; [done|]. by destruct (Z.eqb_spec value FESC).
Qed.

Lemma kiss_command_received_witness :
  CMD_TXDELAY <> FEND /\
  snd (FrameParser.feed FrameParser.new (set_preamble 1920)) = [(CMD_TXDELAY, [])].
Proof.
  split; [discriminate|].
  exact (kiss_command_received CMD_TXDELAY 192 ltac:(discriminate)).
Defined.

(** ** AX.25 lemmas *)

Lemma length_encode_address callsign ssid last : length (encode_address callsign ssid last) = 7%nat.
Proof.
  unfold encode_address. rewrite !length_app, length_replicate, length_map, length_take. cbn [length]. lia.
Qed.

Lemma strip_pack data src src_ssid dst dst_ssid :
  strip_ax25_header (pack_ax25_frame_to data src src_ssid dst dst_ssid) =
    match data with [] => None | _ => Some data end.
Proof.
  unfold strip_ax25_header, pack_ax25_frame_to.
  rewrite !app_assoc, drop_app_length' by (rewrite !length_app, !length_encode_address; done).
  rewrite !length_app, !length_encode_address. destruct data; [done|].
  by destruct (Nat.ltb_spec AX25_HEADER_SIZE (7 + 7 + length [CTRL_UI; PID_NOLAYER3] + length (z :: data)));
    [|unfold AX25_HEADER_SIZE in *; simpl in *; lia].
Qed.

(** A 7-bit character survives the shift. *)
Lemma shift_char b : 0 <= b < 128 -> Z.shiftr (wrap 8 (Z.shiftl b 1)) 1 = b.
Proof.
  intros Hb. rewrite Z.shiftl_mul_pow2, Z.shiftr_div_pow2 by lia. unfold wrap. zb.
  rewrite Z.mod_small by lia. by rewrite Z.div_mul.
Qed.

Lemma ssid_decode ssid (last : bool) : 0 <= ssid <= 15 ->
  Z.land (Z.shiftr (let e := Z.lor 0x60 (wrap 8 (Z.shiftl ssid 1)) in
                    if last then Z.lor e 1 else e) 1) 0x0F = ssid.
Proof.
  intros Hs. assert (Hin : ssid ∈ seqZ 0 16) by (apply elem_of_seqZ; lia).
  revert ssid Hin Hs. assert (Forall (fun s => forall l : bool,
    Z.land (Z.shiftr (let e := Z.lor 0x60 (wrap 8 (Z.shiftl s 1)) in
                    if l then Z.lor e 1 else e) 1) 0x0F = s) (seqZ 0 16)) as H.
  { repeat constructor; intros []; reflexivity. }
  intros s Hin _. rewrite Forall_forall in H. apply (H s), list_elem_of_In, Hin.
Qed.

Lemma decode_chars callsign :
  Forall (fun b => 0 <= b < 128 /\ b <> 0x10 /\ b <> 0) callsign ->
  filter (fun b => b <> 0x10 /\ b <> 0x00)
    (map (fun b => Z.shiftr b 1) (map (fun b => wrap 8 (Z.shiftl b 1)) callsign)) = callsign.
Proof.
  induction 1 as [|b l (Hb & H1 & H2) _ IH]; [done|]. cbn [map].
  rewrite shift_char by done. rewrite filter_cons_True by done. by rewrite IH.
Qed.

Lemma decode_padding n :
  filter (fun b => b <> 0x10 /\ b <> 0x00) (map (fun b => Z.shiftr b 1) (replicate n 0x20)) = [].
Proof. induction n as [|n IH]; [done|]. cbn [replicate map]. rewrite filter_cons_False; [done|]. by intros [[] _]. Qed.

(** AX.25 address fields round trip. For a callsign the configuration
    check accepts, without the two control characters that mark padding,
    decoding the encoded address field gives the callsign and the SSID back,
    for source and destination fields alike. *)
Theorem Ax25_address_roundtrip (callsign : bytes) (ssid : Z) (last : bool)
    (Hv : validate_callsign callsign ssid = Ok ())
    (Hb : all_u8 callsign) (Hs : is_u8 ssid)
    (Hc : Forall (fun b => b <> 0x10 /\ b <> 0) callsign) :
  decode_address (encode_address callsign ssid last) = (callsign, ssid).
Proof.
  unfold validate_callsign in Hv.
  destruct (Nat.ltb_spec (length callsign) 3), (Nat.ltb_spec 6 (length callsign)); try done.
  destruct (forallb _ _) eqn:Ha; [|done]. destruct (Z.ltb_spec 15 ssid); [done|].
  apply (proj1 (is_u8_bound ssid)) in Hs. unfold decode_address.
  assert (Forall (fun b => 0 <= b < 128 /\ b <> 0x10 /\ b <> 0) callsign) as Hchars.
  { rewrite forallb_forall in Ha. unfold all_u8 in Hb. rewrite Forall_forall in Hb, Hc.
    apply Forall_forall. intros b Hin. specialize (Ha b Hin). specialize (Hb b Hin). specialize (Hc b Hin).
    apply (proj1 (is_u8_bound b)) in Hb. zb. lia. }
  pose proof (length_map (fun b => wrap 8 (Z.shiftl b 1)) callsign) as Hlen.
  unfold encode_address. rewrite (take_ge callsign) by lia. rewrite Hlen. f_equal.
  - rewrite app_assoc, take_app_length'
      by (rewrite length_app, length_replicate, length_map; lia).
    rewrite map_app, list.filter_app, decode_chars, decode_padding by done. by rewrite app_nil_r.
  - rewrite app_assoc, app_nth2; rewrite length_app, length_replicate, length_map; [|lia].
    replace (6 - _)%nat with 0%nat by lia. cbn [nth]. apply (ssid_decode ssid last). lia.
Qed.

Lemma Ax25_address_roundtrip_witness :
  validate_callsign [0x4E; 0x30; 0x43; 0x41; 0x4C; 0x4C] 7 = Ok () /\
  decode_address (encode_address [0x4E; 0x30; 0x43; 0x41; 0x4C; 0x4C] 7 true)
    = ([0x4E; 0x30; 0x43; 0x41; 0x4C; 0x4C], 7).
Proof.
  split; [reflexivity|].
  apply Ax25_address_roundtrip; [reflexivity| | |]; repeat constructor; discriminate.
Defined.

(** an AX.25 KISS link delivers every non-empty payload that fits the
    hardware MTU: packing, framing, decoding with the interface's decoder
    limit and stripping the header gives the payload. *)
Theorem Ax25_over_kiss (data callsign : bytes) (ssid : Z) (d : KissDecoder.t) (hw_mtu : nat)
    (Hd : KissDecoder.receiving d = false)
    (Hm : KissDecoder.mtu d = (hw_mtu + AX25_HEADER_SIZE)%nat)
    (Hl : (1 <= length data <= hw_mtu)%nat) :
  exists frame, snd (KissDecoder.feed d (kiss_encode_frame (pack_ax25_frame data callsign ssid)))
      = [KissData frame] /\ strip_ax25_header frame = Some data.
Proof.
  exists (pack_ax25_frame data callsign ssid). unfold KissDecoder.feed.
  rewrite kiss_deliver; [|done|unfold AX25_HEADER_SIZE in *; lia].
  split.
  - cbn [snd]. rewrite take_ge; [done|]. unfold pack_ax25_frame, pack_ax25_frame_to.
    rewrite !length_app, !length_encode_address, Hm. unfold AX25_HEADER_SIZE. cbn [length]. lia.
  - unfold pack_ax25_frame. rewrite strip_pack. destruct data; [simpl in Hl; lia|done].
Qed.

Lemma Ax25_over_kiss_witness :
  KissDecoder.mtu (KissDecoder.new 580) = (564 + AX25_HEADER_SIZE)%nat /\
  exists frame, snd (KissDecoder.feed (KissDecoder.new 580)
      (kiss_encode_frame (pack_ax25_frame [0xC0; 1] [0x41; 0x42; 0x43] 3))) = [KissData frame] /\
    strip_ax25_header frame = Some [0xC0; 1].
Proof.
  split; [reflexivity|].
  apply (Ax25_over_kiss [0xC0; 1] [0x41; 0x42; 0x43] 3 (KissDecoder.new 580) 564);
    [reflexivity|reflexivity|simpl; lia].
Defined.

(** ** Beacon *)

Lemma forallb_replicate {A} (P : A -> bool) n x : P x = true -> forallb P (replicate n x) = true.
Proof. intros Hx. induction n as [|n IH]; [done|]. simpl. by rewrite Hx. Qed.

Lemma padded_id_recognised b :
  (length (IdBeacon.callsign b) < 15)%nat ->
  IdBeacon.is_padded_id b (IdBeacon.callsign b ++ replicate (15 - length (IdBeacon.callsign b)) 0) = true.
Proof.
  intros Hl. unfold IdBeacon.is_padded_id.
  destruct (Nat.ltb_spec (length (IdBeacon.callsign b)) 15); [|lia].
  rewrite length_app, length_replicate. rewrite take_app_length, drop_app_length.
  rewrite bool_decide_eq_true_2 by done. rewrite forallb_replicate by done.
  rewrite !andb_true_r. simpl. apply Nat.eqb_eq. lia.
Qed.

(** the identification beacon is rate limited. Once the frame that
    [take_if_due] returned has been written and noted, no further frame is due
    before the configured interval has passed; the frame starts with the
    callsign and has at least 15 bytes. *)
Theorem IdBeacon_window (b : IdBeacon.t) (now sent later : Z) (frame : bytes)
    (Hdue : IdBeacon.take_if_due b now = Some frame)
    (Hlater : later <= sent + IdBeacon.interval b) :
  (15 <= length frame)%nat /\
  take (length (IdBeacon.callsign b)) frame = IdBeacon.callsign b /\
  IdBeacon.take_if_due (IdBeacon.note_sent b frame sent) later = None.
Proof.
  unfold IdBeacon.take_if_due in Hdue. destruct (IdBeacon.first_tx b) as [st|] eqn:Hf; [|done].
  simpl in Hdue. destruct (_ <? now); [|done].
  destruct (Nat.ltb_spec (length (IdBeacon.callsign b)) 15) as [Hl|Hl]; injection Hdue as <-.
  - split; [rewrite length_app, length_replicate; lia|]. split; [by rewrite take_app_length|].
    unfold IdBeacon.note_sent. rewrite padded_id_recognised by done.
    destruct (decide _); [done|]. unfold IdBeacon.take_if_due. simpl.
    by destruct (Z.ltb_spec (sent + IdBeacon.interval b) later); [lia|].
  - split; [done|]. split; [by apply take_ge|].
    unfold IdBeacon.note_sent. by rewrite decide_True.
Qed.

Lemma IdBeacon_window_witness :
  let b := IdBeacon.note_sent (IdBeacon.new 10 [0x41; 0x42]) [1; 2; 3] 0 in
  let frame := [0x41; 0x42; 0; 0; 0; 0; 0; 0; 0; 0; 0; 0; 0; 0; 0] in
  IdBeacon.take_if_due b 10000000001 = Some frame /\
  IdBeacon.take_if_due (IdBeacon.note_sent b frame 10000000005) 20000000005 = None.
Proof.
  split; [reflexivity|].
  refine (proj2 (proj2 (IdBeacon_window
    (IdBeacon.note_sent (IdBeacon.new 10 [0x41; 0x42]) [1; 2; 3] 0) 10000000001 10000000005
    20000000005 [0x41; 0x42; 0; 0; 0; 0; 0; 0; 0; 0; 0; 0; 0; 0; 0] _ _))).
  - reflexivity.
  - vm_compute. discriminate.
Defined.

(** After a READY command the decoder takes the next byte of the same frame as
    a new command byte; the rest of the frame is not ignored. *)
Lemma kiss_ready_rest_parsed :
  snd (KissDecoder.feed (KissDecoder.new 564) [FEND; CMD_READY; 1; CMD_DATA; 7; FEND]) =
    [KissReady; KissData [7]].
Proof. reflexivity. Qed.
