(* ===== verification/Counters.v ===== *)
(** * Interface counters ([InterfaceCounters] of [src/src/iface.rs])

    Atomics shared between the interface manager and the interface workers; the
    64-bit ones wrap.  Readings of the radio are bit patterns with a pattern of
    its own for a reading that was never reported: an [f32] is its 32 bits. *)

From S2P Require Import Prelude.

Definition U32_MAX : Z := 2 ^ 32 - 1.
Definition I32_MIN : Z := - 2 ^ 31.

Record Radio := mkRadio {
  rssi_value : Z;
  snr_bits : Z;
  quality_bits : Z;
  airtime_short_bits : Z;
  airtime_long_bits : Z;
  channel_load_short_bits : Z;
  channel_load_long_bits : Z;
}.

Record InterfaceCounters := mkCounters {
  c_sent : Z;
  c_received : Z;
  c_tx_bytes : Z;
  c_rx_bytes : Z;
  c_online : bool;
  announces_received : Z;
  announces_sent : Z;
  announce_bytes_received : Z;
  announce_bytes_sent : Z;
  path_requests_received : Z;
  path_requests_sent : Z;
  protocol_violations : Z;
  ifac_violations : Z;
  packet_filter_hits : Z;
  radio : Radio;
}.

Definition Counters_default : InterfaceCounters :=
  mkCounters 0 0 0 0 false 0 0 0 0 0 0 0 0 0 (mkRadio I32_MIN U32_MAX U32_MAX U32_MAX U32_MAX U32_MAX U32_MAX).

(** [fetch_add] on an [AtomicU64] *)
Definition fetch_add (a b : Z) : Z := wrap 64 (a + b).

Definition count_tx (n : Z) (c : InterfaceCounters) : InterfaceCounters :=
  mkCounters (fetch_add (c_sent c) 1) (c_received c) (fetch_add (c_tx_bytes c) n) (c_rx_bytes c) (c_online c) (announces_received c)
    (announces_sent c) (announce_bytes_received c) (announce_bytes_sent c) (path_requests_received c) (path_requests_sent c)
    (protocol_violations c) (ifac_violations c) (packet_filter_hits c) (radio c).
Definition count_rx (n : Z) (c : InterfaceCounters) : InterfaceCounters :=
  mkCounters (c_sent c) (fetch_add (c_received c) 1) (c_tx_bytes c) (fetch_add (c_rx_bytes c) n) (c_online c) (announces_received c)
    (announces_sent c) (announce_bytes_received c) (announce_bytes_sent c) (path_requests_received c) (path_requests_sent c)
    (protocol_violations c) (ifac_violations c) (packet_filter_hits c) (radio c).
Definition set_online (online : bool) (c : InterfaceCounters) : InterfaceCounters :=
  mkCounters (c_sent c) (c_received c) (c_tx_bytes c) (c_rx_bytes c) online (announces_received c)
    (announces_sent c) (announce_bytes_received c) (announce_bytes_sent c) (path_requests_received c) (path_requests_sent c)
    (protocol_violations c) (ifac_violations c) (packet_filter_hits c) (radio c).
Definition count_announce_rx (n : Z) (c : InterfaceCounters) : InterfaceCounters :=
  mkCounters (c_sent c) (c_received c) (c_tx_bytes c) (c_rx_bytes c) (c_online c) (fetch_add (announces_received c) 1)
    (announces_sent c) (fetch_add (announce_bytes_received c) n) (announce_bytes_sent c) (path_requests_received c) (path_requests_sent c)
    (protocol_violations c) (ifac_violations c) (packet_filter_hits c) (radio c).
Definition count_announce_tx (n : Z) (c : InterfaceCounters) : InterfaceCounters :=
  mkCounters (c_sent c) (c_received c) (c_tx_bytes c) (c_rx_bytes c) (c_online c) (announces_received c)
    (fetch_add (announces_sent c) 1) (announce_bytes_received c) (fetch_add (announce_bytes_sent c) n) (path_requests_received c)
    (path_requests_sent c) (protocol_violations c) (ifac_violations c) (packet_filter_hits c) (radio c).
Definition count_path_request_rx (c : InterfaceCounters) : InterfaceCounters :=
  mkCounters (c_sent c) (c_received c) (c_tx_bytes c) (c_rx_bytes c) (c_online c) (announces_received c)
    (announces_sent c) (announce_bytes_received c) (announce_bytes_sent c) (fetch_add (path_requests_received c) 1) (path_requests_sent c)
    (protocol_violations c) (ifac_violations c) (packet_filter_hits c) (radio c).
Definition count_path_request_tx (c : InterfaceCounters) : InterfaceCounters :=
  mkCounters (c_sent c) (c_received c) (c_tx_bytes c) (c_rx_bytes c) (c_online c) (announces_received c)
    (announces_sent c) (announce_bytes_received c) (announce_bytes_sent c) (path_requests_received c) (fetch_add (path_requests_sent c) 1)
    (protocol_violations c) (ifac_violations c) (packet_filter_hits c) (radio c).
Definition count_protocol_violation (c : InterfaceCounters) : InterfaceCounters :=
  mkCounters (c_sent c) (c_received c) (c_tx_bytes c) (c_rx_bytes c) (c_online c) (announces_received c)
    (announces_sent c) (announce_bytes_received c) (announce_bytes_sent c) (path_requests_received c) (path_requests_sent c)
    (fetch_add (protocol_violations c) 1) (ifac_violations c) (packet_filter_hits c) (radio c).
Definition count_ifac_violation (c : InterfaceCounters) : InterfaceCounters :=
  mkCounters (c_sent c) (c_received c) (c_tx_bytes c) (c_rx_bytes c) (c_online c) (announces_received c)
    (announces_sent c) (announce_bytes_received c) (announce_bytes_sent c) (path_requests_received c) (path_requests_sent c)
    (protocol_violations c) (fetch_add (ifac_violations c) 1) (packet_filter_hits c) (radio c).
Definition count_packet_filter_hit (c : InterfaceCounters) : InterfaceCounters :=
  mkCounters (c_sent c) (c_received c) (c_tx_bytes c) (c_rx_bytes c) (c_online c) (announces_received c)
    (announces_sent c) (announce_bytes_received c) (announce_bytes_sent c) (path_requests_received c) (path_requests_sent c)
    (protocol_violations c) (ifac_violations c) (fetch_add (packet_filter_hits c) 1) (radio c).
Definition set_radio (r : Radio) (c : InterfaceCounters) : InterfaceCounters :=
  mkCounters (c_sent c) (c_received c) (c_tx_bytes c) (c_rx_bytes c) (c_online c) (announces_received c)
    (announces_sent c) (announce_bytes_received c) (announce_bytes_sent c) (path_requests_received c) (path_requests_sent c)
    (protocol_violations c) (ifac_violations c) (packet_filter_hits c) r.

Definition store_opt (slot : Z) (value : option Z) : Z := default slot value.
Definition optional_f32 (bits : Z) : option Z := if bits =? U32_MAX then None else Some bits.

Definition set_radio_quality (rssi snr quality : option Z) (c : InterfaceCounters) : InterfaceCounters :=
  let r := radio c in
  set_radio (mkRadio (store_opt (rssi_value r) rssi) (store_opt (snr_bits r) snr) (store_opt (quality_bits r) quality)
    (airtime_short_bits r) (airtime_long_bits r) (channel_load_short_bits r) (channel_load_long_bits r)) c.

Definition set_radio_channel (airtime_short airtime_long load_short load_long : option Z) (c : InterfaceCounters) : InterfaceCounters :=
  let r := radio c in
  set_radio (mkRadio (rssi_value r) (snr_bits r) (quality_bits r) (store_opt (airtime_short_bits r) airtime_short)
    (store_opt (airtime_long_bits r) airtime_long) (store_opt (channel_load_short_bits r) load_short)
    (store_opt (channel_load_long_bits r) load_long)) c.

(** [value as i16] *)
Definition as_i16 (v : Z) : Z := let w := v mod 2 ^ 16 in if w <? 2 ^ 15 then w else w - 2 ^ 16.

Definition rssi (c : InterfaceCounters) : option Z := let v := rssi_value (radio c) in if v =? I32_MIN then None else Some (as_i16 v).
Definition snr (c : InterfaceCounters) : option Z := optional_f32 (snr_bits (radio c)).
Definition quality (c : InterfaceCounters) : option Z := optional_f32 (quality_bits (radio c)).

(** Short and long airtime, short and long channel load. *)
Definition radio_telemetry (c : InterfaceCounters) : option Z * option Z * option Z * option Z :=
  let r := radio c in
  (optional_f32 (airtime_short_bits r), optional_f32 (airtime_long_bits r), optional_f32 (channel_load_short_bits r),
   optional_f32 (channel_load_long_bits r)).
