(* ===== verification/Ifac.v ===== *)
(** * Interface access codes ([src/src/iface/ifac.rs])

    An interface with a network name or passphrase wraps every packet with a
    truncated signature and masks the rest.  HKDF and signing are the class
    parameters of [Crypto.v]; [Hkdf::expand] refuses more than 255 blocks of 32
    bytes, and the code's [expect] turns that into a panic.

    Panics are [None]; the Rust [Option] of [strip] is the inner one. *)

From S2P Require Import Prelude Crypto Hash Counters.

Definition IFAC_SALT : bytes :=
  [0xad; 0xf5; 0x4d; 0x88; 0x2c; 0x9a; 0x9b; 0x80; 0x77; 0x1e; 0xb4; 0x99; 0x5d; 0x70; 0x2d; 0x4a;
   0x3e; 0x73; 0x33; 0x91; 0xb2; 0xa0; 0xf5; 0x3f; 0x41; 0x6d; 0x9f; 0x90; 0x7e; 0x55; 0xcf; 0xf8].
Definition IFAC_MIN_SIZE : nat := 1.
Definition IFAC_MAX_SIZE : nat := 64.

(** A signing key is its seed. *)
Record IfacKey := mkIfacKey {
  key : bytes;
  sign_key : bytes;
  size : nat;
}.

Section Ifac.
Context `{Sha256} `{Hkdf} `{Signing}.

Definition hkdf (derive_from salt : bytes) (length : nat) : option bytes :=
  hkdf_expand salt derive_from length.

Definition IfacKey_derive (netname netkey : option bytes) (sz : nat) : option (result IfacKey) :=
  if (IFAC_MAX_SIZE <? sz)%nat then Some (Err InvalidArgument) else
  let origin := from_option Hash_new_from_slice [] netname
                ++ from_option Hash_new_from_slice [] netkey in
  let origin_hash := Hash_new_from_slice origin in
  key_bytes ← hkdf origin_hash IFAC_SALT 64;
  Some (Ok (mkIfacKey key_bytes (drop 32 key_bytes) (sz `max` IFAC_MIN_SIZE))).

(** The slice start [64 - size] underflows, and the slice panics, when
    [size > 64]. *)
Definition ifac_for (k : IfacKey) (raw : bytes) : option bytes :=
  if (64 <? size k)%nat then None else Some (drop (64 - size k) (sign (sign_key k) raw)).

(** The masking loop of [apply]: byte [i] of the assembled frame. *)
Definition mask_byte (sz : nat) (mask : bytes) (i : nat) (byte : Z) : Z :=
  if (i =? 0)%nat then Z.lor (Z.lxor byte (nth i mask 0)) 0x80
  else if (i =? 1)%nat || (sz + 1 <? i)%nat then Z.lxor byte (nth i mask 0)
  else byte.

Definition IfacKey_apply (k : IfacKey) (raw : bytes) : option bytes :=
  ifac ← ifac_for k raw;
  mask ← hkdf ifac (key k) (length raw + size k);
  match raw with
  | b0 :: b1 :: rest =>
      let new_raw := Z.lor b0 0x80 :: b1 :: ifac ++ rest in
      Some (imap (mask_byte (size k) mask) new_raw)
  | _ => None
  end.

(** The unmasking loop of [strip]. *)
Definition unmask_byte (sz : nat) (mask : bytes) (i : nat) (byte : Z) : Z :=
  if (i <=? 1)%nat || (sz + 1 <? i)%nat then Z.lxor byte (nth i mask 0) else byte.

Definition IfacKey_strip (k : IfacKey) (raw : bytes) : option (option bytes) :=
  match raw with
  | [] => Some None
  | first :: _ =>
      if Z.land first 0x80 =? 0 then Some None
      else if (length raw <=? 2 + size k)%nat then Some None
      else
        let ifac := slice 2 (2 + size k) raw in
        mask ← hkdf ifac (key k) (length raw);
        let unmasked := imap (unmask_byte (size k) mask) raw in
        let new_raw := Z.land (nth 0 unmasked 0) 0x7f :: nth 1 unmasked 0
                       :: drop (2 + size k) unmasked in
        expected ← ifac_for k new_raw;
        Some (if decide (expected = ifac) then Some new_raw else None)
  end.

Definition Ifac_encode (raw : bytes) (ifac : option IfacKey) : option bytes :=
  match ifac with
  | Some ifac => IfacKey_apply ifac raw
  | None => Some raw
  end.

(** [decode_inbound] with its counters, absent for [decode]. *)
Definition decode_inbound (raw : bytes) (ifac : option IfacKey) (stats : option InterfaceCounters)
    : option (option bytes * option InterfaceCounters) :=
  if (length raw <=? 2)%nat && bool_decide (is_Some stats) then
    Some (None, count_protocol_violation <$> stats)
  else
    match ifac with
    | Some ifac =>
        plain ← IfacKey_strip ifac raw;
        Some (match plain with
              | Some plain => (Some plain, stats)
              | None => (None, count_ifac_violation <$> stats)
              end)
    | None =>
        if bool_decide (is_Some stats) && (Z.land (nth 0 raw 0) 0x80 =? 0x80)
        then Some (None, count_ifac_violation <$> stats)
        else Some (Some raw, stats)
    end.

Definition Ifac_decode (raw : bytes) (ifac : option IfacKey) : option (option bytes) :=
  r ← decode_inbound raw ifac None; Some r.1.

(** Keys [derive] makes. *)
Definition IfacKey_wf (k : IfacKey) : Prop := (1 <= size k <= 64)%nat.

(** What the two loops do to the payload and to the flag byte. *)
Definition xor_mask (sz : nat) (mask rest : bytes) : bytes :=
  imap (fun i byte => Z.lxor byte (nth (2 + sz + i) mask 0)) rest.

Definition flag_masked (b m : Z) : Z := Z.lor (Z.lxor (Z.lor b 0x80) m) 0x80.
Definition flag_unmasked (w m : Z) : Z := Z.land (Z.lxor w m) 0x7f.

(** ** Masking lemmas *)

Lemma imap_ext_lt {A B} (f g : nat -> A -> B) l :
  (forall i x, (i < length l)%nat -> f i x = g i x) -> imap f l = imap g l.
Proof.
  intros Hfg. apply imap_ext. intros i x Hi. apply Hfg. by eapply lookup_lt_Some.
Qed.

Lemma imap_id_ext {A} (f : nat -> A -> A) l :
  (forall i x, (i < length l)%nat -> f i x = x) -> imap f l = l.
Proof.
  intros Hf. rewrite <- (list_fmap_id l) at 2. rewrite <- (imap_const (A := A) id l).
  by apply imap_ext_lt.
Qed.

Lemma imap_mask (f : nat -> Z -> Z) x y ifac rest :
  (forall i b, (i < length ifac)%nat -> f (2 + i)%nat b = b) ->
  imap f (x :: y :: ifac ++ rest) =
    f 0%nat x :: f 1%nat y :: ifac ++ imap (fun i b => f (2 + length ifac + i)%nat b) rest.
Proof.
  intros Hf. rewrite !imap_cons, imap_app. do 3 f_equal. by apply imap_id_ext.
Qed.

Lemma mask_frame sz mask x y ifac rest :
  length ifac = sz ->
  imap (mask_byte sz mask) (x :: y :: ifac ++ rest) =
    Z.lor (Z.lxor x (nth 0 mask 0)) 0x80 :: Z.lxor y (nth 1 mask 0) :: ifac ++ xor_mask sz mask rest.
Proof.
  intros <-. rewrite imap_mask.
  - unfold mask_byte at 1 2. cbn [Nat.eqb orb]. do 3 f_equal. unfold xor_mask.
    apply imap_ext_lt. intros i b _. unfold mask_byte.
    destruct (Nat.eqb_spec (2 + length ifac + i) 0), (Nat.eqb_spec (2 + length ifac + i) 1); try lia.
    by destruct (Nat.ltb_spec (length ifac + 1) (2 + length ifac + i)); [|lia].
  - intros i b Hi. unfold mask_byte.
    destruct (Nat.eqb_spec (2 + i) 0), (Nat.eqb_spec (2 + i) 1); try lia.
    by destruct (Nat.ltb_spec (length ifac + 1) (2 + i)); [lia|].
Qed.

Lemma unmask_frame sz mask x y ifac rest :
  length ifac = sz ->
  imap (unmask_byte sz mask) (x :: y :: ifac ++ rest) =
    Z.lxor x (nth 0 mask 0) :: Z.lxor y (nth 1 mask 0) :: ifac ++ xor_mask sz mask rest.
Proof.
  intros <-. rewrite imap_mask.
  - unfold unmask_byte at 1 2. cbn [Nat.leb orb]. do 3 f_equal. unfold xor_mask.
    apply imap_ext_lt. intros i b _. unfold unmask_byte.
    destruct (Nat.leb_spec (2 + length ifac + i) 1); [lia|].
    by destruct (Nat.ltb_spec (length ifac + 1) (2 + length ifac + i)); [|lia].
  - intros i b Hi. unfold unmask_byte. destruct (Nat.leb_spec (2 + i) 1); [lia|].
    by destruct (Nat.ltb_spec (length ifac + 1) (2 + i)); [lia|].
Qed.

Lemma lxor_twice a b : Z.lxor (Z.lxor a b) b = a.
Proof. by rewrite Z.lxor_assoc, Z.lxor_nilpotent, Z.lxor_0_r. Qed.

Lemma xor_mask_twice sz mask rest : xor_mask sz mask (xor_mask sz mask rest) = rest.
Proof.
  apply list_eq. intros i. unfold xor_mask. rewrite !list_lookup_imap.
  destruct (rest !! i); simpl; [|done]. by rewrite lxor_twice.
Qed.

Lemma xor_mask_length sz mask rest : length (xor_mask sz mask rest) = length rest.
Proof. apply length_imap. Qed.

Lemma nth_u8 i l : all_u8 l -> is_u8 (nth i l 0).
Proof.
  intros Hl. destruct (Nat.ltb_spec i (length l)) as [Hi|Hi].
  - unfold all_u8 in Hl. rewrite Forall_forall in Hl. by apply Hl, nth_In.
  - rewrite nth_overflow by done. by apply is_u8_bound.
Qed.

Lemma xor_mask_u8 sz mask rest : all_u8 mask -> all_u8 rest -> all_u8 (xor_mask sz mask rest).
Proof.
  intros Hm Hr. unfold xor_mask, all_u8 in Hr |- *. rewrite Forall_lookup in Hr |- *.
  intros i x Hi.
  rewrite list_lookup_imap in Hi. destruct (rest !! i) as [y|] eqn:E; [|done].
  injection Hi as <-. apply is_u8_lxor; [by eapply Hr|by apply nth_u8].
Qed.

(** The flag byte, by evaluation over all pairs of bytes. *)
Lemma flag_byte b m : is_u8 b -> is_u8 m ->
  is_u8 (flag_masked b m) /\ is_u8 (flag_unmasked b m) /\ flag_unmasked b m < 128 /\
  Z.land (flag_masked b m) 0x80 <> 0 /\
  (b < 128 -> flag_unmasked (flag_masked b m) m = b) /\
  (Z.land b 0x80 <> 0 -> flag_masked (flag_unmasked b m) m = b).
Proof.
  intros Hb Hm. set (P b m :=
    (0 <=? flag_masked b m) && (flag_masked b m <? 256) && (0 <=? flag_unmasked b m)
    && (flag_unmasked b m <? 128) && negb (Z.land (flag_masked b m) 0x80 =? 0)
    && ((128 <=? b) || (flag_unmasked (flag_masked b m) m =? b))
    && ((Z.land b 0x80 =? 0) || (flag_masked (flag_unmasked b m) m =? b))).
  assert (P b m = true) as HP.
  { assert (forallb (fun b => forallb (P b) (seqZ 0 256)) (seqZ 0 256) = true) as HH
      by (vm_compute; reflexivity).
    apply (u8_forall _ (u8_forall _ HH b Hb) m Hm). }
  unfold P in HP. rewrite !andb_true_iff, !orb_true_iff, negb_true_iff in HP.
  rewrite !is_u8_bound. zb. destruct HP as ((((((?&?)&?)&?)&?)&[?|?])&[?|?]); zb; repeat split; lia.
Qed.

Lemma ifac_for_spec k raw : IfacKey_wf k ->
  exists ifac, ifac_for k raw = Some ifac /\ length ifac = size k /\ all_u8 ifac.
Proof.
  intros Hk. unfold IfacKey_wf, ifac_for in *. destruct (Nat.ltb_spec 64 (size k)); [lia|].
  eexists. split; [done|]. rewrite length_drop, sign_length. split; [lia|].
  apply all_u8_drop, sign_u8.
Qed.

Lemma apply_shape k b0 b1 rest : IfacKey_wf k ->
  IfacKey_apply k (b0 :: b1 :: rest) =
    (ifac ← ifac_for k (b0 :: b1 :: rest);
     mask ← hkdf ifac (key k) (2 + length rest + size k);
     Some (flag_masked b0 (nth 0 mask 0) :: Z.lxor b1 (nth 1 mask 0)
           :: ifac ++ xor_mask (size k) mask rest)).
Proof.
  intros Hk. destruct (ifac_for_spec k (b0 :: b1 :: rest) Hk) as (ifac & E & Hl & _).
  unfold IfacKey_apply. rewrite E. cbn [mbind option_bind length Nat.add].
  destruct (hkdf _ _ _) as [mask|]; [|done]. cbn [mbind option_bind]. by rewrite mask_frame.
Qed.

Lemma strip_shape k x y ifac rest :
  length ifac = size k -> rest <> [] ->
  IfacKey_strip k (x :: y :: ifac ++ rest) =
    if Z.land x 0x80 =? 0 then Some None
    else
      mask ← hkdf ifac (key k) (2 + length rest + size k);
      let plain := flag_unmasked x (nth 0 mask 0) :: Z.lxor y (nth 1 mask 0)
                   :: xor_mask (size k) mask rest in
      expected ← ifac_for k plain;
      Some (if decide (expected = ifac) then Some plain else None).
Proof.
  intros Hl Hr. unfold IfacKey_strip. destruct (Z.land x 0x80 =? 0); [done|].
  assert (length (x :: y :: ifac ++ rest) = 2 + length rest + size k)%nat as Hlen.
  { simpl. rewrite length_app. lia. }
  assert (slice 2 (2 + size k) (x :: y :: ifac ++ rest) = ifac) as Hs.
  { unfold slice. replace (2 + size k - 2)%nat with (length ifac) by lia. simpl. apply take_app_length. }
  rewrite Hs, Hlen.
  destruct (Nat.leb_spec (2 + length rest + size k) (2 + size k)); [destruct rest; [done|simpl in *; lia]|].
  destruct (hkdf _ _ _) as [mask|]; [|done]. cbn [mbind option_bind].
  rewrite unmask_frame by done. cbn [nth].
  replace (drop (2 + size k) _) with (xor_mask (size k) mask rest); [done|].
  simpl. by rewrite drop_app_length'.
Qed.

(** A received frame longer than its access code, cut into its parts. *)
Lemma frame_split k (raw : bytes) : (2 + size k < length raw)%nat ->
  exists x y ifac rest, raw = x :: y :: ifac ++ rest /\ length ifac = size k /\ rest <> [].
Proof.
  intros Hl. destruct raw as [|x [|y l]]; simpl in Hl; [lia..|].
  exists x, y, (take (size k) l), (drop (size k) l). rewrite take_drop, length_take.
  repeat split; [lia|]. intros Hn. apply (f_equal length) in Hn. rewrite length_drop in Hn.
  simpl in Hn. lia.
Qed.

Lemma strip_Some_inv k w p :
  IfacKey_strip k w = Some (Some p) -> (2 + size k < length w)%nat /\ Z.land (nth 0 w 0) 0x80 <> 0.
Proof.
  destruct w as [|x w']; [done|]. unfold IfacKey_strip. cbn [nth].
  destruct (Z.eqb_spec (Z.land x 0x80) 0); [done|].
  destruct (Nat.leb_spec (length (x :: w')) (2 + size k)); [done|]. done.
Qed.

Lemma hkdf_Some ikm salt n mask : hkdf ikm salt n = Some mask -> length mask = n /\ all_u8 mask.
Proof.
  intros E. unfold hkdf in E. destruct (Nat.leb_spec n HKDF_MAX_OUTPUT) as [Hn|Hn].
  - destruct (hkdf_expand_ok salt ikm n Hn) as (okm & E' & ? & ?). rewrite E in E'. by simplify_eq.
  - by rewrite hkdf_expand_long in E.
Qed.

Lemma strip_apply k p w :
  IfacKey_wf k -> all_u8 p -> (3 <= length p)%nat -> nth 0 p 0 < 128 ->
  IfacKey_apply k p = Some w -> IfacKey_strip k w = Some (Some p).
Proof.
  intros Hk Hp Hl Hf Ha. destruct p as [|b0 [|b1 rest]]; simpl in Hl, Hf; [lia..|].
  rewrite apply_shape in Ha by done.
  destruct (ifac_for_spec k (b0 :: b1 :: rest) Hk) as (ifac & E & Hil & _). rewrite E in Ha.
  cbn [mbind option_bind] in Ha. destruct (hkdf _ _ _) as [mask|] eqn:Em; [|done].
  injection Ha as <-. destruct (hkdf_Some _ _ _ _ Em) as [_ Hm].
  apply all_u8_cons in Hp as [Hb0 _].
  destruct (flag_byte b0 (nth 0 mask 0) Hb0 (nth_u8 0 mask Hm)) as (_ & _ & _ & Hset & Hrt & _).
  rewrite strip_shape; [|done|].
  - rewrite xor_mask_length. destruct (Z.eqb_spec (Z.land (flag_masked b0 (nth 0 mask 0)) 0x80) 0); [done|].
    rewrite Em. cbn [mbind option_bind]. rewrite Hrt, lxor_twice, xor_mask_twice, E by done.
    cbn [mbind option_bind]. by rewrite decide_True.
  - intros Hn. apply (f_equal length) in Hn. rewrite xor_mask_length in Hn. simpl in Hn. lia.
Qed.

Lemma apply_strip k p w :
  IfacKey_wf k -> all_u8 w -> IfacKey_strip k w = Some (Some p) ->
  IfacKey_apply k p = Some w /\ (3 <= length p)%nat /\ all_u8 p /\ nth 0 p 0 < 128.
Proof.
  intros Hk Hw Hs. destruct (strip_Some_inv _ _ _ Hs) as [Hl Hf].
  destruct (frame_split k w Hl) as (x & y & ifac & rest & -> & Hil & Hr). cbn [nth] in Hf.
  rewrite strip_shape in Hs by done. destruct (Z.eqb_spec (Z.land x 0x80) 0); [done|].
  destruct (hkdf _ _ _) as [mask|] eqn:Em; [|done]. cbn [mbind option_bind] in Hs.
  destruct (hkdf_Some _ _ _ _ Em) as [_ Hm].
  rewrite !all_u8_cons, all_u8_app in Hw. destruct Hw as (Hx & Hy & _ & Hrest).
  destruct (flag_byte x (nth 0 mask 0) Hx (nth_u8 0 mask Hm)) as (_ & Hu & Hlt & _ & _ & Hrt).
  set (plain := flag_unmasked x (nth 0 mask 0) :: _) in Hs.
  destruct (ifac_for k plain) as [e|] eqn:E; [|done]. cbn [mbind option_bind] in Hs.
  destruct (decide (e = ifac)) as [->|]; [|done]. injection Hs as <-. split.
  - unfold plain in E |- *. rewrite apply_shape, E by done. cbn [mbind option_bind].
    rewrite xor_mask_length, Em. cbn [mbind option_bind].
    by rewrite Hrt, lxor_twice, xor_mask_twice.
  - unfold plain. cbn [length nth]. rewrite xor_mask_length. split; [destruct rest; [done|simpl; lia]|].
    split; [|done]. rewrite !all_u8_cons. split; [done|]. split; [|by apply xor_mask_u8].
    apply is_u8_lxor; [done|by apply nth_u8].
Qed.

(** C22: access-code validation is exact. [strip] accepts a frame, and returns
    [p], precisely when the frame is what [apply] makes of [p] with the same
    key (and [p] is a packet: at least three bytes, access-code flag clear).
    Both directions: every wrapped packet is accepted and comes back whole, and
    nothing else is accepted. *)
Theorem Ifac_strip_exact (k : IfacKey) (w p : bytes) (Hk : IfacKey_wf k) (Hw : all_u8 w) :
  IfacKey_strip k w = Some (Some p) <->
    IfacKey_apply k p = Some w /\ (3 <= length p)%nat /\ all_u8 p /\ nth 0 p 0 < 128.
Proof.
  split; [by apply apply_strip|]. intros (Ha & Hl & Hp & Hf). by apply (strip_apply k p w).
Qed.

Lemma apply_succeeds k p :
  IfacKey_wf k -> (2 <= length p)%nat -> (length p + size k <= HKDF_MAX_OUTPUT)%nat ->
  exists w, IfacKey_apply k p = Some w /\ (2 + size k <= length w)%nat.
Proof.
  intros Hk Hl Hmax. destruct p as [|b0 [|b1 rest]]; simpl in Hl; [lia..|].
  rewrite apply_shape by done.
  destruct (ifac_for_spec k (b0 :: b1 :: rest) Hk) as (ifac & -> & Hil & _). cbn [mbind option_bind].
  destruct (hkdf_expand_ok (key k) ifac (2 + length rest + size k)) as (mask & E & _ & _);
    [exact Hmax|].
  unfold hkdf. rewrite E. eexists. split; [done|]. cbn [length]. rewrite length_app. lia.
Qed.

Lemma apply_flag k p w :
  IfacKey_wf k -> all_u8 p -> IfacKey_apply k p = Some w -> Z.land (nth 0 w 0) 0x80 = 0x80.
Proof.
  intros Hk Hp Ha. destruct p as [|b0 [|b1 rest]];
    [by unfold IfacKey_apply in Ha; destruct (ifac_for _ _); [cbn in Ha; destruct (hkdf _ _ _)|]..|].
  rewrite apply_shape in Ha by done. destruct (ifac_for _ _) as [ifac|]; [|done].
  cbn [mbind option_bind] in Ha. destruct (hkdf _ _ _); [|done]. injection Ha as <-. cbn [nth].
  unfold flag_masked. apply Z.bits_inj'. intros n _. rewrite Z.land_spec, Z.lor_spec.
  by destruct (Z.testbit 0x80 n); rewrite ?orb_true_r, ?andb_false_r.
Qed.

(** C23: the access code separates networks. A packet that leaves an interface
    with a key is received whole by an interface with the same key and leaves
    the violation counters alone; an interface without a key drops it, and an
    interface with a key drops the unwrapped packet, each counting one
    violation; two open interfaces pass it unchanged. *)
Theorem Ifac_separation (k : IfacKey) (p : bytes) (stats : InterfaceCounters)
    (Hk : IfacKey_wf k) (Hp : all_u8 p) (Hl : (3 <= length p)%nat)
    (Hmax : (length p + size k <= HKDF_MAX_OUTPUT)%nat) (Hf : nth 0 p 0 < 128) :
  (exists w, Ifac_encode p (Some k) = Some w /\
     decode_inbound w (Some k) (Some stats) = Some (Some p, Some stats) /\
     decode_inbound w None (Some stats) = Some (None, Some (count_ifac_violation stats))) /\
  decode_inbound p (Some k) (Some stats) = Some (None, Some (count_ifac_violation stats)) /\
  Ifac_encode p None = Some p /\
  decode_inbound p None (Some stats) = Some (Some p, Some stats).
Proof.
  assert (Z.land (nth 0 p 0) 0x80 = 0) as Hclear.
  { apply Z.bits_inj'. intros n Hn. rewrite Z.land_spec, Z.bits_0.
    pose proof (proj1 (is_u8_bound _) (nth_u8 0 p Hp)). change 0x80 with (2 ^ 7).
    rewrite Z.pow2_bits_eqb by lia. destruct (Z.eqb_spec 7 n) as [<-|]; [|by rewrite andb_false_r].
    rewrite (Z.bits_above_log2 (nth 0 p 0) 7); [done|lia|].
    destruct (Z.eq_dec (nth 0 p 0) 0) as [->|]; [done|]. apply Z.log2_lt_pow2; lia. }
  unfold decode_inbound. destruct (Nat.leb_spec (length p) 2); [lia|]. cbn [andb].
  rewrite Hclear. split; [|split; [|done]].
  - destruct (apply_succeeds k p) as (w & Ha & Hlw); [done|lia|done|]. exists w. split; [exact Ha|].
    unfold IfacKey_wf in Hk. destruct (Nat.leb_spec (length w) 2); [lia|]. cbn [andb].
    rewrite (strip_apply k p w), (apply_flag k p w) by done. done.
  - destruct p as [|b0 p']; [simpl in Hl; lia|]. unfold IfacKey_strip. cbn [nth] in Hclear.
    by rewrite Hclear.
Qed.

(** a frame longer than the largest HKDF output, with the access-code flag
    set, makes the receiver of an interface with a key panic: no key is needed
    to send it. *)
Theorem Ifac_long_frame_panics (k : IfacKey) (w : bytes) (stats : option InterfaceCounters)
    (Hk : IfacKey_wf k) (Hf : Z.land (nth 0 w 0) 0x80 <> 0) (Hl : (HKDF_MAX_OUTPUT < length w)%nat) :
  decode_inbound w (Some k) stats = None.
Proof.
  unfold decode_inbound, IfacKey_wf, HKDF_MAX_OUTPUT in *.
  destruct (Nat.leb_spec (length w) 2); [lia|]. cbn [andb].
  destruct (frame_split k w) as (x & y & ifac & rest & -> & Hil & Hr); [lia|]. cbn [nth] in Hf.
  rewrite strip_shape by done. destruct (Z.eqb_spec (Z.land x 0x80) 0); [done|].
  unfold hkdf. rewrite hkdf_expand_long; [done|].
  cbn [length] in Hl. rewrite length_app in Hl. unfold HKDF_MAX_OUTPUT. lia.
Qed.

End Ifac.

(** ** Witnesses *)
#[local] Existing Instance toy_hkdf.
#[local] Existing Instance toy_signing.

Definition sample_key : IfacKey := mkIfacKey (replicate 64 9) (replicate 32 9) 8.
Definition sample_frame : bytes := default [] (IfacKey_apply sample_key [1; 2; 3; 250]).

Lemma Ifac_strip_exact_witness :
  IfacKey_wf sample_key /\ all_u8 sample_frame /\
  IfacKey_strip sample_key sample_frame = Some (Some [1; 2; 3; 250]).
Proof.
  assert (all_u8 sample_frame) as Hu by (vm_compute; repeat constructor; discriminate).
  split; [unfold IfacKey_wf; simpl; lia|]. split; [exact Hu|].
  apply (Ifac_strip_exact sample_key sample_frame [1; 2; 3; 250]).
  - unfold IfacKey_wf; simpl; lia.
  - exact Hu.
  - split; [vm_compute; reflexivity|]. split; [simpl; lia|]. split; [|reflexivity].
    repeat constructor; discriminate.
Defined.

Lemma Ifac_separation_witness :
  decode_inbound [1; 2; 3; 250] (Some sample_key) (Some Counters_default)
    = Some (None, Some (count_ifac_violation Counters_default)).
Proof.
  refine (proj1 (proj2 (Ifac_separation sample_key [1; 2; 3; 250] Counters_default _ _ _ _ _))).
  - unfold IfacKey_wf; simpl; lia.
  - repeat constructor; discriminate.
  - simpl; lia.
  - vm_compute. lia.
  - reflexivity.
Defined.

Lemma Ifac_long_frame_panics_witness :
  decode_inbound (replicate (S HKDF_MAX_OUTPUT) 0x80) (Some sample_key) (Some Counters_default) = None.
Proof.
  apply Ifac_long_frame_panics.
  - unfold IfacKey_wf; simpl; lia.
  - change (nth 0 (replicate (S HKDF_MAX_OUTPUT) 0x80) 0) with 0x80. discriminate.
  - rewrite length_replicate. apply Nat.ltb_lt. vm_compute. reflexivity.
Defined.
