(* ===== verification/Tcp.v ===== *)
(** * The TCP receive window ([src/src/iface/tcp_client.rs])

    The HDLC receive loop of the TCP client: every received byte overwrites
    the last byte of a fixed window, the window is searched for a frame, and a
    found frame is decoded, checked against the fixed MTU and the interface's
    access code, and cleared; without a frame the window moves left by one.

    The access-code check is the parameter [inbound]: the plain bytes of a
    frame, or [None] when [decode_inbound] drops it ([Ifac.v]).  The frames
    that pass it are the output; deserializing and queueing them is
    downstream.  Also [TcpKissDecoder], the decoder of TCP links with KISS
    framing. *)

From S2P Require Import Prelude Buffer Framing Hdlc Kiss.

Definition BUFFER_SIZE : nat := 2048 + 128.
Definition RX_WINDOW_SIZE : nat := BUFFER_SIZE * 2 + 2.

Module TcpRx.

Record t := mk {
  rx_buffer : bytes;
  hdlc_rx_buffer : bytes;
}.

Definition new : t := mk (replicate RX_WINDOW_SIZE 0) (replicate BUFFER_SIZE 0).

Section Step.
(** [fixed_limit] with the access-code size added, and the access-code check *)
Context (fixed_limit : option nat) (inbound : bytes -> option bytes).

Definition over_limit (offset : nat) : bool :=
  match fixed_limit with Some limit => (limit <? offset)%nat | None => false end.

(** [frame_buffer.fill(0)] on the range [i..=j]. *)
Definition clear (i j : nat) (buf : bytes) : bytes := splice i (replicate (S j - i) 0) buf.

Definition step (s : t) (byte : Z) : t * list bytes :=
  let buf := take (RX_WINDOW_SIZE - 1) (rx_buffer s) ++ [byte] in
  match Hdlc_find buf with
  | Some (i, j) =>
      match Hdlc_decode (slice i (S j) buf) (OutputBuffer.new (hdlc_rx_buffer s)) with
      | (Ok _, output) =>
          if over_limit (OutputBuffer.offset output)
          then (mk (clear i j buf) (OutputBuffer.buffer output), [])
          else
            match inbound (OutputBuffer.as_slice output) with
            | Some plain => (mk (clear i j buf) (OutputBuffer.buffer output), [plain])
            | None => (mk buf (OutputBuffer.buffer output), [])
            end
      | (Err _, output) => (mk (clear i j buf) (OutputBuffer.buffer output), [])
      end
  | None => (mk (drop 1 buf ++ [byte]) (hdlc_rx_buffer s), [])
  end.

End Step.

(** The window holds [h] and one byte to be overwritten. *)
Definition holds (h : bytes) (s : t) : Prop :=
  exists z, rx_buffer s = h ++ [z] /\ length h = (RX_WINDOW_SIZE - 1)%nat /\
    length (hdlc_rx_buffer s) = BUFFER_SIZE.

Definition no_flag (l : bytes) : Prop := Forall (fun b => b <> HDLC_FRAME_FLAG) l.

Definition idle (s : t) : Prop := exists h, holds h s /\ no_flag h.

Definition fits (fixed_limit : option nat) (inbound : bytes -> option bytes) (p : bytes) : Prop :=
  (length p <= BUFFER_SIZE)%nat /\ over_limit fixed_limit (length p) = false /\ is_Some (inbound p).

End TcpRx.

Module TcpKissDecoder.

Record t := mk {
  frame : bytes;
  in_frame : bool;
  escape : bool;
  command : Z;
  mtu : nat;
}.

Definition new (mtu : nat) : t := mk [] false false CMD_UNKNOWN mtu.

Definition step (d : t) (byte : Z) : t * list bytes :=
  if in_frame d && (byte =? FEND) && (command d =? CMD_DATA) then
    (mk [] false false CMD_UNKNOWN (mtu d), [frame d])
  else if byte =? FEND then
    (mk [] true false CMD_UNKNOWN (mtu d), [])
  else if in_frame d && (length (frame d) <? mtu d)%nat then
    if (length (frame d) =? 0)%nat && (command d =? CMD_UNKNOWN) then
      (mk (frame d) (in_frame d) (escape d) (Z.land byte 0x0F) (mtu d), [])
    else if command d =? CMD_DATA then
      if byte =? FESC then (mk (frame d) (in_frame d) true (command d) (mtu d), [])
      else
        let byte1 := if escape d && (byte =? TFEND) then FEND else byte in
        let byte2 := if escape d && (byte1 =? TFESC) then FESC else byte1 in
        (mk (frame d ++ [byte2]) (in_frame d) false (command d) (mtu d), [])
    else (d, [])
  else (d, []).

Definition feed (d : t) (data : bytes) : t * list bytes := Framing.feed step d data.

(** A data frame is open. *)
Definition receiving (d : t) : bool := in_frame d && (command d =? CMD_DATA).

End TcpKissDecoder.

(** ** Window lemmas *)
Section Window.
Import TcpRx.
Context (fixed_limit : option nat) (inbound : bytes -> option bytes).
Abbreviation rx_step := (step fixed_limit inbound) (only parsing).

Lemma holds_buf h s byte :
  holds h s -> take (RX_WINDOW_SIZE - 1) (rx_buffer s) ++ [byte] = h ++ [byte].
Proof. intros (z & -> & Hl & _). by rewrite take_app_length'. Qed.

Lemma find_none_no_flag l i start si : no_flag l -> find_loop l i start si = None.
Proof. intros Hl. rewrite <- (app_nil_r l). by rewrite find_loop_skip. Qed.

(** At most one flag: no frame, the window moves. *)
Lemma step_shift h s byte x h' :
  holds h s -> h = x :: h' -> Hdlc_find (h ++ [byte]) = None ->
  exists s', rx_step s byte = (s', []) /\ holds (h' ++ [byte]) s'.
Proof.
  intros Hh -> Hn. unfold step. rewrite (holds_buf _ _ _ Hh), Hn.
  eexists. split; [done|]. destruct Hh as (z & _ & Hl & Hb).
  exists byte. simpl in *. split; [done|]. rewrite length_app. simpl. lia.
Qed.

(** A plain byte while a frame is open. *)
Lemma step_body x pre body s byte :
  holds (x :: pre ++ HDLC_FRAME_FLAG :: body) s -> no_flag (x :: pre) -> no_flag body ->
  byte <> HDLC_FRAME_FLAG ->
  exists s', rx_step s byte = (s', []) /\ holds (pre ++ HDLC_FRAME_FLAG :: body ++ [byte]) s'.
Proof.
  intros Hh Hp Hb Hbyte. rewrite app_comm_cons, app_assoc. eapply step_shift; [done..|].
  unfold Hdlc_find. rewrite app_comm_cons, <- app_assoc, find_loop_skip by done. simpl.
  apply find_none_no_flag, Forall_app. split; [done|]. by repeat constructor.
Qed.

Lemma feed_body bytes shifted pre body s :
  length shifted = length bytes ->
  holds (shifted ++ pre ++ HDLC_FRAME_FLAG :: body) s ->
  no_flag (shifted ++ pre) -> no_flag body -> no_flag bytes ->
  exists s', feed rx_step s bytes = (s', []) /\ holds (pre ++ HDLC_FRAME_FLAG :: body ++ bytes) s'.
Proof.
  revert shifted body s. induction bytes as [|b bytes IH]; intros [|x shifted] body s; try done.
  { intros _ Hh _ _ _. exists s. by rewrite app_nil_r. }
  intros [= Hl] Hh Hp Hb Hbs. inversion_clear Hbs as [|? ? Hb1 Hbs1].
  rewrite <- app_comm_cons, app_assoc in Hh.
  destruct (step_body x (shifted ++ pre) body s b) as (s1 & E1 & H1); [done..|].
  rewrite <- app_assoc in H1. inversion_clear Hp as [|? ? Hx Hp1].
  destruct (IH shifted (body ++ [b]) s1) as (s2 & E2 & H2);
    [done..|apply Forall_app; split; [done|by repeat constructor]|done|].
  exists s2. rewrite <- app_assoc in H2. split; [|done]. simpl. by rewrite E1, E2.
Qed.

(** The opening flag of a frame. *)
Lemma step_open x pre s :
  holds (x :: pre) s -> no_flag (x :: pre) ->
  exists s', rx_step s HDLC_FRAME_FLAG = (s', []) /\ holds (pre ++ [HDLC_FRAME_FLAG]) s'.
Proof.
  intros Hh Hp. eapply step_shift; [done..|]. unfold Hdlc_find. by rewrite find_loop_skip.
Qed.

(** Decoding a whole frame into the reused output array. *)
Lemma decode_frame data buf :
  length buf = BUFFER_SIZE -> (length data <= BUFFER_SIZE)%nat ->
  exists output, Hdlc_decode (Hdlc_encode_frame_vec data) (OutputBuffer.new buf)
      = (Ok (length data), output) /\
    OutputBuffer.as_slice output = data /\ OutputBuffer.offset output = length data /\
    length (OutputBuffer.buffer output) = BUFFER_SIZE.
Proof.
  intros Hb Hd. pose proof (Hdlc_decode_emits data [] (OutputBuffer.new buf) (ob_new_wf _)) as H.
  assert (OutputBuffer.room (OutputBuffer.new buf) = BUFFER_SIZE) as Hr
    by (unfold OutputBuffer.room; simpl; lia).
  rewrite Hr, app_nil_r in H. destruct (Nat.leb_spec (length data) BUFFER_SIZE); [|lia].
  destruct H as (n & out & E & Hwf & Hroom & Hs & ->). exists out.
  assert (OutputBuffer.offset out = length data) as Ho.
  { apply (f_equal length) in Hs. unfold OutputBuffer.as_slice, OutputBuffer.wf in *.
    rewrite length_app, !length_take in Hs. simpl in Hs. lia. }
  rewrite E, Ho. split; [done|]. split; [done|]. split; [done|].
  unfold OutputBuffer.room, OutputBuffer.wf in *. lia.
Qed.

Lemma find_decode_window pre data s :
  holds (pre ++ HDLC_FRAME_FLAG :: (data ≫= escape_byte)) s -> no_flag pre ->
  (length data <= BUFFER_SIZE)%nat ->
  let buf := take (RX_WINDOW_SIZE - 1) (rx_buffer s) ++ [HDLC_FRAME_FLAG] in
  let i := length pre in
  let j := (length pre + S (length (data ≫= escape_byte)))%nat in
  buf = pre ++ Hdlc_encode_frame_vec data /\
  Hdlc_find buf = Some (i, j) /\
  exists output, Hdlc_decode (slice i (S j) buf) (OutputBuffer.new (hdlc_rx_buffer s))
      = (Ok (length data), output) /\
    OutputBuffer.as_slice output = data /\ OutputBuffer.offset output = length data /\
    length (OutputBuffer.buffer output) = BUFFER_SIZE.
Proof.
  intros Hh Hp Hd buf i j.
  assert (buf = pre ++ Hdlc_encode_frame_vec data) as Eb.
  { unfold buf. rewrite (holds_buf _ _ _ Hh), <- app_assoc. done. }
  assert (length (Hdlc_encode_frame_vec data) = S (S (length (data ≫= escape_byte)))) as Hlen.
  { unfold Hdlc_encode_frame_vec. rewrite !length_app. simpl. lia. }
  split; [done|]. rewrite Eb. rewrite <- (app_nil_r (Hdlc_encode_frame_vec data)).
  split.
  { rewrite Hdlc_find_frame by done. rewrite Hlen. do 2 f_equal. unfold j. lia. }
  replace (slice i (S j) _) with (Hdlc_encode_frame_vec data).
  - destruct Hh as (_ & _ & _ & Hb). by apply decode_frame.
  - unfold i, j. rewrite <- Nat.add_succ_r, <- Hlen. by rewrite slice_app_mid.
Qed.

Lemma clear_frame (pre frame : bytes) n :
  length frame = S n ->
  clear (length pre) (length pre + n) (pre ++ frame) = (pre ++ replicate n 0) ++ [0].
Proof.
  intros Hl. unfold clear, splice. replace (S (length pre + n) - length pre)%nat with (S n) by lia.
  rewrite take_app_length, length_replicate. rewrite drop_ge by (rewrite length_app; lia).
  rewrite app_nil_r, <- app_assoc. by rewrite replicate_S_end.
Qed.

(** The closing flag of a frame the access-code check accepts. *)
Lemma step_close pre data s plain :
  holds (pre ++ HDLC_FRAME_FLAG :: (data ≫= escape_byte)) s -> no_flag pre ->
  (length data <= BUFFER_SIZE)%nat -> over_limit fixed_limit (length data) = false ->
  inbound data = Some plain ->
  exists s', rx_step s HDLC_FRAME_FLAG = (s', [plain]) /\ idle s'.
Proof.
  intros Hh Hp Hd Ho Hi.
  destruct (find_decode_window pre data s Hh Hp Hd) as (Eb & Ef & out & Ed & Es & Eo & El).
  unfold step. rewrite Ef, Ed, Eo, Ho, Es, Hi. eexists. split; [done|].
  rewrite Eb. destruct Hh as (z & _ & Hl & _). rewrite length_app in Hl. cbn [length] in Hl.
  exists (pre ++ replicate (S (length (data ≫= escape_byte))) 0). split.
  - exists 0. cbn [rx_buffer hdlc_rx_buffer]. rewrite clear_frame.
    + split; [done|]. split; [|done]. rewrite length_app, length_replicate. cbn [length]. lia.
    + unfold Hdlc_encode_frame_vec. rewrite !length_app. simpl. lia.
  - apply Forall_app. split; [done|]. by apply Forall_replicate.
Qed.

(** The closing flag of a frame the access-code check drops: the window keeps
    the frame. *)
Lemma step_close_dropped pre data s :
  holds (pre ++ HDLC_FRAME_FLAG :: (data ≫= escape_byte)) s -> no_flag pre ->
  (length data <= BUFFER_SIZE)%nat -> over_limit fixed_limit (length data) = false ->
  inbound data = None ->
  exists s', rx_step s HDLC_FRAME_FLAG = (s', []) /\
    holds (pre ++ HDLC_FRAME_FLAG :: (data ≫= escape_byte)) s'.
Proof.
  intros Hh Hp Hd Ho Hi.
  destruct (find_decode_window pre data s Hh Hp Hd) as (Eb & Ef & out & Ed & Es & Eo & El).
  unfold step. rewrite Ef, Ed, Eo, Ho, Es, Hi. eexists. split; [done|].
  destruct Hh as (z & _ & Hl & _). exists HDLC_FRAME_FLAG. cbn [rx_buffer hdlc_rx_buffer].
  rewrite Eb. unfold Hdlc_encode_frame_vec. by rewrite <- app_assoc.
Qed.

Lemma escaped_length data : (length (data ≫= escape_byte) <= 2 * length data)%nat.
Proof.
  induction data as [|b data IH]; [done|].
  change ((b :: data) ≫= escape_byte) with (escape_byte b ++ (data ≫= escape_byte)).
  rewrite length_app. cbn [length]. 
  assert (length (escape_byte b) <= 2)%nat by (unfold escape_byte; destruct (needs_escape b); simpl; lia).
  lia.
Qed.

(** The body of a frame, up to its closing flag, after any open frame. *)
Lemma feed_escaped_body pre body data s :
  holds (pre ++ HDLC_FRAME_FLAG :: body) s -> no_flag pre -> no_flag body ->
  (length (data ≫= escape_byte) <= length pre)%nat ->
  exists pre' s', feed rx_step s (data ≫= escape_byte) = (s', []) /\ no_flag pre' /\
    holds (pre' ++ HDLC_FRAME_FLAG :: body ++ (data ≫= escape_byte)) s'.
Proof.
  intros Hh Hp Hb Hl. set (n := length (data ≫= escape_byte)) in *.
  rewrite <- (take_drop n pre), <- app_assoc in Hh. rewrite <- (take_drop n pre) in Hp.
  destruct (feed_body (data ≫= escape_byte) (take n pre) (drop n pre) body s) as (s' & E & H');
    [rewrite length_take; lia|done|done|done|apply escaped_no_flag|].
  exists (drop n pre), s'. split; [done|]. split; [|done]. by apply Forall_app in Hp as [_ ?].
Qed.

Lemma feed_open_body data s :
  idle s -> (length data <= BUFFER_SIZE)%nat ->
  exists pre s', feed rx_step s (HDLC_FRAME_FLAG :: (data ≫= escape_byte)) = (s', []) /\
    no_flag pre /\ holds (pre ++ HDLC_FRAME_FLAG :: (data ≫= escape_byte)) s'.
Proof.
  intros (h & Hh & Hn) Hd. pose proof (escaped_length data) as He.
  pose proof Hh as (z & _ & Hl & _). unfold RX_WINDOW_SIZE in Hl.
  destruct h as [|x h]; [cbn [length] in Hl; lia|]. cbn [length] in Hl.
  destruct (step_open x h s Hh Hn) as (s1 & E1 & H1). inversion_clear Hn as [|? ? _ Hn1].
  destruct (feed_escaped_body h [] data s1) as (pre & s2 & E2 & Hp & H2);
    [done|done|by apply Forall_nil|lia|].
  exists pre, s2. split; [|done]. simpl. by rewrite E1, E2.
Qed.

Lemma encode_frame_split data :
  Hdlc_encode_frame_vec data = (HDLC_FRAME_FLAG :: (data ≫= escape_byte)) ++ [HDLC_FRAME_FLAG].
Proof. done. Qed.

Lemma window_deliver s p :
  idle s -> fits fixed_limit inbound p ->
  exists s', feed rx_step s (Hdlc_encode_frame_vec p) = (s', [default p (inbound p)]) /\ idle s' /\
    forall q, fits fixed_limit inbound q -> fits fixed_limit inbound q.
Proof.
  intros Hi (Hl & Ho & plain & Hin). rewrite encode_frame_split, Hin.
  destruct (feed_open_body p s Hi Hl) as (pre & s1 & E1 & Hp & H1).
  destruct (step_close pre p s1 plain H1 Hp Hl Ho Hin) as (s2 & E2 & H2).
  exists s2. split; [|done]. eapply (feed_compose _ _ _ _ _ [] _ [plain]); [done|].
  simpl. by rewrite E2.
Qed.

(** After a dropped frame the next one is joined to it. *)
Lemma feed_poisoned pre acc q s :
  holds (pre ++ HDLC_FRAME_FLAG :: (acc ≫= escape_byte)) s -> no_flag pre ->
  (length acc + length q <= BUFFER_SIZE)%nat ->
  (forall n, over_limit fixed_limit n = true -> (length acc + length q < n)%nat) ->
  inbound acc = None -> inbound (acc ++ q) = None ->
  exists pre' s', feed rx_step s (Hdlc_encode_frame_vec q) = (s', []) /\ no_flag pre' /\
    holds (pre' ++ HDLC_FRAME_FLAG :: ((acc ++ q) ≫= escape_byte)) s'.
Proof.
  intros Hh Hp Hl Hlim Ha Haq.
  assert (forall n, (n <= length acc + length q)%nat -> over_limit fixed_limit n = false) as Hok.
  { intros n Hn. destruct (over_limit fixed_limit n) eqn:E; [|done]. apply Hlim in E. lia. }
  destruct (step_close_dropped pre acc s) as (s1 & E1 & H1); [done|done|lia|apply Hok; lia|done|].
  pose proof (escaped_length (acc ++ q)) as He. rewrite bind_app, !length_app in He.
  pose proof H1 as (z & _ & Hw & _). rewrite length_app in Hw. cbn [length] in Hw.
  unfold RX_WINDOW_SIZE in Hw.
  destruct (feed_escaped_body pre (acc ≫= escape_byte) q s1) as (pre' & s2 & E2 & Hp' & H2);
    [done|done|apply escaped_no_flag|lia|].
  rewrite <- bind_app in H2.
  destruct (step_close_dropped pre' (acc ++ q) s2) as (s3 & E3 & H3);
    [done|done|rewrite length_app; lia|apply Hok; rewrite length_app; lia|done|].
  exists pre', s3. split; [|done]. rewrite encode_frame_split. simpl. rewrite E1.
  rewrite feed_app, E2. simpl. by rewrite E3.
Qed.

Lemma feed_all_poisoned qs pre acc s :
  holds (pre ++ HDLC_FRAME_FLAG :: (acc ≫= escape_byte)) s -> no_flag pre ->
  (length acc + length (concat qs) <= BUFFER_SIZE)%nat ->
  (forall n, over_limit fixed_limit n = true -> (length acc + length (concat qs) < n)%nat) ->
  (forall n, inbound (acc ++ concat (take n qs)) = None) ->
  exists s', feed rx_step s (concat (map Hdlc_encode_frame_vec qs)) = (s', []).
Proof.
  revert pre acc s. induction qs as [|q qs IH]; intros pre acc s Hh Hp Hl Hlim Hin; [eauto|].
  cbn [concat map] in *. rewrite length_app in Hl, Hlim.
  destruct (feed_poisoned pre acc q s) as (pre' & s1 & E1 & Hp' & H1); [done|done|lia| | | |].
  - intros n Hn. apply Hlim in Hn. lia.
  - specialize (Hin 0%nat). by rewrite app_nil_r in Hin.
  - specialize (Hin 1%nat). cbn [take concat] in Hin. by rewrite take_0, app_nil_r in Hin.
  - destruct (IH pre' (acc ++ q) s1) as (s2 & E2); [done|done|rewrite length_app; lia| | |].
    + intros n Hn. apply Hlim in Hn. rewrite length_app. lia.
    + intros n. specialize (Hin (S n)). cbn [take concat] in Hin. by rewrite <- app_assoc.
    + exists s2. by rewrite (feed_compose _ _ _ _ _ _ _ _ E1 E2).
Qed.

End Window.

#[export] Instance Tcp_framing fixed_limit inbound : Framing TcpRx.t bytes bytes := {|
  fr_step := TcpRx.step fixed_limit inbound;
  fr_encode := Hdlc_encode_frame_vec;
  fr_frame p := default p (inbound p);
  fr_idle := TcpRx.idle;
  fr_fits _ := TcpRx.fits fixed_limit inbound;
  fr_deliver := window_deliver fixed_limit inbound;
|}.

(** ** KISS over TCP *)
Section TcpKissLemmas.
Import TcpKissDecoder.

Lemma tcp_kiss_feed_byte f m byte :
  Framing.feed step (mk f true false CMD_DATA m) (kiss_escape_byte byte) =
    (mk (if (length f <? m)%nat then f ++ [byte] else f) true false CMD_DATA m, []).
Proof.
  unfold kiss_escape_byte.
  destruct (Z.eqb_spec byte FESC) as [->|Hs]; [|destruct (Z.eqb_spec byte FEND) as [->|He]];
    simpl; unfold step; simpl; destruct (length f <? m)%nat eqn:E; simpl;
    rewrite ?andb_false_r; simpl; rewrite ?E; simpl; try done.
  all: destruct (Z.eqb_spec byte FEND); [done|]; rewrite ?andb_false_r; simpl; try done.
  by destruct (Z.eqb_spec byte FESC).
Qed.

Lemma tcp_kiss_feed_escaped data f m :
  Framing.feed step (mk f true false CMD_DATA m) (kiss_escape data) =
    (mk (f ++ take (m - length f) data) true false CMD_DATA m, []).
Proof.
  revert f. induction data as [|byte data IH]; intros f.
  { by rewrite take_nil, app_nil_r. }
  rewrite kiss_escape_cons, feed_app, tcp_kiss_feed_byte.
  destruct (Nat.ltb_spec (length f) m) as [Hl|Hl]; rewrite IH.
  - by rewrite push_take.
  - by replace (m - length f)%nat with 0%nat by lia.
Qed.

Lemma tcp_kiss_deliver d data :
  receiving d = false -> (1 <= mtu d /\ length data <= mtu d)%nat ->
  exists d', Framing.feed step d (kiss_encode_frame data) = (d', [id data]) /\
    receiving d' = false /\
    forall q : bytes, (1 <= mtu d /\ length q <= mtu d)%nat -> (1 <= mtu d' /\ length q <= mtu d')%nat.
Proof.
  intros Hr [Hm Hl]. unfold kiss_encode_frame.
  assert (Framing.feed step d [FEND; CMD_DATA] = (mk [] true false CMD_DATA (mtu d), [])) as E1.
  { destruct d as [f i e c m]; unfold receiving in Hr; simpl in *. unfold step at 1. simpl.
    rewrite andb_true_r, Hr. simpl. unfold step. simpl.
    by destruct (Nat.ltb_spec 0 m); [|lia]. }
  rewrite feed_app, E1, feed_app, tcp_kiss_feed_escaped. simpl.
  rewrite Nat.sub_0_r, take_ge by done. by eexists.
Qed.

End TcpKissLemmas.

#[export] Instance Tcp_kiss_framing : Framing TcpKissDecoder.t bytes bytes := {|
  fr_step := TcpKissDecoder.step;
  fr_encode := kiss_encode_frame;
  fr_frame := id;
  fr_idle d := TcpKissDecoder.receiving d = false;
  fr_fits d data := (1 <= TcpKissDecoder.mtu d /\ length data <= TcpKissDecoder.mtu d)%nat;
  fr_deliver := tcp_kiss_deliver;
|}.

Lemma tcp_new_idle : TcpRx.idle TcpRx.new.
Proof.
  exists (replicate (RX_WINDOW_SIZE - 1) 0). split.
  - exists 0. unfold TcpRx.new. cbn [TcpRx.rx_buffer TcpRx.hdlc_rx_buffer].
    rewrite !length_replicate. split; [|done]. by rewrite <- replicate_S_end.
  - by apply Forall_replicate.
Qed.

(** the TCP receive window delivers. From an idle window, a sequence of
    frames, each of at most [BUFFER_SIZE] bytes, within the fixed MTU and
    accepted by the access-code check, is delivered in order and complete, for
    every split of the stream into reads; the window is idle again. *)
Theorem Tcp_window_delivers (fixed_limit : option nat) (inbound : bytes -> option bytes)
    (s : TcpRx.t) (payloads chunks : list bytes)
    (Hidle : TcpRx.idle s)
    (Hfit : Forall (TcpRx.fits fixed_limit inbound) payloads)
    (Hchunks : concat chunks = concat (map Hdlc_encode_frame_vec payloads)) :
  exists s', feed_chunks (TcpRx.step fixed_limit inbound) s chunks
      = (s', map (fun p => default p (inbound p)) payloads) /\ TcpRx.idle s'.
Proof. exact (framing_stream (F := Tcp_framing fixed_limit inbound) s payloads chunks Hidle Hfit Hchunks). Qed.

Lemma Tcp_window_delivers_witness :
  exists s', feed_chunks (TcpRx.step None Some) TcpRx.new [[0x7e; 1]; [2; 0x7e; 0x7e; 3; 0x7e]]
      = (s', [[1; 2]; [3]]) /\ TcpRx.idle s'.
Proof.
  apply (Tcp_window_delivers None Some TcpRx.new [[1; 2]; [3]] [[0x7e; 1]; [2; 0x7e; 0x7e; 3; 0x7e]]).
  - exact tcp_new_idle.
  - repeat constructor; (apply Nat.leb_le; reflexivity) || (eexists; reflexivity).
  - reflexivity.
Defined.

(** a frame the access-code check drops is not removed from the window, so
    the following frames are joined to it: as long as the check also drops the
    joined payloads and they fit the window, none of the following frames is
    delivered, whatever the check says of each of them. *)
Theorem Tcp_drop_loses_following (inbound : bytes -> option bytes) (s : TcpRx.t)
    (dropped : bytes) (following : list bytes)
    (Hidle : TcpRx.idle s)
    (Hlen : (length dropped + length (concat following) <= BUFFER_SIZE)%nat)
    (Hdrop : forall n, inbound (dropped ++ concat (take n following)) = None) :
  exists s', feed (TcpRx.step None inbound) s
    (concat (map Hdlc_encode_frame_vec (dropped :: following))) = (s', []).
Proof.
  cbn [map concat]. rewrite encode_frame_split.
  destruct (feed_open_body None inbound dropped s) as (pre & s1 & E1 & Hp & H1); [done|lia|].
  destruct (step_close_dropped None inbound pre dropped s1) as (s2 & E2 & H2); [done|done|lia|done| |].
  { specialize (Hdrop 0%nat). by rewrite app_nil_r in Hdrop. }
  destruct (feed_all_poisoned None inbound following pre dropped s2) as (s3 & E3); [done..|].
  exists s3. rewrite <- app_assoc. eapply (feed_compose _ _ _ _ _ [] _ []); [done|].
  simpl. by rewrite E2, E3.
Qed.

Lemma Tcp_drop_loses_following_witness :
  let inbound p := if decide (p = [3; 4]) then Some p else None in
  inbound [3; 4] = Some [3; 4] /\
  exists s', feed (TcpRx.step None inbound) TcpRx.new
    (concat (map Hdlc_encode_frame_vec [[0x80; 1; 2]; [3; 4]])) = (s', []).
Proof.
  split; [reflexivity|].
  apply (Tcp_drop_loses_following _ TcpRx.new [0x80; 1; 2] [[3; 4]]).
  - exact tcp_new_idle.
  - apply Nat.leb_le. reflexivity.
  - intros [|[|n]]; reflexivity.
Defined.
