(* ===== verification/PacketCache.v ===== *)
(** * Packet cache ([src/src/transport/packet_cache.rs])

    The duplicate filter (packet hashes with the time they were last seen) and
    the bounded store of announce packets, evicted first in, first out.  The
    store is proved to refine a bounded association queue.  Times are
    nanoseconds of the monotonic clock. *)

From S2P Require Import Prelude Hash Packet.

Record PacketTrack := mkPacketTrack {
  time : Z;
  min_hops : Z;
}.

Record PacketCache := mkPacketCache {
  pc_map : gmap Hash PacketTrack;
  remove_cache : list Hash;
  announce_capacity : nat;
  announces : gmap Hash Packet;
  announce_order : list Hash;
}.

Definition PacketCache_new (announce_capacity : nat) : PacketCache :=
  mkPacketCache ∅ [] announce_capacity ∅ [].

(** [Instant::elapsed] at [now]. *)
Definition elapsed (now t : Z) : Z := Z.max 0 (now - t).

Definition PacketCache_release (c : PacketCache) (now duration : Z) : PacketCache :=
  let expired := filter (fun e : Hash * PacketTrack => duration < elapsed now (time e.2))
                   (map_to_list (pc_map c)) in
  let to_remove := remove_cache c ++ expired.*1 in
  mkPacketCache (foldl (fun m h => delete h m) (pc_map c) to_remove) [] (announce_capacity c)
    (announces c) (announce_order c).

(** The eviction loop of [cache_announce]. *)
Fixpoint evict (cap : nat) (order : list Hash) (m : gmap Hash Packet)
    : list Hash * gmap Hash Packet :=
  if (cap <=? length order)%nat then
    match order with
    | evicted :: order' => evict cap order' (delete evicted m)
    | [] => (order, m)
    end
  else (order, m).

Section Cache.
Context `{Sha256}.

Definition PacketCache_update (c : PacketCache) (now : Z) (packet : Packet) : PacketCache * bool :=
  let hash := Packet_hash packet in
  let set tr := mkPacketCache (<[hash := tr]> (pc_map c)) (remove_cache c) (announce_capacity c)
                  (announces c) (announce_order c) in
  match pc_map c !! hash with
  | Some track => (set (mkPacketTrack now (Z.min (hops (header packet)) (min_hops track))), false)
  | None => (set (mkPacketTrack now (hops (header packet))), true)
  end.

Definition PacketCache_cache_announce (c : PacketCache) (packet : Packet) : PacketCache :=
  if (announce_capacity c =? 0)%nat then c else
  let hash := Packet_hash packet in
  let '(order, m) :=
    if decide (is_Some (announces c !! hash)) then (announce_order c, announces c)
    else let '(order, m) := evict (announce_capacity c) (announce_order c) (announces c) in
         (order ++ [hash], m) in
  mkPacketCache (pc_map c) (remove_cache c) (announce_capacity c) (<[hash := packet]> m) order.

Definition PacketCache_get_cached_announce (c : PacketCache) (hash : Hash) : option Packet :=
  announces c !! hash.

Definition PacketCache_hashes (c : PacketCache) : list Hash := (map_to_list (pc_map c)).*1.

Definition PacketCache_remember_hash (c : PacketCache) (now : Z) (hash : Hash) : PacketCache :=
  match pc_map c !! hash with
  | Some _ => c
  | None => mkPacketCache (<[hash := mkPacketTrack now 0]> (pc_map c)) (remove_cache c)
              (announce_capacity c) (announces c) (announce_order c)
  end.

(** ** Sequences of operations *)
Inductive CacheOp :=
| OpRelease (now duration : Z)
| OpUpdate (now : Z) (packet : Packet)
| OpAnnounce (packet : Packet)
| OpRemember (now : Z) (hash : Hash).

Definition cache_op (c : PacketCache) (op : CacheOp) : PacketCache :=
  match op with
  | OpRelease now d => PacketCache_release c now d
  | OpUpdate now p => fst (PacketCache_update c now p)
  | OpAnnounce p => PacketCache_cache_announce c p
  | OpRemember now h => PacketCache_remember_hash c now h
  end.

Definition cache_run (c : PacketCache) (ops : list CacheOp) : PacketCache := foldl cache_op c ops.

(** ** Specification of the announce store: a bounded queue of keyed packets,
    oldest first *)
Record Fifo := mkFifo { fifo_cap : nat; fifo_items : list (Hash * Packet) }.

Fixpoint assoc (l : list (Hash * Packet)) (h : Hash) : option Packet :=
  match l with
  | [] => None
  | (h', p) :: l' => if decide (h = h') then Some p else assoc l' h
  end.

Definition fifo_get (f : Fifo) (h : Hash) : option Packet := assoc (fifo_items f) h.

Definition fifo_put (f : Fifo) (h : Hash) (p : Packet) : Fifo :=
  let items := fifo_items f in
  mkFifo (fifo_cap f)
    (if (fifo_cap f =? 0)%nat then items
     else if decide (h ∈ items.*1)
     then map (fun e => if decide (e.1 = h) then (h, p) else e) items
     else (if (length items =? fifo_cap f)%nat then drop 1 items else items) ++ [(h, p)]).

Definition fifo_op (f : Fifo) (op : CacheOp) : Fifo :=
  match op with
  | OpAnnounce p => fifo_put f (Packet_hash p) p
  | _ => f
  end.

(** The concrete store holds the queue. *)
Definition store_refines (c : PacketCache) (f : Fifo) : Prop :=
  announce_capacity c = fifo_cap f /\
  announce_order c = (fifo_items f).*1 /\
  announces c = list_to_map (fifo_items f) /\
  NoDup (fifo_items f).*1 /\
  (length (fifo_items f) <= fifo_cap f)%nat.

(** What an operation must satisfy for a hash seen at [t] to stay known: no
    clean-up with a shorter retention than its age, and a clock that does not
    go back. *)
Definition keeps_seen (t : Z) (op : CacheOp) : Prop :=
  match op with
  | OpRelease now d => 0 <= d /\ now - t <= d
  | OpUpdate now _ => t <= now
  | OpAnnounce _ | OpRemember _ _ => True
  end.

(** ** Announce store *)

Lemma assoc_list_to_map l h : (list_to_map l : gmap Hash Packet) !! h = assoc l h.
Proof.
  induction l as [|[h' p] l IH]; [done|]. simpl. destruct (decide (h = h')) as [->|Hne].
  - by rewrite lookup_insert_eq.
  - by rewrite lookup_insert_ne.
Qed.

Lemma evict_stop cap order m : (length order < cap)%nat -> evict cap order m = (order, m).
Proof. intros Hl. destruct order; unfold evict; by rewrite (proj2 (Nat.leb_gt _ _) Hl). Qed.

Lemma evict_full cap h order m :
  (0 < cap)%nat -> length (h :: order) = cap -> evict cap (h :: order) m = (order, delete h m).
Proof.
  intros Hc Hl. cbn [evict]. rewrite (proj2 (Nat.leb_le cap (length (h :: order)))) by lia.
  apply evict_stop. simpl in Hl. lia.
Qed.

Lemma delete_list_to_map_head (h : Hash) (p : Packet) l :
  h ∉ l.*1 -> delete h (list_to_map ((h, p) :: l) : gmap Hash Packet) = list_to_map l.
Proof.
  intros Hn. cbn [list_to_map foldr]. apply delete_insert_id. by apply not_elem_of_list_to_map_1.
Qed.

Lemma replace_keys h p (l : list (Hash * Packet)) :
  (map (fun e => if decide (e.1 = h) then (h, p) else e) l).*1 = l.*1.
Proof.
  induction l as [|[h' q] l IH]; [done|]. cbn [map fmap list_fmap fst]. f_equal; [|exact IH].
  by destruct (decide _) as [->|].
Qed.

Lemma replace_list_to_map h p (l : list (Hash * Packet)) :
  NoDup l.*1 -> h ∈ l.*1 ->
  (list_to_map (map (fun e => if decide (e.1 = h) then (h, p) else e) l) : gmap Hash Packet)
    = <[h := p]> (list_to_map l).
Proof.
  induction l as [|[h' q] l IH]; intros Hnd Hin; [by apply not_elem_of_nil in Hin|].
  cbn [fmap list_fmap fst] in Hnd, Hin. apply list.NoDup_cons in Hnd as [Hn Hnd].
  cbn [map fst]. destruct (decide (h' = h)) as [->|Hne].
  - cbn [list_to_map foldr]. rewrite insert_insert_eq. f_equal. f_equal.
    rewrite <- (list_fmap_id l) at 2. apply list_fmap_ext. intros i [k v] Hi. cbn [fst].
    destruct (decide (k = h)) as [->|]; [|done]. exfalso. apply Hn.
    apply list_elem_of_fmap. exists (h, v). split; [done|]. by eapply list_elem_of_lookup_2.
  - apply elem_of_cons in Hin as [->|Hin]; [done|].
    cbn [list_to_map foldr]. fold (list_to_map (M := gmap Hash Packet)).
    rewrite (insert_insert_ne _ h h') by done. f_equal. by apply IH.
Qed.

Lemma cache_announce_refines c f p :
  store_refines c f ->
  store_refines (PacketCache_cache_announce c p) (fifo_put f (Packet_hash p) p).
Proof.
  intros (Hcap & Hord & Hann & Hnd & Hlen). unfold PacketCache_cache_announce, fifo_put.
  rewrite Hcap. destruct (Nat.eqb_spec (fifo_cap f) 0) as [E0|E0]; [by destruct f|].
  set (h := Packet_hash p). set (items := fifo_items f) in *.
  destruct (decide (h ∈ items.*1)) as [Hin|Hout].
  - rewrite decide_True.
    2:{ rewrite Hann. destruct ((list_to_map items : gmap Hash Packet) !! h) eqn:E; [by eexists|].
        by apply not_elem_of_list_to_map_2 in E. }
    repeat split; cbn [announce_capacity announce_order announces fifo_cap fifo_items].
    + by rewrite replace_keys.
    + by rewrite Hann, replace_list_to_map.
    + by rewrite replace_keys.
    + by rewrite length_map.
  - rewrite decide_False.
    2:{ rewrite Hann, not_elem_of_list_to_map_1 by done. by intros []. }
    assert (forall l : list (Hash * Packet), NoDup l.*1 -> (length l < fifo_cap f)%nat -> h ∉ l.*1 ->
      store_refines (mkPacketCache (pc_map c) (remove_cache c) (announce_capacity c)
                       (<[h := p]> (list_to_map l)) (l.*1 ++ [h])) (mkFifo (fifo_cap f) (l ++ [(h, p)])))
      as Hpush.
    { intros l Hl1 Hl2 Hl3. repeat split; cbn [announce_capacity announce_order announces fifo_cap fifo_items].
      - done.
      - by rewrite fmap_app.
      - by rewrite list_to_map_snoc.
      - rewrite fmap_app. apply list.NoDup_app. split; [done|]. split; [|apply NoDup_singleton].
        intros x Hx ->%list_elem_of_singleton. done.
      - rewrite length_app. simpl. lia. }
    rewrite Hord, Hann, Hcap in *. destruct (Nat.eqb_spec (length items) (fifo_cap f)) as [Hf|Hf].
    + destruct items as [|[h0 p0] items']; [simpl in Hf; lia|].
      cbn [fmap list_fmap fst] in Hnd, Hout. apply list.NoDup_cons in Hnd as [Hn Hnd].
      apply not_elem_of_cons in Hout as [_ Hout]. cbn [fmap list_fmap fst].
      rewrite evict_full, delete_list_to_map_head by (done || lia || (simpl in *; rewrite length_fmap; lia)).
      apply Hpush; [done|rewrite length_drop; cbn [length] in *; lia|done].
    + rewrite evict_stop by (rewrite length_fmap; lia). apply Hpush; [done|lia|done].
Qed.

Lemma cache_op_refines c f op : store_refines c f -> store_refines (cache_op c op) (fifo_op f op).
Proof.
  intros HR. destruct op as [now d|now p|p|now h]; cbn [cache_op fifo_op]; [exact HR| | |].
  - unfold PacketCache_update. by destruct (pc_map c !! _).
  - by apply cache_announce_refines.
  - unfold PacketCache_remember_hash. by destruct (pc_map c !! h).
Qed.

Lemma store_refines_get c f h : store_refines c f -> PacketCache_get_cached_announce c h = fifo_get f h.
Proof.
  intros (_ & _ & Hann & _). unfold PacketCache_get_cached_announce. rewrite Hann.
  apply assoc_list_to_map.
Qed.

(** C34: the announce store is a bounded first-in-first-out queue. After any
    sequence of operations on a new cache, lookups return what a queue of
    keyed packets returns that drops its oldest key when a new key arrives at
    capacity and replaces the packet of a known key in place; it never holds
    more packets than its capacity. *)
Theorem PacketCache_refines_fifo (capacity : nat) (ops : list CacheOp) :
  let c := cache_run (PacketCache_new capacity) ops in
  let f := foldl fifo_op (mkFifo capacity []) ops in
  (forall h, PacketCache_get_cached_announce c h = fifo_get f h) /\
  announce_order c = (fifo_items f).*1 /\ NoDup (announce_order c) /\
  (size (announces c) <= capacity)%nat.
Proof.
  assert (forall c f, store_refines c f -> store_refines (cache_run c ops) (foldl fifo_op f ops)) as Hrun.
  { induction ops as [|op ops IH]; intros c f HR; [exact HR|]. by apply IH, cache_op_refines. }
  destruct (Hrun (PacketCache_new capacity) (mkFifo capacity [])) as (Hcap & Hord & Hann & Hnd & Hlen).
  { repeat split; [apply NoDup_nil_2|simpl; lia]. }
  intros c f. split; [intros h; by apply store_refines_get|].
  split; [done|]. split; [unfold c; by rewrite Hord|].
  unfold c. rewrite Hann, map_size_list_to_map by done. rewrite Hlen.
  clear. assert (forall g, fifo_cap (foldl fifo_op g ops) = fifo_cap g) as ->; [|done].
  induction ops as [|op ops IH]; intros g; [done|]. simpl. rewrite IH. by destruct op.
Qed.

(** ** Duplicate filter *)

(** [release] removes exactly the hashes not seen for longer than the
    retention time. *)
Lemma release_lookup c now d h :
  remove_cache c = [] ->
  pc_map (PacketCache_release c now d) !! h =
    (tr ← pc_map c !! h; if decide (d < elapsed now (time tr)) then None else Some tr).
Proof.
  intros Hrc. unfold PacketCache_release. cbn [pc_map]. rewrite Hrc, foldl_delete_lookup, app_nil_l.
  destruct (pc_map c !! h) as [tr|] eqn:E; cbn [mbind option_bind]; [|by case_decide].
  apply elem_of_map_to_list in E as Hin. destruct (decide (d < elapsed now (time tr))) as [Hold|Hnew].
  - rewrite decide_True; [done|]. apply list_elem_of_fmap. exists (h, tr). split; [done|].
    by apply list_elem_of_filter.
  - rewrite decide_False; [done|]. intros ([h' tr'] & Eh & Hf)%list_elem_of_fmap. simpl in Eh. subst h'.
    apply list_elem_of_filter in Hf as [Hd Hin']. apply elem_of_map_to_list in Hin'.
    rewrite E in Hin'. by injection Hin' as <-.
Qed.

Definition seen_since (t : Z) (h : Hash) (c : PacketCache) : Prop :=
  remove_cache c = [] /\ exists tr, pc_map c !! h = Some tr /\ t <= time tr.

Lemma cache_op_seen t h op c : keeps_seen t op -> seen_since t h c -> seen_since t h (cache_op c op).
Proof.
  intros Hk (Hrc & tr & Htr & Ht). destruct op as [now d|now p|p|now h']; simpl in *.
  - split; [done|]. exists tr. split; [|done]. rewrite release_lookup, Htr by done. simpl.
    rewrite decide_False; [done|]. unfold elapsed. lia.
  - unfold PacketCache_update. destruct (decide (Packet_hash p = h)) as [<-|Hne].
    + rewrite Htr. split; [done|]. cbn. eexists. by rewrite lookup_insert_eq.
    + destruct (pc_map c !! Packet_hash p); (split; [done|]); exists tr; cbn;
        by rewrite lookup_insert_ne.
  - unfold PacketCache_cache_announce. split; destruct (announce_capacity c =? 0)%nat; try done;
      try (by exists tr); destruct (decide _); [| |by exists tr|]; try done;
      destruct (evict _ _ _); [done|by exists tr].
  - unfold PacketCache_remember_hash. destruct (pc_map c !! h') eqn:E; [split; [done|by exists tr]|].
    split; [done|]. exists tr. cbn. rewrite lookup_insert_ne; [done|]. congruence.
Qed.

(** the duplicate filter. Once a packet has been seen at [now], every
    later packet with the same hash, however often relayed, is reported as a
    duplicate, through any operations in between, as long as no clean-up with a
    retention shorter than the packet's age runs; a packet whose hash is
    unknown is reported as new. *)
Theorem PacketCache_dedup (c : PacketCache) (ops : list CacheOp) (now now' : Z) (p p' : Packet)
    (Hc : remove_cache c = []) (Hh : Packet_hash p' = Packet_hash p)
    (Hops : Forall (keeps_seen now) ops) :
  let c1 := fst (PacketCache_update c now p) in
  snd (PacketCache_update (cache_run c1 ops) now' p') = false /\
  (snd (PacketCache_update c now p) = true <-> pc_map c !! Packet_hash p = None).
Proof.
  intros c1. split.
  - assert (seen_since now (Packet_hash p) c1) as Hs.
    { unfold c1, PacketCache_update. split; [by destruct (pc_map c !! _)|].
      destruct (pc_map c !! _); cbn; rewrite lookup_insert_eq; by eexists. }
    clearbody c1. revert c1 Hs. induction Hops as [|op ops Hop _ IH]; intros c1 (Hrc & tr & Htr & Ht).
    + unfold PacketCache_update. simpl. by rewrite Hh, Htr.
    + apply IH. apply cache_op_seen; [done|]. split; [done|by exists tr].
  - unfold PacketCache_update. destruct (pc_map c !! _); split; done.
Qed.

End Cache.

#[local] Existing Instance toy_sha256.

Lemma PacketCache_dedup_witness :
  snd (PacketCache_update
    (cache_run (fst (PacketCache_update (PacketCache_new 4) 10 sample_packet))
       [OpRelease 40 60; OpAnnounce sample_packet]) 50 sample_packet) = false.
Proof.
  refine (proj1 (PacketCache_dedup (PacketCache_new 4) [OpRelease 40 60; OpAnnounce sample_packet]
           10 50 sample_packet sample_packet eq_refl eq_refl _)).
  apply Forall_cons; [cbn; lia|]. apply Forall_cons; [exact I|]. apply Forall_nil.
Defined.
