(* ===== verification/LinkTable.v ===== *)
(** * Link table of a transport node ([src/src/transport/link_table.rs])

    A node that relays a link request records the two interfaces and hop
    counts of the link; proofs and link packets are then relayed along it.
    The link id is computed as in [LinkId::from]
    ([src/reticulum-core/src/destination/link.rs]).  Ed25519 verification is
    the class parameter [Verifying]; an [Identity] is represented by its
    verifying key, the only part of it used here. *)

From S2P Require Import Prelude Float Crypto Hash Packet.

Definition LINK_TIMEOUT : Z := 900 * NANOS.
Definition ESTABLISHMENT_TIMEOUT_PER_HOP : Z := 6 * NANOS.

Record LinkEntry := mkLinkEntry {
  le_next_hop : AddressHash;
  next_hop_iface : AddressHash;
  receiving_iface : AddressHash;
  remaining_hops : Z;
  taken_hops : Z;
  original_destination : AddressHash;
  validated : bool;
  proof_timeout : Z;
  last_activity : Z;
}.

Record ProofOutcome := mkProofOutcome {
  relay : option (Packet * AddressHash);
  path_hops_update : option (AddressHash * Z);
}.

Definition set_remaining_hops (e : LinkEntry) (h : Z) : LinkEntry :=
  mkLinkEntry (le_next_hop e) (next_hop_iface e) (receiving_iface e) h (taken_hops e)
    (original_destination e) (validated e) (proof_timeout e) (last_activity e).
Definition set_validated (e : LinkEntry) : LinkEntry :=
  mkLinkEntry (le_next_hop e) (next_hop_iface e) (receiving_iface e) (remaining_hops e) (taken_hops e)
    (original_destination e) true (proof_timeout e) (last_activity e).
Definition set_last_activity (e : LinkEntry) (now : Z) : LinkEntry :=
  mkLinkEntry (le_next_hop e) (next_hop_iface e) (receiving_iface e) (remaining_hops e) (taken_hops e)
    (original_destination e) (validated e) (proof_timeout e) now.

Definition outbound_iface_for (e : LinkEntry) (ingress_iface : AddressHash) (observed : Z)
    : option AddressHash :=
  if decide (next_hop_iface e = receiving_iface e) then
    if (observed =? remaining_hops e) || (observed =? taken_hops e)
    then Some (next_hop_iface e) else None
  else if bool_decide (ingress_iface = next_hop_iface e) && (observed =? remaining_hops e)
  then Some (receiving_iface e)
  else if bool_decide (ingress_iface = receiving_iface e) && (observed =? taken_hops e)
  then Some (next_hop_iface e)
  else None.

Definition forwarded (packet : Packet) (transport_id : option AddressHash) (new_hops : Z) : Packet :=
  let h := header packet in
  mkPacket
    (mkHeader Open (context_flag h) (header_type h) (propagation_type h) (destination_type h)
       (packet_type h) new_hops)
    None (destination packet) transport_id (context packet) (data packet).

Abbreviation LinkTable := (gmap (list Z) LinkEntry) (only parsing).

Definition LinkTable_new : LinkTable := ∅.

(** Airtime of one MTU at a bitrate, [(1.0 / bitrate) * 8.0 * MTU] seconds. *)
Definition link_airtime (bitrate : Z) : option Z :=
  if bitrate =? 0 then Some 0
  else from_secs_f64
    (f64_mul (f64_mul (f64_div (f64_of_Z 1) (f64_of_Z bitrate)) (f64_of_Z 8))
       (f64_of_Z PROTOCOL_MTU)).

Section Table.
Context `{Sha256} `{Verifying}.

Definition LinkId_from (packet : Packet) : AddressHash :=
  let dat := payload packet in
  let data_diff := if (PUBLIC_KEY_LENGTH * 2 <? length dat)%nat
                   then (length dat - PUBLIC_KEY_LENGTH * 2)%nat else 0%nat in
  let hashable_data := take (length dat - data_diff) dat in
  AddressHash_new_from_hash
    (sha256 ([Z.land (to_meta (header packet)) 0x0F] ++ destination packet
             ++ [PacketContext_as_u8 (context packet)] ++ hashable_data)).

Definition LinkTable_add (t : LinkTable) (now : Z) (link_request : Packet)
    (dest recv_iface next_hop nh_iface : AddressHash) (rem_hops next_hop_bitrate : Z)
    : option LinkTable :=
  airtime ← link_airtime next_hop_bitrate;
  let timeout := now + airtime + ESTABLISHMENT_TIMEOUT_PER_HOP * Z.max rem_hops 1 in
  Some (<[LinkId_from link_request :=
          mkLinkEntry next_hop nh_iface recv_iface rem_hops
            (u8_saturating_add (hops (header link_request)) 1) dest false timeout now]> t).

Definition original_destination_of (t : LinkTable) (link_id : AddressHash) : option AddressHash :=
  original_destination <$> t !! link_id.

Definition contains_destination (t : LinkTable) (dest : AddressHash) : bool :=
  bool_decide (is_Some (t !! dest)).

Definition iface_of (t : LinkTable) (link_id : AddressHash) : option AddressHash :=
  e ← t !! link_id;
  Some (if AddressHash_is_empty (receiving_iface e) then next_hop_iface e else receiving_iface e).

Definition route_link_packet (t : LinkTable) (now : Z) (packet : Packet) (ingress_iface : AddressHash)
    : LinkTable * option (Packet * AddressHash) :=
  match t !! destination packet with
  | None => (t, None)
  | Some e =>
      let observed := u8_saturating_add (hops (header packet)) 1 in
      match outbound_iface_for e ingress_iface observed with
      | None => (t, None)
      | Some iface =>
          (<[destination packet := set_last_activity e now]> t,
           Some (forwarded packet (transport packet) (u8_add (hops (header packet)) 1), iface))
      end
  end.

(** The same steps as for link data. *)
Definition handle_keepalive (t : LinkTable) (now : Z) (packet : Packet) (ingress_iface : AddressHash)
    : LinkTable * option (Packet * AddressHash) :=
  match t !! destination packet with
  | None => (t, None)
  | Some e =>
      let observed := u8_saturating_add (hops (header packet)) 1 in
      match outbound_iface_for e ingress_iface observed with
      | None => (t, None)
      | Some iface =>
          (<[destination packet := set_last_activity e now]> t,
           Some (forwarded packet (transport packet) (u8_add (hops (header packet)) 1), iface))
      end
  end.

(** What the destination signs in its link proof. *)
Definition signed_data (proof : Packet) (verifying_key : bytes) : bytes :=
  let dat := payload proof in
  let signalling := if (length dat =? 64 + 32 + 3)%nat then drop (64 + 32) dat else [] in
  destination proof ++ slice 64 (64 + 32) dat ++ verifying_key ++ signalling.

Definition handle_lr_proof (t : LinkTable) (proof : Packet) (ingress_iface : AddressHash)
    (recalled_identity : option bytes) : LinkTable * ProofOutcome :=
  let dropped := (t, mkProofOutcome None None) in
  match t !! destination proof with
  | None => dropped
  | Some e =>
      let dat := payload proof in
      if negb (length dat =? 64 + 32)%nat && negb (length dat =? 64 + 32 + 3)%nat then dropped else
      match recalled_identity with
      | None => dropped
      | Some verifying_key =>
          if negb (verify_signature verifying_key (signed_data proof verifying_key) (take 64 dat))
          then dropped
          else
            let observed := u8_saturating_add (hops (header proof)) 1 in
            let rebalance := negb (observed =? remaining_hops e)
                             && bool_decide (ingress_iface = next_hop_iface e) in
            let e1 := if rebalance then set_remaining_hops e observed else e in
            let update := if rebalance then Some (original_destination e, observed) else None in
            if (observed =? remaining_hops e1) && bool_decide (ingress_iface = next_hop_iface e1) then
              (<[destination proof := set_validated e1]> t,
               mkProofOutcome
                 (Some (forwarded proof (transport proof) (u8_add (hops (header proof)) 1),
                        receiving_iface e1)) update)
            else (<[destination proof := e1]> t, mkProofOutcome None update)
      end
  end.

Definition is_stale (now : Z) (e : LinkEntry) : bool :=
  if validated e then LINK_TIMEOUT <? Z.max 0 (now - last_activity e)
  else proof_timeout e <=? now.

(** When a link has outlived its use: idle for too long once validated, its
    proof overdue before. *)
Definition outlived (now : Z) (e : LinkEntry) : Prop :=
  if validated e then LINK_TIMEOUT < now - last_activity e else proof_timeout e <= now.

#[local] Instance outlived_dec now e : Decision (outlived now e).
Proof. unfold outlived. destruct (validated e); apply _. Defined.

Definition LinkTable_remove_stale (t : LinkTable) (now : Z) : LinkTable * list LinkEntry :=
  let stale := filter (fun e : AddressHash * LinkEntry => is_stale now e.2 = true) (map_to_list t) in
  (foldl (fun m id => delete id m) t stale.*1,
   (filter (fun e : AddressHash * LinkEntry => validated e.2 = false) stale).*2).

Definition LinkTable_clear (t : LinkTable) : LinkTable := ∅.

Definition LinkTable_drop_iface (t : LinkTable) (iface : AddressHash) : LinkTable :=
  filter (fun e : AddressHash * LinkEntry => next_hop_iface e.2 <> iface /\ receiving_iface e.2 <> iface) t.

Definition LinkTable_len (t : LinkTable) : nat := size t.
Definition LinkTable_validated_len (t : LinkTable) : nat :=
  length (filter (fun e : AddressHash * LinkEntry => validated e.2 = true) (map_to_list t)).

(** A proof the destination signed. *)
Definition proof_valid (proof : Packet) (verifying_key : bytes) : Prop :=
  (length (payload proof) = 64 + 32 \/ length (payload proof) = 64 + 32 + 3)%nat /\
  verify_signature verifying_key (signed_data proof verifying_key) (take 64 (payload proof)) = true.

(** ** Lemmas *)

Lemma handle_lr_proof_valid t proof iface key e :
  t !! destination proof = Some e -> proof_valid proof key ->
  let observed := u8_saturating_add (hops (header proof)) 1 in
  handle_lr_proof t proof iface (Some key) =
    if decide (iface = next_hop_iface e) then
      (<[destination proof := set_validated (set_remaining_hops e observed)]> t,
       mkProofOutcome
         (Some (forwarded proof (transport proof) (u8_add (hops (header proof)) 1), receiving_iface e))
         (if observed =? remaining_hops e then None else Some (original_destination e, observed)))
    else (<[destination proof := e]> t, mkProofOutcome None None).
Proof.
  intros He [Hlen Hsig] observed. unfold handle_lr_proof. rewrite He. fold observed.
  assert (negb (length (payload proof) =? 64 + 32)%nat && negb (length (payload proof) =? 64 + 32 + 3)%nat
          = false) as -> by (destruct Hlen as [->| ->]; reflexivity).
  rewrite Hsig. cbn [negb]. destruct (decide (iface = next_hop_iface e)) as [->|Hne].
  - rewrite bool_decide_eq_true_2 by done. rewrite andb_true_r.
    destruct (Z.eqb_spec observed (remaining_hops e)) as [Eq|Hneq]; cbn [negb].
    + rewrite bool_decide_eq_true_2 by done. rewrite Eq, Z.eqb_refl. done.
    + cbn [remaining_hops next_hop_iface set_remaining_hops].
      rewrite bool_decide_eq_true_2 by done. by rewrite Z.eqb_refl.
  - rewrite bool_decide_eq_false_2 by done. rewrite !andb_false_r.
    rewrite bool_decide_eq_false_2 by done. by rewrite andb_false_r.
Qed.

#[local] Instance proof_valid_dec proof key : Decision (proof_valid proof key).
Proof. unfold proof_valid. apply _. Defined.

Lemma handle_lr_proof_dropped t proof iface recalled :
  (forall e key, t !! destination proof = Some e -> recalled = Some key -> ~ proof_valid proof key) ->
  handle_lr_proof t proof iface recalled = (t, mkProofOutcome None None).
Proof.
  intros Hnv. unfold handle_lr_proof. destruct (t !! destination proof) as [e|]; [|done].
  destruct (Nat.eqb_spec (length (payload proof)) (64 + 32)) as [H1|H1],
    (Nat.eqb_spec (length (payload proof)) (64 + 32 + 3)) as [H2|H2]; cbn [negb andb]; try done.
  all: destruct recalled as [key|]; [|done].
  all: destruct (verify_signature key _ _) eqn:Hs; [|done].
  all: exfalso; apply (Hnv e key eq_refl eq_refl); split; [by auto|done].
Qed.

Lemma route_from_initiator t now packet e :
  t !! destination packet = Some e ->
  u8_saturating_add (hops (header packet)) 1 = taken_hops e ->
  snd (route_link_packet t now packet (receiving_iface e)) =
    Some (forwarded packet (transport packet) (u8_add (hops (header packet)) 1), next_hop_iface e).
Proof.
  intros He Hh. unfold route_link_packet, outbound_iface_for. rewrite He, Hh, Z.eqb_refl.
  destruct (decide _) as [Eq|Hne]; [by rewrite orb_true_r|].
  rewrite (bool_decide_eq_false_2 (receiving_iface e = next_hop_iface e)) by congruence.
  by rewrite (bool_decide_eq_true_2 (receiving_iface e = receiving_iface e)).
Qed.

Lemma route_from_destination t now packet e :
  t !! destination packet = Some e ->
  u8_saturating_add (hops (header packet)) 1 = remaining_hops e ->
  snd (route_link_packet t now packet (next_hop_iface e)) =
    Some (forwarded packet (transport packet) (u8_add (hops (header packet)) 1), receiving_iface e).
Proof.
  intros He Hh. unfold route_link_packet, outbound_iface_for. rewrite He, Hh, Z.eqb_refl.
  destruct (decide _) as [Eq|Hne]; [simpl; by rewrite Eq|].
  by rewrite bool_decide_eq_true_2.
Qed.

Lemma outbound_iface_only e from observed iface : outbound_iface_for e from observed = Some iface ->
  if decide (next_hop_iface e = receiving_iface e) then (observed = taken_hops e \/ observed = remaining_hops e) /\ iface = next_hop_iface e
  else (observed = taken_hops e /\ from = receiving_iface e /\ iface = next_hop_iface e) \/
       (observed = remaining_hops e /\ from = next_hop_iface e /\ iface = receiving_iface e).
Proof.
  unfold outbound_iface_for. destruct (decide _).
  - destruct (Z.eqb_spec observed (remaining_hops e)), (Z.eqb_spec observed (taken_hops e)); cbn; naive_solver.
  - destruct (Z.eqb_spec observed (remaining_hops e)), (Z.eqb_spec observed (taken_hops e)); repeat case_bool_decide; cbn; naive_solver.
Qed.


(** C20: only authenticated proofs have an effect. Whatever arrives as a link
    proof, if the table changes, the proof is relayed or a path update is
    returned, then the link is known and the proof carries a valid signature
    of the destination's recalled identity over the link id, the ephemeral key
    and the signalling bytes; and it is relayed only when it came in on the
    interface towards the destination. *)
Theorem LinkTable_proof_authentic (t : LinkTable) (proof : Packet) (iface : AddressHash)
    (recalled : option bytes) :
  let '(t', out) := handle_lr_proof t proof iface recalled in
  (t' <> t \/ relay out <> None \/ path_hops_update out <> None ->
     exists e key, t !! destination proof = Some e /\ recalled = Some key /\
       proof_valid proof key) /\
  (forall r, relay out = Some r ->
     exists e, t !! destination proof = Some e /\ iface = next_hop_iface e /\ r.2 = receiving_iface e).
Proof.
  destruct (t !! destination proof) as [e|] eqn:He, recalled as [key|];
    [destruct (decide (proof_valid proof key)) as [Hv|Hv]|..].
  1: rewrite (handle_lr_proof_valid t proof iface key e He Hv);
    destruct (decide (iface = next_hop_iface e)) as [->|]; (split; [by eauto|]);
    intros r; cbn [relay]; [intros [= <-]; eauto|done].
  all: rewrite handle_lr_proof_dropped by (intros ? ?; congruence);
    (split; [by intros [?|[?|?]]|done]).
Qed.

Lemma remove_stale_lookup t now id :
  fst (LinkTable_remove_stale t now) !! id =
    (e ← t !! id; if is_stale now e then None else Some e).
Proof.
  unfold LinkTable_remove_stale. cbn [fst]. rewrite foldl_delete_lookup.
  destruct (t !! id) as [e|] eqn:E; cbn [mbind option_bind]; [|by case_decide].
  apply elem_of_map_to_list in E as Hin. destruct (is_stale now e) eqn:Hs.
  - rewrite decide_True; [done|]. apply list_elem_of_fmap. exists (id, e). split; [done|].
    by apply list_elem_of_filter.
  - rewrite decide_False; [done|]. intros ([id' e'] & Eid & Hf)%list_elem_of_fmap. simpl in Eid. subst id'.
    apply list_elem_of_filter in Hf as [Hd Hin']. apply elem_of_map_to_list in Hin'.
    rewrite E in Hin'. injection Hin' as <-. simpl in Hd. congruence.
Qed.

Lemma is_stale_spec now e : is_stale now e = bool_decide (outlived now e).
Proof.
  assert (0 < LINK_TIMEOUT) as Hpos by done. unfold is_stale.
  case_bool_decide as Ho; unfold outlived in Ho; destruct (validated e).
  - apply Z.ltb_lt. lia.
  - by apply Z.leb_le.
  - apply Z.ltb_ge. lia.
  - apply Z.leb_gt. lia.
Qed.

(** clean-up is exact. An entry is removed when its link is validated and
    has been idle for more than [LINK_TIMEOUT], or is not validated and its
    proof is overdue, and only then; the entries returned are the overdue ones
    that were not validated. In particular a validated link that relays a
    packet survives every clean-up in the following [LINK_TIMEOUT]. *)
Theorem LinkTable_remove_stale_exact (t : LinkTable) (now : Z) :
  (forall id, fst (LinkTable_remove_stale t now) !! id =
     (e ← t !! id; if decide (outlived now e) then None else Some e)) /\
  (forall e, e ∈ snd (LinkTable_remove_stale t now) <->
     exists id, t !! id = Some e /\ validated e = false /\ proof_timeout e <= now) /\
  (forall t0 relayed packet iface out e,
     route_link_packet t0 relayed packet iface = (t, Some out) ->
     t !! destination packet = Some e -> validated e = true -> now <= relayed + LINK_TIMEOUT ->
     fst (LinkTable_remove_stale t now) !! destination packet = Some e).
Proof.
  assert (forall e, is_stale now e = bool_decide (outlived now e)) as Hst by apply is_stale_spec.
  split; [|split].
  - intros id. rewrite remove_stale_lookup. destruct (t !! id) as [e|]; [|done]. cbn [mbind option_bind].
    rewrite Hst. by destruct (decide _); [rewrite bool_decide_eq_true_2|rewrite bool_decide_eq_false_2].
  - intros e. unfold LinkTable_remove_stale. cbn [snd]. rewrite list_elem_of_fmap. split.
    + intros ([id e'] & -> & Hf). apply list_elem_of_filter in Hf as [Hv Hf].
      apply list_elem_of_filter in Hf as [Hs Hin]. apply elem_of_map_to_list in Hin.
      cbn [snd] in *. exists id. rewrite Hst in Hs. apply bool_decide_eq_true_1 in Hs. unfold outlived in Hs. by rewrite Hv in Hs.
    + intros (id & Hid & Hv & Ht). exists (id, e). split; [done|].
      rewrite !list_elem_of_filter, elem_of_map_to_list. cbn [snd]. split; [done|]. split; [|done].
      rewrite Hst. apply bool_decide_eq_true_2. unfold outlived. by rewrite Hv.
  - intros t0 relayed packet iface out e Hr He Hv Hn. rewrite remove_stale_lookup, He. cbn [mbind option_bind].
    rewrite Hst, bool_decide_eq_false_2; [done|]. unfold outlived. rewrite Hv. unfold route_link_packet in Hr.
    destruct (t0 !! destination packet) as [e0|]; [|done]. destruct (outbound_iface_for _ _ _); [|done].
    injection Hr as <- _. rewrite lookup_insert_eq in He. injection He as <-.
    cbn [last_activity set_last_activity]. lia.
Qed.

End Table.

(** ** Witnesses *)
#[local] Existing Instance toy_sha256.
#[local] Instance any_verifying : Verifying := {| verify_signature key msg sig := true |}.

Definition sample_proof : Packet :=
  mkPacket (mkHeader Open false Type1 Broadcast Link Proof 1) None (LinkId_from sample_packet) None
    CtxLinkRequestProof (PacketDataBuffer_new_from_slice (replicate 96 7)).

Definition sample_link_data (h : Z) : Packet :=
  mkPacket (mkHeader Open false Type1 Broadcast Link Data h) None (LinkId_from sample_packet) None
    CtxNone (PacketDataBuffer_new_from_slice [5]).

