(* ===== verification/AnnounceTable.v ===== *)
(** * Announce rebroadcasts ([src/src/transport/announce_table.rs])

    Received announces are rebroadcast twice, and cached announces answer path
    requests once per requesting interface after a grace period.  [BTreeMap]s
    are finite maps iterated in ascending key order.  The [Option] around the
    newer cache generation is always [Some] and is dropped.  An operation reads
    the clock once, as [now]; the random word drawn by [add] is an argument. *)

From S2P Require Import Prelude Float Hash Packet.

Definition PATHFINDER_R : Z := 1.
Definition PATHFINDER_GRACE : Z := 5 * NANOS.
Definition PATHFINDER_RANDOM_WINDOW : Z := 500000000.

(** [TxMessageType] and [TxMessage] of [src/src/iface.rs]. *)
Inductive TxMessageType :=
| TxBroadcast (except : option AddressHash)
| TxDirect (iface : AddressHash).

Record TxMessage := mkTxMessage {
  tx_type : TxMessageType;
  tx_packet : Packet;
}.

#[export] Instance TxMessageType_eq_dec : EqDecision TxMessageType.
Proof. solve_decision. Defined.

Record AnnounceEntry := mkAnnounceEntry {
  ae_packet : Packet;
  ae_timeout : Z;
  received_from : AddressHash;
  retries : Z;
  ae_hops : Z;
  response_to_iface : option AddressHash;
}.

Definition always_retransmit (e : AnnounceEntry) (transport_id : AddressHash) : TxMessage :=
  let ctx := match response_to_iface e with Some _ => CtxPathResponse | None => CtxNone end in
  let packet :=
    mkPacket
      (mkHeader Open (context_flag (header (ae_packet e))) Type2 Broadcast Single Announce (ae_hops e))
      None (destination (ae_packet e)) (Some transport_id) ctx (data (ae_packet e)) in
  mkTxMessage
    (match response_to_iface e with
     | Some iface => TxDirect iface
     | None => TxBroadcast (Some (received_from e))
     end) packet.

Definition set_retries (e : AnnounceEntry) (r timeout : Z) : AnnounceEntry :=
  mkAnnounceEntry (ae_packet e) timeout (received_from e) r (ae_hops e) (response_to_iface e).

Definition retransmit (e : AnnounceEntry) (now : Z) (transport_id : AddressHash)
    : AnnounceEntry * option TxMessage :=
  if bool_decide (is_Some (response_to_iface e)) then
    if (retries e =? 0) || (now <? ae_timeout e) then (e, None)
    else let e1 := set_retries e 0 (ae_timeout e) in (e1, Some (always_retransmit e1 transport_id))
  else if PATHFINDER_R <? retries e then (e, None)
  else if now <? ae_timeout e then (e, None)
  else
    let e1 := set_retries e (u8_add (retries e) 1) (now + PATHFINDER_GRACE + PATHFINDER_RANDOM_WINDOW) in
    (e1, Some (always_retransmit e1 transport_id)).

Record AnnounceCache := mkAnnounceCache {
  newer : gmap AddressHash AnnounceEntry;
  older : option (gmap AddressHash AnnounceEntry);
  capacity : Z;
}.

Definition AnnounceCache_new (capacity : Z) : AnnounceCache := mkAnnounceCache ∅ None capacity.

Definition AnnounceCache_insert (c : AnnounceCache) (dest : AddressHash) (e : AnnounceEntry)
    : AnnounceCache :=
  if capacity c <=? Z.of_nat (size (newer c))
  then mkAnnounceCache {[dest := e]} (Some (newer c)) (capacity c)
  else mkAnnounceCache (<[dest := e]> (newer c)) (older c) (capacity c).

Definition AnnounceCache_get (c : AnnounceCache) (dest : AddressHash) : option AnnounceEntry :=
  match newer c !! dest with
  | Some e => Some e
  | None => older c ≫= fun m => m !! dest
  end.

Record AnnounceTable := mkAnnounceTable {
  at_map : gmap AddressHash AnnounceEntry;
  responses : gmap (AddressHash * AddressHash) AnnounceEntry;
  at_cache : AnnounceCache;
}.

Definition CACHE_CAPACITY : Z := 100000.

Definition AnnounceTable_new : AnnounceTable :=
  mkAnnounceTable ∅ ∅ (AnnounceCache_new CACHE_CAPACITY).

(** [(word >> 11) as f64 / 2^53 * 0.5] seconds. *)
Definition rand_window (word : Z) : option Z :=
  from_secs_f64
    (f64_mul (f64_div (f64_of_Z (Z.shiftr word 11)) (f64_of_Z (2 ^ 53))) (f64_lit 1 (-1))).

Definition AnnounceTable_add (t : AnnounceTable) (now word : Z) (announce : Packet)
    (dest from : AddressHash) : option AnnounceTable :=
  window ← rand_window word;
  let e := mkAnnounceEntry announce (now + window) from 0
             (u8_saturating_add (hops (header announce)) 1) None in
  Some (mkAnnounceTable (<[dest := e]> (at_map t)) (responses t) (at_cache t)).

Definition do_add_response (t : AnnounceTable) (now : Z) (response : AnnounceEntry)
    (dest to_iface : AddressHash) (new_hops grace : Z) : AnnounceTable :=
  let e := mkAnnounceEntry (ae_packet response) (now + grace) (received_from response) 1 new_hops
             (Some to_iface) in
  mkAnnounceTable (at_map t) (<[(dest, to_iface) := e]> (responses t)) (at_cache t).

Definition response_pending (t : AnnounceTable) (dest : AddressHash) : bool :=
  existsb (fun k => bool_decide (k.1 = dest)) (btree_iter bytes2_le (responses t)).*1.

Definition AnnounceTable_clear (t : AnnounceTable) : AnnounceTable :=
  mkAnnounceTable ∅ ∅ (mkAnnounceCache ∅ None (capacity (at_cache t))).

Definition drop_responses_to (t : AnnounceTable) (iface : AddressHash) : AnnounceTable :=
  mkAnnounceTable (at_map t)
    (filter (fun e : (AddressHash * AddressHash) * AnnounceEntry => e.1.2 <> iface) (responses t))
    (at_cache t).

Definition add_response (t : AnnounceTable) (now : Z) (dest to_iface : AddressHash)
    (new_hops grace : Z) : AnnounceTable * bool :=
  match at_map t !! dest with
  | Some e => (do_add_response t now e dest to_iface new_hops grace, true)
  | None =>
      match AnnounceCache_get (at_cache t) dest with
      | Some e => (do_add_response t now e dest to_iface new_hops grace, true)
      | None => (t, false)
      end
  end.

Definition new_packet (t : AnnounceTable) (now : Z) (dest transport_id : AddressHash)
    : AnnounceTable * option TxMessage :=
  match at_map t !! dest with
  | None => (t, None)
  | Some e =>
      if bool_decide (is_Some (response_to_iface e)) || (0 <? retries e) then (t, None)
      else
        let e1 := set_retries e 1 (now + PATHFINDER_GRACE + PATHFINDER_RANDOM_WINDOW) in
        (mkAnnounceTable (<[dest := e1]> (at_map t)) (responses t) (at_cache t),
         Some (always_retransmit e1 transport_id))
  end.

(** The passes of [tx_to_retransmit]: what one entry contributes. *)
Definition map_pass (t : AnnounceTable) (now : Z) (transport_id : AddressHash)
    (e : AddressHash * AnnounceEntry) : option TxMessage :=
  if response_pending t e.1 then None else snd (retransmit e.2 now transport_id).

Definition map_completes (t : AnnounceTable) (now : Z) (transport_id : AddressHash)
    (e : AddressHash * AnnounceEntry) : bool :=
  negb (response_pending t e.1) && negb (bool_decide (is_Some (map_pass t now transport_id e)))
  && (PATHFINDER_R <? retries e.2).

Definition response_pass (now : Z) (transport_id : AddressHash)
    (e : (AddressHash * AddressHash) * AnnounceEntry) : option TxMessage :=
  snd (retransmit e.2 now transport_id).

Definition retried (t : AnnounceTable) (now : Z) (transport_id : AddressHash)
    : gmap AddressHash AnnounceEntry :=
  map_imap (fun d e => Some (if response_pending t d then e else fst (retransmit e now transport_id)))
    (at_map t).

(** Moving a completed announce from the table to the cache. *)
Definition complete (mc : gmap AddressHash AnnounceEntry * AnnounceCache) (dest : AddressHash)
    : gmap AddressHash AnnounceEntry * AnnounceCache :=
  match mc.1 !! dest with
  | Some e => (delete dest mc.1, AnnounceCache_insert mc.2 dest e)
  | None => mc
  end.

Definition tx_to_retransmit (t : AnnounceTable) (now : Z) (transport_id : AddressHash)
    : AnnounceTable * list TxMessage :=
  let entries := btree_iter bytes_le (at_map t) in
  let pending := btree_iter bytes2_le (responses t) in
  let map1 := retried t now transport_id in
  let completed := (filter (fun e => map_completes t now transport_id e = true) entries).*1 in
  let sent := (filter (fun e => is_Some (response_pass now transport_id e)) pending).*1 in
  let responses1 := (fun e => fst (retransmit e now transport_id)) <$> responses t in
  let '(map2, cache2) := foldl complete (map1, at_cache t) completed in
  (mkAnnounceTable map2 (foldl (fun m k => delete k m) responses1 sent) cache2,
   omap (map_pass t now transport_id) entries ++ omap (response_pass now transport_id) pending).

Definition tx_to_retransmit_old (t : AnnounceTable) (transport_id : AddressHash) : list TxMessage :=
  let pass m := omap (fun e : AddressHash * AnnounceEntry =>
                  if response_pending t e.1 then None else Some (always_retransmit e.2 transport_id))
                  (btree_iter bytes_le m) in
  pass (newer (at_cache t)) ++ from_option pass [] (older (at_cache t)).

(** ** Well-formed tables *)
Definition entry_ok (dest : AddressHash) (e : AnnounceEntry) : Prop :=
  destination (ae_packet e) = dest /\ response_to_iface e = None /\ 0 <= retries e <= PATHFINDER_R + 1.

Definition response_ok (k : AddressHash * AddressHash) (e : AnnounceEntry) : Prop :=
  destination (ae_packet e) = k.1 /\ response_to_iface e = Some k.2 /\ retries e = 1.

Definition cache_ok (c : AnnounceCache) : Prop :=
  map_Forall entry_ok (newer c) /\ (forall m, older c = Some m -> map_Forall entry_ok m).

Definition at_wf (t : AnnounceTable) : Prop :=
  map_Forall entry_ok (at_map t) /\ map_Forall response_ok (responses t) /\ cache_ok (at_cache t).

(** ** Operations in sequence; [add] is called with the announce's own
    destination *)
Inductive AnnounceOp :=
| AtAdd (now word : Z) (announce : Packet) (from : AddressHash)
| AtNewPacket (now : Z) (dest transport_id : AddressHash)
| AtTick (now : Z) (transport_id : AddressHash)
| AtTickOld (transport_id : AddressHash)
| AtAddResponse (now : Z) (dest to_iface : AddressHash) (new_hops grace : Z)
| AtDropResponses (iface : AddressHash)
| AtClear.

Definition at_op (t : AnnounceTable) (op : AnnounceOp) : option (AnnounceTable * list TxMessage) :=
  match op with
  | AtAdd now word p from => t' ← AnnounceTable_add t now word p (destination p) from; Some (t', [])
  | AtNewPacket now d tid => let '(t', m) := new_packet t now d tid in Some (t', option_list m)
  | AtTick now tid => Some (tx_to_retransmit t now tid)
  | AtTickOld tid => Some (t, tx_to_retransmit_old t tid)
  | AtAddResponse now d i h g => Some (fst (add_response t now d i h g), [])
  | AtDropResponses i => Some (drop_responses_to t i, [])
  | AtClear => Some (AnnounceTable_clear t, [])
  end.

Fixpoint at_run (t : AnnounceTable) (ops : list AnnounceOp) : option (AnnounceTable * list TxMessage) :=
  match ops with
  | [] => Some (t, [])
  | op :: ops' =>
      r1 ← at_op t op;
      r2 ← at_run r1.1 ops';
      Some (r2.1, r1.2 ++ r2.2)
  end.

Definition broadcast_of (dest : AddressHash) (m : TxMessage) : bool :=
  match tx_type m with
  | TxBroadcast _ => bool_decide (destination (tx_packet m) = dest)
  | TxDirect _ => false
  end.

Definition response_of (k : AddressHash * AddressHash) (m : TxMessage) : bool :=
  match tx_type m with
  | TxDirect i => bool_decide (destination (tx_packet m) = k.1) && bool_decide (i = k.2)
  | TxBroadcast _ => false
  end.

Definition count (P : TxMessage -> bool) (l : list TxMessage) : nat := length (List.filter P l).

(** Rebroadcasts an announce may still cause. *)
Definition budget (t : AnnounceTable) (dest : AddressHash) : Z :=
  match at_map t !! dest with Some e => PATHFINDER_R + 1 - retries e | None => 0 end.

Definition adds (dest : AddressHash) (op : AnnounceOp) : Prop :=
  match op with AtAdd _ _ p _ => destination p = dest | _ => False end.

(** Passes over the announces that are done with. *)
Definition is_old_tick (op : AnnounceOp) : bool := match op with AtTickOld _ => true | _ => false end.
Definition old_ticks (ops : list AnnounceOp) : nat := length (List.filter is_old_tick ops).

(** The halves of the cache that hold an announce of the destination. *)
Definition cached_copies (c : AnnounceCache) (dest : AddressHash) : nat :=
  (if decide (is_Some (newer c !! dest)) then 1 else 0) + (if decide (is_Some (older c ≫= fun m => m !! dest)) then 1 else 0).

(** ** Counting messages of a keyed pass *)

Lemma count_app P l k : count P (l ++ k) = (count P l + count P k)%nat.
Proof. unfold count. by rewrite List.filter_app, length_app. Qed.

Lemma count_0 P l : (forall m, m ∈ l -> P m = false) -> count P l = 0%nat.
Proof.
  intros Hl. unfold count. induction l as [|m l IH]; [done|]. simpl.
  rewrite (Hl m) by apply list_elem_of_here. apply IH. intros m' Hm'. apply Hl. by apply list_elem_of_further.
Qed.

Section KeyedPass.
Context `{Countable K} {A : Type} (f : K * A -> option TxMessage) (P : TxMessage -> bool) (d : K).

Lemma count_omap l :
  NoDup l.*1 ->
  (forall k v m, (k, v) ∈ l -> f (k, v) = Some m -> P m = bool_decide (k = d)) ->
  count P (omap f l) =
    match (list_to_map l : gmap K A) !! d with
    | Some v => if decide (is_Some (f (d, v))) then 1%nat else 0%nat
    | None => 0%nat
    end.
Proof.
  induction l as [|[k v] l IH]; intros Hnd HP; [done|].
  cbn [fmap list_fmap fst] in Hnd. apply list.NoDup_cons in Hnd as [Hk Hnd].
  assert (count P (omap f ((k, v) :: l)) =
    ((match f (k, v) with Some m => if P m then 1 else 0 | None => 0 end) + count P (omap f l))%nat) as ->.
  { change (omap f ((k, v) :: l)) with (match f (k, v) with Some y => y :: omap f l | None => omap f l end).
    destruct (f (k, v)) as [m|]; [|done]. unfold count. simpl. by destruct (P m). }
  rewrite IH; [|done|intros k' v' m Hin; apply HP; by apply list_elem_of_further].
  cbn [list_to_map foldr fst snd]. fold (list_to_map (M := gmap K A)).
  destruct (decide (k = d)) as [->|Hne].
  - rewrite lookup_insert_eq, not_elem_of_list_to_map_1 by done. destruct (f (d, v)) as [m|] eqn:E.
    + rewrite (HP d v m) by (done || apply list_elem_of_here).
      rewrite bool_decide_eq_true_2, decide_True by done. done.
    + by destruct (decide _) as [[? ?]|]; [congruence|].
  - rewrite lookup_insert_ne by done. destruct (f (k, v)) as [m|] eqn:E; [|done].
    rewrite (HP k v m) by (done || apply list_elem_of_here). by rewrite bool_decide_eq_false_2.
Qed.

Lemma count_btree_pass (le : relation K) `{!RelDecision le} (m : gmap K A) :
  (forall k v msg, m !! k = Some v -> f (k, v) = Some msg -> P msg = bool_decide (k = d)) ->
  count P (omap f (btree_iter le m)) =
    match m !! d with
    | Some v => if decide (is_Some (f (d, v))) then 1%nat else 0%nat
    | None => 0%nat
    end.
Proof.
  intros HP. rewrite count_omap.
  - rewrite (list_to_map_proper (btree_iter le m) (map_to_list m)), list_to_map_to_list; [done| |].
    + apply NoDup_btree_iter_keys.
    + apply btree_iter_Permutation.
  - apply NoDup_btree_iter_keys.
  - intros k v msg Hin. apply HP. by apply (elem_of_btree_iter le).
Qed.

End KeyedPass.

(** ** One entry *)

Lemma retransmit_announce d e now tid :
  entry_ok d e ->
  retransmit e now tid =
    if (retries e <=? PATHFINDER_R) && (ae_timeout e <=? now)
    then let e1 := set_retries e (retries e + 1) (now + PATHFINDER_GRACE + PATHFINDER_RANDOM_WINDOW) in
         (e1, Some (always_retransmit e1 tid))
    else (e, None).
Proof.
  intros (_ & Hr & Hn). unfold retransmit. rewrite Hr. cbn [bool_decide].
  rewrite bool_decide_eq_false_2 by (by intros []). unfold PATHFINDER_R in *.
  destruct (Z.ltb_spec 1 (retries e)), (Z.leb_spec (retries e) 1); try lia; [done|]. cbn [andb].
  destruct (Z.ltb_spec now (ae_timeout e)), (Z.leb_spec (ae_timeout e) now); try lia; [done|].
  rewrite u8_add_small by lia. done.
Qed.

Lemma retransmit_response k e now tid :
  response_ok k e ->
  retransmit e now tid =
    if ae_timeout e <=? now
    then let e1 := set_retries e 0 (ae_timeout e) in (e1, Some (always_retransmit e1 tid))
    else (e, None).
Proof.
  intros (_ & Hr & Hn). unfold retransmit. rewrite Hr, Hn.
  rewrite bool_decide_eq_true_2 by (by eexists). cbn [Z.eqb orb].
  by destruct (Z.ltb_spec now (ae_timeout e)), (Z.leb_spec (ae_timeout e) now); try lia.
Qed.

Lemma entry_ok_set_retries d e r timeout :
  entry_ok d e -> 0 <= r <= PATHFINDER_R + 1 -> entry_ok d (set_retries e r timeout).
Proof. intros (H1 & H2 & _) Hr. done. Qed.

Lemma retransmit_entry_ok d e now tid : entry_ok d e -> entry_ok d (fst (retransmit e now tid)).
Proof.
  intros He. rewrite (retransmit_announce d) by done.
  destruct (_ && _) eqn:E; [|done]. apply andb_true_iff in E as [E _]. zb.
  apply entry_ok_set_retries; [done|]. destruct He as (_ & _ & ?). lia.
Qed.

Lemma announce_message d e tid :
  entry_ok d e -> forall d', broadcast_of d' (always_retransmit e tid) = bool_decide (d = d').
Proof. intros (<- & Hr & _) d'. unfold broadcast_of, always_retransmit. by rewrite Hr. Qed.

Lemma announce_not_response d e tid :
  entry_ok d e -> forall k, response_of k (always_retransmit e tid) = false.
Proof. intros (_ & Hr & _) k. unfold response_of, always_retransmit. by rewrite Hr. Qed.

Lemma response_message k e tid :
  destination (ae_packet e) = k.1 -> response_to_iface e = Some k.2 ->
  forall k', response_of k' (always_retransmit e tid) = bool_decide (k = k').
Proof.
  intros Hd Hr [d' i']. unfold response_of, always_retransmit. rewrite Hr, Hd. destruct k as [d i].
  cbn [tx_type tx_packet destination fst snd]. destruct (bool_decide (d = d')) eqn:E1; simpl.
  - apply bool_decide_eq_true_1 in E1 as ->. apply bool_decide_ext. split; [by intros ->|by intros [=]].
  - apply bool_decide_eq_false_1 in E1. symmetry. apply bool_decide_eq_false_2. by intros [=].
Qed.

Lemma response_not_broadcast k e tid :
  response_to_iface e = Some k -> forall d, broadcast_of d (always_retransmit e tid) = false.
Proof. intros Hr d. unfold broadcast_of, always_retransmit. by rewrite Hr. Qed.

(** ** The tick *)

Lemma map_pass_spec t now tid d e :
  entry_ok d e ->
  map_pass t now tid (d, e) =
    if negb (response_pending t d) && (retries e <=? PATHFINDER_R) && (ae_timeout e <=? now)
    then Some (always_retransmit (fst (retransmit e now tid)) tid) else None.
Proof.
  intros He. unfold map_pass. cbn [fst snd]. destruct (response_pending t d); [done|]. cbn [negb andb].
  rewrite (retransmit_announce d) by done. by destruct (_ && _).
Qed.

Lemma response_pass_spec now tid k e :
  response_ok k e ->
  response_pass now tid (k, e) =
    if ae_timeout e <=? now then Some (always_retransmit (set_retries e 0 (ae_timeout e)) tid) else None.
Proof.
  intros He. unfold response_pass. cbn [snd]. rewrite (retransmit_response k) by done.
  by destruct (_ <=? _).
Qed.

(** Rebroadcasts of [d] in one tick. *)
Lemma tick_broadcasts t now tid d :
  at_wf t ->
  count (broadcast_of d) (snd (tx_to_retransmit t now tid)) =
    match at_map t !! d with
    | Some e => if negb (response_pending t d) && (retries e <=? PATHFINDER_R) && (ae_timeout e <=? now)
                then 1%nat else 0%nat
    | None => 0%nat
    end.
Proof.
  intros (Hm & Hr & _). unfold tx_to_retransmit. destruct (foldl _ _ _). cbn [snd].
  rewrite count_app. rewrite (count_0 _ (omap (response_pass now tid) _)).
  - rewrite Nat.add_0_r, (count_btree_pass _ _ d).
    + destruct (at_map t !! d) as [e|] eqn:E; [|done].
      rewrite map_pass_spec by (by apply Hm).
      destruct (_ && _); [by rewrite decide_True by (by eexists)|by rewrite decide_False by (by intros [])].
    + intros k v msg Hk Hp. rewrite map_pass_spec in Hp by (by apply Hm).
      destruct (_ && _); [|done]. injection Hp as <-.
      apply announce_message. by apply retransmit_entry_ok, Hm.
  - intros m Hin. apply list_elem_of_omap in Hin as ([k e] & Hin & Hp).
    apply elem_of_btree_iter in Hin. specialize (Hr k e Hin).
    rewrite (response_pass_spec now tid k e Hr) in Hp. destruct (_ <=? _); [|done].
    injection Hp as <-. apply (response_not_broadcast k.2). by destruct Hr as (_ & ? & _).
Qed.

(** Path responses for [k] in one tick. *)
Lemma tick_responses t now tid k :
  at_wf t ->
  count (response_of k) (snd (tx_to_retransmit t now tid)) =
    match responses t !! k with
    | Some e => if ae_timeout e <=? now then 1%nat else 0%nat
    | None => 0%nat
    end.
Proof.
  intros (Hm & Hr & _). unfold tx_to_retransmit. destruct (foldl _ _ _). cbn [snd].
  rewrite count_app. rewrite (count_0 _ (omap (map_pass t now tid) _)).
  - rewrite Nat.add_0_l, (count_btree_pass _ _ k).
    + destruct (responses t !! k) as [e|] eqn:E; [|done]. rewrite response_pass_spec by (by apply Hr).
      destruct (_ <=? _); [by rewrite decide_True by (by eexists)|by rewrite decide_False by (by intros [])].
    + intros k' e msg Hk Hp. pose proof (Hr k' e Hk) as He. rewrite response_pass_spec in Hp by done.
      destruct (_ <=? _); [|done]. injection Hp as <-. destruct He as (H1 & H2 & _).
      by apply response_message.
  - intros m Hin. apply list_elem_of_omap in Hin as ([d e] & Hin & Hp).
    apply elem_of_btree_iter in Hin. rewrite map_pass_spec in Hp by (by apply Hm).
    destruct (_ && _); [|done]. injection Hp as <-. apply (announce_not_response d).
    by apply retransmit_entry_ok, Hm.
Qed.

Lemma cache_insert_ok c d e : cache_ok c -> entry_ok d e -> cache_ok (AnnounceCache_insert c d e).
Proof.
  intros [Hn Ho] He. unfold AnnounceCache_insert. destruct (_ <=? _); split; cbn [newer older].
  - by apply map_Forall_singleton.
  - by intros m [= <-].
  - by apply map_Forall_insert_2.
  - done.
Qed.

Lemma complete_spec m c d :
  map_Forall entry_ok m -> cache_ok c ->
  (complete (m, c) d).1 = delete d m /\ cache_ok (complete (m, c) d).2.
Proof.
  intros Hm Hc. unfold complete. cbn [fst snd]. destruct (m !! d) as [e|] eqn:E; cbn [fst snd].
  - split; [done|]. apply cache_insert_ok; [done|by apply Hm].
  - by rewrite delete_id.
Qed.

Lemma foldl_complete l m c :
  map_Forall entry_ok m -> cache_ok c ->
  (foldl complete (m, c) l).1 = foldl (fun m d => delete d m) m l /\
  cache_ok (foldl complete (m, c) l).2.
Proof.
  revert m c. induction l as [|d l IH]; intros m c Hm Hc; [done|]. cbn [foldl].
  destruct (complete_spec m c d Hm Hc) as [E1 E2]. destruct (complete (m, c) d) as [m1 c1].
  cbn [fst snd] in *. subst m1. apply IH; [|done]. by apply map_Forall_delete.
Qed.

Lemma retried_ok t now tid : map_Forall entry_ok (at_map t) -> map_Forall entry_ok (retried t now tid).
Proof.
  intros Hm k e. unfold retried. rewrite map_lookup_imap. destruct (at_map t !! k) as [e0|] eqn:E; [|done].
  cbn [mbind option_bind]. intros [= <-]. destruct (response_pending t k); [by apply Hm|].
  by apply retransmit_entry_ok, Hm.
Qed.

Lemma elem_of_selected `{Countable K} {A} (le : relation K) `{!RelDecision le} (m : gmap K A)
    (Q : K * A -> Prop) `{!forall x, Decision (Q x)} d :
  d ∈ (filter Q (btree_iter le m)).*1 <-> exists e, m !! d = Some e /\ Q (d, e).
Proof.
  rewrite list_elem_of_fmap. split.
  - intros ([k e] & -> & Hf). apply list_elem_of_filter in Hf as [HQ Hin].
    exists e. split; [by apply (elem_of_btree_iter le)|done].
  - intros (e & Hm & HQ). exists (d, e). split; [done|]. apply list_elem_of_filter. split; [done|].
    by apply elem_of_btree_iter.
Qed.

Lemma tick_map t now tid d :
  at_wf t ->
  at_map (fst (tx_to_retransmit t now tid)) !! d =
    (e ← at_map t !! d;
     if response_pending t d then Some e
     else if PATHFINDER_R <? retries e then None
     else Some (fst (retransmit e now tid))).
Proof.
  intros (Hm & Hr & Hc). unfold tx_to_retransmit.
  set (completed := (filter _ _).*1).
  destruct (foldl_complete completed _ (at_cache t) (retried_ok t now tid Hm) Hc) as [E1 _].
  destruct (foldl complete _ _) as [map2 cache2]. cbn [fst at_map] in *. subst map2.
  rewrite foldl_delete_lookup. unfold retried. rewrite map_lookup_imap.
  destruct (at_map t !! d) as [e|] eqn:E; cbn [mbind option_bind].
  2:{ by case_decide. }
  destruct (decide (d ∈ completed)) as [Hin|Hout].
  - apply elem_of_selected in Hin as (e' & E' & HQ). rewrite E in E'. injection E' as <-.
    unfold map_completes in HQ. cbn [fst snd] in HQ.
    destruct (response_pending t d); [done|]. by destruct (PATHFINDER_R <? retries e); [|rewrite andb_false_r in HQ].
  - destruct (response_pending t d) eqn:Hp; [done|].
    destruct (PATHFINDER_R <? retries e) eqn:Hlt; [|done]. exfalso. apply Hout, elem_of_selected.
    exists e. split; [done|]. unfold map_completes. cbn [fst snd]. rewrite Hp, Hlt.
    rewrite map_pass_spec by (by apply Hm). zb. rewrite (proj2 (Z.leb_gt _ _)) by lia.
    rewrite andb_false_r. by rewrite bool_decide_eq_false_2 by (by intros []).
Qed.

Lemma tick_response_map t now tid k :
  at_wf t ->
  responses (fst (tx_to_retransmit t now tid)) !! k =
    (e ← responses t !! k; if ae_timeout e <=? now then None else Some e).
Proof.
  intros (Hm & Hr & Hc). unfold tx_to_retransmit. destruct (foldl complete _ _). cbn [fst responses].
  rewrite foldl_delete_lookup, lookup_fmap. destruct (responses t !! k) as [e|] eqn:E; cbn [fmap option_fmap option_map mbind option_bind].
  2:{ by case_decide. }
  pose proof (Hr k e E) as He. rewrite (retransmit_response k) by done.
  case_decide as Hin.
  - apply elem_of_selected in Hin as (e' & E' & HQ). rewrite E in E'. injection E' as <-.
    rewrite response_pass_spec in HQ by done. by destruct (_ <=? _); [|destruct HQ].
  - destruct (ae_timeout e <=? now) eqn:Ht; [|done]. exfalso. apply Hin, elem_of_selected.
    exists e. split; [done|]. rewrite response_pass_spec by done. rewrite Ht. by eexists.
Qed.

Lemma tick_wf t now tid : at_wf t -> at_wf (fst (tx_to_retransmit t now tid)).
Proof.
  intros Hwf. split; [|split].
  - intros d e. rewrite tick_map by done. destruct Hwf as (Hm & _).
    destruct (at_map t !! d) as [e0|] eqn:E; [|done]. cbn [mbind option_bind].
    destruct (response_pending t d); [intros [= <-]; by apply Hm|].
    destruct (PATHFINDER_R <? retries e0); [done|]. intros [= <-]. by apply retransmit_entry_ok, Hm.
  - intros k e. rewrite tick_response_map by done. destruct Hwf as (_ & Hr & _).
    destruct (responses t !! k) as [e0|] eqn:E; [|done]. cbn [mbind option_bind].
    destruct (ae_timeout e0 <=? now); [done|]. intros [= <-]. by apply Hr.
  - destruct Hwf as (Hm & Hr & Hc). unfold tx_to_retransmit.
    set (completed := (filter _ _).*1).
    pose proof (proj2 (foldl_complete completed _ (at_cache t) (retried_ok t now tid Hm) Hc)) as Hc2.
    by destruct (foldl complete _ _) as [map2 cache2].
Qed.

(** ** Sequences of operations *)

Lemma at_empty_wf cap : at_wf (mkAnnounceTable ∅ ∅ (mkAnnounceCache ∅ None cap)).
Proof. split; [apply map_Forall_empty|]. split; [apply map_Forall_empty|]. split; [apply map_Forall_empty|done]. Qed.

Lemma cache_get_ok c d e : cache_ok c -> AnnounceCache_get c d = Some e -> entry_ok d e.
Proof.
  intros [Hn Ho]. unfold AnnounceCache_get. destruct (newer c !! d) eqn:E; [intros [= <-]; by apply Hn|].
  destruct (older c) as [m|] eqn:Em; [|done]. cbn [mbind option_bind]. by apply (Ho m eq_refl).
Qed.

(** [add_response] finds an entry of the destination and queues it. *)
Lemma add_response_spec t now d i h g :
  at_wf t ->
  (exists e, entry_ok d e /\ add_response t now d i h g = (do_add_response t now e d i h g, true)) \/
  add_response t now d i h g = (t, false).
Proof.
  intros (Hm & _ & Hc). unfold add_response.
  destruct (at_map t !! d) as [e|] eqn:E; [left; exists e; split; [by apply Hm|done]|].
  destruct (AnnounceCache_get (at_cache t) d) as [e|] eqn:E'; [|by right].
  left. exists e. split; [by apply (cache_get_ok (at_cache t))|done].
Qed.

Lemma do_add_response_wf t now e d i h g :
  at_wf t -> entry_ok d e -> at_wf (do_add_response t now e d i h g).
Proof.
  intros (Hm & Hr & Hc) (Hd & _). split; [done|]. split; [|done].
  by apply map_Forall_insert_2.
Qed.

Lemma at_op_wf t op t' ms : at_wf t -> at_op t op = Some (t', ms) -> at_wf t'.
Proof.
  intros Hwf Ho. destruct op as [now w p from|now d tid|now tid|tid|now d i h g|i|]; simpl in Ho.
  - unfold AnnounceTable_add in Ho. destruct (rand_window w); [|done]. injection Ho as <- _.
    destruct Hwf as (Hm & Hr & Hc). split; [|done]. apply map_Forall_insert_2; [|done].
    repeat split; try done.
  - unfold new_packet in Ho. destruct (at_map t !! d) as [e|] eqn:E; [|by injection Ho as <- _].
    destruct (_ || _); injection Ho as <- _; [done|]. destruct Hwf as (Hm & Hr & Hc). split; [|done].
    apply map_Forall_insert_2; [|done]. apply entry_ok_set_retries; [by apply Hm|done].
  - injection Ho as Ho. replace t' with (fst (tx_to_retransmit t now tid)) by (by rewrite Ho).
    by apply tick_wf.
  - by injection Ho as <- _.
  - injection Ho as <- _. destruct (add_response_spec t now d i h g Hwf) as [(e & He & ->)| ->]; [|done].
    by apply do_add_response_wf.
  - injection Ho as <- _. destruct Hwf as (Hm & Hr & Hc). split; [done|]. split; [|done].
    intros k e [Hk _]%map_lookup_filter_Some. by apply Hr.
  - injection Ho as <- _. apply at_empty_wf.
Qed.

Lemma at_run_wf t ops t' ms : at_wf t -> at_run t ops = Some (t', ms) -> at_wf t'.
Proof.
  revert t ms. induction ops as [|op ops IH]; intros t ms Hwf Hr; simpl in Hr; [by injection Hr as <- _|].
  destruct (at_op t op) as [[t1 ms1]|] eqn:E; [|done]. cbn [mbind option_bind fst snd] in Hr.
  destruct (at_run t1 ops) as [[t2 ms2]|] eqn:E2; [|done]. injection Hr as <- _.
  eapply IH; [|done]. by eapply at_op_wf.
Qed.

Lemma budget_bound t d : at_wf t -> 0 <= budget t d <= PATHFINDER_R + 1.
Proof.
  intros (Hm & _). unfold budget. destruct (at_map t !! d) as [e|] eqn:E; [|done].
  destruct (Hm d e E) as (_ & _ & ?). lia.
Qed.

(** Rebroadcasts of [d] in one pass over the old announces. *)
Lemma old_pass_broadcasts t tid d m : map_Forall entry_ok m ->
  count (broadcast_of d) (omap (fun e : AddressHash * AnnounceEntry =>
    if response_pending t e.1 then None else Some (always_retransmit e.2 tid)) (btree_iter bytes_le m))
  = if response_pending t d then 0%nat else if decide (is_Some (m !! d)) then 1%nat else 0%nat.
Proof.
  intros Hm. rewrite (count_btree_pass _ _ d).
  - cbn [fst snd]. destruct (m !! d) as [e|]; [|by case_match].
    destruct (response_pending t d); [by rewrite decide_False by (by intros [])|by rewrite !decide_True by (by eexists)].
  - intros k v msg Hk. cbn [fst snd]. destruct (response_pending t k); [done|]. intros [= <-]. by apply announce_message, Hm.
Qed.

Lemma old_broadcasts t tid d : at_wf t ->
  count (broadcast_of d) (tx_to_retransmit_old t tid) = if response_pending t d then 0%nat else cached_copies (at_cache t) d.
Proof.
  intros (_ & _ & Hn & Ho). unfold tx_to_retransmit_old, cached_copies. rewrite count_app, old_pass_broadcasts by done.
  destruct (older (at_cache t)) as [m|]; cbn [from_option mbind option_bind].
  - rewrite old_pass_broadcasts by (by apply Ho). by destruct (response_pending t d).
  - rewrite (decide_False (P := is_Some None)) by (by intros []). unfold count at 1. cbn [List.filter length]. by destruct (response_pending t d).
Qed.

Lemma cached_copies_bound c d : (cached_copies c d <= 2)%nat.
Proof. unfold cached_copies. repeat case_decide; lia. Qed.

Lemma at_op_budget t op t' ms d :
  at_wf t -> ~ adds d op -> at_op t op = Some (t', ms) ->
  Z.of_nat (count (broadcast_of d) ms) + budget t' d <= budget t d + 2 * Z.of_nat (old_ticks [op]).
Proof.
  intros Hwf Hna Ho. pose proof (budget_bound t d Hwf) as Hb.
  destruct op as [now w p from|now d' tid|now tid|tid|now d' i h g|i|]; simpl in Ho, Hna;
    try (change (old_ticks [_]) with 0%nat; rewrite Z.add_0_r).
  - unfold AnnounceTable_add in Ho. destruct (rand_window w); [|done]. injection Ho as <- <-.
    unfold budget. simpl. by rewrite lookup_insert_ne.
  - unfold new_packet in Ho. destruct (at_map t !! d') as [e|] eqn:E; [|by injection Ho as <- <-].
    destruct Hwf as (Hm & _). pose proof (Hm d' e E) as He.
    destruct (_ || _) eqn:Eo; injection Ho as <- <-; [done|]. cbn [option_list].
    apply orb_false_iff in Eo as [_ Eo]. zb. unfold count. cbn [List.filter].
    rewrite (announce_message d') by (by apply entry_ok_set_retries).
    destruct He as (_ & _ & ?). unfold budget. cbn [at_map]. destruct (decide (d' = d)) as [->|Hne].
    + rewrite bool_decide_eq_true_2, lookup_insert_eq, E by done. cbn [length retries set_retries]. lia.
    + rewrite bool_decide_eq_false_2, lookup_insert_ne by done. cbn [length]. lia.
  - injection Ho as Ho. replace ms with (snd (tx_to_retransmit t now tid)) by (by rewrite Ho).
    replace t' with (fst (tx_to_retransmit t now tid)) by (by rewrite Ho).
    rewrite tick_broadcasts by done. unfold budget in *. rewrite tick_map by done.
    destruct (at_map t !! d) as [e|] eqn:E; [|done]. cbn [mbind option_bind].
    destruct (response_pending t d); [simpl; lia|]. cbn [negb andb].
    destruct (Z.ltb_spec PATHFINDER_R (retries e)); [rewrite (proj2 (Z.leb_gt _ _)) by lia; simpl; lia|].
    destruct Hwf as (Hm & _). rewrite (retransmit_announce d) by (by apply Hm).
    destruct (_ && _); cbn [fst retries set_retries]; lia.
  - injection Ho as <- <-. rewrite old_broadcasts by done. pose proof (cached_copies_bound (at_cache t) d). change (old_ticks [_]) with 1%nat.
    destruct (response_pending t d); lia.
  - injection Ho as <- <-. destruct (add_response_spec t now d' i h g Hwf) as [(e & He & ->)| ->]; done.
  - injection Ho as <- <-. done.
  - injection Ho as <- <-. 
    assert (budget (AnnounceTable_clear t) d = 0) as -> by (unfold budget; simpl; by rewrite lookup_empty).
    unfold count. cbn [List.filter length]. lia.
Qed.

Lemma at_run_budget t ops t' ms d :
  at_wf t -> Forall (fun op => ~ adds d op) ops -> at_run t ops = Some (t', ms) ->
  Z.of_nat (count (broadcast_of d) ms) + budget t' d <= budget t d + 2 * Z.of_nat (old_ticks ops).
Proof.
  revert t ms. induction ops as [|op ops IH]; intros t ms Hwf Hna Hr; simpl in Hr.
  { injection Hr as <- <-. unfold count, old_ticks. cbn [List.filter length]. lia. }
  inversion_clear Hna as [|? ? Hop Hops].
  destruct (at_op t op) as [[t1 ms1]|] eqn:E; [|done]. cbn [mbind option_bind fst snd] in Hr.
  destruct (at_run t1 ops) as [[t2 ms2]|] eqn:E2; [|done]. injection Hr as <- <-.
  pose proof (at_op_budget t op t1 ms1 d Hwf Hop E) as H1.
  pose proof (IH t1 ms2 (at_op_wf _ _ _ _ Hwf E) Hops E2) as H2.
  assert (old_ticks (op :: ops) = (old_ticks [op] + old_ticks ops)%nat) as -> by (unfold old_ticks; cbn; by destruct (is_old_tick op)).
  rewrite count_app. lia.
Qed.

(** C30: how often an announce is rebroadcast. In any sequence of table
    operations after some history, as long as no new announce of the destination
    is added, at most [PATHFINDER_R + 1] broadcasts of it are sent, and in each
    pass over the old announces, which the retransmission timer makes when it is
    configured to, one for each half of the cache that holds it, so at most two:
    there is no bound that does not count those passes.  A pass over the old
    announces sends exactly as many as there are copies, and a tick at or after
    the due time of an entry with retries left exactly one, unless a path
    response is pending for the destination. *)
Theorem AnnounceTable_rebroadcast_bound (history ops : list AnnounceOp) (t t' : AnnounceTable)
    (sent0 sent : list TxMessage) (d : AddressHash)
    (Hh : at_run AnnounceTable_new history = Some (t, sent0))
    (Hr : at_run t ops = Some (t', sent))
    (Hna : Forall (fun op => ~ adds d op) ops) :
  Z.of_nat (count (broadcast_of d) sent) <= PATHFINDER_R + 1 + 2 * Z.of_nat (old_ticks ops) /\
  (response_pending t d = false -> forall tid,
     count (broadcast_of d) (tx_to_retransmit_old t tid) = cached_copies (at_cache t) d /\
     forall e now, at_map t !! d = Some e -> retries e <= PATHFINDER_R -> ae_timeout e <= now ->
       count (broadcast_of d) (snd (tx_to_retransmit t now tid)) = 1%nat).
Proof.
  assert (at_wf t) as Hwf by (by eapply at_run_wf; [apply at_empty_wf|]). split.
  - pose proof (at_run_budget t ops t' sent d Hwf Hna Hr).
    pose proof (budget_bound t d Hwf).
    pose proof (budget_bound t' d (at_run_wf _ _ _ _ Hwf Hr)). lia.
  - intros Hp tid. split; [by rewrite old_broadcasts, Hp|]. intros e now He Hre Ht. rewrite tick_broadcasts, He, Hp by done. cbn [negb andb].
    by rewrite (proj2 (Z.leb_le _ _) Hre), (proj2 (Z.leb_le _ _) Ht).
Qed.

(** Two rebroadcasts, the move to the cache, and a third in a pass over it. *)
Definition sample_ops : list AnnounceOp :=
  [AtNewPacket 1 (replicate 16 7) [2]; AtTick 20000000000 [2]; AtTick 90000000000 [2]; AtTickOld [2]].

Lemma AnnounceTable_rebroadcast_bound_witness :
  exists t sent0 t' sent,
    at_run AnnounceTable_new [AtAdd 0 0 sample_packet [1]] = Some (t, sent0) /\
    at_run t sample_ops = Some (t', sent) /\
    count (broadcast_of (replicate 16 7)) sent = 3%nat /\
    Z.of_nat (count (broadcast_of (replicate 16 7)) sent) <= PATHFINDER_R + 1 + 2 * Z.of_nat (old_ticks sample_ops).
Proof.
  destruct (at_run AnnounceTable_new [AtAdd 0 0 sample_packet [1]]) as [[t sent0]|] eqn:Eh;
    [|vm_compute in Eh; discriminate Eh].
  destruct (at_run t sample_ops) as [[t' sent]|] eqn:Er.
  2:{ vm_compute in Eh. injection Eh as <- _. vm_compute in Er. discriminate Er. }
  exists t, sent0, t', sent. split; [reflexivity|]. split; [exact Er|]. split.
  - vm_compute in Eh. injection Eh as <- _. vm_compute in Er. injection Er as _ <-. reflexivity.
  - refine (proj1 (AnnounceTable_rebroadcast_bound _ _ t t' sent0 sent (replicate 16 7) Eh Er _)).
    repeat apply Forall_cons; try apply Forall_nil; intros [].
Defined.

(** ** Path responses *)

Definition tick_op (x : Z * AddressHash) : AnnounceOp := AtTick x.1 x.2.

Lemma ticks_response t k ticks :
  at_wf t ->
  exists t' sent, at_run t (map tick_op ticks) = Some (t', sent) /\
    count (response_of k) sent =
      match responses t !! k with
      | Some e => if existsb (fun x => ae_timeout e <=? x.1) ticks then 1%nat else 0%nat
      | None => 0%nat
      end.
Proof.
  revert t. induction ticks as [|[now tid] ticks IH]; intros t Hwf.
  { exists t, []. split; [done|]. by destruct (responses t !! k). }
  cbn [map at_run tick_op at_op mbind option_bind fst snd].
  destruct (IH (fst (tx_to_retransmit t now tid)) (tick_wf t now tid Hwf)) as (t' & sent & -> & Hc).
  eexists _, _. split; [done|]. cbn [snd]. rewrite count_app, tick_responses, Hc by done.
  rewrite tick_response_map by done. destruct (responses t !! k) as [e|]; [|done].
  cbn [mbind option_bind existsb fst]. by destruct (ae_timeout e <=? now).
Qed.

Lemma pending_spec t d : response_pending t d = true <-> exists i e, responses t !! (d, i) = Some e.
Proof.
  unfold response_pending. rewrite existsb_exists. split.
  - intros ([d' i] & Hin & Hd). apply bool_decide_eq_true_1 in Hd. simpl in Hd. subst d'.
    apply list_elem_of_In, list_elem_of_fmap in Hin as ([k e] & Ek & Hin).
    simpl in Ek. subst k. exists i, e. by apply elem_of_btree_iter in Hin.
  - intros (i & e & Hk). exists (d, i). split; [|by apply bool_decide_eq_true_2].
    apply list_elem_of_In, list_elem_of_fmap. exists ((d, i), e). split; [done|].
    by apply elem_of_btree_iter.
Qed.

Lemma ticks_quiet t d i e ticks :
  at_wf t -> responses t !! (d, i) = Some e -> Forall (fun x => x.1 < ae_timeout e) ticks ->
  exists t' sent, at_run t (map tick_op ticks) = Some (t', sent) /\ count (broadcast_of d) sent = 0%nat.
Proof.
  intros Hwf Hk Hticks. revert t Hwf Hk. induction Hticks as [|[now tid] ticks Hn _ IH]; intros t Hwf Hk.
  { by exists t, []. }
  cbn [map at_run tick_op at_op mbind option_bind fst snd] in *.
  destruct (IH (fst (tx_to_retransmit t now tid)) (tick_wf t now tid Hwf)) as (t' & sent & -> & Hc).
  { rewrite tick_response_map, Hk by done. cbn [mbind option_bind].
    by rewrite (proj2 (Z.leb_gt _ _) Hn). }
  eexists _, _. split; [done|]. cbn [snd]. rewrite count_app, tick_broadcasts, Hc by done.
  rewrite (proj2 (pending_spec t d)) by eauto. by destruct (at_map t !! d).
Qed.

(** a path response is sent exactly once, after its grace period. When
    [add_response] accepts a request at [now], then over any sequence of ticks
    the response to that interface is sent once if a tick falls at or after
    [now + grace] and not at all otherwise, and until then no broadcast of the
    destination is sent. *)
Theorem AnnounceTable_response_once (history : list AnnounceOp) (t t1 : AnnounceTable)
    (sent0 : list TxMessage) (now h g : Z) (d i : AddressHash) (ticks : list (Z * AddressHash))
    (Hh : at_run AnnounceTable_new history = Some (t, sent0))
    (Ha : add_response t now d i h g = (t1, true)) :
  (exists t2 sent, at_run t1 (map tick_op ticks) = Some (t2, sent) /\
     count (response_of (d, i)) sent = if existsb (fun x => now + g <=? x.1) ticks then 1%nat else 0%nat) /\
  (Forall (fun x => x.1 < now + g) ticks ->
     exists t2 sent, at_run t1 (map tick_op ticks) = Some (t2, sent) /\
       count (broadcast_of d) sent = 0%nat).
Proof.
  assert (at_wf t) as Hwf by (by eapply at_run_wf; [apply at_empty_wf|]).
  destruct (add_response_spec t now d i h g Hwf) as [(e & He & E)|E]; [|congruence].
  rewrite E in Ha. injection Ha as <-.
  assert (at_wf (do_add_response t now e d i h g)) as Hwf1 by (by apply do_add_response_wf).
  set (e1 := mkAnnounceEntry (ae_packet e) (now + g) (received_from e) 1 h (Some i)).
  assert (responses (do_add_response t now e d i h g) !! (d, i) = Some e1) as Hk
    by (unfold do_add_response; cbn [responses]; by rewrite lookup_insert_eq).
  split.
  - destruct (ticks_response _ (d, i) ticks Hwf1) as (t2 & sent & Er & Hc).
    exists t2, sent. split; [done|]. rewrite Hc, Hk. done.
  - intros Hq. by apply (ticks_quiet _ d i e1).
Qed.

Lemma AnnounceTable_response_once_witness :
  exists t sent0 t1,
    at_run AnnounceTable_new [AtAdd 0 0 sample_packet [1]] = Some (t, sent0) /\
    add_response t 10 (replicate 16 7) [5] 4 100 = (t1, true) /\
    exists t2 sent, at_run t1 (map tick_op [(50, [2]); (110, [2]); (120, [2])]) = Some (t2, sent) /\
      count (response_of (replicate 16 7, [5])) sent = 1%nat.
Proof.
  destruct (at_run AnnounceTable_new [AtAdd 0 0 sample_packet [1]]) as [[t sent0]|] eqn:Eh;
    [|vm_compute in Eh; discriminate Eh].
  destruct (add_response t 10 (replicate 16 7) [5] 4 100) as [t1 ok] eqn:Ea.
  assert (ok = true) as ->.
  { vm_compute in Eh. injection Eh as <- _. vm_compute in Ea. injection Ea as _ <-. reflexivity. }
  exists t, sent0, t1. split; [reflexivity|]. split; [exact Ea|].
  exact (proj1 (AnnounceTable_response_once [AtAdd 0 0 sample_packet [1]] t t1 sent0 10 4 100
                  (replicate 16 7) [5] [(50, [2]); (110, [2]); (120, [2])] Eh Ea)).
Defined.
