(* ===== verification/AnnounceLimits.v ===== *)
(** * Announce rate limits ([src/src/transport/announce_limits.rs])

    Per destination: a violation counter, the time of the last announce and
    the end of a block.  [now] is the monotonic clock in nanoseconds; [unix]
    is the wall clock reading stored with the announce. *)

From S2P Require Import Prelude Float Hash.

Definition MAX_RATE_TIMESTAMPS : nat := 16.

Record AnnounceRateLimit := mkRateLimit {
  target : Z;
  grace : Z;
  penalty : option Z;
}.

Definition AnnounceRateLimit_default : AnnounceRateLimit :=
  mkRateLimit (3600 * NANOS) 10 (Some (7200 * NANOS)).

Record AnnounceLimitEntry := mkLimitEntry {
  rate_limit : option AnnounceRateLimit;
  violations : Z;
  last_announce : Z;
  blocked_until : Z;
  timestamps : list f64;
}.

Definition LimitEntry_new (limit : option AnnounceRateLimit) (now : Z) (unix : f64) : AnnounceLimitEntry :=
  mkLimitEntry limit 0 now now [unix].

(** [record_announce_time]: push, then drop from the front down to the
    maximum. *)
Definition record_time (ts : list f64) (unix : f64) : list f64 :=
  let ts1 := ts ++ [unix] in drop (length ts1 - MAX_RATE_TIMESTAMPS) ts1.

(** The block end and violation count after the limit was applied, and whether
    the announce is blocked. *)
Definition apply_limit (e : AnnounceLimitEntry) (limit : AnnounceRateLimit) (now : Z) : Z * Z * bool :=
  if now <? blocked_until e then
    (violations e, now + target limit + default 0 (penalty limit), true)
  else if now <? last_announce e + target limit then
    let v := u32_add (violations e) 1 in
    if grace limit <? v then (0, now + target limit, true)
    else (v, blocked_until e, false)
  else (violations e, blocked_until e, false).

Definition handle_announce (e : AnnounceLimitEntry) (now : Z) (unix : f64)
    : AnnounceLimitEntry * option Z :=
  let '(v, blocked, is_blocked) :=
    match rate_limit e with
    | Some limit => apply_limit e limit now
    | None => (violations e, blocked_until e, false)
    end in
  (mkLimitEntry (rate_limit e) v now blocked (record_time (timestamps e) unix),
   if is_blocked then Some (blocked - now) else None).

Abbreviation AnnounceLimits := (gmap (list Z) AnnounceLimitEntry) (only parsing).

Definition AnnounceLimits_new : AnnounceLimits := ∅.

Definition AnnounceLimits_apply (l : AnnounceLimits) (dest : AddressHash)
    (limit : option AnnounceRateLimit) (now : Z) (unix : f64) : AnnounceLimits * option Z :=
  match l !! dest with
  | Some e =>
      let e1 := mkLimitEntry limit (violations e) (last_announce e) (blocked_until e) (timestamps e) in
      let '(e2, r) := handle_announce e1 now unix in
      (<[dest := e2]> l, r)
  | None => (<[dest := LimitEntry_new limit now unix]> l, None)
  end.

Definition AnnounceLimits_check (l : AnnounceLimits) (dest : AddressHash) (now : Z) (unix : f64)
    : AnnounceLimits * option Z := AnnounceLimits_apply l dest None now unix.

Definition AnnounceLimits_check_limited (l : AnnounceLimits) (dest : AddressHash)
    (limit : AnnounceRateLimit) (now : Z) (unix : f64) : AnnounceLimits * option Z :=
  AnnounceLimits_apply l dest (Some limit) now unix.

Definition AnnounceLimits_snapshot (l : AnnounceLimits) (now : Z)
    : list (AddressHash * Z * option Z * Z * list f64) :=
  map (fun e : AddressHash * AnnounceLimitEntry =>
         (e.1, violations e.2,
          if now <? blocked_until e.2 then Some (Z.max 0 (blocked_until e.2 - now)) else None,
          Z.max 0 (now - last_announce e.2), timestamps e.2))
    (btree_iter bytes_le l).

(** A sequence of announces of one destination under one limit, with the
    answers. *)
Fixpoint flood (l : AnnounceLimits) (dest : AddressHash) (limit : AnnounceRateLimit)
    (times : list (Z * f64)) : AnnounceLimits * list (option Z) :=
  match times with
  | [] => (l, [])
  | (now, unix) :: times' =>
      let '(l1, r) := AnnounceLimits_check_limited l dest limit now unix in
      let '(l2, rs) := flood l1 dest limit times' in
      (l2, r :: rs)
  end.

(** Announce times, each less than [gap] after the one before. *)
Fixpoint faster_than (gap last : Z) (times : list (Z * f64)) : Prop :=
  match times with
  | [] => True
  | (now, _) :: times' => last <= now < last + gap /\ faster_than gap now times'
  end.

(** What a destination that floods is told: [grace] more announces pass, the
    next is blocked for [target], all later ones for [target + penalty]. *)
Fixpoint flood_answers (limit : AnnounceRateLimit) (v : Z) (n : nat) : list (option Z) :=
  match n with
  | O => []
  | S n' =>
      if grace limit <? v + 1
      then Some (target limit) :: replicate n' (Some (target limit + default 0 (penalty limit)))
      else None :: flood_answers limit (v + 1) n'
  end.

Definition limit_ok (limit : AnnounceRateLimit) : Prop :=
  0 < target limit /\ 0 <= grace limit < 2 ^ 32 - 1 /\ 0 <= default 0 (penalty limit).

(** ** Lemmas *)

Lemma check_limited_known l dest limit e now unix :
  l !! dest = Some e ->
  AnnounceLimits_check_limited l dest limit now unix =
    let '(v, blocked, b) := apply_limit e limit now in
    (<[dest := mkLimitEntry (Some limit) v now blocked (record_time (timestamps e) unix)]> l,
     if b then Some (blocked - now) else None).
Proof.
  intros He. unfold AnnounceLimits_check_limited, AnnounceLimits_apply. rewrite He.
  unfold handle_announce. cbn [rate_limit]. change (apply_limit (mkLimitEntry _ _ _ _ _) limit now)
    with (apply_limit e limit now). by destruct (apply_limit e limit now) as [[v b] bl].
Qed.

Lemma record_time_length ts unix : (length (record_time ts unix) <= MAX_RATE_TIMESTAMPS)%nat.
Proof. unfold record_time. rewrite length_drop. lia. Qed.

(** Once blocked, a flooding destination stays blocked. *)
Lemma flood_blocked l dest limit e times :
  limit_ok limit -> l !! dest = Some e -> last_announce e + target limit <= blocked_until e ->
  faster_than (target limit) (last_announce e) times ->
  snd (flood l dest limit times) =
    replicate (length times) (Some (target limit + default 0 (penalty limit))).
Proof.
  intros Hok. revert l e. induction times as [|[now unix] times IH]; intros l e He Hb Hf; [done|].
  cbn [flood faster_than] in *. destruct Hf as [Hn Hf].
  rewrite (check_limited_known l dest limit e) by done. unfold apply_limit.
  rewrite (proj2 (Z.ltb_lt now (blocked_until e))) by lia.
  set (e1 := mkLimitEntry _ _ _ _ _). specialize (IH (<[dest := e1]> l) e1).
  destruct (flood (<[dest := e1]> l) dest limit times) as [l2 rs] eqn:Ef. cbn [snd] in *.
  rewrite IH; [|by rewrite lookup_insert_eq| |done].
  - cbn [length replicate]. f_equal. f_equal. lia.
  - cbn [blocked_until last_announce e1]. destruct Hok as (_ & _ & ?). lia.
Qed.

Lemma flood_spec l dest limit e times :
  limit_ok limit -> l !! dest = Some e -> 0 <= violations e <= grace limit ->
  blocked_until e <= last_announce e -> faster_than (target limit) (last_announce e) times ->
  snd (flood l dest limit times) = flood_answers limit (violations e) (length times).
Proof.
  intros Hok. revert l e. induction times as [|[now unix] times IH]; intros l e He Hv Hb Hf; [done|].
  cbn [flood faster_than] in *. destruct Hf as [Hn Hf].
  rewrite (check_limited_known l dest limit e) by done. unfold apply_limit.
  rewrite (proj2 (Z.ltb_ge now (blocked_until e))) by lia.
  rewrite (proj2 (Z.ltb_lt now (last_announce e + target limit))) by lia.
  assert (u32_add (violations e) 1 = violations e + 1) as ->.
  { unfold u32_add, wrap. destruct Hok as (_ & ? & _). apply Z.mod_small. lia. }
  cbn [length flood_answers]. destruct (grace limit <? violations e + 1) eqn:Eg; zb.
  - set (e1 := mkLimitEntry _ _ _ _ _).
    pose proof (flood_blocked (<[dest := e1]> l) dest limit e1 times Hok) as Hbl.
    destruct (flood (<[dest := e1]> l) dest limit times) as [l2 rs]. cbn [snd] in *.
    rewrite Hbl; [|by rewrite lookup_insert_eq|cbn; lia|done]. f_equal. f_equal. lia.
  - set (e1 := mkLimitEntry _ _ _ _ _). specialize (IH (<[dest := e1]> l) e1).
    destruct (flood (<[dest := e1]> l) dest limit times) as [l2 rs]. cbn [snd] in *.
    rewrite IH; [done|by rewrite lookup_insert_eq|cbn; lia|cbn; lia|done].
Qed.

(** what a flooding destination gets. If a destination not known before
    announces at [start] and then always less than [target] after the announce
    before, the first announce and the next [grace] pass, the following one is
    blocked for [target], and every further one is blocked for [target] plus
    the penalty, for as long as the flood goes on. *)
Theorem AnnounceLimits_flood (l : AnnounceLimits) (dest : AddressHash) (limit : AnnounceRateLimit)
    (start : Z) (unix : f64) (times : list (Z * f64))
    (Hok : limit_ok limit) (Hnew : l !! dest = None)
    (Hfast : faster_than (target limit) start times) :
  snd (flood l dest limit ((start, unix) :: times)) = None :: flood_answers limit 0 (length times).
Proof.
  cbn [flood]. unfold AnnounceLimits_check_limited, AnnounceLimits_apply. rewrite Hnew.
  set (e := LimitEntry_new (Some limit) start unix).
  pose proof (flood_spec (<[dest := e]> l) dest limit e times Hok) as Hs.
  destruct (flood (<[dest := e]> l) dest limit times) as [l2 rs]. cbn [snd] in *. f_equal.
  rewrite Hs; [done|by rewrite lookup_insert_eq|cbn; destruct Hok; lia|done|done].
Qed.

Lemma AnnounceLimits_flood_witness :
  snd (flood ∅ [1] (mkRateLimit 100 2 (Some 50))
         [(0, f64_of_Z 0); (10, f64_of_Z 0); (20, f64_of_Z 0); (30, f64_of_Z 0); (40, f64_of_Z 0)]) =
    [None; None; None; Some 100; Some 150].
Proof.
  refine (AnnounceLimits_flood ∅ [1] (mkRateLimit 100 2 (Some 50)) 0 (f64_of_Z 0)
            [(10, f64_of_Z 0); (20, f64_of_Z 0); (30, f64_of_Z 0); (40, f64_of_Z 0)] _ _ _).
  - repeat split; simpl; lia.
  - reflexivity.
  - repeat split; simpl; lia.
Defined.
