(* ===== verification/PathTable.v ===== *)
(** * Path table ([src/src/transport/path_table.rs])

    Routes learned from announces: replacement rules, expiry, and the
    rewriting of forwarded packets.  [now] is the monotonic clock in
    nanoseconds, [unix] the wall clock in seconds.  [InterfaceMode] and
    [announce_emitted] are in [src/src/iface/control.rs]. *)

From S2P Require Import Prelude Float Hash Packet.

Definition SECS : Z := NANOS.
Definition PATHFINDER_E : Z := 60 * 60 * 24 * 7 * SECS.
Definition AP_PATH_TIME : Z := 60 * 60 * 24 * SECS.
Definition ROAMING_PATH_TIME : Z := 60 * 60 * 6 * SECS.
Definition RANDOM_BLOB_LEN : nat := 10.
Definition MAX_RANDOM_BLOBS : nat := 64.
(** Two public keys of 32 bytes and a name hash of 10. *)
Definition RANDOM_BLOB_OFFSET : nat := 32 * 2 + 10.

Inductive InterfaceMode :=
| Full | PointToPoint | AccessPoint | Roaming | Boundary | Gateway | Internal.

Record PathEntry := mkPathEntry {
  pe_received_from : AddressHash;
  pe_hops : Z;
  pe_iface : AddressHash;
  timestamp : Z;
  unresponsive : bool;
  pe_packet_hash : Hash;
  mode : InterfaceMode;
  expires_unix : f64;
  random_blobs : list bytes;
  gravity : option Z;
}.

Definition timebase_from_random_blob (random_blob : bytes) : Z :=
  if (length random_blob <? RANDOM_BLOB_LEN)%nat then 0
  else be_decode (slice 5 RANDOM_BLOB_LEN random_blob).

Definition timebase_from_random_blobs (random_blobs : list bytes) : Z :=
  foldr (fun b acc => Z.max (timebase_from_random_blob b) acc) 0 random_blobs.

Definition path_lifetime (m : InterfaceMode) : Z :=
  match m with
  | AccessPoint => AP_PATH_TIME
  | Roaming => ROAMING_PATH_TIME
  | _ => PATHFINDER_E
  end.

Definition path_expires_unix (m : InterfaceMode) (unix : f64) : f64 :=
  f64_add unix (f64_of_Z (path_lifetime m / SECS)).

Definition I64_MAX : Z := 2 ^ 63 - 1.
Definition I64_MIN : Z := - 2 ^ 63.
Definition i64_saturating_sub (a b : Z) : Z := Z.max I64_MIN (Z.min I64_MAX (a - b)).

Definition monotonic_ns (now : Z) : Z := Z.min now I64_MAX.

Definition path_age (now timestamp_ns : Z) : Z :=
  let delta := i64_saturating_sub (monotonic_ns now) timestamp_ns in
  if delta <=? 0 then 0 else delta.

(** [announce_emitted] of [control.rs]. *)
Definition announce_emitted (packet : Packet) : Z :=
  let dat := payload packet in
  let start := (RANDOM_BLOB_OFFSET + 5)%nat in
  if (start + 5 <=? length dat)%nat then be_decode (slice start (start + 5) dat) else 0.

Definition announce_random_blob (packet : Packet) : option bytes :=
  let dat := payload packet in
  let end_ := (RANDOM_BLOB_OFFSET + RANDOM_BLOB_LEN)%nat in
  if (length dat <? end_)%nat then None else Some (slice RANDOM_BLOB_OFFSET end_ dat).

Definition remember_blob (blobs : list bytes) (blob : option bytes) : list bytes :=
  match blob with
  | None => blobs
  | Some blob =>
      if decide (blob ∈ blobs) then blobs
      else let blobs1 := blobs ++ [blob] in
           if (MAX_RANDOM_BLOBS <? length blobs1)%nat
           then drop (length blobs1 - MAX_RANDOM_BLOBS) blobs1 else blobs1
  end.

Record PathTable := mkPathTable {
  pt_map : gmap AddressHash PathEntry;
  reroute_eager : bool;
}.

Definition PathTable_new (eager : bool) : PathTable := mkPathTable ∅ eager.

Definition with_map (t : PathTable) (m : gmap AddressHash PathEntry) : PathTable :=
  mkPathTable m (reroute_eager t).

(** [HashMap::retain] with the number of removed entries. *)
Definition retain (t : PathTable) (P : PathEntry -> bool) : PathTable * nat :=
  let m := filter (fun e : AddressHash * PathEntry => P e.2 = true) (pt_map t) in
  (with_map t m, (size (pt_map t) - size m)%nat).

(** [get_mut] followed by an update of the entry. *)
Definition update_entry (t : PathTable) (dest : AddressHash) (f : PathEntry -> PathEntry)
    : PathTable * bool :=
  match pt_map t !! dest with
  | Some e => (with_map t (<[dest := f e]> (pt_map t)), true)
  | None => (t, false)
  end.

Definition set_timestamp (ts : Z) (e : PathEntry) : PathEntry :=
  mkPathEntry (pe_received_from e) (pe_hops e) (pe_iface e) ts (unresponsive e) (pe_packet_hash e)
    (mode e) (expires_unix e) (random_blobs e) (gravity e).
Definition set_unresponsive (b : bool) (e : PathEntry) : PathEntry :=
  mkPathEntry (pe_received_from e) (pe_hops e) (pe_iface e) (timestamp e) b (pe_packet_hash e)
    (mode e) (expires_unix e) (random_blobs e) (gravity e).
Definition set_hops (h : Z) (e : PathEntry) : PathEntry :=
  mkPathEntry (pe_received_from e) h (pe_iface e) (timestamp e) (unresponsive e) (pe_packet_hash e)
    (mode e) (expires_unix e) (random_blobs e) (gravity e).

Definition expire_paths (t : PathTable) (now : Z) : PathTable * nat :=
  retain t (fun e => path_age now (timestamp e) <? path_lifetime (mode e)).

Definition mark_path_unresponsive (t : PathTable) (dest : AddressHash) : PathTable * bool :=
  update_entry t dest (set_unresponsive true).
Definition mark_path_responsive (t : PathTable) (dest : AddressHash) : PathTable * bool :=
  update_entry t dest (set_unresponsive false).
Definition path_is_unresponsive (t : PathTable) (dest : AddressHash) : bool :=
  default false (unresponsive <$> pt_map t !! dest).

Definition drop_path (t : PathTable) (dest : AddressHash) : PathTable * bool :=
  (with_map t (delete dest (pt_map t)), bool_decide (is_Some (pt_map t !! dest))).
Definition drop_all_via (t : PathTable) (iface : AddressHash) : PathTable * nat :=
  retain t (fun e => negb (bool_decide (pe_iface e = iface))).
Definition drop_ifaces_not_in (t : PathTable) (live : list AddressHash) : PathTable * nat :=
  retain t (fun e => bool_decide (pe_iface e ∈ live)).
Definition PathTable_clear (t : PathTable) : PathTable := with_map t ∅.
Definition PathTable_restore (t : PathTable) (dest : AddressHash) (e : PathEntry) : PathTable :=
  with_map t (<[dest := e]> (pt_map t)).
Definition PathTable_get (t : PathTable) (dest : AddressHash) : option PathEntry := pt_map t !! dest.
Definition PathTable_contains (t : PathTable) (dest : AddressHash) : bool :=
  bool_decide (is_Some (pt_map t !! dest)).

Definition expire_path (t : PathTable) (now : Z) (dest : AddressHash) : PathTable * bool :=
  update_entry t dest (fun e =>
    let life_ns := Z.min (path_lifetime (mode e)) I64_MAX in
    set_timestamp (i64_saturating_sub (i64_saturating_sub (monotonic_ns now) life_ns) 1) e).

Definition insert_restored (t : PathTable) (now : Z) (unix : f64) (dest from : AddressHash) (h : Z)
    (iface : AddressHash) (packet_hash : Hash) : PathTable :=
  with_map t (<[dest := mkPathEntry from h iface (monotonic_ns now) false packet_hash Full
                          (path_expires_unix Full unix) [] None]> (pt_map t)).

Definition next_hop_full (t : PathTable) (dest : AddressHash) : option (AddressHash * AddressHash) :=
  (fun e => (pe_received_from e, pe_iface e)) <$> pt_map t !! dest.

Definition should_replace_path (t : PathTable) (existing : PathEntry) (h : Z) (new_blob : option bytes)
    (emitted : Z) (grav : option Z) : bool :=
  if pe_hops existing <? h then false
  else if h <? pe_hops existing then true
  else
    let path_timebase := timebase_from_random_blobs (random_blobs existing) in
    let newer := match new_blob with
                 | Some blob => bool_decide (blob ∉ random_blobs existing) && (path_timebase <? emitted)
                 | None => false
                 end in
    let heavier := match new_blob, grav, gravity existing with
                   | Some _, Some g, Some g0 => (emitted =? path_timebase) && (g0 <? g)
                   | _, _, _ => false
                   end in
    newer || heavier || unresponsive existing || reroute_eager t.

Section Announces.
Context `{Sha256}.

Definition handle_announce_with_mode (t : PathTable) (now : Z) (unix : f64) (announce : Packet)
    (transport_id : option AddressHash) (iface : AddressHash) (m : InterfaceMode) (grav : option Z)
    : PathTable :=
  let h := u8_add (hops (header announce)) 1 in
  let new_blob := announce_random_blob announce in
  let emitted := announce_emitted announce in
  let insert blobs :=
    with_map t (<[destination announce :=
      mkPathEntry (default (destination announce) transport_id) h iface (monotonic_ns now) false
        (Packet_hash announce) m (path_expires_unix m unix) (remember_blob blobs new_blob) grav]>
      (pt_map t)) in
  match pt_map t !! destination announce with
  | Some existing =>
      if should_replace_path t existing h new_blob emitted grav then insert (random_blobs existing) else t
  | None => insert []
  end.

End Announces.

Definition touch (t : PathTable) (now : Z) (dest : AddressHash) : PathTable :=
  fst (update_entry t dest (set_timestamp (monotonic_ns now))).

Definition handle_inbound_packet (t : PathTable) (now : Z) (p : Packet) (lookup : option AddressHash)
    : PathTable * (Packet * option AddressHash) :=
  let key := default (destination p) lookup in
  match pt_map t !! key with
  | None => (t, (p, None))
  | Some e =>
      let last_hop := pe_hops e <=? 1 in
      let hd := header p in
      (touch t now key,
       (mkPacket
          (mkHeader Open (context_flag hd) (if last_hop then Type1 else Type2)
             (if last_hop then Broadcast else Transport) (destination_type hd) (packet_type hd)
             (u8_add (hops hd) 1))
          None (destination p) (if last_hop then None else Some (pe_received_from e)) (context p) (data p),
        Some (pe_iface e)))
  end.

Definition rebalance_hops (t : PathTable) (dest : AddressHash) (h : Z) : PathTable * bool :=
  update_entry t dest (set_hops h).

Definition handle_local_packet (t : PathTable) (now : Z) (p : Packet)
    : PathTable * (Packet * option AddressHash) :=
  match pt_map t !! destination p with
  | None => (t, (p, None))
  | Some e =>
      let t1 := touch t now (destination p) in
      if pe_hops e <=? 1 then (t1, (p, Some (pe_iface e)))
      else
        let hd := header p in
        (t1,
         (mkPacket
            (mkHeader Open (context_flag hd) Type2 Transport (destination_type hd) (packet_type hd)
               (hops hd))
            None (destination p) (Some (pe_received_from e)) (context p) (data p),
          Some (pe_iface e)))
  end.

Definition PathTable_handle_packet (t : PathTable) (p : Packet) : Packet * option AddressHash :=
  let hd := header p in
  if bool_decide (header_type hd = Type2) then (p, None)
  else if bool_decide (packet_type hd = Announce) then (p, None)
  else if bool_decide (destination_type hd = Plain) || bool_decide (destination_type hd = Group)
  then (p, None)
  else
    match pt_map t !! destination p with
    | None => (p, None)
    | Some e =>
        if pe_hops e <=? 1 then (p, Some (pe_iface e))
        else
          (mkPacket
             (mkHeader (ifac_flag hd) (context_flag hd) Type2 (propagation_type hd) (destination_type hd)
                (packet_type hd) (hops hd))
             (ifac p) (destination p) (Some (pe_received_from e)) (context p) (data p),
           Some (pe_iface e))
    end.

(** ** Announces in sequence *)
Record Learned := mkLearned {
  l_now : Z;
  l_unix : f64;
  l_announce : Packet;
  l_transport_id : option AddressHash;
  l_iface : AddressHash;
  l_mode : InterfaceMode;
  l_gravity : option Z;
}.

Definition learn `{Sha256} (t : PathTable) (a : Learned) : PathTable :=
  handle_announce_with_mode t (l_now a) (l_unix a) (l_announce a) (l_transport_id a) (l_iface a)
    (l_mode a) (l_gravity a).

Definition announced_hops (a : Learned) : Z := u8_add (hops (header (l_announce a))) 1.

Definition better (best : option Z) (h : Z) : option Z :=
  Some (match best with Some b => Z.min b h | None => h end).

(** The fewest hops announced for [d]. *)
Definition best_hops (d : AddressHash) (best : option Z) (anns : list Learned) : option Z :=
  foldl (fun best a => if decide (destination (l_announce a) = d) then better best (announced_hops a)
                       else best) best anns.

(** Fewer hops, or as many with an unknown blob and a newer emission time. *)
Definition improves (e : PathEntry) (a : Learned) : bool :=
  (announced_hops a <? pe_hops e) ||
  ((announced_hops a =? pe_hops e) &&
   match announce_random_blob (l_announce a) with
   | Some b => bool_decide (b ∉ random_blobs e)
               && (timebase_from_random_blobs (random_blobs e) <? announce_emitted (l_announce a))
   | None => false
   end).

(** The entry an accepted announce makes. *)
Definition learned_entry `{Sha256} (e : PathEntry) (a : Learned) : PathEntry :=
  mkPathEntry (default (destination (l_announce a)) (l_transport_id a)) (announced_hops a) (l_iface a)
    (monotonic_ns (l_now a)) false (Packet_hash (l_announce a)) (l_mode a)
    (path_expires_unix (l_mode a) (l_unix a))
    (remember_blob (random_blobs e) (announce_random_blob (l_announce a))) (l_gravity a).

(** ** A line of transport nodes towards [d]: each knows the way to the next *)
Fixpoint route (d : AddressHash) (nodes : list (AddressHash * PathTable)) : Prop :=
  match nodes with
  | [] => True
  | (_, t) :: rest =>
      (exists e, pt_map t !! d = Some e /\ pe_hops e = Z.of_nat (length rest) + 1 /\
         match rest with (next, _) :: _ => pe_received_from e = next | [] => True end) /\
      route d rest
  end.

(** The packets the relays receive, and what the last one sends. *)
Fixpoint relay_all (now : Z) (relays : list (AddressHash * PathTable)) (p : Packet)
    : list Packet * Packet :=
  match relays with
  | [] => ([], p)
  | (_, t) :: rest =>
      let '(seen, final) := relay_all now rest (fst (snd (handle_inbound_packet t now p None))) in
      (p :: seen, final)
  end.

(** ** Replacement rules *)

Lemma should_replace_hops t e h blob emitted g :
  should_replace_path t e h blob emitted g = true -> h <= pe_hops e.
Proof. unfold should_replace_path. destruct (Z.ltb_spec (pe_hops e) h); [done|lia]. Qed.

Lemma should_replace_fewer t e h blob emitted g :
  h < pe_hops e -> should_replace_path t e h blob emitted g = true.
Proof.
  intros Hh. unfold should_replace_path. destruct (Z.ltb_spec (pe_hops e) h); [lia|].
  by destruct (Z.ltb_spec h (pe_hops e)); [|lia].
Qed.

Section AnnounceLemmas.
Context `{Sha256}.

Lemma learn_hops t a d :
  pe_hops <$> pt_map (learn t a) !! d =
    if decide (destination (l_announce a) = d)
    then better (pe_hops <$> pt_map t !! d) (announced_hops a) else pe_hops <$> pt_map t !! d.
Proof.
  unfold learn, handle_announce_with_mode. destruct (decide (destination (l_announce a) = d)) as [<-|Hne].
  - destruct (pt_map t !! destination (l_announce a)) as [e|] eqn:E; cbn [pt_map with_map].
    + cbn [fmap option_fmap option_map better].
      destruct (should_replace_path _ _ _ _ _ _) eqn:Hs; cbn [pt_map with_map].
      * apply should_replace_hops in Hs. rewrite lookup_insert_eq. cbn [fmap option_fmap option_map pe_hops].
        unfold better, announced_hops. f_equal. lia.
      * rewrite E. cbn [fmap option_fmap option_map]. unfold better. f_equal. destruct (Z_lt_le_dec (announced_hops a) (pe_hops e)) as [Hlt|Hge]; [|lia].
        by rewrite (should_replace_fewer _ _ _ _ _ _ Hlt) in Hs.
    + by rewrite lookup_insert_eq.
  - destruct (pt_map t !! destination (l_announce a)); [destruct (should_replace_path _ _ _ _ _ _); [|done]|];
      cbn [pt_map with_map]; by rewrite lookup_insert_ne.
Qed.

(** C19: the path table keeps a shortest announced path. After any sequence of
    announces, for any destinations, the hop count stored for a destination is
    the smallest announced for it (one more than the announce's own count, at
    byte width; the packet decoder rejects counts of 128 and more), and
    a destination never announced has no path. *)
Theorem PathTable_hops_minimal (eager : bool) (anns : list Learned) (d : AddressHash) :
  pe_hops <$> pt_map (foldl learn (PathTable_new eager) anns) !! d = best_hops d None anns.
Proof.
  assert (forall t, pe_hops <$> pt_map (foldl learn t anns) !! d
                    = best_hops d (pe_hops <$> pt_map t !! d) anns) as Hg.
  { induction anns as [|a anns IH]; intros t; [done|]. cbn [foldl best_hops].
    rewrite IH, learn_hops. by destruct (decide _). }
  rewrite Hg. cbn [pt_map PathTable_new]. by rewrite lookup_empty.
Qed.

Lemma remember_blob_in blobs blob : blob ∈ remember_blob blobs (Some blob).
Proof.
  unfold remember_blob. destruct (decide (blob ∈ blobs)); [done|]. destruct (_ <? _)%nat eqn:E.
  - rewrite drop_app_le; [apply elem_of_app; right; apply list_elem_of_here|].
    rewrite length_app. unfold MAX_RANDOM_BLOBS. simpl. lia.
  - apply elem_of_app. right. apply list_elem_of_here.
Qed.

Lemma remember_blob_length blobs blob :
  (length blobs <= MAX_RANDOM_BLOBS)%nat -> (length (remember_blob blobs blob) <= MAX_RANDOM_BLOBS)%nat.
Proof.
  intros Hl. unfold remember_blob. destruct blob as [blob|]; [|done].
  destruct (decide _); [done|]. destruct (Nat.ltb_spec MAX_RANDOM_BLOBS (length (blobs ++ [blob]))).
  - rewrite length_drop. lia.
  - done.
Qed.

Lemma timebase_blobs_ge blobs blob :
  blob ∈ blobs -> timebase_from_random_blob blob <= timebase_from_random_blobs blobs.
Proof.
  unfold timebase_from_random_blobs. induction 1 as [|? ? ? _ IH]; simpl; lia.
Qed.

(** The emission time of an announce is the timebase of its blob. *)
Lemma announce_emitted_blob p blob :
  announce_random_blob p = Some blob -> announce_emitted p = timebase_from_random_blob blob.
Proof.
  unfold announce_random_blob, announce_emitted, timebase_from_random_blob.
  destruct (Nat.ltb_spec (length (payload p)) (RANDOM_BLOB_OFFSET + RANDOM_BLOB_LEN)) as [Hl|Hl]; [done|].
  intros [= <-]. unfold RANDOM_BLOB_OFFSET, RANDOM_BLOB_LEN in *.
  rewrite (proj2 (Nat.leb_le _ _)) by lia. rewrite slice_length by lia. cbn [Nat.ltb Nat.leb Nat.sub Nat.add].
  f_equal. unfold slice. rewrite skipn_firstn_comm, drop_drop, take_take. done.
Qed.

Lemma should_replace_improves t e a :
  reroute_eager t = false -> unresponsive e = false -> gravity e = None \/ l_gravity a = None ->
  should_replace_path t e (announced_hops a) (announce_random_blob (l_announce a))
    (announce_emitted (l_announce a)) (l_gravity a) = improves e a.
Proof.
  intros Ht Hr Hg. unfold should_replace_path, improves. rewrite Ht, Hr, !orb_false_r.
  assert (match announce_random_blob (l_announce a), l_gravity a, gravity e with
          | Some _, Some g, Some g0 =>
              (announce_emitted (l_announce a) =? timebase_from_random_blobs (random_blobs e)) && (g0 <? g)
          | _, _, _ => false end = false) as ->.
  { destruct (announce_random_blob (l_announce a)), (l_gravity a), (gravity e); try done. by destruct Hg. }
  rewrite orb_false_r.
  destruct (Z.ltb_spec (pe_hops e) (announced_hops a)), (Z.ltb_spec (announced_hops a) (pe_hops e)),
    (Z.eqb_spec (announced_hops a) (pe_hops e)); try lia; done.
Qed.

Lemma learn_known t e a :
  reroute_eager t = false -> pt_map t !! destination (l_announce a) = Some e ->
  unresponsive e = false -> gravity e = None \/ l_gravity a = None ->
  learn t a = if improves e a then with_map t (<[destination (l_announce a) := learned_entry e a]> (pt_map t)) else t.
Proof.
  intros Ht He Hr Hg. unfold learn, handle_announce_with_mode. rewrite He.
  change (u8_add (hops (header (l_announce a))) 1) with (announced_hops a).
  by rewrite should_replace_improves.
Qed.

(** A learned path does not improve on itself. *)
Lemma improves_again e a a' :
  l_announce a' = l_announce a -> improves (learned_entry e a) a' = false.
Proof.
  intros Ea. unfold improves, announced_hops. rewrite Ea. cbn [pe_hops random_blobs learned_entry].
  unfold announced_hops. rewrite Z.ltb_irrefl, Z.eqb_refl. cbn [andb orb].
  destruct (announce_random_blob (l_announce a)) as [b|]; [|done].
  rewrite bool_decide_eq_false_2; [done|]. intros Hn. apply Hn, remember_blob_in.
Qed.

Lemma improves_rank e a :
  improves e a = true ->
  announced_hops a < pe_hops e \/
  announced_hops a = pe_hops e /\
  timebase_from_random_blobs (random_blobs e) <
    timebase_from_random_blobs (random_blobs (learned_entry e a)).
Proof.
  unfold improves. rewrite orb_true_iff, andb_true_iff. intros [Hl|[Hh Hb]]; zb; [by left|]. right.
  split; [done|]. destruct (announce_random_blob (l_announce a)) as [b|] eqn:Eb; [|done].
  apply andb_true_iff in Hb as [_ Hb]. zb. rewrite (announce_emitted_blob _ _ Eb) in Hb.
  cbn [random_blobs learned_entry]. rewrite Eb.
  pose proof (timebase_blobs_ge _ _ (remember_blob_in (random_blobs e) b)). lia.
Qed.

(** a path is only replaced by a better one. When rerouting is not eager,
    the known path is responsive and gravities are not both set, an announce
    either leaves the table unchanged or the new path has fewer hops, or as
    many with a strictly newer emission time; in particular handling the same
    announce again, from any interface without a gravity, changes nothing. *)
Theorem PathTable_replacement_improves (t : PathTable) (e : PathEntry) (a a' : Learned)
    (Heager : reroute_eager t = false)
    (He : pt_map t !! destination (l_announce a) = Some e)
    (Hresp : unresponsive e = false)
    (Hgrav : gravity e = None \/ l_gravity a = None)
    (Hsame : l_announce a' = l_announce a) (Hgrav' : l_gravity a' = None) :
  (learn t a = t \/
   exists e', pt_map (learn t a) !! destination (l_announce a) = Some e' /\
     (pe_hops e' < pe_hops e \/
      pe_hops e' = pe_hops e /\
      timebase_from_random_blobs (random_blobs e) < timebase_from_random_blobs (random_blobs e'))) /\
  learn (learn t a) a' = learn t a.
Proof.
  rewrite (learn_known t e a) by done. destruct (improves e a) eqn:Hi.
  - split.
    + right. exists (learned_entry e a). cbn [pt_map with_map]. rewrite lookup_insert_eq.
      split; [done|]. by apply improves_rank.
    + rewrite (learn_known _ (learned_entry e a)); [by rewrite improves_again|done| |done|by right].
      rewrite Hsame. cbn [pt_map with_map]. by rewrite lookup_insert_eq.
  - split; [by left|]. rewrite (learn_known t e a'); [|done|by rewrite Hsame|done|by right].
    replace (improves e a') with (improves e a); [by rewrite Hi|].
    unfold improves, announced_hops. by rewrite Hsame.
Qed.

End AnnounceLemmas.

(** ** Forwarding *)

Lemma inbound_known t now p e :
  pt_map t !! destination p = Some e ->
  let q := fst (snd (handle_inbound_packet t now p None)) in
  same_packet p q /\ snd (snd (handle_inbound_packet t now p None)) = Some (pe_iface e) /\
  hops (header q) = u8_add (hops (header p)) 1 /\ ifac q = None /\
  (pe_hops e <= 1 -> transport q = None /\ header_type (header q) = Type1 /\
     propagation_type (header q) = Broadcast) /\
  (1 < pe_hops e -> transport q = Some (pe_received_from e) /\ header_type (header q) = Type2 /\
     propagation_type (header q) = Transport).
Proof.
  intros He q. unfold q, handle_inbound_packet. cbn [default]. rewrite He. cbn [snd fst].
  split; [done|]. split; [done|]. split; [done|]. split; [done|].
  destruct (Z.leb_spec (pe_hops e) 1); split; intros ?; try lia; done.
Qed.

Lemma local_known t now p e :
  pt_map t !! destination p = Some e -> 1 < pe_hops e ->
  let q := fst (snd (handle_local_packet t now p)) in
  same_packet p q /\ hops (header q) = hops (header p) /\ transport q = Some (pe_received_from e) /\
  header_type (header q) = Type2 /\ propagation_type (header q) = Transport.
Proof.
  intros He Hh q. unfold q, handle_local_packet. rewrite He.
  by rewrite (proj2 (Z.leb_gt _ _) Hh).
Qed.

Lemma same_packet_destination p q : same_packet p q -> destination q = destination p.
Proof. by intros (_ & _ & -> & _). Qed.

(** A packet on a line of relays: each relay is the one addressed, and the
    last one sends the packet in its plain form. *)
Lemma relay_all_spec now d relays p :
  route d relays -> destination p = d -> 0 <= hops (header p) ->
  hops (header p) + Z.of_nat (length relays) < 256 ->
  (match relays with (id, _) :: _ => transport p = Some id | [] => True end) ->
  Forall2 (fun relay q => transport q = Some relay.1) relays (fst (relay_all now relays p)) /\
  let final := snd (relay_all now relays p) in
  same_packet p final /\ hops (header final) = hops (header p) + Z.of_nat (length relays) /\
  (relays <> [] -> transport final = None /\ header_type (header final) = Type1 /\
     propagation_type (header final) = Broadcast).
Proof.
  revert p. induction relays as [|[id t] rest IH]; intros p Hr Hd H0 Hh Ha.
  { split; [constructor|]. cbn. split; [apply same_packet_refl|]. split; [lia|done]. }
  cbn [route] in Hr. destruct Hr as [(e & He & Hhops & Hnext) Hr]. rewrite <- Hd in He.
  destruct (inbound_known t now p e He) as (Hsame & _ & Hq & _ & Hlast & Hmore).
  cbn [relay_all]. set (q := fst (snd (handle_inbound_packet t now p None))) in *.
  cbn [length] in Hh. rewrite u8_add_small in Hq by lia.
  destruct (IH q) as (Hseen & Hf & Hfh & Hft); clear IH.
  { done. }
  { rewrite (same_packet_destination _ _ Hsame). done. }
  { lia. }
  { lia. }
  { destruct rest as [|[id' t'] rest']; [done|]. rewrite <- Hnext. apply Hmore. cbn [length] in Hhops. lia. }
  assert (rest = [] -> snd (relay_all now rest q) = q) as Hnil by (by intros ->).
  destruct (relay_all now rest q) as [seen final]. cbn [fst snd] in *.
  split; [by constructor|]. split; [by transitivity q|]. split; [cbn [length]; lia|].
  intros _. destruct rest as [|r rest']; [|by apply Hft].
  rewrite Hnil by done. apply Hlast. cbn [length] in Hhops. lia.
Qed.

(** a packet follows its path. Along a line of transport nodes that each
    know the way to the next, a packet originated at the first node reaches
    each relay addressed to that relay, and leaves the last relay in its plain
    form (no transport id, header type 1, broadcast) with one hop counted per
    relay, the payload and all fields that enter the packet hash unchanged, so
    its hash is the original one. *)
Theorem PathTable_line_delivery `{Sha256} (now : Z) (d source : AddressHash) (t : PathTable)
    (relays : list (AddressHash * PathTable)) (p : Packet)
    (Hroute : route d ((source, t) :: relays)) (Hd : destination p = d) (Hne : relays <> [])
    (H0 : 0 <= hops (header p)) (Hh : hops (header p) + Z.of_nat (length relays) < 256) :
  let sent := fst (snd (handle_local_packet t now p)) in
  Forall2 (fun relay q => transport q = Some relay.1) relays (fst (relay_all now relays sent)) /\
  let final := snd (relay_all now relays sent) in
  transport final = None /\ header_type (header final) = Type1 /\
  propagation_type (header final) = Broadcast /\
  hops (header final) = hops (header p) + Z.of_nat (length relays) /\
  payload final = payload p /\ Packet_hash final = Packet_hash p.
Proof.
  cbn [route] in Hroute. destruct Hroute as [(e & He & Hhops & Hnext) Hr]. rewrite <- Hd in He.
  destruct relays as [|[id t'] rest]; [done|]. cbn [length] in Hhops.
  destruct (local_known t now p e He) as (Hsame & Hq & Ht & _); [lia|].
  intros sent. destruct (relay_all_spec now d ((id, t') :: rest) sent) as (Hseen & Hf & Hfh & Hft);
    [done|unfold sent; by rewrite (same_packet_destination _ _ Hsame)|unfold sent; lia|unfold sent; lia|
     unfold sent; by rewrite Ht, Hnext|].
  destruct Hft as (? & ? & ?); [done|].
  assert (same_packet p (snd (relay_all now ((id, t') :: rest) sent))) as Hall by (by transitivity sent).
  split; [done|]. split; [done|]. split; [done|]. split; [done|]. split; [by rewrite Hfh; unfold sent; rewrite Hq|].
  split; [by destruct Hall as (_ & _ & _ & _ & ->)|]. symmetry. by apply Packet_hash_same.
Qed.

(** ** Expiry *)

Lemma retain_lookup t P d :
  pt_map (fst (retain t P)) !! d = (e ← pt_map t !! d; if P e then Some e else None).
Proof.
  unfold retain. cbn [fst pt_map with_map]. destruct (pt_map t !! d) as [e|] eqn:E; cbn [mbind option_bind].
  - destruct (P e) eqn:HP.
    + by apply map_lookup_filter_Some.
    + apply map_lookup_filter_None. right. intros e' E'. rewrite E in E'. injection E' as <-. simpl. congruence.
  - apply map_lookup_filter_None. by left.
Qed.

Lemma path_lifetime_bound m : 0 < path_lifetime m <= PATHFINDER_E.
Proof. by destruct m. Qed.

(** Within 146 years of process start nothing saturates. *)
Lemma path_age_small now ts :
  0 <= now <= 2 ^ 62 -> - PATHFINDER_E - 1 <= ts <= 2 ^ 62 -> path_age now ts = Z.max 0 (now - ts).
Proof.
  intros Hn Ht. assert (PATHFINDER_E < 2 ^ 61) as HE by done.
  unfold path_age, i64_saturating_sub, monotonic_ns, I64_MAX, I64_MIN.
  rewrite (Z.min_l now) by lia. rewrite (Z.min_r _ (now - ts)), Z.max_r by lia.
  destruct (Z.leb_spec (now - ts) 0); lia.
Qed.

Lemma update_entry_lookup t d f :
  pt_map (fst (update_entry t d f)) !! d = f <$> pt_map t !! d.
Proof.
  unfold update_entry. destruct (pt_map t !! d) as [e|] eqn:E; cbn [fst pt_map with_map].
  - by rewrite lookup_insert_eq.
  - by rewrite E.
Qed.

(** path expiry. A clean-up keeps exactly the paths younger than the
    lifetime of the mode that learned them. A path marked by [expire_path] is
    removed by the next clean-up, whenever it runs, and a path that forwards a
    packet survives every clean-up within its lifetime from then on. *)
Theorem PathTable_expiry (t : PathTable) (now later : Z) (d : AddressHash) (p : Packet)
    (Hnow : 0 <= now <= later) (Hlater : later <= 2 ^ 62) :
  (forall x e, pt_map t !! x = Some e -> - PATHFINDER_E - 1 <= timestamp e <= 2 ^ 62 ->
     pt_map (fst (expire_paths t later)) !! x =
       if decide (Z.max 0 (later - timestamp e) < path_lifetime (mode e)) then Some e else None) /\
  pt_map (fst (expire_paths (fst (expire_path t now d)) later)) !! d = None /\
  (forall e, pt_map t !! destination p = Some e -> later < now + path_lifetime (mode e) ->
     is_Some (pt_map (fst (expire_paths (fst (handle_inbound_packet t now p None)) later))
                !! destination p)).
Proof.
  assert (PATHFINDER_E < 2 ^ 61) as HE by done. unfold expire_paths.
  assert (monotonic_ns now = now) as Hm by (unfold monotonic_ns, I64_MAX; lia). split; [|split].
  - intros x e He Ht. rewrite retain_lookup, He. cbn [mbind option_bind]. rewrite path_age_small by lia.
    destruct (Z.ltb_spec (Z.max 0 (later - timestamp e)) (path_lifetime (mode e)));
      by destruct (decide _); try lia.
  - rewrite retain_lookup. unfold expire_path. rewrite update_entry_lookup.
    destruct (pt_map t !! d) as [e|]; [|done]. cbn [fmap option_fmap option_map mbind option_bind].
    pose proof (path_lifetime_bound (mode e)) as Hl. cbn [timestamp set_timestamp mode].
    assert (i64_saturating_sub (i64_saturating_sub (monotonic_ns now) (Z.min (path_lifetime (mode e)) I64_MAX)) 1
            = now - path_lifetime (mode e) - 1) as ->.
    { rewrite Hm. unfold i64_saturating_sub, I64_MAX, I64_MIN. lia. }
    rewrite path_age_small by lia. by rewrite (proj2 (Z.ltb_ge _ _)) by lia.
  - intros e He Hl. rewrite retain_lookup. unfold handle_inbound_packet. cbn [default]. rewrite He.
    cbn [fst]. unfold touch. rewrite update_entry_lookup, He, Hm.
    cbn [fmap option_fmap option_map mbind option_bind timestamp set_timestamp mode].
    pose proof (path_lifetime_bound (mode e)). rewrite path_age_small by lia.
    rewrite (proj2 (Z.ltb_lt _ _)) by lia. by eexists.
Qed.

(** ** Witnesses *)
#[local] Existing Instance toy_sha256.

Definition sample_entry (h : Z) (from : AddressHash) : PathEntry :=
  mkPathEntry from h [1] 0 false [] Full (f64_of_Z 0) [] None.
Definition sample_table (h : Z) (from : AddressHash) : PathTable :=
  mkPathTable {[destination sample_packet := sample_entry h from]} false.

Lemma PathTable_replacement_improves_witness :
  let a := mkLearned 5 (f64_of_Z 0) sample_packet None [2] Full None in
  learn (learn (sample_table 9 [3]) a) a = learn (sample_table 9 [3]) a.
Proof.
  intros a. refine (proj2 (PathTable_replacement_improves (sample_table 9 [3]) (sample_entry 9 [3]) a a
    _ _ _ _ _ _)).
  - reflexivity.
  - reflexivity.
  - reflexivity.
  - left. reflexivity.
  - reflexivity.
  - reflexivity.
Defined.

Lemma PathTable_line_delivery_witness :
  let relays := [([11], sample_table 2 [12]); ([12], sample_table 1 [13])] in
  let sent := fst (snd (handle_local_packet (sample_table 3 [11]) 0 sample_packet)) in
  hops (header (snd (relay_all 0 relays sent))) = 5.
Proof.
  intros relays sent.
  refine (proj1 (proj2 (proj2 (proj2 (proj2 (PathTable_line_delivery 0 (destination sample_packet) [10]
    (sample_table 3 [11]) relays sample_packet _ _ _ _ _)))))).
  - cbn [route]. repeat split; eexists; (split; [reflexivity|]); repeat split.
  - reflexivity.
  - discriminate.
  - vm_compute. discriminate.
  - vm_compute. reflexivity.
Defined.

Lemma PathTable_expiry_witness :
  pt_map (fst (expire_paths (fst (expire_path (sample_table 2 [4]) 100 (destination sample_packet))) 100))
    !! destination sample_packet = None.
Proof.
  refine (proj1 (proj2 (PathTable_expiry (sample_table 2 [4]) 100 100 (destination sample_packet)
    sample_packet _ _))); lia.
Defined.
