(* ===== verification/Destination.v ===== *)
(** * Destinations and announces ([reticulum-core/src/destination.rs])

    Names and address hashes, destinations with their ratchets, the announce a
    destination signs, and its validation by others.  A random draw is an
    argument. *)

From S2P Require Import Prelude Buffer Crypto Hash Packet PathTable Token Identity.

Definition NAME_HASH_LENGTH : nat := 10.
Definition RAND_HASH_LENGTH : nat := 10.
Definition MIN_ANNOUNCE_DATA_LENGTH : nat :=
  PUBLIC_KEY_LENGTH * 2 + NAME_HASH_LENGTH + RAND_HASH_LENGTH + SIGNATURE_LENGTH.
Definition RATCHET_COUNT : nat := 512.
Definition RATCHET_INTERVAL_SECS : Z := 30 * 60.
Definition GROUP_KEY_SIZE : nat := 64.

(** ** Names and addresses *)
Record DestinationName := mkName { name_hash : Hash }.

(** What an address hash needs of an identity (the trait [HashIdentity]). *)
Class HashIdentity (I : Type) := as_address_hash_slice : I -> bytes.
Inductive EmptyIdentity := Empty.
#[export] Instance HashIdentity_Identity : HashIdentity Identity := address_hash.
#[export] Instance HashIdentity_Private : HashIdentity PrivateIdentity := fun p => address_hash (identity p).
#[export] Instance HashIdentity_Empty : HashIdentity EmptyIdentity := fun _ => [].

Section Names.
Context `{Sha256}.

Definition DestinationName_new (app_name aspects : bytes) : DestinationName :=
  mkName (sha256 (app_name ++ [46] ++ aspects)).

Definition name_of_slice (s : bytes) : DestinationName := mkName (splice 0 s (replicate HASH_SIZE 0)).

(** [None]: more than 32 bytes do not fit the array. *)
Definition DestinationName_new_from_hash_slice (s : bytes) : option DestinationName :=
  if (HASH_SIZE <? length s)%nat then None else Some (name_of_slice s).

Definition as_name_hash_slice (n : DestinationName) : bytes := take NAME_HASH_LENGTH (name_hash n).

Definition desc_hash_matches (n other : DestinationName) : bool :=
  bool_decide (as_name_hash_slice n = as_name_hash_slice other).

Definition create_address_hash {I : Type} `{!HashIdentity I} (i : I) (name : DestinationName) : AddressHash :=
  AddressHash_new_from_hash (sha256 (as_name_hash_slice name ++ as_address_hash_slice i)).

End Names.

Record DestinationDesc := mkDesc {
  desc_identity : Identity;
  desc_address_hash : AddressHash;
  desc_name : DestinationName;
}.

(** ** Destinations *)
Inductive ProofStrategy := ProveNone | ProveApp | ProveAll.

Record GroupKey := mkGroupKey {
  gk_fernet : Fernet;
  gk_raw : bytes;
}.

Record Destination (I : Type) := mkDestination {
  dst_identity : I;
  proof_strategy : ProofStrategy;
  accepts_links : bool;
  ratchets : option (list bytes);
  group_key : option GroupKey;
  latest_ratchet_time : Z;
  ratchet_interval : Z;
  retained_ratchets : nat;
  proof_requested : option (Packet -> bool);
  default_app_data : option bytes;
  ratchets_enforced : bool;
  desc : DestinationDesc;
}.
Arguments mkDestination {I}.
Arguments dst_identity {I}.
Arguments proof_strategy {I}.
Arguments accepts_links {I}.
Arguments ratchets {I}.
Arguments group_key {I}.
Arguments latest_ratchet_time {I}.
Arguments ratchet_interval {I}.
Arguments retained_ratchets {I}.
Arguments proof_requested {I}.
Arguments default_app_data {I}.
Arguments ratchets_enforced {I}.
Arguments desc {I}.

(** What the constructors of the four kinds of destination share. *)
Definition fresh_destination {I} (i : I) (d : DestinationDesc) : Destination I :=
  mkDestination i ProveNone true None None 0 RATCHET_INTERVAL_SECS RATCHET_COUNT None None false d.

Section Constructors.
Context `{Sha256} `{Signing} `{!Verifying} `{!Ed25519} `{!Ed25519Keys}.

Definition SingleInputDestination_new (i : PrivateIdentity) (name : DestinationName)
    : Destination PrivateIdentity :=
  fresh_destination i (mkDesc (identity i) (create_address_hash i name) name).

Definition SingleOutputDestination_new (i : Identity) (name : DestinationName) : Destination Identity :=
  fresh_destination i (mkDesc i (create_address_hash i name) name).

Definition PlainDestination_new (i : EmptyIdentity) (name : DestinationName) : Destination EmptyIdentity :=
  fresh_destination i (mkDesc Identity_default (create_address_hash i name) name).

Definition GroupDestination_new (i : EmptyIdentity) (name : DestinationName) : Destination EmptyIdentity :=
  fresh_destination i (mkDesc Identity_default (create_address_hash i name) name).

End Constructors.

Section Setters.
Context {I : Type}.

Definition with_ratchets (d : Destination I) (r : option (list bytes)) (latest : Z) (enforced : bool)
    : Destination I :=
  mkDestination (dst_identity d) (proof_strategy d) (accepts_links d) r (group_key d) latest
    (ratchet_interval d) (retained_ratchets d) (proof_requested d) (default_app_data d) enforced (desc d).

Definition set_proof_strategy (s : ProofStrategy) (d : Destination I) : Destination I :=
  mkDestination (dst_identity d) s (accepts_links d) (ratchets d) (group_key d) (latest_ratchet_time d)
    (ratchet_interval d) (retained_ratchets d) (proof_requested d) (default_app_data d)
    (ratchets_enforced d) (desc d).

Definition set_proof_requested_callback (callback : Packet -> bool) (d : Destination I) : Destination I :=
  mkDestination (dst_identity d) (proof_strategy d) (accepts_links d) (ratchets d) (group_key d)
    (latest_ratchet_time d) (ratchet_interval d) (retained_ratchets d) (Some callback)
    (default_app_data d) (ratchets_enforced d) (desc d).

Definition should_prove (d : Destination I) (p : Packet) : bool :=
  match proof_strategy d with
  | ProveAll => true
  | ProveNone => false
  | ProveApp => default false ((fun callback => callback p) <$> proof_requested d)
  end.

Definition enable_ratchets (r : list bytes) (d : Destination I) : Destination I :=
  with_ratchets d (Some r) 0 (ratchets_enforced d).

Definition disable_ratchets (d : Destination I) : Destination I :=
  with_ratchets d None (latest_ratchet_time d) false.

Definition enforce_ratchets (d : Destination I) : bool * Destination I :=
  match ratchets d with
  | Some r => (true, with_ratchets d (Some r) (latest_ratchet_time d) true)
  | None => (false, d)
  end.

Definition set_default_app_data (app_data : option bytes) (d : Destination I) : Destination I :=
  mkDestination (dst_identity d) (proof_strategy d) (accepts_links d) (ratchets d) (group_key d)
    (latest_ratchet_time d) (ratchet_interval d) (retained_ratchets d) (proof_requested d)
    app_data (ratchets_enforced d) (desc d).

Definition clear_default_app_data (d : Destination I) : Destination I := set_default_app_data None d.

Definition ratchets_enabled (d : Destination I) : bool := bool_decide (is_Some (ratchets d)).

Definition set_ratchet_interval (interval : Z) (d : Destination I) : Destination I :=
  if 0 <? interval
  then mkDestination (dst_identity d) (proof_strategy d) (accepts_links d) (ratchets d) (group_key d)
         (latest_ratchet_time d) interval (retained_ratchets d) (proof_requested d)
         (default_app_data d) (ratchets_enforced d) (desc d)
  else d.

Definition clean_ratchets (d : Destination I) : Destination I :=
  match ratchets d with
  | Some r =>
      if (retained_ratchets d <? length r)%nat
      then with_ratchets d (Some (take (RATCHET_COUNT `min` retained_ratchets d) r))
             (latest_ratchet_time d) (ratchets_enforced d)
      else d
  | None => d
  end.

Definition set_retained_ratchets (count : nat) (d : Destination I) : Destination I :=
  if (0 <? count)%nat
  then clean_ratchets
         (mkDestination (dst_identity d) (proof_strategy d) (accepts_links d) (ratchets d) (group_key d)
            (latest_ratchet_time d) (ratchet_interval d) count (proof_requested d)
            (default_app_data d) (ratchets_enforced d) (desc d))
  else d.

Definition set_accepts_links (accepts : bool) (d : Destination I) : Destination I :=
  mkDestination (dst_identity d) (proof_strategy d) accepts (ratchets d) (group_key d)
    (latest_ratchet_time d) (ratchet_interval d) (retained_ratchets d) (proof_requested d)
    (default_app_data d) (ratchets_enforced d) (desc d).

(** [+] on [u64] as the release profile runs it. *)
Definition rotation_due (d : Destination I) (now_secs : Z) : bool :=
  wrap 64 (latest_ratchet_time d + ratchet_interval d) <? now_secs.

(** Insert a key in front, as both rotations do. *)
Definition push_ratchet (new_ratchet : bytes) (now_secs : Z) (d : Destination I) : Destination I :=
  clean_ratchets (with_ratchets d (cons new_ratchet <$> ratchets d) now_secs (ratchets_enforced d)).

Definition rotate_ratchets (new_ratchet : bytes) (now_secs : Z) (d : Destination I)
    : option bytes * Destination I :=
  match ratchets d with
  | None => (None, d)
  | Some _ =>
      if rotation_due d now_secs then (Some new_ratchet, push_ratchet new_ratchet now_secs d)
      else (None, d)
  end.

End Setters.

(** ** Encryption for destinations *)
Section DestinationEncryption.
Context `{Sha256} `{Hkdf} `{X25519} `{CbcCipher} `{HmacSha256}.

Definition encrypt_single (i : Identity) (ephemeral iv text : bytes) (ratchet : option bytes)
    (out_len : nat) : option (result bytes) :=
  Identity_encrypt_with_ephemeral i ephemeral iv text ratchet out_len.

Definition Destination_decrypt_ratchet (d : Destination PrivateIdentity) (data : bytes) (out_len : nat)
    : result (bytes * option bytes) :=
  decrypt_ratchet (dst_identity d) data (default [] (ratchets d)) (ratchets_enforced d) out_len.

Definition Destination_decrypt (d : Destination PrivateIdentity) (data : bytes) (out_len : nat)
    : result bytes :=
  r ← Destination_decrypt_ratchet d data out_len; Ok r.1.

Definition GroupKey_from_bytes (raw : bytes) : GroupKey :=
  mkGroupKey (Fernet_new_from_slices (take (GROUP_KEY_SIZE / 2) raw) (drop (GROUP_KEY_SIZE / 2) raw)) raw.

Definition GroupKey_encrypt (k : GroupKey) (iv text : bytes) (out_len : nat) : option (result bytes) :=
  Fernet_encrypt (Fernet_new_from_slices (take (GROUP_KEY_SIZE / 2) (gk_raw k))
                    (drop (GROUP_KEY_SIZE / 2) (gk_raw k))) iv text out_len.

Definition GroupKey_decrypt (k : GroupKey) (token : bytes) (out_len : nat) : result bytes :=
  verified ← Fernet_verify (gk_fernet k) token;
  Fernet_decrypt (gk_fernet k) verified out_len.

Definition load_group_key {I} (key : bytes) (d : Destination I) : Destination I :=
  mkDestination (dst_identity d) (proof_strategy d) (accepts_links d) (ratchets d)
    (Some (GroupKey_from_bytes key)) (latest_ratchet_time d) (ratchet_interval d)
    (retained_ratchets d) (proof_requested d) (default_app_data d) (ratchets_enforced d) (desc d).

(** [raw]: the random bytes of the new key. *)
Definition create_group_key {I} (raw : bytes) (d : Destination I) : bytes * Destination I :=
  (raw, load_group_key raw d).

Definition encrypt_group {I} (d : Destination I) (iv text : bytes) (out_len : nat) : option (result bytes) :=
  match group_key d with
  | Some key => GroupKey_encrypt key iv text out_len
  | None => Some (Err CryptoError)
  end.

Definition decrypt_group {I} (d : Destination I) (token : bytes) (out_len : nat) : result bytes :=
  match group_key d with
  | Some key => GroupKey_decrypt key token out_len
  | None => Err CryptoError
  end.

End DestinationEncryption.

(** ** Announces *)
Record AnnounceData := mkAnnounceData {
  ad_app_data : option bytes;
  ad_ratchet : option bytes;
}.

Section Announces.
Context `{Sha256} `{Signing} `{!Verifying} `{!Ed25519} `{!Ed25519Keys} `{X25519}.

Definition rotate_ratchets_if_due (new_ratchet : bytes) (now_secs : Z) (d : Destination PrivateIdentity)
    : option (bytes * bytes) * Destination PrivateIdentity :=
  match ratchets d with
  | None => (None, d)
  | Some r =>
      let rotate := bool_decide (r = []) || rotation_due d now_secs in
      let d' := if rotate then push_ratchet new_ratchet now_secs d else d in
      (match ratchets d' with
       | Some (private :: _) => Some (ratchet_public_from_private private, private)
       | _ => None
       end, d')
  end.

(** The timestamp's low five bytes follow five random ones. *)
Definition announce_rand_hash (rand : Hash) (now_secs : Z) : bytes :=
  take (RAND_HASH_LENGTH / 2) rand ++ drop 3 (be_encode 8 now_secs).

Definition chain_opt (o : option bytes) (b : StaticBuffer.t) : StaticBuffer.t :=
  match o with Some r => StaticBuffer.chain_safe_write r b | None => b end.

Definition write_opt (o : option bytes) (b : StaticBuffer.t) : result unit * StaticBuffer.t :=
  match o with Some data => StaticBuffer.chain_write data b | None => (Ok (), b) end.

Definition announce_at (new_ratchet : bytes) (rand : Hash) (app_data : option bytes) (now_secs : Z)
    (d : Destination PrivateIdentity) : result Packet * Destination PrivateIdentity :=
  let app_data := match app_data with Some data => Some data | None => default_app_data d end in
  let '(rotated, d) := rotate_ratchets_if_due new_ratchet now_secs d in
  let ratchet := fst <$> rotated in
  let rand_hash := announce_rand_hash rand now_secs in
  let pub_key := public_key (identity (dst_identity d)) in
  let verifying := verifying_key (identity (dst_identity d)) in
  let name := as_name_hash_slice (desc_name (desc d)) in
  let chain := StaticBuffer.chain_safe_write in
  let b := chain rand_hash (chain name (chain verifying (chain pub_key
             (chain (desc_address_hash (desc d)) PacketDataBuffer_new)))) in
  let b := chain_opt ratchet b in
  match write_opt app_data b with
  | (Err e, _) => (Err e, d)
  | (Ok _, b) =>
      let signature := PrivateIdentity_sign (dst_identity d) (StaticBuffer.as_slice b) in
      let b := StaticBuffer.reset b in
      let b := chain rand_hash (chain name (chain verifying (chain pub_key b))) in
      let b := chain_opt ratchet b in
      let b := chain signature b in
      match write_opt app_data b with
      | (Err e, _) => (Err e, d)
      | (Ok _, b) =>
          let header := mkHeader Open (bool_decide (is_Some ratchet)) Type1 Broadcast Single Announce 0 in
          (Ok (mkPacket header None (desc_address_hash (desc d)) None CtxNone b), d)
      end
  end.

Definition path_response (new_ratchet : bytes) (rand : Hash) (app_data : option bytes) (now_secs : Z)
    (d : Destination PrivateIdentity) : result Packet * Destination PrivateIdentity :=
  match announce_at new_ratchet rand app_data now_secs d with
  | (Ok p, d') =>
      (Ok (mkPacket (header p) (ifac p) (destination p) (transport p) CtxPathResponse (data p)), d')
  | other => other
  end.

Definition validate (p : Packet) : result (Destination Identity * AnnounceData) :=
  if negb (bool_decide (packet_type (header p) = Announce)) then Err PacketError
  else
    let announce_data := payload p in
    let minimum := if context_flag (header p)
                   then (MIN_ANNOUNCE_DATA_LENGTH + RATCHET_KEY_LENGTH)%nat
                   else MIN_ANNOUNCE_DATA_LENGTH in
    if (length announce_data <? minimum)%nat then Err OutOfMemory
    else
      let pk := slice 0 32 announce_data in
      let vk := slice 32 64 announce_data in
      if negb (ed25519_key_ok vk) then Err CryptoError
      else
        let i := Identity_new pk vk in
        let name := slice 64 74 announce_data in
        let rand := slice 74 84 announce_data in
        let '(ratchet, offset) :=
          if context_flag (header p) then (Some (slice 84 116 announce_data), 116%nat)
          else (None, 84%nat) in
        let signature := slice offset (offset + SIGNATURE_LENGTH) announce_data in
        let offset := (offset + SIGNATURE_LENGTH)%nat in
        let app_data := if (MIN_ANNOUNCE_DATA_LENGTH <? length announce_data)%nat
                        then Some (drop offset announce_data) else None in
        let signed_data := destination p ++ pk ++ vk ++ name ++ rand ++ default [] ratchet
                             ++ default [] app_data in
        match Identity_verify i signed_data signature with
        | Err e => Err e
        | Ok _ =>
            let expected_hash := sha256 (name ++ address_hash i) in
            if negb (bool_decide (AddressHash_new_from_hash expected_hash = destination p))
            then Err IncorrectHash
            else Ok (SingleOutputDestination_new i (name_of_slice name), mkAnnounceData app_data ratchet)
        end.

Inductive DestinationHandleStatus := HandleNone | HandleLinkProof.

Definition Destination_handle_packet (d : Destination PrivateIdentity) (p : Packet)
    : DestinationHandleStatus :=
  if negb (bool_decide (desc_address_hash (desc d) = destination p)) then HandleNone
  else if bool_decide (packet_type (header p) = LinkRequest) then HandleLinkProof
  else HandleNone.

End Announces.

(** ** Lemmas *)
Lemma slice_at {A} i j (a b c : list A) :
  length a = i -> (length a + length b)%nat = j -> slice i j (a ++ b ++ c) = b.
Proof. intros <- <-. apply slice_app_mid. Qed.

Lemma drop_slice {A} i j (l : list A) : (i <= j)%nat -> drop i l = slice i j l ++ drop j l.
Proof.
  intros Hij. unfold slice. replace j with (i + (j - i))%nat at 2 by lia. rewrite <- drop_drop.
  by rewrite take_drop.
Qed.

Lemma buffer_holds_reset l b : buffer_holds l b -> buffer_holds [] (StaticBuffer.reset b).
Proof. intros (Hw & Hc & _). split; [unfold StaticBuffer.wf; simpl; lia|]. split; [exact Hc|done]. Qed.

Lemma buffer_holds_chain_opt l b o :
  buffer_holds l b -> (length l + length (default [] o) <= PACKET_MDU)%nat ->
  buffer_holds (l ++ default [] o) (chain_opt o b).
Proof. intros Hb Hl. destruct o; simpl; [by apply buffer_holds_append|by rewrite app_nil_r]. Qed.

Lemma buffer_holds_length l b : buffer_holds l b -> StaticBuffer.len b = length l.
Proof. intros (Hw & _ & <-). by rewrite as_slice_length. Qed.

Lemma buffer_holds_write_opt l b o :
  buffer_holds l b -> (length l + length (default [] o) <= PACKET_MDU)%nat ->
  exists b', write_opt o b = (Ok (), b') /\ buffer_holds (l ++ default [] o) b'.
Proof.
  intros Hb Hl. destruct o as [d|]; simpl in *; [|rewrite app_nil_r; by eexists].
  pose proof (buffer_holds_length l b Hb) as Hlen. destruct Hb as (Hw & Hc & Hs).
  destruct (sb_write_Ok d b Hw) as (b' & E & Hw' & Hc' & Hs'); [lia|].
  exists b'. unfold StaticBuffer.chain_write. rewrite (St_bind_Ok _ _ _ _ _ E).
  split; [done|]. split; [done|]. split; [lia|]. by rewrite Hs', Hs.
Qed.

(** The fields of an announce in order, and what is signed. *)
Definition announce_payload (pk vk name rand : bytes) (ratchet : option bytes) (sig : bytes)
    (app : option bytes) : bytes :=
  pk ++ vk ++ name ++ rand ++ default [] ratchet ++ sig ++ default [] app.

Definition announce_signed (dest pk vk name rand : bytes) (ratchet app : option bytes) : bytes :=
  dest ++ pk ++ vk ++ name ++ rand ++ default [] ratchet ++ default [] app.

Lemma announce_rand_hash_length rand now_secs :
  length rand = HASH_SIZE -> length (announce_rand_hash rand now_secs) = RAND_HASH_LENGTH.
Proof.
  intros Hr. unfold announce_rand_hash. rewrite length_app, length_take, Hr, length_drop, be_encode_length.
  reflexivity.
Qed.

Lemma buffer_holds_chain l b dat :
  buffer_holds l b -> (length l + length dat <= PACKET_MDU)%nat ->
  buffer_holds (l ++ dat) (StaticBuffer.chain_safe_write dat b).
Proof. apply buffer_holds_append. Qed.

(** Four fields written one after the other. *)
Lemma buffer_holds_four l a b c d buf :
  buffer_holds l buf -> (length l + length a + length b + length c + length d <= PACKET_MDU)%nat ->
  buffer_holds (l ++ a ++ b ++ c ++ d)
    (StaticBuffer.chain_safe_write d (StaticBuffer.chain_safe_write c
      (StaticBuffer.chain_safe_write b (StaticBuffer.chain_safe_write a buf)))).
Proof.
  intros Hb Hl. replace (l ++ a ++ b ++ c ++ d) with ((((l ++ a) ++ b) ++ c) ++ d)
    by (by rewrite <- !app_assoc).
  repeat (apply buffer_holds_append; [|rewrite ?length_app; lia]). done.
Qed.

Section AnnounceTheorems.
Context `{Sha256} `{Signing} `{!Verifying} `{!Ed25519} `{!Ed25519Keys} `{X25519}.

(** A destination whose identity and description belong together. *)
Definition owned (d : Destination PrivateIdentity) (secret seed : bytes) (name : DestinationName) : Prop :=
  dst_identity d = PrivateIdentity_new secret seed /\ desc d = desc (SingleInputDestination_new (dst_identity d) name)
  /\ length (name_hash name) = HASH_SIZE.

Lemma push_ratchet_keeps new_ratchet now_secs (d : Destination PrivateIdentity) :
  dst_identity (push_ratchet new_ratchet now_secs d) = dst_identity d /\
  desc (push_ratchet new_ratchet now_secs d) = desc d /\
  default_app_data (push_ratchet new_ratchet now_secs d) = default_app_data d.
Proof. unfold push_ratchet, clean_ratchets. repeat case_match; done. Qed.

Lemma rotate_ratchets_if_due_keeps new_ratchet now_secs d rotated d' :
  rotate_ratchets_if_due new_ratchet now_secs d = (rotated, d') ->
  dst_identity d' = dst_identity d /\ desc d' = desc d /\
  fst <$> rotated = ratchet_public_from_private <$> (ratchets d' ≫= head).
Proof.
  unfold rotate_ratchets_if_due. pose proof (push_ratchet_keeps new_ratchet now_secs d) as (? & ? & _).
  destruct (ratchets d) as [r|] eqn:Er.
  - destruct (_ || _); intros [= <- <-]; (split; [done|]; split; [done|]); repeat case_match; done.
  - intros [= <- <-]. by rewrite Er.
Qed.

Lemma as_name_hash_slice_length name :
  length (name_hash name) = HASH_SIZE -> length (as_name_hash_slice name) = NAME_HASH_LENGTH.
Proof. intros Hn. unfold as_name_hash_slice. rewrite length_take, Hn. reflexivity. Qed.

(** The effective application data and ratchet of an announce. *)
Definition announced_app (app : option bytes) (d : Destination PrivateIdentity) : option bytes :=
  match app with Some a => Some a | None => default_app_data d end.

Definition announced_ratchet (d : Destination PrivateIdentity) : option bytes :=
  ratchet_public_from_private <$> (ratchets d ≫= head).

Lemma announced_ratchet_length d : (length (default [] (announced_ratchet d)) <= RATCHET_KEY_LENGTH)%nat.
Proof.
  unfold announced_ratchet. destruct (_ ≫= _); simpl; [|lia].
  unfold ratchet_public_from_private. by rewrite x25519_public_length.
Qed.

Lemma announce_at_packet d secret seed name new_ratchet rand app_data now_secs rotated d' :
  owned d secret seed name -> length rand = HASH_SIZE ->
  rotate_ratchets_if_due new_ratchet now_secs d = (rotated, d') ->
  (MIN_ANNOUNCE_DATA_LENGTH + RATCHET_KEY_LENGTH + length (default [] (announced_app app_data d)) <= PACKET_MDU)%nat ->
  let i := identity (PrivateIdentity_new secret seed) in
  let dest := create_address_hash i name in
  let rnd := announce_rand_hash rand now_secs in
  let ratchet := announced_ratchet d' in
  let signed := announce_signed dest (public_key i) (verifying_key i) (as_name_hash_slice name) rnd ratchet
                  (announced_app app_data d) in
  exists b,
    announce_at new_ratchet rand app_data now_secs d =
      (Ok (mkPacket (mkHeader Open (bool_decide (is_Some ratchet)) Type1 Broadcast Single Announce 0) None dest
             None CtxNone b), d') /\
    buffer_holds (announce_payload (public_key i) (verifying_key i) (as_name_hash_slice name) rnd ratchet
                    (sign seed signed) (announced_app app_data d)) b.
Proof.
  intros (Hi & Hdesc & Hname) Hrand Hrot Hfit i dest rnd ratchet signed.
  pose proof (as_name_hash_slice_length name Hname) as Ln.
  pose proof (announce_rand_hash_length rand now_secs Hrand : length rnd = _) as Lr.
  pose proof (x25519_public_length secret : length (public_key i) = _) as Lp.
  pose proof (ed25519_public_length seed : length (verifying_key i) = _) as Lv.
  pose proof (announced_ratchet_length d' : (length (default [] ratchet) <= _)%nat) as Lk.
  assert (length dest = 16)%nat as Ld.
  { apply AddressHash_new_from_hash_is_address. split; [apply sha256_length|apply sha256_u8]. }
  pose proof (sign_length seed signed) as Ls.
  destruct (rotate_ratchets_if_due_keeps _ _ _ _ _ Hrot) as (Ei & Ed & Er). fold (announced_ratchet d') in Er.
  unfold announce_at. rewrite Hrot, Er, Ei, Ed, Hdesc, Hi. clear Er Ei Ed Hrot.
  fold (announced_app app_data d). fold ratchet. fold rnd.
  cbn [SingleInputDestination_new fresh_destination desc desc_name desc_address_hash].
  change (create_address_hash (PrivateIdentity_new secret seed) name) with dest. fold i.
  unfold MIN_ANNOUNCE_DATA_LENGTH, RATCHET_KEY_LENGTH, PUBLIC_KEY_LENGTH, NAME_HASH_LENGTH, RAND_HASH_LENGTH,
    SIGNATURE_LENGTH in *. set (a := announced_app app_data d) in *.
  pose proof (buffer_holds_chain [] _ dest buffer_holds_new ltac:(cbn [app length]; unfold PACKET_MDU; lia)) as B0.
  pose proof (buffer_holds_four _ (public_key i) (verifying_key i) (as_name_hash_slice name) rnd _ B0
                ltac:(cbn [app length]; lia)) as B1.
  eapply (buffer_holds_chain_opt _ _ ratchet) in B1; [|rewrite !length_app; cbn [length]; lia].
  destruct (buffer_holds_write_opt _ _ a B1) as (b1 & -> & B2); [rewrite !length_app; cbn [length]; lia|].
  assert (StaticBuffer.as_slice b1 = signed) as ->.
  { destruct B2 as (_ & _ & ->). unfold signed, announce_signed. by rewrite <- !app_assoc. }
  change (PrivateIdentity_sign (PrivateIdentity_new secret seed) signed) with (sign seed signed).
  pose proof (buffer_holds_four _ (public_key i) (verifying_key i) (as_name_hash_slice name) rnd _
                (buffer_holds_reset _ _ B2) ltac:(cbn [app length]; lia)) as B3.
  eapply (buffer_holds_chain_opt _ _ ratchet) in B3; [|cbn [app]; rewrite !length_app; cbn [length]; lia].
  eapply (buffer_holds_chain _ _ (sign seed signed)) in B3; [|cbn [app]; rewrite !length_app; cbn [length]; lia].
  destruct (buffer_holds_write_opt _ _ a B3) as (b2 & E & B4); [cbn [app]; rewrite !length_app; cbn [length]; lia|].
  exists b2. rewrite E. split; [done|].
  cbn [app] in B4. unfold announce_payload. by rewrite <- !app_assoc in B4.
Qed.

(** The offset of the signature. *)
Definition sig_offset (ratchet : option bytes) : nat := 84 + length (default [] ratchet).

Definition ratchet_wf (ratchet : option bytes) : Prop :=
  from_option (fun r => length r = RATCHET_KEY_LENGTH) True ratchet.

(** Lengths of the fields of an announce. *)
Definition fields_wf (pk vk name rand : bytes) (ratchet : option bytes) (sig : bytes) : Prop :=
  length pk = 32%nat /\ length vk = 32%nat /\ length name = 10%nat /\ length rand = 10%nat /\
  ratchet_wf ratchet /\ length sig = 64%nat.

Lemma payload_fields pk vk name rand ratchet sig app_data :
  fields_wf pk vk name rand ratchet sig ->
  let l := announce_payload pk vk name rand ratchet sig app_data in
  let o := sig_offset ratchet in
  slice 0 32 l = pk /\ slice 32 64 l = vk /\ slice 64 74 l = name /\ slice 74 84 l = rand /\
  slice 84 o l = default [] ratchet /\ slice o (o + 64) l = sig /\ drop (o + 64) l = default [] app_data /\
  length l = (o + 64 + length (default [] app_data))%nat.
Proof.
  intros (Lp & Lv & Ln & Lr & _ & Ls) l o. unfold l, o, announce_payload, sig_offset.
  set (r := default [] ratchet). set (a := default [] app_data).
  split; [by apply (slice_at 0 32 [])|]. split; [apply slice_at; lia|].
  split; [rewrite (app_assoc pk); apply slice_at; rewrite ?length_app; lia|].
  split; [rewrite (app_assoc pk), (app_assoc _ name); apply slice_at; rewrite ?length_app; lia|].
  rewrite (app_assoc pk), (app_assoc _ name), (app_assoc _ rand).
  split; [apply slice_at; rewrite ?length_app; lia|]. rewrite (app_assoc _ r).
  split; [apply slice_at; rewrite ?length_app; lia|]. rewrite (app_assoc _ sig).
  split; [apply drop_app_length'|]; rewrite ?length_app; lia.
Qed.

Lemma sig_offset_flag ratchet :
  ratchet_wf ratchet ->
  sig_offset ratchet = if bool_decide (is_Some ratchet) then 116%nat else 84%nat.
Proof. unfold sig_offset. by destruct ratchet; simpl; [intros ->|]. Qed.

(** Application data as validation reports it: a ratchet-less announce without
    any reports none, a ratchet announce reports an empty string. *)
Definition reported_app (ratchet app_data : option bytes) : option bytes :=
  if bool_decide (is_Some ratchet) then Some (default [] app_data)
  else match default [] app_data with [] => None | a => Some a end.

Lemma reported_app_bytes ratchet app_data :
  default [] (reported_app ratchet app_data) = default [] app_data.
Proof. unfold reported_app. case_bool_decide; [done|]. by destruct (default [] app_data). Qed.

(** Validation of a packet whose payload has the fields of an announce. *)
Lemma validate_fields p pk vk name rand ratchet sig app_data :
  packet_type (header p) = Announce -> context_flag (header p) = bool_decide (is_Some ratchet) ->
  payload p = announce_payload pk vk name rand ratchet sig app_data ->
  fields_wf pk vk name rand ratchet sig ->
  validate p =
    if negb (ed25519_key_ok vk) then Err CryptoError
    else if negb (verify_signature vk (announce_signed (destination p) pk vk name rand ratchet app_data) sig)
    then Err IncorrectSignature
    else if negb (bool_decide (create_address_hash (Identity_new pk vk) (name_of_slice name) = destination p))
    then Err IncorrectHash
    else Ok (SingleOutputDestination_new (Identity_new pk vk) (name_of_slice name),
             mkAnnounceData (reported_app ratchet app_data) ratchet).
Proof.
  intros Ht Hf Hp Hwf. pose proof (payload_fields _ _ _ _ _ _ app_data Hwf) as F. cbv zeta in F.
  rewrite <- Hp in F. destruct Hwf as (_ & _ & Ln & _ & Hr & _).
  rewrite (sig_offset_flag ratchet Hr), <- Hf in F.
  destruct F as (F1 & F2 & F3 & F4 & F5 & F6 & F7 & F8).
  unfold validate. rewrite Ht, (bool_decide_eq_true_2 (Announce = Announce)) by done. cbn [negb].
  rewrite F1, F2, F3, F4.
  assert ((length (payload p) <? (if context_flag (header p) then MIN_ANNOUNCE_DATA_LENGTH + RATCHET_KEY_LENGTH
          else MIN_ANNOUNCE_DATA_LENGTH))%nat = false) as ->.
  { apply Nat.ltb_ge. rewrite F8. change MIN_ANNOUNCE_DATA_LENGTH with 148%nat.
    change RATCHET_KEY_LENGTH with 32%nat. destruct (context_flag _); lia. }
  assert (create_address_hash (Identity_new pk vk) (name_of_slice name) =
          AddressHash_new_from_hash (sha256 (name ++ address_hash (Identity_new pk vk)))) as ->.
  { unfold create_address_hash, as_name_hash_slice, name_of_slice, splice. cbn [name_hash].
    rewrite take_0, app_nil_l, take_app_length' by (by rewrite Ln). done. }
  assert ((if context_flag (header p) then (Some (slice 84 116 (payload p)), 116%nat) else (None, 84%nat)) =
          (ratchet, if context_flag (header p) then 116%nat else 84%nat)) as ->.
  { rewrite Hf in *. destruct ratchet; simpl in *; [by rewrite F5|done]. }
  change SIGNATURE_LENGTH with 64%nat. rewrite F6, F7.
  assert ((if (MIN_ANNOUNCE_DATA_LENGTH <? length (payload p))%nat then Some (default [] app_data) else None)
          = reported_app ratchet app_data) as ->.
  { rewrite F8, Hf. change MIN_ANNOUNCE_DATA_LENGTH with 148%nat. unfold reported_app. destruct ratchet; simpl.
    - done.
    - by destruct (default [] app_data). }
  unfold Identity_verify. cbn [verifying_key Identity_new]. rewrite reported_app_bytes.
  fold (announce_signed (destination p) pk vk name rand ratchet app_data).
  by destruct (ed25519_key_ok vk), (verify_signature _ _ _).
Qed.

(** A payload of sufficient length has the fields of an announce. *)
Lemma payload_splits p :
  ((if context_flag (header p) then MIN_ANNOUNCE_DATA_LENGTH + RATCHET_KEY_LENGTH
    else MIN_ANNOUNCE_DATA_LENGTH) <= length (payload p))%nat ->
  exists pk vk name rand ratchet sig app_data,
    context_flag (header p) = bool_decide (is_Some ratchet) /\
    payload p = announce_payload pk vk name rand ratchet sig app_data /\
    fields_wf pk vk name rand ratchet sig.
Proof.
  intros Hlen. set (l := payload p) in *. set (o := if context_flag (header p) then 116%nat else 84%nat).
  set (ratchet := if context_flag (header p) then Some (slice 84 116 l) else None).
  change MIN_ANNOUNCE_DATA_LENGTH with 148%nat in Hlen. change RATCHET_KEY_LENGTH with 32%nat in Hlen.
  assert (84 <= o /\ o + 64 <= length l)%nat as [Ho Ho'] by (unfold o; destruct (context_flag _); lia).
  assert (default [] ratchet = slice 84 o l) as Er.
  { unfold ratchet, o. destruct (context_flag _); [done|]. unfold slice. by rewrite Nat.sub_diag. }
  exists (slice 0 32 l), (slice 32 64 l), (slice 64 74 l), (slice 74 84 l), ratchet, (slice o (o + 64) l),
    (Some (drop (o + 64) l)).
  split; [unfold ratchet; by destruct (context_flag _)|]. split.
  - unfold announce_payload. rewrite Er. simpl default. rewrite <- (drop_slice o), <- (drop_slice 84) by lia.
    by rewrite <- (drop_slice 74), <- (drop_slice 64), <- (drop_slice 32), <- (drop_slice 0) by lia.
  - repeat split; try (rewrite slice_length; lia). unfold ratchet_wf, ratchet, o in *.
    destruct (context_flag _); simpl; [|done]. by rewrite slice_length by lia.
Qed.

Lemma slice_skip {A} i k j (l : list A) : slice (i + k) j l = drop k (slice i j l).
Proof.
  unfold slice. rewrite skipn_firstn_comm, drop_drop. f_equal. lia.
Qed.

(** The time of emission that the path table reads from an announce. *)
Lemma announce_emitted_fields p pk vk name rand now_secs ratchet sig app_data :
  payload p = announce_payload pk vk name (announce_rand_hash rand now_secs) ratchet sig app_data ->
  fields_wf pk vk name (announce_rand_hash rand now_secs) ratchet sig -> length rand = HASH_SIZE ->
  0 <= now_secs < 2 ^ 40 -> announce_emitted p = now_secs.
Proof.
  intros Hp Hwf Hrand Hnow. pose proof (payload_fields _ _ _ _ _ _ app_data Hwf) as F. cbv zeta in F.
  rewrite <- Hp in F. destruct F as (_ & _ & _ & F4 & _ & _ & _ & F8). unfold sig_offset in F8.
  unfold announce_emitted. change (RANDOM_BLOB_OFFSET + 5)%nat with (74 + 5)%nat.
  change (74 + 5 + 5)%nat with 84%nat. rewrite slice_skip, F4.
  destruct (Nat.leb_spec 84 (length (payload p))); [|lia]. unfold announce_rand_hash.
  rewrite drop_app_length' by (rewrite length_take, Hrand; reflexivity).
  change (drop 3 (be_encode 8 now_secs)) with (be_encode 5 now_secs). by apply be_decode_encode.
Qed.

(** The name hash carried in an announce gives the address of the name. *)
Lemma name_of_slice_address (i : Identity) name :
  length (name_hash name) = HASH_SIZE ->
  create_address_hash i (name_of_slice (as_name_hash_slice name)) = create_address_hash i name.
Proof.
  intros Hname. unfold create_address_hash at 1, name_of_slice, as_name_hash_slice at 1, splice.
  cbn [name_hash]. by rewrite take_0, app_nil_l, take_app_length' by (by rewrite as_name_hash_slice_length).
Qed.

(** C14: an announce convinces every receiver. Whatever ratchets a destination
    has and whatever application data is announced (up to the room in a packet),
    the announce is accepted, with the destination's identity and address, its
    newest ratchet's public key and the announced data; and the time other nodes
    read from it to order announces is the time it was made at. *)
Theorem Announce_roundtrip (d : Destination PrivateIdentity) (secret seed : bytes) (name : DestinationName)
    (new_ratchet : bytes) (rand : Hash) (app_data : option bytes) (now_secs : Z)
    (Howned : owned d secret seed name) (Hrand : length rand = HASH_SIZE) (Hnow : 0 <= now_secs < 2 ^ 40)
    (Hfit : (MIN_ANNOUNCE_DATA_LENGTH + RATCHET_KEY_LENGTH
              + length (default [] (announced_app app_data d)) <= PACKET_MDU)%nat) :
  exists p d' dst,
    announce_at new_ratchet rand app_data now_secs d = (Ok p, d') /\
    validate p = Ok (dst, mkAnnounceData (reported_app (announced_ratchet d') (announced_app app_data d))
                            (announced_ratchet d')) /\
    dst_identity dst = identity (dst_identity d) /\
    desc_address_hash (desc dst) = desc_address_hash (desc d) /\ destination p = desc_address_hash (desc d) /\
    announce_emitted p = now_secs.
Proof.
  destruct (rotate_ratchets_if_due new_ratchet now_secs d) as [rotated d'] eqn:Hrot.
  destruct (announce_at_packet d secret seed name new_ratchet rand app_data now_secs rotated d')
    as (b & E & Hb); [done..|].
  destruct Howned as (Hi & Hdesc & Hname). rewrite Hdesc, Hi in *.
  set (i := identity (PrivateIdentity_new secret seed)) in *.
  assert (fields_wf (public_key i) (verifying_key i) (as_name_hash_slice name)
            (announce_rand_hash rand now_secs) (announced_ratchet d')
            (sign seed (announce_signed (create_address_hash i name) (public_key i) (verifying_key i)
              (as_name_hash_slice name) (announce_rand_hash rand now_secs) (announced_ratchet d')
              (announced_app app_data d)))) as Hwf.
  { split; [apply x25519_public_length|]. split; [apply ed25519_public_length|].
    split; [by apply as_name_hash_slice_length|]. split; [by apply announce_rand_hash_length|].
    split; [|apply sign_length]. unfold announced_ratchet. destruct (_ ≫= _); simpl; [|done].
    apply x25519_public_length. }
  eexists _, _, _. split; [exact E|]. split.
  - erewrite validate_fields; [|done|done|apply Hb|exact Hwf].
    cbn [destination]. change (verifying_key i) with (ed25519_public seed) at 1 2.
    rewrite ed25519_key_ok_public, verify_sign. cbn [negb].
    rewrite bool_decide_eq_true_2 by (by apply (name_of_slice_address i)). done.
  - split; [done|]. split; [by apply (name_of_slice_address i)|]. split; [done|].
    eapply announce_emitted_fields; [apply Hb|exact Hwf|done..].
Qed.

Lemma validate_sound (p : Packet) (dst : Destination Identity) (ad : AnnounceData)
    (Hok : validate p = Ok (dst, ad)) :
  exists pk vk name rand sig,
    packet_type (header p) = Announce /\ context_flag (header p) = bool_decide (is_Some (ad_ratchet ad)) /\
    payload p = announce_payload pk vk name rand (ad_ratchet ad) sig (ad_app_data ad) /\
    fields_wf pk vk name rand (ad_ratchet ad) sig /\
    verify_signature vk (announce_signed (destination p) pk vk name rand (ad_ratchet ad) (ad_app_data ad)) sig
      = true /\
    dst_identity dst = Identity_new pk vk /\ as_name_hash_slice (desc_name (desc dst)) = name /\
    desc_address_hash (desc dst) = destination p /\
    destination p = create_address_hash (Identity_new pk vk) (desc_name (desc dst)).
Proof.
  destruct (decide (packet_type (header p) = Announce)) as [Ht|Ht];
    [|unfold validate in Hok; by rewrite bool_decide_eq_false_2 in Hok].
  destruct (payload_splits p) as (pk & vk & name & rand & ratchet & sig & app_data & Hf & Hp & Hwf).
  { apply Nat.nlt_ge. intros Hlt. apply Nat.ltb_lt in Hlt. unfold validate in Hok.
    rewrite bool_decide_eq_true_2 in Hok by done. cbn [negb] in Hok. by rewrite Hlt in Hok. }
  rewrite (validate_fields _ _ _ _ _ _ _ _ Ht Hf Hp Hwf) in Hok.
  destruct (ed25519_key_ok vk); [|done]. destruct (verify_signature _ _ _) eqn:Hs; [|done].
  destruct (decide (create_address_hash (Identity_new pk vk) (name_of_slice name) = destination p)) as [Ha|Ha];
    [rewrite bool_decide_eq_true_2 in Hok by done|by rewrite bool_decide_eq_false_2 in Hok].
  cbn [negb] in Hok. injection Hok as <- <-. cbn [ad_ratchet ad_app_data].
  exists pk, vk, name, rand, sig. split; [done|]. split; [done|].
  split; [unfold announce_payload; by rewrite reported_app_bytes|]. split; [done|].
  split; [unfold announce_signed; by rewrite reported_app_bytes|]. split; [done|].
  split; [|split; [exact Ha|exact (eq_sym Ha)]].
  destruct Hwf as (_ & _ & Ln & _). unfold as_name_hash_slice, name_of_slice, splice.
  cbn [SingleOutputDestination_new fresh_destination desc desc_name name_hash].
  rewrite take_0, app_nil_l. apply take_app_length'. by rewrite Ln.
Qed.

(** C15: only authentic announces are accepted. An accepted packet is an
    announce whose payload is exactly the fields key, name hash, random hash,
    ratchet (if the context flag is set), signature and application data; the
    signature is the announcing identity's over the destination and all other
    fields; and the destination address is that of the announced name and
    identity, under which the result is reported. *)
Theorem Announce_authentic (p : Packet) (dst : Destination Identity) (ad : AnnounceData)
    (Hok : validate p = Ok (dst, ad)) :
  exists pk vk name rand sig,
    packet_type (header p) = Announce /\ context_flag (header p) = bool_decide (is_Some (ad_ratchet ad)) /\
    payload p = announce_payload pk vk name rand (ad_ratchet ad) sig (ad_app_data ad) /\
    fields_wf pk vk name rand (ad_ratchet ad) sig /\
    verify_signature vk (announce_signed (destination p) pk vk name rand (ad_ratchet ad) (ad_app_data ad)) sig
      = true /\
    dst_identity dst = Identity_new pk vk /\ as_name_hash_slice (desc_name (desc dst)) = name /\
    desc_address_hash (desc dst) = destination p /\
    destination p = create_address_hash (Identity_new pk vk) (desc_name (desc dst)).
Proof. exact (validate_sound p dst ad Hok). Qed.

End AnnounceTheorems.

(** ** Ratchet retention *)
Inductive RatchetOp :=
| OpRotate (new_ratchet : bytes) (now_secs : Z)
| OpAnnounce (new_ratchet : bytes) (rand : Hash) (app_data : option bytes) (now_secs : Z).

Definition op_time (op : RatchetOp) : Z :=
  match op with OpRotate _ now_secs => now_secs | OpAnnounce _ _ _ now_secs => now_secs end.

Section Retention.
Context `{Sha256} `{Signing} `{!Verifying} `{!Ed25519} `{!Ed25519Keys} `{X25519}.

Definition run_op (d : Destination PrivateIdentity) (op : RatchetOp) : Destination PrivateIdentity :=
  match op with
  | OpRotate new_ratchet now_secs => (rotate_ratchets new_ratchet now_secs d).2
  | OpAnnounce new_ratchet rand app_data now_secs => (announce_at new_ratchet rand app_data now_secs d).2
  end.

Lemma announce_at_state new_ratchet rand app_data now_secs d :
  (announce_at new_ratchet rand app_data now_secs d).2 = (rotate_ratchets_if_due new_ratchet now_secs d).2.
Proof. unfold announce_at. destruct (rotate_ratchets_if_due _ _ _). by repeat case_match. Qed.

Lemma run_op_state d op r :
  ratchets d = Some r -> r <> [] ->
  run_op d op =
    if rotation_due d (op_time op)
    then push_ratchet (match op with OpRotate n _ => n | OpAnnounce n _ _ _ => n end) (op_time op) d else d.
Proof.
  intros Hr Hne. destruct op as [n t|n rand a t]; simpl.
  - unfold rotate_ratchets. rewrite Hr. by destruct (rotation_due d t).
  - rewrite announce_at_state. unfold rotate_ratchets_if_due. rewrite Hr, bool_decide_eq_false_2 by done.
    by destruct (rotation_due d t).
Qed.

(** The destination still has the ratchet [r], made at [t0], with [newer] ones
    in front of it. *)
Definition retains (d0 : Destination PrivateIdentity) (r : bytes) (t0 : Z) (d : Destination PrivateIdentity)
    (newer older : list bytes) : Prop :=
  ratchets d = Some (newer ++ r :: older) /\ ratchet_interval d = ratchet_interval d0 /\
  retained_ratchets d = retained_ratchets d0 /\
  t0 + Z.of_nat (length newer) * ratchet_interval d0 <= latest_ratchet_time d < 2 ^ 63.

Lemma push_ratchet_retains d0 r t0 d newer older n t k :
  retains d0 r t0 d newer older -> (S (length newer) < RATCHET_COUNT `min` retained_ratchets d0)%nat ->
  t0 + Z.of_nat (S (length newer)) * ratchet_interval d0 <= t < 2 ^ 63 ->
  k = (RATCHET_COUNT `min` retained_ratchets d0)%nat ->
  exists older', retains d0 r t0 (push_ratchet n t d) (n :: newer) older'.
Proof.
  intros (Hr & Hi & Hc & _) Hlen Ht Hk. unfold push_ratchet, clean_ratchets. rewrite Hr.
  cbn [with_ratchets ratchets fmap option_fmap option_map retained_ratchets latest_ratchet_time ratchets_enforced
       ratchet_interval]. rewrite Hc, <- Hk in *.
  case_match; zb.
  - exists (take (k - S (S (length newer))) older). unfold retains.
    cbn [with_ratchets ratchets latest_ratchet_time ratchet_interval retained_ratchets]. split; [|done]. f_equal.
    destruct k as [|k]; [lia|]. cbn [take app]. f_equal.
    rewrite take_app_ge by lia. f_equal. destruct (k - length newer)%nat as [|m] eqn:E; [lia|]. simpl.
    do 2 f_equal. lia.
  - exists older. unfold retains. simpl. done.
Qed.

(** how long a ratchet stays usable. After a key [r] is rotated in at time
    [t0], any sequence of rotations and announces within the next [k] intervals,
    where [k + 1] keys are retained (at most 512), leaves [r] in the list with at
    most [k] newer keys before it, so that packets sealed for it can still be
    opened. *)
Theorem Ratchet_retention (d : Destination PrivateIdentity) (r : bytes) (rest : list bytes) (ops : list RatchetOp)
    (Hr : ratchets d = Some (r :: rest)) (Hretain : (1 <= retained_ratchets d)%nat)
    (Hinterval : 0 < ratchet_interval d) (t0 := latest_ratchet_time d)
    (k := (RATCHET_COUNT `min` retained_ratchets d - 1)%nat)
    (Hbound : 0 <= t0 /\ t0 + (Z.of_nat k + 1) * ratchet_interval d < 2 ^ 63)
    (Hops : Forall (fun op => op_time op <= t0 + Z.of_nat k * ratchet_interval d) ops) :
  exists newer older,
    ratchets (foldl run_op d ops) = Some (newer ++ r :: older) /\ (length newer <= k)%nat.
Proof.
  enough (forall d' newer older, retains d r t0 d' newer older -> (length newer <= k)%nat ->
            latest_ratchet_time d' <= t0 + Z.of_nat k * ratchet_interval d ->
            exists newer older, ratchets (foldl run_op d' ops) = Some (newer ++ r :: older) /\
              (length newer <= k)%nat) as Hgen.
  { apply (Hgen d [] rest); [|simpl; lia|nia]. unfold retains. simpl. repeat split; try done; nia. }
  induction Hops as [|op ops Hop _ IH]; intros d' newer older Hret Hlen Hlatest.
  { exists newer, older. split; [apply Hret|done]. }
  simpl. pose proof Hret as (Hr' & Hi & Hc & Ht).
  erewrite run_op_state by (done || by destruct newer).
  destruct (rotation_due d' (op_time op)) eqn:Hdue; [|by eapply IH].
  unfold rotation_due in Hdue. zb. rewrite Hi, wrap_small in Hdue by (unfold in_width; nia).
  assert (S (length newer) <= k)%nat by nia.
  edestruct (push_ratchet_retains d r t0 d' newer older) as [older' Hret']; [done|unfold k in *; lia| |done|].
  2:{ eapply IH; [exact Hret'|simpl; lia|]. unfold push_ratchet, clean_ratchets. by repeat case_match. }
  rewrite Nat2Z.inj_succ. nia.
Qed.

End Retention.

(** ** Witnesses *)
#[local] Existing Instance toy_sha256.
#[local] Existing Instance toy_x25519.
#[local] Existing Instance toy_signing.
#[local] Existing Instance toy_verifying.
#[local] Existing Instance toy_ed25519.
#[local] Existing Instance toy_keys.

Definition sample_name : DestinationName := mkName (replicate 32 6).
Definition sample_destination : Destination PrivateIdentity :=
  enable_ratchets [replicate 32 1]
    (SingleInputDestination_new (PrivateIdentity_new (replicate 32 2) (replicate 32 3)) sample_name).

Lemma Announce_roundtrip_witness :
  exists p d' dst ad,
    announce_at (replicate 32 9) (replicate 32 8) (Some [104; 105]) 1700000000 sample_destination = (Ok p, d') /\
    validate p = Ok (dst, ad) /\ ad_app_data ad = Some [104; 105] /\ announce_emitted p = 1700000000.
Proof.
  destruct (Announce_roundtrip sample_destination (replicate 32 2) (replicate 32 3) sample_name (replicate 32 9)
    (replicate 32 8) (Some [104; 105]) 1700000000) as (p & d' & dst & E & V & _ & _ & _ & T).
  - repeat split.
  - reflexivity.
  - lia.
  - apply Nat.leb_le. vm_compute. reflexivity.
  - exists p, d', dst. eexists. split; [exact E|]. split; [exact V|]. split; [|exact T].
    cbn [ad_app_data]. unfold reported_app. by case_bool_decide.
Defined.

Definition sample_announce : Packet :=
  match announce_at (replicate 32 9) (replicate 32 8) None 1700000000 sample_destination with
  | (Ok p, _) => p
  | _ => Packet_default
  end.

Lemma Announce_authentic_witness :
  exists pk vk name rand ratchet sig app_data,
    payload sample_announce = announce_payload pk vk name rand ratchet sig app_data /\
    verify_signature vk (announce_signed (destination sample_announce) pk vk name rand ratchet app_data) sig = true.
Proof.
  destruct (validate sample_announce) as [[dst ad]|e] eqn:E; [|vm_compute in E; discriminate E].
  destruct (Announce_authentic sample_announce dst ad E) as (pk & vk & name & rand & sig & _ & _ & Hp & _ & Hv & _).
  exists pk, vk, name, rand, (ad_ratchet ad), sig, (ad_app_data ad). split; [exact Hp|exact Hv].
Defined.

Lemma Ratchet_retention_witness :
  exists newer older,
    ratchets (foldl run_op (push_ratchet (replicate 32 7) 1000 sample_destination)
      [OpRotate (replicate 32 9) 3000; OpAnnounce (replicate 32 8) (replicate 32 0) None 6000])
    = Some (newer ++ replicate 32 7 :: older) /\ (length newer <= 511)%nat.
Proof.
  apply (Ratchet_retention (push_ratchet (replicate 32 7) 1000 sample_destination) (replicate 32 7)
    [replicate 32 1] [OpRotate (replicate 32 9) 3000; OpAnnounce (replicate 32 8) (replicate 32 0) None 6000]).
  - reflexivity.
  - apply Nat.leb_le. reflexivity.
  - reflexivity.
  - vm_compute. split; congruence.
  - repeat constructor; vm_compute; congruence.
Defined.
