(* ===== verification/Links.v ===== *)
(** * Links ([reticulum-core/src/destination/link.rs], [destination/link_map.rs])

    The two ends of an encrypted link: request, proof, activation, data, proofs
    of receipt, identification, keepalives, staleness and teardown.  The clock is
    an argument [now] in nanoseconds, one reading per operation; a random draw is
    an argument.  An operation on [&mut self] returns the new link; what it sends
    to the event and channel sinks is returned as lists.  A result is [None]
    where the token encryption panics (see [Token]). *)

From Stdlib Require Import Floats.SpecFloat.
From S2P Require Import Prelude Float Buffer Crypto Hash Packet LinkTable Token Identity Msgpack Destination.

Definition LINK_MTU_SIZE : nat := 3.

Inductive LinkStatus := Pending | Handshake | Active | Stale | Closed.

#[export] Instance LinkStatus_eq_dec : EqDecision LinkStatus.
Proof. solve_decision. Defined.

Definition not_yet_active (s : LinkStatus) : bool :=
  match s with Pending | Handshake => true | _ => false end.

Abbreviation LinkId := (list Z) (only parsing).

(** A payload is the used part of its buffer. *)
Definition LinkPayload_new_from_slice (d : bytes) : bytes := take (length d `min` PACKET_MDU) d.

Inductive LinkEvent :=
| EventActivated
| EventData (p : bytes)
| EventProof (hash : Hash)
| EventRemoteIdentified (i : Identity)
| EventClosed.

Record LinkEventData := mkEvent {
  ev_id : LinkId;
  ev_address_hash : AddressHash;
  event : LinkEvent;
}.

Inductive LinkHandleResult :=
| ResultNone
| ResultActivated
| ResultKeepAlive
| ResultMessageReceived (proof : option Packet).

Definition LINK_MODE_AES256_CBC : Z := 0x01.
Definition LINK_MODE_BYTEMASK : Z := 0xE0.
Definition KEEPALIVE_MAX_RTT : f64 := f64_lit 7 (-2).
Definition KEEPALIVE_TIMEOUT_FACTOR : Z := 4.
Definition STALE_GRACE : Z := 5 * NANOS.
Definition KEEPALIVE_MAX : Z := 360 * NANOS.
Definition KEEPALIVE_MIN : Z := 5 * NANOS.
Definition KEEPALIVE : Z := KEEPALIVE_MAX.
Definition STALE_FACTOR : Z := 2.
Definition STALE_TIME : Z := KEEPALIVE_MAX / NANOS * STALE_FACTOR * NANOS.
Definition WATCHDOG_MAX_SLEEP : Z := 5 * NANOS.

(** ** The link state *)
Module Link.

Record t := mk {
  id : LinkId;
  destination : DestinationDesc;
  priv_identity : PrivateIdentity;
  peer_identity : Identity;
  remote_identity : option Identity;
  derived_key : bytes;
  status : LinkStatus;
  request_time : Z;
  last_inbound : Z;
  last_outbound : Z;
  rtt : Z;
  rtt_known : bool;
  keepalive : Z;
  last_keepalive : Z;
  proves_messages : bool;
  mtu : Z;
  establishment_cost : Z;
  expected_rate : option f64;
  last_resource_window : option Z;
  last_resource_eifr : option f64;
}.

Definition set_status (s : LinkStatus) (l : t) : t :=
  mk (id l) (destination l) (priv_identity l) (peer_identity l) (remote_identity l) (derived_key l)
    s (request_time l) (last_inbound l) (last_outbound l) (rtt l) (rtt_known l) (keepalive l)
    (last_keepalive l) (proves_messages l) (mtu l) (establishment_cost l) (expected_rate l)
    (last_resource_window l) (last_resource_eifr l).

Definition set_id (i : LinkId) (l : t) : t :=
  mk i (destination l) (priv_identity l) (peer_identity l) (remote_identity l) (derived_key l)
    (status l) (request_time l) (last_inbound l) (last_outbound l) (rtt l) (rtt_known l)
    (keepalive l) (last_keepalive l) (proves_messages l) (mtu l) (establishment_cost l)
    (expected_rate l) (last_resource_window l) (last_resource_eifr l).

Definition set_request_time (now : Z) (l : t) : t :=
  mk (id l) (destination l) (priv_identity l) (peer_identity l) (remote_identity l) (derived_key l)
    (status l) now (last_inbound l) (last_outbound l) (rtt l) (rtt_known l) (keepalive l)
    (last_keepalive l) (proves_messages l) (mtu l) (establishment_cost l) (expected_rate l)
    (last_resource_window l) (last_resource_eifr l).

Definition set_last_inbound (now : Z) (l : t) : t :=
  mk (id l) (destination l) (priv_identity l) (peer_identity l) (remote_identity l) (derived_key l)
    (status l) (request_time l) now (last_outbound l) (rtt l) (rtt_known l) (keepalive l)
    (last_keepalive l) (proves_messages l) (mtu l) (establishment_cost l) (expected_rate l)
    (last_resource_window l) (last_resource_eifr l).

Definition set_outbound (outbound keep : Z) (l : t) : t :=
  mk (id l) (destination l) (priv_identity l) (peer_identity l) (remote_identity l) (derived_key l)
    (status l) (request_time l) (last_inbound l) outbound (rtt l) (rtt_known l) (keepalive l) keep
    (proves_messages l) (mtu l) (establishment_cost l) (expected_rate l) (last_resource_window l)
    (last_resource_eifr l).

Definition set_rtt (r : Z) (known : bool) (keep : Z) (l : t) : t :=
  mk (id l) (destination l) (priv_identity l) (peer_identity l) (remote_identity l) (derived_key l)
    (status l) (request_time l) (last_inbound l) (last_outbound l) r known keep (last_keepalive l)
    (proves_messages l) (mtu l) (establishment_cost l) (expected_rate l) (last_resource_window l)
    (last_resource_eifr l).

Definition set_peer (peer : Identity) (key : bytes) (l : t) : t :=
  mk (id l) (destination l) (priv_identity l) peer (remote_identity l) key (status l)
    (request_time l) (last_inbound l) (last_outbound l) (rtt l) (rtt_known l) (keepalive l)
    (last_keepalive l) (proves_messages l) (mtu l) (establishment_cost l) (expected_rate l)
    (last_resource_window l) (last_resource_eifr l).

Definition set_remote (remote : option Identity) (l : t) : t :=
  mk (id l) (destination l) (priv_identity l) (peer_identity l) remote (derived_key l) (status l)
    (request_time l) (last_inbound l) (last_outbound l) (rtt l) (rtt_known l) (keepalive l)
    (last_keepalive l) (proves_messages l) (mtu l) (establishment_cost l) (expected_rate l)
    (last_resource_window l) (last_resource_eifr l).

Definition prove_messages (setting : bool) (l : t) : t :=
  mk (id l) (destination l) (priv_identity l) (peer_identity l) (remote_identity l) (derived_key l)
    (status l) (request_time l) (last_inbound l) (last_outbound l) (rtt l) (rtt_known l)
    (keepalive l) (last_keepalive l) setting (mtu l) (establishment_cost l) (expected_rate l)
    (last_resource_window l) (last_resource_eifr l).

Definition with_mtu (m : Z) (l : t) : t :=
  mk (id l) (destination l) (priv_identity l) (peer_identity l) (remote_identity l) (derived_key l)
    (status l) (request_time l) (last_inbound l) (last_outbound l) (rtt l) (rtt_known l)
    (keepalive l) (last_keepalive l) (proves_messages l) m (establishment_cost l) (expected_rate l)
    (last_resource_window l) (last_resource_eifr l).

Definition add_establishment_cost (cost : Z) (l : t) : t :=
  mk (id l) (destination l) (priv_identity l) (peer_identity l) (remote_identity l) (derived_key l)
    (status l) (request_time l) (last_inbound l) (last_outbound l) (rtt l) (rtt_known l)
    (keepalive l) (last_keepalive l) (proves_messages l) (mtu l) (establishment_cost l + cost)
    (expected_rate l) (last_resource_window l) (last_resource_eifr l).

Definition set_expected_rate (rate : option f64) (l : t) : t :=
  mk (id l) (destination l) (priv_identity l) (peer_identity l) (remote_identity l) (derived_key l)
    (status l) (request_time l) (last_inbound l) (last_outbound l) (rtt l) (rtt_known l)
    (keepalive l) (last_keepalive l) (proves_messages l) (mtu l) (establishment_cost l) rate
    (last_resource_window l) (last_resource_eifr l).

Definition set_last_resource_window (window : option Z) (l : t) : t :=
  mk (id l) (destination l) (priv_identity l) (peer_identity l) (remote_identity l) (derived_key l)
    (status l) (request_time l) (last_inbound l) (last_outbound l) (rtt l) (rtt_known l)
    (keepalive l) (last_keepalive l) (proves_messages l) (mtu l) (establishment_cost l)
    (expected_rate l) window (last_resource_eifr l).

Definition set_last_resource_eifr (eifr : option f64) (l : t) : t :=
  mk (id l) (destination l) (priv_identity l) (peer_identity l) (remote_identity l) (derived_key l)
    (status l) (request_time l) (last_inbound l) (last_outbound l) (rtt l) (rtt_known l)
    (keepalive l) (last_keepalive l) (proves_messages l) (mtu l) (establishment_cost l)
    (expected_rate l) (last_resource_window l) eifr.

(** A link in its first state. *)
Definition fresh (i : LinkId) (dest : DestinationDesc) (priv : PrivateIdentity) (peer : Identity)
    (m now : Z) : t :=
  mk i dest priv peer None DerivedKey_new_empty Pending now now now 0 false KEEPALIVE now false m 0
    None None None.

End Link.
Import Link.

(** [u32] packing of the MTU and the mode, low three bytes. *)
Definition signalling_bytes (m : Z) : bytes :=
  let mode := LINK_MODE_AES256_CBC in
  let value := Z.land m 0x1FFFFF + Z.shiftl (Z.land (wrap 8 (Z.shiftl mode 5)) 0xE0) 16 in
  drop 1 (be_encode 4 value).

Definition link_packet (l : Link.t) (ty : PacketType) (ctx : PacketContext) (d : StaticBuffer.t) : Packet :=
  mkPacket (mkHeader Open false Type1 Broadcast Packet.Link ty 0) None (id l) None ctx d.

Definition duration_since (now earlier : Z) : Z := Z.max 0 (now - earlier).

Definition post_event (l : Link.t) (e : LinkEvent) : list LinkEventData :=
  [mkEvent (id l) (desc_address_hash (destination l)) e].

(** The buffer of a packet holding a token that was written to its start. *)
Definition token_buffer (token : bytes) : StaticBuffer.t :=
  StaticBuffer.resize (length token)
    (StaticBuffer.fill token (StaticBuffer.mk (replicate PACKET_MDU 0) PACKET_MDU)).

(** What the packet constructors require of the status. *)
Definition ready (s : LinkStatus) : result unit :=
  match s with
  | Pending | Handshake => Err LinkNotReady
  | Closed => Err LinkClosed
  | Active | Stale => Ok ()
  end.

(** ** Clocks and keepalives *)
Definition touch (now : Z) (l : Link.t) : Link.t :=
  let l := set_last_inbound now l in
  if decide (status l = Stale) then set_status Active l else l.

Definition stale (l : Link.t) : Link.t := set_status Stale l.
Definition restart (l : Link.t) : Link.t := set_status Pending l.
Definition elapsed (now : Z) (l : Link.t) : Z := duration_since now (last_inbound l).
Definition since_request (now : Z) (l : Link.t) : Z := duration_since now (request_time l).

Definition stale_time (l : Link.t) : Z := Z.min DURATION_MAX (keepalive l * STALE_FACTOR).

Definition effective_stale (l : Link.t) (unknown_rtt : Z) : Z :=
  if rtt_known l then stale_time l else unknown_rtt.

Definition close_grace (l : Link.t) : Z :=
  let scaled := if rtt_known l
                then Z.min DURATION_MAX (Z.min DURATION_MAX (rtt l * KEEPALIVE_TIMEOUT_FACTOR) + STALE_GRACE)
                else STALE_GRACE in
  Z.min scaled WATCHDOG_MAX_SLEEP.

Definition keepalive_interval (l : Link.t) (unknown_rtt : Z) : Z :=
  if rtt_known l then keepalive l else unknown_rtt.

Definition keepalive_due (now : Z) (l : Link.t) (unknown_rtt : Z) : bool :=
  if negb (bool_decide (status l = Active)) then false
  else
    let interval := keepalive_interval l unknown_rtt in
    let inbound_idle := interval <=? duration_since now (last_inbound l) in
    let outbound_idle := interval <=? duration_since now (last_outbound l) in
    let keepalive_idle := interval <=? duration_since now (last_keepalive l) in
    (inbound_idle || outbound_idle) && keepalive_idle.

Definition keepalive_reply_due (now : Z) (l : Link.t) (unknown_rtt : Z) : bool :=
  match status l with
  | Active | Stale => keepalive_interval l unknown_rtt <=? duration_since now (last_outbound l)
  | _ => false
  end.

Definition mark_outbound (now : Z) (is_keepalive : bool) (l : Link.t) : Link.t :=
  set_outbound now (if is_keepalive then now else last_keepalive l) l.

Definition mark_keepalive_sent (now : Z) (l : Link.t) : Link.t := mark_outbound now true l.

(** The clamped value lies between 5 and 360 seconds, so it is a duration. *)
Definition note_rtt (r : Z) (l : Link.t) : Link.t :=
  let scaled := f64_mul (as_secs_f64 r) (f64_div (as_secs_f64 KEEPALIVE_MAX) KEEPALIVE_MAX_RTT) in
  let secs := f64_clamp (as_secs_f64 KEEPALIVE_MIN) (as_secs_f64 KEEPALIVE_MAX) scaled in
  set_rtt r true (default 0 (from_secs_f64 secs)) l.

Definition note_responder_rtt (now advertised : Z) (l : Link.t) : Link.t :=
  note_rtt (Z.max (since_request now l) advertised) l.

(** ** Sizes *)
Definition set_mtu (m : Z) (l : Link.t) : Link.t :=
  with_mtu (if m =? 0 then PROTOCOL_MTU else Z.max m LINK_MTU_MIN) l.

Definition mdu (l : Link.t) : Z :=
  let m := Z.max 0 (mtu l - (IFAC_MIN_SIZE + HEADER_MINSIZE + TOKEN_OVERHEAD)) in
  Z.max 0 (m / Packet.AES128_BLOCKSIZE * Packet.AES128_BLOCKSIZE - 1).

Definition sdu (l : Link.t) : Z := Z.max 0 (mtu l - (HEADER_MAXSIZE + IFAC_MIN_SIZE)).

Definition close (l : Link.t) : Link.t * list LinkEventData :=
  let l := set_status Closed l in (l, post_event l EventClosed).

(** ** Validation of requests and proofs *)
Definition reject_disabled_link_mode (p : Packet) : result unit :=
  let keys := (PUBLIC_KEY_LENGTH * 2)%nat in
  if (length (payload p) <=? keys)%nat then Ok ()
  else if Z.shiftr (Z.land (nth keys (payload p) 0) LINK_MODE_BYTEMASK) 5 =? LINK_MODE_AES256_CBC then Ok ()
  else Err InvalidArgument.

Definition mode_from_lp_packet (d : bytes) : Z :=
  let offset := (SIGNATURE_LENGTH + PUBLIC_KEY_LENGTH)%nat in
  if (offset <? length d)%nat then Z.shiftr (nth offset d 0) 5 else LINK_MODE_AES256_CBC.

Definition request_mtu (d : bytes) : result Z :=
  if (PUBLIC_KEY_LENGTH * 2 + LINK_MTU_SIZE <=? length d)%nat then
    let sig := slice (PUBLIC_KEY_LENGTH * 2) (PUBLIC_KEY_LENGTH * 2 + LINK_MTU_SIZE) d in
    let value := Z.lor (Z.lor (Z.shiftl (nth 0 sig 0) 16) (Z.shiftl (nth 1 sig 0) 8)) (nth 2 sig 0) in
    let m := Z.land value 0x1FFFFF in
    if negb (m =? 0) && (m <? LINK_MTU_MIN) then Err InvalidArgument
    else Ok (if m =? 0 then PROTOCOL_MTU else m)
  else Ok PROTOCOL_MTU.

Section LinkOperations.
Context `{Sha256} `{Hkdf} `{X25519} `{CbcCipher} `{HmacSha256}.
Context `{Signing} `{!Verifying} `{!Ed25519} `{!Ed25519Keys} `{Rmp} `{RmpDecode}.

Definition validate_proof_packet (dest : DestinationDesc) (i : LinkId) (p : Packet) : result Identity :=
  let d := payload p in
  if (length d <? SIGNATURE_LENGTH + PUBLIC_KEY_LENGTH)%nat then Err PacketError
  else
    let vk := verifying_key (desc_identity dest) in
    let peer := slice SIGNATURE_LENGTH (SIGNATURE_LENGTH + PUBLIC_KEY_LENGTH) d in
    let mtu_bytes := if (SIGNATURE_LENGTH + PUBLIC_KEY_LENGTH + LINK_MTU_SIZE <=? length d)%nat
                     then drop (SIGNATURE_LENGTH + PUBLIC_KEY_LENGTH) d else [] in
    if (LINK_MTU_SIZE <? length mtu_bytes)%nat then Err OutOfMemory
    else
      let who := identity_of_keys peer vk in
      match Identity_verify who (i ++ peer ++ vk ++ mtu_bytes) (take SIGNATURE_LENGTH d) with
      | Ok _ => Ok who
      | Err _ => Err IncorrectSignature
      end.

Definition validate_message_proof (peer : Identity) (d : bytes) : result Hash :=
  if (length d <=? HASH_SIZE)%nat then Err PacketError
  else if negb (length (drop HASH_SIZE d) =? SIGNATURE_LENGTH)%nat then Err PacketError
  else if verify_lax (verifying_key peer) (take HASH_SIZE d) (drop HASH_SIZE d) then Ok (take HASH_SIZE d)
  else Err IncorrectSignature.

(** ** Establishment *)
Definition handshake (peer : Identity) (l : Link.t) : Link.t :=
  set_peer peer
    (DerivedKey_new_from_private_key (private_key (priv_identity l)) (public_key peer) (Some (id l)))
    (set_status Handshake l).

(** [secret], [seed]: the random keys of the initiator. *)
Definition Link_new (secret seed : bytes) (dest : DestinationDesc) (now : Z) : Link.t :=
  fresh AddressHash_new_empty dest (PrivateIdentity_new secret seed) Identity_default PROTOCOL_MTU now.

Definition new_from_request (p : Packet) (signing_key : bytes) (dest : DestinationDesc) (secret : bytes)
    (now : Z) : result Link.t :=
  let d := payload p in
  if (length d <? PUBLIC_KEY_LENGTH * 2)%nat then Err InvalidArgument
  else
    _ ← reject_disabled_link_mode p;
    let peer := identity_of_keys (take PUBLIC_KEY_LENGTH d) (slice PUBLIC_KEY_LENGTH (PUBLIC_KEY_LENGTH * 2) d) in
    m ← request_mtu d;
    Ok (handshake peer
          (fresh (LinkId_from p) dest (PrivateIdentity_new secret signing_key) peer m now)).

Definition request (now : Z) (l : Link.t) : Packet * Link.t :=
  let i := identity (priv_identity l) in
  let b := StaticBuffer.chain_safe_write (signalling_bytes (mtu l))
             (StaticBuffer.chain_safe_write (verifying_key i)
               (StaticBuffer.chain_safe_write (public_key i) PacketDataBuffer_new)) in
  let p := mkPacket (mkHeader Open false Type1 Broadcast Single LinkRequest 0) None
             (desc_address_hash (destination l)) None CtxNone b in
  (p, touch now (set_request_time now (set_id (LinkId_from p) (set_status Pending l)))).

Definition prove (l : Link.t) : Packet * Link.t * list LinkEventData :=
  let '(l, events) := if decide (status l = Active) then (l, [])
                      else let l := set_status Active l in (l, post_event l EventActivated) in
  let i := identity (priv_identity l) in
  let chain := StaticBuffer.chain_safe_write in
  let b := chain (signalling_bytes (mtu l)) (chain (verifying_key i) (chain (public_key i)
             (chain (id l) PacketDataBuffer_new))) in
  let signature := PrivateIdentity_sign (priv_identity l) (StaticBuffer.as_slice b) in
  let b := chain (signalling_bytes (mtu l)) (chain (public_key i) (chain signature (StaticBuffer.reset b))) in
  (mkPacket (mkHeader Open false Type1 Broadcast Single Proof 0) None (id l) None CtxLinkRequestProof b,
   l, events).

(** ** Packets on the link *)
Definition Link_encrypt (l : Link.t) (iv text : bytes) (out_len : nat) : option (result bytes) :=
  PrivateIdentity_encrypt_derived iv text (derived_key l) out_len.

Definition Link_decrypt (l : Link.t) (d : bytes) (out_len : nat) : result bytes :=
  PrivateIdentity_decrypt_derived d (derived_key l) out_len.

(** An encrypted packet of the given context. *)
Definition context_packet (l : Link.t) (iv text : bytes) (ctx : PacketContext) : option (result Packet) :=
  match ready (status l) with
  | Err e => Some (Err e)
  | Ok _ =>
      r ← Link_encrypt l iv text PACKET_MDU;
      Some (token ← r; Ok (link_packet l Data ctx (token_buffer token)))
  end.

Definition data_packet (l : Link.t) (iv text : bytes) : option (result Packet) :=
  context_packet l iv text CtxNone.

Definition identify (l : Link.t) (iv : bytes) (who : PrivateIdentity) : option (result Packet) :=
  let i := identity who in
  let signed_data := id l ++ public_key i ++ verifying_key i in
  let signature := PrivateIdentity_sign who signed_data in
  context_packet l iv (public_key i ++ verifying_key i ++ signature) CtxLinkIdentify.

Definition keep_alive_packet (l : Link.t) (d : Z) : Packet :=
  link_packet l Data CtxKeepAlive (StaticBuffer.chain_safe_write [d] PacketDataBuffer_new).

Definition raw_packet (l : Link.t) (d : bytes) (ty : PacketType) (ctx : PacketContext) : result Packet :=
  _ ← ready (status l);
  Ok (link_packet l ty ctx (StaticBuffer.chain_safe_write d PacketDataBuffer_new)).

Definition encrypt_alloc (l : Link.t) (iv text out : bytes) : option (result (nat * bytes)) :=
  r ← Link_encrypt l iv text (length text + Z.to_nat TOKEN_OVERHEAD + 64);
  Some (token ← r; Ok (length (out ++ token), out ++ token)).

Definition message_proof (l : Link.t) (h : Hash) : Packet :=
  let signature := PrivateIdentity_sign (priv_identity l) h in
  link_packet l Proof CtxNone
    (StaticBuffer.chain_safe_write signature (StaticBuffer.chain_safe_write h PacketDataBuffer_new)).

(** [None]: [expect] on an error. *)
Definition create_rtt (l : Link.t) (iv : bytes) : option Packet :=
  let buf := write_f64 (f64_to_bits (as_secs_f64 (rtt l))) in
  r ← Link_encrypt l iv buf PACKET_MDU;
  match r with
  | Ok token => Some (link_packet l Data CtxLinkRTT (token_buffer token))
  | Err _ => None
  end.

(** [ZeroRng] makes the initialization vector zero. *)
Definition teardown (l : Link.t) : option (result (option Packet) * Link.t * list LinkEventData) :=
  match status l with
  | Pending | Closed => let '(l, events) := close l in Some (Ok None, l, events)
  | _ =>
      r ← data_packet l (replicate IV_KEY_SIZE 0) (id l);
      Some (match r with
            | Err e => (Err e, l, [])
            | Ok p =>
                let p := mkPacket (header p) (ifac p) (Packet.destination p) (transport p) CtxLinkClose (Packet.data p) in
                let '(l, events) := close l in (Ok (Some p), l, events)
            end)
  end.

(** ** Inbound packets

    What a handler returns: the result for the transport, the link, the posted
    events, and the payloads sent to the channel. *)
Record LinkHandled := mkLinkHandled {
  h_result : LinkHandleResult;
  h_link : Link.t;
  h_events : list LinkEventData;
  h_channel : list bytes;
}.

Definition ignored (l : Link.t) : LinkHandled := mkLinkHandled ResultNone l [] [].

Definition handle_data_none (now : Z) (l : Link.t) (p : Packet) (text : bytes) : LinkHandled :=
  let l := touch now l in
  mkLinkHandled (ResultMessageReceived (if proves_messages l then Some (message_proof l (Packet_hash p)) else None))
    l (post_event l (EventData (LinkPayload_new_from_slice text))) [].

Definition handle_identify (now : Z) (l : Link.t) (out_link : bool) (text : bytes) : LinkHandled :=
  let l := touch now l in
  if negb out_link && (length text =? PUBLIC_KEY_LENGTH * 2 + SIGNATURE_LENGTH)%nat then
    let pk := take PUBLIC_KEY_LENGTH text in
    let vk := slice PUBLIC_KEY_LENGTH (PUBLIC_KEY_LENGTH * 2) text in
    let signed_data := id l ++ pk ++ vk in
    let signature := drop (PUBLIC_KEY_LENGTH * 2) text in
    let who := identity_of_keys pk vk in
    match Identity_verify who signed_data signature with
    | Ok _ =>
        match remote_identity l with
        | Some _ => ignored l
        | None =>
            let l := set_remote (Some who) l in
            mkLinkHandled ResultNone l (post_event l (EventRemoteIdentified who)) []
        end
    | Err _ => ignored l
    end
  else ignored l.

Definition handle_keepalive_packet (now : Z) (l : Link.t) (out_link : bool) (p : Packet) : LinkHandled :=
  match payload p with
  | b :: _ =>
      if b =? 0xFF then
        if out_link then ignored l else mkLinkHandled ResultKeepAlive (touch now l) [] []
      else if b =? 0xFE then ignored (touch now l)
      else ignored l
  | [] => ignored l
  end.

(** The range test [(0.0..86_400.0).contains(&rtt)]. *)
Definition rtt_acceptable (x : f64) : bool :=
  f_is_finite x && (f_le (f64_of_Z 0) x && f_lt x (f64_of_Z 86400)).

Definition handle_rtt (now : Z) (l : Link.t) (text : bytes) : LinkHandled :=
  match decode_f64 text with
  | Some bits =>
      let x := f64_from_bits bits in
      if rtt_acceptable x
      then ignored (touch now (note_responder_rtt now (default 0 (from_secs_f64 x)) l))
      else ignored l
  | None => ignored l
  end.

Definition handle_close (l : Link.t) (text : bytes) : LinkHandled :=
  if (length text =? ADDRESS_HASH_SIZE)%nat && bool_decide (id l = text)
  then let '(l, events) := close l in mkLinkHandled ResultNone l events []
  else ignored l.

Definition handle_channel (now : Z) (l : Link.t) (p : Packet) (text : bytes) : LinkHandled :=
  let l := touch now l in
  let pl := LinkPayload_new_from_slice text in
  mkLinkHandled (ResultMessageReceived (Some (message_proof l (Packet_hash p)))) l (post_event l (EventData pl)) [pl].

(** [has_channel]: whether the caller passed a channel sink. *)
Definition handle_data_packet (now : Z) (has_channel : bool) (out_link : bool) (p : Packet) (l : Link.t)
    : LinkHandled :=
  if not_yet_active (status l) then ignored l
  else
    let with_text (k : bytes -> LinkHandled) :=
      match Link_decrypt l (payload p) PACKET_MDU with
      | Ok text => k text
      | Err _ => ignored l
      end in
    match context p with
    | CtxNone => with_text (handle_data_none now l p)
    | CtxLinkIdentify => with_text (handle_identify now l out_link)
    | CtxKeepAlive => handle_keepalive_packet now l out_link p
    | CtxLinkRTT => if out_link then ignored l else with_text (handle_rtt now l)
    | CtxLinkClose => with_text (handle_close l)
    | CtxChannel => if has_channel then with_text (handle_channel now l p) else ignored l
    | _ => ignored l
    end.

Definition message_proof_event (now : Z) (l : Link.t) (p : Packet) : LinkHandled :=
  match status l, context p with
  | (Active | Stale), CtxNone =>
      match validate_message_proof (peer_identity l) (payload p) with
      | Ok h => let l := touch now l in mkLinkHandled ResultNone l (post_event l (EventProof h)) []
      | Err _ => ignored l
      end
  | _, _ => ignored l
  end.

(** A valid proof of the link request activates the link. *)
Definition activate (now : Z) (who : Identity) (l : Link.t) : LinkHandled :=
  let l := handshake who l in
  let l := set_remote (Some (desc_identity (destination l))) l in
  let l := set_status Active l in
  let l := note_rtt (since_request now l) l in
  let l := set_outbound (last_outbound l) now l in
  let l := touch now l in
  mkLinkHandled ResultActivated l (post_event l EventActivated) [].

Definition handle_proof_packet (now : Z) (p : Packet) (l : Link.t) : LinkHandled :=
  match status l, context p with
  | Pending, CtxLinkRequestProof =>
      if negb (mode_from_lp_packet (payload p) =? LINK_MODE_AES256_CBC)
      then let '(l, events) := close l in mkLinkHandled ResultNone l events []
      else
        match validate_proof_packet (destination l) (id l) p with
        | Ok who => activate now who l
        | Err _ => message_proof_event now l p
        end
  | _, _ => message_proof_event now l p
  end.

Definition handle_packet (now : Z) (has_channel out_link : bool) (p : Packet) (l : Link.t) : LinkHandled :=
  if negb (bool_decide (Packet.destination p = id l)) then ignored l
  else
    match packet_type (header p) with
    | Data => handle_data_packet now has_channel out_link p l
    | Proof => handle_proof_packet now p l
    | _ => ignored l
    end.

End LinkOperations.

(** ** Link map ([destination/link_map.rs]) *)
Abbreviation LinkMap := (gmap (list Z) (list Z)) (only parsing).
Definition LinkMap_new : LinkMap := ∅.
Definition LinkMap_resolve (m : LinkMap) (address : AddressHash) : option LinkId := m !! address.
Definition LinkMap_insert (address : AddressHash) (i : LinkId) (m : LinkMap) : LinkMap := <[address := i]> m.
Definition LinkMap_remove (address : AddressHash) (m : LinkMap) : LinkMap := delete address m.

(** ** Signalling lemmas *)

Lemma lor_shiftl_add x y n : 0 <= n -> 0 <= y < 2 ^ n -> Z.lor (Z.shiftl x n) y = x * 2 ^ n + y.
Proof.
  intros Hn Hy. rewrite <- Z.shiftl_mul_pow2 by done. rewrite <- Z.add_lor_land.
  replace (Z.land (Z.shiftl x n) y) with 0; [lia|]. symmetry. apply Z.bits_inj'. intros i Hi.
  rewrite Z.land_spec, Z.bits_0. destruct (decide (i < n)).
  - by rewrite Z.shiftl_spec_low.
  - rewrite <- (Z.mod_small y (2 ^ n)) by done. rewrite Z.mod_pow2_bits_high by lia. apply andb_false_r.
Qed.

Lemma signalling_bytes_eq m :
  0 <= m < 2 ^ 21 -> signalling_bytes m = [32 + m / 65536; (m / 256) mod 256; m mod 256].
Proof.
  intros Hm. unfold signalling_bytes. change 0x1FFFFF with (Z.ones 21).
  rewrite Z.land_ones, (Z.mod_small m) by lia.
  change (Z.shiftl _ 16) with 2097152. cbn [be_encode app drop].
  rewrite Z.div_div by lia. change (256 * 256) with 65536.
  f_equal; [div_lia|]. f_equal; [div_lia|]. f_equal. div_lia.
Qed.

Lemma signalling_bytes_length m : length (signalling_bytes m) = LINK_MTU_SIZE.
Proof. unfold signalling_bytes. by rewrite length_drop, be_encode_length. Qed.

(** The mode bits and the MTU are read back. *)
Lemma signalling_mode m :
  0 <= m < 2 ^ 21 ->
  Z.shiftr (Z.land (32 + m / 65536) LINK_MODE_BYTEMASK) 5 = LINK_MODE_AES256_CBC /\
  Z.shiftr (32 + m / 65536) 5 = LINK_MODE_AES256_CBC.
Proof.
  intros Hm. set (k := m / 65536). assert (0 <= k < 32) as Hk by (unfold k; div_lia). clearbody k.
  assert (forallb (fun k => bool_decide
    (Z.shiftr (Z.land (32 + k) LINK_MODE_BYTEMASK) 5 = LINK_MODE_AES256_CBC /\
     Z.shiftr (32 + k) 5 = LINK_MODE_AES256_CBC)) (seqZ 0 32) = true) as HP by (vm_compute; reflexivity).
  rewrite forallb_forall in HP. apply (bool_decide_eq_true_1 _), HP, list_elem_of_In, elem_of_seqZ. lia.
Qed.

Lemma request_mtu_signalled keys rest m :
  length keys = 64%nat -> LINK_MTU_MIN <= m < 2 ^ 21 ->
  request_mtu (keys ++ signalling_bytes m ++ rest) = Ok m.
Proof.
  intros Hk Hm. unfold request_mtu. change LINK_MTU_MIN with 84 in *. rewrite !length_app, signalling_bytes_length, Hk.
  change (PUBLIC_KEY_LENGTH * 2)%nat with 64%nat. change LINK_MTU_SIZE with 3%nat.
  destruct (Nat.leb_spec (64 + 3) (64 + (3 + length rest))); [|lia].
  rewrite slice_at by (rewrite ?signalling_bytes_length, ?Hk; done).
  rewrite signalling_bytes_eq by lia. cbn [nth].
  change 16 with (8 + 8). rewrite <- Z.shiftl_shiftl by lia. rewrite <- Z.shiftl_lor, (lor_shiftl_add _ _ 8), (lor_shiftl_add _ _ 8) by div_lia.
  change 0x1FFFFF with (Z.ones 21). rewrite Z.land_ones by lia.
  replace ((((32 + m / 65536) * 2 ^ 8 + (m / 256) mod 256) * 2 ^ 8 + m mod 256) mod 2 ^ 21) with m by div_lia.
  destruct (Z.eqb_spec m 0); [lia|]. destruct (Z.ltb_spec m 84); [lia|]. done.
Qed.

Section LinkTheorems.
Context `{Sha256} `{Hkdf} `{X25519} `{CbcCipher} `{HmacSha256}.
Context `{Signing} `{!Verifying} `{!Ed25519} `{!Ed25519Keys} `{Rmp} `{RmpDecode}.

(** ** Pairing

    The two ends of an established link: same id and key, each end knows the
    other's verifying key. *)
Definition open (l : Link.t) : Prop := status l = Active \/ status l = Stale.

Definition knows (a b : Link.t) : Prop :=
  verifying_key (peer_identity a) = ed25519_public (signing_key (priv_identity b)).

Definition paired (a b : Link.t) : Prop :=
  id a = id b /\ derived_key a = derived_key b /\ knows a b /\ knows b a /\ open a /\ open b.

Lemma paired_sym a b : paired a b -> paired b a.
Proof. intros (E1 & E2 & ? & ? & ? & ?). by repeat split. Qed.

(** What an end keeps when it handles traffic. *)
Definition same_keys (l l' : Link.t) : Prop :=
  id l' = id l /\ derived_key l' = derived_key l /\ peer_identity l' = peer_identity l /\
  priv_identity l' = priv_identity l /\ proves_messages l' = proves_messages l.

Lemma paired_same_keys a b b' : paired a b -> same_keys b b' -> open b' -> paired a b'.
Proof.
  intros (E1 & E2 & K1 & K2 & Ha & _) (F1 & F2 & F3 & F4 & _) Ho.
  split; [congruence|]. split; [congruence|]. split; [unfold knows in *; congruence|].
  split; [unfold knows in *; congruence|]. done.
Qed.

Lemma touch_same_keys now l : same_keys l (touch now l).
Proof. unfold touch. case_decide; done. Qed.

Lemma touch_open now l : open l -> open (touch now l) /\ status (touch now l) = Active.
Proof. intros [E|E]; unfold touch, open; simpl; rewrite E; simpl; auto. Qed.

Lemma touch_status now l :
  status (touch now l) = match status l with Stale => Active | s => s end.
Proof. unfold touch. simpl. destruct (status l) eqn:E; simpl; done. Qed.

(** ** Establishment *)
Lemma key_lengths secret seed :
  length (public_key (identity (PrivateIdentity_new secret seed))) = 32%nat /\
  length (verifying_key (identity (PrivateIdentity_new secret seed))) = 32%nat.
Proof. split; [apply x25519_public_length|apply ed25519_public_length]. Qed.

Definition request_payload (i : Identity) (m : Z) : bytes :=
  public_key i ++ verifying_key i ++ signalling_bytes m.

Lemma buffer_holds_three l a b c buf :
  buffer_holds l buf -> (length l + length a + length b + length c <= PACKET_MDU)%nat ->
  buffer_holds (l ++ a ++ b ++ c)
    (StaticBuffer.chain_safe_write c (StaticBuffer.chain_safe_write b (StaticBuffer.chain_safe_write a buf))).
Proof.
  intros Hb Hl. replace (l ++ a ++ b ++ c) with (((l ++ a) ++ b) ++ c) by (by rewrite <- !app_assoc).
  repeat (apply buffer_holds_chain; [|rewrite ?length_app; lia]). done.
Qed.

Lemma request_spec now l secret seed :
  priv_identity l = PrivateIdentity_new secret seed ->
  let i := identity (PrivateIdentity_new secret seed) in
  let '(p, l') := request now l in
  payload p = request_payload i (mtu l) /\ packet_type (header p) = LinkRequest /\
  Packet.destination p = desc_address_hash (destination l) /\ id l' = LinkId_from p /\ status l' = Pending /\
  priv_identity l' = priv_identity l /\ destination l' = destination l /\ mtu l' = mtu l /\
  proves_messages l' = proves_messages l /\ request_time l' = now.
Proof.
  intros Hp i. unfold request. rewrite Hp. fold i. destruct (key_lengths secret seed) as [L1 L2]. fold i in L1, L2.
  split; [|by repeat split].
  apply (buffer_holds_three [] _ _ _ _ buffer_holds_new). rewrite signalling_bytes_length, L1, L2.
  unfold PACKET_MDU, LINK_MTU_SIZE. simpl. lia.
Qed.

Lemma identity_of_public_keys secret seed :
  identity_of_keys (x25519_public secret) (ed25519_public seed) = identity (PrivateIdentity_new secret seed).
Proof. unfold identity_of_keys. by rewrite ed25519_key_ok_public. Qed.

(** The responder accepts a request with a legal MTU and derives the key. *)
Lemma new_from_request_spec p secret_a seed_a m seed secret dest now :
  payload p = request_payload (identity (PrivateIdentity_new secret_a seed_a)) m ->
  LINK_MTU_MIN <= m < 2 ^ 21 ->
  new_from_request p seed dest secret now =
    Ok (handshake (identity (PrivateIdentity_new secret_a seed_a))
         (fresh (LinkId_from p) dest (PrivateIdentity_new secret seed)
            (identity (PrivateIdentity_new secret_a seed_a)) m now)).
Proof.
  intros Hp Hm. unfold new_from_request, reject_disabled_link_mode. rewrite Hp.
  destruct (key_lengths secret_a seed_a) as [L1 L2]. set (i := identity (PrivateIdentity_new secret_a seed_a)) in *.
  change LINK_MTU_MIN with 84 in Hm.
  assert (length (request_payload i m) = 67)%nat as L.
  { unfold request_payload. rewrite !length_app, L1, L2, signalling_bytes_length. done. }
  rewrite L. change PUBLIC_KEY_LENGTH with 32%nat. change (32 * 2)%nat with 64%nat. cbn [Nat.ltb Nat.leb].
  assert (nth 64 (request_payload i m) 0 = 32 + m / 65536) as ->.
  { unfold request_payload. rewrite app_assoc, app_nth2 by (rewrite length_app; lia).
    rewrite length_app, L1, L2, signalling_bytes_eq by lia. done. }
  destruct (signalling_mode m) as [-> _]; [lia|]. cbn [mbind result_bind Z.eqb LINK_MODE_AES256_CBC Pos.eqb].
  assert (request_mtu (request_payload i m) = Ok m) as ->.
  { unfold request_payload. rewrite app_assoc, <- (app_nil_r (signalling_bytes m)).
    apply request_mtu_signalled; [rewrite length_app; lia|done]. }
  assert (take 32 (request_payload i m) = public_key i) as -> by (apply take_app_length'; lia).
  assert (slice 32 64 (request_payload i m) = verifying_key i) as -> by (apply slice_at; lia).
  change (identity_of_keys (public_key i) (verifying_key i)) with
    (identity_of_keys (x25519_public secret_a) (ed25519_public seed_a)).
  by rewrite identity_of_public_keys.
Qed.

Definition proof_signed (i : LinkId) (who : Identity) (m : Z) : bytes :=
  i ++ public_key who ++ verifying_key who ++ signalling_bytes m.

Definition proof_payload (seed : bytes) (i : LinkId) (who : Identity) (m : Z) : bytes :=
  sign seed (proof_signed i who m) ++ public_key who ++ signalling_bytes m.

Lemma prove_spec l secret seed :
  priv_identity l = PrivateIdentity_new secret seed -> length (id l) = ADDRESS_HASH_SIZE ->
  let '(p, l', events) := prove l in
  payload p = proof_payload seed (id l) (identity (PrivateIdentity_new secret seed)) (mtu l) /\
  packet_type (header p) = Proof /\ context p = CtxLinkRequestProof /\ Packet.destination p = id l /\
  l' = set_status Active l /\ events = (if decide (status l = Active) then [] else post_event l EventActivated).
Proof.
  intros Hp Hid. destruct (key_lengths secret seed) as [L1 L2].
  set (i := identity (PrivateIdentity_new secret seed)) in *.
  set (chain := StaticBuffer.chain_safe_write).
  set (b := chain (signalling_bytes (mtu l)) (chain (verifying_key i) (chain (public_key i)
               (chain (id l) PacketDataBuffer_new)))).
  assert (StaticBuffer.as_slice (chain (signalling_bytes (mtu l)) (chain (public_key i)
      (chain (sign seed (StaticBuffer.as_slice b)) (StaticBuffer.reset b))))
    = proof_payload seed (id l) i (mtu l)) as Hb.
  { unfold ADDRESS_HASH_SIZE in Hid.
    pose proof (buffer_holds_four [] (id l) (public_key i) (verifying_key i) (signalling_bytes (mtu l)) _
      buffer_holds_new ltac:(rewrite signalling_bytes_length; unfold PACKET_MDU, LINK_MTU_SIZE; cbn [length]; lia))
      as B1. fold chain b in B1.
    assert (StaticBuffer.as_slice b = proof_signed (id l) i (mtu l)) as -> by apply B1.
    pose proof (sign_length seed (proof_signed (id l) i (mtu l))) as Ls.
    apply (buffer_holds_three [] _ _ _ _ (buffer_holds_reset _ _ B1)).
    rewrite signalling_bytes_length. unfold PACKET_MDU, LINK_MTU_SIZE. cbn [length]. lia. }
  unfold prove. destruct (decide (status l = Active)) as [E|E]; cbn [priv_identity set_status id mtu];
    rewrite Hp; (split; [exact Hb|]); (do 3 (split; [done|])); [|done].
  split; [|done]. destruct l. simpl in *. by subst.
Qed.

(** The proof convinces the initiator and every relay that knows the
    destination's identity. *)
Lemma proof_validates dest i p secret seed m :
  verifying_key (desc_identity dest) = ed25519_public seed ->
  payload p = proof_payload seed i (identity (PrivateIdentity_new secret seed)) m ->
  Packet.destination p = i -> 0 <= m < 2 ^ 21 ->
  validate_proof_packet dest i p = Ok (identity (PrivateIdentity_new secret seed)) /\
  mode_from_lp_packet (payload p) = LINK_MODE_AES256_CBC /\
  proof_valid p (ed25519_public seed).
Proof.
  intros Hd Hp Hdst Hm. destruct (key_lengths secret seed) as [L1 L2].
  set (who := identity (PrivateIdentity_new secret seed)) in *.
  pose proof (sign_length seed (proof_signed i who m)) as Ls. pose proof (signalling_bytes_length m) as Lg.
  assert (length (payload p) = 99)%nat as Hl.
  { rewrite Hp. unfold proof_payload. rewrite !length_app, L1, Ls, Lg. done. }
  assert (slice 64 96 (payload p) = public_key who) as Ek by (rewrite Hp; apply slice_at; lia).
  assert (take 64 (payload p) = sign seed (proof_signed i who m)) as Es
    by (rewrite Hp; apply take_app_length'; lia).
  assert (drop 96 (payload p) = signalling_bytes m) as Eg.
  { rewrite Hp. unfold proof_payload. rewrite app_assoc. apply drop_app_length'. rewrite length_app. lia. }
  assert (verify_signature (ed25519_public seed) (i ++ public_key who ++ ed25519_public seed ++ signalling_bytes m)
            (sign seed (proof_signed i who m)) = true) as Hv by apply verify_sign.
  split; [|split].
  - unfold validate_proof_packet. change (SIGNATURE_LENGTH + PUBLIC_KEY_LENGTH)%nat with 96%nat.
    change SIGNATURE_LENGTH with 64%nat. change (96 + LINK_MTU_SIZE)%nat with 99%nat.
    rewrite Hl, Ek, Es, Eg, Hd. cbn [Nat.ltb Nat.leb]. rewrite Lg. cbn [LINK_MTU_SIZE Nat.ltb Nat.leb].
    change (public_key who) with (x25519_public secret). rewrite identity_of_public_keys. fold who.
    unfold Identity_verify. change (verifying_key who) with (ed25519_public seed).
    change (x25519_public secret) with (public_key who). by rewrite Hv.
  - unfold mode_from_lp_packet. change (SIGNATURE_LENGTH + PUBLIC_KEY_LENGTH)%nat with 96%nat.
    rewrite Hl. cbn [Nat.ltb Nat.leb].
    replace (nth 96 (payload p) 0) with (nth 0 (drop 96 (payload p)) 0) by (by rewrite nth_skipn).
    rewrite Eg, signalling_bytes_eq by done. by apply signalling_mode.
  - split; [right; exact Hl|]. unfold signed_data. rewrite Hl, Hdst. cbn [Nat.eqb].
    change (64 + 32)%nat with 96%nat. rewrite Ek, Eg, Es. exact Hv.
Qed.

Lemma note_rtt_keeps r l :
  id (note_rtt r l) = id l /\ derived_key (note_rtt r l) = derived_key l /\
  peer_identity (note_rtt r l) = peer_identity l /\ priv_identity (note_rtt r l) = priv_identity l /\
  status (note_rtt r l) = status l /\ remote_identity (note_rtt r l) = remote_identity l /\
  destination (note_rtt r l) = destination l /\ mtu (note_rtt r l) = mtu l /\
  proves_messages (note_rtt r l) = proves_messages l.
Proof. unfold note_rtt. done. Qed.

Lemma activate_spec now who l :
  let h := activate now who l in
  let l' := h_link h in
  h_result h = ResultActivated /\ h_events h = post_event l EventActivated /\ h_channel h = [] /\
  id l' = id l /\ peer_identity l' = who /\ priv_identity l' = priv_identity l /\ status l' = Active /\
  derived_key l' = DerivedKey_new (diffie_hellman (private_key (priv_identity l)) (public_key who)) (Some (id l)) /\
  remote_identity l' = Some (desc_identity (destination l)) /\ mtu l' = mtu l /\
  proves_messages l' = proves_messages l.
Proof. unfold activate, touch. by repeat split. Qed.

Lemma LinkId_from_length p : length (LinkId_from p) = ADDRESS_HASH_SIZE.
Proof. apply AddressHash_new_from_hash_is_address. split; [apply sha256_length|apply sha256_u8]. Qed.

Lemma set_mtu_range m l : 0 <= m < 2 ^ 21 -> LINK_MTU_MIN <= mtu (set_mtu m l) < 2 ^ 21.
Proof.
  intros Hm. unfold set_mtu. simpl. change LINK_MTU_MIN with 84. unfold PROTOCOL_MTU.
  destruct (Z.eqb_spec m 0); lia.
Qed.

(** C5: establishing a link. The request of an initiator that knows the
    destination's identity is accepted by the owner of the destination; the
    owner's proof is valid for every relay that knows that identity, and
    activates the initiator's side.  Then both sides are active with the same
    id, key and MTU, each knows the other's verifying key, each has posted one
    activation, and the initiator has identified its peer as the destination's
    identity. *)
Theorem Link_establishment (dest : DestinationDesc) (dest_secret seed secret_a seed_a secret_b : bytes)
    (m t0 t1 t2 : Z) (has_channel out_link : bool)
    (Hdest : desc_identity dest = identity (PrivateIdentity_new dest_secret seed)) (Hm : 0 <= m < 2 ^ 21) :
  exists p a b0 proof b,
    request t0 (set_mtu m (Link_new secret_a seed_a dest t0)) = (p, a) /\
    new_from_request p seed dest secret_b t1 = Ok b0 /\ status a = Pending /\ status b0 = Handshake /\
    prove b0 = (proof, b, post_event b EventActivated) /\ proof_valid proof (ed25519_public seed) /\
    let h := handle_packet t2 has_channel out_link proof a in
    h_result h = ResultActivated /\ h_events h = post_event b EventActivated /\
    paired (h_link h) b /\ status (h_link h) = Active /\ status b = Active /\ mtu (h_link h) = mtu b /\
    remote_identity (h_link h) = Some (desc_identity dest) /\ remote_identity b = None.
Proof.
  pose proof (set_mtu_range m (Link_new secret_a seed_a dest t0) Hm) as Hmtu.
  set (a0 := set_mtu m (Link_new secret_a seed_a dest t0)) in *. pose proof (request_spec t0 a0 secret_a seed_a eq_refl) as Hreq.
  destruct (request t0 a0) as [p a] eqn:Er. destruct Hreq as (Hp & _ & Hpd & Hid & Hst & Hpriv & Hd & Hma & _).
  pose proof (new_from_request_spec p secret_a seed_a (mtu a0) seed secret_b dest t1 Hp Hmtu) as Hb0.
  set (b0 := handshake _ _) in Hb0.
  pose proof (prove_spec b0 secret_b seed eq_refl (LinkId_from_length p)) as Hpr.
  destruct (prove b0) as [[proof b] events] eqn:Ep. destruct Hpr as (Hpp & Hpt & Hpc & Hdst & Hb & Hev).
  assert (id b0 = id a) as Eid by (by rewrite Hid).
  destruct (proof_validates dest (id a) proof secret_b seed (mtu a0)) as (Hv & Hmode & Hval).
  { by rewrite Hdest. } { by rewrite <- Eid. } { by rewrite <- Eid. } { change LINK_MTU_MIN with 84 in *. lia. }
  exists p, a, b0, proof, b. split; [done|]. split; [done|]. split; [done|]. split; [done|].
  split; [by rewrite Ep, Hev, Hb|]. split; [done|].
  unfold handle_packet. rewrite Hdst, Eid, bool_decide_eq_true_2, Hpt by done. cbn [negb].
  unfold handle_proof_packet. rewrite Hst, Hpc, Hmode. cbn [Z.eqb LINK_MODE_AES256_CBC Pos.eqb negb].
  rewrite Hd. change (destination a0) with dest. rewrite Hv.
  destruct (activate_spec t2 (identity (PrivateIdentity_new secret_b seed)) a)
    as (Hr & Hevs & _ & Hi & Hpeer & Hpr & Hs & Hk & Hrem & Hmt & _).
  split; [done|]. split; [rewrite Hevs, Hb; unfold post_event; simpl; by rewrite Hd, Hid|].
  split; [|subst b; rewrite Hs, Hmt, Hma, Hrem, Hd; done].
  split; [by rewrite Hi, Hb, <- Eid|]. split.
  { rewrite Hk, Hb, Hpriv, <- Eid. simpl. by rewrite diffie_hellman_comm. }
  split; [unfold knows; by rewrite Hpeer, Hb|]. split; [unfold knows; by rewrite Hpr, Hpriv, Hb|].
  split; [by left|left; by rewrite Hb].
Qed.

(** ** Traffic *)
Lemma token_buffer_slice token :
  (length token <= PACKET_MDU)%nat -> StaticBuffer.as_slice (token_buffer token) = token.
Proof.
  intros Hl. unfold token_buffer, StaticBuffer.as_slice, StaticBuffer.resize, StaticBuffer.fill,
    StaticBuffer.capacity. cbn [StaticBuffer.len StaticBuffer.buffer].
  rewrite splice_length by (by rewrite length_replicate). rewrite length_replicate, Nat.min_l by done.
  unfold splice. rewrite take_0, app_nil_l. by apply take_app_length'.
Qed.

(** The texts that a packet has room for. *)
Definition text_fits (text : bytes) : Prop :=
  all_u8 text /\ (length (pkcs7_pad text) + FERNET_OVERHEAD_SIZE <= PACKET_MDU)%nat.

Lemma context_packet_spec a iv text ctx :
  open a -> length iv = IV_KEY_SIZE -> text_fits text ->
  let p := link_packet a Data ctx (token_buffer (token_of (derived_fernet (derived_key a)) iv text)) in
  context_packet a iv text ctx = Some (Ok p) /\
  payload p = token_of (derived_fernet (derived_key a)) iv text.
Proof.
  intros Ho Hiv [Ht Hfit] p. unfold context_packet, Link_encrypt, PrivateIdentity_encrypt_derived.
  rewrite Fernet_encrypt_fits by done. split; [by destruct Ho as [-> | ->]|].
  apply token_buffer_slice. rewrite token_of_length by done. lia.
Qed.

Lemma Link_decrypt_spec b iv text :
  length iv = IV_KEY_SIZE -> text_fits text ->
  Link_decrypt b (token_of (derived_fernet (derived_key b)) iv text) PACKET_MDU = Ok text.
Proof.
  intros Hiv [Ht Hfit]. unfold Link_decrypt, PrivateIdentity_decrypt_derived.
  pose proof (token_of_length (derived_fernet (derived_key b)) iv text Hiv) as Hl.
  destruct (Nat.leb_spec (length (token_of (derived_fernet (derived_key b)) iv text)) PUBLIC_KEY_LENGTH).
  - unfold FERNET_OVERHEAD_SIZE, PUBLIC_KEY_LENGTH, IV_KEY_SIZE, HMAC_OUT_SIZE in *. lia.
  - apply decrypt_token_opens; [done|done|lia].
Qed.

Lemma text_fits_payload text : text_fits text -> LinkPayload_new_from_slice text = text.
Proof.
  intros [_ Hf]. unfold LinkPayload_new_from_slice. apply take_ge. rewrite pkcs7_pad_length in Hf.
  unfold AES128_BLOCKSIZE, FERNET_OVERHEAD_SIZE in Hf.
  pose proof (Nat.div_mod_eq (length text) 16). pose proof (Nat.mod_upper_bound (length text) 16). lia.
Qed.

(** A proof of receipt by one end is accepted by the other. *)
Lemma message_proof_accepted now has_channel out_link a b h :
  paired a b -> length h = HASH_SIZE ->
  let r := handle_packet now has_channel out_link (message_proof b h) a in
  h_events r = post_event a (EventProof h) /\ paired (h_link r) b /\ same_keys a (h_link r).
Proof.
  intros Hpair Hl. pose proof Hpair as (Eid & _ & K1 & _ & Ho & _). unfold handle_packet, message_proof, link_packet.
  cbn [Packet.destination packet_type header]. rewrite bool_decide_eq_true_2 by done. cbn [negb].
  set (sig := PrivateIdentity_sign (priv_identity b) h).
  pose proof (sign_length (signing_key (priv_identity b)) h : length sig = 64%nat) as Ls.
  set (p := mkPacket _ _ _ _ _ _).
  assert (payload p = h ++ sig) as Hp.
  { apply (buffer_holds_chain h); [apply (buffer_holds_chain [] _ h buffer_holds_new)|];
      unfold PACKET_MDU, HASH_SIZE in *; simpl length; lia. }
  assert (validate_message_proof (peer_identity a) (payload p) = Ok h) as Hv.
  { unfold validate_message_proof. rewrite Hp, length_app, Hl. change HASH_SIZE with 32%nat in *.
    destruct (Nat.leb_spec (32 + length sig) 32); [lia|]. rewrite drop_app_length', take_app_length' by done.
    rewrite Ls. cbn [Nat.eqb SIGNATURE_LENGTH negb]. rewrite K1. unfold sig, PrivateIdentity_sign.
    by rewrite verify_lax_sign. }
  assert (message_proof_event now a p = mkLinkHandled ResultNone (touch now a)
            (post_event (touch now a) (EventProof h)) []) as Hm.
  { unfold message_proof_event. rewrite Hv. by destruct Ho as [-> | ->]. }
  assert (handle_proof_packet now p a = message_proof_event now a p) as ->.
  { unfold handle_proof_packet. by destruct Ho as [-> | ->]. }
  rewrite Hm. cbn [h_events h_link]. pose proof (touch_same_keys now a) as Hk. split; [|split; [|done]].
  - unfold post_event, touch. by case_decide.
  - apply paired_sym. eapply paired_same_keys; [by apply paired_sym|done|by apply touch_open].
Qed.

(** One message with its receipt: the receiver posts the text (and passes it to
    the channel), and if it proves receipt the sender posts the proof of the
    packet that was sent. *)
Lemma Link_delivery a b iv text ctx now has_channel out_link :
  paired a b -> length iv = IV_KEY_SIZE -> text_fits text ->
  ctx = CtxNone \/ (ctx = CtxChannel /\ has_channel = true) ->
  exists p,
    context_packet a iv text ctx = Some (Ok p) /\
    let h := handle_packet now has_channel out_link p b in
    h_events h = post_event b (EventData text) /\
    h_channel h = (if decide (ctx = CtxChannel) then [text] else []) /\
    paired a (h_link h) /\ same_keys b (h_link h) /\
    h_result h = ResultMessageReceived
      (if decide (ctx = CtxChannel) then Some (message_proof (h_link h) (Packet_hash p))
       else if proves_messages b then Some (message_proof (h_link h) (Packet_hash p)) else None).
Proof.
  intros Hpair Hiv Hfit Hctx. pose proof Hpair as (Eid & Ek & _ & _ & Ha & Hb).
  destruct (context_packet_spec a iv text ctx Ha Hiv Hfit) as [Ep Hp]. eexists. split; [exact Ep|].
  set (p := link_packet _ _ _ _) in *.
  assert (Link_decrypt b (payload p) PACKET_MDU = Ok text) as Hd by (rewrite Hp, Ek; by apply Link_decrypt_spec).
  assert (same_keys b (touch now b)) as Hsame by apply touch_same_keys.
  assert (paired a (touch now b)) as Hpair'.
  { eapply paired_same_keys; [done|done|by apply touch_open]. }
  assert (forall e, post_event (touch now b) e = post_event b e) as Hev
    by (intros e; unfold post_event, touch; by case_decide).
  assert (handle_packet now has_channel out_link p b =
          handle_data_packet now has_channel out_link p b) as ->.
  { unfold handle_packet. cbn [p link_packet Packet.destination packet_type header].
    by rewrite Eid, bool_decide_eq_true_2. }
  assert (not_yet_active (status b) = false) as Hn by (by destruct Hb as [-> | ->]).
  unfold handle_data_packet. rewrite Hn. cbn [p link_packet context]. rewrite Hd.
  destruct Hctx as [-> |[-> ->]].
  - unfold handle_data_none. cbn [h_events h_channel h_link h_result]. rewrite Hev, text_fits_payload by done.
    assert (proves_messages (touch now b) = proves_messages b) as -> by apply Hsame. done.
  - unfold handle_channel. cbn [h_events h_channel h_link h_result]. rewrite Hev, text_fits_payload by done. done.
Qed.

(** *** Sessions

    A message in either direction, and the receipt that comes back. *)
Record Message := mkMessage {
  from_a : bool;
  msg_iv : bytes;
  msg_text : bytes;
  msg_time : Z;
}.

(** Each end posts events: those of [a] and those of [b]. *)
Definition deliver (s r : Link.t) (x : Message) : option (Link.t * Link.t * list LinkEvent * list LinkEvent) :=
  match data_packet s (msg_iv x) (msg_text x) with
  | Some (Ok p) =>
      let h := handle_packet (msg_time x) false (from_a x) p r in
      match h_result h with
      | ResultMessageReceived (Some receipt) =>
          let h' := handle_packet (msg_time x) false (negb (from_a x)) receipt s in
          Some (h_link h', h_link h, map event (h_events h'), map event (h_events h))
      | ResultMessageReceived None => Some (s, h_link h, [], map event (h_events h))
      | _ => None
      end
  | _ => None
  end.

Fixpoint session (a b : Link.t) (xs : list Message)
    : option (Link.t * Link.t * list LinkEvent * list LinkEvent) :=
  match xs with
  | [] => Some (a, b, [], [])
  | x :: xs' =>
      '(a, b, ea, eb) ←
        (if from_a x then deliver a b x
         else '(b, a, eb, ea) ← deliver b a x; Some (a, b, ea, eb));
      '(a', b', ea', eb') ← session a b xs';
      Some (a', b', ea ++ ea', eb ++ eb')
  end.

Definition is_data (e : LinkEvent) : option bytes := match e with EventData t => Some t | _ => None end.

Definition sent_by (from : bool) (xs : list Message) : list Message := filter (fun x => from_a x = from) xs.
Definition texts (from : bool) (xs : list Message) : list bytes := msg_text <$> sent_by from xs.

Definition is_receipt (e : LinkEvent) : option Hash := match e with EventProof h => Some h | _ => None end.

(** The hash of the packet in which an end sends a message. *)
Definition sent_hash (l : Link.t) (x : Message) : option Hash :=
  match data_packet l (msg_iv x) (msg_text x) with
  | Some (Ok p) => Some (Packet_hash p)
  | _ => None
  end.

Lemma sent_hash_same l l' x : open l -> open l' -> same_keys l l' -> sent_hash l' x = sent_hash l x.
Proof.
  intros Ho Ho' (Ei & Ek & _). unfold sent_hash, data_packet, context_packet, Link_encrypt, link_packet. rewrite Ei, Ek.
  by destruct Ho as [-> | ->], Ho' as [-> | ->].
Qed.

Lemma same_keys_trans l l' l'' : same_keys l l' -> same_keys l' l'' -> same_keys l l''.
Proof. unfold same_keys. intros (? & ? & ? & ? & ?) (? & ? & ? & ? & ?). split_and!; congruence. Qed.

Lemma deliver_spec s r x :
  paired s r -> length (msg_iv x) = IV_KEY_SIZE -> text_fits (msg_text x) ->
  exists s' r' es er,
    deliver s r x = Some (s', r', es, er) /\
    omap is_data er = [msg_text x] /\ omap is_data es = [] /\ omap is_receipt er = [] /\
    Some <$> omap is_receipt es = (if proves_messages r then [sent_hash s x] else []) /\
    paired s' r' /\ same_keys s s' /\ same_keys r r'.
Proof.
  intros Hpair Hiv Hfit.
  destruct (Link_delivery s r (msg_iv x) (msg_text x) CtxNone (msg_time x) false (from_a x) Hpair Hiv Hfit)
    as (p & Ep & Hev & _ & Hpair' & Hsame & Hres); [by left|].
  unfold deliver, sent_hash, data_packet. rewrite Ep. rewrite decide_False in Hres by done. rewrite Hres, Hev.
  set (h := handle_packet (msg_time x) false (from_a x) p r) in *.
  destruct (proves_messages r).
  - destruct (message_proof_accepted (msg_time x) false (negb (from_a x)) s (h_link h) (Packet_hash p))
      as (Hev' & Hpair'' & Hsame'); [done|apply sha256_length|].
    rewrite Hev'. eexists _, _, _, _. split; [done|]. split_and!; done.
  - eexists _, _, _, _. split; [done|]. split_and!; done.
Qed.

(** What a session of the messages [xs] between [a] and [b] ends with. *)
Definition session_result (a b : Link.t) (xs : list Message) (a' b' : Link.t) (ea eb : list LinkEvent) : Prop :=
  paired a' b' /\ same_keys a a' /\ same_keys b b' /\
  omap is_data eb = texts true xs /\ omap is_data ea = texts false xs /\
  Some <$> omap is_receipt ea = (if proves_messages b then sent_hash a <$> sent_by true xs else []) /\
  Some <$> omap is_receipt eb = (if proves_messages a then sent_hash b <$> sent_by false xs else []).

Lemma session_step a b x : paired a b -> length (msg_iv x) = IV_KEY_SIZE -> text_fits (msg_text x) ->
  exists a' b' ea eb,
    (if from_a x then deliver a b x else '(b, a, eb, ea) ← deliver b a x; Some (a, b, ea, eb)) = Some (a', b', ea, eb) /\
    session_result a b [x] a' b' ea eb.
Proof.
  intros Hpair Hiv Hfit. unfold session_result, texts, sent_by. rewrite !filter_cons, !filter_nil. destruct (from_a x) eqn:Ef; cbn.
  - destruct (deliver_spec a b x Hpair Hiv Hfit) as (s' & r' & es & er & -> & D1 & D2 & R1 & R2 & Hp & Ks & Kr).
    exists s', r', es, er. split; [done|]. rewrite D1, D2, R1, R2. split_and!; try done; by destruct (proves_messages a).
  - destruct (deliver_spec b a x (paired_sym _ _ Hpair) Hiv Hfit) as (s' & r' & es & er & -> & D1 & D2 & R1 & R2 & Hp & Ks & Kr).
    exists r', s', er, es. split; [done|]. rewrite D1, D2, R1, R2. split_and!; try done; [by apply paired_sym|by destruct (proves_messages b)].
Qed.

Lemma session_result_app a b xs1 xs2 a1 b1 ea1 eb1 a2 b2 ea2 eb2 : paired a b ->
  session_result a b xs1 a1 b1 ea1 eb1 -> session_result a1 b1 xs2 a2 b2 ea2 eb2 ->
  session_result a b (xs1 ++ xs2) a2 b2 (ea1 ++ ea2) (eb1 ++ eb2).
Proof.
  intros (_ & _ & _ & _ & Oa & Ob) (P1 & Ka1 & Kb1 & D1 & D1' & R1 & R1') (P2 & Ka2 & Kb2 & D2 & D2' & R2 & R2').
  destruct P1 as (_ & _ & _ & _ & Oa1 & Ob1).
  assert (proves_messages a1 = proves_messages a /\ proves_messages b1 = proves_messages b) as [Ea Eb] by (split; [apply Ka1|apply Kb1]).
  assert (forall xs, sent_hash a1 <$> xs = sent_hash a <$> xs) as Ha by (intros xs; apply list_fmap_ext; intros; by apply sent_hash_same).
  assert (forall xs, sent_hash b1 <$> xs = sent_hash b <$> xs) as Hb by (intros xs; apply list_fmap_ext; intros; by apply sent_hash_same).
  unfold session_result, texts, sent_by in *. rewrite !omap_app, !list.filter_app, !fmap_app. rewrite D1, D1', D2, D2', R1, R1', R2, R2', Ea, Eb, Ha, Hb.
  split_and!; try done; [by eapply same_keys_trans..|by destruct (proves_messages b)|by destruct (proves_messages a)].
Qed.

(** C6: traffic on an established link. Messages sent in any order in both
    directions (each fitting a packet) are all delivered, to the right end, in
    order and unchanged; an end whose peer proves what it receives gets, for each
    message and in order, the proof of exactly the packet in which it was sent, an
    end whose peer does not prove messages gets none; and the ends stay paired. *)
Theorem Link_session (xs : list Message) (a b : Link.t) (Hpair : paired a b)
    (Hxs : Forall (fun x => length (msg_iv x) = IV_KEY_SIZE /\ text_fits (msg_text x)) xs) :
  exists a' b' ea eb,
    session a b xs = Some (a', b', ea, eb) /\ paired a' b' /\
    omap is_data eb = texts true xs /\ omap is_data ea = texts false xs /\
    Some <$> omap is_receipt ea = (if proves_messages b then sent_hash a <$> sent_by true xs else []) /\
    Some <$> omap is_receipt eb = (if proves_messages a then sent_hash b <$> sent_by false xs else []).
Proof.
  enough (exists a' b' ea eb, session a b xs = Some (a', b', ea, eb) /\ session_result a b xs a' b' ea eb)
    as (a' & b' & ea & eb & E & P & _ & _ & R) by (by exists a', b', ea, eb).
  revert a b Hpair. induction Hxs as [|x xs [Hiv Hfit] _ IH]; intros a b Hpair.
  { exists a, b, [], []. split; [done|]. split_and!; try done; by repeat case_match. }
  destruct (session_step a b x Hpair Hiv Hfit) as (a1 & b1 & ea1 & eb1 & E1 & R1).
  destruct (IH a1 b1 (proj1 R1)) as (a2 & b2 & ea2 & eb2 & E2 & R2).
  exists a2, b2, (ea1 ++ ea2), (eb1 ++ eb2). cbn [session]. rewrite E1. cbn [mbind option_bind]. rewrite E2. split; [done|].
  exact (session_result_app a b [x] xs _ _ _ _ _ _ _ _ Hpair R1 R2).
Qed.

(** ** Safety *)
Definition transition (s s' : LinkStatus) : bool :=
  match s, s' with
  | Pending, (Pending | Active | Closed) => true
  | Handshake, Handshake => true
  | Active, (Active | Closed) => true
  | Stale, (Stale | Active | Closed) => true
  | Closed, Closed => true
  | _, _ => false
  end.

Lemma transition_refl s : transition s s = true.
Proof. by destruct s. Qed.

Lemma transition_touch now l l' :
  status l' = status (touch now l) -> not_yet_active (status l) = false -> transition (status l) (status l') = true.
Proof. intros ->. rewrite touch_status. by destruct (status l). Qed.

Lemma transition_close l : status l <> Handshake -> transition (status l) Closed = true.
Proof. by destruct (status l). Qed.

#[local] Hint Resolve transition_refl : rns.

Lemma handle_data_packet_transition now has_channel out_link p l :
  transition (status l) (status (h_link (handle_data_packet now has_channel out_link p l))) = true.
Proof.
  unfold handle_data_packet. destruct (not_yet_active (status l)) eqn:Hn; [apply transition_refl|].
  assert (forall l', status l' = status (touch now l) -> transition (status l) (status l') = true) as Ht
    by (intros l' E; by eapply transition_touch).
  assert (forall k, (forall text, transition (status l) (status (h_link (k text))) = true) ->
    transition (status l) (status (h_link (match Link_decrypt l (payload p) PACKET_MDU with
      | Ok text => k text | Err _ => ignored l end))) = true) as Hk
    by (intros k Hk; destruct (Link_decrypt _ _ _); [apply Hk|apply transition_refl]).
  destruct (context p); try apply transition_refl.
  - apply Hk. intros text. by apply Ht.
  - destruct has_channel; [|apply transition_refl]. apply Hk. intros text. by apply Ht.
  - unfold handle_keepalive_packet. repeat case_match; first [apply transition_refl|by apply Ht].
  - apply Hk. intros text. unfold handle_identify. repeat case_match; by apply Ht.
  - apply Hk. intros text. unfold handle_close, close. destruct (_ && _); [|apply transition_refl].
    apply transition_close. by destruct (status l).
  - destruct out_link; [apply transition_refl|]. apply Hk. intros text. unfold handle_rtt.
    destruct (decode_f64 text); [|apply transition_refl]. destruct (rtt_acceptable _); [|apply transition_refl].
    apply Ht. cbn [ignored h_link]. by rewrite !touch_status.
Qed.

Lemma message_proof_event_transition now l p :
  transition (status l) (status (h_link (message_proof_event now l p))) = true /\
  (not_yet_active (status l) = true -> message_proof_event now l p = ignored l).
Proof.
  unfold message_proof_event. split.
  - destruct (status l) eqn:E; try (simpl; by rewrite E); destruct (context p); try (simpl; by rewrite E);
      destruct (validate_message_proof _ _); simpl; rewrite ?touch_status, ?E; done.
  - by destruct (status l).
Qed.

(** What activates a pending link. *)
Definition authentic (l : Link.t) (p : Packet) : Prop :=
  exists peer mtu_bytes sig,
    length peer = PUBLIC_KEY_LENGTH /\ length sig = SIGNATURE_LENGTH /\
    firstn (SIGNATURE_LENGTH + PUBLIC_KEY_LENGTH) (payload p) = sig ++ peer /\
    verify_signature (verifying_key (desc_identity (destination l)))
      (id l ++ peer ++ verifying_key (desc_identity (destination l)) ++ mtu_bytes) sig = true.

Lemma validate_proof_packet_authentic l p who :
  ed25519_key_ok (verifying_key (desc_identity (destination l))) = true ->
  validate_proof_packet (destination l) (id l) p = Ok who -> authentic l p.
Proof.
  intros Hk. unfold validate_proof_packet, identity_of_keys. rewrite Hk. case_match; [done|]. zb.
  case_match; [done|]. unfold Identity_verify. cbn [verifying_key Identity_new].
  destruct (verify_signature _ _ _) eqn:Hv; [|done]. intros _. eexists _, _, _. split; [|split; [|split; [|exact Hv]]].
  - rewrite slice_length by lia. unfold SIGNATURE_LENGTH, PUBLIC_KEY_LENGTH. lia.
  - rewrite length_take. unfold SIGNATURE_LENGTH, PUBLIC_KEY_LENGTH in *. lia.
  - unfold slice. rewrite Nat.add_comm, Nat.add_sub.
    rewrite <- (take_drop SIGNATURE_LENGTH (take (PUBLIC_KEY_LENGTH + SIGNATURE_LENGTH) (payload p))).
    rewrite take_take, skipn_firstn_comm. do 3 f_equal; unfold SIGNATURE_LENGTH, PUBLIC_KEY_LENGTH; lia.
Qed.

(** C7: what received packets can do to a link. Handling any packet whatever
    moves the status only along the allowed transitions: a closed link stays
    closed, a handshaking one does not change, a pending one becomes active or
    closed, an active one stays so or closes, a stale one may revive.  Before
    activation no packet makes the link post data, receipts or identities or pass
    anything to the channel; and a pending link becomes active only by a proof
    addressed to it that the destination's identity signed for this link's id. *)
Theorem Link_safety (now : Z) (has_channel out_link : bool) (p : Packet) (l : Link.t)
    (Hkey : ed25519_key_ok (verifying_key (desc_identity (destination l))) = true) :
  let h := handle_packet now has_channel out_link p l in
  transition (status l) (status (h_link h)) = true /\
  (not_yet_active (status l) = true ->
     h_channel h = [] /\ omap is_data (map event (h_events h)) = [] /\ omap is_receipt (map event (h_events h)) = [] /\
     (h_link h = l \/ status (h_link h) = Closed \/
        (status l = Pending /\ Packet.destination p = id l /\ packet_type (header p) = Proof /\
         context p = CtxLinkRequestProof /\ authentic l p))).
Proof.
  cbv zeta. unfold handle_packet. case_bool_decide as Hd; cbn [negb]; [|split; [apply transition_refl|by auto]].
  destruct (packet_type (header p)); try (split; [apply transition_refl|by auto]).
  - split; [apply handle_data_packet_transition|]. intros Hn. unfold handle_data_packet. rewrite Hn. by auto.
  - destruct (message_proof_event_transition now l p) as [Hm Hm'].
    assert (status l <> Pending \/ context p <> CtxLinkRequestProof ->
      handle_proof_packet now p l = message_proof_event now l p) as Hother.
    { unfold handle_proof_packet. intros [Hs|Hc]; [by destruct (status l)|].
      destruct (status l); [by destruct (context p)|done..]. }
    destruct (decide (status l = Pending)) as [Es|Es]; [destruct (decide (context p = CtxLinkRequestProof)) as [Ec|Ec]|].
    2, 3: rewrite Hother by auto; split; [exact Hm|]; intros Hn; rewrite (Hm' Hn); by auto.
    unfold handle_proof_packet. rewrite Es, Ec.
    destruct (_ =? _); cbn [negb]; [|split; [done|]; intros _; do 3 (split; [done|]); right; by left].
    destruct (validate_proof_packet _ _ _) as [who|e] eqn:Ev.
    + destruct (activate_spec now who l) as (_ & Hev & Hch & _ & _ & _ & Hst & _). rewrite Hst, Hev, Hch.
      split; [done|]. intros _. do 3 (split; [done|]). right. right.
      repeat split; try done. by eapply validate_proof_packet_authentic.
    + rewrite <- Es. split; [exact Hm|]. intros Hn. rewrite (Hm' Hn). by auto.
Qed.

(** tearing a link down. Teardown of an open link makes a packet that
    closes the other end too, and each end posts that it closed.  But on a link
    that is still in the handshake teardown fails and leaves the link as it
    is. *)
Theorem Link_teardown (a b l : Link.t) (now : Z) (has_channel out_link : bool) (Hpair : paired a b)
    (Hid : is_address (id a)) (Hl : status l = Handshake) :
  (exists p a',
    teardown a = Some (Ok (Some p), a', post_event a EventClosed) /\ status a' = Closed /\
    let h := handle_packet now has_channel out_link p b in
    status (h_link h) = Closed /\ h_events h = post_event b EventClosed) /\
  teardown l = Some (Err LinkNotReady, l, []).
Proof.
  split; [|unfold teardown, data_packet, context_packet; by rewrite Hl].
  pose proof Hpair as (Eid & Ek & _ & _ & Ha & Hb). destruct Hid as [Lid Uid].
  assert (text_fits (id a)) as Hfit.
  { split; [done|]. rewrite pkcs7_pad_length, Lid. apply Nat.leb_le. vm_compute. reflexivity. }
  destruct (context_packet_spec a (replicate IV_KEY_SIZE 0) (id a) CtxNone Ha) as [Ep Hp];
    [apply length_replicate|done|].
  assert (payload (link_packet a Data CtxLinkClose (token_buffer
    (token_of (derived_fernet (derived_key a)) (replicate IV_KEY_SIZE 0) (id a)))) =
    token_of (derived_fernet (derived_key b)) (replicate IV_KEY_SIZE 0) (id b)) as Hp'
    by (rewrite <- Ek, <- Eid; exact Hp).
  eexists _, (set_status Closed a). split; [|split; [done|]].
  - unfold teardown, data_packet. rewrite Ep. by destruct Ha as [-> | ->].
  - set (p := mkPacket _ _ _ _ _ _). change (payload _) with (payload p) in Hp'.
    assert (handle_packet now has_channel out_link p b = handle_data_packet now has_channel out_link p b) as ->.
    { unfold handle_packet. cbn [p Packet.destination link_packet packet_type header].
      by rewrite Eid, bool_decide_eq_true_2. }
    unfold handle_data_packet. assert (not_yet_active (status b) = false) as -> by (by destruct Hb as [-> | ->]).
    cbn [p context]. fold p. rewrite Hp', Link_decrypt_spec by (by rewrite <- ?Eid).
    unfold handle_close. by rewrite <- Eid, Lid, bool_decide_eq_true_2.
Qed.

(** the size of a message. For an MTU of at least the legal minimum, a text
    fits a packet of the link, header and smallest access code included, exactly
    if it is no longer than [mdu].  Up to an MTU of 2068 every such text can be
    sent; with a larger one a text of 2000 bytes is within [mdu] but makes the
    sender panic. *)
Theorem Link_mdu (l : Link.t) (iv text : bytes) (Hopen : open l) (Hmtu : LINK_MTU_MIN <= mtu l)
    (Hiv : length iv = IV_KEY_SIZE) (Htext : all_u8 text) :
  let wire := IFAC_MIN_SIZE + HEADER_MINSIZE
              + Z.of_nat (length (token_of (derived_fernet (derived_key l)) iv text)) in
  (Z.of_nat (length text) <= mdu l <-> wire <= mtu l) /\
  (mtu l <= 2068 -> Z.of_nat (length text) <= mdu l ->
     exists p, data_packet l iv text = Some (Ok p) /\
       payload p = token_of (derived_fernet (derived_key l)) iv text) /\
  (2084 <= mtu l -> length text = Z.to_nat 2000 ->
     Z.of_nat (length text) <= mdu l /\ data_packet l iv text = None).
Proof.
  cbv zeta. rewrite token_of_length, pkcs7_pad_length by done. unfold mdu.
  change LINK_MTU_MIN with 84 in Hmtu. change (IFAC_MIN_SIZE + HEADER_MINSIZE + TOKEN_OVERHEAD) with 68.
  change (IFAC_MIN_SIZE + HEADER_MINSIZE) with 20. change Packet.AES128_BLOCKSIZE with 16.
  change FERNET_OVERHEAD_SIZE with 48%nat. change AES128_BLOCKSIZE with 16%nat.
  assert (Z.of_nat (length text / 16) = Z.of_nat (length text) / 16) as Hdiv by apply Nat2Z.inj_div.
  assert (Z.of_nat (length text) <= Z.max 0 (Z.max 0 (mtu l - 68) / 16 * 16 - 1) <->
          20 + Z.of_nat (48 + (length text / 16 * 16 + 16)) <= mtu l) as Hiff.
  { rewrite !Nat2Z.inj_add, Nat2Z.inj_mul, Hdiv. rewrite (Z.max_r 0 (mtu l - 68)) by lia. div_lia. }
  split; [exact Hiff|]. split.
  - intros Hmax Hle. apply Hiff in Hle.
    destruct (context_packet_spec l iv text CtxNone Hopen Hiv) as [Ep Hp]; [|by eexists].
    split; [done|]. rewrite pkcs7_pad_length. change FERNET_OVERHEAD_SIZE with 48%nat.
    change AES128_BLOCKSIZE with 16%nat. unfold PACKET_MDU. lia.
  - intros Hbig Hlen. split; [rewrite (Z.max_r 0 (mtu l - 68)) by lia; div_lia|].
    unfold data_packet, context_packet, Link_encrypt, PrivateIdentity_encrypt_derived.
    rewrite Fernet_encrypt_eq, Hlen by done. by destruct Hopen as [-> | ->].
Qed.

End LinkTheorems.

(** ** Witnesses *)
#[local] Existing Instance toy_sha256.
#[local] Existing Instance toy_hkdf.
#[local] Existing Instance toy_x25519.
#[local] Existing Instance toy_cbc.
#[local] Existing Instance toy_hmac.
#[local] Existing Instance toy_signing.
#[local] Existing Instance toy_verifying.
#[local] Existing Instance toy_ed25519.
#[local] Existing Instance toy_keys.
#[local] Existing Instance msgpack_rmp.
#[local] Existing Instance toy_rmp_decode.

Definition sample_desc : DestinationDesc :=
  desc (SingleInputDestination_new (PrivateIdentity_new (replicate 32 2) (replicate 32 3)) (mkName (replicate 32 6))).

Definition sample_link (secret seed : bytes) (peer : PrivateIdentity) (proves : bool) : Link.t :=
  prove_messages proves (set_status Active (set_peer (identity peer) (replicate 64 1)
    (fresh (replicate 16 7) sample_desc (PrivateIdentity_new secret seed) (identity peer) 500 0))).

Definition sample_a : Link.t :=
  sample_link (replicate 32 4) (replicate 32 5) (PrivateIdentity_new (replicate 32 6) (replicate 32 3)) false.
Definition sample_b : Link.t :=
  sample_link (replicate 32 6) (replicate 32 3) (PrivateIdentity_new (replicate 32 4) (replicate 32 5)) true.

Lemma sample_paired : paired sample_a sample_b.
Proof. repeat split; by left. Qed.

Lemma text_fits_small text : all_u8 text -> (length text <=? 100)%nat = true -> text_fits text.
Proof.
  intros Hu Hl. apply Nat.leb_le in Hl. split; [done|]. rewrite pkcs7_pad_length.
  pose proof (Nat.Div0.div_le_mono (length text) 100 16 Hl) as Hd. change (100 / 16)%nat with 6%nat in Hd.
  unfold AES128_BLOCKSIZE, FERNET_OVERHEAD_SIZE, IV_KEY_SIZE, HMAC_OUT_SIZE, PACKET_MDU. lia.
Qed.

Lemma Link_establishment_witness :
  exists p a b0 proof b,
    request 10 (set_mtu 0 (Link_new (replicate 32 4) (replicate 32 5) sample_desc 10)) = (p, a) /\
    new_from_request p (replicate 32 3) sample_desc (replicate 32 6) 20 = Ok b0 /\
    prove b0 = (proof, b, post_event b EventActivated) /\
    paired (h_link (handle_packet 30 false true proof a)) b.
Proof.
  destruct (Link_establishment sample_desc (replicate 32 2) (replicate 32 3) (replicate 32 4) (replicate 32 5)
    (replicate 32 6) 0 10 20 30 false true ltac:(reflexivity) ltac:(lia))
    as (p & a & b0 & proof & b & E1 & E2 & _ & _ & E3 & _ & _ & _ & E4 & _).
  exists p, a, b0, proof, b. split; [exact E1|]. split; [exact E2|]. split; [exact E3|exact E4].
Defined.

Lemma Link_session_witness :
  exists a' b' ea eb,
    session sample_a sample_b
      [mkMessage true (replicate 16 0) [1; 2] 5; mkMessage false (replicate 16 1) [3] 6;
       mkMessage true (replicate 16 2) [4] 7] = Some (a', b', ea, eb) /\
    omap is_data eb = [[1; 2]; [4]] /\ omap is_data ea = [[3]] /\
    Some <$> omap is_receipt ea =
      [sent_hash sample_a (mkMessage true (replicate 16 0) [1; 2] 5); sent_hash sample_a (mkMessage true (replicate 16 2) [4] 7)].
Proof.
  destruct (Link_session [mkMessage true (replicate 16 0) [1; 2] 5; mkMessage false (replicate 16 1) [3] 6;
    mkMessage true (replicate 16 2) [4] 7] sample_a sample_b sample_paired) as (a' & b' & ea & eb & E & _ & D1 & D2 & R & _).
  - repeat (apply Forall_cons_2; [split; [reflexivity|]; apply text_fits_small;
      [apply (bool_decide_unpack _); vm_compute; exact I|reflexivity]|]). apply Forall_nil_2.
  - exists a', b', ea, eb. split; [exact E|]. split; [exact D1|]. split; [exact D2|exact R].
Defined.

Lemma Link_safety_witness :
  let l := Link_new (replicate 32 4) (replicate 32 5) sample_desc 10 in
  let h := handle_packet 20 true true (keep_alive_packet l 0xFE) l in
  transition Pending (status (h_link h)) = true /\ h_channel h = [].
Proof.
  intros l h.
  assert (ed25519_key_ok (verifying_key (desc_identity (destination l))) = true) as Hk by reflexivity.
  destruct (Link_safety 20 true true (keep_alive_packet l 0xFE) l Hk) as [H1 H2].
  split; [exact H1|]. exact (proj1 (H2 eq_refl)).
Defined.

Lemma Link_teardown_witness :
  exists p a',
    teardown sample_a = Some (Ok (Some p), a', post_event sample_a EventClosed) /\
    status (h_link (handle_packet 5 false false p sample_b)) = Closed.
Proof.
  destruct (Link_teardown sample_a sample_b (set_status Handshake sample_a) 5 false false sample_paired)
    as ((p & a' & E & _ & S & _) & _).
  - apply (bool_decide_unpack _). vm_compute. exact I.
  - reflexivity.
  - exists p, a'. split; [exact E|exact S].
Defined.

Lemma Link_mdu_witness :
  exists p, data_packet sample_a (replicate 16 0) (replicate 431 7) = Some (Ok p).
Proof.
  destruct (Link_mdu sample_a (replicate 16 0) (replicate 431 7)) as (_ & H & _).
  - by left.
  - vm_compute. congruence.
  - reflexivity.
  - apply (bool_decide_unpack _). vm_compute. exact I.
  - destruct H as (p & E & _); [vm_compute; congruence|vm_compute; congruence|]. by exists p.
Defined.
