(* ===== verification/Channel.v ===== *)
(** * Channels ([src/src/channel.rs])

    Reliable, ordered messages over a link: envelopes, the receiving side with
    its reordering store, the sending side with window, retries and delivery
    status.  The asynchronous tasks around them call these operations one at a
    time (each holds the lock), so they are state transformers; what they hand to
    the transport, to timers and to subscribers is returned.  The message types
    of the client are the class [Message]. *)

From S2P Require Import Prelude Float Crypto Hash Packet Token Identity Msgpack Destination Links.

Definition CHANNEL_MDU : Z := LINK_MDU - 6.
Definition MSGTYPE_SYSTEM_MIN : Z := 0xf000.

Definition WINDOW : Z := 2.
Definition WINDOW_MIN : Z := 2.
Definition WINDOW_MIN_LIMIT_MEDIUM : Z := 5.
Definition WINDOW_MIN_LIMIT_FAST : Z := 16.
Definition WINDOW_MAX_SLOW : Z := 5.
Definition WINDOW_MAX_MEDIUM : Z := 12.
Definition WINDOW_MAX_FAST : Z := 48.
Definition WINDOW_MAX : Z := WINDOW_MAX_FAST.
Definition FAST_RATE_THRESHOLD : Z := 10.
Definition RTT_FAST : f32 := f32_dec 18 2.
Definition RTT_MEDIUM : f32 := f32_dec 75 2.
Definition RTT_SLOW : f32 := f32_dec 145 2.
Definition WINDOW_FLEXIBILITY : Z := 4.

Definition max_link_plaintext : Z :=
  let room := Z.max 0 (Z.of_nat PACKET_MDU - TOKEN_OVERHEAD) in
  let max_cipher := room / Packet.AES128_BLOCKSIZE * Packet.AES128_BLOCKSIZE in
  Z.max 0 (max_cipher - 1).

Class Message (M : Type) := {
  unpack : bytes -> Z -> result M;
  pack : M -> bytes;
  message_type : M -> Z;
}.

(** ** Envelopes *)
Definition u16_saturating_add (a b : Z) : Z := Z.min (a + b) 65535.

Definition envelope_raw (data : bytes) (ty : Z) (sequence : option Z) : bytes :=
  be_encode 2 ty ++ be_encode 2 (default 0 sequence) ++ be_encode 2 (wrap 16 (Z.of_nat (length data))) ++ data.

Definition deenvelope_raw (data : bytes) : result (Z * Z * Z) :=
  if (length data <? 6)%nat then Err ChannelError
  else Ok (be_decode (slice 0 2 data), be_decode (slice 2 4 data), be_decode (slice 4 6 data)).

Definition message_raw {M} `{Message M} (m : M) (sequence : option Z) : bytes :=
  envelope_raw (pack m) (message_type m) sequence.

(** ** Receiving *)
Inductive Held (M : Type) :=
| Primary (m : M)
| Registered (ty : Z) (payload : bytes).
Arguments Primary {M}.
Arguments Registered {M}.

(** A registered type stands for its broadcast sender. *)
Record Inbound (M : Type) := mkInbound {
  on_hold : gmap Z (Held M);
  registry : gset Z;
  sequence : Z;
}.
Arguments mkInbound {M}.
Arguments on_hold {M}.
Arguments registry {M}.
Arguments sequence {M}.

Definition Inbound_new {M} (types : gset Z) : Inbound M := mkInbound ∅ types 0.

Definition set_hold {M} (h : gmap Z (Held M)) (seq : Z) (s : Inbound M) : Inbound M :=
  mkInbound h (registry s) seq.

(** The loop that passes on what has become due; every turn takes a message out
    of the store, whose size is therefore enough fuel. *)
Fixpoint drain {M} (fuel : nat) (s : Inbound M) : Inbound M * list (Held M) :=
  match fuel with
  | O => (s, [])
  | S fuel' =>
      match on_hold s !! sequence s with
      | None => (s, [])
      | Some held =>
          let '(s', out) :=
            drain fuel' (set_hold (delete (sequence s) (on_hold s)) (wrap 16 (sequence s + 1)) s) in
          (s', held :: out)
      end
  end.

(** What is sent to the subscribers, in order. *)
Definition receive {M} `{Message M} (raw : bytes) (s : Inbound M) : Inbound M * list (Held M) :=
  match deenvelope_raw raw with
  | Err _ => (s, [])
  | Ok (ty, seq, _) =>
      let payload := drop 6 raw in
      let overflow := u16_saturating_add seq WINDOW_MAX in
      if (seq <? sequence s) && ((sequence s <=? overflow) || (overflow <? seq)) then (s, [])
      else
        match (if decide (ty ∈ registry s) then Ok (Registered ty payload)
               else m ← unpack payload ty; Ok (Primary m)) with
        | Err _ => (s, [])
        | Ok held =>
            let s := set_hold (<[seq := held]> (on_hold s)) (sequence s) s in
            drain (size (on_hold s)) s
        end
  end.

Definition register_message_type {M} (ty : Z) (system : bool) (s : Inbound M) : result (Inbound M) :=
  if (MSGTYPE_SYSTEM_MIN <=? ty) && negb system then Err ChannelError
  else Ok (mkInbound (on_hold s) ({[ty]} ∪ registry s) (sequence s)).

(** ** The send window *)
Record ChannelParams := mkParams {
  max_tries : Z;
  fast_rate_rounds : Z;
  medium_rate_rounds : Z;
  window : Z;
  window_max : Z;
  window_min : Z;
  window_flexibility : Z;
}.

Definition ChannelParams_new (slow : bool) : ChannelParams :=
  if slow then mkParams 5 0 0 1 1 1 1
  else mkParams 5 0 0 WINDOW WINDOW_MAX_SLOW WINDOW_MIN WINDOW_FLEXIBILITY.

(** [Duration::as_secs_f32] *)
Definition as_secs_f32 (ns : Z) : f32 :=
  f32_add (f32_of_Z (ns / NANOS)) (f32_div (f32_of_Z (ns mod NANOS)) (f32_of_Z NANOS)).

Definition set_rates (fast medium : Z) (p : ChannelParams) : ChannelParams :=
  mkParams (max_tries p) fast medium (window p) (window_max p) (window_min p) (window_flexibility p).

Definition set_window (w wmax wmin : Z) (p : ChannelParams) : ChannelParams :=
  mkParams (max_tries p) (fast_rate_rounds p) (medium_rate_rounds p) w wmax wmin (window_flexibility p).

(** [+=] on [u16] as the release profile runs it. *)
Definition adjust_params (rtt : Z) (p : ChannelParams) : ChannelParams :=
  let p := if window p <? window_max p then set_window (window p + 1) (window_max p) (window_min p) p else p in
  let x := as_secs_f32 rtt in
  if f_eq x (f32_of_Z 0) then p
  else if f_lt RTT_FAST x then
    let p := set_rates 0 (medium_rate_rounds p) p in
    if f_lt RTT_MEDIUM x then set_rates 0 0 p
    else
      let p := set_rates 0 (wrap 16 (medium_rate_rounds p + 1)) p in
      if (window_max p <? WINDOW_MAX_MEDIUM) && (medium_rate_rounds p =? FAST_RATE_THRESHOLD)
      then set_window (window p) WINDOW_MAX_MEDIUM WINDOW_MIN_LIMIT_MEDIUM p else p
  else
    let p := set_rates (wrap 16 (fast_rate_rounds p + 1)) (medium_rate_rounds p) p in
    if (window_max p <? WINDOW_MAX_FAST) && (fast_rate_rounds p =? FAST_RATE_THRESHOLD)
    then set_window (window p) WINDOW_MAX_FAST WINDOW_MIN_LIMIT_FAST p else p.

(** What a timeout does to the window. *)
Definition shrink_window (p : ChannelParams) : ChannelParams :=
  if window_min p <? window p then
    set_window (window p - 1)
      (if u16_saturating_add (window_min p) (window_flexibility p) <? window_max p
       then window_max p - 1 else window_max p) (window_min p) p
  else p.

(** [powi] with a small non-negative exponent: exact for 1.5 up to the 15th
    power, and tries stay below that. *)
Fixpoint f32_powi (x : f32) (n : nat) : f32 :=
  match n with
  | O => f32_of_Z 1
  | S n' => f32_mul x (f32_powi x n')
  end.

(** [None]: the panic of [from_secs_f32] on a value that is no duration. *)
Definition packet_timeout_time (rtt : Z) (ring_len : nat) (tries : Z) : option Z :=
  let rtt_f32 := as_secs_f32 rtt in
  let rtt_factor := if f_le (f32_dec 1 2) rtt_f32 then f32_mul (f32_dec 25 1) rtt_f32 else f32_dec 25 3 in
  let tries_factor := f32_powi (f32_dec 15 1) (Z.to_nat (Z.max 0 (tries - 1))) in
  let total := f32_mul (f32_mul tries_factor rtt_factor)
                 (f32_add (f32_of_Z (Z.of_nat ring_len)) (f32_dec 15 1)) in
  from_secs_f64 total.

(** ** Sending *)
Record SentMessage := mkSent {
  sent_packet : Packet;
  tries : Z;
}.

Record Outbound := mkOutbound {
  sent_messages : gmap Hash SentMessage;
  delivered : gset Hash;
  next_sequence : Z;
  params : ChannelParams;
  cancelled : bool;
  last_pending : option Hash;
}.

Inductive MessageStatus := Unknown | Waiting | Sent (n : Z) | Delivered.

(** What the sending side asks of its surroundings. *)
Inductive Effect :=
| SendPacket (p : Packet)
| StartTimer (hash : Hash) (interval : Z)
| NotifyDelivered (hash : Hash)
| CloseLink.

Section Sending.
Context `{Sha256} `{CbcCipher} `{HmacSha256}.

Definition with_sent (m : gmap Hash SentMessage) (o : Outbound) : Outbound :=
  mkOutbound m (delivered o) (next_sequence o) (params o) (cancelled o) (last_pending o).

Definition with_params (p : ChannelParams) (o : Outbound) : Outbound :=
  mkOutbound (sent_messages o) (delivered o) (next_sequence o) p (cancelled o) (last_pending o).

Definition Outbound_new (link : Link.t) : Outbound :=
  let slow := f_lt RTT_SLOW (as_secs_f32 (Link.rtt link)) in
  mkOutbound ∅ ∅ 0 (ChannelParams_new slow) false None.

Definition cancel (o : Outbound) : Outbound :=
  mkOutbound (sent_messages o) (delivered o) (next_sequence o) (params o) true (last_pending o).

(** The packet, whether it was sent, and what was sent. *)
Definition outlet_send (link : Link.t) (iv raw : bytes) : option (result (Packet * bool * list Effect)) :=
  r ← data_packet link iv raw;
  Some (p ← r;
        let active := bool_decide (Link.status link = Active) in
        let p := mkPacket (header p) (ifac p) (destination p) (transport p) CtxChannel (Packet.data p) in
        Ok (p, active, if active then [SendPacket p] else [])).

(** [up]: the transport still exists. *)
Definition outlet_resend (link : Link.t) (up : bool) (p : Packet) : bool * list Effect :=
  if bool_decide (Link.status link = Active) && up then (true, [SendPacket p]) else (false, []).

Definition outlet_is_usable (link : Link.t) : bool := bool_decide (Link.status link = Active).

Definition is_ready_to_send (link : Link.t) (o : Outbound) : bool :=
  negb (cancelled o) && outlet_is_usable link &&
  (Z.of_nat (size (sent_messages o)) <? window (params o)).

Definition watch_delivery (h : Hash) (o : Outbound) : bool := bool_decide (is_Some (sent_messages o !! h)).

Definition last_pending_receipt (o : Outbound) : option Hash :=
  h ← last_pending o; if watch_delivery h o then Some h else None.

Definition handle_proof (link : Link.t) (h : Hash) (o : Outbound) : Outbound * list Effect :=
  match sent_messages o !! h with
  | None => (o, [])
  | Some _ =>
      (mkOutbound (delete h (sent_messages o)) ({[h]} ∪ delivered o) (next_sequence o)
         (adjust_params (Link.rtt link) (params o)) (cancelled o)
         (if decide (last_pending o = Some h) then None else last_pending o),
       [NotifyDelivered h])
  end.

Definition schedule_timeout (link : Link.t) (h : Hash) (m : SentMessage) (o : Outbound) : option (list Effect) :=
  t ← packet_timeout_time (Link.rtt link) (size (sent_messages o)) (tries m);
  Some [StartTimer h t].

Definition Outbound_teardown (up : bool) : list Effect := if up then [CloseLink] else [].

Definition handle_timeout (link : Link.t) (up : bool) (h : Hash) (o : Outbound)
    : option (Outbound * list Effect) :=
  match sent_messages o !! h with
  | None => Some (o, [])
  | Some m =>
      if max_tries (params o) <=? tries m then Some (o, Outbound_teardown up)
      else
        let o := with_params (shrink_window (params o)) o in
        let '(_, sent) := outlet_resend link up (sent_packet m) in
        let m := mkSent (sent_packet m) (tries m + 1) in
        let o := with_sent (<[h := m]> (sent_messages o)) o in
        timer ← schedule_timeout link h m o;
        Some (o, sent ++ timer)
  end.

Definition envelope_limit (link : Link.t) : Z :=
  Z.min (Z.min (mdu link) max_link_plaintext) (0xFFFF + 6).

Definition send {M} `{Message M} (link : Link.t) (up : bool) (iv : bytes) (m : M) (o : Outbound)
    : option (result Hash * Outbound * list Effect) :=
  if negb up then Some (Err LinkNotReady, o, [])
  else if negb (is_ready_to_send link o) then Some (Err LinkNotReady, o, [])
  else
    let raw := message_raw m (Some (next_sequence o)) in
    let payload_len := Z.of_nat (length raw - 6) in
    if (0xFFFF <? payload_len) || (envelope_limit link <? Z.of_nat (length raw))
    then Some (Err ChannelMessageTooBig, o, [])
    else
      r ← outlet_send link iv raw;
      match r with
      | Err _ => Some (Err ChannelMessageTooBig, o, [])
      | Ok (p, sent, effects) =>
          if negb sent then Some (Err LinkNotReady, o, effects)
          else
            let h := Packet_hash p in
            let messages := <[h := mkSent p 1]> (sent_messages o) in
            let o := mkOutbound messages (delivered o) (wrap 16 (next_sequence o + 1)) (params o)
                       (cancelled o) (last_pending o) in
            t ← packet_timeout_time (Link.rtt link) (size messages) 1;
            Some (Ok h, o, effects ++ [StartTimer h t])
      end.

Definition get_status (h : Hash) (o : Outbound) : MessageStatus :=
  match sent_messages o !! h with
  | Some m => if tries m =? 0 then Waiting else Sent (tries m)
  | None => if decide (h ∈ delivered o) then Delivered else Unknown
  end.

Definition Channel_mdu (link : Link.t) : Z :=
  Z.min (Z.max 0 (mdu link - 6)) (Z.max 0 (max_link_plaintext - 6)).

End Sending.

(** ** Envelopes: lemmas *)
Lemma envelope_roundtrip (d : bytes) ty seq :
  0 <= ty < 65536 -> 0 <= seq < 65536 -> Z.of_nat (length d) < 65536 ->
  deenvelope_raw (envelope_raw d ty (Some seq)) = Ok (ty, seq, Z.of_nat (length d)) /\
  drop 6 (envelope_raw d ty (Some seq)) = d /\ length (envelope_raw d ty (Some seq)) = (6 + length d)%nat.
Proof.
  intros Ht Hs Hd. unfold envelope_raw. cbn [default from_option id].
  pose proof (be_encode_length 2 ty) as L1. pose proof (be_encode_length 2 seq) as L2.
  pose proof (be_encode_length 2 (wrap 16 (Z.of_nat (length d)))) as L3.
  assert (wrap 16 (Z.of_nat (length d)) = Z.of_nat (length d)) as Hw
    by (apply wrap_small; unfold in_width; lia).
  set (x := be_encode 2 ty) in *. set (y := be_encode 2 seq) in *.
  set (z := be_encode 2 (wrap 16 (Z.of_nat (length d)))) in *.
  assert (length (x ++ y ++ z ++ d) = (6 + length d)%nat) as Hl by (rewrite !length_app; lia).
  split; [|split; [|done]].
  - unfold deenvelope_raw. rewrite Hl. destruct (Nat.ltb_spec (6 + length d) 6); [lia|].
    assert (slice 0 2 (x ++ y ++ z ++ d) = x) as -> by (apply (slice_at 0 2 [] x); simpl; lia). rewrite (slice_at 2 4 x y) by lia.
    rewrite (app_assoc x y), (slice_at 4 6 (x ++ y) z) by (rewrite ?length_app; lia).
    unfold x, y, z. rewrite !be_decode_encode by (simpl; lia). by rewrite Hw.
  - rewrite !app_assoc. apply drop_app_length'. rewrite !length_app. lia.
Qed.

(** ** Receiving in order *)
Section Receiving.
Context {M : Type} `{Message M}.

(** What the subscribers of a channel with these registered types get for a
    message, and when it can be unpacked. *)
Definition expected (types : gset Z) (m : M) : Held M :=
  if decide (message_type m ∈ types) then Registered (message_type m) (pack m) else Primary m.

Definition readable (types : gset Z) (m : M) : Prop :=
  0 <= message_type m < 65536 /\ Z.of_nat (length (pack m)) < 65536 /\
  (message_type m ∉ types -> unpack (pack m) (message_type m) = Ok m).

Lemma receive_message types m k (s : Inbound M) :
  registry s = types -> readable types m -> 0 <= k < 65536 ->
  receive (message_raw m (Some k)) s =
    if (k <? sequence s) && (sequence s <=? u16_saturating_add k WINDOW_MAX) then (s, [])
    else
      let s := set_hold (<[k := expected types m]> (on_hold s)) (sequence s) s in
      drain (size (on_hold s)) s.
Proof.
  intros Hr (Ht & Hl & Hu) Hk. unfold receive, message_raw.
  destruct (envelope_roundtrip (pack m) (message_type m) k) as (-> & -> & _); [done..|].
  assert ((u16_saturating_add k WINDOW_MAX <? k) = false) as ->.
  { apply Z.ltb_ge. unfold u16_saturating_add, WINDOW_MAX, WINDOW_MAX_FAST. lia. }
  rewrite orb_false_r. destruct (_ && _); [done|]. rewrite Hr. unfold expected.
  case_decide; [done|]. by rewrite Hu.
Qed.

(** The drain loop, where [f] gives what is held from [N] on and nothing is held
    from [L] on: it passes on everything up to the first gap. *)
Lemma drain_spec (f : nat -> option (Held M)) (L : nat) fuel (s : Inbound M) N :
  (forall i, (N <= i)%nat -> on_hold s !! Z.of_nat i = f i) ->
  (forall i, (L <= i)%nat -> f i = None) -> (Z.of_nat L < 65536) ->
  sequence s = Z.of_nat N -> (N <= L)%nat -> (size (on_hold s) <= fuel)%nat ->
  exists n s', drain fuel s = (s', omap f (seq N (n - N))) /\ (N <= n <= L)%nat /\ f n = None /\
    (forall i, (N <= i < n)%nat -> is_Some (f i)) /\ sequence s' = Z.of_nat n /\ registry s' = registry s /\
    (forall i, (n <= i)%nat -> on_hold s' !! Z.of_nat i = f i).
Proof.
  intros Hf HL Hsmall. revert s N Hf. induction fuel as [|fuel IH]; intros s N Hf Hs HN Hsize.
  { assert (f N = None) as HfN.
    { rewrite <- Hf by lia. assert (on_hold s = ∅) as -> by (apply map_size_empty_inv; lia). done. }
    exists N, s. rewrite Nat.sub_diag. simpl. repeat split; try done; try lia. }
  cbn [drain]. rewrite Hs, Hf by lia. destruct (f N) as [held|] eqn:HfN.
  - assert (N < L)%nat as HNL.
    { destruct (decide (L <= N)%nat) as [Hle|]; [|lia]. rewrite HL in HfN by done. done. }
    set (s1 := set_hold _ _ _).
    destruct (IH s1 (S N)) as (n & s' & E & Hn & Hgap & Hpre & Hseq & Hreg & Hhold).
    + intros i Hi. unfold s1. simpl. rewrite lookup_delete_ne by lia. apply Hf. lia.
    + unfold s1. simpl. rewrite wrap_small by (unfold in_width; lia). lia.
    + lia.
    + unfold s1. simpl. rewrite map_size_delete_Some; [lia|]. rewrite Hf by lia. by rewrite HfN.
    + rewrite E. exists n, s'. split.
      { replace (n - N)%nat with (S (n - S N)) by lia. cbn [seq omap list_omap]. by rewrite HfN. }
      split; [lia|]. split; [done|]. split; [|done].
      intros i Hi. destruct (decide (i = N)) as [->|]; [by rewrite HfN|]. apply Hpre. lia.
  - exists N, s. rewrite Nat.sub_diag. simpl. repeat split; try done; lia.
Qed.

(** What is held for the message [i] of [ms] once those in [arrived] came in. *)
Definition held_at (types : gset Z) (ms : list M) (arrived : list nat) (i : nat) : option (Held M) :=
  if decide (i ∈ arrived) then expected types <$> ms !! i else None.

(** The receiver has passed on the first [n] messages and holds what arrived
    beyond a gap. *)
Definition inbound_ok (types : gset Z) (ms : list M) (arrived : list nat) (s : Inbound M) (n : nat) : Prop :=
  registry s = types /\ sequence s = Z.of_nat n /\ (n <= length ms)%nat /\
  Forall (fun i => (i < length ms)%nat) arrived /\ (forall i, (i < n)%nat -> i ∈ arrived) /\ (n ∉ arrived) /\
  (forall i, (n <= i)%nat -> on_hold s !! Z.of_nat i = held_at types ms arrived i).

Lemma omap_held_at types ms arrived n n' :
  (n <= n' <= length ms)%nat -> (forall i, (n <= i < n')%nat -> is_Some (held_at types ms arrived i)) ->
  omap (held_at types ms arrived) (seq n (n' - n)) = expected types <$> take (n' - n) (drop n ms).
Proof.
  intros Hn Hs. remember (n' - n)%nat as d eqn:Ed. revert n Hn Hs Ed. induction d as [|d IH]; intros n Hn Hs Ed; [done|].
  destruct (ms !! n) as [m|] eqn:Em; [|apply lookup_ge_None in Em; lia].
  rewrite (drop_S _ _ _ Em). cbn [seq omap list_omap take fmap list_fmap].
  destruct (Hs n) as [h Eh]; [lia|]. rewrite Eh. unfold held_at in Eh. case_decide; [|done].
  rewrite Em in Eh. injection Eh as <-. f_equal. apply IH; [lia| |lia]. intros i Hi. apply Hs. lia.
Qed.

Lemma receive_step types ms arrived s n k m :
  inbound_ok types ms arrived s n -> ms !! k = Some m -> readable types m -> Z.of_nat (length ms) < 65536 ->
  exists s' n', receive (message_raw m (Some (Z.of_nat k))) s =
      (s', expected types <$> take (n' - n) (drop n ms)) /\
    (n <= n')%nat /\ inbound_ok types ms (k :: arrived) s' n'.
Proof.
  intros (Hreg & Hseq & Hn & Hall & Hpre & Hgap & Hhold) Hk Hread Hlen.
  pose proof (lookup_lt_Some _ _ _ Hk) as Hlt.
  rewrite (receive_message types m (Z.of_nat k) s Hreg Hread) by lia. rewrite Hseq.
  assert (Forall (fun i => (i < length ms)%nat) (k :: arrived)) as Hall' by (by constructor).
  destruct (_ && _) eqn:Hdrop.
  - zb. exists s, n. rewrite Nat.sub_diag. split; [done|]. split; [done|].
    do 4 (split; [done|]). split; [intros i Hi; apply elem_of_cons; auto|].
    split; [apply not_elem_of_cons; split; [lia|done]|].
    intros i Hi. rewrite Hhold by done. unfold held_at. assert (i <> k) by lia.
    destruct (decide (i ∈ arrived)), (decide (i ∈ k :: arrived)) as [Hin|Hin]; try done.
    + by destruct Hin; apply elem_of_cons; right.
    + by apply elem_of_cons in Hin as [|].
  - clear Hdrop. set (s1 := set_hold _ _ _). cbv zeta.
    destruct (drain_spec (held_at types ms (k :: arrived)) (length ms) (size (on_hold s1)) s1 n)
      as (n' & s' & E & Hn' & Hf & Hsome & Hseq' & Hreg' & Hhold'); [| |done|done|done|done|].
    + intros i Hi. unfold s1. simpl. unfold held_at. destruct (decide (i = k)) as [->|Hne].
      * rewrite lookup_insert_eq, decide_True by (apply elem_of_cons; by left). by rewrite Hk.
      * rewrite lookup_insert_ne, Hhold by lia. unfold held_at.
        destruct (decide (i ∈ arrived)), (decide (i ∈ k :: arrived)) as [Hin|Hin]; try done.
        -- by destruct Hin; apply elem_of_cons; right.
        -- by apply elem_of_cons in Hin as [|].
    + intros i Hi. unfold held_at. case_decide; [|done]. by rewrite lookup_ge_None_2.
    + exists s', n'. rewrite E, omap_held_at by (done || lia). split; [done|]. split; [lia|].
      split; [by rewrite Hreg'|]. split; [done|]. split; [lia|]. split; [done|]. split.
      { intros i Hi. destruct (decide (i < n)%nat); [apply elem_of_cons; auto|].
        destruct (Hsome i) as [h Eh]; [lia|]. unfold held_at in Eh. by case_decide. }
      split; [|done]. intros Hin. unfold held_at in Hf. rewrite decide_True in Hf by done.
      pose proof Hin as Hin'. eapply list.Forall_forall in Hin'; [|exact Hall'].
      destruct (lookup_lt_is_Some_2 ms n' Hin') as [x Ex]. by rewrite Ex in Hf.
Qed.

Fixpoint receive_all (raws : list bytes) (s : Inbound M) : Inbound M * list (Held M) :=
  match raws with
  | [] => (s, [])
  | raw :: raws' =>
      let '(s1, out) := receive raw s in
      let '(s2, out') := receive_all raws' s1 in (s2, out ++ out')
  end.

(** A message beyond the reach of the window is not recognised as old: it is
    stored under its number, and passed on when that number comes up again, in
    the place of the message that then has it. *)
Lemma stale_is_held types old k (s : Inbound M) :
  registry s = types -> readable types old -> 0 <= k -> k + WINDOW_MAX < sequence s -> sequence s < 65536 ->
  on_hold s !! sequence s = None ->
  receive (message_raw old (Some k)) s = (set_hold (<[k := expected types old]> (on_hold s)) (sequence s) s, []).
Proof.
  intros Hr Hread Hk Hfar Hs Hnone. unfold WINDOW_MAX, WINDOW_MAX_FAST in Hfar.
  rewrite (receive_message types old k s Hr Hread) by lia.
  assert ((sequence s <=? u16_saturating_add k WINDOW_MAX) = false) as ->.
  { apply Z.leb_gt. unfold u16_saturating_add, WINDOW_MAX, WINDOW_MAX_FAST. lia. }
  rewrite andb_false_r. cbv zeta. set (s1 := set_hold _ _ _).
  destruct (size (on_hold s1)); [done|]. cbn [drain]. unfold s1 at 1 2. simpl.
  rewrite lookup_insert_ne by lia. by rewrite Hnone.
Qed.

Lemma held_is_delivered types old m k (s : Inbound M) :
  registry s = types -> readable types m -> 0 <= k < 65535 -> sequence s = k ->
  on_hold s !! (k + 1) = Some old ->
  exists s' out, receive (message_raw m (Some k)) s = (s', expected types m :: old :: out).
Proof.
  intros Hr Hread Hk Hs Hold. rewrite (receive_message types m k s Hr Hread) by lia.
  assert ((k <? sequence s) = false) as -> by (apply Z.ltb_ge; lia). cbn [andb]. cbv zeta.
  set (s1 := set_hold _ _ _).
  assert (2 <= size (on_hold s1))%nat as Hsize.
  { unfold s1. simpl. rewrite <- (insert_delete_id (on_hold s) (k + 1) old Hold).
    rewrite insert_insert_ne by lia. rewrite map_size_insert_None.
    - destruct (decide (delete (k + 1) (on_hold s) !! k = None)) as [E|E].
      + rewrite map_size_insert_None by done. lia.
      + rewrite map_size_insert_Some by (by destruct (delete (k + 1) (on_hold s) !! k)).
        destruct (delete (k + 1) (on_hold s) !! k) eqn:E'; [|done].
        assert (size (delete (k + 1) (on_hold s)) <> 0%nat); [|lia].
        apply map_size_non_empty_iff. intros E0. by rewrite E0 in E'.
    - rewrite lookup_insert_ne by lia. apply lookup_delete_eq. }
  destruct (size (on_hold s1)) as [|[|fuel]]; [lia|lia|]. cbn [drain]. unfold s1 at 1 2. simpl.
  rewrite Hs, lookup_insert_eq, wrap_small by (unfold in_width; lia).
  rewrite lookup_delete_ne, lookup_insert_ne, Hold by lia.
  destruct (drain _ _) as [s' out]. by eexists _, _.
Qed.

End Receiving.

(** ** From sender to receiver *)
Section EndToEnd.
Context {M : Type} `{Message M}.
Context `{Sha256} `{Hkdf} `{X25519} `{CbcCipher} `{HmacSha256}.
Context `{Signing} `{!Verifying} `{!Ed25519} `{!Ed25519Keys} `{Rmp} `{RmpDecode}.

(** The receiving task: what the link passes to the channel is received. *)
Definition channel_rx (now : Z) (out_link : bool) (p : Packet) (b : Link.t) (s : Inbound M)
    : Link.t * Inbound M * list (Held M) :=
  let h := handle_packet now true out_link p b in
  let '(s', out) := receive_all (h_channel h) s in (h_link h, s', out).

Fixpoint channel_rx_all (out_link : bool) (arrivals : list (Z * Packet)) (b : Link.t) (s : Inbound M)
    : Link.t * Inbound M * list (Held M) :=
  match arrivals with
  | [] => (b, s, [])
  | (now, p) :: rest =>
      let '(b1, s1, out) := channel_rx now out_link p b s in
      let '(b2, s2, out') := channel_rx_all out_link rest b1 s1 in (b2, s2, out ++ out')
  end.

(** What happens at the sending side: a message is sent, a proof or a timeout
    comes in, the channel is cancelled.  The link is given in its state at the
    time; [up] says whether the transport still exists. *)
Inductive OutOp :=
| OpSend (link : Link.t) (up : bool) (iv : bytes) (m : M)
| OpProof (link : Link.t) (h : Hash)
| OpTimeout (link : Link.t) (up : bool) (h : Hash)
| OpCancel.

(** The new state, the effects, and the message that was accepted. *)
Definition run_op (o : Outbound) (op : OutOp) : option (Outbound * list Effect * list M) :=
  match op with
  | OpSend link up iv m =>
      '(r, o', effects) ← send link up iv m o;
      Some (o', effects, match r with Ok _ => [m] | Err _ => [] end)
  | OpProof link h => let '(o', effects) := handle_proof link h o in Some (o', effects, [])
  | OpTimeout link up h => '(o', effects) ← handle_timeout link up h o; Some (o', effects, [])
  | OpCancel => Some (cancel o, [], [])
  end.

Fixpoint run_ops (o : Outbound) (ops : list OutOp) : option (Outbound * list Effect * list M) :=
  match ops with
  | [] => Some (o, [], [])
  | op :: ops' =>
      '(o1, e1, m1) ← run_op o op;
      '(o2, e2, m2) ← run_ops o1 ops';
      Some (o2, e1 ++ e2, m1 ++ m2)
  end.

(** The operations use this link. *)
Definition same_link (a l : Link.t) : Prop := Link.id l = Link.id a /\ Link.derived_key l = Link.derived_key a.

Definition sendable (m : M) : Prop := 0 <= message_type m < 65536 /\ all_u8 (pack m).

Definition op_ok (a : Link.t) (op : OutOp) : Prop :=
  match op with
  | OpSend link _ iv m => same_link a link /\ length iv = IV_KEY_SIZE /\ sendable m
  | OpProof link _ => same_link a link
  | OpTimeout link _ _ => same_link a link
  | OpCancel => True
  end.

(** The packet that carries the message [k] of [ms] on the link of [a]. *)
Definition carries (a : Link.t) (ms : list M) (k : nat) (p : Packet) : Prop :=
  exists m iv, ms !! k = Some m /\ length iv = IV_KEY_SIZE /\ text_fits (message_raw m (Some (Z.of_nat k))) /\
    p = link_packet a Data CtxChannel
          (token_buffer (token_of (derived_fernet (Link.derived_key a)) iv (message_raw m (Some (Z.of_nat k))))).

Lemma carries_app a ms ms' k p : carries a ms k p -> carries a (ms ++ ms') k p.
Proof. intros (m & iv & Hk & ?). exists m, iv. split; [by apply lookup_app_l_Some|done]. Qed.

Definition sends (effects : list Effect) : list Packet :=
  omap (fun e => match e with SendPacket p => Some p | _ => None end) effects.

Lemma message_raw_fits (m : M) k link :
  sendable m -> Z.of_nat (length (message_raw m (Some k))) <= envelope_limit link ->
  text_fits (message_raw m (Some k)).
Proof.
  intros [_ Hu] Hl. split.
  - unfold message_raw, envelope_raw. rewrite !all_u8_app. auto using be_encode_u8.
  - unfold envelope_limit in Hl. change max_link_plaintext with 1999 in Hl.
    rewrite pkcs7_pad_length. set (n := length _) in *. change FERNET_OVERHEAD_SIZE with 48%nat.
    change AES128_BLOCKSIZE with 16%nat. unfold PACKET_MDU.
    pose proof (Nat.div_mod_eq n 16). pose proof (Nat.mod_upper_bound n 16). lia.
Qed.

(** What an accepted message does: the packet that carries it goes out, it is
    tracked, and the sequence number advances. *)
Lemma send_accepted (a : Link.t) link up iv (m : M) o h o' effects k :
  send link up iv m o = Some (Ok h, o', effects) -> next_sequence o = Z.of_nat k ->
  same_link a link -> length iv = IV_KEY_SIZE -> sendable m ->
  exists p, text_fits (message_raw m (Some (Z.of_nat k))) /\
    p = link_packet a Data CtxChannel
          (token_buffer (token_of (derived_fernet (Link.derived_key a)) iv (message_raw m (Some (Z.of_nat k))))) /\
    sends effects = [p] /\ h = Packet_hash p /\ sent_messages o' = <[h := mkSent p 1]> (sent_messages o) /\
    next_sequence o' = wrap 16 (Z.of_nat k + 1) /\ params o' = params o /\ delivered o' = delivered o /\
    is_ready_to_send link o = true.
Proof.
  intros Hsend Hk [Eid Ekey] Hiv Hm. unfold send in Hsend. destruct up; [|done]. cbn [negb] in Hsend.
  destruct (is_ready_to_send link o) eqn:Hready; [|done]. cbn [negb] in Hsend. rewrite Hk in Hsend.
  destruct (_ || _) eqn:Hbig; [done|]. zb.
  assert (text_fits (message_raw m (Some (Z.of_nat k)))) as Hfit by (by eapply message_raw_fits).
  assert (Link.status link = Active) as Hact.
  { unfold is_ready_to_send, outlet_is_usable in Hready. apply andb_true_iff in Hready as [Hr _].
    apply andb_true_iff in Hr as [_ Hr]. by apply bool_decide_eq_true_1 in Hr. }
  unfold outlet_send, data_packet in Hsend.
  destruct (context_packet_spec link iv (message_raw m (Some (Z.of_nat k))) CtxNone) as [Ep _];
    [by left|done|done|].
  rewrite Ep, Hact in Hsend. rewrite bool_decide_eq_true_2 in Hsend by done. cbn [mbind option_bind result_bind negb] in Hsend.
  destruct (packet_timeout_time _ _ _) as [t|]; [|done]. cbn in Hsend. injection Hsend as <- <- <-.
  eexists. split; [done|]. split; [unfold link_packet; by rewrite <- Eid, <- Ekey|]. done.
Qed.

Lemma send_rejected link up iv (m : M) o e o' effects :
  send link up iv m o = Some (Err e, o', effects) -> o' = o /\ effects = [].
Proof.
  unfold send, outlet_send. destruct up; cbn [negb]; [|by intros [= <- <- <-]].
  destruct (is_ready_to_send link o); cbn [negb]; [|by intros [= <- <- <-]].
  destruct (_ || _); [by intros [= <- <- <-]|].
  destruct (data_packet _ _ _) as [[p|e']|]; cbn [mbind option_bind result_bind]; [|by intros [= <- <- <-]|done].
  case_bool_decide; cbn [negb]; [|by intros [= <- <- <-]]. by destruct (packet_timeout_time _ _ _).
Qed.

Definition sender_ok (a : Link.t) (ms : list M) (o : Outbound) : Prop :=
  next_sequence o = Z.of_nat (length ms) /\
  (forall h x, sent_messages o !! h = Some x -> exists k, carries a ms k (sent_packet x)).

Lemma sender_step a ms o op o' effects new :
  run_op o op = Some (o', effects, new) -> op_ok a op -> sender_ok a ms o ->
  Z.of_nat (length (ms ++ new)) < 65536 ->
  sender_ok a (ms ++ new) o' /\ Forall (fun p => exists k, carries a (ms ++ new) k p) (sends effects).
Proof.
  intros Hrun Hok [Hseq Hsent] Hlen. destruct op as [link up iv m|link h|link up h|]; cbn [run_op] in Hrun.
  - destruct (send link up iv m o) as [[[[h|e] o1] ef]|] eqn:Hs; [| |done]; injection Hrun as <- <- <-.
    + destruct Hok as (Hl & Hiv & Hm).
      destruct (send_accepted a link up iv m o h o1 ef (length ms)) as (p & Hfit & Hp & He & Hh & Hmap & Hn & _);
        [done..|].
      assert (carries a (ms ++ [m]) (length ms) p) as Hc.
      { exists m, iv. split; [by apply list_lookup_middle|done]. }
      split; [split|].
      * rewrite Hn, length_app. rewrite length_app in Hlen. cbn [length] in *.
        rewrite wrap_small by (unfold in_width; lia). lia.
      * intros h' x. rewrite Hmap, lookup_insert. case_decide; [intros [= <-]; by exists (length ms)|].
        intros Hx. destruct (Hsent h' x Hx) as [k Hk]. exists k. by apply carries_app.
      * rewrite He. constructor; [by exists (length ms)|constructor].
    + destruct (send_rejected _ _ _ _ _ _ _ _ Hs) as [-> ->]. rewrite app_nil_r. split; [done|constructor].
  - unfold handle_proof in Hrun.
    destruct (sent_messages o !! h); injection Hrun as <- <- <-; rewrite app_nil_r; (split; [|constructor]); [|done].
    split; [done|]. simpl. intros h' x Hx. apply lookup_delete_Some in Hx as [_ Hx]. eauto.
  - unfold handle_timeout in Hrun. destruct (sent_messages o !! h) as [x|] eqn:Hx.
    + destruct (_ <=? _).
      * injection Hrun as <- <- <-. rewrite app_nil_r. split; [done|]. unfold Outbound_teardown. by destruct up.
      * destruct (Hsent h x Hx) as [k Hk]. unfold outlet_resend, schedule_timeout in Hrun.
        destruct (_ && _), (packet_timeout_time _ _ _) as [t|]; try done; injection Hrun as <- <- <-;
          rewrite app_nil_r; (split; [split; [done|]|]); simpl;
          try (intros h' x'; rewrite lookup_insert; case_decide; [intros [= <-]; by exists k|eauto]);
          repeat constructor. by exists k.
    + injection Hrun as <- <- <-. rewrite app_nil_r. split; [done|constructor].
  - injection Hrun as <- <- <-. rewrite app_nil_r. split; [done|constructor].
Qed.

Lemma sends_app e1 e2 : sends (e1 ++ e2) = sends e1 ++ sends e2.
Proof. apply omap_app. Qed.

Lemma sender_run a ops o ms o' effects new :
  run_ops o ops = Some (o', effects, new) -> Forall (op_ok a) ops -> sender_ok a ms o ->
  Z.of_nat (length (ms ++ new)) < 65536 ->
  sender_ok a (ms ++ new) o' /\ Forall (fun p => exists k, carries a (ms ++ new) k p) (sends effects).
Proof.
  revert o ms o' effects new. induction ops as [|op ops IH]; intros o ms o' effects new Hrun Hok Hs Hlen.
  { injection Hrun as <- <- <-. rewrite app_nil_r. split; [done|constructor]. }
  apply Forall_cons_iff in Hok as [Hop Hok]. cbn [run_ops] in Hrun.
  destruct (run_op o op) as [[[o1 e1] m1]|] eqn:E1; [|done]. cbn [mbind option_bind] in Hrun.
  destruct (run_ops o1 ops) as [[[o2 e2] m2]|] eqn:E2; [|done]. injection Hrun as <- <- <-.
  destruct (sender_step a ms o op o1 e1 m1 E1 Hop Hs) as [Hs1 He1].
  { rewrite !length_app in *. lia. }
  rewrite app_assoc in *. destruct (IH o1 (ms ++ m1) o2 e2 m2 E2 Hok Hs1 Hlen) as [Hs2 He2].
  split; [done|]. rewrite sends_app. apply Forall_app. split; [|done].
  eapply Forall_impl; [|exact He1]. intros p [k Hk]. exists k. by apply carries_app.
Qed.

(** Every accepted message goes out at least once. *)
Lemma sender_covers a ops o ms o' effects new k :
  run_ops o ops = Some (o', effects, new) -> Forall (op_ok a) ops -> sender_ok a ms o ->
  Z.of_nat (length (ms ++ new)) < 65536 -> (length ms <= k < length (ms ++ new))%nat ->
  exists p, p ∈ sends effects /\ carries a (ms ++ new) k p.
Proof.
  revert o ms o' effects new. induction ops as [|op ops IH]; intros o ms o' effects new Hrun Hok Hs Hlen Hk.
  { injection Hrun as <- <- <-. rewrite app_nil_r in Hk. lia. }
  apply Forall_cons_iff in Hok as [Hop Hok]. cbn [run_ops] in Hrun.
  destruct (run_op o op) as [[[o1 e1] m1]|] eqn:E1; [|done]. cbn [mbind option_bind] in Hrun.
  destruct (run_ops o1 ops) as [[[o2 e2] m2]|] eqn:E2; [|done]. injection Hrun as <- <- <-.
  destruct (sender_step a ms o op o1 e1 m1 E1 Hop Hs) as [Hs1 _]; [rewrite !length_app in *; lia|].
  rewrite app_assoc, sends_app in *. destruct (decide (length (ms ++ m1) <= k)%nat) as [Hge|Hlt].
  { destruct (IH o1 (ms ++ m1) o2 e2 m2 E2 Hok Hs1 Hlen) as (p & Hp & Hc); [lia|].
    exists p. split; [|done]. apply elem_of_app. by right. }
  rewrite length_app in Hlt. destruct op as [link up iv m|link h|link up h|]; cbn [run_op] in E1.
  - destruct (send link up iv m o) as [[[[h|e] o3] ef]|] eqn:Hsend; [| |done]; injection E1 as <- <- <-; cbn [length] in Hlt; [|lia].
    destruct Hop as (Hl & Hiv & Hm), Hs as [Hseq _].
    destruct (send_accepted a link up iv m o h o3 ef (length ms)) as (p & Hfit & Hp & He & _); [done..|].
    exists p. rewrite He. split; [apply elem_of_app; left; by apply list_elem_of_singleton|].
    apply carries_app. assert (k = length ms) as -> by lia. exists m, iv. split; [by apply list_lookup_middle|done].
  - destruct (handle_proof link h o). injection E1 as <- <- <-. cbn [length] in Hlt. lia.
  - destruct (handle_timeout link up h o) as [[o3 ef]|]; [|done]. injection E1 as <- <- <-. cbn [length] in Hlt. lia.
  - injection E1 as <- <- <-. cbn [length] in Hlt. lia.
Qed.

(** A packet carries one message. *)
Lemma carries_unique a (ms : list M) k k' p :
  carries a ms k p -> carries a ms k' p -> Z.of_nat (length ms) < 65536 -> k = k'.
Proof.
  intros (m & iv & Hk & Hiv & Hfit & Ep) (m' & iv' & Hk' & Hiv' & Hfit' & Ep') Hlen.
  apply lookup_lt_Some in Hk, Hk'. set (text := message_raw m _) in *. set (text' := message_raw m' _) in *.
  assert (payload p = token_of (derived_fernet (Link.derived_key a)) iv text) as P1.
  { rewrite Ep. apply token_buffer_slice. rewrite token_of_length by done. destruct Hfit as [_ Hfit]. lia. }
  assert (payload p = token_of (derived_fernet (Link.derived_key a)) iv' text') as P2.
  { rewrite Ep'. apply token_buffer_slice. rewrite token_of_length by done. destruct Hfit' as [_ Hfit']. lia. }
  pose proof (Link_decrypt_spec a iv text Hiv Hfit) as D1. pose proof (Link_decrypt_spec a iv' text' Hiv' Hfit') as D2.
  rewrite <- P1 in D1. rewrite <- P2, D1 in D2. assert (text = text') as Et by congruence. unfold text, text', message_raw, envelope_raw in Et.
  apply (f_equal (fun l => be_decode (take 2 (drop 2 l)))) in Et. cbn [default from_option] in Et.
  rewrite !drop_app_length' in Et by (by rewrite be_encode_length).
  rewrite !take_app_length' in Et by (by rewrite be_encode_length). unfold id in Et.
  rewrite !be_decode_encode in Et by lia. lia.
Qed.

(** One packet: the receiving link passes its text to the channel. *)
Lemma channel_rx_step a b types ms arrived s n k p now out_link :
  paired a b -> carries a ms k p -> inbound_ok types ms arrived s n -> Forall (readable types) ms ->
  Z.of_nat (length ms) < 65536 ->
  exists b' s' n', channel_rx now out_link p b s = (b', s', expected types <$> take (n' - n) (drop n ms)) /\
    (n <= n')%nat /\ inbound_ok types ms (k :: arrived) s' n' /\ paired a b'.
Proof.
  intros Hpair (m & iv & Hk & Hiv & Hfit & ->) Hin Hread Hlen. unfold channel_rx.
  destruct (Link_delivery a b iv _ CtxChannel now true out_link Hpair Hiv Hfit)
    as (p & Ep & _ & Hch & Hpair' & _ & _); [by right|].
  destruct (context_packet_spec a iv (message_raw m (Some (Z.of_nat k))) CtxChannel) as [Ep' _];
    [apply Hpair|done|done|].
  rewrite Ep in Ep'. injection Ep' as ->. rewrite Hch, decide_True by done.
  destruct (receive_step types ms arrived s n k m) as (s' & n' & E & Hn & Hin'); [done|done| |done|].
  { eapply list.Forall_forall; [exact Hread|]. by eapply list_elem_of_lookup_2. }
  cbn [receive_all]. rewrite E, app_nil_r. by eexists _, _, _.
Qed.

Lemma take_drop_split {A} (l : list A) n1 n2 n3 :
  (n1 <= n2 <= n3)%nat -> take (n2 - n1) (drop n1 l) ++ take (n3 - n2) (drop n2 l) = take (n3 - n1) (drop n1 l).
Proof.
  intros Hn. replace (drop n2 l) with (drop (n2 - n1) (drop n1 l)) by (rewrite drop_drop; f_equal; lia).
  rewrite take_take_drop. f_equal. lia.
Qed.

Lemma channel_rx_all_spec a types ms out_link arrivals ks b s n arrived :
  Forall2 (fun k x => carries a ms k x.2) ks arrivals ->
  paired a b -> inbound_ok types ms arrived s n -> Forall (readable types) ms -> Z.of_nat (length ms) < 65536 ->
  exists b' s' n', channel_rx_all out_link arrivals b s = (b', s', expected types <$> take (n' - n) (drop n ms)) /\
    (n <= n')%nat /\ inbound_ok types ms (rev ks ++ arrived) s' n' /\ paired a b'.
Proof.
  intros Hks. revert b s n arrived. induction Hks as [|k [now p] ks arrivals Hk _ IH];
    intros b s n arrived Hpair Hin Hread Hlen.
  { exists b, s, n. rewrite Nat.sub_diag. by repeat split; try apply Hin; try apply Hpair. }
  destruct (channel_rx_step a b types ms arrived s n k p now out_link) as (b1 & s1 & n1 & E1 & Hn1 & Hin1 & Hp1);
    [done..|].
  destruct (IH b1 s1 n1 (k :: arrived) Hp1 Hin1 Hread Hlen) as (b2 & s2 & n2 & E2 & Hn2 & Hin2 & Hp2).
  exists b2, s2, n2. cbn [channel_rx_all]. rewrite E1, E2, <- fmap_app, take_drop_split by lia.
  split; [done|]. split; [lia|]. split; [|done]. cbn [rev]. by rewrite <- app_assoc.
Qed.

Lemma arrivals_carried (a : Link.t) (ms : list M) effects (arrivals : list (Z * Packet)) :
  Forall (fun p => exists k, carries a ms k p) (sends effects) -> Forall (fun x => x.2 ∈ sends effects) arrivals ->
  exists ks, Forall2 (fun k x => carries a ms k x.2) ks arrivals.
Proof.
  intros Hcarry Harr. induction Harr as [|x arrivals Hx _ [ks IH]]; [by exists []|].
  eapply list.Forall_forall in Hcarry; [|exact Hx]. destruct Hcarry as [k Hk]. exists (k :: ks). by constructor.
Qed.

Lemma Inbound_new_ok types (ms : list M) : inbound_ok types ms [] (Inbound_new types) 0.
Proof.
  split; [done|]. split; [done|]. split; [lia|]. split; [constructor|]. split; [lia|].
  split; [apply not_elem_of_nil|]. intros i _. unfold held_at. rewrite decide_False by apply not_elem_of_nil. done.
Qed.

(** C2: reliable, ordered delivery over a channel. Let a sender accept messages
    (up to 65535) and resend them on timeouts, with proofs coming in at any time,
    and let any of the packets it emitted arrive at the peer's end of the link,
    in any order, with any losses and repetitions.  Then what the subscribers get
    is a prefix of the accepted messages: each once, in order, unchanged, up to
    the first message none of whose packets arrived. *)
Theorem Channel_delivery (a b link : Link.t) (ops : list OutOp) (o : Outbound) (effects : list Effect)
    (ms : list M) (types : gset Z) (out_link : bool) (arrivals : list (Z * Packet)) (Hpair : paired a b)
    (Hops : Forall (op_ok a) ops) (Hrun : run_ops (Outbound_new link) ops = Some (o, effects, ms))
    (Hlen : Z.of_nat (length ms) < 65536) (Hread : Forall (readable types) ms)
    (Harr : Forall (fun x => x.2 ∈ sends effects) arrivals) :
  exists b' s' n ks,
    channel_rx_all out_link arrivals b (Inbound_new types) = (b', s', expected types <$> take n ms) /\
    Forall2 (fun k x => carries a ms k x.2) ks arrivals /\
    (n <= length ms)%nat /\ (forall i, (i < n)%nat -> i ∈ ks) /\ n ∉ ks.
Proof.
  destruct (sender_run a ops (Outbound_new link) [] o effects ms Hrun Hops) as [_ Hcarry]; [by split|done|].
  destruct (arrivals_carried a ms effects arrivals Hcarry Harr) as [ks Hks].
  destruct (channel_rx_all_spec a types ms out_link arrivals ks b (Inbound_new types) 0 [] Hks Hpair (Inbound_new_ok types ms) Hread Hlen)
    as (b' & s' & n & E & _ & (_ & _ & Hn & _ & Hpre & Hgap & _) & _).
  exists b', s', n, ks. rewrite app_nil_r, Nat.sub_0_r, drop_0 in *. split; [done|]. split; [done|]. split; [done|].
  setoid_rewrite list_elem_of_In in Hpre. setoid_rewrite list_elem_of_In.
  rewrite list_elem_of_In in Hgap. setoid_rewrite <- in_rev in Hpre. rewrite <- in_rev in Hgap. done.
Qed.

End EndToEnd.

(** ** The window *)
Definition params_wf (p : ChannelParams) : Prop :=
  max_tries p = 5 /\ 1 <= window_min p /\ 1 <= window p <= window_max p /\ window_max p <= WINDOW_MAX.

Lemma ChannelParams_new_wf slow : params_wf (ChannelParams_new slow).
Proof.
  unfold params_wf, WINDOW_MAX, WINDOW_MAX_FAST.
  destruct slow; simpl; unfold WINDOW, WINDOW_MAX_SLOW, WINDOW_MIN; lia.
Qed.

Lemma shrink_window_wf p : params_wf p -> params_wf (shrink_window p).
Proof. unfold params_wf, shrink_window. intros ?. case_match; zb; [|done]. simpl. case_match; lia. Qed.

Lemma adjust_params_wf rtt p : params_wf p -> params_wf (adjust_params rtt p).
Proof.
  intros Hp. unfold adjust_params.
  set (p1 := if window p <? window_max p then _ else _).
  assert (params_wf p1) as Hp1.
  { unfold p1, params_wf in *. case_match; zb; [|done]. simpl. lia. }
  clearbody p1. clear Hp p. unfold params_wf, WINDOW_MAX in *.
  repeat case_match; zb; cbn [max_tries window window_max window_min set_window set_rates] in *; try lia; unfold WINDOW_MAX_MEDIUM, WINDOW_MIN_LIMIT_MEDIUM, WINDOW_MAX_FAST,
    WINDOW_MIN_LIMIT_FAST in *; lia.
Qed.

Definition outbound_wf (o : Outbound) : Prop :=
  params_wf (params o) /\ Z.of_nat (size (sent_messages o)) <= WINDOW_MAX /\
  map_Forall (fun _ x => 1 <= tries x <= 5) (sent_messages o).

Section OutboundTheorems.
Context {M : Type} `{Message M} `{Sha256} `{CbcCipher} `{HmacSha256}.

Lemma send_wf link up iv (m : M) o r o' effects :
  send link up iv m o = Some (r, o', effects) -> outbound_wf o -> outbound_wf o'.
Proof.
  intros Hs Hwf. destruct r as [h|e]; [|by apply send_rejected in Hs as [-> _]].
  unfold send in Hs. destruct up; [|done]. cbn [negb] in Hs.
  destruct (is_ready_to_send link o) eqn:Hready; [|done]. cbn [negb] in Hs.
  destruct (_ || _); [done|]. destruct (outlet_send _ _ _) as [[[[p sent] ef]|]|]; try done.
  cbn [mbind option_bind] in Hs. destruct sent; [|done]. cbn [negb] in Hs.
  destruct (packet_timeout_time _ _ _); [|done]. cbn in Hs. injection Hs as <- <- <-.
  destruct Hwf as (Hp & Hsize & Ht). unfold is_ready_to_send in Hready. apply andb_true_iff in Hready as [_ Hw].
  apply Z.ltb_lt in Hw. split; [done|]. simpl. split.
  - rewrite map_size_insert. destruct Hp as (_ & _ & ? & ?). case_match; unfold id; lia.
  - apply map_Forall_insert_2; [simpl; lia|done].
Qed.

Lemma handle_proof_wf link h o : outbound_wf o -> outbound_wf (handle_proof link h o).1.
Proof.
  intros (Hp & Hsize & Ht). unfold handle_proof. destruct (sent_messages o !! h) as [x|] eqn:Hx; [|done].
  split; [by apply adjust_params_wf|]. simpl. split.
  - rewrite map_size_delete, Hx. simpl. lia.
  - by apply map_Forall_delete.
Qed.

Lemma handle_timeout_wf link up h o o' effects :
  handle_timeout link up h o = Some (o', effects) -> outbound_wf o -> outbound_wf o'.
Proof.
  intros Hrun Hwf. pose proof Hwf as (Hp & Hsize & Ht). unfold handle_timeout in Hrun.
  destruct (sent_messages o !! h) as [x|] eqn:Hx; [|by injection Hrun as <- _].
  destruct (Z.leb_spec (max_tries (params o)) (tries x)) as [|Hlt]; [by injection Hrun as <- _|].
  destruct (outlet_resend _ _ _). unfold schedule_timeout in Hrun.
  destruct (packet_timeout_time _ _ _); [|done]. injection Hrun as <- _.
  assert (max_tries (params o) = 5) as Hm by apply Hp.
  pose proof (map_Forall_lookup_1 _ _ _ _ Ht Hx) as Hxt. cbn beta in Hxt.
  split; [by apply shrink_window_wf|]. simpl. split.
  - by rewrite map_size_insert_Some by (by rewrite Hx).
  - apply map_Forall_insert_2; [simpl; lia|done].
Qed.

(** the send window. Whatever is sent and whichever proofs and timeouts come
    in, the window stays between 1 and the current maximum, that maximum at most
    48, no more than 48 messages are outstanding, and each has been transmitted
    between one and five times. *)
Theorem Channel_window (link : Link.t) (ops : list (@OutOp M)) (o : Outbound) (effects : list Effect) (ms : list M)
    (Hrun : run_ops (Outbound_new link) ops = Some (o, effects, ms)) :
  outbound_wf o.
Proof.
  assert (outbound_wf (Outbound_new link)) as Hwf.
  { split; [apply ChannelParams_new_wf|]. split; [done|]. apply map_Forall_empty. }
  revert Hwf Hrun. generalize (Outbound_new link). revert o effects ms.
  induction ops as [|op ops IH]; intros o effects ms o0 Hwf Hrun; [by injection Hrun as <- _ _|].
  cbn [run_ops] in Hrun. destruct (run_op o0 op) as [[[o1 e1] m1]|] eqn:E1; [|done]. cbn [mbind option_bind] in Hrun.
  destruct (run_ops o1 ops) as [[[o2 e2] m2]|] eqn:E2; [|done]. injection Hrun as <- _ _.
  eapply IH; [|exact E2]. destruct op as [l up iv m|l h|l up h|]; cbn [run_op] in E1.
  - destruct (send _ _ _ _ _) as [[[r ox] ex]|] eqn:Es; [|done]. injection E1 as <- _ _. by eapply send_wf.
  - destruct (handle_proof l h o0) as [ox ex] eqn:Eh. injection E1 as <- _ _.
    pose proof (handle_proof_wf l h o0 Hwf). by rewrite Eh in *.
  - destruct (handle_timeout _ _ _ _) as [[ox ex]|] eqn:Et; [|done]. injection E1 as <- _ _. by eapply handle_timeout_wf.
  - by injection E1 as <- _ _.
Qed.

(** *** Retries *)
Fixpoint timeouts (link : Link.t) (h : Hash) (n : nat) (o : Outbound) : option (Outbound * list Effect) :=
  match n with
  | O => Some (o, [])
  | S n' =>
      '(o1, e1) ← timeouts link h n' o;
      '(o2, e2) ← handle_timeout link true h o1;
      Some (o2, e1 ++ e2)
  end.

(** The timeouts of tracked messages are durations. *)
Definition timeouts_defined (rtt : Z) (ring : nat) : Prop :=
  Forall (fun t => is_Some (packet_timeout_time rtt ring t)) [1; 2; 3; 4; 5].

Lemma timeouts_spec link h p o n :
  Link.status link = Active -> timeouts_defined (Link.rtt link) (size (sent_messages o)) ->
  max_tries (params o) = 5 -> sent_messages o !! h = Some (mkSent p 1) -> (n <= 4)%nat ->
  exists o' effects, timeouts link h n o = Some (o', effects) /\ sends effects = replicate n p /\
    (CloseLink ∉ effects) /\ sent_messages o' !! h = Some (mkSent p (1 + Z.of_nat n)) /\
    size (sent_messages o') = size (sent_messages o) /\ max_tries (params o') = 5.
Proof.
  intros Hact Htime Hmax Hh. induction n as [|n IH]; intros Hn.
  { exists o, []. repeat split; try done. apply not_elem_of_nil. }
  destruct IH as (o1 & e1 & E1 & Hs & Hc & Hh1 & Hsize & Hmax1); [lia|].
  cbn [timeouts]. rewrite E1. cbn [mbind option_bind]. unfold handle_timeout. rewrite Hh1, Hmax1. cbn [tries sent_packet].
  destruct (Z.leb_spec 5 (1 + Z.of_nat n)); [lia|].
  unfold outlet_resend. rewrite Hact, bool_decide_eq_true_2 by done. cbn [andb].
  unfold schedule_timeout. cbn [with_sent sent_messages tries with_params].
  rewrite map_size_insert_Some by (by rewrite Hh1). rewrite Hsize.
  destruct (packet_timeout_time (Link.rtt link) (size (sent_messages o)) (1 + Z.of_nat n + 1)) as [t|] eqn:Et.
  - eexists _, _. split; [done|]. split.
    { rewrite sends_app, Hs. change (sends _) with (replicate 1 p) at 1. by rewrite <- replicate_add, Nat.add_1_r. }
    split; [apply not_elem_of_app; split; [done|]; by intros [?|[?|?%not_elem_of_nil]%elem_of_cons]%elem_of_cons|]. simpl.
    rewrite lookup_insert_eq. split; [do 2 f_equal; lia|]. rewrite map_size_insert_Some by (by rewrite Hh1).
    split; [done|]. unfold shrink_window. by repeat case_match.
  - assert (1 + Z.of_nat n + 1 ∈ [1; 2; 3; 4; 5]) as Hin.
    { rewrite !elem_of_cons. lia. }
    eapply list.Forall_forall in Htime; [|exact Hin]. rewrite Et in Htime. by destruct Htime.
Qed.

(** C31: a message without a proof is transmitted five times in all. Each of the
    first four timeouts sends the same packet again and counts the try; the fifth
    sends nothing and asks the transport to close the link.  A proof that comes
    before marks the message as delivered and stops this. *)
Theorem Channel_retries (link : Link.t) (h : Hash) (p : Packet) (o : Outbound) (n : nat)
    (Hact : Link.status link = Active) (Htime : timeouts_defined (Link.rtt link) (size (sent_messages o)))
    (Hmax : max_tries (params o) = 5) (Hh : sent_messages o !! h = Some (mkSent p 1)) (Hn : (n <= 4)%nat) :
  exists o' effects,
    timeouts link h n o = Some (o', effects) /\ sends effects = replicate n p /\ (CloseLink ∉ effects) /\
    get_status h o' = Sent (1 + Z.of_nat n) /\
    (n = 4%nat -> handle_timeout link true h o' = Some (o', [CloseLink])) /\
    let o'' := (handle_proof link h o').1 in
    get_status h o'' = Delivered /\ handle_timeout link true h o'' = Some (o'', []).
Proof.
  destruct (timeouts_spec link h p o n Hact Htime Hmax Hh Hn) as (o' & effects & E & Hs & Hc & Hh' & _ & Hm).
  exists o', effects. split; [done|]. split; [done|]. split; [done|]. split; [|split].
  - unfold get_status. rewrite Hh'. cbn [tries]. by destruct (Z.eqb_spec (1 + Z.of_nat n) 0); [lia|].
  - intros ->. unfold handle_timeout. by rewrite Hh', Hm.
  - unfold handle_proof. rewrite Hh'. cbn [fst]. unfold get_status, handle_timeout. cbn [sent_messages delivered].
    rewrite lookup_delete_eq. split; [|done]. rewrite decide_True by set_solver. done.
Qed.

End OutboundTheorems.

(** a repetition from far back is taken for a message to come. A message
    whose number is more than 48 behind the next one expected is not dropped but
    stored; when the numbers have wrapped around and the one before it is
    received, the old message is passed on again, in the place of the message
    that now has its number. *)
Theorem Channel_stale_duplicate {M} `{Message M} (types : gset Z) (old m : M) (k : Z) (s later : Inbound M)
    (Hreg : registry s = types) (Hreg' : registry later = types)
    (Hold : readable types old) (Hm : readable types m) (Hk : 1 <= k)
    (Hfar : k + WINDOW_MAX < sequence s) (Hseq : sequence s < 65536) (Hnone : on_hold s !! sequence s = None)
    (Hlater : sequence later = k - 1)
    (Hkept : on_hold later !! k = on_hold (receive (message_raw old (Some k)) s).1 !! k) :
  (receive (message_raw old (Some k)) s).2 = [] /\
  exists s' out, receive (message_raw m (Some (k - 1))) later = (s', expected types m :: expected types old :: out).
Proof.
  pose proof (stale_is_held types old k s Hreg Hold ltac:(lia) Hfar Hseq Hnone) as E. rewrite E in *.
  split; [done|]. cbn [fst set_hold on_hold] in Hkept. rewrite lookup_insert_eq in Hkept.
  unfold WINDOW_MAX, WINDOW_MAX_FAST in Hfar.
  apply held_is_delivered; [done|done|lia|done|]. by replace (k - 1 + 1) with k by lia.
Qed.

(** ** Witnesses *)
#[local] Existing Instance toy_sha256.
#[local] Existing Instance toy_hkdf.
#[local] Existing Instance toy_x25519.
#[local] Existing Instance toy_cbc.
#[local] Existing Instance toy_hmac.
#[local] Existing Instance toy_signing.
#[local] Existing Instance toy_verifying.
#[local] Existing Instance toy_ed25519.
#[local] Existing Instance toy_keys.
#[local] Existing Instance msgpack_rmp.
#[local] Existing Instance toy_rmp_decode.

(** Messages of one type that are their own encoding. *)
#[local] Instance raw_message : Message bytes := {
  unpack := fun data ty => if ty =? 1 then Ok data else Err ChannelError;
  pack := fun m => m;
  message_type := fun _ => 1;
}.

Definition sample_ops : list (@OutOp bytes) :=
  [OpSend sample_a true (replicate 16 0) [1; 2]; OpSend sample_a true (replicate 16 1) [3];
   OpSend sample_a true (replicate 16 2) [4]].

Definition sample_run : option (Outbound * list Effect * list bytes) := run_ops (Outbound_new sample_a) sample_ops.

Definition sample_outbound : Outbound := default (Outbound_new sample_a) ((fun r => r.1.1) <$> sample_run).
Definition sample_effects : list Effect := default [] ((fun r => r.1.2) <$> sample_run).

(** The window of two admits two of the three messages; they arrive in reverse. *)
Definition sample_arrivals : list (Z * Packet) := (fun p => (5, p)) <$> reverse (sends sample_effects).

Lemma Channel_delivery_witness :
  length sample_arrivals = 2%nat /\
  exists b' s' n (ks : list nat),
    channel_rx_all true sample_arrivals sample_b (Inbound_new ∅) = (b', s', expected ∅ <$> take n [[1; 2]; [3]]) /\
    (forall i, (i < n)%nat -> i ∈ ks).
Proof.
  split; [vm_compute; reflexivity|].
  assert (run_ops (Outbound_new sample_a) sample_ops = Some (sample_outbound, sample_effects, [[1; 2]; [3]])) as Hrun
    by (vm_compute; reflexivity).
  destruct (Channel_delivery sample_a sample_b sample_a sample_ops sample_outbound sample_effects [[1; 2]; [3]] ∅ true
    sample_arrivals sample_paired) as (b' & s' & n & ks & E & _ & _ & Hpre & _).
  - repeat (apply Forall_cons_2; [split; [split; reflexivity|]; split; [reflexivity|]; split; [split; [vm_compute; congruence|reflexivity]|];
      apply (bool_decide_unpack _); vm_compute; exact I|]). apply Forall_nil_2.
  - exact Hrun.
  - reflexivity.
  - repeat (apply Forall_cons_2; [split; [split; [vm_compute; congruence|reflexivity]|];
      split; [reflexivity|intros _; reflexivity]|]). apply Forall_nil_2.
  - unfold sample_arrivals. apply Forall_fmap, list.Forall_forall. intros p Hp. by apply elem_of_reverse in Hp.
  - exists b', s', n, ks. split; [exact E|exact Hpre].
Defined.

Lemma Channel_window_witness :
  size (sent_messages sample_outbound) = 2%nat /\ outbound_wf sample_outbound.
Proof.
  split; [vm_compute; reflexivity|].
  apply (Channel_window sample_a sample_ops sample_outbound sample_effects [[1; 2]; [3]]). vm_compute. reflexivity.
Defined.

Lemma Channel_retries_witness :
  exists h p o' effects,
    timeouts sample_a h 4 sample_outbound = Some (o', effects) /\ sends effects = replicate 4 p /\
    handle_timeout sample_a true h o' = Some (o', [CloseLink]).
Proof.
  set (p := nth 0 (sends sample_effects) (keep_alive_packet sample_a 0)). set (h := Packet_hash p).
  destruct (Channel_retries sample_a h p sample_outbound 4) as (o' & effects & E & Hs & _ & _ & Hlast & _).
  - reflexivity.
  - repeat (apply Forall_cons_2; [vm_compute; by eexists|]). apply Forall_nil_2.
  - vm_compute. reflexivity.
  - vm_compute. reflexivity.
  - lia.
  - exists h, p, o', effects. split; [exact E|]. split; [exact Hs|]. exact (Hlast eq_refl).
Defined.

Lemma Channel_stale_duplicate_witness :
  let s := mkInbound (M := bytes) ∅ ∅ 100 in
  let later := mkInbound (on_hold (receive (message_raw [7] (Some 10)) s).1) ∅ 9 in
  exists s' out, receive (message_raw [8] (Some 9)) later = (s', Primary [8] :: Primary [7] :: out).
Proof.
  intros s later.
  destruct (Channel_stale_duplicate ∅ [7] [8] 10 s later) as [_ (s' & out & E)].
  1, 2: reflexivity.
  1, 2: split; [split; [vm_compute; congruence|reflexivity]|]; split; [reflexivity|intros _; reflexivity].
  1: lia.
  1: vm_compute; reflexivity.
  1: vm_compute; reflexivity.
  1: reflexivity.
  1: reflexivity.
  1: reflexivity.
  exists s', out. exact E.
Defined.
