(* ===== verification/PathRequests.v ===== *)
(** * Path requests ([src/src/transport/path_requests.rs])

    Encoding and decoding of path requests, the bounded memory of request
    tags, the gate for automated requests and the batching of discovery
    requests.  The transport's name (used in log lines) is dropped; the address
    of the control destination is a field.  Tags drawn at random are an
    argument.  Each operation reads the clock once, as [now]. *)

From S2P Require Import Prelude Float Hash Packet Buffer.

Definition PATH_REQUEST_TIMEOUT : Z := 15 * NANOS.
Definition PATH_REQUEST_GATE_TIMEOUT : Z := 45 * NANOS.
Definition PATH_REQUEST_MI : Z := 20 * NANOS.
Definition MAX_REMEMBERED_TAGS : nat := 4096.

Record PathRequest := mkPathRequest {
  pr_destination : AddressHash;
  requesting_transport : option AddressHash;
  tag_bytes : bytes;
}.

Record PendingDiscovery := mkPendingDiscovery {
  deadline : Z;
  wait : Z;
  ifaces : list AddressHash;
}.

Record PathRequests := mkPathRequests {
  pr_cache : gset (AddressHash * bytes);
  transport_id : option AddressHash;
  controlled_destination : AddressHash;
  discovery : gmap AddressHash PendingDiscovery;
  pending : gmap AddressHash Z;
  last_request : gmap AddressHash Z;
  min_request_interval : Z;
}.

Definition PathRequests_new (transport_id : option AddressHash) (control : AddressHash) : PathRequests :=
  mkPathRequests ∅ transport_id control ∅ ∅ ∅ PATH_REQUEST_MI.

Definition with_cache (s : PathRequests) (c : gset (AddressHash * bytes)) : PathRequests :=
  mkPathRequests c (transport_id s) (controlled_destination s) (discovery s) (pending s)
    (last_request s) (min_request_interval s).
Definition with_discovery (s : PathRequests) (m : gmap AddressHash PendingDiscovery) : PathRequests :=
  mkPathRequests (pr_cache s) (transport_id s) (controlled_destination s) m (pending s)
    (last_request s) (min_request_interval s).
Definition with_requests (s : PathRequests) (p l : gmap AddressHash Z) : PathRequests :=
  mkPathRequests (pr_cache s) (transport_id s) (controlled_destination s) (discovery s) p l
    (min_request_interval s).

(** Removing the first element of a [BTreeSet]. *)
Definition remove_first (c : gset (AddressHash * bytes)) : gset (AddressHash * bytes) :=
  match merge_sort bytes2_le (elements c) with
  | [] => c
  | oldest :: _ => c ∖ {[oldest]}
  end.

(** The loop [while cache.len() >= MAX_REMEMBERED_TAGS]: it removes one element
    per round. *)
Definition evict_tags (c : gset (AddressHash * bytes)) : gset (AddressHash * bytes) :=
  Nat.iter (S (size c) - MAX_REMEMBERED_TAGS) remove_first c.

Section Requests.
Context `{Sha256}.

Definition PathRequest_decode (dat : bytes) : option PathRequest :=
  if (length dat <=? ADDRESS_HASH_SIZE)%nat then None else
  let dest := take ADDRESS_HASH_SIZE dat in
  let has_transport := (ADDRESS_HASH_SIZE * 2 <? length dat)%nat in
  let requesting :=
    if has_transport
    then Some (AddressHash_new_from_slice (slice ADDRESS_HASH_SIZE (2 * ADDRESS_HASH_SIZE) dat))
    else None in
  let tag_start := if has_transport then (ADDRESS_HASH_SIZE * 2)%nat else ADDRESS_HASH_SIZE in
  let tag_end := if (ADDRESS_HASH_SIZE <? length dat - tag_start)%nat
                 then (tag_start + ADDRESS_HASH_SIZE)%nat else length dat in
  Some (mkPathRequest dest requesting (slice tag_start tag_end dat)).

Definition PathRequests_decode (s : PathRequests) (dat : bytes) : PathRequests * option PathRequest :=
  match PathRequest_decode dat with
  | None => (s, None)
  | Some request =>
      let c := evict_tags (pr_cache s) in
      let key := (pr_destination request, tag_bytes request) in
      if decide (key ∈ c) then (with_cache s c, None)
      else (with_cache s ({[key]} ∪ c), Some request)
  end.

End Requests.

Definition PathRequests_generate (s : PathRequests) (now : Z) (dest tag : bytes) : PathRequests * Packet :=
  let s1 := with_requests s (<[dest := now]> (pending s)) (<[dest := now]> (last_request s)) in
  let buf := PacketDataBuffer_new_from_slice dest in
  let buf := match transport_id s with
             | Some tid => snd (StaticBuffer.safe_write tid buf)
             | None => buf
             end in
  let buf := snd (StaticBuffer.safe_write tag buf) in
  (s1, mkPacket (mkHeader Open false Type1 Broadcast Plain Data 0) None (controlled_destination s)
         (transport_id s) CtxNone buf).

Definition has_pending (s : PathRequests) (now : Z) (dest : AddressHash) : PathRequests * bool :=
  match pending s !! dest with
  | Some at_ =>
      if now - at_ <? PATH_REQUEST_TIMEOUT then (s, true)
      else (with_requests s (delete dest (pending s)) (last_request s), false)
  | None => (s, false)
  end.

Definition discovery_pending (s : PathRequests) (now : Z) (dest : AddressHash) : bool :=
  match discovery s !! dest with
  | Some e => now <? deadline e
  | None => false
  end.

Definition discovery_wait (medium_path_timeout : Z) : Z := Z.max PATH_REQUEST_TIMEOUT medium_path_timeout.

Definition lengthen_discovery_wait (e : PendingDiscovery) (medium_path_timeout : Z) : PendingDiscovery :=
  let w := discovery_wait medium_path_timeout in
  if wait e <? w then mkPendingDiscovery (deadline e + (w - wait e)) w (ifaces e) else e.

Definition register_discovery_with_timeout (s : PathRequests) (now : Z) (dest : AddressHash)
    (requesting_iface : option AddressHash) (medium_path_timeout : Z) : PathRequests * bool :=
  match requesting_iface with
  | None => (s, false)
  | Some iface =>
      let w := discovery_wait medium_path_timeout in
      let fresh := (with_discovery s (<[dest := mkPendingDiscovery (now + w) w [iface]]> (discovery s)), true) in
      match discovery s !! dest with
      | Some e =>
          if now <? deadline e then
            let e1 := if decide (iface ∈ ifaces e) then e
                      else mkPendingDiscovery (deadline e) (wait e) (ifaces e ++ [iface]) in
            (with_discovery s (<[dest := lengthen_discovery_wait e1 medium_path_timeout]> (discovery s)), false)
          else fresh
      | None => fresh
      end
  end.

Definition clear_discovery (s : PathRequests) (dest : AddressHash) : PathRequests * option (list AddressHash) :=
  (with_discovery s (delete dest (discovery s)), ifaces <$> discovery s !! dest).

Definition request_allowed (s : PathRequests) (now : Z) (dest : AddressHash) : PathRequests * bool :=
  let l := filter (fun e : AddressHash * Z => now - e.2 < PATH_REQUEST_GATE_TIMEOUT) (last_request s) in
  (with_requests s (pending s) l,
   match l !! dest with
   | Some at_ => min_request_interval s <=? now - at_
   | None => true
   end).

(** ** Request encoding *)

Lemma generate_payload s now dest tag :
  (length dest + length (default [] (transport_id s)) + length tag <= PACKET_MDU)%nat ->
  payload (snd (PathRequests_generate s now dest tag)) = dest ++ default [] (transport_id s) ++ tag.
Proof.
  intros Hl. unfold PathRequests_generate, payload. cbn [snd data].
  assert (buffer_holds dest (PacketDataBuffer_new_from_slice dest)) as H1
    by (apply (buffer_holds_append [] _ dest buffer_holds_new); simpl; lia).
  destruct (transport_id s) as [tid|]; cbn [default from_option id length] in Hl.
  - rewrite app_assoc. apply buffer_holds_append; [apply buffer_holds_append; [done|lia]|].
    rewrite length_app. cbn [default from_option id]. lia.
  - cbn [default from_option id app]. apply buffer_holds_append; [done|lia].
Qed.

Section RequestLemmas.
Context `{Sha256}.

(** a path request that is generated is decoded to the destination and the
    tag it was made for. The requesting transport, however, is not the id that
    was sent but its hash. *)
Theorem PathRequest_roundtrip (s : PathRequests) (now : Z) (dest tag : bytes)
    (Hd : is_address dest) (Htag : (1 <= length tag <= ADDRESS_HASH_SIZE)%nat)
    (Htid : forall tid, transport_id s = Some tid -> is_address tid) :
  PathRequest_decode (payload (snd (PathRequests_generate s now dest tag))) =
    Some (mkPathRequest dest (AddressHash_new_from_slice <$> transport_id s) tag).
Proof.
  destruct Hd as [Hd _]. unfold ADDRESS_HASH_SIZE in *.
  rewrite generate_payload.
  2:{ destruct (transport_id s) as [tid|]; simpl; [destruct (Htid tid eq_refl) as [Ht _]; unfold ADDRESS_HASH_SIZE in Ht|];
      unfold PACKET_MDU; lia. }
  unfold PathRequest_decode, ADDRESS_HASH_SIZE. destruct (transport_id s) as [tid|]; cbn [default from_option id fmap option_fmap option_map].
  - destruct (Htid tid eq_refl) as [Ht _]. unfold ADDRESS_HASH_SIZE in Ht.
    rewrite !length_app, Hd, Ht. destruct (Nat.leb_spec (16 + (16 + length tag)) 16); [lia|].
    destruct (Nat.ltb_spec (16 * 2) (16 + (16 + length tag))); [|lia].
    destruct (Nat.ltb_spec 16 (16 + (16 + length tag) - 16 * 2)); [lia|].
    do 2 f_equal; [by rewrite take_app_length'|f_equal; f_equal|].
    + unfold slice. rewrite drop_app_length' by done. by rewrite take_app_length'.
    + unfold slice. rewrite app_assoc, drop_app_length' by (rewrite length_app; lia). apply take_ge. lia.
  - rewrite app_nil_l, !length_app, Hd. destruct (Nat.leb_spec (16 + length tag) 16); [lia|].
    destruct (Nat.ltb_spec (16 * 2) (16 + length tag)); [lia|].
    destruct (Nat.ltb_spec 16 (16 + length tag - 16)); [lia|].
    do 2 f_equal; [by rewrite take_app_length'|].
    unfold slice. rewrite drop_app_length' by done. apply take_ge. lia.
Qed.

(** ** Remembered tags *)

Lemma max_tags_pos : (0 < MAX_REMEMBERED_TAGS)%nat.
Proof. apply Nat.ltb_lt. reflexivity. Qed.

Lemma remove_first_size c : (0 < size c)%nat -> size (remove_first c) = (size c - 1)%nat.
Proof.
  intros Hs. unfold remove_first. destruct (merge_sort bytes2_le (elements c)) as [|x l] eqn:E.
  - pose proof (merge_sort_Permutation bytes2_le (elements c)) as Hp. rewrite E in Hp.
    apply Permutation_nil_l in Hp. symmetry in Hp. apply elements_empty_inv in Hp. apply leibniz_equiv in Hp. subst c.
    by rewrite size_empty in Hs.
  - rewrite size_difference; [by rewrite size_singleton|]. apply singleton_subseteq_l, elem_of_elements.
    rewrite <- (merge_sort_Permutation bytes2_le), E. apply list_elem_of_here.
Qed.

Lemma evict_tags_size c :
  (size (evict_tags c) = Nat.min (size c) (MAX_REMEMBERED_TAGS - 1))%nat.
Proof.
  unfold evict_tags. pose proof max_tags_pos as Hpos.
  generalize dependent MAX_REMEMBERED_TAGS. intros M Hpos.
  assert (forall n, (n <= size c)%nat -> size (Nat.iter n remove_first c) = (size c - n)%nat) as Hi.
  { induction n as [|n IH]; intros Hn; [simpl; lia|]. 
    change (Nat.iter (S n) remove_first c) with (remove_first (Nat.iter n remove_first c)).
    rewrite remove_first_size; rewrite IH; lia. }
  rewrite Hi; lia.
Qed.

Lemma evict_tags_below c : (size c < MAX_REMEMBERED_TAGS)%nat -> evict_tags c = c.
Proof. intros Hs. unfold evict_tags. by replace (S (size c) - MAX_REMEMBERED_TAGS)%nat with 0%nat by lia. Qed.

Lemma decode_cache_bound s dat :
  (size (pr_cache s) <= MAX_REMEMBERED_TAGS)%nat ->
  (size (pr_cache (fst (PathRequests_decode s dat))) <= MAX_REMEMBERED_TAGS)%nat.
Proof.
  intros Hs. unfold PathRequests_decode. destruct (PathRequest_decode dat) as [r|]; [|done].
  pose proof (evict_tags_size (pr_cache s)) as He.
  pose proof max_tags_pos as Hpos.
  destruct (decide _); cbn [fst pr_cache with_cache]; [lia|].
  rewrite size_union by (by apply disjoint_singleton_l). rewrite size_singleton. lia.
Qed.

Lemma evict_tags_full c key rest :
  size c = MAX_REMEMBERED_TAGS -> merge_sort bytes2_le (elements c) = key :: rest ->
  evict_tags c = c ∖ {[key]}.
Proof.
  intros Hs Hm. unfold evict_tags. replace (S (size c) - MAX_REMEMBERED_TAGS)%nat with 1%nat by lia.
  change (Nat.iter 1 remove_first c) with (remove_first c). unfold remove_first. by rewrite Hm.
Qed.

(** duplicate suppression of path requests. At most [MAX_REMEMBERED_TAGS]
    tags are remembered. A request that was accepted is rejected when it comes
    again, as long as the memory is not full; when it is full, the entry that
    sorts first is forgotten before the check, so a repeated request with that
    key is accepted as new. *)
Theorem PathRequests_duplicates (s s1 : PathRequests) (dat : bytes) (r : PathRequest)
    (Hs : (size (pr_cache s) <= MAX_REMEMBERED_TAGS)%nat) (Hr : PathRequest_decode dat = Some r) :
  (size (pr_cache (fst (PathRequests_decode s dat))) <= MAX_REMEMBERED_TAGS)%nat /\
  (PathRequests_decode s dat = (s1, Some r) -> (size (pr_cache s1) < MAX_REMEMBERED_TAGS)%nat ->
     PathRequests_decode s1 dat = (s1, None)) /\
  (forall rest, size (pr_cache s) = MAX_REMEMBERED_TAGS ->
     merge_sort bytes2_le (elements (pr_cache s)) = (pr_destination r, tag_bytes r) :: rest ->
     snd (PathRequests_decode s dat) = Some r).
Proof.
  split; [by apply decode_cache_bound|]. unfold PathRequests_decode. rewrite Hr. split.
  - destruct (decide _) as [Hin|Hout]; [done|]. intros [= <-] Hlt. cbn [pr_cache with_cache] in *.
    rewrite evict_tags_below by done.
    rewrite decide_True; [done|]. apply elem_of_union_l, elem_of_singleton_2. done.
  - intros rest Hfull Hm. rewrite (evict_tags_full _ _ _ Hfull Hm). rewrite decide_False; [done|].
    intros [_ Hn]%elem_of_difference. by apply Hn, elem_of_singleton_2.
Qed.

End RequestLemmas.

(** ** The request gate *)
Inductive RequestOp :=
| RqDecode (dat : bytes)
| RqGenerate (now : Z) (dest tag : bytes)
| RqHasPending (now : Z) (dest : AddressHash)
| RqRegister (now : Z) (dest : AddressHash) (iface : option AddressHash) (medium_path_timeout : Z)
| RqClear (dest : AddressHash)
| RqAllowed (now : Z) (dest : AddressHash).

Definition rq_op `{Sha256} (s : PathRequests) (op : RequestOp) : PathRequests :=
  match op with
  | RqDecode dat => fst (PathRequests_decode s dat)
  | RqGenerate now d tag => fst (PathRequests_generate s now d tag)
  | RqHasPending now d => fst (has_pending s now d)
  | RqRegister now d i m => fst (register_discovery_with_timeout s now d i m)
  | RqClear d => fst (clear_discovery s d)
  | RqAllowed now d => fst (request_allowed s now d)
  end.

(** Not a request for [d], and not later than [t]. *)
Definition gate_op (d : AddressHash) (t : Z) (op : RequestOp) : Prop :=
  match op with
  | RqGenerate _ d' _ => d' <> d
  | RqAllowed now _ => now <= t
  | _ => True
  end.

(** The last request for [d] was at [t0], or it is forgotten because it is old
    at [t]. *)
Definition gate_inv (d : AddressHash) (t0 t : Z) (s : PathRequests) : Prop :=
  min_request_interval s = PATH_REQUEST_MI /\
  (last_request s !! d = Some t0 \/ last_request s !! d = None /\ t0 + PATH_REQUEST_GATE_TIMEOUT <= t).

Section Gate.
Context `{Sha256}.

Lemma gate_inv_op d t0 t op s : gate_op d t op -> gate_inv d t0 t s -> gate_inv d t0 t (rq_op s op).
Proof.
  intros Hop [Hmi Hl]. destruct op as [dat|now d' tag|now d'|now d' i m|d'|now d']; simpl in *.
  - unfold PathRequests_decode. destruct (PathRequest_decode dat); [|done]. by destruct (decide _).
  - split; [done|]. cbn [last_request with_requests]. by rewrite lookup_insert_ne.
  - unfold has_pending. destruct (pending s !! d'); [|done]. by destruct (_ <? _).
  - unfold register_discovery_with_timeout. destruct i as [i|]; [|done].
    destruct (discovery s !! d') as [e|]; [|done]. by destruct (now <? deadline e).
  - done.
  - split; [done|]. unfold request_allowed. cbn [fst last_request with_requests].
    destruct Hl as [Hl|[Hl Ht]].
    + destruct (decide (now - t0 < PATH_REQUEST_GATE_TIMEOUT)) as [Hk|Hk].
      * left. apply map_lookup_filter_Some. by split.
      * right. split; [|lia]. apply map_lookup_filter_None. right. intros x Hx. rewrite Hl in Hx.
        injection Hx as <-. done.
    + right. split; [|done]. apply map_lookup_filter_None. by left.
Qed.

(** automated path requests are spaced. After a request for a destination
    at [t0], through any operations other than another request for it, an
    automated request at [t] is allowed exactly when [PATH_REQUEST_MI] has
    passed since [t0]. *)
Theorem PathRequests_gate (s : PathRequests) (ops : list RequestOp) (d : AddressHash) (tag : bytes) (t0 t : Z)
    (Hmi : min_request_interval s = PATH_REQUEST_MI) (Hops : Forall (gate_op d t) ops) :
  snd (request_allowed (foldl rq_op (fst (PathRequests_generate s t0 d tag)) ops) t d)
    = (PATH_REQUEST_MI <=? t - t0).
Proof.
  assert (gate_inv d t0 t (fst (PathRequests_generate s t0 d tag))) as Hi.
  { split; [done|]. left. cbn. by rewrite lookup_insert_eq. }
  generalize dependent (fst (PathRequests_generate s t0 d tag)). clear s Hmi.
  induction Hops as [|op ops Hop _ IH]; intros s Hi; cbn [foldl]; [|by apply IH, gate_inv_op].
  destruct Hi as [Hmi Hl]. unfold request_allowed. cbn [snd]. destruct Hl as [Hl|[Hl Ht]].
  - destruct (decide (t - t0 < PATH_REQUEST_GATE_TIMEOUT)) as [Hk|Hk].
    + replace (filter _ (last_request s) !! d) with (Some t0); [by rewrite Hmi|].
      symmetry. apply map_lookup_filter_Some. by split.
    + replace (filter _ (last_request s) !! d) with (@None Z).
      * symmetry. apply Z.leb_le. unfold PATH_REQUEST_GATE_TIMEOUT, PATH_REQUEST_MI, NANOS in *. lia.
      * symmetry. apply map_lookup_filter_None. right. intros x Hx. rewrite Hl in Hx. by injection Hx as <-.
  - replace (filter _ (last_request s) !! d) with (@None Z).
    + symmetry. apply Z.leb_le. unfold PATH_REQUEST_GATE_TIMEOUT, PATH_REQUEST_MI, NANOS in *. lia.
    + symmetry. apply map_lookup_filter_None. by left.
Qed.

End Gate.

(** ** Discovery batching *)

(** Registrations for [d]: time, interface, medium timeout. *)
Fixpoint register_all (s : PathRequests) (d : AddressHash) (regs : list (Z * AddressHash * Z))
    : PathRequests * list bool :=
  match regs with
  | [] => (s, [])
  | (now, iface, mto) :: rest =>
      let '(s1, r) := register_discovery_with_timeout s now d (Some iface) mto in
      let '(s2, rs) := register_all s1 d rest in
      (s2, r :: rs)
  end.

(** Interfaces in the order of their first registration. *)
Definition batch (acc : list AddressHash) (regs : list (Z * AddressHash * Z)) : list AddressHash :=
  foldl (fun acc r => if decide (r.1.2 ∈ acc) then acc else acc ++ [r.1.2]) acc regs.

Lemma lengthen_deadline e mto :
  deadline e <= deadline (lengthen_discovery_wait e mto) /\
  ifaces (lengthen_discovery_wait e mto) = ifaces e.
Proof.
  unfold lengthen_discovery_wait. destruct (Z.ltb_spec (wait e) (discovery_wait mto)); (split; [cbn [deadline]; lia|done]).
Qed.

Lemma register_all_pending s d e regs :
  discovery s !! d = Some e -> Forall (fun r => r.1.1 < deadline e) regs ->
  let '(s', answers) := register_all s d regs in
  answers = replicate (length regs) false /\
  exists e', discovery s' !! d = Some e' /\ deadline e <= deadline e' /\ ifaces e' = batch (ifaces e) regs.
Proof.
  intros He Hregs. revert s e He Hregs. induction regs as [|[[now iface] mto] regs IH]; intros s e He Hregs.
  { cbn. split; [done|]. exists e. by split; [|split]. }
  inversion_clear Hregs as [|? ? Hn Hrest]. cbn [fst snd] in Hn.
  cbn [register_all]. unfold register_discovery_with_timeout. rewrite He.
  rewrite (proj2 (Z.ltb_lt _ _) Hn).
  set (e1 := if decide (iface ∈ ifaces e) then e else _).
  assert (deadline e1 = deadline e /\ ifaces e1 = if decide (iface ∈ ifaces e) then ifaces e else ifaces e ++ [iface])
    as [Hd1 Hi1] by (unfold e1; by destruct (decide _)).
  destruct (lengthen_deadline e1 mto) as [Hl Hi]. set (e2 := lengthen_discovery_wait e1 mto) in *.
  specialize (IH (with_discovery s (<[d := e2]> (discovery s))) e2).
  destruct (register_all _ d regs) as [s' answers]. destruct IH as [-> (e' & He' & Hle & Hif)].
  { cbn. by rewrite lookup_insert_eq. }
  { eapply Forall_impl; [|exact Hrest]. intros r Hr. cbn beta in Hr. lia. }
  split; [done|]. exists e'. split; [done|]. split; [lia|].
  rewrite Hif, Hi, Hi1. unfold batch. cbn [foldl fst snd]. done.
Qed.

(** discovery requests are batched. The first registration for a
    destination starts a discovery; further registrations before its deadline
    start none and do not shorten it; when the announce arrives,
    [clear_discovery] returns every requesting interface once, in the order of
    first request, and the discovery is gone. *)
Theorem PathRequests_discovery_batched (s : PathRequests) (d iface : AddressHash) (t0 mto : Z)
    (regs : list (Z * AddressHash * Z))
    (Hnew : discovery s !! d = None)
    (Hregs : Forall (fun r => r.1.1 < t0 + discovery_wait mto) regs) :
  let '(s', answers) := register_all s d ((t0, iface, mto) :: regs) in
  answers = true :: replicate (length regs) false /\
  (forall now, now < t0 + discovery_wait mto -> discovery_pending s' now d = true) /\
  snd (clear_discovery s' d) = Some (batch [iface] regs) /\
  (forall now, discovery_pending (fst (clear_discovery s' d)) now d = false).
Proof.
  cbn [register_all]. unfold register_discovery_with_timeout. rewrite Hnew.
  set (e := mkPendingDiscovery (t0 + discovery_wait mto) (discovery_wait mto) [iface]).
  pose proof (register_all_pending (with_discovery s (<[d := e]> (discovery s))) d e regs) as Hall.
  destruct (register_all _ d regs) as [s' answers].
  destruct Hall as [-> (e' & He' & Hle & Hif)]; [cbn; by rewrite lookup_insert_eq|done|].
  split; [done|]. split; [|split].
  - intros now Hn. unfold discovery_pending. rewrite He'. apply Z.ltb_lt. cbn in Hle. lia.
  - cbn. rewrite He'. cbn. by rewrite Hif.
  - intros now. unfold discovery_pending. cbn. by rewrite lookup_delete_eq.
Qed.

(** ** Witnesses *)
#[local] Existing Instance toy_sha256.

Lemma PathRequest_roundtrip_witness :
  PathRequest_decode (payload (snd (PathRequests_generate
      (PathRequests_new (Some (replicate 16 3)) (replicate 16 4)) 0 (replicate 16 5) [1; 2]))) =
    Some (mkPathRequest (replicate 16 5) (Some (AddressHash_new_from_slice (replicate 16 3))) [1; 2]).
Proof.
  refine (PathRequest_roundtrip (PathRequests_new (Some (replicate 16 3)) (replicate 16 4)) 0
            (replicate 16 5) [1; 2] _ _ _).
  - split; [reflexivity|]. apply Forall_replicate. apply is_u8_bound. lia.
  - unfold ADDRESS_HASH_SIZE. simpl. lia.
  - intros tid Ht. cbn [transport_id PathRequests_new] in Ht.
    assert (tid = replicate 16 3) as -> by congruence. split; [reflexivity|]. apply Forall_replicate. apply is_u8_bound. lia.
Defined.

Lemma PathRequests_duplicates_witness :
  exists s1, PathRequests_decode (PathRequests_new None []) (replicate 17 3) =
      (s1, Some (mkPathRequest (replicate 16 3) None [3])) /\
    PathRequests_decode s1 (replicate 17 3) = (s1, None).
Proof.
  eexists. split; [reflexivity|].
  refine (proj1 (proj2 (PathRequests_duplicates (PathRequests_new None []) _ (replicate 17 3)
            (mkPathRequest (replicate 16 3) None [3]) _ _)) _ _).
  - apply Nat.leb_le. reflexivity.
  - reflexivity.
  - reflexivity.
  - apply Nat.ltb_lt. vm_compute. reflexivity.
Defined.

Lemma PathRequests_gate_witness :
  snd (request_allowed (foldl rq_op (fst (PathRequests_generate (PathRequests_new None []) 0 [7] [1]))
         [RqAllowed 10 [7]; RqHasPending 16000000000 [7]]) 19000000000 [7]) = false.
Proof.
  refine (PathRequests_gate (PathRequests_new None []) [RqAllowed 10 [7]; RqHasPending 16000000000 [7]]
            [7] [1] 0 19000000000 _ _).
  - reflexivity.
  - apply Forall_cons; [cbn; lia|]. apply Forall_cons; [exact I|]. apply Forall_nil.
Defined.

Lemma PathRequests_discovery_batched_witness :
  snd (clear_discovery (fst (register_all (PathRequests_new None []) [7]
         [(0, [1], 0); (5, [2], 0); (6, [1], 0)])) [7]) = Some [[1]; [2]].
Proof.
  refine (proj1 (proj2 (proj2 (PathRequests_discovery_batched (PathRequests_new None []) [7] [1] 0 0
            [(5, [2], 0); (6, [1], 0)] _ _)))).
  - reflexivity.
  - apply Forall_cons; [reflexivity|]. apply Forall_cons; [reflexivity|]. apply Forall_nil.
Defined.
