(* ===== verification/Tunnels.v ===== *)
(** * Tunnels ([src/src/transport/tunnels.rs])

    The tunnel table, which keeps the paths learned over an interface so they
    can be restored when the interface comes back, and the signed packet that
    establishes a tunnel.  Instants are nanoseconds.  A private identity is its
    X25519 public key and its Ed25519 seed. *)

From S2P Require Import Prelude Float Crypto Hash Packet Buffer.

Definition TUNNEL_TIMEOUT : Z := 60 * 60 * 8 * NANOS.
Definition TUNNEL_SYNTHESIZE_LENGTH : nat := 64 + 32 + 16 + 64.

Record TunnelPath := mkTunnelPath {
  tp_received_from : AddressHash;
  tp_hops : Z;
  tp_expires : Z;
  tp_packet_hash : Hash;
}.

Record TunnelEntry := mkTunnelEntry {
  te_iface : option AddressHash;
  te_paths : gmap AddressHash TunnelPath;
  te_expires : Z;
}.

Inductive TunnelHandling :=
| Established
| Restored (candidates : list (AddressHash * TunnelPath)).

Abbreviation Tunnels := (gmap (list Z) TunnelEntry) (only parsing).

Definition Tunnels_new : Tunnels := ∅.
Definition Tunnels_get (t : Tunnels) (id : AddressHash) : option TunnelEntry := t !! id.
Definition Tunnels_contains (t : Tunnels) (id : AddressHash) : bool := bool_decide (is_Some (t !! id)).

Definition tunnel_for_iface (t : Tunnels) (iface : AddressHash) : option AddressHash :=
  fst <$> head (filter (fun e : AddressHash * TunnelEntry => te_iface e.2 = Some iface) (btree_iter bytes_le t)).

Definition handle_tunnel (t : Tunnels) (id iface : AddressHash) (now : Z) : Tunnels * TunnelHandling :=
  let expires := now + TUNNEL_TIMEOUT in
  match t !! id with
  | None => (<[id := mkTunnelEntry (Some iface) ∅ expires]> t, Established)
  | Some e =>
      (<[id := mkTunnelEntry (Some iface) (te_paths e) expires]> t,
       Restored (btree_iter bytes_le (te_paths e)))
  end.

Definition finish_restore (t : Tunnels) (id : AddressHash) (declined : list AddressHash) : Tunnels :=
  match t !! id with
  | Some e => <[id := mkTunnelEntry (te_iface e) (foldl (fun m d => delete d m) (te_paths e) declined)
                        (te_expires e)]> t
  | None => t
  end.

Definition associate_path (t : Tunnels) (id dest : AddressHash) (path : TunnelPath) (now : Z)
    : Tunnels * bool :=
  match t !! id with
  | Some e => (<[id := mkTunnelEntry (te_iface e) (<[dest := path]> (te_paths e)) (now + TUNNEL_TIMEOUT)]> t, true)
  | None => (t, false)
  end.

Definition Tunnels_void (t : Tunnels) (id : AddressHash) : Tunnels * bool :=
  match t !! id with
  | Some e => (<[id := mkTunnelEntry None (te_paths e) (te_expires e)]> t, true)
  | None => (t, false)
  end.

Definition Tunnels_clean (t : Tunnels) (now : Z) : Tunnels * nat :=
  let t' := filter (fun e : AddressHash * TunnelEntry => now < te_expires e.2) t in
  (t', (size t - size t')%nat).

Definition Tunnels_clear (t : Tunnels) : Tunnels := ∅.
Definition Tunnels_insert (t : Tunnels) (id : AddressHash) (e : TunnelEntry) : Tunnels := <[id := e]> t.
Definition Tunnels_drop_iface (t : Tunnels) (iface : AddressHash) : Tunnels :=
  filter (fun e : AddressHash * TunnelEntry => te_iface e.2 <> Some iface) t.

(** ** Tunnel synthesis *)
Record TunnelSynthesis := mkTunnelSynthesis {
  tunnel_id : AddressHash;
  iface_hash : Hash;
}.

Section Synthesis.
Context `{Sha256} `{Hs : Signing} `{Hv : Verifying} `{He : !Ed25519}.

Definition decode_tunnel_synthesize (dat : bytes) : option TunnelSynthesis :=
  if negb (length dat =? TUNNEL_SYNTHESIZE_LENGTH)%nat then None else
  let public_key_bytes := take 64 dat in
  let iface_hash_bytes := slice 64 96 dat in
  let signature := slice 112 176 dat in
  let signed_data := take 112 dat in
  if negb (verify_signature (drop 32 public_key_bytes) signed_data signature) then None else
  Some (mkTunnelSynthesis
          (AddressHash_new_from_hash (Hash_new_from_slice (public_key_bytes ++ iface_hash_bytes)))
          iface_hash_bytes).

(** [seed] is what the random generator filled in. *)
Definition synthesize_tunnel_packet (x25519_public sign_seed : bytes) (iface dest : AddressHash)
    (transport_id : option AddressHash) (seed : bytes) : Packet :=
  let public_key := x25519_public ++ ed25519_public sign_seed in
  let ifh := Hash_new_from_slice iface in
  let random_truncated := take 16 (Hash_new_from_rand seed) in
  let signed_data := public_key ++ ifh ++ random_truncated in
  let signature := sign sign_seed signed_data in
  let buf := snd (StaticBuffer.safe_write signed_data PacketDataBuffer_new) in
  let buf := snd (StaticBuffer.safe_write signature buf) in
  mkPacket (mkHeader Open false Type1 Broadcast Plain Data 0) None dest transport_id CtxNone buf.

Lemma Hash_new_from_slice_length d : length (Hash_new_from_slice d) = 32%nat.
Proof.
  unfold Hash_new_from_slice, create_hash, HASH_SIZE. rewrite length_take, sha256_length. cbn.
  by rewrite length_take, sha256_length.
Qed.

(** a synthesized tunnel packet is accepted, and the tunnel id depends
    only on the sender's public keys and the interface: whatever random bytes
    are drawn, the receiver decodes the same id, so a tunnel that comes back is
    recognised. *)
Theorem Tunnel_synthesis_roundtrip (x25519_public sign_seed seed : bytes) (iface dest : AddressHash)
    (transport_id : option AddressHash) (Hx : length x25519_public = 32%nat) :
  decode_tunnel_synthesize
    (payload (synthesize_tunnel_packet x25519_public sign_seed iface dest transport_id seed)) =
  Some (mkTunnelSynthesis
          (AddressHash_new_from_hash
             (Hash_new_from_slice (x25519_public ++ ed25519_public sign_seed ++ Hash_new_from_slice iface)))
          (Hash_new_from_slice iface)).
Proof.
  unfold synthesize_tunnel_packet, payload. cbn [data].
  set (pub := x25519_public ++ ed25519_public sign_seed).
  set (ifh := Hash_new_from_slice iface). set (rnd := take 16 (Hash_new_from_rand seed)).
  assert (length pub = 64%nat) as Hpub by (unfold pub; rewrite length_app, Hx, ed25519_public_length; done).
  assert (length ifh = 32%nat) as Hifh by apply Hash_new_from_slice_length.
  assert (length rnd = 16%nat) as Hrnd
    by (unfold rnd, Hash_new_from_rand; rewrite length_take, Hash_new_from_slice_length; done).
  set (signed := pub ++ ifh ++ rnd).
  assert (length signed = 112%nat) as Hsigned by (unfold signed; rewrite !length_app; lia).
  pose proof (sign_length sign_seed signed) as Hsig.
  destruct (buffer_holds_append [] _ signed buffer_holds_new) as (Hw & Hc & Hsl);
    [rewrite Hsigned; unfold PACKET_MDU; simpl; lia|].
  destruct (buffer_holds_append signed (snd (StaticBuffer.safe_write signed PacketDataBuffer_new))
              (sign sign_seed signed)) as (_ & _ & ->);
    [done|rewrite Hsigned, Hsig; unfold PACKET_MDU; lia|].
  unfold decode_tunnel_synthesize. rewrite length_app, Hsigned, Hsig.
  change (negb (112 + 64 =? TUNNEL_SYNTHESIZE_LENGTH)%nat) with false. cbn match.
  rewrite (take_app_length' signed (sign sign_seed signed) 112) by done.
  assert (slice 112 176 (signed ++ sign sign_seed signed) = sign sign_seed signed) as ->.
  { unfold slice. rewrite drop_app_length' by done. apply take_ge. lia. }
  assert (take 64 (signed ++ sign sign_seed signed) = pub) as ->.
  { unfold signed. rewrite <- !app_assoc. by rewrite take_app_length'. }
  assert (slice 64 96 (signed ++ sign sign_seed signed) = ifh) as ->.
  { unfold slice, signed. rewrite <- !app_assoc, drop_app_length' by done. by rewrite take_app_length'. }
  replace (drop 32 pub) with (ed25519_public sign_seed) by (unfold pub; by rewrite drop_app_length').
  rewrite verify_sign. cbn [negb]. unfold pub. by rewrite <- app_assoc.
Qed.

End Synthesis.

(** ** Restoring paths *)
Inductive TunnelOp :=
| TnHandle (id iface : AddressHash) (now : Z)
| TnFinish (id : AddressHash) (declined : list AddressHash)
| TnAssociate (id dest : AddressHash) (path : TunnelPath) (now : Z)
| TnVoid (id : AddressHash)
| TnClean (now : Z)
| TnDropIface (iface : AddressHash).

Definition tn_op (t : Tunnels) (op : TunnelOp) : Tunnels :=
  match op with
  | TnHandle id iface now => fst (handle_tunnel t id iface now)
  | TnFinish id declined => finish_restore t id declined
  | TnAssociate id dest path now => fst (associate_path t id dest path now)
  | TnVoid id => fst (Tunnels_void t id)
  | TnClean now => fst (Tunnels_clean t now)
  | TnDropIface iface => Tunnels_drop_iface t iface
  end.

(** Operations that leave a path of tunnel [id] to [dest], learned at [t0],
    in place: no other path for it, no restore round that declines it, no
    clean-up after the tunnel has timed out, no removal of its interface. *)
Definition tunnel_kept (id dest : AddressHash) (t0 : Z) (op : TunnelOp) : Prop :=
  match op with
  | TnHandle _ _ now => t0 <= now
  | TnFinish id' declined => id' = id -> dest ∉ declined
  | TnAssociate id' dest' _ now => t0 <= now /\ (id' = id -> dest' <> dest)
  | TnVoid _ => True
  | TnClean now => now < t0 + TUNNEL_TIMEOUT
  | TnDropIface _ => False
  end.

Definition tunnel_has (id dest : AddressHash) (path : TunnelPath) (t0 : Z) (t : Tunnels) : Prop :=
  exists e, t !! id = Some e /\ te_paths e !! dest = Some path /\ t0 + TUNNEL_TIMEOUT <= te_expires e.

Lemma tunnel_has_op id dest path t0 op t :
  tunnel_kept id dest t0 op -> tunnel_has id dest path t0 t -> tunnel_has id dest path t0 (tn_op t op).
Proof.
  intros Hk (e & He & Hp & Hx).
  assert (forall id' e', (id' = id -> te_paths e' !! dest = Some path /\ t0 + TUNNEL_TIMEOUT <= te_expires e') ->
    tunnel_has id dest path t0 (<[id' := e']> t)) as Hins.
  { intros id' e' Hok. destruct (decide (id' = id)) as [->|Hne].
    - exists e'. rewrite lookup_insert_eq. by destruct (Hok eq_refl).
    - exists e. by rewrite lookup_insert_ne. }
  assert (tunnel_has id dest path t0 t) as Hsame by (by exists e).
  destruct op as [id' iface now|id' declined|id' dest' path' now|id'|now|iface]; cbn [tn_op tunnel_kept] in *.
  - unfold handle_tunnel. destruct (t !! id') as [e'|] eqn:E; cbn [fst]; apply Hins; intros ->; [|congruence].
    rewrite He in E. injection E as <-. cbn. split; [done|lia].
  - unfold finish_restore. destruct (t !! id') as [e'|] eqn:E; [|done]. apply Hins. intros ->.
    rewrite He in E. injection E as <-. cbn [te_paths te_expires]. rewrite foldl_delete_lookup.
    rewrite decide_False by auto. done.
  - unfold associate_path. destruct (t !! id') as [e'|] eqn:E; [|done]. cbn [fst]. apply Hins. intros ->.
    rewrite He in E. injection E as <-. cbn [te_paths te_expires]. destruct Hk as [Ht Hd].
    rewrite lookup_insert_ne by auto. split; [done|lia].
  - unfold Tunnels_void. destruct (t !! id') as [e'|] eqn:E; [|done]. cbn [fst]. apply Hins. intros ->.
    rewrite He in E. by injection E as <-.
  - exists e. split; [|done]. cbn [Tunnels_clean fst]. apply map_lookup_filter_Some. split; [done|]. simpl. lia.
  - done.
Qed.

(** paths survive the loss of a tunnel's interface. A path associated with
    a tunnel at [t0] is among the candidates returned when the tunnel comes
    back on any interface, through any operations in between (losing the
    interface included) that do not replace or decline it, as long as no
    clean-up runs [TUNNEL_TIMEOUT] or more after [t0]. *)
Theorem Tunnels_restore (t t1 : Tunnels) (id dest iface : AddressHash) (path : TunnelPath) (t0 now : Z)
    (ops : list TunnelOp)
    (Ha : associate_path t id dest path t0 = (t1, true))
    (Hops : Forall (tunnel_kept id dest t0) ops) :
  exists candidates, snd (handle_tunnel (foldl tn_op t1 ops) id iface now) = Restored candidates /\
    (dest, path) ∈ candidates.
Proof.
  assert (tunnel_has id dest path t0 t1) as Hh.
  { unfold associate_path in Ha. destruct (t !! id) as [e|]; [|done]. injection Ha as <-.
    eexists. rewrite lookup_insert_eq. split; [done|]. cbn. by rewrite lookup_insert_eq. }
  clear Ha. revert t1 Hh. induction Hops as [|op ops Hop _ IH]; intros t1 Hh; cbn [foldl].
  - destruct Hh as (e & He & Hp & _). unfold handle_tunnel. rewrite He. cbn [snd]. eexists.
    split; [done|]. by apply elem_of_btree_iter.
  - by apply IH, tunnel_has_op.
Qed.

(** ** Witnesses *)
#[local] Existing Instance toy_sha256.
#[local] Existing Instance toy_signing.
#[local] Existing Instance toy_verifying.
#[local] Existing Instance toy_ed25519.

Lemma Tunnel_synthesis_roundtrip_witness :
  exists s, decode_tunnel_synthesize
    (payload (synthesize_tunnel_packet (replicate 32 1) [2] [3] (replicate 16 4) None [5; 6])) = Some s.
Proof.
  eexists. exact (Tunnel_synthesis_roundtrip (replicate 32 1) [2] [5; 6] [3] (replicate 16 4) None eq_refl).
Defined.

Lemma Tunnels_restore_witness :
  exists t1 candidates,
    associate_path (fst (handle_tunnel Tunnels_new [1] [2] 0)) [1] [9] (mkTunnelPath [3] 2 0 []) 10 = (t1, true) /\
    snd (handle_tunnel (foldl tn_op t1 [TnVoid [1]; TnClean 50]) [1] [7] 60) = Restored candidates /\
    ([9], mkTunnelPath [3] 2 0 []) ∈ candidates.
Proof.
  eexists.
  destruct (Tunnels_restore (fst (handle_tunnel Tunnels_new [1] [2] 0)) _ [1] [9] [7]
    (mkTunnelPath [3] 2 0 []) 10 60 [TnVoid [1]; TnClean 50] eq_refl) as (candidates & Hr & Hin).
  - apply Forall_cons; [exact I|]. apply Forall_cons; [reflexivity|]. apply Forall_nil.
  - exists candidates. split; [reflexivity|]. split; [exact Hr|exact Hin].
Defined.
