(* ===== verification/RnodeModem.v ===== *)
(** * RNode modem core ([rnode-modem-core/src/{radio,protocol,modem}.rs])

    The device side of the RNode protocol: radio parameters and the airtime
    ledger ([radio.rs]), the command handler ([protocol.rs]) and the modem that
    shares one radio between several host links ([modem.rs]).  Frames are cut
    by [FrameParser] of [Kiss.v].  Floating-point values are [f32] of
    [Float.v]. *)

From S2P Require Import Prelude Float Framing Kiss.

(** ** Radio parameters and airtime ([radio.rs]) *)
Record RadioParams := mkRadioParams {
  frequency : Z;
  bandwidth : Z;
  txpower : Z;
  sf : Z;
  cr : Z;
  implicit : bool;
  radio_on : bool;
}.

Definition RadioParams_default : RadioParams :=
  mkRadioParams 867500000 125000 2 9 5 false false.

(** [hz & !0x1F] on 32 bits. *)
Definition quantize_frequency (hz : Z) : Z := Z.land hz (wrap 32 (Z.lnot 0x1F)).

Definition PHY_CRC_LORA_BITS : f32 := f32_of_Z 16.
Definition PHY_HEADER_LORA_SYMBOLS : f32 := f32_of_Z 20.

Definition clamp (v lo hi : Z) : Z := Z.max lo (Z.min v hi).

Definition airtime_ms (len : nat) (params : RadioParams) : f32 :=
  let sf := f32_of_Z (clamp (sf params) 7 12) in
  let bw_hz := f32_of_Z (Z.max (bandwidth params) 7800) in
  let symbol_ms :=
    f32_div (f32_mul (f32_of_Z (Z.shiftl 1 (f_cast 0 (2 ^ 32 - 1) sf))) (f32_of_Z 1000)) bw_hz in
  let bits :=
    f32_add (f32_add (f32_sub (f32_add (f32_mul (f32_of_Z 8) (f32_of_Z (Z.of_nat len))) PHY_CRC_LORA_BITS)
                        (f32_mul (f32_of_Z 4) sf)) (f32_of_Z 8)) PHY_HEADER_LORA_SYMBOLS in
  let symbols := f32_div bits (f32_mul (f32_of_Z 4) (f32_of_Z (clamp (cr params) 5 8))) in
  let symbols := f32_add symbols (f32_of_Z 8) in
  let symbols := f32_add symbols (f32_of_Z 8) in
  f32_mul symbols symbol_ms.

#[global] Arguments airtime_ms : simpl never.

Definition BINS : nat := 240.
Definition BIN_MS : Z := 15000.

(** Indexing [bins] panics out of range; the cursor never is
    ([tracker_wf] below). *)
Module AirtimeTracker.

Record t := mk {
  bins : list Z;
  bin_cursor : nat;
  elapsed_ms : Z;
}.

Definition default : t := mk (replicate BINS 0) 0 0.

Definition add (a : t) (len : nat) (params : RadioParams) : t :=
  let cost := airtime_ms len params in
  mk (alter (fun b => u32_add b (f_cast 0 (2 ^ 32 - 1) cost)) (bin_cursor a) (bins a))
     (bin_cursor a) (elapsed_ms a).

(** The loop that clears the bins the clock moved over.  Its fuel is the
    number of bins, which [roll_terminates] shows to be enough. *)
Fixpoint roll (fuel : nat) (target cursor : nat) (bins : list Z) : nat * list Z :=
  match fuel with
  | O => (cursor, bins)
  | S fuel' =>
      if (cursor =? target)%nat then (cursor, bins)
      else
        let cursor := ((cursor + 1) mod BINS)%nat in
        roll fuel' target cursor (<[cursor := 0]> bins)
  end.

Definition tick_ms (a : t) (ms : Z) : t :=
  let before := elapsed_ms a in
  let elapsed := wrap 64 (before + ms) in
  let target := Z.to_nat ((elapsed / BIN_MS) mod Z.of_nat BINS) in
  if elapsed / BIN_MS =? before / BIN_MS then mk (bins a) (bin_cursor a) elapsed
  else
    let '(cursor, bins) := roll BINS target (bin_cursor a) (bins a) in
    mk bins cursor elapsed.

Definition short_term (a : t) : f32 :=
  let prev := if (bin_cursor a =? 0)%nat then (BINS - 1)%nat else (bin_cursor a - 1)%nat in
  f32_div (f32_of_Z (u32_add (nth (bin_cursor a) (bins a) 0) (nth prev (bins a) 0))) (f32_of_Z 30000).

Definition long_term (a : t) : f32 :=
  f32_div (f32_of_Z (foldr Z.add 0 (bins a))) (f32_of_Z 3600000).

End AirtimeTracker.

Record ModemStats := mkModemStats {
  rssi : Z;
  snr : f32;
  battery : option Z;
  temperature : option Z;
}.

Definition ModemStats_default : ModemStats := mkModemStats 0 (f32_of_Z 0) None None.

Record AirtimeLocks := mkAirtimeLocks {
  lock_short_term : option f32;
  lock_long_term : option f32;
}.

Definition AirtimeLocks_default : AirtimeLocks := mkAirtimeLocks None None.

(** [airtime.short_term() >= st / 100.0] and the same for the long term. *)
Definition permits (locks : AirtimeLocks) (airtime : AirtimeTracker.t) : bool :=
  let over lock used :=
    match lock with
    | Some pct => f_le (f32_div pct (f32_of_Z 100)) used
    | None => false
    end in
  if over (lock_short_term locks) (AirtimeTracker.short_term airtime) then false
  else if over (lock_long_term locks) (AirtimeTracker.long_term airtime) then false
  else true.

(** ** Commands ([protocol.rs], [lib.rs]) *)
Module Cmd.

Definition CMD_DATA : Z := 0x00.
Definition CMD_FREQUENCY : Z := 0x01.
Definition CMD_BANDWIDTH : Z := 0x02.
Definition CMD_TXPOWER : Z := 0x03.
Definition CMD_SF : Z := 0x04.
Definition CMD_CR : Z := 0x05.
Definition CMD_RADIO_STATE : Z := 0x06.
Definition CMD_DETECT : Z := 0x08.
Definition CMD_LEAVE : Z := 0x0A.
Definition CMD_ST_ALOCK : Z := 0x0B.
Definition CMD_LT_ALOCK : Z := 0x0C.
Definition CMD_READY : Z := 0x0F.
Definition CMD_STAT_RX : Z := 0x21.
Definition CMD_STAT_TX : Z := 0x22.
Definition CMD_STAT_RSSI : Z := 0x23.
Definition CMD_STAT_SNR : Z := 0x24.
Definition CMD_STAT_CHTM : Z := 0x25.
Definition CMD_STAT_BAT : Z := 0x27.
Definition CMD_STAT_TEMP : Z := 0x29.
Definition CMD_PLATFORM : Z := 0x48.
Definition CMD_MCU : Z := 0x49.
Definition CMD_FW_VERSION : Z := 0x50.

End Cmd.

Definition DETECT_REQ : Z := 0x73.
Definition DETECT_RESP : Z := 0x46.
Definition RADIO_STATE_ON : Z := 0x01.
Definition RADIO_STATE_OFF : Z := 0x00.
Definition FW_VERSION_MAJ : Z := 1.
Definition FW_VERSION_MIN : Z := 90.
Definition PLATFORM_CUSTOM : Z := 0xF0.

Inductive RadioOp :=
| Configure (params : RadioParams)
| RadioOn
| RadioOff
| Transmit (data : bytes).

Record Handled := mkHandled {
  replies : list bytes;
  ops : list RadioOp;
}.

Definition Handled_empty : Handled := mkHandled [] [].

Record Protocol := mkProtocol {
  params : RadioParams;
  locks : AirtimeLocks;
  airtime : AirtimeTracker.t;
  stats : ModemStats;
  stat_rx : Z;
  stat_tx : Z;
  mcu : Z;
  flow_control : bool;
  platform : Z;
}.

Definition Protocol_new (mcu : Z) : Protocol :=
  mkProtocol RadioParams_default AirtimeLocks_default AirtimeTracker.default ModemStats_default
    0 0 mcu true PLATFORM_CUSTOM.

Definition set_params (p : Protocol) (r : RadioParams) : Protocol :=
  mkProtocol r (locks p) (airtime p) (stats p) (stat_rx p) (stat_tx p) (mcu p) (flow_control p) (platform p).
Definition set_locks (p : Protocol) (l : AirtimeLocks) : Protocol :=
  mkProtocol (params p) l (airtime p) (stats p) (stat_rx p) (stat_tx p) (mcu p) (flow_control p) (platform p).
Definition set_airtime (p : Protocol) (a : AirtimeTracker.t) : Protocol :=
  mkProtocol (params p) (locks p) a (stats p) (stat_rx p) (stat_tx p) (mcu p) (flow_control p) (platform p).
Definition set_counters (p : Protocol) (rx tx : Z) : Protocol :=
  mkProtocol (params p) (locks p) (airtime p) (stats p) rx tx (mcu p) (flow_control p) (platform p).

Definition with_frequency (r : RadioParams) (v : Z) : RadioParams :=
  mkRadioParams v (bandwidth r) (txpower r) (sf r) (cr r) (implicit r) (radio_on r).
Definition with_bandwidth (r : RadioParams) (v : Z) : RadioParams :=
  mkRadioParams (frequency r) v (txpower r) (sf r) (cr r) (implicit r) (radio_on r).
Definition with_txpower (r : RadioParams) (v : Z) : RadioParams :=
  mkRadioParams (frequency r) (bandwidth r) v (sf r) (cr r) (implicit r) (radio_on r).
Definition with_sf (r : RadioParams) (v : Z) : RadioParams :=
  mkRadioParams (frequency r) (bandwidth r) (txpower r) v (cr r) (implicit r) (radio_on r).
Definition with_cr (r : RadioParams) (v : Z) : RadioParams :=
  mkRadioParams (frequency r) (bandwidth r) (txpower r) (sf r) v (implicit r) (radio_on r).
Definition with_radio_on (r : RadioParams) (v : bool) : RadioParams :=
  mkRadioParams (frequency r) (bandwidth r) (txpower r) (sf r) (cr r) (implicit r) v.

(** Hundredths of a percent; 0 and 100 % or more mean no lock. *)
Definition decode_lock (cch : Z) : option f32 :=
  let pct := f32_div (f32_of_Z cch) (f32_of_Z 100) in
  if f_le (f32_of_Z 100) pct || (cch =? 0) then None else Some pct.

(** ** The command handler *)
Import Cmd.

Definition reply_only (p : Protocol) (frames : list bytes) : Protocol * Handled :=
  (p, mkHandled frames []).

Definition is_query (payload : bytes) : bool := forallb (fun b => b =? 0xFF) payload.

(** [CMD_FREQUENCY] and [CMD_BANDWIDTH]: four 0xFF bytes ask, other values set. *)
Definition handle_u32_param (p : Protocol) (command : Z) (payload : bytes) (current : Z)
    (store : Z -> Z) (update : RadioParams -> Z -> RadioParams) : Protocol * Handled :=
  if is_query payload then reply_only p [kiss_frame command (be_encode 4 current)]
  else
    let v := store (be_decode payload) in
    let p' := set_params p (update (params p) v) in
    (p', mkHandled [kiss_frame command (be_encode 4 v)] [Configure (params p')]).

(** [CMD_TXPOWER], [CMD_SF] and [CMD_CR]: 0xFF asks, other values set. *)
Definition handle_u8_param (p : Protocol) (command first : Z) (current : Z)
    (update : RadioParams -> Z -> RadioParams) : Protocol * Handled :=
  if first =? 0xFF then reply_only p [kiss_frame command [current]]
  else
    let p' := set_params p (update (params p) first) in
    (p', mkHandled [kiss_frame command [first]] [Configure (params p')]).

Definition handle_data (p : Protocol) (payload : bytes) : Protocol * Handled :=
  let ready := if flow_control p then [kiss_frame CMD_READY [0x01]] else [] in
  if negb (permits (locks p) (airtime p)) then reply_only p ready
  else (set_counters p (stat_rx p) (u32_add (stat_tx p) 1), mkHandled ready [Transmit payload]).

Definition handle_radio_state (p : Protocol) (first : Z) : Protocol * Handled :=
  if first =? 0xFF then
    reply_only p [kiss_frame CMD_RADIO_STATE
                    [if radio_on (params p) then RADIO_STATE_ON else RADIO_STATE_OFF]]
  else
    let on := first =? RADIO_STATE_ON in
    (set_params p (with_radio_on (params p) on),
     mkHandled [kiss_frame CMD_RADIO_STATE [first]] [if on then RadioOn else RadioOff]).

(** The commands that report, and [CMD_LEAVE]. *)
Definition handle_status (p : Protocol) (command : Z) : Protocol * Handled :=
  if command =? CMD_STAT_RSSI then
    reply_only p [kiss_frame CMD_STAT_RSSI (be_encode 2 (wrap 16 (rssi (stats p))))]
  else if command =? CMD_STAT_SNR then
    let raw := f_cast (-128) 127 (f32_mul (snr (stats p)) (f32_of_Z 4)) in
    reply_only p [kiss_frame CMD_STAT_SNR [wrap 8 raw]]
  else if command =? CMD_STAT_RX then reply_only p [kiss_frame CMD_STAT_RX (be_encode 4 (stat_rx p))]
  else if command =? CMD_STAT_TX then reply_only p [kiss_frame CMD_STAT_TX (be_encode 4 (stat_tx p))]
  else if command =? CMD_STAT_CHTM then
    let st := f_cast 0 65535 (f32_mul (AirtimeTracker.short_term (airtime p)) (f32_of_Z 10000)) in
    let lt := f_cast 0 65535 (f32_mul (AirtimeTracker.long_term (airtime p)) (f32_of_Z 10000)) in
    reply_only p [kiss_frame CMD_STAT_CHTM (be_encode 4 (Z.lor (Z.shiftl st 16) lt))]
  else if command =? CMD_STAT_BAT then
    reply_only p [kiss_frame CMD_STAT_BAT [default 0 (battery (stats p))]]
  else if command =? CMD_STAT_TEMP then
    reply_only p [kiss_frame CMD_STAT_TEMP [wrap 8 (default 0 (temperature (stats p)))]]
  else if command =? CMD_FW_VERSION then
    reply_only p [kiss_frame CMD_FW_VERSION [FW_VERSION_MAJ; FW_VERSION_MIN]]
  else if command =? CMD_PLATFORM then reply_only p [kiss_frame CMD_PLATFORM [platform p]]
  else if command =? CMD_MCU then reply_only p [kiss_frame CMD_MCU [mcu p]]
  else if command =? CMD_LEAVE then (p, mkHandled [kiss_frame CMD_LEAVE [0xFF]] [RadioOff])
  else (p, Handled_empty).

Definition handle (p : Protocol) (command : Z) (payload : bytes) : Protocol * Handled :=
  let first := nth 0 payload 0 in
  let nonempty := negb (length payload =? 0)%nat in
  if (command =? CMD_DETECT) && nonempty && (first =? DETECT_REQ) then
    reply_only p [kiss_frame CMD_DETECT [DETECT_RESP];
                  kiss_frame CMD_FW_VERSION [FW_VERSION_MAJ; FW_VERSION_MIN];
                  kiss_frame CMD_PLATFORM [platform p]; kiss_frame CMD_MCU [mcu p]]
  else if (command =? CMD_DATA) && nonempty then handle_data p payload
  else if (command =? CMD_RADIO_STATE) && nonempty then handle_radio_state p first
  else if (command =? CMD_FREQUENCY) && (length payload =? 4)%nat then
    handle_u32_param p CMD_FREQUENCY payload (frequency (params p)) quantize_frequency with_frequency
  else if (command =? CMD_BANDWIDTH) && (length payload =? 4)%nat then
    handle_u32_param p CMD_BANDWIDTH payload (bandwidth (params p)) id with_bandwidth
  else if (command =? CMD_TXPOWER) && nonempty then
    handle_u8_param p CMD_TXPOWER first (txpower (params p)) with_txpower
  else if (command =? CMD_SF) && nonempty then
    handle_u8_param p CMD_SF first (sf (params p)) with_sf
  else if (command =? CMD_CR) && nonempty then
    handle_u8_param p CMD_CR first (cr (params p)) with_cr
  else if (command =? CMD_ST_ALOCK) && (length payload =? 2)%nat then
    (set_locks p (mkAirtimeLocks (decode_lock (be_decode payload)) (lock_long_term (locks p))),
     mkHandled [kiss_frame CMD_ST_ALOCK payload] [])
  else if (command =? CMD_LT_ALOCK) && (length payload =? 2)%nat then
    (set_locks p (mkAirtimeLocks (lock_short_term (locks p)) (decode_lock (be_decode payload))),
     mkHandled [kiss_frame CMD_LT_ALOCK payload] [])
  else handle_status p command.

Definition data_frame (data : bytes) : bytes := kiss_frame CMD_DATA data.

Definition tx_complete (p : Protocol) (len : nat) : Protocol :=
  set_airtime p (AirtimeTracker.add (airtime p) len (params p)).

Definition rx_packet (p : Protocol) : Protocol :=
  set_counters p (u32_add (stat_rx p) 1) (stat_tx p).

Definition describes (p : Protocol) : Z * Z := (platform p, mcu p).

(** ** Several hosts, one radio ([modem.rs]) *)
Record Fed := mkFed {
  to_sender : list bytes;
  to_others : list bytes;
  fed_ops : list RadioOp;
}.

Record Modem := mkModem {
  protocol : Protocol;
  sessions : list (Z * FrameParser.t);
  next_session : Z;
  echo_self : bool;
}.

Definition Modem_new (p : Protocol) : Modem := mkModem p [] 1 false.
Definition with_echo_self (m : Modem) (echo : bool) : Modem :=
  mkModem (protocol m) (sessions m) (next_session m) echo.

Definition add_session (m : Modem) : Modem * Z :=
  (mkModem (protocol m) (sessions m ++ [(next_session m, FrameParser.new)])
     (wrap 64 (next_session m + 1)) (echo_self m), next_session m).

Definition session_ids (m : Modem) : list Z := (sessions m).*1.

Definition remove_session (m : Modem) (sid : Z) : Modem :=
  mkModem (protocol m) (filter (fun s => s.1 <> sid) (sessions m)) (next_session m) (echo_self m).

(** The callback of [feed] over the frames the parser completes. *)
Fixpoint handle_frames (p : Protocol) (frames : list (Z * bytes))
    : Protocol * list Handled * list bytes :=
  match frames with
  | [] => (p, [], [])
  | (command, payload) :: rest =>
      let '(p1, h) := handle p command payload in
      let '(p2, hs, forwarded) := handle_frames p1 rest in
      (p2, h :: hs,
       if (command =? CMD_DATA) && negb (length payload =? 0)%nat
       then kiss_frame CMD_DATA payload :: forwarded else forwarded)
  end.

(** The first session with the id: its parser, and the list with it replaced. *)
Fixpoint find_session (sid : Z) (l : list (Z * FrameParser.t)) : option FrameParser.t :=
  match l with
  | [] => None
  | (i, s) :: rest => if i =? sid then Some s else find_session sid rest
  end.

Fixpoint replace_session (sid : Z) (s' : FrameParser.t) (l : list (Z * FrameParser.t))
    : list (Z * FrameParser.t) :=
  match l with
  | [] => []
  | (i, s) :: rest => if i =? sid then (i, s') :: rest else (i, s) :: replace_session sid s' rest
  end.

Definition Modem_feed (m : Modem) (sid : Z) (data : bytes) : Modem * Fed :=
  let sessions1 := if existsb (fun s => s.1 =? sid) (sessions m) then sessions m
                   else sessions m ++ [(sid, FrameParser.new)] in
  match find_session sid sessions1 with
  | None => (mkModem (protocol m) sessions1 (next_session m) (echo_self m), mkFed [] [] [])
  | Some parser =>
      let '(parser', frames) := FrameParser.feed parser data in
      let '(p', handled, forwarded) := handle_frames (protocol m) frames in
      (mkModem p' (replace_session sid parser' sessions1) (next_session m) (echo_self m),
       mkFed ((handled ≫= replies) ++ (if echo_self m then forwarded else []))
         forwarded (handled ≫= ops))
  end.

Definition radio_rx (m : Modem) (data : bytes) : Modem * list bytes :=
  (mkModem (rx_packet (protocol m)) (sessions m) (next_session m) (echo_self m),
   replicate (length (sessions m)) (data_frame data)).

(** ** What the ledger means: costs by the absolute number of their bin *)
Inductive LedgerOp :=
| LedgerAdd (len : nat) (params : RadioParams)
| LedgerTick (ms : Z).

Definition ledger_op (a : AirtimeTracker.t) (op : LedgerOp) : AirtimeTracker.t :=
  match op with
  | LedgerAdd len params => AirtimeTracker.add a len params
  | LedgerTick ms => AirtimeTracker.tick_ms a ms
  end.

(** The clock and the transmissions with their times, as an unbounded log. *)
Definition log_op (s : Z * list (Z * Z)) (op : LedgerOp) : Z * list (Z * Z) :=
  match op with
  | LedgerAdd len params => (s.1, (s.1, f_cast 0 (2 ^ 32 - 1) (airtime_ms len params)) :: s.2)
  | LedgerTick ms => (s.1 + ms, s.2)
  end.

Definition ledger_log (ops : list LedgerOp) : Z * list (Z * Z) := foldl log_op (0, []) ops.

Definition bin_cost (log : list (Z * Z)) (k : Z) : Z :=
  foldr (fun e acc => if e.1 / BIN_MS =? k then e.2 + acc else acc) 0 log.

(** A tick that moves the clock over fewer bins than there are. *)
Definition short_tick (op : LedgerOp) : Prop :=
  match op with
  | LedgerAdd _ _ => True
  | LedgerTick ms => 0 <= ms <= (Z.of_nat BINS - 1) * BIN_MS
  end.

(** The number of the bin of the last hour with index [i], at bin [q]. *)
Definition abs_bin (q : Z) (i : nat) : Z := q - (q - Z.of_nat i) mod 240.

Definition tracker_wf (a : AirtimeTracker.t) : Prop :=
  length (AirtimeTracker.bins a) = BINS /\ (AirtimeTracker.bin_cursor a < BINS)%nat.

Definition ledger_rel (a : AirtimeTracker.t) (s : Z * list (Z * Z)) : Prop :=
  tracker_wf a /\ AirtimeTracker.elapsed_ms a = s.1 /\ 0 <= s.1 /\
  Z.of_nat (AirtimeTracker.bin_cursor a) = (s.1 / BIN_MS) mod 240 /\
  Forall (fun e => 0 <= e.1 <= s.1) s.2 /\
  forall i, (i < BINS)%nat ->
    AirtimeTracker.bins a !! i = Some (wrap 32 (bin_cost s.2 (abs_bin (s.1 / BIN_MS) i))).

(** ** Ledger lemmas *)

Lemma bin_cost_none log k : Forall (fun e => e.1 / BIN_MS <> k) log -> bin_cost log k = 0.
Proof.
  induction 1 as [|e log He _ IH]; [done|]. unfold bin_cost in *. simpl.
  by destruct (Z.eqb_spec (e.1 / BIN_MS) k).
Qed.

Lemma next_cursor (c : nat) :
  (c < BINS)%nat -> Z.of_nat ((c + 1) mod BINS) = (Z.of_nat c + 1) mod 240.
Proof. intros Hc. rewrite Nat2Z.inj_mod, Nat2Z.inj_add. done. Qed.

(** The loop ends at the target, having cleared exactly the bins on the way,
    with any fuel from the number of bins on. *)
Lemma roll_terminates fuel target cursor bins :
  (target < BINS)%nat -> (cursor < BINS)%nat -> length bins = BINS ->
  ((Z.of_nat target - Z.of_nat cursor) mod 240 <= Z.of_nat fuel) ->
  exists bins', AirtimeTracker.roll fuel target cursor bins = (target, bins') /\ length bins' = BINS /\
    forall i, (i < BINS)%nat ->
      bins' !! i = if decide (0 < (Z.of_nat i - Z.of_nat cursor) mod 240
                              <= (Z.of_nat target - Z.of_nat cursor) mod 240)
                   then Some 0 else bins !! i.
Proof.
  revert cursor bins. induction fuel as [|fuel IH]; intros cursor bins Ht Hc Hl Hf; cbn [AirtimeTracker.roll].
  - assert (cursor = target) as ->.
    { unfold BINS in *. Z.to_euclidean_division_equations; lia. }
    exists bins. split; [done|]. split; [done|]. intros i Hi. rewrite decide_False; [done|].
    rewrite Z.sub_diag. change (0 mod 240) with 0. lia.
  - destruct (Nat.eqb_spec cursor target) as [->|Hne].
    { exists bins. split; [done|]. split; [done|]. intros i Hi. rewrite decide_False; [done|].
      rewrite Z.sub_diag. change (0 mod 240) with 0. lia. }
    pose proof (next_cursor cursor Hc) as Hn.
    set (c' := ((cursor + 1) mod BINS)%nat) in *.
    assert (c' < BINS)%nat as Hc' by (unfold c'; apply Nat.mod_upper_bound; done).
    destruct (IH c' (<[c' := 0]> bins) Ht Hc') as (bins' & -> & Hl' & Hb).
    { by rewrite length_insert. }
    { rewrite Hn. unfold BINS in *. Z.to_euclidean_division_equations; lia. }
    exists bins'. split; [done|]. split; [done|]. intros i Hi. rewrite Hb by done. rewrite Hn.
    destruct (decide (i = c')) as [->|Hic].
    + rewrite list_lookup_insert_eq by lia. rewrite !Hn.
      destruct (decide _), (decide _); try done; exfalso; unfold BINS in *;
        Z.to_euclidean_division_equations; lia.
    + rewrite list_lookup_insert_ne by done.
      destruct (decide _), (decide _); try done; exfalso; unfold BINS in *;
        Z.to_euclidean_division_equations; lia.
Qed.

(** Residues modulo the number of bins, without division. *)
Lemma mod_240 x :
  -240 <= x < 480 -> x mod 240 = if decide (x < 0) then x + 240 else if decide (x < 240) then x else x - 240.
Proof.
  intros Hx. destruct (decide (x < 0)); [|destruct (decide (x < 240))].
  - rewrite <- (Z_mod_plus_full x 1 240), Z.mod_small; lia.
  - apply Z.mod_small. lia.
  - rewrite <- (Z_mod_plus_full x (-1) 240), Z.mod_small; lia.
Qed.

Lemma abs_bin_eq q k (c i : nat) :
  (i < BINS)%nat -> (c < BINS)%nat -> Z.of_nat c = q mod 240 -> 0 <= k < 240 ->
  abs_bin (q + k) i = q + k - (Z.of_nat c + k - Z.of_nat i) mod 240.
Proof.
  intros Hi Hc E Hk. unfold abs_bin. rewrite E.
  replace (q mod 240 + k - Z.of_nat i) with (q mod 240 + (k - Z.of_nat i)) by lia.
  rewrite Zplus_mod_idemp_l. f_equal. f_equal. lia.
Qed.

Lemma abs_bin_cursor q (c i : nat) :
  (i < BINS)%nat -> (c < BINS)%nat -> Z.of_nat c = q mod 240 -> (abs_bin q i = q <-> i = c).
Proof.
  intros Hi Hc E. rewrite <- (Z.add_0_r q) at 1. rewrite (abs_bin_eq q 0 c) by (done || lia).
  unfold BINS in *. rewrite mod_240 by lia. repeat case_decide; lia.
Qed.

Lemma ledger_add_rel a s len params :
  ledger_rel a s -> ledger_rel (ledger_op a (LedgerAdd len params)) (log_op s (LedgerAdd len params)).
Proof.
  intros ((Hl & Hc) & He & H0 & Hcur & Hlog & Hb). destruct s as [now log]. cbn [fst snd] in *.
  unfold ledger_rel. cbn [ledger_op log_op fst snd].
  split; [split; [cbn [AirtimeTracker.bins AirtimeTracker.add]; by rewrite length_alter|done]|].
  split; [done|]. split; [done|]. split; [done|]. split; [by constructor; [cbn [fst]; lia|]|].
  intros i Hi. cbn [AirtimeTracker.bins AirtimeTracker.add fst snd]. unfold bin_cost. cbn [foldr fst snd].
  fold (bin_cost log (abs_bin (now / BIN_MS) i)).
  destruct (decide (i = AirtimeTracker.bin_cursor a)) as [->|Hne].
  - rewrite list_lookup_alter_eq, Hb by done. cbn [fmap option_fmap option_map].
    rewrite (proj2 (abs_bin_cursor _ _ _ Hi Hc Hcur) eq_refl), Z.eqb_refl.
    unfold u32_add, wrap. by rewrite Zplus_mod_idemp_l, Z.add_comm.
  - rewrite list_lookup_alter_ne, Hb by done.
    destruct (Z.eqb_spec (now / BIN_MS) (abs_bin (now / BIN_MS) i)) as [E|]; [|done].
    destruct Hne. by apply (abs_bin_cursor _ _ _ Hi Hc Hcur).
Qed.

(** Moving the clock keeps the number of a bin or gives it a new one, which has
    no cost yet. *)
Lemma abs_bin_move q k c i :
  (i < BINS)%nat -> (c < BINS)%nat -> Z.of_nat c = q mod 240 -> 0 <= k < 240 ->
  if decide (0 < (Z.of_nat i - Z.of_nat c) mod 240 <= k)
  then q < abs_bin (q + k) i else abs_bin (q + k) i = abs_bin q i.
Proof.
  intros Hi Hc E Hk. rewrite (abs_bin_eq q k c) by (done || lia).
  pose proof (abs_bin_eq q 0 c i Hi Hc E) as E0. rewrite !Z.add_0_r in E0. rewrite E0 by lia. clear E0.
  unfold BINS in *. rewrite !mod_240 by lia. repeat case_decide; lia.
Qed.

Lemma ledger_tick_rel a s ms :
  ledger_rel a s -> short_tick (LedgerTick ms) -> s.1 + ms < 2 ^ 64 ->
  ledger_rel (ledger_op a (LedgerTick ms)) (log_op s (LedgerTick ms)).
Proof.
  intros ((Hl & Hc) & He & H0 & Hcur & Hlog & Hb) Hms Hmax. destruct s as [now log]. simpl in *.
  assert (Forall (fun e => 0 <= e.1 <= now + ms) log) as Hlog'.
  { eapply Forall_impl; [|exact Hlog]. simpl. lia. }
  unfold ledger_op, AirtimeTracker.tick_ms. rewrite He, (wrap_small 64) by (split; lia).
  destruct (Z.eqb_spec ((now + ms) / BIN_MS) (now / BIN_MS)) as [Eq|Ne].
  { unfold ledger_rel, tracker_wf. cbn [AirtimeTracker.bins AirtimeTracker.bin_cursor
      AirtimeTracker.elapsed_ms fst snd log_op]. rewrite Eq. repeat split; auto; lia. }
  set (q := now / BIN_MS) in *. set (q' := (now + ms) / BIN_MS) in *.
  assert (q < q' < q + 240) as Hq.
  { unfold q, q', BIN_MS, BINS in *. Z.to_euclidean_division_equations; lia. }
  assert (0 <= q' mod 240 < 240) as Hm by (apply Z.mod_pos_bound; lia).
  change (Z.of_nat BINS) with 240.
  destruct (roll_terminates BINS (Z.to_nat (q' mod 240)) (AirtimeTracker.bin_cursor a)
              (AirtimeTracker.bins a)) as (bins' & -> & Hl' & Hb'); [unfold BINS; lia|done..| |].
  { pose proof (Z.mod_pos_bound (Z.of_nat (Z.to_nat (q' mod 240)) -
      Z.of_nat (AirtimeTracker.bin_cursor a)) 240). unfold BINS. lia. }
  split; [split; [done|]; simpl; unfold BINS; lia|]. cbn [AirtimeTracker.bins AirtimeTracker.bin_cursor
    AirtimeTracker.elapsed_ms fst snd log_op]. fold q'.
  split; [done|]. split; [lia|]. split; [by rewrite Z2Nat.id by lia|]. split; [done|].
  intros i Hi. rewrite Hb' by done.
  replace ((Z.of_nat (Z.to_nat (q' mod 240)) - Z.of_nat (AirtimeTracker.bin_cursor a)) mod 240)
    with (q' - q) by (rewrite Z2Nat.id, Hcur, <- Zminus_mod, Z.mod_small; lia).
  pose proof (abs_bin_move q (q' - q) _ i Hi Hc Hcur) as Hmove.
  replace (q + (q' - q)) with q' in Hmove by lia. destruct (decide _).
  - rewrite bin_cost_none; [done|]. eapply Forall_impl; [|exact Hlog]. intros e [_ He']. simpl in He'.
    pose proof (Z.div_le_mono e.1 now BIN_MS ltac:(done) He'). fold q in H. specialize (Hmove ltac:(lia)). lia.
  - rewrite Hmove by lia. by apply Hb.
Qed.

Definition ledger_run (ops : list LedgerOp) : AirtimeTracker.t :=
  foldl ledger_op AirtimeTracker.default ops.

Lemma ledger_log_mono ops s : Forall short_tick ops -> s.1 <= (foldl log_op s ops).1.
Proof.
  intros Ho. revert s. induction Ho as [|op ops Hop Ho IH]; intros s; cbn [foldl]; [lia|].
  etrans; [|apply IH]. destruct op; simpl in *; lia.
Qed.

Lemma ledger_run_rel ops :
  Forall short_tick ops -> (ledger_log ops).1 < 2 ^ 64 ->
  ledger_rel (ledger_run ops) (ledger_log ops).
Proof.
  unfold ledger_run, ledger_log.
  assert (ledger_rel AirtimeTracker.default (0, [])) as H0.
  { split; [split; [done|]; unfold BINS; simpl; lia|]. repeat split; [done..|].
    intros i Hi. cbn [AirtimeTracker.bins AirtimeTracker.default]. by rewrite lookup_replicate_2. }
  revert H0. generalize AirtimeTracker.default (0, @nil (Z * Z)). intros a s H0 Ho Hmax.
  revert a s H0 Hmax. induction Ho as [|op ops Hop Ho IH]; intros a s H0 Hmax; cbn [foldl] in *; [done|].
  apply IH; [|done]. pose proof (ledger_log_mono ops (log_op s op) Ho).
  destruct op as [len params|ms]; [by apply ledger_add_rel|].
  apply ledger_tick_rel; [done..|]. simpl in *. lia.
Qed.

Lemma sum_Permutation (l k : list Z) : l ≡ₚ k -> foldr Z.add 0 l = foldr Z.add 0 k.
Proof. induction 1; simpl; lia. Qed.

(** The 240 bins hold the last 240 bin numbers, each once. *)
Lemma abs_bins_Permutation q : map (abs_bin q) (seq 0 BINS) ≡ₚ seqZ (q - 239) 240.
Proof.
  apply NoDup_Permutation; [|apply NoDup_seqZ|].
  - apply NoDup_fmap_2_strong; [|apply NoDup_seq]. intros i j Hi%elem_of_seq Hj%elem_of_seq Hij.
    unfold abs_bin, BINS in *. Z.to_euclidean_division_equations; lia.
  - intros k. rewrite elem_of_seqZ, list_elem_of_fmap. split.
    + intros (i & -> & Hi%elem_of_seq). unfold abs_bin.
      pose proof (Z.mod_pos_bound (q - Z.of_nat i) 240 ltac:(lia)). lia.
    + intros Hk. exists (Z.to_nat (k mod 240)). pose proof (Z.mod_pos_bound k 240 ltac:(lia)).
      split; [|apply elem_of_seq; unfold BINS; lia]. unfold abs_bin. rewrite Z2Nat.id by lia.
      rewrite Zminus_mod_idemp_r, Z.mod_small by lia. lia.
Qed.

Lemma ledger_bins a s :
  ledger_rel a s ->
  AirtimeTracker.bins a = map (fun i => wrap 32 (bin_cost s.2 (abs_bin (s.1 / BIN_MS) i))) (seq 0 BINS).
Proof.
  intros ((Hl & _) & _ & _ & _ & _ & Hb). apply list_eq. intros i.
  rewrite list_lookup_fmap. destruct (decide (i < BINS)%nat) as [Hi|Hi].
  - rewrite Hb by done. by rewrite lookup_seq_lt.
  - rewrite !lookup_ge_None_2; [done|rewrite length_seq; lia|lia].
Qed.

Lemma prev_bin q c :
  (c < BINS)%nat -> Z.of_nat c = q mod 240 ->
  let prev := if (c =? 0)%nat then (BINS - 1)%nat else (c - 1)%nat in
  (prev < BINS)%nat /\ abs_bin q prev = q - 1.
Proof.
  intros Hc E prev. assert (prev < BINS)%nat as Hp.
  { unfold prev, BINS in *. destruct (c =? 0)%nat; lia. }
  split; [done|]. pose proof (abs_bin_eq q 0 c prev Hp Hc E) as Ep. rewrite !Z.add_0_r in Ep.
  rewrite Ep by lia. unfold BINS in *. rewrite mod_240 by lia.
  unfold prev. destruct (Nat.eqb_spec c 0); repeat case_decide; lia.
Qed.

Lemma roll_here fuel c bins : AirtimeTracker.roll fuel c c bins = (c, bins).
Proof. destruct fuel; cbn [AirtimeTracker.roll]; [done|]. by rewrite Nat.eqb_refl. Qed.

(** the airtime ledger. As long as the clock is moved by less than an
    hour at a time, the short-term figure counts exactly the transmissions of
    the current and the previous 15-second bin, and the long-term figure
    exactly those of the last 240 bins (per-bin sums at 32 bits). When the
    clock is moved by exactly one hour, however, no bin is cleared. *)
Theorem AirtimeTracker_window (ops : list LedgerOp)
    (Hticks : Forall short_tick ops) (Htime : (ledger_log ops).1 < 2 ^ 64) :
  let q := (ledger_log ops).1 / BIN_MS in
  let used k := wrap 32 (bin_cost (ledger_log ops).2 k) in
  AirtimeTracker.short_term (ledger_run ops)
    = f32_div (f32_of_Z (u32_add (used q) (used (q - 1)))) (f32_of_Z 30000) /\
  AirtimeTracker.long_term (ledger_run ops)
    = f32_div (f32_of_Z (foldr Z.add 0 (map used (seqZ (q - 239) 240)))) (f32_of_Z 3600000) /\
  ((ledger_log ops).1 + 3600000 < 2 ^ 64 ->
     AirtimeTracker.bins (AirtimeTracker.tick_ms (ledger_run ops) 3600000)
       = AirtimeTracker.bins (ledger_run ops)).
Proof.
  intros q used. pose proof (ledger_run_rel ops Hticks Htime) as Hrel.
  pose proof (ledger_bins _ _ Hrel) as Hbins. destruct Hrel as ((Hl & Hc) & He & H0 & Hcur & Hlog & Hb).
  fold q in Hcur, Hb, Hbins. split; [|split].
  - unfold AirtimeTracker.short_term. cbv zeta.
    destruct (prev_bin q _ Hc Hcur) as [Hp Ep]. set (prev := if (_ =? _)%nat then _ else _) in *.
    rewrite (nth_lookup_Some _ _ _ _ (Hb _ Hc)), (nth_lookup_Some _ _ _ _ (Hb _ Hp)), Ep.
    by rewrite (proj2 (abs_bin_cursor _ _ _ Hc Hc Hcur) eq_refl).
  - unfold AirtimeTracker.long_term. do 2 f_equal. rewrite Hbins. unfold used.
    symmetry. erewrite sum_Permutation; [|apply (fmap_Permutation used); symmetry; apply abs_bins_Permutation].
    by rewrite map_map.
  - intros Hmax. unfold AirtimeTracker.tick_ms. rewrite He, (wrap_small 64) by (split; lia).
    replace ((ledger_log ops).1 + 3600000) with ((ledger_log ops).1 + 240 * BIN_MS) by done.
    rewrite Z.div_add by done. fold q. destruct (q + 240 =? q); [done|].
    change (Z.of_nat BINS) with 240. replace ((q + 240) mod 240) with (q mod 240).
    + by rewrite <- Hcur, Nat2Z.id, roll_here.
    + rewrite <- (Z_mod_plus_full q 1 240). f_equal.
Qed.

Lemma AirtimeTracker_window_witness :
  let ops := [LedgerAdd 50 RadioParams_default; LedgerTick 20000; LedgerAdd 50 RadioParams_default;
              LedgerTick 3000000] in
  AirtimeTracker.short_term (ledger_run ops) = f32_div (f32_of_Z 0) (f32_of_Z 30000) /\
  AirtimeTracker.long_term (ledger_run ops) = f32_div (f32_of_Z 298) (f32_of_Z 3600000).
Proof.
  intros ops.
  assert (Forall short_tick ops) as Ht.
  { repeat apply Forall_cons; try apply Forall_nil; unfold short_tick, BINS, BIN_MS; lia. }
  assert ((ledger_log ops).1 < 2 ^ 64) as Hm by (vm_compute; reflexivity).
  destruct (AirtimeTracker_window ops Ht Hm) as (E1 & E2 & _).
  split; [rewrite E1|rewrite E2]; vm_compute; reflexivity.
Defined.

(** ** The radio state the modem reports *)
Fixpoint handle_all (p : Protocol) (frames : list (Z * bytes)) : Protocol * list RadioOp :=
  match frames with
  | [] => (p, [])
  | (command, payload) :: rest =>
      let '(p1, h) := handle p command payload in
      let '(p2, os) := handle_all p1 rest in
      (p2, ops h ++ os)
  end.

(** On or off, as the driver was last told. *)
Definition driver_state (on : bool) (os : list RadioOp) : bool :=
  foldl (fun s op => match op with RadioOn => true | RadioOff => false | _ => s end) on os.

(** ** Interleaved hosts *)
Fixpoint modem_run (m : Modem) (feeds : list (Z * bytes)) : Modem * list Fed :=
  match feeds with
  | [] => (m, [])
  | (sid, data) :: rest =>
      let '(m1, fed) := Modem_feed m sid data in
      let '(m2, feds) := modem_run m1 rest in
      (m2, fed :: feds)
  end.

(** The bytes one host sends, out of an interleaving of chunks. *)
Definition host_stream (sid : Z) (feeds : list (Z * bytes)) : bytes :=
  concat (filter (fun f => f.1 = sid) feeds).*2.

Definition set_parser (ps : Z -> FrameParser.t) (sid : Z) (s : FrameParser.t) : Z -> FrameParser.t :=
  fun j => if j =? sid then s else ps j.

(** The frames completed, in order, each with the host it came from. *)
Fixpoint trace (ps : Z -> FrameParser.t) (feeds : list (Z * bytes)) : list (Z * (Z * bytes)) :=
  match feeds with
  | [] => []
  | (sid, data) :: rest =>
      let '(s', frames) := FrameParser.feed (ps sid) data in
      map (pair sid) frames ++ trace (set_parser ps sid s') rest
  end.

Definition parsers_of (m : Modem) (sid : Z) : FrameParser.t :=
  default FrameParser.new (find_session sid (sessions m)).

(** Data frames the modem copies to the other hosts. *)
Definition data_copies (frames : list (Z * bytes)) : list bytes :=
  omap (fun f => if (f.1 =? CMD_DATA) && negb (length f.2 =? 0)%nat
                 then Some (kiss_frame CMD_DATA f.2) else None) frames.

(** ** Handler lemmas *)

Lemma handle_all_app p f1 f2 :
  handle_all p (f1 ++ f2) =
    let '(p1, o1) := handle_all p f1 in let '(p2, o2) := handle_all p1 f2 in (p2, o1 ++ o2).
Proof.
  revert p. induction f1 as [|[c d] f1 IH]; intros p; simpl; [by destruct (handle_all p f2)|].
  destruct (handle p c d) as [p1 h]. rewrite IH. destruct (handle_all p1 f1) as [p2 o2].
  destruct (handle_all p2 f2) as [p3 o3]. by rewrite app_assoc.
Qed.

Lemma handle_frames_all p frames :
  exists hs, handle_frames p frames = (fst (handle_all p frames), hs, data_copies frames) /\
    hs ≫= ops = snd (handle_all p frames).
Proof.
  revert p. induction frames as [|[c d] frames IH]; intros p; [by exists []|].
  cbn [handle_frames handle_all]. destruct (handle p c d) as [p1 h]. destruct (IH p1) as (hs & -> & Eo).
  destruct (handle_all p1 frames) as [p2 os]. cbn [fst snd] in *. exists (h :: hs). split.
  - unfold data_copies. cbn [omap list_omap fst snd]. by destruct (_ && _).
  - rewrite <- Eo. done.
Qed.

(** ** Session lemmas *)

Lemma find_session_existsb sid l :
  existsb (fun s : Z * FrameParser.t => s.1 =? sid) l = bool_decide (is_Some (find_session sid l)).
Proof.
  induction l as [|[i s] l IH]; [done|]. simpl. destruct (i =? sid); simpl; [done|]. apply IH.
Qed.

Lemma find_session_app sid l k :
  find_session sid (l ++ k) = match find_session sid l with Some s => Some s | None => find_session sid k end.
Proof. induction l as [|[i s] l IH]; simpl; [done|]. by destruct (i =? sid). Qed.

Lemma find_replace_session sid s' l j :
  find_session j (replace_session sid s' l) =
    if j =? sid then (fun _ => s') <$> find_session sid l else find_session j l.
Proof.
  induction l as [|[i s] l IH]; simpl; [by destruct (j =? sid)|].
  destruct (Z.eqb_spec i sid) as [->|Hi]; simpl.
  - destruct (Z.eqb_spec sid j) as [<-|]; [by rewrite Z.eqb_refl|].
    by destruct (Z.eqb_spec j sid); [lia|].
  - rewrite IH. destruct (Z.eqb_spec i j) as [->|]; [|done]. by destruct (Z.eqb_spec j sid); [lia|].
Qed.

Lemma Modem_feed_spec m sid data :
  let '(s', frames) := FrameParser.feed (parsers_of m sid) data in
  let '(m', fed) := Modem_feed m sid data in
  protocol m' = fst (handle_all (protocol m) frames) /\
  fed_ops fed = snd (handle_all (protocol m) frames) /\
  to_others fed = data_copies frames /\
  (forall j, parsers_of m' j = set_parser (parsers_of m) sid s' j).
Proof.
  unfold Modem_feed. rewrite find_session_existsb. unfold parsers_of, set_parser.
  set (l := if bool_decide _ then _ else _).
  assert (find_session sid l = Some (default FrameParser.new (find_session sid (sessions m)))
          /\ forall j, j <> sid -> find_session j l = find_session j (sessions m)) as [El Hl].
  { unfold l. destruct (find_session sid (sessions m)) as [s|] eqn:E.
    - rewrite bool_decide_eq_true_2 by done. by rewrite E.
    - rewrite bool_decide_eq_false_2 by (by intros [? ?]). split.
      + rewrite find_session_app, E. simpl. by rewrite Z.eqb_refl.
      + intros j Hj. rewrite find_session_app. destruct (find_session j (sessions m)); [done|].
        simpl. by destruct (Z.eqb_spec sid j). }
  rewrite El. destruct (FrameParser.feed _ data) as [s' frames].
  destruct (handle_frames_all (protocol m) frames) as (hs & -> & Eo). simpl.
  split; [done|]. split; [done|]. split; [done|]. intros j. rewrite find_replace_session, El.
  destruct (Z.eqb_spec j sid); [done|]. by rewrite Hl.
Qed.

Lemma modem_run_trace m ps feeds :
  (forall j, parsers_of m j = ps j) ->
  let frames := (trace ps feeds).*2 in
  let '(m', feds) := modem_run m feeds in
  protocol m' = fst (handle_all (protocol m) frames) /\
  feds ≫= fed_ops = snd (handle_all (protocol m) frames) /\
  feds ≫= to_others = data_copies frames.
Proof.
  revert m ps. induction feeds as [|[sid data] feeds IH]; intros m ps Hps; [done|].
  cbn [modem_run trace]. pose proof (Modem_feed_spec m sid data) as Hf. rewrite Hps in Hf.
  destruct (FrameParser.feed (ps sid) data) as [s' frames], (Modem_feed m sid data) as [m1 fed].
  destruct Hf as (Hp & Ho & Ht & Hpar).
  assert (forall j, parsers_of m1 j = set_parser ps sid s' j) as Hpar'.
  { intros j. rewrite Hpar. unfold set_parser. by destruct (j =? sid). }
  specialize (IH m1 _ Hpar'). destruct (modem_run m1 feeds) as [m2 feds]. destruct IH as (Ep & Eo & Et).
  cbv zeta. rewrite fmap_app, <- list_fmap_compose.
  replace (snd ∘ pair sid <$> frames) with frames by (symmetry; apply list_fmap_id).
  rewrite handle_all_app, (surjective_pairing (handle_all (protocol m) frames)), <- Hp, <- Ho.
  rewrite (surjective_pairing (handle_all (protocol m1) _)), <- Ep, <- Eo.
  split; [done|]. split; [done|]. unfold data_copies in *. rewrite omap_app, <- Et, <- Ht. done.
Qed.

Lemma trace_host ps feeds sid :
  (filter (fun x => x.1 = sid) (trace ps feeds)).*2 =
    snd (FrameParser.feed (ps sid) (host_stream sid feeds)).
Proof.
  revert ps. induction feeds as [|[j data] feeds IH]; intros ps; [done|].
  unfold FrameParser.feed, host_stream in *. cbn [trace].
  destruct (FrameParser.feed (ps j) data) as [s' frames] eqn:E. unfold FrameParser.feed in E.
  rewrite list.filter_app, fmap_app, IH. rewrite filter_cons. cbn [fst]. destruct (decide (j = sid)) as [->|Hj].
  - cbn [fmap list_fmap concat snd]. unfold set_parser. rewrite Z.eqb_refl, feed_app, E.
    destruct (Framing.feed FrameParser.step s' _) as [s2 o2]. cbn [snd]. f_equal.
    clear. induction frames as [|f frames IHf]; [done|]. rewrite fmap_cons, filter_cons_True by done.
    rewrite fmap_cons. by f_equal.
  - unfold set_parser. destruct (Z.eqb_spec sid j); [lia|].
    replace (filter (fun x : Z * (Z * bytes) => x.1 = sid) (map (pair j) frames)) with (@nil (Z * (Z * bytes)));
      [done|]. clear -Hj. induction frames as [|f frames IHf]; [done|].
    cbn [map]. by rewrite filter_cons_False.
Qed.

(** C32: one radio for many hosts. When several hosts send command frames over
    their own links, then however their bytes are cut into chunks and
    interleaved, the modem executes every command of every host exactly once,
    each host's commands in the order that host sent them: its state and its
    radio operations are those of handling one merged sequence of commands,
    and the other hosts are sent exactly the data frames of it. *)
Theorem Modem_multiplex (p : Protocol) (feeds : list (Z * bytes)) (sent : Z -> list (Z * bytes))
    (Hsent : forall sid, host_stream sid feeds = concat (map (fun c => kiss_frame c.1 c.2) (sent sid)))
    (Hfits : forall sid, Forall (fun c => c.1 <> FEND /\ (length c.2 <= MAX_PAYLOAD)%nat) (sent sid)) :
  exists merged : list (Z * (Z * bytes)),
    (forall sid, (filter (fun x => x.1 = sid) merged).*2 = sent sid) /\
    let '(m', feds) := modem_run (Modem_new p) feeds in
    protocol m' = fst (handle_all p merged.*2) /\
    feds ≫= fed_ops = snd (handle_all p merged.*2) /\
    feds ≫= to_others = data_copies merged.*2.
Proof.
  exists (trace (fun _ => FrameParser.new) feeds). split.
  - intros sid. rewrite trace_host, Hsent. unfold FrameParser.feed.
    pose proof (framing_stream (F := Parser_framing) FrameParser.new (sent sid)
      [concat (map (fun c => kiss_frame c.1 c.2) (sent sid))]) as (s' & E & _).
    + done.
    + apply Hfits.
    + apply app_nil_r.
    + rewrite feed_chunks_concat in E. simpl in E. rewrite app_nil_r in E. rewrite E.
      cbn [snd]. apply map_id.
  - by apply modem_run_trace.
Qed.

Lemma Modem_multiplex_witness :
  exists merged : list (Z * (Z * bytes)),
    (filter (fun x => x.1 = 7) merged).*2 = [(CMD_DATA, [1; 0xC0])] /\
    concat (map fed_ops (snd (modem_run (Modem_new (Protocol_new 1))
      [(7, [0xC0; 0]); (8, [0xC0; 4]); (7, [1; 0xDB]); (8, [9; 0xC0]); (7, [0xDC; 0xC0])])))
      = snd (handle_all (Protocol_new 1) merged.*2).
Proof.
  set (sent sid := if sid =? 7 then [(CMD_DATA, [1; 0xC0])] else if sid =? 8 then [(CMD_SF, [9])] else []).
  destruct (Modem_multiplex (Protocol_new 1)
    [(7, [0xC0; 0]); (8, [0xC0; 4]); (7, [1; 0xDB]); (8, [9; 0xC0]); (7, [0xDC; 0xC0])] sent)
    as (merged & Hm & Hrun).
  - intros sid. unfold sent, host_stream. destruct (Z.eqb_spec sid 7) as [->|H7]; [reflexivity|].
    destruct (Z.eqb_spec sid 8) as [->|H8]; [reflexivity|].
    rewrite !filter_cons_False by (simpl; lia). reflexivity.
  - intros sid. unfold sent, MAX_PAYLOAD. destruct (sid =? 7); [|destruct (sid =? 8)];
      repeat constructor; simpl; try discriminate; lia.
  - exists merged. split; [exact (Hm 7)|]. destruct (modem_run _ _) as [m' feds].
    destruct Hrun as (_ & Ho & _). rewrite <- Ho. clear. induction feds; [reflexivity|].
    simpl. f_equal. assumption.
Defined.

(** ** Radio state and configuration *)

Lemma driver_state_app on a b : driver_state on (a ++ b) = driver_state (driver_state on a) b.
Proof. apply foldl_app. Qed.

Lemma handle_status_state p c :
  c <> CMD_LEAVE -> params (fst (handle_status p c)) = params p /\ ops (snd (handle_status p c)) = [].
Proof.
  intros Hc. unfold handle_status, reply_only.
  destruct (c =? CMD_LEAVE) eqn:E; [by apply Z.eqb_eq in E|].
  repeat match goal with |- context [if ?b then _ else _] => destruct b; [done|] end. done.
Qed.

(** A command other than [CMD_LEAVE] keeps the reported radio state that of the
    driver. *)
Lemma handle_radio_state_ok p c d :
  c <> CMD_LEAVE ->
  radio_on (params (fst (handle p c d))) = driver_state (radio_on (params p)) (ops (snd (handle p c d))).
Proof.
  intros Hc. pose proof (handle_status_state p c Hc) as [Hp Ho].
  unfold handle, handle_data, handle_radio_state, handle_u32_param, handle_u8_param, reply_only in *.
  cbv zeta. repeat case_match; try done. rewrite Hp, Ho. done.
Qed.

(** the radio state the modem reports. As long as no host leaves, the
    state reported to hosts ([params.radio_on]) is what the driver was last
    told, through any sequence of commands; [CMD_LEAVE], however, switches the
    driver off and leaves the reported state as it was. *)
Theorem Protocol_radio_state (p : Protocol) (frames : list (Z * bytes))
    (Hleave : Forall (fun f => f.1 <> CMD_LEAVE) frames) :
  radio_on (params (fst (handle_all p frames)))
    = driver_state (radio_on (params p)) (snd (handle_all p frames)) /\
  (forall payload, handle p CMD_LEAVE payload = (p, mkHandled [kiss_frame CMD_LEAVE [0xFF]] [RadioOff])).
Proof.
  split; [|done]. revert p. induction Hleave as [|[c d] frames Hc _ IH]; intros p; [done|].
  cbn [handle_all]. pose proof (handle_radio_state_ok p c d Hc) as Hs.
  destruct (handle p c d) as [p1 h]. specialize (IH p1).
  destruct (handle_all p1 frames) as [p2 os]. cbn [fst snd] in *.
  by rewrite driver_state_app, <- Hs.
Qed.

Lemma Protocol_radio_state_witness :
  radio_on (params (fst (handle_all (Protocol_new 1)
    [(CMD_RADIO_STATE, [1]); (CMD_DATA, [5]); (CMD_RADIO_STATE, [0xFF])]))) = true.
Proof.
  rewrite (proj1 (Protocol_radio_state (Protocol_new 1)
    [(CMD_RADIO_STATE, [1]); (CMD_DATA, [5]); (CMD_RADIO_STATE, [0xFF])]
    ltac:(repeat constructor; discriminate))).
  vm_compute. reflexivity.
Defined.

Lemma quantize_frequency_mod hz : in_width 32 hz -> quantize_frequency hz = hz - hz mod 32.
Proof.
  intros [H0 H1]. unfold quantize_frequency.
  change (wrap 32 (Z.lnot 0x1F)) with (Z.shiftl (Z.ones 27) 5).
  assert (Z.land hz (Z.shiftl (Z.ones 27) 5) = Z.shiftl (Z.land (Z.shiftr hz 5) (Z.ones 27)) 5) as ->.
  { apply Z.bits_inj'. intros n Hn. rewrite Z.land_spec, !Z.shiftl_spec, Z.land_spec by done.
    destruct (decide (n < 5)).
    - rewrite !(Z.testbit_neg_r _ (n - 5)) by lia. by rewrite !andb_false_r.
    - rewrite Z.shiftr_spec by lia. by replace (n - 5 + 5) with n by lia. }
  rewrite Z.land_ones, Z.shiftr_div_pow2, Z.shiftl_mul_pow2 by lia. change (2 ^ 5) with 32.
  rewrite Z.mod_small; [pose proof (Z.div_mod hz 32); lia|].
  split; [apply Z.div_pos; lia|apply Z.div_lt_upper_bound; lia].
Qed.

Lemma is_query_u32 v : in_width 32 v -> is_query (be_encode 4 v) = (v =? 2 ^ 32 - 1).
Proof.
  intros Hv. destruct (Z.eqb_spec v (2 ^ 32 - 1)) as [->|Hne]; [done|].
  apply not_true_iff_false. intros Hq. apply Hne.
  rewrite <- (be_decode_encode 4 v) by exact Hv.
  unfold is_query in Hq. pose proof (be_encode_length 4 v) as Hl.
  destruct (be_encode 4 v) as [|a [|b [|c [|d [|]]]]]; try discriminate Hl.
  cbn [forallb] in Hq. zb. subst. done.
Qed.

Definition u32_value (v : Z) : Prop := in_width 32 v /\ v <> 2 ^ 32 - 1.
Definition u8_value (v : Z) : Prop := 0 <= v < 255.

Lemma handle_u32_set p c v current store update :
  u32_value v ->
  handle_u32_param p c (be_encode 4 v) current store update =
    (set_params p (update (params p) (store v)),
     mkHandled [kiss_frame c (be_encode 4 (store v))] [Configure (update (params p) (store v))]).
Proof.
  intros [Hv Hne]. unfold handle_u32_param. rewrite is_query_u32 by done.
  destruct (Z.eqb_spec v (2 ^ 32 - 1)); [done|]. by rewrite (be_decode_encode 4 v) by exact Hv.
Qed.

Lemma handle_u8_set p c v current update :
  u8_value v ->
  handle_u8_param p c v current update =
    (set_params p (update (params p) v), mkHandled [kiss_frame c [v]] [Configure (update (params p) v)]).
Proof. intros Hv. unfold handle_u8_param. destruct (Z.eqb_spec v 0xFF); [unfold u8_value in Hv; lia|done]. Qed.

(** The commands a host sends to bring a radio up. *)
Definition host_config (f bw tx s c : Z) : list (Z * bytes) :=
  [(CMD_FREQUENCY, be_encode 4 f); (CMD_BANDWIDTH, be_encode 4 bw); (CMD_TXPOWER, [tx]);
   (CMD_SF, [s]); (CMD_CR, [c]); (CMD_RADIO_STATE, [RADIO_STATE_ON])].

(** configuring the radio. Sending the five parameters and switching on
    leaves the modem with exactly these parameters, the frequency rounded down
    to the 32 Hz grid, reconfigures the driver after each and ends with
    switching it on with them in force; a query of a parameter is then
    answered with the value in force and changes nothing. *)
Theorem Protocol_configure (p : Protocol) (f bw tx s c : Z)
    (Hf : u32_value f) (Hbw : u32_value bw) (Htx : u8_value tx) (Hs : u8_value s) (Hc : u8_value c) :
  let '(p', os) := handle_all p (host_config f bw tx s c) in
  params p' = mkRadioParams (f - f mod 32) bw tx s c (implicit (params p)) true /\
  p' = set_params p (params p') /\
  drop 4 os = [Configure (with_radio_on (params p') (radio_on (params p))); RadioOn] /\
  handle p' CMD_FREQUENCY [0xFF; 0xFF; 0xFF; 0xFF]
    = (p', mkHandled [kiss_frame CMD_FREQUENCY (be_encode 4 (f - f mod 32))] []) /\
  handle p' CMD_BANDWIDTH [0xFF; 0xFF; 0xFF; 0xFF]
    = (p', mkHandled [kiss_frame CMD_BANDWIDTH (be_encode 4 bw)] []) /\
  handle p' CMD_TXPOWER [0xFF] = (p', mkHandled [kiss_frame CMD_TXPOWER [tx]] []) /\
  handle p' CMD_SF [0xFF] = (p', mkHandled [kiss_frame CMD_SF [s]] []) /\
  handle p' CMD_CR [0xFF] = (p', mkHandled [kiss_frame CMD_CR [c]] []) /\
  handle p' CMD_RADIO_STATE [0xFF] = (p', mkHandled [kiss_frame CMD_RADIO_STATE [RADIO_STATE_ON]] []).
Proof.
  assert (forall q, handle q CMD_FREQUENCY (be_encode 4 f) = handle_u32_param q CMD_FREQUENCY
    (be_encode 4 f) (frequency (params q)) quantize_frequency with_frequency) as E1 by done.
  assert (forall q, handle q CMD_BANDWIDTH (be_encode 4 bw) = handle_u32_param q CMD_BANDWIDTH
    (be_encode 4 bw) (bandwidth (params q)) id with_bandwidth) as E2 by done.
  assert (forall q v, handle q CMD_TXPOWER [v] =
    handle_u8_param q CMD_TXPOWER v (txpower (params q)) with_txpower) as E3 by done.
  assert (forall q v, handle q CMD_SF [v] = handle_u8_param q CMD_SF v (sf (params q)) with_sf) as E4 by done.
  assert (forall q v, handle q CMD_CR [v] = handle_u8_param q CMD_CR v (cr (params q)) with_cr) as E5 by done.
  unfold host_config. cbn [handle_all].
  rewrite E1, handle_u32_set, quantize_frequency_mod by (done || apply Hf).
  rewrite E2, handle_u32_set, E3, handle_u8_set, E4, handle_u8_set, E5, handle_u8_set by done.
  repeat split.
Qed.

Lemma Protocol_configure_witness :
  u32_value 867500017 /\
  params (fst (handle_all (Protocol_new 1) (host_config 867500017 125000 17 8 5)))
    = mkRadioParams 867500000 125000 17 8 5 false true.
Proof.
  assert (u32_value 867500017) as Hf by (split; [split; lia|lia]).
  split; [exact Hf|].
  pose proof (Protocol_configure (Protocol_new 1) 867500017 125000 17 8 5 Hf
    ltac:(split; [split; lia|lia]) ltac:(split; lia) ltac:(split; lia) ltac:(split; lia)) as H.
  destruct (handle_all _ _) as [p' os]. exact (proj1 H).
Defined.
