(* ===== verification/Resource.v ===== *)
(** * Resources: common definitions ([src/src/resource/mod.rs], [advertisement.rs])

    The constants of resource transfers, compression, map hashes and the
    advertisement that opens a transfer.  The bzip2 library is the class [Bz2],
    the cursor functions of the [rmp] crate the class [RmpCursor]. *)

From S2P Require Import Prelude Float Crypto Hash Packet Msgpack.

Definition WINDOW : Z := 4.
Definition WINDOW_MIN : Z := 2.
Definition WINDOW_MAX_SLOW : Z := 10.
Definition WINDOW_MAX_VERY_SLOW : Z := 4.
Definition WINDOW_MAX_FAST : Z := 75.
Definition WINDOW_MAX : Z := WINDOW_MAX_FAST.
Definition FAST_RATE_THRESHOLD : Z := WINDOW_MAX_SLOW - WINDOW - 2.
Definition VERY_SLOW_RATE_THRESHOLD : Z := 2.
Definition RATE_FAST : f64 := f64_div (f64_mul (f64_of_Z 50) (f64_of_Z 1000)) (f64_of_Z 8).
Definition RATE_VERY_SLOW : f64 := f64_div (f64_mul (f64_of_Z 2) (f64_of_Z 1000)) (f64_of_Z 8).
Definition WINDOW_FLEXIBILITY : Z := 4.
Definition MAPHASH_LEN : nat := 4.
Definition SDU : Z := PACKET_PROTOCOL_MDU.
Definition RANDOM_HASH_SIZE : nat := 4.
Definition MAX_EFFICIENT_SIZE : Z := 1024 * 1024 - 1.
Definition RESPONSE_MAX_GRACE_TIME : f64 := f64_of_Z 10.
Definition METADATA_MAX_SIZE : Z := 16 * 1024 * 1024 - 1.
Definition AUTO_COMPRESS_MAX_SIZE : Z := 64 * 1024 * 1024.
Definition PART_TIMEOUT_FACTOR : f64 := f64_of_Z 4.
Definition PART_TIMEOUT_FACTOR_AFTER_RTT : f64 := f64_of_Z 2.
Definition PROOF_TIMEOUT_FACTOR : f64 := f64_of_Z 3.
Definition HMU_WAIT_FACTOR : f64 := f64_lit 7 (-1).
Definition MAX_RETRIES : Z := 16.
Definition MAX_ADV_RETRIES : Z := 4.
Definition SENDER_GRACE_TIME : f64 := f64_of_Z 10.
Definition PROCESSING_GRACE : f64 := f64_of_Z 1.
Definition RETRY_GRACE_TIME : f64 := f64_lit 1 (-2).
Definition PER_RETRY_DELAY : f64 := f64_lit 1 (-1).
Definition TRAFFIC_TIMEOUT_FACTOR : f64 := f64_of_Z 6.
Definition HASHMAP_IS_NOT_EXHAUSTED : Z := 0x00.
Definition HASHMAP_IS_EXHAUSTED : Z := 0xFF.

Inductive ResourceStatus :=
| StatusNone | Queued | Advertised | Transferring | AwaitingProof | Assembling
| Complete | Failed | Corrupt | Rejected.

#[export] Instance ResourceStatus_eq_dec : EqDecision ResourceStatus.
Proof. solve_decision. Defined.

Definition is_concluded (s : ResourceStatus) : bool :=
  match s with Complete | Failed | Corrupt | Rejected => true | _ => false end.

Record ResourceOptions := mkOptions {
  opt_auto_compress : bool;
  opt_auto_compress_limit : option Z;
  opt_metadata : option bytes;
  opt_timeout : option f64;
  opt_request_id : option AddressHash;
  opt_is_response : bool;
}.

Definition ResourceOptions_default : ResourceOptions := mkOptions true None None None None false.

Definition should_auto_compress (opts : ResourceOptions) (original_len : Z) : bool :=
  if negb (opt_auto_compress opts) then false
  else original_len <=? default AUTO_COMPRESS_MAX_SIZE (opt_auto_compress_limit opts).

(** ** Compression

    What the decoder delivers before its end or an error, and whether it ended
    well.  The encoder writes to memory and does not fail. *)
Class Bz2 := {
  bz2_compress : bytes -> bytes;
  bz2_stream : bytes -> bytes * bool;
  bz2_compress_u8 : forall d, all_u8 (bz2_compress d);
  bz2_compress_header : forall d, bz2_compress d <> [];
  bz2_stream_compress : forall d, all_u8 d -> bz2_stream (bz2_compress d) = (d, true);
}.

Definition maybe_compress `{Bz2} (data : bytes) (enabled : bool) (max_size : Z) : bytes * bool :=
  if negb enabled || bool_decide (data = []) || (max_size <? Z.of_nat (length data)) then (data, false)
  else
    let compressed := bz2_compress data in
    if (length compressed <? length data)%nat then (compressed, true) else (data, false).

Definition decompress `{Bz2} (data : bytes) (max_size : Z) : result bytes :=
  let '(out, ended) := bz2_stream data in
  if max_size <? Z.of_nat (length out) then Err (ResourceMsg "decompressed resource exceeded maximum size")
  else if ended then Ok out
  else Err (ResourceMsg "bz2 decompression failed").

Definition map_hash `{Sha256} (data random_hash : bytes) : bytes := take MAPHASH_LEN (sha256 (data ++ random_hash)).

(** ** Advertisements *)
Definition OVERHEAD : Z := 134.
Definition HASHMAP_MAX_LEN : nat := Z.to_nat ((LINK_MDU - OVERHEAD) / 4).
Definition COLLISION_GUARD_SIZE : nat := 2 * Z.to_nat WINDOW_MAX + HASHMAP_MAX_LEN.

Definition FLAG_ENCRYPTED : Z := 0x01.
Definition FLAG_COMPRESSED : Z := 0x02.
Definition FLAG_SPLIT : Z := 0x04.
Definition FLAG_IS_REQUEST : Z := 0x08.
Definition FLAG_IS_RESPONSE : Z := 0x10.
Definition FLAG_HAS_METADATA : Z := 0x20.

Record ResourceAdvertisement := mkAdvertisement {
  adv_transfer_size : Z;
  adv_data_size : Z;
  adv_parts : Z;
  adv_hash : Hash;
  adv_random_hash : bytes;
  adv_original_hash : Hash;
  adv_segment_index : Z;
  adv_total_segments : Z;
  adv_request_id : option AddressHash;
  adv_flags : Z;
  adv_hashmap : bytes;
}.

#[export] Instance ResourceAdvertisement_eq_dec : EqDecision ResourceAdvertisement.
Proof. solve_decision. Defined.

Definition has_flag (f : Z) (a : ResourceAdvertisement) : bool := negb (Z.land (adv_flags a) f =? 0).
Definition adv_encrypted : ResourceAdvertisement -> bool := has_flag FLAG_ENCRYPTED.
Definition adv_compressed : ResourceAdvertisement -> bool := has_flag FLAG_COMPRESSED.
Definition adv_split : ResourceAdvertisement -> bool := has_flag FLAG_SPLIT.
Definition adv_is_request (a : ResourceAdvertisement) : bool :=
  bool_decide (is_Some (adv_request_id a)) && has_flag FLAG_IS_REQUEST a.
Definition adv_is_response (a : ResourceAdvertisement) : bool :=
  bool_decide (is_Some (adv_request_id a)) && has_flag FLAG_IS_RESPONSE a.
Definition adv_has_metadata : ResourceAdvertisement -> bool := has_flag FLAG_HAS_METADATA.

(** The flags both ends of a transfer compute from the same fields. *)
Definition flags_of (encrypted compressed split has_metadata : bool) (request_id : option AddressHash)
    (is_response : bool) : Z :=
  let flag (b : bool) (f flags : Z) := if b then Z.lor flags f else flags in
  let flags := flag has_metadata FLAG_HAS_METADATA (flag split FLAG_SPLIT
                 (flag compressed FLAG_COMPRESSED (flag encrypted FLAG_ENCRYPTED 0))) in
  match request_id with
  | Some _ => if is_response then Z.lor flags FLAG_IS_RESPONSE else Z.lor flags FLAG_IS_REQUEST
  | None => flags
  end.

(** The shortest unsigned encoding. *)
Definition msgpack_uint (n : Z) : bytes :=
  if n <? 128 then [n]
  else if n <? 256 then 0xcc :: be_encode 1 n
  else if n <? 65536 then 0xcd :: be_encode 2 n
  else if n <? 2 ^ 32 then 0xce :: be_encode 4 n
  else 0xcf :: be_encode 8 n.

(** [write_uint], and the reading functions: value and rest of the cursor. *)
Class RmpCursor := {
  write_uint : Z -> bytes;
  rmp_map_len : bytes -> option (Z * bytes);
  rmp_array_len : bytes -> option (Z * bytes);
  rmp_bin_len : bytes -> option (Z * bytes);
  rmp_int : bytes -> option (Z * bytes);
  write_uint_spec : forall n, 0 <= n < 2 ^ 64 -> write_uint n = msgpack_uint n;
  rmp_map_len_spec : forall n rest, 0 <= n < 2 ^ 32 ->
    rmp_map_len (msgpack_header 0x80 0xde 0xdf n ++ rest) = Some (n, rest);
  rmp_array_len_spec : forall n rest, 0 <= n < 2 ^ 32 ->
    rmp_array_len (msgpack_header 0x90 0xdc 0xdd n ++ rest) = Some (n, rest);
  rmp_bin_len_spec : forall n rest, 0 <= n < 2 ^ 32 ->
    rmp_bin_len (msgpack_bin_header n ++ rest) = Some (n, rest);
  rmp_int_spec : forall n rest, 0 <= n < 2 ^ 64 -> rmp_int (msgpack_uint n ++ rest) = Some (n, rest);
}.

Section Advertisements.
Context `{Rmp} `{RmpCursor}.

Definition adv_key (k : Z) : bytes := [Z.lor 0xa0 1; k].

Definition adv_pack (a : ResourceAdvertisement) : bytes :=
  [Z.lor 0x80 11] ++
  adv_key 116 ++ write_uint (adv_transfer_size a) ++
  adv_key 100 ++ write_uint (adv_data_size a) ++
  adv_key 110 ++ write_uint (adv_parts a) ++
  adv_key 104 ++ write_bin (adv_hash a) ++
  adv_key 114 ++ write_bin (adv_random_hash a) ++
  adv_key 111 ++ write_bin (adv_original_hash a) ++
  adv_key 105 ++ write_uint (adv_segment_index a) ++
  adv_key 108 ++ write_uint (adv_total_segments a) ++
  adv_key 113 ++ (match adv_request_id a with Some i => write_bin i | None => write_nil end) ++
  adv_key 102 ++ write_uint (adv_flags a) ++
  adv_key 109 ++ write_bin (adv_hashmap a).

(** *** Reading *)
Definition cursor_opt {A} (f : bytes -> option (A * bytes)) : St bytes A := fun c =>
  match f c with Some (a, c') => (Ok a, c') | None => (Err PacketError, c) end.

Definition cursor_map_len : St bytes Z := cursor_opt rmp_map_len.

Definition read_short_key : St bytes Z := fun c =>
  match c with
  | [] => (Err PacketError, c)
  | byte :: c' =>
      if negb (Z.shiftr byte 5 =? 5) then (Err PacketError, c)
      else
        match c' with
        | key :: rest => if negb (Z.land byte 0x1f =? 1) then (Err PacketError, c') else (Ok key, rest)
        | [] => (Err PacketError, c')
        end
  end.

Definition read_uint : St bytes Z := cursor_opt rmp_int.

Definition peek_nil : St bytes bool := fun c =>
  match c with [] => (Err PacketError, c) | b :: _ => (Ok (b =? 0xc0), c) end.

Definition cursor_skip (n : nat) : St bytes unit := fun c => (Ok (), drop n c).

Definition cursor_take (n : nat) : St bytes bytes := fun c =>
  if (length c <? n)%nat then (Err PacketError, c) else (Ok (take n c), drop n c).

Definition cursor_bin : St bytes bytes := len ← cursor_opt rmp_bin_len; cursor_take (Z.to_nat len).

Definition cursor_fixed_bin (n : nat) : St bytes bytes :=
  d ← cursor_bin; if negb (length d =? n)%nat then throw PacketError else mret d.

Definition read_hash : St bytes Hash := cursor_fixed_bin HASH_SIZE.

Record AdvFields := mkAdvFields {
  f_transfer_size : option Z;
  f_data_size : option Z;
  f_parts : option Z;
  f_hash : option Hash;
  f_random_hash : option bytes;
  f_original_hash : option Hash;
  f_segment_index : option Z;
  f_total_segments : option Z;
  f_request_id : option AddressHash;
  f_flags : option Z;
  f_hashmap : option bytes;
}.

Definition no_fields : AdvFields := mkAdvFields None None None None None None None None None None None.

Definition read_request_id : St bytes (option AddressHash) :=
  nil ← peek_nil;
  if nil : bool then (_ ← cursor_skip 1; mret None) else (d ← cursor_fixed_bin 16; mret (Some d)).

(** One entry of the map; the key decides the field. *)
Definition read_adv_entry (x : AdvFields) : St bytes AdvFields :=
  let '(mkAdvFields t d n h r o i l q f m) := x in
  key ← read_short_key;
  if key =? 116 then (v ← read_uint; mret (mkAdvFields (Some v) d n h r o i l q f m))
  else if key =? 100 then (v ← read_uint; mret (mkAdvFields t (Some v) n h r o i l q f m))
  else if key =? 110 then (v ← read_uint; mret (mkAdvFields t d (Some v) h r o i l q f m))
  else if key =? 104 then (v ← read_hash; mret (mkAdvFields t d n (Some v) r o i l q f m))
  else if key =? 114 then (v ← cursor_fixed_bin RANDOM_HASH_SIZE; mret (mkAdvFields t d n h (Some v) o i l q f m))
  else if key =? 111 then (v ← read_hash; mret (mkAdvFields t d n h r (Some v) i l q f m))
  else if key =? 105 then (v ← read_uint; mret (mkAdvFields t d n h r o (Some v) l q f m))
  else if key =? 108 then (v ← read_uint; mret (mkAdvFields t d n h r o i (Some v) q f m))
  else if key =? 113 then (v ← read_request_id; mret (mkAdvFields t d n h r o i l v f m))
  else if key =? 102 then (v ← read_uint; mret (mkAdvFields t d n h r o i l q (Some (wrap 8 v)) m))
  else if key =? 109 then (v ← cursor_bin; mret (mkAdvFields t d n h r o i l q f (Some v)))
  else throw PacketError.

Fixpoint read_adv_entries (n : nat) (x : AdvFields) : St bytes AdvFields :=
  match n with
  | O => mret x
  | S n' => x' ← read_adv_entry x; read_adv_entries n' x'
  end.

Definition required {A} (o : option A) : result A := match o with Some a => Ok a | None => Err PacketError end.

Definition adv_of_fields (x : AdvFields) : result ResourceAdvertisement :=
  hash ← required (f_hash x);
  original_hash ← required (f_original_hash x);
  transfer_size ← required (f_transfer_size x);
  random_hash ← required (f_random_hash x);
  if MAX_EFFICIENT_SIZE * 3 <? transfer_size then Err PacketError
  else
    data_size ← required (f_data_size x);
    parts ← required (f_parts x);
    Ok (mkAdvertisement transfer_size data_size parts hash random_hash original_hash
          (Z.max 1 (default 1 (f_segment_index x))) (Z.max 1 (default 1 (f_total_segments x)))
          (f_request_id x) (default 0 (f_flags x)) (default [] (f_hashmap x))).

Definition adv_unpack (data : bytes) : result ResourceAdvertisement :=
  let read : St bytes AdvFields :=
    entries ← cursor_map_len;
    if negb (entries =? 11) then throw PacketError else read_adv_entries 11 no_fields in
  x ← (read data).1;
  adv_of_fields x.

End Advertisements.

(** ** Lemmas *)

(** [parses m enc a]: [m] reads [a] from [enc] and leaves what follows. *)
Definition parses {A} (m : St bytes A) (enc : bytes) (a : A) : Prop := forall rest, m (enc ++ rest) = (Ok a, rest).

Lemma parses_ret {A} (a : A) : parses (mret a) [] a.
Proof. by intros rest. Qed.

Lemma parses_bind {A B} (m : St bytes A) (f : A -> St bytes B) e1 e2 a b :
  parses m e1 a -> parses (f a) e2 b -> parses (m ≫= f) (e1 ++ e2) b.
Proof. intros H1 H2 rest. rewrite <- app_assoc. erewrite St_bind_Ok by apply H1. apply H2. Qed.

Lemma parses_map {A B} (m : St bytes A) (f : A -> B) e a : parses m e a -> parses (x ← m; mret (f x)) e (f a).
Proof. intros Hm. rewrite <- (app_nil_r e). eapply parses_bind; [done|apply parses_ret]. Qed.

Lemma parses_take l : parses (cursor_take (length l)) l l.
Proof.
  intros rest. unfold cursor_take. rewrite length_app. destruct (Nat.ltb_spec (length l + length rest) (length l)); [lia|].
  by rewrite take_app_length, drop_app_length.
Qed.

Section AdvertisementLemmas.
Context `{Rmp} `{RmpCursor}.

Lemma parses_uint n : 0 <= n < 2 ^ 64 -> parses read_uint (write_uint n) n.
Proof. intros Hn rest. unfold read_uint, cursor_opt. by rewrite write_uint_spec, rmp_int_spec. Qed.

Lemma parses_bin d : fits32 d -> parses cursor_bin (write_bin d) d.
Proof.
  intros Hd. rewrite write_bin_spec by apply Hd. apply (parses_bind _ _ _ _ (Z.of_nat (length d))).
  - intros rest. unfold cursor_opt. rewrite rmp_bin_len_spec; [done|]. unfold fits32 in Hd. lia.
  - rewrite Nat2Z.id. apply parses_take.
Qed.

Lemma parses_fixed_bin n d : length d = n -> fits32 d -> parses (cursor_fixed_bin n) (write_bin d) d.
Proof.
  intros Hn Hd. rewrite <- (app_nil_r (write_bin d)). eapply parses_bind; [by apply parses_bin|].
  rewrite Hn, Nat.eqb_refl. apply parses_ret.
Qed.

Lemma parses_key k : parses read_short_key (adv_key k) k.
Proof. by intros rest. Qed.

Definition adv_wf (a : ResourceAdvertisement) : Prop :=
  0 <= adv_transfer_size a <= MAX_EFFICIENT_SIZE * 3 /\ in_width 64 (adv_data_size a) /\ in_width 64 (adv_parts a) /\
  length (adv_hash a) = HASH_SIZE /\ length (adv_random_hash a) = RANDOM_HASH_SIZE /\
  length (adv_original_hash a) = HASH_SIZE /\ 1 <= adv_segment_index a < 2 ^ 64 /\ 1 <= adv_total_segments a < 2 ^ 64 /\
  (forall i, adv_request_id a = Some i -> length i = 16%nat) /\ is_u8 (adv_flags a) /\ fits32 (adv_hashmap a).

Lemma fits32_length d n : length d = n -> (n <= 64)%nat -> fits32 d.
Proof. unfold fits32. intros; lia. Qed.

Lemma parses_request_id o :
  (forall i, o = Some i -> length i = 16%nat) ->
  parses read_request_id (match o with Some i => write_bin i | None => write_nil end) o.
Proof.
  intros Ho rest. unfold read_request_id. destruct o as [i|].
  - pose proof (Ho i eq_refl) as Hl.
    pose proof (parses_map _ Some _ _ (parses_fixed_bin 16 i Hl (fits32_length _ _ Hl ltac:(lia))) rest) as E.
    rewrite write_bin_spec in * by (rewrite Hl; lia). rewrite Hl in *. exact E.
  - by rewrite write_nil_spec.
Qed.

(** One entry: the key selects the field, [tac] shows how its value is read. *)
Ltac read_entry tac :=
  unfold read_adv_entry; eapply parses_bind; [apply parses_key|]; cbn [Z.eqb Pos.eqb]; eapply parses_map; tac.

Lemma parses_entries_cons n x x' e1 e2 y :
  parses (read_adv_entry x) e1 x' -> parses (read_adv_entries n x') e2 y ->
  parses (read_adv_entries (S n) x) (e1 ++ e2) y.
Proof. apply parses_bind. Qed.

Lemma adv_fields_parse a :
  adv_wf a ->
  parses (read_adv_entries 11 no_fields) (drop 1 (adv_pack a))
    (mkAdvFields (Some (adv_transfer_size a)) (Some (adv_data_size a)) (Some (adv_parts a)) (Some (adv_hash a))
       (Some (adv_random_hash a)) (Some (adv_original_hash a)) (Some (adv_segment_index a))
       (Some (adv_total_segments a)) (adv_request_id a) (Some (adv_flags a)) (Some (adv_hashmap a))).
Proof.
  intros (Ht & Hd & Hn & Hh & Hr & Ho & Hi & Hl & Hq & Hf & Hm). unfold adv_pack. cbn [app drop].
  unfold MAX_EFFICIENT_SIZE in Ht. unfold is_u8, in_width in *.
  assert (wrap 8 (adv_flags a) = adv_flags a) as Hw by (apply wrap_small; unfold in_width; lia).
  pose proof (fits32_length _ _ Hh ltac:(unfold HASH_SIZE; lia)). pose proof (fits32_length _ _ Ho ltac:(unfold HASH_SIZE; lia)).
  pose proof (fits32_length _ _ Hr ltac:(unfold RANDOM_HASH_SIZE; lia)).
  unfold no_fields. change (?k :: ?b :: ?r) with ([k; b] ++ r). rewrite !(app_assoc (adv_key _)).
  do 10 (eapply parses_entries_cons; [read_entry ltac:(first
    [ apply parses_uint; lia | apply parses_fixed_bin; assumption | apply (parses_request_id _ Hq) ])|]).
  rewrite Hw, <- (app_nil_r (_ ++ write_bin _)). eapply parses_entries_cons; [|apply parses_ret].
  unfold read_adv_entry. eapply parses_bind; [apply parses_key|]. cbn [Z.eqb Pos.eqb].
  apply (parses_map _ (fun v => mkAdvFields _ _ _ _ _ _ _ _ _ _ (Some v))), (parses_bin _ Hm).
Qed.

End AdvertisementLemmas.

Section AdvertisementTheorems.
Context `{Rmp} `{RmpCursor}.

Lemma adv_of_fields_bounds x a :
  adv_of_fields x = Ok a ->
  adv_transfer_size a <= MAX_EFFICIENT_SIZE * 3 /\ 1 <= adv_segment_index a /\ 1 <= adv_total_segments a.
Proof.
  unfold adv_of_fields, required. intros E.
  destruct (f_hash x), (f_original_hash x), (f_transfer_size x) as [t|], (f_random_hash x); try done. cbn [mbind result_bind] in E.
  destruct (Z.ltb_spec (MAX_EFFICIENT_SIZE * 3) t); [done|].
  destruct (f_data_size x), (f_parts x); try done. injection E as <-. cbn [adv_transfer_size adv_segment_index adv_total_segments]. lia.
Qed.

Lemma adv_unpack_pack a : adv_wf a -> adv_unpack (adv_pack a) = Ok a.
Proof.
  intros Hwf. unfold adv_unpack. cbv zeta.
  eassert (parses (entries ← cursor_map_len; if negb (entries =? 11) then throw PacketError else read_adv_entries 11 no_fields)
    (adv_pack a) _) as E.
  { change (adv_pack a) with (msgpack_header 0x80 0xde 0xdf 11 ++ drop 1 (adv_pack a)).
    apply (parses_bind _ _ _ _ 11); [|apply (adv_fields_parse a Hwf)].
    intros rest. unfold cursor_map_len, cursor_opt. by rewrite rmp_map_len_spec. }
  specialize (E []). rewrite app_nil_r in E. rewrite E. cbn.
  destruct Hwf as (Ht & _ & _ & _ & _ & _ & Hi & Hl & _). destruct (Z.ltb_spec (MAX_EFFICIENT_SIZE * 3) (adv_transfer_size a)); [lia|].
  rewrite !Z.max_r by lia. by destruct a.
Qed.

(** An advertisement within the size limit is read as it was packed, and
    what is read never promises more than three times the segment limit. *)
Theorem Advertisement_roundtrip (a : ResourceAdvertisement) (Hwf : adv_wf a) :
  adv_unpack (adv_pack a) = Ok a /\
  forall d a', adv_unpack d = Ok a' ->
    adv_transfer_size a' <= MAX_EFFICIENT_SIZE * 3 /\ 1 <= adv_segment_index a' /\ 1 <= adv_total_segments a'.
Proof.
  split; [by apply adv_unpack_pack|]. intros d a' E. unfold adv_unpack in E. cbv zeta in E.
  destruct (_ d).1 as [x|]; [|done]. by apply (adv_of_fields_bounds x).
Qed.

End AdvertisementTheorems.

(** ** Concrete instances *)

(** A cursor function from a reader. *)
Definition cursor_of {A} (m : St MsgReader A) (c : bytes) : option (A * bytes) :=
  match m (MsgReader_new c) with
  | (Ok a, r) => Some (a, drop (pos r) c)
  | (Err _, _) => None
  end.

Lemma cursor_of_reads {A} (m : St MsgReader A) e a rest : reads m e a -> cursor_of m (e ++ rest) = Some (a, rest).
Proof.
  intros [Hm _]. unfold cursor_of, MsgReader_new. rewrite (Hm _ 0%nat rest) by (done || lia). simpl.
  by rewrite drop_app_length.
Qed.

Definition toy_read_int : St MsgReader Z :=
  marker ← read_byte;
  if marker =? 0xcc then read_byte
  else if marker =? 0xcd then read_u16
  else if marker =? 0xce then read_u32
  else if marker =? 0xcf then read_u64
  else mret marker.

Lemma reads_toy_int n : 0 <= n < 2 ^ 64 -> reads toy_read_int (msgpack_uint n) n.
Proof.
  intros Hn. unfold msgpack_uint. repeat case_match; zb; apply reads_marker; cbn [Z.eqb Pos.eqb].
  - repeat case_match; zb; try lia. apply reads_ret.
  - apply reads_be1. lia.
  - apply reads_u16. lia.
  - apply reads_u32. lia.
  - apply reads_u64. lia.
Qed.

Definition toy_cursor : RmpCursor.
Proof.
  refine {| write_uint := msgpack_uint;
            rmp_map_len := cursor_of read_map_len;
            rmp_array_len := cursor_of read_array_len;
            rmp_bin_len := cursor_of (n ← read_bin_len; mret (Z.of_nat n));
            rmp_int := cursor_of toy_read_int |}.
  - done.
  - intros n rest Hn. by apply cursor_of_reads, reads_map_len.
  - intros n rest Hn. by apply cursor_of_reads, reads_array_len.
  - intros n rest Hn. apply cursor_of_reads. rewrite <- (Z2Nat.id n) at 2 by lia. by apply reads_map, reads_bin_len.
  - intros n rest Hn. by apply cursor_of_reads, reads_toy_int.
Defined.

(** Three leading zeros become one byte. *)
Definition toy_compress (d : bytes) : bytes :=
  if bool_decide (take 3 d = [0; 0; 0]) then 1 :: (wrap 8 <$> drop 3 d) else 0 :: (wrap 8 <$> d).

Lemma wrap8_u8 d : all_u8 d -> wrap 8 <$> d = d.
Proof.
  intros Hd. induction Hd as [|x d Hx _ IH]; [done|]. cbn [fmap list_fmap]. by rewrite wrap_small, IH.
Qed.

Lemma wrap8_all_u8 d : all_u8 (wrap 8 <$> d).
Proof. apply Forall_fmap, list.Forall_forall. intros x _. by apply wrap_in_width. Qed.

Definition toy_bz2 : Bz2.
Proof.
  refine {| bz2_compress := toy_compress;
            bz2_stream d := match d with
                            | x :: d' => if x =? 1 then ([0; 0; 0] ++ d', true) else (d', x =? 0)
                            | [] => ([], false)
                            end |}.
  - intros d. unfold toy_compress. case_match; apply all_u8_cons; (split; [done|apply wrap8_all_u8]).
  - intros d. unfold toy_compress. by case_match.
  - intros d Hd. unfold toy_compress. case_bool_decide as E; simpl; rewrite wrap8_u8 by auto with rns; [|done].
    f_equal. change (0 :: 0 :: 0 :: drop 3 d) with ([0; 0; 0] ++ drop 3 d). by rewrite <- E, take_drop.
Defined.

Definition sample_advertisement : ResourceAdvertisement :=
  mkAdvertisement 500 300 2 (replicate 32 1) [1; 2; 3; 4] (replicate 32 2) 1 1 (Some (replicate 16 3)) 0x0b [1; 2; 3; 4; 5; 6; 7; 8].

Lemma Advertisement_roundtrip_witness :
  adv_unpack (H0 := toy_cursor) (adv_pack (H := msgpack_rmp) (H0 := toy_cursor) sample_advertisement) = Ok sample_advertisement.
Proof.
  assert (adv_wf sample_advertisement) as Hwf.
  { repeat split; try done. by intros i [= <-]. }
  exact (proj1 (@Advertisement_roundtrip msgpack_rmp toy_cursor sample_advertisement Hwf)).
Defined.
