(* ===== verification/ResourceOut.v ===== *)
(** * Sending a resource ([src/src/resource/outbound.rs])

    Staging, splitting, compressing, encrypting and hashing a payload, serving
    part requests, and the sender's watchdog.  A stream source is the contents
    of its file; failing reads and the temporary file of a spooled stream are
    not modelled.  Random draws are given as pairs of a hash and an
    initialization vector; times are [f64] seconds. *)

From S2P Require Import Prelude Float Buffer Crypto Hash Packet Token Identity Msgpack Destination Links Resource.

Module Outgoing.

(** ** Sources *)
Inductive PayloadSource :=
| Memory (buf : bytes)
| Stream (file metadata : bytes) (len : Z).

Definition out_of_range : RnsError := ResourceMsg "resource segment out of range".

Definition read_range (source : PayloadSource) (start stop : nat) : result bytes :=
  if (stop <? start)%nat then Err out_of_range
  else
    match source with
    | Memory buf => if (length buf <? stop)%nat then Err out_of_range else Ok (slice start stop buf)
    | Stream file metadata len =>
        let meta_len := length metadata in
        let head := if (start <? meta_len)%nat then slice start (stop `min` meta_len) metadata else [] in
        if (meta_len <? stop)%nat then
          let file_start := (start - meta_len)%nat in
          let file_end := (stop - meta_len)%nat in
          if (len <? Z.of_nat file_start) || (len <? Z.of_nat file_end) then Err out_of_range
          else if (file_start <? file_end)%nat && (length file <? file_end)%nat
          then Err (ResourceMsg "resource stream ended early")
          else Ok (head ++ slice file_start file_end file)
        else Ok head
    end.

(** ** State

    The fields set at construction, and those that change; the fields that
    nothing reads ([hashmap], [req_hashlist], [advertise_next]) are left out. *)
Record fixed := mkFixed {
  link_id : LinkId;
  hash : Hash;
  truncated_hash : AddressHash;
  expected_proof : Hash;
  original_hash : Hash;
  random_hash : bytes;
  size : Z;
  total_size : Z;
  compressed : bool;
  encrypted : bool;
  split : bool;
  has_metadata : bool;
  metadata_size : nat;
  segment_index : Z;
  total_segments : Z;
  request_id : option AddressHash;
  is_response : bool;
  auto_compress : bool;
  auto_compress_limit : option Z;
  input_len : Z;
  sdu : Z;
  parts : list Packet;
  part_hashes : list bytes;
  max_retries : Z;
  timeout : f64;
  sender_grace_time : f64;
}.

#[warnings="-register-all"]
Inductive t := mk {
  fx : fixed;
  status : ResourceStatus;
  part_sent : list bool;
  sent_parts : nat;
  receiver_min_consecutive_height : nat;
  rtt : option f64;
  adv_sent : option f64;
  last_activity : f64;
  last_part_sent : f64;
  retries_left : Z;
  timeout_factor : f64;
  source : option PayloadSource;
  next_segment : option t;
}.

Definition set_status (s : ResourceStatus) (o : t) : t :=
  mk (fx o) s (part_sent o) (sent_parts o) (receiver_min_consecutive_height o) (rtt o) (adv_sent o)
    (last_activity o) (last_part_sent o) (retries_left o) (timeout_factor o) (source o) (next_segment o).

Definition set_retries (n : Z) (o : t) : t :=
  mk (fx o) (status o) (part_sent o) (sent_parts o) (receiver_min_consecutive_height o) (rtt o) (adv_sent o)
    (last_activity o) (last_part_sent o) n (timeout_factor o) (source o) (next_segment o).

Definition set_activity (activity part : f64) (o : t) : t :=
  mk (fx o) (status o) (part_sent o) (sent_parts o) (receiver_min_consecutive_height o) (rtt o) (adv_sent o)
    activity part (retries_left o) (timeout_factor o) (source o) (next_segment o).

Definition set_sent (flags : list bool) (n : nat) (o : t) : t :=
  mk (fx o) (status o) flags n (receiver_min_consecutive_height o) (rtt o) (adv_sent o)
    (last_activity o) (last_part_sent o) (retries_left o) (timeout_factor o) (source o) (next_segment o).

Definition set_height (h : nat) (o : t) : t :=
  mk (fx o) (status o) (part_sent o) (sent_parts o) h (rtt o) (adv_sent o)
    (last_activity o) (last_part_sent o) (retries_left o) (timeout_factor o) (source o) (next_segment o).

Definition set_times (r sent : option f64) (o : t) : t :=
  mk (fx o) (status o) (part_sent o) (sent_parts o) (receiver_min_consecutive_height o) r sent
    (last_activity o) (last_part_sent o) (retries_left o) (timeout_factor o) (source o) (next_segment o).

Definition set_timeout_factor (x : f64) (o : t) : t :=
  mk (fx o) (status o) (part_sent o) (sent_parts o) (receiver_min_consecutive_height o) (rtt o) (adv_sent o)
    (last_activity o) (last_part_sent o) (retries_left o) x (source o) (next_segment o).

Definition set_source (s : option PayloadSource) (n : option t) (o : t) : t :=
  mk (fx o) (status o) (part_sent o) (sent_parts o) (receiver_min_consecutive_height o) (rtt o) (adv_sent o)
    (last_activity o) (last_part_sent o) (retries_left o) (timeout_factor o) s n.

(** ** Staging *)
Definition metadata_prefix (opts : ResourceOptions) : result (bytes * bool * nat) :=
  match opt_metadata opts with
  | None => Ok ([], false, 0%nat)
  | Some packed =>
      if METADATA_MAX_SIZE <? Z.of_nat (length packed)
      then Err (ResourceMsg "resource metadata size exceeded")
      else
        let blob := drop 1 (be_encode 4 (wrap 32 (Z.of_nat (length packed)))) ++ packed in
        Ok (blob, true, length blob)
  end.

Record StagedSource := mkStaged {
  segment_data : bytes;
  staged_source : PayloadSource;
  staged_input_len : Z;
  staged_total_size : Z;
  staged_total_segments : Z;
  staged_has_metadata : bool;
  staged_metadata_size : nat;
}.

(** Start and end of a segment, counted from 1. *)
Definition segment_range (total_size index : Z) : nat * nat :=
  (Z.to_nat ((index - 1) * MAX_EFFICIENT_SIZE), Z.to_nat (Z.min (index * MAX_EFFICIENT_SIZE) total_size)).

Definition stage_source (source : PayloadSource) (input_len total_size : Z) (has_metadata : bool)
    (metadata_size : nat) : result StagedSource :=
  let total_segments := if total_size <=? MAX_EFFICIENT_SIZE then 1
                        else (total_size - 1) / MAX_EFFICIENT_SIZE + 1 in
  let '(start, stop) := segment_range total_size 1 in
  segment_data ← read_range source start stop;
  Ok (mkStaged segment_data source input_len total_size total_segments has_metadata metadata_size).

Definition stage_bytes (data : bytes) (opts : ResourceOptions) : result StagedSource :=
  '(blob, has_metadata, metadata_size) ← metadata_prefix opts;
  let stream := blob ++ data in
  stage_source (Memory stream) (Z.of_nat (length data)) (Z.of_nat (length stream)) has_metadata metadata_size.

Definition stage_seekable (file : bytes) (opts : ResourceOptions) : result StagedSource :=
  '(blob, has_metadata, metadata_size) ← metadata_prefix opts;
  let len := Z.of_nat (length file) in
  stage_source (Stream file blob len) len (Z.of_nat metadata_size + len) has_metadata metadata_size.

Section Outgoing.
Context `{Sha256} `{Hkdf} `{X25519} `{CbcCipher} `{HmacSha256}.
Context `{Rmp} `{RmpCursor} `{Bz2}.

(** ** Parts and their map hashes *)
Inductive MapOutcome :=
| MapCollision
| MapError (e : RnsError)
| Mapped (ps : list Packet) (hs : list bytes).

Fixpoint map_parts (link : Link.t) (random : bytes) (guard : list bytes) (chunks : list bytes) : MapOutcome :=
  match chunks with
  | [] => Mapped [] []
  | chunk :: rest =>
      let mh := map_hash chunk random in
      if bool_decide (mh ∈ guard) then MapCollision
      else
        let guard := guard ++ [mh] in
        let guard := if (COLLISION_GUARD_SIZE <? length guard)%nat then drop 1 guard else guard in
        match raw_packet link chunk Data CtxResource with
        | Err e => MapError e
        | Ok p =>
            match map_parts link random guard rest with
            | Mapped ps hs => Mapped (p :: ps) (mh :: hs)
            | other => other
            end
        end
  end.

Definition chunk_list (sdu : nat) (encrypted : bytes) (size total_parts : nat) : list bytes :=
  (fun i => slice (i * sdu) (((i + 1) * sdu) `min` size) encrypted) <$> seq 0 total_parts.

(** The loop that draws a new random hash on a collision: the random hash, the
    parts and the map hashes.  [None]: the encryption panics, or the given draws
    are used up. *)
Fixpoint map_loop (link : Link.t) (prepared : bytes) (sdu size total_parts : nat) (random encrypted : bytes)
    (draws : list (Hash * bytes)) : option (result (bytes * list Packet * list bytes)) :=
  match map_parts link random [] (chunk_list sdu encrypted size total_parts) with
  | Mapped ps hs => Some (Ok (random, ps, hs))
  | MapError e => Some (Err e)
  | MapCollision =>
      match draws with
      | [] => None
      | (new_random, iv) :: draws' =>
          let random := take RANDOM_HASH_SIZE new_random in
          r ← encrypt_alloc link iv (random ++ prepared) [];
          match r with
          | Err e => Some (Err e)
          | Ok (cipher_len, out) => map_loop link prepared sdu size total_parts random (take cipher_len out) draws'
          end
      end
  end.

Definition link_sdu (link : Link.t) : Z := if 0 <? Link.mtu link then Links.sdu link else SDU.

Definition default_timeout (link : Link.t) : f64 :=
  f64_add (f64_mul (as_secs_f64 (Link.rtt link)) TRAFFIC_TIMEOUT_FACTOR)
    (f64_mul RESPONSE_MAX_GRACE_TIME (f64_lit 9 (-3))).

(** The source comes back on an error, so the caller keeps it.  [None] also for
    the division by a part size of zero. *)
Definition from_segment_bytes (now : f64) (draw : Hash * bytes) (draws : list (Hash * bytes)) (segment_data : bytes)
    (source : PayloadSource) (input_len total_size total_segments segment_index : Z) (original : option Hash)
    (link : Link.t) (opts : ResourceOptions) (has_metadata : bool) (metadata_size : nat) : option (result t) :=
  let '(prepared, compressed) := maybe_compress segment_data (should_auto_compress opts input_len) (2 ^ 64 - 1) in
  let random := take RANDOM_HASH_SIZE draw.1 in
  let sdu := link_sdu link in
  r ← encrypt_alloc link draw.2 (random ++ prepared) [];
  match r with
  | Err e => Some (Err e)
  | Ok (cipher_len, out) =>
      let encrypted := take cipher_len out in
      let size := length encrypted in
      if sdu =? 0 then None
      else
        let total_parts := ((size + Z.to_nat sdu - 1) / Z.to_nat sdu)%nat in
        m ← map_loop link prepared (Z.to_nat sdu) size total_parts random encrypted draws;
        match m with
        | Err e => Some (Err e)
        | Ok (random_hash, ps, hs) =>
            let hash := sha256 (segment_data ++ random_hash) in
            let f := mkFixed (Link.id link) hash (AddressHash_new_from_hash hash) (sha256 (segment_data ++ hash))
                       (default hash original) random_hash (Z.of_nat size) total_size compressed true
                       (1 <? total_segments) has_metadata metadata_size segment_index total_segments
                       (opt_request_id opts) (opt_is_response opts) (opt_auto_compress opts)
                       (opt_auto_compress_limit opts) input_len sdu ps hs MAX_RETRIES
                       (default (default_timeout link) (opt_timeout opts)) SENDER_GRACE_TIME in
            Some (Ok (mk f StatusNone (replicate total_parts false) 0 0 None None now (f64_of_Z 0)
                        MAX_ADV_RETRIES TRAFFIC_TIMEOUT_FACTOR (Some source) None))
        end
  end.

Definition finish_staged (now : f64) (draw : Hash * bytes) (draws : list (Hash * bytes)) (s : StagedSource)
    (link : Link.t) (opts : ResourceOptions) : option (result t) :=
  from_segment_bytes now draw draws (segment_data s) (staged_source s) (staged_input_len s) (staged_total_size s)
    (staged_total_segments s) 1 None link opts (staged_has_metadata s) (staged_metadata_size s).

Definition new (now : f64) (draw : Hash * bytes) (draws : list (Hash * bytes)) (data : bytes) (link : Link.t)
    (opts : ResourceOptions) : option (result t) :=
  match stage_bytes data opts with
  | Err e => Some (Err e)
  | Ok s => finish_staged now draw draws s link opts
  end.

Definition from_reader (now : f64) (draw : Hash * bytes) (draws : list (Hash * bytes)) (file : bytes) (link : Link.t)
    (opts : ResourceOptions) : option (result t) :=
  match stage_seekable file opts with
  | Err e => Some (Err e)
  | Ok s => finish_staged now draw draws s link opts
  end.

(** ** Advertising *)
Definition advertisement (o : t) : ResourceAdvertisement :=
  let f := fx o in
  let entries := (HASHMAP_MAX_LEN `min` length (part_hashes f))%nat in
  mkAdvertisement (size f) (total_size f) (Z.of_nat (length (parts f))) (hash f) (random_hash f) (original_hash f)
    (segment_index f) (total_segments f) (request_id f)
    (flags_of (encrypted f) (compressed f) (split f) (has_metadata f) (request_id f) (is_response f))
    (concat (take entries (part_hashes f))).

Definition resend_advertisement (now : f64) (link : Link.t) (iv : bytes) (o : t) : option (t * list Packet) :=
  r ← context_packet link iv (adv_pack (advertisement o)) CtxResourceAdvertisement;
  Some (match r with
        | Ok p => (set_activity now (last_part_sent o) (set_times (rtt o) (Some now) o), [p])
        | Err _ => (o, [])
        end).

Definition advertise (now : f64) (link : Link.t) (iv : bytes) (o : t) : option (result (list Packet) * t) :=
  r ← context_packet link iv (adv_pack (advertisement o)) CtxResourceAdvertisement;
  Some (match r with
        | Ok p =>
            (Ok [p], set_retries MAX_ADV_RETRIES (set_activity now (last_part_sent o)
                       (set_times None (Some now) (set_status Advertised o))))
        | Err e => (Err e, o)
        end).

(** ** Part requests *)

(** [as_chunks::<4>().0] *)
Fixpoint chunks4 (l : bytes) : list bytes :=
  match l with
  | a :: b :: c :: d :: l' => [a; b; c; d] :: chunks4 l'
  | _ => []
  end.

(** The loop over the searched parts: flags, count and packets. *)
Fixpoint send_parts (f : fixed) (wanted : list bytes) (indices : list nat) (flags : list bool) (n : nat)
    : list bool * nat * list Packet :=
  match indices with
  | [] => (flags, n, [])
  | i :: rest =>
      if bool_decide (nth i (part_hashes f) [] ∈ wanted) then
        let '(flags, n) := if nth i flags true then (flags, n) else (<[i := true]> flags, S n) in
        let '(flags, n, ps) := send_parts f wanted rest flags n in
        (flags, n, match parts f !! i with Some p => p :: ps | None => ps end)
      else send_parts f wanted rest flags n
  end.

(** Where the last known map hash is: the index behind it, or the end. *)
Fixpoint find_part_index (hs : list bytes) (last : bytes) (index : nat) : nat :=
  match hs with
  | [] => index
  | h :: hs' => if bool_decide (h = last) then S index else find_part_index hs' last (S index)
  end.

Definition hashmap_update_data (f : fixed) (segment : nat) : bytes :=
  concat (slice (segment * HASHMAP_MAX_LEN) (((segment + 1) * HASHMAP_MAX_LEN) `min` length (parts f)) (part_hashes f)).

(** What follows when the receiver asks for more of the hashmap; [false]: the
    transfer was cancelled. *)
Definition send_hashmap (now : f64) (link : Link.t) (iv last : bytes) (start stop : nat) (o : t)
    : option (bool * t * list Packet) :=
  let f := fx o in
  let part_index := find_part_index (slice start stop (part_hashes f)) last start in
  let o := set_height (part_index - (1 + Z.to_nat WINDOW_MAX)) o in
  if negb (part_index mod HASHMAP_MAX_LEN =? 0)%nat then Some (false, set_status Failed o, [])
  else
    let segment := (part_index / HASHMAP_MAX_LEN)%nat in
    let hashmap := hashmap_update_data f segment in
    if bool_decide (hashmap = []) then Some (false, set_status Failed o, [])
    else
      r ← context_packet link iv
            (hash f ++ write_array_len 2 ++ write_uint (Z.of_nat segment) ++ write_bin hashmap) CtxResourceHashUpdate;
      Some (match r with
            | Ok p => (true, set_activity now (last_part_sent o) o, [p])
            | Err _ => (true, o, [])
            end).

Definition request (now : f64) (link : Link.t) (iv request_data : bytes) (o : t) : option (t * list Packet) :=
  let f := fx o in
  let o := match adv_sent o, rtt o with
           | Some sent, None => set_times (Some (f64_sub now sent)) (adv_sent o) o
           | _, _ => o
           end in
  let o := set_retries (max_retries f) (set_status Transferring o) in
  let wants_more := bool_decide (head request_data = Some HASHMAP_IS_EXHAUSTED) in
  let pad := if wants_more then (1 + MAPHASH_LEN)%nat else 1%nat in
  if (length request_data <? pad + 32)%nat then Some (o, [])
  else
    let map_hashes := chunks4 (drop (pad + 32) request_data) in
    let start := receiver_min_consecutive_height o in
    let stop := ((start + COLLISION_GUARD_SIZE) `min` length (parts f))%nat in
    let '(flags, n, ps) := send_parts f map_hashes (seq start (stop - start)) (part_sent o) (sent_parts o) in
    let o := set_sent flags n o in
    let o := match ps with [] => o | _ => set_activity now now o end in
    '(go, o, hmu) ← (if wants_more then send_hashmap now link iv (slice 1 (1 + MAPHASH_LEN) request_data) start stop o
                     else Some (true, o, []));
    Some (if negb go then (o, ps ++ hmu)
          else if (sent_parts o =? length (parts f))%nat
          then (set_retries 3 (set_status AwaitingProof o), ps ++ hmu)
          else (o, ps ++ hmu)).

(** ** Following segments *)
Definition prepare_next_segment (now : f64) (draw : Hash * bytes) (draws : list (Hash * bytes)) (link : Link.t) (o : t)
    : option (result (option t) * t) :=
  let f := fx o in
  if negb (split f) || (total_segments f <=? segment_index f) then Some (Ok None, o)
  else
    match source o with
    | None => Some (Err (ResourceMsg "resource source missing"), o)
    | Some src =>
        let '(start, stop) := segment_range (total_size f) (segment_index f + 1) in
        if total_size f <=? Z.of_nat start then Some (Ok None, o)
        else
          match read_range src start stop with
          | Err e => Some (Err e, o)
          | Ok segment_data =>
              let opts := mkOptions (auto_compress f) (auto_compress_limit f) None (Some (timeout f))
                            (request_id f) (is_response f) in
              r ← from_segment_bytes now draw draws segment_data src (input_len f) (total_size f) (total_segments f)
                    (segment_index f + 1) (Some (original_hash f)) link opts (has_metadata f) (metadata_size f);
              Some (match r with
                    | Ok next => (Ok (Some next), set_source None (next_segment o) o)
                    | Err e => (Err e, o)
                    end)
          end
    end.

Definition take_next_segment (o : t) : option t * t := (next_segment o, set_source (source o) None o).

(** ** Proofs and cancelling *)
Definition validate_proof (proof_data : bytes) (o : t) : bool * t :=
  if (length proof_data =? 64)%nat && bool_decide (drop 32 proof_data = expected_proof (fx o))
  then (true, set_status Complete o) else (false, o).

Definition cancel_packet (link : Link.t) (iv : bytes) (o : t) : option (t * list Packet) :=
  r ← context_packet link iv (hash (fx o)) CtxResourceInitiatorCancel;
  Some (set_status Failed o, match r with Ok p => [p] | Err _ => [] end).

(** ** The watchdog *)
Definition max_extra_wait : f64 :=
  fold_left (fun acc r => f64_add acc (f64_mul (f64_of_Z (r + 1)) PER_RETRY_DELAY)) (seqZ 0 MAX_RETRIES) (f64_of_Z 0).

(** The packet hash asked of the network when the proof does not come. *)
Definition expected_packet_hash (link : Link.t) (f : fixed) : Hash :=
  Hash_new_from_slice (sha256 ([0x0f] ++ Link.id link ++ [PacketContext_as_u8 CtxResourceProof]
                                 ++ hash f ++ expected_proof f)).

Definition current_rtt (link : Link.t) (o : t) : f64 := default (as_secs_f64 (Link.rtt link)) (rtt o).

Definition check_advertised (now : f64) (link : Link.t) (iv : bytes) (o : t) : option (bool * t * list Packet) :=
  let sent := default now (adv_sent o) in
  if f_lt (f64_add (f64_add sent (timeout (fx o))) PROCESSING_GRACE) now then
    if retries_left o =? 0 then Some (true, set_status Failed o, [])
    else
      '(o, ps) ← resend_advertisement now link iv (set_retries (retries_left o - 1) o);
      Some (false, o, ps)
  else Some (false, o, []).

Definition check_transferring (now : f64) (link : Link.t) (o : t) : bool * t :=
  let max_wait := f64_add (f64_add (f64_mul (f64_mul (current_rtt link o) (timeout_factor o))
                                      (f64_of_Z (max_retries (fx o)))) (sender_grace_time (fx o))) max_extra_wait in
  if f_lt (f64_add (last_activity o) max_wait) now then (true, set_status Failed o) else (false, o).

Definition check_awaiting_proof (now : f64) (link : Link.t) (iv : bytes) (o : t) : option (bool * t * list Packet) :=
  let o := set_timeout_factor PROOF_TIMEOUT_FACTOR o in
  let wait := f64_add (f64_mul (current_rtt link o) (timeout_factor o)) (sender_grace_time (fx o)) in
  if f_lt (f64_add (last_part_sent o) wait) now then
    if retries_left o =? 0 then Some (true, set_status Failed o, [])
    else
      let o := set_retries (retries_left o - 1) o in
      r ← context_packet link iv (expected_packet_hash link (fx o)) CtxCacheRequest;
      Some (false, set_activity (last_activity o) now o, match r with Ok p => [p] | Err _ => [] end)
  else Some (false, o, []).

(** Whether the resource failed, and what is sent. *)
Definition check (now : f64) (link : Link.t) (iv : bytes) (o : t) : option (bool * t * list Packet) :=
  match status o with
  | Advertised => check_advertised now link iv o
  | Transferring => let '(failed, o) := check_transferring now link o in Some (failed, o, [])
  | AwaitingProof => check_awaiting_proof now link iv o
  | _ => Some (false, o, [])
  end.

Definition progress (o : t) : f64 :=
  let f := fx o in
  let nz (n : nat) := f64_of_Z (Z.of_nat n) in
  if bool_decide (status o = Complete) && (segment_index f =? total_segments f) then f64_of_Z 1
  else if negb (split f) then f64_min (f64_div (nz (sent_parts o)) (nz (length (parts f)))) (f64_of_Z 1)
  else
    let max_parts := f_cast 0 (2 ^ 64 - 1) (f64_ceil (f64_div (f64_of_Z MAX_EFFICIENT_SIZE) (f64_of_Z (sdu f)))) in
    let current := Z.of_nat (length (parts f)) in
    let factor := if current <? max_parts then f64_div (f64_of_Z max_parts) (f64_of_Z current) else f64_of_Z 1 in
    let processed := f64_add (f64_mul (f64_of_Z (segment_index f - 1)) (f64_of_Z max_parts))
                       (f64_mul (nz (sent_parts o)) factor) in
    f64_min (f64_div processed (f64_mul (f64_of_Z (total_segments f)) (f64_of_Z max_parts))) (f64_of_Z 1).


(** ** Lemmas *)

(** No two of [n + 1] neighbours are the same. *)
Definition distinct_within (n : nat) (hs : list bytes) : Prop :=
  forall i j x, (i < j)%nat -> (j - i <= n)%nat -> hs !! i = Some x -> hs !! j <> Some x.

Lemma distinct_within_nil n : distinct_within n [].
Proof. by intros i j x _ _ E. Qed.

Lemma distinct_within_snoc n pre x :
  distinct_within n pre -> x ∉ drop (length pre - n) pre -> distinct_within n (pre ++ [x]).
Proof.
  intros Hd Hx i j y Hij Hn Ei Ej. destruct (decide (j < length pre)%nat) as [Hj|Hj].
  - rewrite lookup_app_l in Ei, Ej by lia. exact (Hd i j y Hij Hn Ei Ej).
  - pose proof (lookup_lt_Some _ _ _ Ej) as Hlt. rewrite length_app in Hlt. simpl in Hlt.
    assert (j = length pre) as -> by lia. rewrite lookup_app_l in Ei by lia.
    rewrite lookup_app_r, Nat.sub_diag in Ej by lia. injection Ej as ->.
    apply Hx, list_elem_of_lookup. exists (i - (length pre - n))%nat. rewrite lookup_drop.
    by replace (length pre - n + (i - (length pre - n)))%nat with i by lia.
Qed.

Lemma guard_step pre (x : bytes) :
  let guard := drop (length pre - COLLISION_GUARD_SIZE) pre ++ [x] in
  (if (COLLISION_GUARD_SIZE <? length guard)%nat then drop 1 guard else guard) =
    drop (length (pre ++ [x]) - COLLISION_GUARD_SIZE) (pre ++ [x]).
Proof.
  cbv zeta. rewrite !length_app, length_drop. cbn [length].
  destruct (Nat.ltb_spec COLLISION_GUARD_SIZE (length pre - (length pre - COLLISION_GUARD_SIZE) + 1)).
  - rewrite <- drop_app_le by lia. rewrite drop_drop. f_equal. lia.
  - replace (length pre - COLLISION_GUARD_SIZE)%nat with 0%nat by lia.
    replace (length pre + 1 - COLLISION_GUARD_SIZE)%nat with 0%nat by lia. done.
Qed.

Lemma map_parts_spec link random chunks pre ps hs :
  map_parts link random (drop (length pre - COLLISION_GUARD_SIZE) pre) chunks = Mapped ps hs ->
  distinct_within COLLISION_GUARD_SIZE pre ->
  hs = (fun c => map_hash c random) <$> chunks /\ distinct_within COLLISION_GUARD_SIZE (pre ++ hs) /\
  Forall2 (fun c p => raw_packet link c Data CtxResource = Ok p) chunks ps.
Proof.
  revert pre ps hs. induction chunks as [|c chunks IH]; intros pre ps hs E Hd; cbn [map_parts] in E.
  { injection E as <- <-. rewrite app_nil_r. by repeat split. }
  case_bool_decide as Hin; [done|]. pose proof (guard_step pre (map_hash c random)) as G. cbv zeta in G. rewrite G in E.
  destruct (raw_packet link c Data CtxResource) as [p|] eqn:Ep; [|done].
  destruct (map_parts _ _ _ chunks) as [| |ps' hs'] eqn:E'; [done..|]. injection E as <- <-.
  apply IH in E' as (-> & Hd' & Hf); [|by apply distinct_within_snoc].
  split; [done|]. rewrite <- app_assoc in Hd'. split; [done|]. by constructor.
Qed.


(** *** Cutting the stream *)
Lemma chunk_list_prefix sdu e n :
  concat (chunk_list sdu e (length e) n) = take (n * sdu) e.
Proof.
  unfold chunk_list. induction n as [|n IH]; [by rewrite take_0|].
  rewrite seq_S, fmap_app, concat_app, IH. cbn [fmap list_fmap concat Nat.add]. rewrite app_nil_r. unfold slice.
  rewrite take_take_drop. destruct (decide (length e <= (n + 1) * sdu)%nat).
  - rewrite !take_ge by lia. done.
  - f_equal. lia.
Qed.

Lemma ceil_div_bounds n d : (0 < d)%nat -> (n <= (n + d - 1) / d * d)%nat /\ (0 < n -> ((n + d - 1) / d - 1) * d < n)%nat.
Proof.
  intros Hd. pose proof (Nat.div_mod (n + d - 1) d ltac:(lia)) as E.
  pose proof (Nat.mod_upper_bound (n + d - 1) d ltac:(lia)). split; nia.
Qed.

Definition total_parts_of (sdu size : nat) : nat := ((size + sdu - 1) / sdu)%nat.

Lemma chunk_list_spec sdu e :
  (0 < sdu)%nat ->
  let cs := chunk_list sdu e (length e) (total_parts_of sdu (length e)) in
  concat cs = e /\ length cs = total_parts_of sdu (length e) /\ Forall (fun c => (length c <= sdu)%nat) cs.
Proof.
  intros Hs cs. pose proof (ceil_div_bounds (length e) sdu Hs) as [Hc _]. unfold cs. split; [|split].
  - rewrite chunk_list_prefix. by apply take_ge.
  - unfold chunk_list. by rewrite length_fmap, length_seq.
  - apply Forall_fmap, list.Forall_forall. intros i _. unfold compose, slice. rewrite length_take. lia.
Qed.

(** *** Encrypting the stream *)
Definition stream_token (link : Link.t) (iv text : bytes) : bytes := token_of (derived_fernet (Link.derived_key link)) iv text.

Lemma encrypt_alloc_spec link iv text :
  length iv = IV_KEY_SIZE ->
  encrypt_alloc link iv text [] = Some (Ok (length (stream_token link iv text), stream_token link iv text)).
Proof.
  intros Hiv. unfold encrypt_alloc, Link_encrypt, PrivateIdentity_encrypt_derived.
  rewrite Fernet_encrypt_fits; [done|done|]. rewrite pkcs7_pad_length.
  pose proof (Nat.div_mod (length text) 16 ltac:(lia)).
  unfold FERNET_OVERHEAD_SIZE, IV_KEY_SIZE, HMAC_OUT_SIZE, Token.AES128_BLOCKSIZE, TOKEN_OVERHEAD in *. lia.
Qed.

Lemma stream_token_length link iv iv' text text' :
  length iv = IV_KEY_SIZE -> length iv' = IV_KEY_SIZE -> length text = length text' ->
  length (stream_token link iv text) = length (stream_token link iv' text').
Proof.
  intros Hi Hi' E. unfold stream_token. rewrite !token_of_length, !pkcs7_pad_length by done. by rewrite E.
Qed.

(** *** What the loop finds *)
Definition draws_ok (draws : list (Hash * bytes)) : Prop :=
  Forall (fun d => length d.1 = HASH_SIZE /\ all_u8 d.1 /\ length d.2 = IV_KEY_SIZE) draws.

(** The parts of a stream encrypted with some of the draws. *)
Definition mapped (link : Link.t) (prepared : bytes) (sdu : nat) (random : bytes) (ps : list Packet) (hs : list bytes)
    : Prop :=
  exists iv, length iv = IV_KEY_SIZE /\ length random = RANDOM_HASH_SIZE /\ all_u8 random /\
    let e := stream_token link iv (random ++ prepared) in
    let cs := chunk_list sdu e (length e) (total_parts_of sdu (length e)) in
    hs = (fun c => map_hash c random) <$> cs /\ distinct_within COLLISION_GUARD_SIZE hs /\
    Forall2 (fun c p => raw_packet link c Data CtxResource = Ok p) cs ps.

Lemma map_loop_spec link prepared sdu draws random iv size r ps hs :
  draws_ok draws -> length iv = IV_KEY_SIZE -> length random = RANDOM_HASH_SIZE -> all_u8 random ->
  size = length (stream_token link iv (random ++ prepared)) ->
  map_loop link prepared sdu size (total_parts_of sdu size) random (stream_token link iv (random ++ prepared)) draws
    = Some (Ok (r, ps, hs)) ->
  mapped link prepared sdu r ps hs /\ size = length (stream_token link iv (r ++ prepared)).
Proof.
  revert random iv. induction draws as [|[h iv'] draws IH]; intros random iv Hd Hiv Hr Hu Hsize E; cbn [map_loop] in E.
  all: destruct (map_parts _ _ _ _) as [| |ps' hs'] eqn:Em; try done.
  1, 3: injection E as <- <- <-; split; [|done]; subst size; exists iv; split; [done|]; split; [done|]; split; [done|]; cbv zeta;
    destruct (map_parts_spec link random _ [] ps' hs' Em (distinct_within_nil _)) as (? & ? & ?); by repeat split.
  apply Forall_cons_iff in Hd as [(Hh & Hhu & Hiv') Hd]. cbn [fst snd] in Hh, Hhu, Hiv'.
  rewrite encrypt_alloc_spec in E by done. cbn [mbind option_bind] in E. rewrite (take_ge (stream_token _ _ _)) in E by done.
  assert (length (take RANDOM_HASH_SIZE h) = RANDOM_HASH_SIZE) as Hr'.
  { rewrite length_take, Hh. reflexivity. }
  assert (all_u8 (take RANDOM_HASH_SIZE h)) as Hu' by by apply Forall_take.
  eapply IH in E as [Hm Hs]; [|done..|].
  - split; [done|]. rewrite Hs. apply stream_token_length; try done.
  - rewrite Hsize. apply stream_token_length; [done..|]. rewrite !length_app. lia.
Qed.

End Outgoing.
End Outgoing.
