(* ===== verification/ResourceIn.v ===== *)
(** * Receiving a resource ([src/src/resource/inbound.rs])

    Accepting an advertisement, hashmap updates, parts, requests for the next
    parts, assembly and proof, and the receiver's watchdog with its window and
    rate adaptation.  Times are [f64] seconds. *)

From S2P Require Import Prelude Float Buffer Crypto Hash Packet Token Identity Msgpack Destination Links Resource.

Module Incoming.

(** ** State

    What the advertisement fixes, the transfer itself, the window and the
    clocks; the fields that nothing reads are left out. *)
Record fixed := mkFixed {
  link_id : LinkId;
  hash : Hash;
  original_hash : Hash;
  random_hash : bytes;
  size : Z;
  total_size : Z;
  compressed : bool;
  encrypted : bool;
  split : bool;
  has_metadata : bool;
  segment_index : Z;
  total_segments : Z;
  request_id : option AddressHash;
  is_response : bool;
  sdu : Z;
  total_parts : nat;
  previous_eifr : option f64;
  max_retries : Z;
  window_flexibility : Z;
}.

Record windows := mkWindows {
  window : Z;
  window_max : Z;
  window_min : Z;
  fast_rate_rounds : Z;
  very_slow_rate_rounds : Z;
}.

Record clocks := mkClocks {
  last_activity : f64;
  req_sent : f64;
  req_sent_bytes : Z;
  req_resp : option f64;
  rtt : option f64;
  rtt_rxd_bytes : Z;
  rtt_rxd_bytes_at_part_req : Z;
  req_resp_rtt_rate : f64;
  req_data_rtt_rate : f64;
  eifr : option f64;
  part_timeout_factor : f64;
}.

Record t := mk {
  fx : fixed;
  win : windows;
  clk : clocks;
  status : ResourceStatus;
  received_count : nat;
  outstanding_parts : nat;
  parts : list (option bytes);
  hashmap : list (option bytes);
  hashmap_height : nat;
  waiting_for_hmu : bool;
  consecutive_completed_height : Z;
  retries_left : Z;
  assembled : option bytes;
  metadata : option bytes;
}.

Definition set_status (s : ResourceStatus) (r : t) : t :=
  mk (fx r) (win r) (clk r) s (received_count r) (outstanding_parts r) (parts r) (hashmap r) (hashmap_height r)
    (waiting_for_hmu r) (consecutive_completed_height r) (retries_left r) (assembled r) (metadata r).

Definition set_win (w : windows) (r : t) : t :=
  mk (fx r) w (clk r) (status r) (received_count r) (outstanding_parts r) (parts r) (hashmap r) (hashmap_height r)
    (waiting_for_hmu r) (consecutive_completed_height r) (retries_left r) (assembled r) (metadata r).

Definition set_clk (c : clocks) (r : t) : t :=
  mk (fx r) (win r) c (status r) (received_count r) (outstanding_parts r) (parts r) (hashmap r) (hashmap_height r)
    (waiting_for_hmu r) (consecutive_completed_height r) (retries_left r) (assembled r) (metadata r).

Definition set_hashmap (hm : list (option bytes)) (height : nat) (r : t) : t :=
  mk (fx r) (win r) (clk r) (status r) (received_count r) (outstanding_parts r) (parts r) hm height
    (waiting_for_hmu r) (consecutive_completed_height r) (retries_left r) (assembled r) (metadata r).

Definition set_waiting (b : bool) (r : t) : t :=
  mk (fx r) (win r) (clk r) (status r) (received_count r) (outstanding_parts r) (parts r) (hashmap r) (hashmap_height r)
    b (consecutive_completed_height r) (retries_left r) (assembled r) (metadata r).

Definition set_outstanding (n : nat) (r : t) : t :=
  mk (fx r) (win r) (clk r) (status r) (received_count r) n (parts r) (hashmap r) (hashmap_height r)
    (waiting_for_hmu r) (consecutive_completed_height r) (retries_left r) (assembled r) (metadata r).

Definition set_retries (n : Z) (r : t) : t :=
  mk (fx r) (win r) (clk r) (status r) (received_count r) (outstanding_parts r) (parts r) (hashmap r) (hashmap_height r)
    (waiting_for_hmu r) (consecutive_completed_height r) n (assembled r) (metadata r).

Definition set_assembled (a m : option bytes) (r : t) : t :=
  mk (fx r) (win r) (clk r) (status r) (received_count r) (outstanding_parts r) (parts r) (hashmap r) (hashmap_height r)
    (waiting_for_hmu r) (consecutive_completed_height r) (retries_left r) a m.

Definition set_last_activity (now : f64) (c : clocks) : clocks :=
  mkClocks now (req_sent c) (req_sent_bytes c) (req_resp c) (rtt c) (rtt_rxd_bytes c) (rtt_rxd_bytes_at_part_req c)
    (req_resp_rtt_rate c) (req_data_rtt_rate c) (eifr c) (part_timeout_factor c).

(** ** The hashmap *)

(** The loop over the given map hashes from index [idx] on. *)
Fixpoint fill_hashmap (hm : list (option bytes)) (height idx : nat) (hs : list bytes) : list (option bytes) * nat :=
  match hs with
  | [] => (hm, height)
  | h :: hs' =>
      if (length hm <=? idx)%nat then (hm, height)
      else
        let height := match hm !! idx with Some None => S height | _ => height end in
        fill_hashmap (<[idx := Some h]> hm) height (S idx) hs'
  end.

(** The map hashes of a hashmap: its complete groups of four bytes. *)
Fixpoint map_hashes (l : bytes) : list bytes :=
  match l with
  | a :: b :: c :: d :: l' => [a; b; c; d] :: map_hashes l'
  | _ => []
  end.

Definition hashmap_update (segment : Z) (data : bytes) (r : t) : t :=
  if bool_decide (status r = Failed) then r
  else
    let r := set_status Transferring r in
    let hashes := map_hashes data in
    let max_segment := Z.of_nat (length (hashmap r) / HASHMAP_MAX_LEN) + 1 in
    if max_segment <? segment then r
    else
      let '(hm, height) := fill_hashmap (hashmap r) (hashmap_height r) (Z.to_nat segment * HASHMAP_MAX_LEN) hashes in
      let r := set_hashmap hm height r in
      match hashes with
      | [] => set_status Failed r
      | _ => set_waiting false r
      end.

Section Incoming.
Context `{Sha256} `{Hkdf} `{X25519} `{CbcCipher} `{HmacSha256}.
Context `{Rmp} `{RmpCursor} `{Bz2}.

(** [hash + msgpack([segment, hashmap])] *)
Definition hashmap_update_packet (now : f64) (plaintext : bytes) (r : t) : t :=
  if bool_decide (status r = Failed) then r
  else if negb (waiting_for_hmu r) then r
  else
    let r := set_retries (max_retries (fx r)) (set_clk (set_last_activity now (clk r)) r) in
    if (length plaintext <? 32)%nat then r
    else
      match rmp_array_len (drop 32 plaintext) with
      | Some (len, cursor) =>
          if negb (len =? 2) then r
          else
            match rmp_int cursor with
            | None => r
            | Some (segment, cursor) =>
                match rmp_bin_len cursor with
                | None => r
                | Some (len, cursor) =>
                    if (length cursor <? Z.to_nat len)%nat then r
                    else hashmap_update segment (take (Z.to_nat len) cursor) r
                end
            end
      | None => r
      end.

(** ** Accepting *)
Definition accept (now : f64) (plaintext : bytes) (link : Link.t) : option (result t) :=
  match adv_unpack plaintext with
  | Err e => Some (Err e)
  | Ok adv =>
      let sdu := if 0 <? Link.mtu link then Links.sdu link else SDU in
      if sdu =? 0 then None
      else
        let total_parts := Z.to_nat (Z.max 1 ((adv_transfer_size adv + sdu - 1) / sdu)) in
        let f := mkFixed (Link.id link) (adv_hash adv) (adv_original_hash adv) (adv_random_hash adv)
                   (adv_transfer_size adv) (adv_data_size adv) (adv_compressed adv) (adv_encrypted adv) (adv_split adv)
                   (adv_has_metadata adv) (adv_segment_index adv) (adv_total_segments adv) (adv_request_id adv)
                   (adv_is_response adv) sdu total_parts (Link.last_resource_eifr link) MAX_RETRIES WINDOW_FLEXIBILITY in
        let w := mkWindows (default WINDOW (Link.last_resource_window link)) WINDOW_MAX_SLOW WINDOW_MIN 0 0 in
        let zero := f64_of_Z 0 in
        let c := mkClocks now zero 0 None None 0 0 zero zero None PART_TIMEOUT_FACTOR in
        Some (Ok (mk f w c Transferring 0 0 (replicate total_parts None) (replicate total_parts None) 0 false (-1)
                    MAX_RETRIES None None))
  end.

(** ** Requests *)

(** The loop over the window: the requested hashes, how many, and whether the
    hashmap ran out. *)
Fixpoint collect (r : t) (pn : nat) (count : nat) (i : nat) : list bytes * nat * bool :=
  match count with
  | O => ([], i, false)
  | S count' =>
      if (length (parts r) <=? pn)%nat then ([], i, false)
      else
        match parts r !! pn with
        | Some None =>
            match nth pn (hashmap r) None with
            | Some h =>
                if window (win r) <=? Z.of_nat (S i) then ([h], S i, false)
                else let '(hs, n, ex) := collect r (S pn) count' (S i) in (h :: hs, n, ex)
            | None => ([], i, true)
            end
        | _ => if window (win r) <=? Z.of_nat i then ([], i, false) else collect r (S pn) count' i
        end
  end.

(** The request packet was made. *)
Definition note_request (now : f64) (len : nat) (c : clocks) : clocks :=
  mkClocks now now (19 + Z.of_nat len) None (rtt c) (rtt_rxd_bytes c) (rtt_rxd_bytes c)
    (req_resp_rtt_rate c) (req_data_rtt_rate c) (eifr c) (part_timeout_factor c).

Definition send_request (now : f64) (link : Link.t) (iv : bytes) (hmu_part : bytes) (hs : list bytes) (r : t)
    : option (t * list Packet) :=
  p ← context_packet link iv (hmu_part ++ hash (fx r) ++ concat hs) CtxResourceRequest;
  Some (match p with
        | Ok p => (set_clk (note_request now (length (payload p)) (clk r)) r, [p])
        | Err _ => (set_status Failed r, [])
        end).

Definition request_next (now : f64) (link : Link.t) (iv : bytes) (r : t) : option (t * list Packet) :=
  if bool_decide (status r = Failed) || waiting_for_hmu r then Some (r, [])
  else
    let pn := Z.to_nat (Z.max 0 (consecutive_completed_height r + 1)) in
    let '(hs, n, exhausted) := collect r pn (Z.to_nat (window (win r))) 0 in
    let r := set_outstanding n r in
    if exhausted then
      if (hashmap_height r =? 0)%nat then Some (set_status Failed r, [])
      else
        match nth (hashmap_height r - 1) (hashmap r) None with
        | None => Some (set_status Failed r, [])
        | Some last => send_request now link iv (HASHMAP_IS_EXHAUSTED :: last) hs (set_waiting true r)
        end
    else send_request now link iv [HASHMAP_IS_NOT_EXHAUSTED] hs r.

(** ** Parts *)

(** The response time of the first part after a request. *)
Definition new_rtt (sample : f64) (link : Link.t) (current : option f64) : option f64 :=
  match current with
  | None => Some (as_secs_f64 (Link.rtt link))
  | Some x =>
      let step := f64_mul x (f64_dec 5 2) in
      if f_lt sample x then Some (f64_max (f64_sub x step) sample)
      else if f_lt x sample then Some (f64_min (f64_add x step) sample)
      else Some x
  end.

Definition count_fast (rate : f64) (w : windows) : windows :=
  if f_lt RATE_FAST rate && (fast_rate_rounds w <? FAST_RATE_THRESHOLD) then
    let rounds := fast_rate_rounds w + 1 in
    mkWindows (window w) (if rounds =? FAST_RATE_THRESHOLD then WINDOW_MAX_FAST else window_max w) (window_min w)
      rounds (very_slow_rate_rounds w)
  else w.

Definition count_very_slow (rate : f64) (w : windows) : windows :=
  if (fast_rate_rounds w =? 0) && f_lt rate RATE_VERY_SLOW && (very_slow_rate_rounds w <? VERY_SLOW_RATE_THRESHOLD) then
    let rounds := very_slow_rate_rounds w + 1 in
    mkWindows (window w) (if rounds =? VERY_SLOW_RATE_THRESHOLD then WINDOW_MAX_VERY_SLOW else window_max w) (window_min w)
      (fast_rate_rounds w) rounds
  else w.

Definition note_response (now : f64) (len : nat) (link : Link.t) (r : t) : t :=
  let c := clk r in
  if bool_decide (req_resp c = None) && f_lt (f64_of_Z 0) (req_sent c) then
    let sample := f64_sub now (req_sent c) in
    let rate := f64_div (f64_of_Z (Z.of_nat len + req_sent_bytes c)) sample in
    let positive := f_lt (f64_of_Z 0) sample in
    let c := mkClocks (last_activity c) (req_sent c) (req_sent_bytes c) (Some now) (new_rtt sample link (rtt c))
               (rtt_rxd_bytes c) (rtt_rxd_bytes_at_part_req c) (if positive then rate else req_resp_rtt_rate c)
               (req_data_rtt_rate c) (eifr c) PART_TIMEOUT_FACTOR_AFTER_RTT in
    set_win (if positive then count_fast rate (win r) else win r) (set_clk c r)
  else r.

(** The first index in the searched range whose map hash is the part's. *)
Fixpoint find_slot (hm : list (option bytes)) (h : bytes) (i : nat) (indices : nat) : option nat :=
  match indices with
  | O => None
  | S n => if bool_decide (nth i hm None = Some h) then Some i else find_slot hm h (S i) n
  end.

(** The completed height moves over the parts that follow. *)
Fixpoint advance_height (l : list (option bytes)) (cp : Z) (height : Z) : Z :=
  match l with
  | Some _ :: l' => advance_height l' (cp + 1) cp
  | _ => height
  end.

Definition count_bytes (n : nat) (c : clocks) : clocks :=
  mkClocks (last_activity c) (req_sent c) (req_sent_bytes c) (req_resp c) (rtt c) (rtt_rxd_bytes c + Z.of_nat n)
    (rtt_rxd_bytes_at_part_req c) (req_resp_rtt_rate c) (req_data_rtt_rate c) (eifr c) (part_timeout_factor c).

Definition store_part (i : nat) (data : bytes) (r : t) : t :=
  match parts r !! i with
  | Some None =>
      let parts := <[i := Some data]> (parts r) in
      let height := if Z.of_nat i =? consecutive_completed_height r + 1 then Z.of_nat i
                    else consecutive_completed_height r in
      let height := advance_height (drop (S i) parts) (Z.of_nat i + 1) height in
      mk (fx r) (win r) (count_bytes (length data) (clk r)) (status r) (S (received_count r))
        (outstanding_parts r - 1) parts (hashmap r) (hashmap_height r) (waiting_for_hmu r) height
        (retries_left r) (assembled r) (metadata r)
  | _ => r
  end.

(** All requested parts are there: the window grows and the rate is measured. *)
Definition grow_window (flexibility : Z) (w : windows) : windows :=
  if window w <? window_max w then
    let window := window w + 1 in
    mkWindows window (window_max w)
      (if flexibility - 1 <? Z.max 0 (window - window_min w) then window_min w + 1 else window_min w)
      (fast_rate_rounds w) (very_slow_rate_rounds w)
  else w.

Definition measure_rate (now : f64) (r : t) : t :=
  let c := clk r in
  let elapsed := f64_sub now (req_sent c) in
  if f_lt (f64_of_Z 0) (req_sent c) && f_lt (f64_of_Z 0) elapsed then
    let rate := f64_div (f64_of_Z (rtt_rxd_bytes c - rtt_rxd_bytes_at_part_req c)) elapsed in
    let c := mkClocks (last_activity c) (req_sent c) (req_sent_bytes c) (req_resp c) (rtt c) (rtt_rxd_bytes c)
               (rtt_rxd_bytes c) (req_resp_rtt_rate c) rate (eifr c) (part_timeout_factor c) in
    set_win (count_very_slow rate (count_fast rate (win r))) (set_clk c r)
  else r.

(** [true]: all parts have arrived. *)
Definition receive_part (now : f64) (p : Packet) (link : Link.t) (iv : bytes) (r : t) : option (bool * t * list Packet) :=
  if bool_decide (status r = Failed) then Some (false, r, [])
  else
    let data := payload p in
    let r := set_retries (max_retries (fx r)) (set_clk (set_last_activity now (clk r)) r) in
    let r := set_status Transferring (note_response now (length data) link r) in
    let start := Z.to_nat (Z.max 0 (consecutive_completed_height r)) in
    let stop := ((start + Z.to_nat (window (win r))) `min` length (hashmap r))%nat in
    let r := match find_slot (hashmap r) (map_hash data (random_hash (fx r))) start (stop - start) with
             | Some i => store_part i data r
             | None => r
             end in
    if (received_count r =? total_parts (fx r))%nat && bool_decide (assembled r = None)
    then Some (true, set_status Assembling r, [])
    else if (outstanding_parts r =? 0)%nat then
      let r := measure_rate now (set_win (grow_window (window_flexibility (fx r)) (win r)) r) in
      '(r, ps) ← request_next now link iv r;
      Some (false, r, ps)
    else Some (false, r, []).

(** ** Assembly *)
Definition metadata_length (data : bytes) : nat :=
  Z.to_nat (Z.lor (Z.lor (Z.shiftl (nth 0 data 0) 16) (Z.shiftl (nth 1 data 0) 8)) (nth 2 data 0)).

(** Decrypted and decompressed: the data of the segment. *)
Definition open_stream (link : Link.t) (max_decompressed_size : Z) (r : t) : result bytes :=
  let stream := concat (omap (fun x => x) (parts r)) in
  decrypted ← (if encrypted (fx r) then
                 match Link_decrypt link stream (length stream + 256) with
                 | Ok d => Ok d
                 | Err _ => Err (ResourceMsg "resource decryption failed")
                 end
               else Ok stream);
  let payload := drop RANDOM_HASH_SIZE decrypted in
  if compressed (fx r) then decompress payload max_decompressed_size else Ok payload.

Definition assemble (link : Link.t) (max_decompressed_size : Z) (r : t) : result bytes * t :=
  match open_stream link max_decompressed_size r with
  | Err e => (Err e, r)
  | Ok data =>
      if negb (bool_decide (sha256 (data ++ random_hash (fx r)) = hash (fx r)))
      then (Err (ResourceMsg "resource hash mismatch"), set_status Corrupt r)
      else if has_metadata (fx r) && (segment_index (fx r) =? 1) then
        if (length data <? 3)%nat
        then (Err (ResourceMsg "metadata resource shorter than its length prefix"), set_status Corrupt r)
        else
          let n := metadata_length data in
          if (length data <? 3 + n)%nat
          then (Err (ResourceMsg "metadata length exceeds segment"), set_status Corrupt r)
          else (Ok (drop (3 + n) data), set_assembled (Some data) (Some (slice 3 (3 + n) data)) r)
      else (Ok data, set_assembled (Some data) (metadata r) r)
  end.

Definition prove (link : Link.t) (data : bytes) (r : t) : t * list Packet :=
  let proof_hash := sha256 (data ++ hash (fx r)) in
  match raw_packet link (hash (fx r) ++ proof_hash) Proof CtxResourceProof with
  | Ok p => (set_status Complete r, [p])
  | Err _ => (set_status Failed r, [])
  end.

(** [reject_packet], [cancel_packet] and [reject_packet_for] *)
Definition receiver_cancel (h : Hash) (link : Link.t) (iv : bytes) : option (list Packet) :=
  r ← context_packet link iv h CtxResourceReceiverCancel;
  Some (match r with Ok p => [p] | Err _ => [] end).

Definition cancel_packet (link : Link.t) (iv : bytes) (r : t) : option (list Packet) :=
  receiver_cancel (hash (fx r)) link iv.

Definition reject_packet_for (adv : ResourceAdvertisement) (link : Link.t) (iv : bytes) : option (list Packet) :=
  receiver_cancel (adv_hash adv) link iv.

Definition advertisement_of (r : t) : ResourceAdvertisement :=
  let f := fx r in
  let entries := (HASHMAP_MAX_LEN `min` length (hashmap r))%nat in
  mkAdvertisement (size f) (total_size f) (Z.of_nat (total_parts f)) (hash f) (random_hash f) (original_hash f)
    (segment_index f) (total_segments f) (request_id f)
    (flags_of (encrypted f) (compressed f) (split f) (has_metadata f) (request_id f) (is_response f))
    (concat (omap (fun x => x) (take entries (hashmap r)))).

(** ** The watchdog *)
Definition update_eifr (link : Link.t) (r : t) : t :=
  let c := clk r in
  let x := f64_max (default (as_secs_f64 (Link.rtt link)) (rtt c)) (f64_dec 1 4) in
  let rate := if negb (f_eq (req_data_rtt_rate c) (f64_of_Z 0)) then f64_mul (req_data_rtt_rate c) (f64_of_Z 8)
              else match previous_eifr (fx r) with
                   | Some prev => prev
                   | None => f64_div (f64_mul (f64_of_Z (Link.establishment_cost link)) (f64_of_Z 8)) x
                   end in
  set_clk (mkClocks (last_activity c) (req_sent c) (req_sent_bytes c) (req_resp c) (rtt c) (rtt_rxd_bytes c)
             (rtt_rxd_bytes_at_part_req c) (req_resp_rtt_rate c) (req_data_rtt_rate c) (Some rate)
             (part_timeout_factor c)) r.

(** What is left to wait; negative when the time is over. *)
Definition sleep_time (now : f64) (r : t) : f64 :=
  let c := clk r in
  let rate := f64_max (default (f64_of_Z 1) (eifr c)) (f64_dec 1 4) in
  let extra_wait := f64_mul (f64_of_Z (max_retries (fx r) - retries_left r)) PER_RETRY_DELAY in
  let part_size := f64_of_Z (sdu (fx r)) in
  if negb (f_eq (req_resp_rtt_rate c) (f64_of_Z 0)) then
    let hmu_wait := if waiting_for_hmu r || (outstanding_parts r =? 0)%nat
                    then f64_div (f64_mul (f64_mul part_size (f64_of_Z 8)) HMU_WAIT_FACTOR) rate else f64_of_Z 0 in
    let tof := f64_div (f64_mul (f64_mul (f64_of_Z (Z.of_nat (outstanding_parts r))) part_size) (f64_of_Z 8)) rate in
    f64_sub (f64_add (f64_add (f64_add (f64_add (last_activity c) (f64_mul (part_timeout_factor c) tof)) hmu_wait)
                        RETRY_GRACE_TIME) extra_wait) now
  else
    let first_wait := f64_mul (part_timeout_factor c) (f64_div (f64_mul (f64_of_Z 3) part_size) rate) in
    f64_sub (f64_add (f64_add (f64_add (last_activity c) first_wait) RETRY_GRACE_TIME) extra_wait) now.

(** The difference of two [usize] wraps, as in the release profile. *)
Definition shrink_window (flexibility : Z) (w : windows) : windows :=
  if window_min w <? window w then
    let window := window w - 1 in
    let wmax := if window_min w <? window_max w then
                  let wmax := window_max w - 1 in
                  if flexibility - 1 <? wrap 64 (wmax - window) then wmax - 1 else wmax
                else window_max w in
    mkWindows window wmax (window_min w) (fast_rate_rounds w) (very_slow_rate_rounds w)
  else w.

Definition check (now : f64) (link : Link.t) (iv : bytes) (r : t) : option (bool * t * list Packet) :=
  if negb (bool_decide (status r = Transferring)) then Some (false, r, [])
  else
    let r := update_eifr link r in
    if f_lt (sleep_time now r) (f64_of_Z 0) then
      if 0 <? retries_left r then
        let r := set_win (shrink_window (window_flexibility (fx r)) (win r)) r in
        '(r, ps) ← request_next now link iv (set_waiting false (set_retries (retries_left r - 1) r));
        Some (false, r, ps)
      else Some (true, set_status Failed r, [])
    else Some (false, r, []).

Definition progress (r : t) : f64 :=
  let f := fx r in
  let nz (n : nat) := f64_of_Z (Z.of_nat n) in
  if bool_decide (status r = Complete) && (segment_index f =? total_segments f) then f64_of_Z 1
  else if negb (split f) then f64_min (f64_div (nz (received_count r)) (nz (total_parts f))) (f64_of_Z 1)
  else
    let max_parts := f64_ceil (f64_div (f64_of_Z MAX_EFFICIENT_SIZE) (f64_of_Z (sdu f))) in
    let current := nz (total_parts f) in
    let factor := if f_lt current max_parts then f64_div max_parts current else f64_of_Z 1 in
    let processed := f64_add (f64_mul (f64_of_Z (segment_index f - 1)) max_parts) (f64_mul (nz (received_count r)) factor) in
    f64_min (f64_div processed (f64_mul (f64_of_Z (total_segments f)) max_parts)) (f64_dec 999 3).

Definition request_progress (r : t) : option (AddressHash * f64) :=
  if negb (is_response (fx r)) then None else (fun i => (i, progress r)) <$> request_id (fx r).

End Incoming.
End Incoming.
