(* ===== verification/ResourceManager.v ===== *)
(** * The resource manager ([src/src/resource/manager.rs])

    The resources of every link of a transport: accepting advertisements,
    routing requests, parts, hashmap updates, proofs and cancellations to the
    resource they name, joining the segments of a split resource, pending
    requests with their responses, and the watchdog sweep.

    What is sent on the two broadcast channels is logged in the state in order,
    as are the calls of the started callbacks.  A request handler is a function
    of the request, an accept callback a function of the advertisement.  Each
    handler reads the clock once.  Initialization vectors are given by the index
    of the resource in its list.  [rmpv::decode::read_value] is the class [Rmpv]. *)

From S2P Require Import Prelude Float Buffer Crypto Hash Packet Token Identity Msgpack Destination Links Resource.
From S2P Require Import ResourceOut ResourceIn.

Module Manager.

(** ** Data *)
Definition DEFAULT_MAX_DECOMPRESSED_SIZE : Z := 5 * 1024 * 1024.
Definition SPLIT_ASSEMBLY_TIMEOUT : f64 := f64_of_Z 300.
Definition SPLIT_ASSEMBLY_GRACE_BYTES : f64 := f64_of_Z 1024.

Inductive ResourceStrategy := StrategyNone | StrategyApp | StrategyAll.

Record RequestContext := mkContext {
  ctx_path_hash : AddressHash;
  ctx_data : bytes;
  ctx_request_id : AddressHash;
  ctx_link_id : LinkId;
  ctx_remote_identity : option Identity;
  ctx_requested_at : f64;
}.

Inductive RequestAllow := AllowNone | AllowAll | AllowList.

Record RequestHandlerConfig := mkHandlerConfig {
  allow : RequestAllow;
  allowed_list : list AddressHash;
  handler_auto_compress : bool;
  handler_auto_compress_limit : option Z;
}.

Definition RequestHandlerConfig_default : RequestHandlerConfig := mkHandlerConfig AllowAll [] true None.

(** A file is what its path holds; [None]: it cannot be opened. *)
Inductive RequestResponse :=
| Element (element : bytes)
| File (file : option bytes) (file_metadata : option bytes).

Record RequestOptions := mkRequestOptions {
  request_timeout : option f64;
  request_max_response_size : option Z;
}.

Record PendingRequest := mkPending {
  pending_link_id : LinkId;
  deadline : option f64;
  pending_timeout : option f64;
  pending_max_response_size : option Z;
}.

Record RegisteredHandler := mkHandler {
  invoke : RequestContext -> option RequestResponse;
  config : RequestHandlerConfig;
}.

Definition AsyncRequestHandler : Type := RequestContext -> option bytes.

Record SplitAssembly := mkAssembly {
  assembly_data : bytes;
  assembly_metadata : option bytes;
  next_index : Z;
  assembly_total_segments : Z;
  assembly_data_size : Z;
  assembly_last_activity : f64;
}.

Record ResourceEvent := mkEvent {
  event_link_id : LinkId;
  event_hash : Hash;
  event_status : ResourceStatus;
  event_progress : f64;
  event_data : option bytes;
  event_metadata : option bytes;
  event_advertisement : option ResourceAdvertisement;
}.

Inductive RequestEvent :=
| Response (request_id : AddressHash) (data : bytes) (metadata : option bytes)
| Progress (request_id : AddressHash) (progress : f64)
| RequestFailed (request_id : AddressHash).

Record RequestEventData := mkRequestEvent {
  request_link_id : LinkId;
  request_event : RequestEvent;
}.

Record t := mk {
  out : gmap LinkId (list Outgoing.t);
  incoming : gmap LinkId (list Incoming.t);
  strategies : gmap LinkId ResourceStrategy;
  default_strategy : ResourceStrategy;
  accept_callbacks : gmap LinkId (ResourceAdvertisement -> bool);
  started_callbacks : gset LinkId;
  started : list (LinkId * ResourceAdvertisement);
  request_handlers : gmap AddressHash (gmap AddressHash RegisteredHandler);
  pending_requests : gmap AddressHash PendingRequest;
  async_request_handlers : gmap AddressHash (gmap AddressHash AsyncRequestHandler);
  completed_responses : gmap AddressHash (option bytes);
  split_assembly : gmap Hash SplitAssembly;
  events : list ResourceEvent;
  request_events : list RequestEventData;
  max_decompressed_size : Z;
  max_request_size : option Z;
  max_response_size : option Z;
}.

Definition set_out (x : gmap LinkId (list Outgoing.t)) (m : t) : t :=
  mk x (incoming m) (strategies m) (default_strategy m) (accept_callbacks m) (started_callbacks m) (started m)
    (request_handlers m) (pending_requests m) (async_request_handlers m) (completed_responses m)
    (split_assembly m) (events m) (request_events m) (max_decompressed_size m) (max_request_size m)
    (max_response_size m).

Definition set_incoming (x : gmap LinkId (list Incoming.t)) (m : t) : t :=
  mk (out m) x (strategies m) (default_strategy m) (accept_callbacks m) (started_callbacks m) (started m)
    (request_handlers m) (pending_requests m) (async_request_handlers m) (completed_responses m)
    (split_assembly m) (events m) (request_events m) (max_decompressed_size m) (max_request_size m)
    (max_response_size m).

Definition set_strategies (x : gmap LinkId ResourceStrategy) (m : t) : t :=
  mk (out m) (incoming m) x (default_strategy m) (accept_callbacks m) (started_callbacks m) (started m)
    (request_handlers m) (pending_requests m) (async_request_handlers m) (completed_responses m)
    (split_assembly m) (events m) (request_events m) (max_decompressed_size m) (max_request_size m)
    (max_response_size m).

Definition set_default_strategy (x : ResourceStrategy) (m : t) : t :=
  mk (out m) (incoming m) (strategies m) x (accept_callbacks m) (started_callbacks m) (started m)
    (request_handlers m) (pending_requests m) (async_request_handlers m) (completed_responses m)
    (split_assembly m) (events m) (request_events m) (max_decompressed_size m) (max_request_size m)
    (max_response_size m).

Definition set_accept_callbacks (x : gmap LinkId (ResourceAdvertisement -> bool)) (m : t) : t :=
  mk (out m) (incoming m) (strategies m) (default_strategy m) x (started_callbacks m) (started m)
    (request_handlers m) (pending_requests m) (async_request_handlers m) (completed_responses m)
    (split_assembly m) (events m) (request_events m) (max_decompressed_size m) (max_request_size m)
    (max_response_size m).

Definition set_started_callbacks (x : gset LinkId) (m : t) : t :=
  mk (out m) (incoming m) (strategies m) (default_strategy m) (accept_callbacks m) x (started m)
    (request_handlers m) (pending_requests m) (async_request_handlers m) (completed_responses m)
    (split_assembly m) (events m) (request_events m) (max_decompressed_size m) (max_request_size m)
    (max_response_size m).

Definition set_started (x : list (LinkId * ResourceAdvertisement)) (m : t) : t :=
  mk (out m) (incoming m) (strategies m) (default_strategy m) (accept_callbacks m) (started_callbacks m) x
    (request_handlers m) (pending_requests m) (async_request_handlers m) (completed_responses m)
    (split_assembly m) (events m) (request_events m) (max_decompressed_size m) (max_request_size m)
    (max_response_size m).

Definition set_request_handlers (x : gmap AddressHash (gmap AddressHash RegisteredHandler)) (m : t) : t :=
  mk (out m) (incoming m) (strategies m) (default_strategy m) (accept_callbacks m) (started_callbacks m)
    (started m) x (pending_requests m) (async_request_handlers m) (completed_responses m) (split_assembly m)
    (events m) (request_events m) (max_decompressed_size m) (max_request_size m) (max_response_size m).

Definition set_pending (x : gmap AddressHash PendingRequest) (m : t) : t :=
  mk (out m) (incoming m) (strategies m) (default_strategy m) (accept_callbacks m) (started_callbacks m)
    (started m) (request_handlers m) x (async_request_handlers m) (completed_responses m) (split_assembly m)
    (events m) (request_events m) (max_decompressed_size m) (max_request_size m) (max_response_size m).

Definition set_async_handlers (x : gmap AddressHash (gmap AddressHash AsyncRequestHandler)) (m : t) : t :=
  mk (out m) (incoming m) (strategies m) (default_strategy m) (accept_callbacks m) (started_callbacks m)
    (started m) (request_handlers m) (pending_requests m) x (completed_responses m) (split_assembly m)
    (events m) (request_events m) (max_decompressed_size m) (max_request_size m) (max_response_size m).

Definition set_completed (x : gmap AddressHash (option bytes)) (m : t) : t :=
  mk (out m) (incoming m) (strategies m) (default_strategy m) (accept_callbacks m) (started_callbacks m)
    (started m) (request_handlers m) (pending_requests m) (async_request_handlers m) x (split_assembly m)
    (events m) (request_events m) (max_decompressed_size m) (max_request_size m) (max_response_size m).

Definition set_assembly (x : gmap Hash SplitAssembly) (m : t) : t :=
  mk (out m) (incoming m) (strategies m) (default_strategy m) (accept_callbacks m) (started_callbacks m)
    (started m) (request_handlers m) (pending_requests m) (async_request_handlers m) (completed_responses m) x
    (events m) (request_events m) (max_decompressed_size m) (max_request_size m) (max_response_size m).

Definition set_events (x : list ResourceEvent) (m : t) : t :=
  mk (out m) (incoming m) (strategies m) (default_strategy m) (accept_callbacks m) (started_callbacks m)
    (started m) (request_handlers m) (pending_requests m) (async_request_handlers m) (completed_responses m)
    (split_assembly m) x (request_events m) (max_decompressed_size m) (max_request_size m) (max_response_size m).

Definition set_request_events (x : list RequestEventData) (m : t) : t :=
  mk (out m) (incoming m) (strategies m) (default_strategy m) (accept_callbacks m) (started_callbacks m)
    (started m) (request_handlers m) (pending_requests m) (async_request_handlers m) (completed_responses m)
    (split_assembly m) (events m) x (max_decompressed_size m) (max_request_size m) (max_response_size m).

Definition new : t :=
  mk ∅ ∅ ∅ StrategyNone ∅ ∅ [] ∅ ∅ ∅ ∅ ∅ [] [] DEFAULT_MAX_DECOMPRESSED_SIZE None None.

Definition allows (h : RegisteredHandler) (remote : option Identity) : bool :=
  match allow (config h) with
  | AllowNone => false
  | AllowAll => true
  | AllowList => match remote with
                 | Some i => bool_decide (address_hash i ∈ allowed_list (config h))
                 | None => false
                 end
  end.

(** ** Strategies and handlers *)
Definition set_resource_strategy (link : LinkId) (s : ResourceStrategy) (m : t) : t :=
  set_strategies (<[link := s]> (strategies m)) m.

Definition set_default_resource_strategy (s : ResourceStrategy) (m : t) : t := set_default_strategy s m.

Definition resource_strategy (link : LinkId) (m : t) : ResourceStrategy :=
  default (default_strategy m) (strategies m !! link).

Definition set_accept_callback (link : LinkId) (f : ResourceAdvertisement -> bool) (m : t) : t :=
  set_accept_callbacks (<[link := f]> (accept_callbacks m)) m.

Definition set_started_callback (link : LinkId) (m : t) : t :=
  set_started_callbacks ({[link]} ∪ started_callbacks m) m.

Definition request_handler (destination path_hash : AddressHash) (m : t) : option RegisteredHandler :=
  handlers ← request_handlers m !! destination; handlers !! path_hash.

Definition async_request_handler (destination path_hash : AddressHash) (m : t) : option AsyncRequestHandler :=
  handlers ← async_request_handlers m !! destination; handlers !! path_hash.

Definition has_request_handlers (link : Link.t) (m : t) : bool :=
  let destination := desc_address_hash (Link.destination link) in
  bool_decide (is_Some (request_handlers m !! destination)) ||
  bool_decide (is_Some (async_request_handlers m !! destination)).

(** ** Events and pending requests *)
Definition send_event (e : ResourceEvent) (m : t) : t := set_events (events m ++ [e]) m.

Definition send_request_event (link : LinkId) (e : RequestEvent) (m : t) : t :=
  set_request_events (request_events m ++ [mkRequestEvent link e]) m.

Definition track_request (rid : AddressHash) (p : PendingRequest) (m : t) : t :=
  set_pending (<[rid := p]> (pending_requests m)) m.

Definition fail_request (rid : AddressHash) (m : t) : t :=
  match pending_requests m !! rid with
  | None => m
  | Some p => send_request_event (pending_link_id p) (RequestFailed rid) (set_pending (delete rid (pending_requests m)) m)
  end.

Definition fail_requests (rids : list AddressHash) (m : t) : t := fold_left (fun m rid => fail_request rid m) rids m.

Definition arm_response_timeout (now : f64) (rid : AddressHash) (m : t) : t :=
  match pending_requests m !! rid with
  | Some (mkPending link None (Some timeout) max) =>
      set_pending (<[rid := mkPending link (Some (f64_add now timeout)) (Some timeout) max]> (pending_requests m)) m
  | _ => m
  end.

Definition response_size_allowed (rid : AddressHash) (size : Z) (m : t) : bool :=
  let per_request := p ← pending_requests m !! rid; pending_max_response_size p in
  match (match per_request with Some max => Some max | None => max_response_size m end) with
  | Some max => size <=? max
  | None => true
  end.

Definition emit_request_progress (link : LinkId) (rid : AddressHash) (progress : f64) (m : t) : t :=
  send_request_event link (Progress rid progress) m.

Definition expire_requests (now : f64) (m : t) : t :=
  let expired := omap (fun '(rid, p) =>
    match deadline p with
    | Some d => if f_lt d now then Some rid else None
    | None => None
    end) (map_to_list (pending_requests m)) in
  fail_requests expired m.

(** The resources of a link. *)
Definition out_of (link : LinkId) (m : t) : list Outgoing.t := default [] (out m !! link).
Definition incoming_of (link : LinkId) (m : t) : list Incoming.t := default [] (incoming m !! link).

Definition put_out (link : LinkId) (l : list Outgoing.t) (m : t) : t :=
  match out m !! link with Some _ => set_out (<[link := l]> (out m)) m | None => m end.

Definition put_incoming (link : LinkId) (l : list Incoming.t) (m : t) : t :=
  match incoming m !! link with Some _ => set_incoming (<[link := l]> (incoming m)) m | None => m end.

(** [entry(id).or_default().push(resource)] *)
Definition push_out (link : LinkId) (o : Outgoing.t) (m : t) : t :=
  set_out (<[link := out_of link m ++ [o]]> (out m)) m.

Definition push_incoming (link : LinkId) (r : Incoming.t) (m : t) : t :=
  set_incoming (<[link := incoming_of link m ++ [r]]> (incoming m)) m.

(** ** Requests and responses on the wire *)

(** [rmpv::decode::read_value]: the value and the rest of the cursor.  The
    documented limit on nesting is 1024. *)
Fixpoint value_depth (v : Value) : nat :=
  match v with
  | VArray l => S (max_list (map value_depth l))
  | VMap l => S (max_list (map (fun kv => value_depth kv.1 `max` value_depth kv.2)%nat l))
  | _ => 1
  end.

(** Values that the code looks into are read as they are; the others are read as
    some value that is none of these. *)
Definition reads_as (v v' : Value) : Prop :=
  match v with
  | VNil | VStr _ | VBin _ => v' = v
  | VF32 bits => v' = VF32 (wrap 32 bits)
  | VF64 bits => v' = VF64 (wrap 64 bits)
  | _ => match v' with VNil | VStr _ | VBin _ => False | _ => True end
  end.

Class Rmpv := {
  read_value : bytes -> option (Value * bytes);
  read_value_spec : forall v rest, value_wf v = true -> (value_depth v < 1024)%nat ->
    exists v', read_value (encode_value v ++ rest) = Some (v', rest) /\ reads_as v v';
}.

(** [rmpv::Value::as_f64] *)
Definition as_f64 (v : Value) : option f64 :=
  match v with
  | VF64 bits => Some (f64_from_bits bits)
  | VF32 bits => Some (f64_from_f32 (f32_from_bits bits))
  | VFixint n | VUint _ n | VSint _ n => Some (f64_of_Z n)
  | _ => None
  end.

Section Manager.
Context `{Sha256} `{Hkdf} `{X25519} `{CbcCipher} `{HmacSha256}.
Context `{Rmp} `{RmpCursor} `{Bz2} `{Rmpv}.

Definition path_hash_of (path : bytes) : AddressHash := AddressHash_new_from_slice path.

Definition unpack_response (data : bytes) : option (AddressHash * bytes) :=
  '(n, cursor) ← rmp_array_len data;
  if negb (n =? 2) then None
  else
    '(len, cursor) ← rmp_bin_len cursor;
    if (length cursor <? Z.to_nat len)%nat || negb (len =? 16) then None
    else
      let request_id := take (Z.to_nat len) cursor in
      let rest := drop (Z.to_nat len) cursor in
      '(value, value_cursor) ← read_value rest;
      let consumed := (length rest - length value_cursor)%nat in
      Some (request_id, match value with VBin b => b | _ => take consumed rest end).

Definition msgpack_bin (data : bytes) : bytes := write_bin data.

(** [None] as element is Python's [data=None]. *)
Definition pack_request_element (now : f64) (path : bytes) (element : option bytes) : bytes :=
  write_array_len 3 ++ write_f64 (f64_to_bits now) ++ write_bin (take 16 (Hash_new_from_slice path)) ++
  match element with Some e => e | None => write_nil end.

Definition pack_request (now : f64) (path data : bytes) : bytes := pack_request_element now path (Some (write_bin data)).

(** [request_id], for a packed request. *)
Definition make_request_id (packed : bytes) : AddressHash := AddressHash_new_from_hash (Hash_new_from_slice packed).

Definition unpack_request (data : bytes) : option (f64 * AddressHash * bytes) :=
  '(n, cursor) ← rmp_array_len data;
  if negb (n =? 3) then None
  else
    '(v, cursor) ← read_value cursor;
    time ← as_f64 v;
    '(path, cursor) ← read_value cursor;
    match path with
    | VBin path_bytes =>
        if negb (length path_bytes =? 16)%nat then None
        else
          '(value, rest) ← read_value cursor;
          let raw_len := (length cursor - length rest)%nat in
          Some (time, path_bytes, match value with
                                  | VNil => []
                                  | VBin b => b
                                  | VStr b => b
                                  | _ => take raw_len cursor
                                  end)
    | _ => None
    end.

Definition packet_response_size (packed : bytes) : option Z :=
  '(n, cursor) ← rmp_array_len packed;
  if negb (n =? 2) then None
  else
    '(len, cursor) ← rmp_bin_len cursor;
    if (length cursor <? Z.to_nat len)%nat then None
    else Some (Z.of_nat (length (drop (Z.to_nat len) cursor) - 2)).

Definition pack_response (request_id : AddressHash) (response : bytes) : bytes :=
  write_array_len 2 ++ write_bin request_id ++ response.

(** ** Handlers *)
Definition register_request_handler_with_config (destination : AddressHash) (path : bytes) (c : RequestHandlerConfig)
    (f : RequestContext -> option RequestResponse) (m : t) : t :=
  let handlers := default ∅ (request_handlers m !! destination) in
  set_request_handlers (<[destination := <[path_hash_of path := mkHandler f c]> handlers]> (request_handlers m)) m.

Definition register_request_handler (destination : AddressHash) (path : bytes) (f : RequestContext -> option bytes)
    (m : t) : t :=
  register_request_handler_with_config destination path RequestHandlerConfig_default (fun c => Element <$> f c) m.

Definition register_async_request_handler (destination : AddressHash) (path : bytes) (f : AsyncRequestHandler)
    (m : t) : t :=
  let handlers := default ∅ (async_request_handlers m !! destination) in
  set_async_handlers (<[destination := <[path_hash_of path := f]> handlers]> (async_request_handlers m)) m.

Definition deregister_request_handler (destination : AddressHash) (path : bytes) (m : t) : t :=
  let m := set_request_handlers (alter (delete (path_hash_of path)) destination (request_handlers m)) m in
  set_async_handlers (alter (delete (path_hash_of path)) destination (async_request_handlers m)) m.

(** ** Advertisements *)
Definition accept (now : f64) (iv : bytes) (link : Link.t) (adv : ResourceAdvertisement) (m : t)
    : option (t * list Packet) :=
  r ← Incoming.accept now (adv_pack adv) link;
  match r with
  | Err _ => Some (m, [])
  | Ok inc =>
      let id := Link.id link in
      if existsb (fun r => bool_decide (Incoming.hash (Incoming.fx r) = Incoming.hash (Incoming.fx inc))) (incoming_of id m)
      then Some (m, [])
      else
        let inc := Incoming.hashmap_update 0 (adv_hashmap adv) inc in
        let m := if bool_decide (id ∈ started_callbacks m) then set_started (started m ++ [(id, adv)]) m else m in
        '(inc, ps) ← Incoming.request_next now link iv inc;
        let m := send_event (mkEvent id (Incoming.hash (Incoming.fx inc)) (Incoming.status inc) (f64_of_Z 0) None None (Some adv)) m in
        let m := if adv_is_response adv then
                   match adv_request_id adv with
                   | Some rid => set_pending (alter (fun p => mkPending (pending_link_id p) None (pending_timeout p)
                                   (pending_max_response_size p)) rid (pending_requests m)) m
                   | None => m
                   end
                 else m in
        let m := match Incoming.request_progress inc with
                 | Some (rid, progress) => emit_request_progress id rid progress m
                 | None => m
                 end in
        Some (push_incoming id inc m, ps)
  end.

Definition handle_advertisement (now : f64) (iv : bytes) (link : Link.t) (plaintext : bytes) (m : t)
    : option (t * list Packet) :=
  match adv_unpack plaintext with
  | Err _ => Some (m, [])
  | Ok adv =>
      let reject := Incoming.reject_packet_for adv link iv in
      if adv_is_request adv then
        let size_ok := match max_request_size m with Some max => adv_data_size adv <=? max | None => true end in
        if negb size_ok || negb (has_request_handlers link m) then ps ← reject; Some (m, ps)
        else accept now iv link adv m
      else if adv_is_response adv then
        let rid := default AddressHash_new_empty (adv_request_id adv) in
        let known := bool_decide (is_Some (pending_requests m !! rid)) in
        let size_ok := response_size_allowed rid (adv_data_size adv) m in
        if negb known || negb size_ok then
          ps ← reject;
          Some (if known && negb size_ok then fail_request rid m
                else match adv_request_id adv with
                     | Some rid => send_request_event (Link.id link) (RequestFailed rid) m
                     | None => m
                     end, ps)
        else accept now iv link adv m
      else
        match resource_strategy (Link.id link) m with
        | StrategyNone => Some (m, [])
        | StrategyAll => accept now iv link adv m
        | StrategyApp =>
            if match accept_callbacks m !! Link.id link with Some f => f adv | None => false end
            then accept now iv link adv m
            else ps ← reject; Some (m, ps)
        end
  end.

(** ** Requests for parts *)
Fixpoint request_loop (now : f64) (link : Link.t) (ivs : nat -> bytes) (h : Hash) (plaintext : bytes)
    (i : nat) (l : list Outgoing.t) : option (list Outgoing.t * list Packet) :=
  match l with
  | [] => Some ([], [])
  | o :: l' =>
      '(o, ps) ← (if bool_decide (Outgoing.hash (Outgoing.fx o) = h) && negb (is_concluded (Outgoing.status o))
                  then Outgoing.request now link (ivs i) plaintext o else Some (o, []));
      '(l', qs) ← request_loop now link ivs h plaintext (S i) l';
      Some (o :: l', ps ++ qs)
  end.

Definition handle_request_data (now : f64) (link : Link.t) (ivs : nat -> bytes) (plaintext : bytes) (m : t)
    : option (t * list Packet) :=
  let prefix_offset := if bool_decide (head plaintext = Some HASHMAP_IS_EXHAUSTED) then (1 + MAPHASH_LEN)%nat else 1%nat in
  if (length plaintext <? prefix_offset + 32)%nat then Some (m, [])
  else
    let h := take 32 (drop prefix_offset plaintext) in
    '(l, ps) ← request_loop now link ivs h plaintext 0 (out_of (Link.id link) m);
    Some (put_out (Link.id link) l m, ps).

(** ** Parts *)

(** The resources, the packets, whether one has all parts, and the progress to report. *)
Fixpoint part_loop (now : f64) (p : Packet) (link : Link.t) (ivs : nat -> bytes) (i : nat) (l : list Incoming.t)
    : option (list Incoming.t * list Packet * bool * list (AddressHash * f64)) :=
  match l with
  | [] => Some ([], [], false, [])
  | r :: l' =>
      '(complete, r', ps) ← (if is_concluded (Incoming.status r) then Some (false, r, [])
                             else Incoming.receive_part now p link (ivs i) r);
      let update := if is_concluded (Incoming.status r) || (Incoming.received_count r' =? Incoming.received_count r)%nat
                    then None else Incoming.request_progress r' in
      '(l', qs, assembled, updates) ← part_loop now p link ivs (S i) l';
      Some (r' :: l', ps ++ qs, complete || assembled, match update with Some u => u :: updates | None => updates end)
  end.

Definition handle_part (now : f64) (p : Packet) (link : Link.t) (ivs : nat -> bytes) (m : t)
    : option (t * list Packet * bool) :=
  let id := Link.id link in
  '(l, ps, assembled, updates) ← part_loop now p link ivs 0 (incoming_of id m);
  let m := put_incoming id l m in
  Some (fold_left (fun m '(rid, progress) => emit_request_progress id rid progress m) updates m, ps, assembled).

(** ** Assembly *)

(** A segment joins the assembly of its resource: [inl] when it does not fit,
    else the data and metadata of the event and the whole data, if this was the
    last one. *)
Definition join_segment (now : f64) (r : Incoming.t) (data : bytes) (m : t)
    : t + (t * option bytes * option bytes * option bytes) :=
  let f := Incoming.fx r in
  let key := Incoming.original_hash f in
  let a := default (mkAssembly [] None 1 (Incoming.total_segments f) (Incoming.total_size f) now) (split_assembly m !! key) in
  if negb (Incoming.segment_index f =? next_index a) || negb (Incoming.total_segments f =? assembly_total_segments a)
     || negb (Incoming.total_size f =? assembly_data_size a)
  then inl (set_assembly (delete key (split_assembly m)) m)
  else
    let md := if (Incoming.segment_index f =? 1) && bool_decide (assembly_metadata a = None)
              then Incoming.metadata r else assembly_metadata a in
    let a := mkAssembly (assembly_data a ++ data) md (next_index a + 1) (assembly_total_segments a)
               (assembly_data_size a) now in
    if Incoming.segment_index f =? Incoming.total_segments f then
      inr (set_assembly (delete key (split_assembly m)) m, Some (assembly_data a), assembly_metadata a, Some (assembly_data a))
    else inr (set_assembly (<[key := a]> (split_assembly m)) m, None, None, None).

(** The response that a completed response resource carries. *)
Definition finish_response (link : LinkId) (rid : AddressHash) (full_data md : option bytes) (m : t) : t :=
  let m := send_request_event link (Progress rid (f64_of_Z 1)) m in
  match full_data with
  | None => m
  | Some full =>
      let retain rid x m := set_completed (<[rid := Some x]> (completed_responses m)) m in
      let '(m, e) :=
        match unpack_response full with
        | Some (rid', response) =>
            (if bool_decide (rid' = rid) then retain rid' response m else m, Response rid' response md)
        | None =>
            match md with
            | Some _ => (retain rid full m, Response rid full md)
            | None => (m, RequestFailed rid)
            end
        end in
      let m := send_request_event link e m in
      set_pending (delete rid (pending_requests m)) m
  end.

Definition corrupt_event (link : LinkId) (r : Incoming.t) (progress : f64) : ResourceEvent :=
  mkEvent link (Incoming.hash (Incoming.fx r)) Corrupt progress None None (Some (Incoming.advertisement_of r)).

Definition option_list {A} (x : option A) : list A := match x with Some a => [a] | None => [] end.

(** One resource of the loop: the resource, the manager, the packets, the
    requests that failed, and what was completed. *)
Definition Assembled : Type := Incoming.t * t * list Packet * list AddressHash * option (Hash * bytes).

(** The data was assembled and proved. *)
Definition assembled_one (now : f64) (link : LinkId) (r : Incoming.t) (data : bytes) (ps : list Packet) (m : t) : Assembled :=
  let f := Incoming.fx r in
  let progress := Incoming.progress r in
  let is_final := Incoming.segment_index f =? Incoming.total_segments f in
  match (if Incoming.split f then join_segment now r data m
         else inr (m, Some data, Incoming.metadata r, Some data)) with
  | inl m => (Incoming.set_status Corrupt r, send_event (corrupt_event link r (f64_of_Z 0)) m, ps,
              option_list (Incoming.request_id f), None)
  | inr (m, ed, em, full_data) =>
      let m := send_event (mkEvent link (Incoming.hash f) Complete progress ed em (Some (Incoming.advertisement_of r))) m in
      let m := if Incoming.is_response f && is_final then
                 match Incoming.request_id f with Some rid => finish_response link rid full_data em m | None => m end
               else m in
      (r, m, ps, [], (fun full => (Incoming.hash f, full)) <$> full_data)
  end.

(** [None]: the [unwrap] of data that is not there. *)
Definition assemble_one (now : f64) (link : Link.t) (iv : bytes) (r : Incoming.t) (m : t) : option Assembled :=
  if bool_decide (is_Some (Incoming.assembled r)) || negb (bool_decide (Incoming.status r = Assembling))
  then Some (r, m, [], [], None)
  else
    let id := Link.id link in
    let f := Incoming.fx r in
    match Incoming.assemble link (max_decompressed_size m) r with
    | (Err _, r) =>
        let r := Incoming.set_status Corrupt r in
        let m := if Incoming.split f then set_assembly (delete (Incoming.original_hash f) (split_assembly m)) m else m in
        Some (r, send_event (corrupt_event id r (Incoming.progress r)) m, [], option_list (Incoming.request_id f), None)
    | (Ok data, r) =>
        if Incoming.is_response f && match Incoming.request_id f with
                                     | Some rid => bool_decide (pending_requests m !! rid = None)
                                     | None => false
                                     end
        then
          let r := Incoming.set_status Failed r in
          ps ← Incoming.cancel_packet link iv r;
          Some (r, send_event (mkEvent id (Incoming.hash f) Failed (Incoming.progress r) None None
                                 (Some (Incoming.advertisement_of r))) m, ps, [], None)
        else
          full ← Incoming.assembled r;
          let '(r, ps) := Incoming.prove link full (Incoming.set_status Complete r) in
          let r := Incoming.set_clk (Incoming.set_last_activity now (Incoming.clk r)) r in
          Some (assembled_one now id r data ps m)
    end.

Fixpoint assemble_loop (now : f64) (link : Link.t) (ivs : nat -> bytes) (i : nat) (l : list Incoming.t) (m : t)
    : option (list Incoming.t * t * list Packet * list AddressHash * option (Hash * bytes)) :=
  match l with
  | [] => Some ([], m, [], [], None)
  | r :: l' =>
      '(r, m, ps, failed, completed) ← assemble_one now link (ivs i) r m;
      match completed with
      | Some _ => Some (r :: l', m, ps, failed, completed)
      | None =>
          '(l', m, qs, failed', completed) ← assemble_loop now link ivs (S i) l' m;
          Some (r :: l', m, ps ++ qs, failed ++ failed', completed)
      end
  end.

Definition assemble_completed (now : f64) (link : Link.t) (ivs : nat -> bytes) (m : t)
    : option (t * list Packet * option (Hash * bytes)) :=
  let id := Link.id link in
  '(l, m, ps, failed, completed) ← assemble_loop now link ivs 0 (incoming_of id m) m;
  Some (fail_requests failed (put_incoming id l m), ps, completed).

(** ** Hashmap updates *)
Fixpoint hashmap_loop (now : f64) (link : Link.t) (iv plaintext : bytes) (l : list Incoming.t)
    : option (list Incoming.t * list Packet) :=
  match l with
  | [] => Some ([], [])
  | r :: l' =>
      if (32 <=? length plaintext)%nat && bool_decide (take 32 plaintext = Incoming.hash (Incoming.fx r)) then
        '(r, ps) ← Incoming.request_next now link iv (Incoming.hashmap_update_packet now plaintext r);
        Some (r :: l', ps)
      else
        '(l', ps) ← hashmap_loop now link iv plaintext l';
        Some (r :: l', ps)
  end.

Definition handle_hashmap_update (now : f64) (link : Link.t) (iv plaintext : bytes) (m : t) : option (t * list Packet) :=
  '(l, ps) ← hashmap_loop now link iv plaintext (incoming_of (Link.id link) m);
  Some (put_incoming (Link.id link) l m, ps).

(** ** Proofs *)
Definition Draws : Type := (Hash * bytes) * list (Hash * bytes).

(** The segment that follows a proved one: the resource, the segment if there is
    one, the packets, and whether it could not be prepared. *)
Definition following_segment (now : f64) (link : Link.t) (iv : bytes) (d : Draws) (o : Outgoing.t)
    : option (Outgoing.t * option Outgoing.t * list Packet * bool) :=
  let f := Outgoing.fx o in
  if negb (Outgoing.split f && (Outgoing.segment_index f <? Outgoing.total_segments f)) then Some (o, None, [], false)
  else
    '(prepared, o) ← (match Outgoing.next_segment o with
                      | Some _ => Some (Ok (), o)
                      | None =>
                          '(r, o) ← Outgoing.prepare_next_segment now d.1 d.2 link o;
                          Some (match r with
                                | Ok next => (Ok (), Outgoing.set_source (Outgoing.source o) next o)
                                | Err e => (Err e, o)
                                end)
                      end);
    match prepared with
    | Err _ => '(o, ps) ← Outgoing.cancel_packet link iv o; Some (o, None, ps, true)
    | Ok _ =>
        let '(next, o) := Outgoing.take_next_segment o in
        match next with
        | None => Some (o, None, [], false)
        | Some next =>
            '(r, next) ← Outgoing.advertise now link iv next;
            Some (o, Some next, match r with Ok ps => ps | Err _ => [] end, false)
        end
    end.

(** What the loop over the proved resources collects. *)
Record Proved := mkProved {
  proved_next : option Outgoing.t;
  proved_packets : list Packet;
  proved_events : list ResourceEvent;
  failed_events : list ResourceEvent;
  delivered : list AddressHash;
  proof_failed : list AddressHash;
}.

Definition out_event (link : LinkId) (s : ResourceStatus) (o : Outgoing.t) : ResourceEvent :=
  mkEvent link (Outgoing.hash (Outgoing.fx o)) s (Outgoing.progress o) None None (Some (Outgoing.advertisement o)).

Fixpoint proof_loop (now : f64) (link : Link.t) (ivs : nat -> bytes) (draws : nat -> Draws) (h : Hash)
    (proof_data : bytes) (i : nat) (l : list Outgoing.t) (acc : Proved) : option (list Outgoing.t * Proved) :=
  match l with
  | [] => Some ([], acc)
  | o :: l' =>
      let skip := negb (bool_decide (Outgoing.hash (Outgoing.fx o) = h)) || bool_decide (Outgoing.status o = Complete) in
      let '(valid, o) := if skip then (false, o) else Outgoing.validate_proof proof_data o in
      if negb valid then
        '(l', acc) ← proof_loop now link ivs draws h proof_data (S i) l' acc;
        Some (o :: l', acc)
      else
        '(o, next, ps, prep_failed) ← following_segment now link (ivs i) (draws i) o;
        let f := Outgoing.fx o in
        let id := Link.id link in
        let acc :=
          if prep_failed : bool then
            mkProved (proved_next acc) (proved_packets acc ++ ps) (proved_events acc)
              (failed_events acc ++ [out_event id Failed o]) (delivered acc)
              (proof_failed acc ++ option_list (Outgoing.request_id f))
          else
            mkProved (match next with Some n => Some n | None => proved_next acc end) (proved_packets acc ++ ps)
              (proved_events acc ++ [out_event id Complete o]) (failed_events acc)
              (delivered acc ++ (if negb (Outgoing.is_response f) &&
                                    (Outgoing.segment_index f =? Outgoing.total_segments f)
                                 then option_list (Outgoing.request_id f) else []))
              (proof_failed acc) in
        '(l', acc) ← proof_loop now link ivs draws h proof_data (S i) l' acc;
        Some (o :: l', acc)
  end.

Definition handle_proof (now : f64) (link : Link.t) (ivs : nat -> bytes) (draws : nat -> Draws) (proof_data : bytes)
    (m : t) : option (t * list Packet) :=
  if negb (length proof_data =? 64)%nat then Some (m, [])
  else
    let id := Link.id link in
    '(l, acc) ← proof_loop now link ivs draws (take 32 proof_data) proof_data 0 (out_of id m) (mkProved None [] [] [] [] []);
    let m := put_out id l m in
    let m := set_events (events m ++ proved_events acc ++ failed_events acc) m in
    let m := match proved_next acc with Some next => push_out id next m | None => m end in
    let m := fold_left (fun m rid => arm_response_timeout now rid m) (delivered acc) m in
    Some (fail_requests (proof_failed acc) m, proved_packets acc).

(** ** Cancelling *)
Definition handle_cancel (link : Link.t) (plaintext : bytes) (m : t) : t :=
  if (length plaintext <? 32)%nat then m
  else
    let h := take 32 plaintext in
    let id := Link.id link in
    let hit r := bool_decide (Incoming.hash (Incoming.fx r) = h) && negb (is_concluded (Incoming.status r)) in
    let hits := filter (fun r => hit r = true) (incoming_of id m) in
    let m := put_incoming id ((fun r => if hit r then Incoming.set_status Failed r else r) <$> incoming_of id m) m in
    let m := set_events (events m ++ ((fun r =>
               mkEvent id h Failed (f64_of_Z 0) None None (Some (Incoming.advertisement_of r))) <$> hits)) m in
    fail_requests (hits ≫= fun r => option_list (Incoming.request_id (Incoming.fx r))) m.

Definition handle_reject (link : Link.t) (plaintext : bytes) (m : t) : t :=
  if (length plaintext <? 32)%nat then m
  else
    let h := take 32 plaintext in
    let id := Link.id link in
    let hit o := bool_decide (Outgoing.hash (Outgoing.fx o) = h) && negb (is_concluded (Outgoing.status o)) in
    let hits := filter (fun o => hit o = true) (out_of id m) in
    let m := put_out id ((fun o => if hit o then Outgoing.set_status Rejected o else o) <$> out_of id m) m in
    let m := set_events (events m ++ ((fun o =>
               mkEvent id h Rejected (f64_of_Z 0) None None (Some (Outgoing.advertisement o))) <$> hits)) m in
    fail_requests (hits ≫= fun o => option_list (Outgoing.request_id (Outgoing.fx o))) m.

(** The resources, the packets, the hashes of the cancelled ones and their requests. *)
Fixpoint cancel_out_loop (link : Link.t) (ivs : nat -> bytes) (h : Hash) (i : nat) (l : list Outgoing.t)
    : option (list Outgoing.t * list Packet * list Hash * list AddressHash) :=
  match l with
  | [] => Some ([], [], [], [])
  | o :: l' =>
      let f := Outgoing.fx o in
      let hit := bool_decide (Outgoing.original_hash f = h \/ Outgoing.hash f = h) && negb (is_concluded (Outgoing.status o)) in
      '(o, ps) ← (if hit then Outgoing.cancel_packet link (ivs i) o else Some (o, []));
      '(l', qs, hashes, rids) ← cancel_out_loop link ivs h (S i) l';
      Some (o :: l', ps ++ qs, if hit then Outgoing.hash f :: hashes else hashes,
            if hit then option_list (Outgoing.request_id f) ++ rids else rids)
  end.

Fixpoint cancel_in_loop (link : Link.t) (ivs : nat -> bytes) (h : Hash) (i : nat) (l : list Incoming.t)
    : option (list Incoming.t * list Packet * list Hash * list AddressHash) :=
  match l with
  | [] => Some ([], [], [], [])
  | r :: l' =>
      let f := Incoming.fx r in
      let hit := bool_decide (Incoming.original_hash f = h \/ Incoming.hash f = h) && negb (is_concluded (Incoming.status r)) in
      ps ← (if hit then Incoming.cancel_packet link (ivs i) r else Some []);
      '(l', qs, hashes, rids) ← cancel_in_loop link ivs h (S i) l';
      Some ((if hit then Incoming.set_status Failed r else r) :: l', ps ++ qs, if hit then Incoming.hash f :: hashes else hashes,
            if hit then option_list (Incoming.request_id f) ++ rids else rids)
  end.

Definition cancelled (link : LinkId) (hashes : list Hash) (rids : list AddressHash) (m : t) : t :=
  let m := set_events (events m ++ ((fun h => mkEvent link h Failed (f64_of_Z 0) None None None) <$> hashes)) m in
  fail_requests rids m.

(** The inner [None]: no such resource. *)
Definition cancel_outbound (link : Link.t) (ivs : nat -> bytes) (h : Hash) (m : t) : option (t * option (list Packet)) :=
  let id := Link.id link in
  '(l, ps, hashes, rids) ← cancel_out_loop link ivs h 0 (out_of id m);
  Some (match hashes with [] => (m, None) | _ => (cancelled id hashes rids (put_out id l m), Some ps) end).

Definition cancel_inbound (link : Link.t) (ivs : nat -> bytes) (h : Hash) (m : t) : option (t * option (list Packet)) :=
  let id := Link.id link in
  '(l, ps, hashes, rids) ← cancel_in_loop link ivs h 0 (incoming_of id m);
  Some (match hashes with [] => (m, None) | _ => (cancelled id hashes rids (put_incoming id l m), Some ps) end).

(** ** The watchdog sweep *)

(** The resources, the packets, the events of the failed ones and their requests. *)
Definition Checked (A : Type) : Type := A * list Packet * list ResourceEvent * list AddressHash.

Fixpoint check_out_loop (now : f64) (link : Link.t) (ivs : nat -> bytes) (any_active advertised_any : bool) (i : nat)
    (l : list Outgoing.t) : option (Checked (list Outgoing.t)) :=
  match l with
  | [] => Some ([], [], [], [])
  | o :: l' =>
      if is_concluded (Outgoing.status o) then
        '(l', qs, es, rids) ← check_out_loop now link ivs any_active advertised_any (S i) l';
        Some (o :: l', qs, es, rids)
      else if bool_decide (Outgoing.status o = Queued) then
        let go := negb any_active && negb advertised_any in
        '(r, o) ← (if go then Outgoing.advertise now link (ivs i) o else Some (Ok [], o));
        '(l', qs, es, rids) ← check_out_loop now link ivs any_active (advertised_any || go) (S i) l';
        Some (o :: l', match r with Ok ps => ps | Err _ => [] end ++ qs, es, rids)
      else
        '(failed, o, ps) ← Outgoing.check now link (ivs i) o;
        '(l', qs, es, rids) ← check_out_loop now link ivs any_active advertised_any (S i) l';
        Some (o :: l', ps ++ qs,
              if failed : bool then out_event (Link.id link) Failed o :: es else es,
              if failed && negb (Outgoing.is_response (Outgoing.fx o))
              then option_list (Outgoing.request_id (Outgoing.fx o)) ++ rids else rids)
  end.

Fixpoint check_in_loop (now : f64) (link : Link.t) (ivs : nat -> bytes) (i : nat) (l : list Incoming.t)
    : option (Checked (list Incoming.t)) :=
  match l with
  | [] => Some ([], [], [], [])
  | r :: l' =>
      '(failed, r, ps) ← (if is_concluded (Incoming.status r) then Some (false, r, [])
                          else Incoming.check now link (ivs i) r);
      '(l', qs, es, rids) ← check_in_loop now link ivs (S i) l';
      let f := Incoming.fx r in
      Some (r :: l', ps ++ qs,
            if failed : bool then mkEvent (Link.id link) (Incoming.hash f) Failed (Incoming.progress r) None None
                                    (Some (Incoming.advertisement_of r)) :: es else es,
            if failed && Incoming.is_response f then option_list (Incoming.request_id f) ++ rids else rids)
  end.

(** The links whose lock is free, as the sweep finds them. *)
Fixpoint check_out (now : f64) (links : gmap LinkId Link.t) (ivs : LinkId -> nat -> bytes) (ids : list LinkId) (m : t)
    : option (Checked t) :=
  match ids with
  | [] => Some (m, [], [], [])
  | id :: ids' =>
      match links !! id with
      | None => check_out now links ivs ids' m
      | Some link =>
          let l := out_of id m in
          let any_active := existsb (fun o => negb (is_concluded (Outgoing.status o)) &&
                                              negb (bool_decide (Outgoing.status o = Queued))) l in
          '(l, ps, es, rids) ← check_out_loop now link (ivs id) any_active false 0 l;
          '(m, qs, es', rids') ← check_out now links ivs ids' (put_out id l m);
          Some (m, ps ++ qs, es ++ es', rids ++ rids')
      end
  end.

Fixpoint check_in (now : f64) (links : gmap LinkId Link.t) (ivs : LinkId -> nat -> bytes) (ids : list LinkId) (m : t)
    : option (Checked t) :=
  match ids with
  | [] => Some (m, [], [], [])
  | id :: ids' =>
      match links !! id with
      | None => check_in now links ivs ids' m
      | Some link =>
          '(l, ps, es, rids) ← check_in_loop now link (ivs id) 0 (incoming_of id m);
          '(m, qs, es', rids') ← check_in now links ivs ids' (put_incoming id l m);
          Some (m, ps ++ qs, es ++ es', rids ++ rids')
      end
  end.

Definition check (now : f64) (links : gmap LinkId Link.t) (out_ivs in_ivs : LinkId -> nat -> bytes) (m : t)
    : option (t * list Packet) :=
  '(m, ps, es, rids) ← check_out now links out_ivs (map_to_list (out m)).*1 m;
  '(m, qs, es', rids') ← check_in now links in_ivs (map_to_list (incoming m)).*1 m;
  let m := set_events (events m ++ es ++ es') m in
  Some (expire_requests now (fail_requests (rids ++ rids') m), ps ++ qs).

Definition cleanup (now : f64) (m : t) : t :=
  let dead r := Incoming.split (Incoming.fx r) &&
                match Incoming.status r with Failed | Corrupt | Rejected => true | _ => false end in
  let abandoned : list Hash :=
    (fun r => Incoming.original_hash (Incoming.fx r)) <$>
      filter (fun r => dead r = true) (concat (map_to_list (incoming m)).*2) in
  let live {A} (l : list A) : option (list A) := match l with [] => None | _ => Some l end in
  let m := set_out (omap (fun l => live (filter (fun o => is_concluded (Outgoing.status o) = false) l)) (out m)) m in
  let m := set_incoming (omap (fun l => live (filter (fun r => is_concluded (Incoming.status r) = false) l)) (incoming m)) m in
  let fresh (a : SplitAssembly) : bool :=
    (0 <? next_index a) &&
    f_lt (f64_of_Z (Z.of_nat (length (assembly_data a))))
      (f64_add (f64_mul (f64_of_Z (assembly_data_size a)) (f64_of_Z 2)) SPLIT_ASSEMBLY_GRACE_BYTES) &&
    f_lt now (f64_add (assembly_last_activity a) SPLIT_ASSEMBLY_TIMEOUT) in
  set_assembly (filter (fun kv => (kv.1 ∉ abandoned) /\ fresh kv.2 = true) (split_assembly m)) m.

End Manager.
End Manager.

(** ** Concrete instances *)
Lemma be_encode_wrap n v : be_encode n (v mod 256 ^ Z.of_nat n) = be_encode n v.
Proof.
  revert v. induction n as [|n IH]; intros v; [done|]. cbn [be_encode].
  assert (v mod 256 ^ Z.of_nat (S n) / 256 = (v / 256) mod 256 ^ Z.of_nat n) as ->.
  { rewrite Nat2Z.inj_succ, Z.pow_succ_r, Z.rem_mul_r by lia. rewrite (Z.mul_comm 256), Z.div_add by lia.
    rewrite (Z.div_small (v mod 256)) by (apply Z.mod_pos_bound; lia). lia. }
  rewrite IH. do 2 f_equal. rewrite Nat2Z.inj_succ, Z.pow_succ_r, Z.rem_mul_r by lia.
  rewrite (Z.mul_comm 256), Z.mod_add by lia. apply Z.mod_mod. lia.
Qed.

Lemma be_decode_encode_wrap n v : be_decode (be_encode n v) = v mod 256 ^ Z.of_nat n.
Proof. rewrite <- be_encode_wrap. apply be_decode_encode. apply Z.mod_pos_bound. lia. Qed.

(** The value that stands in an encoding, as far as the code looks at it. *)
Definition toy_value (enc : bytes) : Value :=
  match enc with
  | [] => VBool true
  | m :: d =>
      if m =? 0xc0 then VNil
      else if m =? 0xca then VF32 (be_decode d)
      else if m =? 0xcb then VF64 (be_decode d)
      else if m =? 0xc4 then VBin (drop 1 d)
      else if m =? 0xc5 then VBin (drop 2 d)
      else if m =? 0xc6 then VBin (drop 4 d)
      else if between 0xa0 0xbf m then VStr d
      else if m =? 0xd9 then VStr (drop 1 d)
      else if m =? 0xda then VStr (drop 2 d)
      else if m =? 0xdb then VStr (drop 4 d)
      else VBool true
  end.

(** Other markers. *)
Lemma toy_value_other m d :
  ~ (0xa0 <= m <= 0xbf) -> ~ (0xd9 <= m <= 0xdb) -> m <> 0xc0 -> ~ (0xc4 <= m <= 0xc6) -> ~ (0xca <= m <= 0xcb) ->
  toy_value (m :: d) = VBool true.
Proof.
  intros. unfold toy_value. assert (between 0xa0 0xbf m = false) as ->.
  { unfold between. apply andb_false_iff. rewrite !Z.leb_gt. lia. }
  by repeat (case_match; zb; [lia|]).
Qed.

Lemma toy_value_reads v : value_wf v = true -> Manager.reads_as v (toy_value (encode_value v)).
Proof.
  intros Hwf. destruct v as [|b|i|w i|w i|bits|bits|d|d|l|l]; cbn [encode_value value_wf] in *; try done.
  - by destruct b.
  - zb. assert (toy_value [wrap 8 i] = VBool true) as ->; [|done]. apply toy_value_other; unfold wrap; div_lia.
  - apply orb_true_iff in Hwf as [[[->%Nat.eqb_eq| ->%Nat.eqb_eq]%orb_true_iff| ->%Nat.eqb_eq]%orb_true_iff| ->%Nat.eqb_eq]; done.
  - apply orb_true_iff in Hwf as [[[->%Nat.eqb_eq| ->%Nat.eqb_eq]%orb_true_iff| ->%Nat.eqb_eq]%orb_true_iff| ->%Nat.eqb_eq]; done.
  - cbn [Manager.reads_as toy_value Z.eqb Pos.eqb]. by rewrite be_decode_encode_wrap.
  - cbn [Manager.reads_as toy_value Z.eqb Pos.eqb]. by rewrite be_decode_encode_wrap.
  - zb. cbn [Manager.reads_as]. unfold msgpack_str_header. destruct (Z.ltb_spec (Z.of_nat (length d)) 32).
    + unfold toy_value, between. cbn [app]. set (m := 0xa0 + Z.of_nat (length d)).
      repeat (case_match; zb; [lia|]). by rewrite !(proj2 (Z.leb_le _ _)) by lia.
    + repeat case_match; cbn [app toy_value Z.eqb Pos.eqb between Z.leb Z.compare Pos.compare Pos.compare_cont andb];
        by rewrite drop_app_length' by (by rewrite be_encode_length).
  - cbn [Manager.reads_as]. unfold msgpack_bin_header.
    repeat case_match; cbn [app toy_value Z.eqb Pos.eqb]; by rewrite drop_app_length' by (by rewrite be_encode_length).
  - unfold msgpack_header. destruct (Z.ltb_spec (Z.of_nat (length l)) 16); [|by case_match].
    cbn [app]. by rewrite toy_value_other by lia.
  - unfold msgpack_header. destruct (Z.ltb_spec (Z.of_nat (length l)) 16); [|by case_match].
    cbn [app]. by rewrite toy_value_other by lia.
Qed.

Definition toy_rmpv : Manager.Rmpv.
Proof.
  refine {| Manager.read_value := fun b =>
    match skip_value (MsgReader_new b) with
    | (Ok _, r) => Some (toy_value (take (pos r) b), drop (pos r) b)
    | (Err _, _) => None
    end |}.
  intros v rest Hwf _. exists (toy_value (encode_value v)). split; [|by apply toy_value_reads].
  assert (skip_value (MsgReader_new (encode_value v ++ rest)) = (Ok (), mkReader (encode_value v ++ rest) (length (encode_value v)))) as ->.
  { unfold skip_value, MsgReader_new. set (n := S _).
    assert (length (encode_value v) <= n)%nat as Hn by (unfold n, remaining; cbn [data pos]; rewrite length_app; lia).
    by rewrite (skip_value_fuel_exact n v Hn Hwf (encode_value v ++ rest) 0%nat rest) by (done || lia). }
  cbn [pos]. by rewrite take_app_length, drop_app_length.
Defined.
