(* ===== verification/Requests.v ===== *)
(** * Resource, request and response packets of a link ([src/src/transport.rs])

    How the transport hands the packets of a link to the resource manager, sends
    a resource, sends a request, runs the handler of a received request and sends
    its response, and sweeps the resources.  The link and the manager are the
    state; the packets sent are returned in order.  An asynchronous handler runs
    as a task of its own: it is returned with its request, and [finish_async] is
    what the task does afterwards. *)

From S2P Require Import Prelude Float Buffer Crypto Hash Packet Token Identity Msgpack Destination Links Resource.
From S2P Require Import ResourceOut ResourceIn ResourceManager.

(** The time and the random draws that handling one packet can use: the clock of
    the resources, the clock of the link, and initialization vectors and draws
    for each place that asks for them. *)
Record Inputs := mkInputs {
  unix_time : f64;
  instant : Z;
  loop_ivs : nat -> bytes;
  assemble_ivs : nat -> bytes;
  segment_draws : nat -> Manager.Draws;
  response_iv : bytes;
  response_draws : Manager.Draws;
  advertise_iv : bytes;
}.

(** A task that runs an asynchronous handler. *)
Record Task := mkTask {
  task_handler : Manager.AsyncRequestHandler;
  task_context : Manager.RequestContext;
}.

Record Outcome := mkOutcome {
  resources : Manager.t;
  link_after : Link.t;
  sent : list Packet;
  tasks : list Task;
}.

Section Requests.
Context `{Sha256} `{Hkdf} `{X25519} `{CbcCipher} `{HmacSha256}.
Context `{Rmp} `{RmpCursor} `{Bz2} `{Manager.Rmpv}.

(** The link notes that the packets went out. *)
Definition send_from_link (at_ : Z) (ps : list Packet) (l : Link.t) : Link.t :=
  fold_left (fun l p => mark_outbound at_ (bool_decide (context p = CtxKeepAlive)) l) ps l.

Definition outcome (inp : Inputs) (m : Manager.t) (l : Link.t) (ps : list Packet) : Outcome :=
  mkOutcome m (send_from_link (instant inp) ps l) ps [].

(** ** Sending a resource *)
Definition enqueue_resource (inp : Inputs) (m : Manager.t) (l : Link.t) (o : Outgoing.t) : option (result Hash * Outcome) :=
  let id := Link.id l in
  let active := existsb (fun o => negb (is_concluded (Outgoing.status o))) (Manager.out_of id m) in
  let h := Outgoing.hash (Outgoing.fx o) in
  if active then Some (Ok h, mkOutcome (Manager.push_out id (Outgoing.set_status Queued o) m) l [] [])
  else
    '(r, o) ← Outgoing.advertise (unix_time inp) l (advertise_iv inp) o;
    Some (match r with
          | Err e => (Err e, mkOutcome m l [] [])
          | Ok ps => (Ok h, outcome inp (Manager.push_out id o m) l ps)
          end).

(** ** Responses *)
Definition send_response (inp : Inputs) (m : Manager.t) (l : Link.t) (rid : AddressHash) (r : Manager.RequestResponse)
    (auto_compress : bool) (limit : option Z) : option Outcome :=
  let opts md := mkOptions auto_compress limit md None (Some rid) true in
  let enqueue (r : result Outgoing.t) :=
    match r with
    | Ok o => '(_, oc) ← enqueue_resource inp m l o; Some oc
    | Err _ => Some (mkOutcome m l [] [])
    end in
  match r with
  | Manager.Element element =>
      let packed := Manager.pack_response rid element in
      if Z.of_nat (length packed) <=? mdu l then
        p ← context_packet l (response_iv inp) packed CtxResponse;
        Some (match p with Ok p => outcome inp m l [p] | Err _ => mkOutcome m l [] [] end)
      else
        o ← Outgoing.new (unix_time inp) (response_draws inp).1 (response_draws inp).2 packed l (opts None);
        enqueue o
  | Manager.File None _ => Some (mkOutcome m l [] [])
  | Manager.File (Some file) md =>
      o ← Outgoing.from_reader (unix_time inp) (response_draws inp).1 (response_draws inp).2 file l (opts md);
      enqueue o
  end.

(** ** Received requests *)
Definition handle_incoming_request (inp : Inputs) (m : Manager.t) (l : Link.t) (rid : AddressHash) (requested_at : f64)
    (path_hash : AddressHash) (data : bytes) : option Outcome :=
  let destination := desc_address_hash (Link.destination l) in
  let ctx := Manager.mkContext path_hash data rid (Link.id l) (Link.remote_identity l) requested_at in
  match Manager.async_request_handler destination path_hash m with
  | Some f => Some (mkOutcome m l [] [mkTask f ctx])
  | None =>
      match Manager.request_handler destination path_hash m with
      | None => Some (mkOutcome m l [] [])
      | Some h =>
          if negb (Manager.allows h (Link.remote_identity l)) then Some (mkOutcome m l [] [])
          else
            match Manager.invoke h ctx with
            | None => Some (mkOutcome m l [] [])
            | Some r => send_response inp m l rid r (Manager.handler_auto_compress (Manager.config h))
                          (Manager.handler_auto_compress_limit (Manager.config h))
            end
      end
  end.

(** The spawned task, once its handler has answered. *)
Definition finish_async (inp : Inputs) (m : Manager.t) (l : Link.t) (k : Task) : option Outcome :=
  match task_handler k (task_context k) with
  | None => Some (mkOutcome m l [] [])
  | Some r => send_response inp m l (Manager.ctx_request_id (task_context k)) (Manager.Element r) true None
  end.

Definition request_id_from_packet (p : Packet) : AddressHash :=
  let h := header p in
  let flags := Z.lor (Z.lor (Z.lor (Z.lor (u8_shl (HeaderType_as_u8 (header_type h)) 6)
                 (u8_shl (Z.b2z (context_flag h)) 5))
                 (u8_shl (PropagationType_as_u8 (propagation_type h)) 4))
                 (u8_shl (DestinationType_as_u8 (destination_type h)) 2)) (PacketType_as_u8 (packet_type h)) in
  Manager.make_request_id ([Z.land flags 0x0f] ++ destination p ++ [PacketContext_as_u8 (context p)] ++ payload p).

(** [false]: the packet was not handled. *)
Definition handle_request_or_response_packet (inp : Inputs) (m : Manager.t) (l : Link.t) (p : Packet)
    : option (bool * Outcome) :=
  let same := mkOutcome m l [] [] in
  match Link_decrypt l (payload p) PACKET_MDU with
  | Err _ => Some (false, same)
  | Ok plaintext =>
      match context p with
      | CtxRequest =>
          match Manager.unpack_request plaintext with
          | None => Some (false, same)
          | Some (time, path_hash, data) =>
              oc ← handle_incoming_request inp m l (request_id_from_packet p) time path_hash data;
              Some (true, oc)
          end
      | CtxResponse =>
          match Manager.unpack_response plaintext with
          | None => Some (false, same)
          | Some (rid, response) =>
              match Manager.pending_requests m !! rid with
              | None => Some (true, same)
              | Some _ =>
                  let size := default (Z.of_nat (length response)) (Manager.packet_response_size plaintext) in
                  if negb (Manager.response_size_allowed rid size m)
                  then Some (true, mkOutcome (Manager.fail_request rid m) l [] [])
                  else
                    let m := Manager.set_completed (<[rid := Some response]> (Manager.completed_responses m)) m in
                    let m := Manager.send_request_event (destination p) (Manager.Response rid response None) m in
                    let m := Manager.set_pending (delete rid (Manager.pending_requests m)) m in
                    Some (true, mkOutcome m l [] [])
              end
          end
      | _ => Some (false, same)
      end
  end.

(** ** Sending a request *)
Definition dispatch_packed_request (inp : Inputs) (m : Manager.t) (l : Link.t) (packed : bytes)
    (options : Manager.RequestOptions) : option (result AddressHash * Outcome) :=
  let same := mkOutcome m l [] [] in
  let now := unix_time inp in
  let timeout := Manager.request_timeout options in
  let track rid deadline m := Manager.track_request rid
    (Manager.mkPending (Link.id l) deadline timeout (Manager.request_max_response_size options)) m in
  if negb (bool_decide (Link.status l = Active)) then Some (Err LinkNotReady, same)
  else if Z.of_nat (length packed) <=? mdu l then
    p ← context_packet l (response_iv inp) packed CtxRequest;
    match p with
    | Err e => Some (Err e, same)
    | Ok p =>
        let rid := request_id_from_packet p in
        Some (Ok rid, outcome inp (track rid ((fun x => f64_add now x) <$> timeout) m) l [p])
    end
  else
    let rid := Manager.make_request_id packed in
    o ← Outgoing.new now (response_draws inp).1 (response_draws inp).2 packed l
          (mkOptions true None None timeout (Some rid) false);
    match o with
    | Err e => Some (Err e, same)
    | Ok o =>
        '(r, oc) ← enqueue_resource inp m l o;
        Some (match r with
              | Err e => (Err e, oc)
              | Ok _ => (Ok rid, mkOutcome (track rid None (resources oc)) (link_after oc) (sent oc) (tasks oc))
              end)
    end.

Definition request_element (inp : Inputs) (m : Manager.t) (l : Link.t) (path : bytes) (element : option bytes)
    : option (result AddressHash * Outcome) :=
  dispatch_packed_request inp m l (Manager.pack_request_element (unix_time inp) path element)
    (Manager.mkRequestOptions None None).

Definition request (inp : Inputs) (m : Manager.t) (l : Link.t) (path data : bytes) : option (result AddressHash * Outcome) :=
  request_element inp m l path (Some (Manager.msgpack_bin data)).

Definition request_with_options (inp : Inputs) (m : Manager.t) (l : Link.t) (path data : bytes)
    (options : Manager.RequestOptions) : option (result AddressHash * Outcome) :=
  dispatch_packed_request inp m l (Manager.pack_request (unix_time inp) path data) options.

(** ** Waiting for a response *)
Definition take_completed_response (rid : AddressHash) (m : Manager.t) : option (option bytes) * Manager.t :=
  (Manager.completed_responses m !! rid, Manager.set_completed (delete rid (Manager.completed_responses m)) m).

Definition discard_completed_response (rid : AddressHash) (m : Manager.t) : Manager.t :=
  (take_completed_response rid m).2.

(** The loop over the events that arrive before the timeout; the retained copy
    is dropped when the event answers the request. *)
Fixpoint await_events (rid : AddressHash) (es : list Manager.RequestEventData) : option (option bytes) :=
  match es with
  | [] => None
  | e :: es' =>
      match Manager.request_event e with
      | Manager.Response rid' data _ => if bool_decide (rid' = rid) then Some (Some data) else await_events rid es'
      | Manager.RequestFailed rid' => if bool_decide (rid' = rid) then Some None else await_events rid es'
      | _ => await_events rid es'
      end
  end.

Definition await_request_response (rid : AddressHash) (es : list Manager.RequestEventData) (m : Manager.t)
    : option bytes * Manager.t :=
  match take_completed_response rid m with
  | (Some r, m) => (r, m)
  | (None, m) =>
      match await_events rid es with
      | Some r => (r, discard_completed_response rid m)
      | None => (None, m)
      end
  end.

(** ** Resource packets *)
Definition handle_resource_part (inp : Inputs) (m : Manager.t) (l : Link.t) (p : Packet) : option Outcome :=
  '(m, ps, completed) ← Manager.handle_part (unix_time inp) p l (loop_ivs inp) m;
  let l := send_from_link (instant inp) ps l in
  if negb completed then Some (mkOutcome m l ps [])
  else
    '(m, qs, done) ← Manager.assemble_completed (unix_time inp) l (assemble_ivs inp) m;
    let l := send_from_link (instant inp) qs l in
    match done ≫= fun d : Hash * bytes => r ← Manager.unpack_request d.2; Some (d.2, r) with
    | None => Some (mkOutcome m l (ps ++ qs) [])
    | Some (data, (time, path_hash, req_payload)) =>
        oc ← handle_incoming_request inp m l (Manager.make_request_id data) time path_hash req_payload;
        Some (mkOutcome (resources oc) (link_after oc) (ps ++ qs ++ sent oc) (tasks oc))
    end.

Definition handle_resource_packet (inp : Inputs) (m : Manager.t) (l : Link.t) (p : Packet) : option (bool * Outcome) :=
  let same := mkOutcome m l [] [] in
  let now := unix_time inp in
  let handled (r : option (Manager.t * list Packet)) : option (bool * Outcome) :=
    '(m, ps) ← r; Some (true, outcome inp m l ps) in
  let opened (k : bytes -> option (bool * Outcome)) (failed : bool) :=
    match Link_decrypt l (payload p) PACKET_MDU with Ok plaintext => k plaintext | Err _ => Some (failed, same) end in
  match context p with
  | CtxResourceAdvertisement => opened (fun d => handled (Manager.handle_advertisement now (loop_ivs inp 0%nat) l d m)) false
  | CtxResourceRequest => opened (fun d => handled (Manager.handle_request_data now l (loop_ivs inp) d m)) false
  | CtxResourceHashUpdate => opened (fun d => handled (Manager.handle_hashmap_update now l (loop_ivs inp 0%nat) d m)) false
  | CtxResource => oc ← handle_resource_part inp m l p; Some (true, oc)
  | CtxResourceProof =>
      '(m, ps) ← Manager.handle_proof now l (loop_ivs inp) (segment_draws inp) (payload p) m;
      Some (true, outcome inp (Manager.cleanup now m) l ps)
  | CtxResourceInitiatorCancel => opened (fun d => Some (true, mkOutcome (Manager.handle_cancel l d m) l [] [])) true
  | CtxResourceReceiverCancel => opened (fun d => Some (true, mkOutcome (Manager.handle_reject l d m) l [] [])) true
  | _ => Some (false, same)
  end.

(** An outgoing transfer first, else an incoming one. *)
Definition cancel_resource (ivs : nat -> bytes) (l : Link.t) (h : Hash) (m : Manager.t)
    : option (result (list Packet) * Manager.t) :=
  '(m, r) ← Manager.cancel_outbound l ivs h m;
  match r with
  | Some ps => Some (Ok ps, m)
  | None =>
      '(m, r) ← Manager.cancel_inbound l ivs h m;
      Some (match r with
            | Some ps => (Ok ps, m)
            | None => (Err (ResourceMsg "no such resource on link"), m)
            end)
  end.

(** ** The sweep

    [in_links] is keyed by link id, [out_links] by the address of the
    destination. *)
Definition resource_sweep (now : f64) (in_links out_links : gmap AddressHash Link.t)
    (out_ivs in_ivs : LinkId -> nat -> bytes) (m : Manager.t) : option (Manager.t * list Packet) :=
  let all_links := out_links ∪ in_links in
  '(m, ps) ← Manager.check now all_links out_ivs in_ivs m;
  Some (Manager.cleanup now m, ps).

End Requests.
