(* ===== verification/ResourceTransfer.v ===== *)
(** * A resource transfer between two nodes

    The two sides of [ResourceOut] and [ResourceIn] over one link: what crosses
    the link is delivered by [handle_resource_packet] ([src/src/transport.rs])
    through the manager's handlers ([src/src/resource/manager.rs]). *)

From S2P Require Import Prelude Float Buffer Crypto Hash Packet Token Identity Msgpack Destination Links Resource.
From S2P Require Import ResourceOut ResourceIn.

(** ** Lists *)
Lemma slice_S {A} i j (l : list A) x : l !! i = Some x -> (i < j)%nat -> slice i j l = x :: slice (S i) j l.
Proof.
  intros E Hij. unfold slice. rewrite (drop_S _ _ _ E). replace (j - i)%nat with (S (j - S i)) by lia. done.
Qed.

Lemma slice_empty {A} i (l : list A) : slice i i l = [].
Proof. unfold slice. by rewrite Nat.sub_diag. Qed.

Lemma slice_count {A} i j (l : list A) : (j <= length l)%nat -> length (slice i j l) = (j - i)%nat.
Proof. intros H. unfold slice. rewrite length_take, length_drop. lia. Qed.

Lemma slice_lookup {A} i j k (l : list A) : (k < j - i)%nat -> slice i j l !! k = l !! (i + k)%nat.
Proof. intros H. unfold slice. by rewrite lookup_take_lt, lookup_drop by done. Qed.

Lemma elem_of_slice {A} i j (l : list A) x :
  x ∈ slice i j l -> exists k, (i <= k < j)%nat /\ l !! k = Some x.
Proof.
  intros [k Hk]%list_elem_of_lookup. unfold slice in Hk. pose proof (lookup_lt_Some _ _ _ Hk) as Hl.
  rewrite length_take in Hl. rewrite lookup_take_lt, lookup_drop in Hk by lia. exists (i + k)%nat. split; [lia|done].
Qed.

Lemma slice_elem {A} i j k (l : list A) x : (i <= k < j)%nat -> l !! k = Some x -> x ∈ slice i j l.
Proof.
  intros Hk E. apply list_elem_of_lookup. exists (k - i)%nat. rewrite slice_lookup by lia.
  by replace (i + (k - i))%nat with k by lia.
Qed.

Lemma chunks4_concat (hs : list bytes) :
  Forall (fun h => length h = MAPHASH_LEN) hs -> Outgoing.chunks4 (concat hs) = hs.
Proof.
  induction 1 as [|h hs Hh _ IH]; [done|]. destruct h as [|a [|b [|c [|d [|? ?]]]]]; try done. cbn. by rewrite IH.
Qed.

Lemma map_hashes_concat (hs : list bytes) :
  Forall (fun h => length h = MAPHASH_LEN) hs -> Incoming.map_hashes (concat hs) = hs.
Proof.
  induction 1 as [|h hs Hh _ IH]; [done|]. destruct h as [|a [|b [|c [|d [|? ?]]]]]; try done. cbn. by rewrite IH.
Qed.

Lemma length_concat_const {A} (n : nat) (l : list (list A)) :
  Forall (fun x => length x = n) l -> length (concat l) = (n * length l)%nat.
Proof. induction 1 as [|x l Hx _ IH]; [simpl; lia|]. cbn [concat length]. rewrite length_app, Hx, IH. lia. Qed.

(** ** The sender serves requests in order *)
Section Sender.
Context `{Sha256} `{Hkdf} `{X25519} `{CbcCipher} `{HmacSha256}.
Context `{Rmp} `{RmpCursor} `{Bz2}.
Import Outgoing.

Definition fixed_ok (f : fixed) : Prop :=
  length (parts f) = length (part_hashes f) /\ distinct_within COLLISION_GUARD_SIZE (part_hashes f) /\
  Forall (fun h => length h = MAPHASH_LEN) (part_hashes f) /\ length (hash f) = HASH_SIZE.

(** The first [n] parts were sent; the search starts at [c]. *)
Definition serving (o : t) (n c : nat) : Prop :=
  let total := length (parts (fx o)) in
  part_sent o = replicate n true ++ replicate (total - n) false /\ sent_parts o = n /\ (n <= total)%nat /\
  receiver_min_consecutive_height o = c.

Lemma send_parts_app f wanted is1 is2 flags n :
  send_parts f wanted (is1 ++ is2) flags n =
    let '(flags1, n1, ps1) := send_parts f wanted is1 flags n in
    let '(flags2, n2, ps2) := send_parts f wanted is2 flags1 n1 in (flags2, n2, ps1 ++ ps2).
Proof.
  revert flags n. induction is1 as [|i is1 IH]; intros flags n; cbn [app send_parts].
  { by destruct (send_parts f wanted is2 flags n) as [[? ?] ?]. }
  case_bool_decide; [|apply IH].
  destruct (if nth i flags true then (flags, n) else (<[i:=true]> flags, S n)) as [flags' n'].
  rewrite IH. destruct (send_parts f wanted is1 flags' n') as [[? ?] ?].
  destruct (send_parts f wanted is2 _ _) as [[? ?] ?]. by destruct (parts f !! i).
Qed.

Lemma send_parts_skip f wanted indices flags n :
  Forall (fun i => nth i (part_hashes f) [] ∉ wanted) indices -> send_parts f wanted indices flags n = (flags, n, []).
Proof. induction 1 as [|i indices Hi _ IH]; [done|]. cbn [send_parts]. by rewrite bool_decide_eq_false_2. Qed.

Lemma replicate_snoc_true n m :
  <[n := true]> (replicate n true ++ replicate (S m) false) = replicate (S n) true ++ replicate m false.
Proof.
  rewrite insert_app_r_alt by (rewrite length_replicate; lia). rewrite length_replicate, Nat.sub_diag. cbn [replicate list_insert].
  rewrite (replicate_cons_app n true). by rewrite <- app_assoc.
Qed.

Lemma send_parts_run f wanted total m : forall h,
  length (parts f) = total -> (h + m <= total)%nat ->
  (forall i, (h <= i < h + m)%nat -> nth i (part_hashes f) [] ∈ wanted) ->
  send_parts f wanted (seq h m) (replicate h true ++ replicate (total - h) false) h =
    (replicate (h + m) true ++ replicate (total - (h + m)) false, (h + m)%nat, slice h (h + m) (parts f)).
Proof.
  induction m as [|m IH]; intros h Hl Hm Hw; cbn [seq send_parts].
  { rewrite Nat.add_0_r, slice_empty. done. }
  rewrite bool_decide_eq_true_2 by (apply Hw; lia).
  destruct (lookup_lt_is_Some_2 (parts f) h ltac:(lia)) as [p Ep]. rewrite Ep.
  rewrite app_nth2, length_replicate, Nat.sub_diag by (rewrite length_replicate; lia).
  replace (total - h)%nat with (S (total - S h)) by lia.
  assert (nth 0 (replicate (S (total - S h)) false) true = false) as -> by done.
  rewrite (replicate_snoc_true h (total - S h)), IH by (try done; try lia; intros; apply Hw; lia).
  rewrite (slice_S h (h + S m) (parts f) p Ep) by lia. by replace (h + S m)%nat with (S h + m)%nat by lia.
Qed.

Lemma part_hash_nth f i x : part_hashes f !! i = Some x -> nth i (part_hashes f) [] = x.
Proof. intros E. by apply nth_lookup_Some. Qed.

(** In the searched range exactly the parts [h] to [h + m] have the wanted hashes. *)
Lemma wanted_exact f c h m stop i :
  fixed_ok f -> (c <= h)%nat -> (h + m <= stop)%nat -> (stop <= c + COLLISION_GUARD_SIZE)%nat ->
  (stop <= length (parts f))%nat -> (c <= i < stop)%nat ->
  nth i (part_hashes f) [] ∈ slice h (h + m) (part_hashes f) <-> (h <= i < h + m)%nat.
Proof.
  intros (Hl & Hd & _ & _) Hc Hm Hg Hs Hi.
  destruct (lookup_lt_is_Some_2 (part_hashes f) i ltac:(lia)) as [x Ex]. rewrite (part_hash_nth _ _ _ Ex). split.
  - intros (k & Hk & Ek)%elem_of_slice. destruct (decide (i = k)) as [->|Hne]; [done|]. exfalso.
    destruct (decide (i < k)%nat).
    + eapply (Hd i k); [lia|lia|exact Ex|exact Ek].
    + eapply (Hd k i); [lia|lia|exact Ek|exact Ex].
  - intros Hr. by eapply slice_elem.
Qed.

Lemma send_parts_spec f h m c stop :
  fixed_ok f -> (c <= h)%nat -> (h + m <= stop)%nat -> (stop <= c + COLLISION_GUARD_SIZE)%nat ->
  (stop <= length (parts f))%nat ->
  send_parts f (slice h (h + m) (part_hashes f)) (seq c (stop - c))
      (replicate h true ++ replicate (length (parts f) - h) false) h =
    (replicate (h + m) true ++ replicate (length (parts f) - (h + m)) false, (h + m)%nat, slice h (h + m) (parts f)).
Proof.
  intros Hok Hc Hm Hg Hs. pose proof (wanted_exact f c h m stop) as Hx.
  replace (stop - c)%nat with ((h - c) + (m + (stop - (h + m))))%nat by lia. rewrite !seq_app.
  rewrite send_parts_app, send_parts_skip.
  2:{ apply list.Forall_forall. intros i Hi%elem_of_seq. rewrite Hx by (done || lia). lia. }
  rewrite send_parts_app. replace (c + (h - c))%nat with h by lia. rewrite (send_parts_run f _ (length (parts f)) m h) by
    (try done; try lia; intros; apply Hx; done || lia).
  rewrite send_parts_skip; [by rewrite app_nil_r|].
  apply list.Forall_forall. intros i Hi%elem_of_seq. rewrite Hx by (done || lia). lia.
Qed.

Lemma find_part_index_spec hs last k : forall idx,
  hs !! k = Some last -> (forall j, (j < k)%nat -> hs !! j <> Some last) -> find_part_index hs last idx = (idx + k + 1)%nat.
Proof.
  revert k. induction hs as [|h hs IH]; intros k idx Ek Hj; [done|]. cbn [find_part_index].
  destruct k as [|k].
  - injection Ek as ->. rewrite bool_decide_eq_true_2 by done. lia.
  - rewrite bool_decide_eq_false_2 by (intros ->; by apply (Hj 0%nat); [lia|]).
    rewrite (IH k) by (try done; intros j Hlt; apply (Hj (S j)); lia). lia.
Qed.

(** What does not touch the parts. *)
Definition same_parts (o o' : t) : Prop :=
  fx o' = fx o /\ part_sent o' = part_sent o /\ sent_parts o' = sent_parts o /\
  receiver_min_consecutive_height o' = receiver_min_consecutive_height o.

Lemma same_parts_serving o o' n c : same_parts o o' -> serving o n c -> serving o' n c.
Proof. intros (E1 & E2 & E3 & E4). unfold serving. by rewrite E1, E2, E3, E4. Qed.

(** The state in which the search begins. *)
Definition request_begin (now : f64) (o : t) : t :=
  set_retries (max_retries (fx o)) (set_status Transferring
    (match adv_sent o, rtt o with
     | Some sent, None => set_times (Some (f64_sub now sent)) (adv_sent o) o
     | _, _ => o
     end)).

Lemma request_begin_same now o : same_parts o (request_begin now o).
Proof. unfold request_begin. destruct (adv_sent o), (rtt o); done. Qed.

(** The part of [request] behind the length check. *)
Lemma request_unfold now link iv marker last h m c o :
  fixed_ok (fx o) -> serving o h c -> (c <= h)%nat ->
  (h + m <= (c + COLLISION_GUARD_SIZE) `min` length (parts (fx o)))%nat ->
  (marker = HASHMAP_IS_NOT_EXHAUSTED /\ last = [] \/ marker = HASHMAP_IS_EXHAUSTED /\ length last = MAPHASH_LEN) ->
  exists o1, fx o1 = fx o /\ serving o1 (h + m) c /\ status o1 = Transferring /\
    request now link iv (marker :: last ++ hash (fx o) ++ concat (slice h (h + m) (part_hashes (fx o)))) o =
      '(go, o2, hmu) ← (if bool_decide (marker = HASHMAP_IS_EXHAUSTED)
                        then send_hashmap now link iv last c
                               ((c + COLLISION_GUARD_SIZE) `min` length (parts (fx o))) o1
                        else Some (true, o1, []));
      Some (if negb go then (o2, slice h (h + m) (parts (fx o)) ++ hmu)
            else if (sent_parts o2 =? length (parts (fx o)))%nat
            then (set_retries 3 (set_status AwaitingProof o2), slice h (h + m) (parts (fx o)) ++ hmu)
            else (o2, slice h (h + m) (parts (fx o)) ++ hmu)).
Proof.
  intros Hok (Es & En & Hn & Ec) Hc Hm Hmark. pose proof Hok as (Hl & Hd & Hlen4 & Hh).
  unfold request. cbv zeta. fold (request_begin now o).
  destruct (request_begin_same now o) as (E1 & E2 & E3 & E4). rewrite E2, E3, E4, Ec, Es, En.
  set (o0 := request_begin now o) in *.
  set (stop := ((c + COLLISION_GUARD_SIZE) `min` length (parts (fx o)))%nat) in *.
  pose proof (send_parts_spec (fx o) h m c stop Hok Hc Hm ltac:(lia) ltac:(lia)) as Hsend.
  set (ps := slice h (h + m) (parts (fx o))) in *.
  set (flags := replicate (h + m) true ++ replicate (length (parts (fx o)) - (h + m)) false) in *.
  set (o1 := match ps with [] => set_sent flags (h + m) o0 | _ => set_activity now now (set_sent flags (h + m) o0) end).
  exists o1. assert (Outgoing.chunks4 (concat (slice h (h + m) (part_hashes (fx o)))) = slice h (h + m) (part_hashes (fx o))) as E5.
  { apply chunks4_concat. unfold slice. by apply Forall_take, Forall_drop. }
  assert (fx o1 = fx o /\ serving o1 (h + m) c) as [Hf Hs].
  { unfold o1, serving. destruct ps; cbn [set_sent set_activity fx part_sent sent_parts receiver_min_consecutive_height];
      rewrite E1, E4; repeat split; try done; lia. }
  split; [done|]. split; [done|]. split; [by destruct ps|]. unfold HASH_SIZE in Hh. cbn [head].
  destruct Hmark as [[-> ->]|[-> Hlast]].
  - rewrite (bool_decide_eq_false_2 (Some _ = _)), (bool_decide_eq_false_2 (_ = HASHMAP_IS_EXHAUSTED)) by done.
    cbn [app length]. rewrite length_app, Hh. cbn [Nat.ltb Nat.leb Nat.add].
    assert (drop 33 (HASHMAP_IS_NOT_EXHAUSTED :: hash (fx o) ++ concat (slice h (h + m) (part_hashes (fx o)))) =
      concat (slice h (h + m) (part_hashes (fx o)))) as ->.
    { cbn [drop]. by rewrite <- Hh, drop_app_length. }
    rewrite E5, Hsend. cbn [mbind option_bind]. done.
  - rewrite (bool_decide_eq_true_2 (Some _ = _)), (bool_decide_eq_true_2 (_ = HASHMAP_IS_EXHAUSTED)) by done.
    unfold MAPHASH_LEN in *. cbn [length]. rewrite !length_app, Hh, Hlast. cbn [Nat.ltb Nat.leb Nat.add].
    assert (drop 37 (HASHMAP_IS_EXHAUSTED :: last ++ hash (fx o) ++ concat (slice h (h + m) (part_hashes (fx o)))) =
      concat (slice h (h + m) (part_hashes (fx o)))) as ->.
    { cbn [drop]. rewrite app_assoc. apply drop_app_length'. rewrite length_app. lia. }
    assert (slice 1 5 (HASHMAP_IS_EXHAUSTED :: last ++ hash (fx o) ++ concat (slice h (h + m) (part_hashes (fx o)))) = last) as ->.
    { unfold slice. cbn [drop Nat.sub]. apply take_app_length'. lia. }
    rewrite E5, Hsend. done.
Qed.

(** A request for the parts [h] to [h + m]. *)
Lemma request_parts_spec now link iv h m c o :
  fixed_ok (fx o) -> serving o h c -> (c <= h)%nat ->
  (h + m <= (c + COLLISION_GUARD_SIZE) `min` length (parts (fx o)))%nat ->
  exists o', request now link iv (HASHMAP_IS_NOT_EXHAUSTED :: [] ++ hash (fx o)
                ++ concat (slice h (h + m) (part_hashes (fx o)))) o = Some (o', slice h (h + m) (parts (fx o))) /\
    fx o' = fx o /\ serving o' (h + m) c /\ is_concluded (status o') = false.
Proof.
  intros Hok Hs Hc Hm.
  destruct (request_unfold now link iv HASHMAP_IS_NOT_EXHAUSTED [] h m c o Hok Hs Hc Hm ltac:(by left)) as (o1 & E & Hs1 & Est & ->).
  rewrite bool_decide_eq_false_2 by done. cbn [mbind option_bind negb]. rewrite app_nil_r.
  destruct (_ =? _)%nat; [|by exists o1; rewrite Est]. exists (set_retries 3 (set_status AwaitingProof o1)).
  split; [done|]. split; [done|]. split; [|done]. by apply (same_parts_serving o1).
Qed.

(** The hashmap update that follows the last hash of segment [k]. *)
Definition hmu_text (f : fixed) (k : nat) : bytes :=
  hash f ++ write_array_len 2 ++ write_uint (Z.of_nat k) ++ write_bin (hashmap_update_data f k).

Lemma hashmap_update_nonempty f k :
  fixed_ok f -> (k * HASHMAP_MAX_LEN < length (parts f))%nat -> hashmap_update_data f k <> [].
Proof.
  intros (Hl & _ & Hlen4 & _) Hk E0.
  destruct (lookup_lt_is_Some_2 (part_hashes f) (k * HASHMAP_MAX_LEN) ltac:(lia)) as [x Ex].
  pose proof (Forall_lookup_1 _ _ _ _ Hlen4 Ex) as Hx. unfold hashmap_update_data in E0.
  assert (0 < HASHMAP_MAX_LEN)%nat by (vm_compute; lia).
  rewrite (slice_S _ _ _ x Ex) in E0 by lia. by destruct x.
Qed.

(** A request for the parts [h] to [74 k] and the next segment of the hashmap. *)
Lemma request_more_spec now link iv h k c o last p :
  let H := (k * HASHMAP_MAX_LEN)%nat in
  fixed_ok (fx o) -> serving o h c -> (c <= h)%nat -> (h <= H)%nat -> (0 < k)%nat ->
  (H <= c + COLLISION_GUARD_SIZE)%nat -> (H < length (parts (fx o)))%nat -> (c < H)%nat ->
  part_hashes (fx o) !! (H - 1)%nat = Some last ->
  context_packet link iv (hmu_text (fx o) k) CtxResourceHashUpdate = Some (Ok p) ->
  exists o', request now link iv (HASHMAP_IS_EXHAUSTED :: last ++ hash (fx o)
                ++ concat (slice h H (part_hashes (fx o)))) o = Some (o', slice h H (parts (fx o)) ++ [p]) /\
    fx o' = fx o /\ serving o' H (H - 76) /\ is_concluded (status o') = false.
Proof.
  intros H' Hok Hs Hc Hh Hk Hg Ht Hc' Elast Ep. pose proof Hok as (Hl & Hd & Hlen4 & _).
  assert (length last = MAPHASH_LEN) as Hlast by exact (Forall_lookup_1 _ _ _ _ Hlen4 Elast).
  destruct (request_unfold now link iv HASHMAP_IS_EXHAUSTED last h (H' - h) c o Hok Hs Hc ltac:(lia) ltac:(by right))
    as (o1 & E & Hs1 & Est & Er). replace (h + (H' - h))%nat with H' in * by lia. rewrite Er. clear Er.
  rewrite bool_decide_eq_true_2 by done. unfold send_hashmap. cbv zeta. rewrite E.
  set (stop := ((c + COLLISION_GUARD_SIZE) `min` length (parts (fx o)))%nat).
  assert (find_part_index (slice c stop (part_hashes (fx o))) last c = H') as ->.
  { rewrite (find_part_index_spec _ _ (H' - 1 - c)); [lia| |].
    - rewrite slice_lookup by lia. by replace (c + (H' - 1 - c))%nat with (H' - 1)%nat by lia.
    - intros j Hj Ej. rewrite slice_lookup in Ej by lia. eapply (Hd (c + j)%nat (H' - 1)%nat); [lia|lia|exact Ej|exact Elast]. }
  unfold H'. rewrite Nat.Div0.mod_mul, Nat.div_mul by done. cbn [Nat.eqb negb].
  rewrite bool_decide_eq_false_2.
  2:{ by apply hashmap_update_nonempty. }
  fold (hmu_text (fx o) k). rewrite Ep. cbn [mbind option_bind negb]. fold H'.
  assert (serving (set_activity now (last_part_sent (set_height (H' - (1 + Z.to_nat WINDOW_MAX)) o1))
    (set_height (H' - (1 + Z.to_nat WINDOW_MAX)) o1)) H' (H' - 76)) as Hs2.
  { destruct Hs1 as (? & ? & ? & ?). repeat split; try done. }
  destruct (_ =? _)%nat; eexists; (split; [done|]); (split; [done|]); (split; [exact Hs2|]); [done|].
  cbn [status set_activity set_height]. by rewrite Est.
Qed.

End Sender.

(** ** The receiver, while parts come in order *)
Section Receiver.
Context `{Sha256} `{Hkdf} `{X25519} `{CbcCipher} `{HmacSha256}.
Context `{Rmp} `{RmpCursor} `{Bz2}.
Import Incoming.

(** The parts of the stream and their map hashes. *)
Context (cs : list bytes) (random : bytes).
Let hs : list bytes := (fun c => map_hash c random) <$> cs.
#[local] Abbreviation total := (length cs) (only parsing).
Context (Hdistinct : Outgoing.distinct_within COLLISION_GUARD_SIZE hs).

Definition windows_ok (w : windows) : Prop := 2 <= window w <= WINDOW_MAX /\ window_max w <= WINDOW_MAX.

Definition known {A} (l : list A) (n : nat) : list (option A) := (Some <$> take n l) ++ replicate (length l - n) None.

(** The first [n] parts are there, the first [h] map hashes are known, [k] parts
    are outstanding. *)
Record receiving (r : t) (n h k : nat) (wt : bool) : Prop := {
  rc_total : total_parts (fx r) = total;
  rc_random : random_hash (fx r) = random;
  rc_parts : parts r = known cs n;
  rc_hashmap : hashmap r = known hs h;
  rc_height : hashmap_height r = h;
  rc_count : received_count r = n;
  rc_consecutive : consecutive_completed_height r = Z.of_nat n - 1;
  rc_status : status r = Transferring;
  rc_outstanding : outstanding_parts r = k;
  rc_waiting : waiting_for_hmu r = wt;
  rc_assembled : assembled r = None;
  rc_metadata : metadata r = None;
  rc_windows : windows_ok (win r);
}.

Lemma known_length {A} (l : list A) n : (n <= length l)%nat -> length (known l n) = length l.
Proof. intros Hn. unfold known. rewrite length_app, length_fmap, length_replicate, length_take. lia. Qed.

Lemma known_lookup {A} (l : list A) n i x :
  (n <= length l)%nat -> l !! i = Some x -> known l n !! i = Some (if decide (i < n)%nat then Some x else None).
Proof.
  intros Hn Ex. pose proof (lookup_lt_Some _ _ _ Ex). unfold known. case_decide.
  - rewrite lookup_app_l by (rewrite length_fmap, length_take; lia).
    rewrite list_lookup_fmap, lookup_take_lt by done. by rewrite Ex.
  - rewrite lookup_app_r by (rewrite length_fmap, length_take; lia). apply lookup_replicate_2.
    rewrite length_fmap, length_take. lia.
Qed.

Lemma known_nth {A} (l : list A) n i x :
  (n <= length l)%nat -> l !! i = Some x -> nth i (known l n) None = if decide (i < n)%nat then Some x else None.
Proof. intros Hn Ex. apply nth_lookup_Some. by apply known_lookup. Qed.

Lemma known_insert {A} (l : list A) n x :
  l !! n = Some x -> <[n := Some x]> (known l n) = known l (S n).
Proof.
  intros Ex. pose proof (lookup_lt_Some _ _ _ Ex) as Hn. unfold known.
  rewrite (take_S_r _ _ _ Ex), fmap_app, <- app_assoc.
  rewrite insert_app_r_alt by (rewrite length_fmap, length_take; lia). rewrite length_fmap, length_take.
  replace (n - n `min` length l)%nat with 0%nat by lia. replace (length l - n)%nat with (S (length l - S n)) by lia. done.
Qed.

Lemma hs_length : length hs = total.
Proof. apply length_fmap. Qed.

Lemma hs_lookup i c : cs !! i = Some c -> hs !! i = Some (map_hash c random).
Proof. intros E. unfold hs. by rewrite list_lookup_fmap, E. Qed.

(** *** Requests *)
Lemma collect_spec r n h k wt : forall count pn i,
  receiving r n h k wt -> (n <= pn)%nat -> (pn <= h)%nat -> (h <= total)%nat -> Z.of_nat (count + i) = window (win r) ->
  collect r pn count i = (slice pn (pn + count `min` (h - pn)) hs, (i + count `min` (h - pn))%nat,
                          (h <? total)%nat && (h - pn <? count)%nat).
Proof.
  induction count as [|count IH]; intros pn i R Hn Hp Hh Hw; cbn [collect].
  { rewrite Nat.min_0_l, !Nat.add_0_r, slice_empty. destruct (h - pn)%nat; by rewrite andb_false_r. }
  rewrite (rc_parts _ _ _ _ _ R), (rc_hashmap _ _ _ _ _ R), known_length by lia.
  destruct (Nat.leb_spec (length cs) pn) as [Hle|Hlt].
  { assert (h = pn) as -> by (lia). rewrite Nat.sub_diag, Nat.min_0_r, !Nat.add_0_r, slice_empty.
    destruct (Nat.ltb_spec pn total); [lia|done]. }
  destruct (lookup_lt_is_Some_2 cs pn Hlt) as [c Ec].
  rewrite (known_lookup cs n pn c ltac:(lia) Ec), decide_False by lia.
  rewrite (known_nth hs h pn _ ltac:(rewrite hs_length; lia) (hs_lookup _ _ Ec)).
  case_decide as Hlt'.
  - destruct (Z.leb_spec (window (win r)) (Z.of_nat (S i))).
    + assert (count = 0)%nat as -> by lia. replace (1 `min` (h - pn))%nat with 1%nat by lia.
      rewrite (slice_S pn (pn + 1) hs _ (hs_lookup _ _ Ec)) by lia. replace (pn + 1)%nat with (S pn) by lia.
      rewrite slice_empty. destruct (Nat.ltb_spec (h - pn) 1); [lia|]. rewrite andb_false_r. do 2 f_equal. lia.
    + rewrite IH by (try done; lia). rewrite (slice_S pn (pn + _) hs _ (hs_lookup _ _ Ec)) by lia.
      replace (pn + S count `min` (h - pn))%nat with (S pn + count `min` (h - S pn))%nat by lia.
      replace (h - S pn <? count)%nat with (h - pn <? S count)%nat by (destruct (Nat.ltb_spec (h - pn) (S count)), (Nat.ltb_spec (h - S pn) count); lia || done).
      do 2 f_equal. lia.
  - assert (h = pn) as -> by lia. rewrite Nat.sub_diag, Nat.min_0_r, !Nat.add_0_r, slice_empty.
    destruct (Nat.ltb_spec pn total); [done|lia].
Qed.

(** What is requested next: how many parts, and the text of the request. *)
Definition requested (r : t) (n h : nat) : nat := (Z.to_nat (window (win r)) `min` (h - n))%nat.

Definition request_marker (r : t) (n h : nat) : bytes :=
  if (h <? total)%nat && (h - n <? Z.to_nat (window (win r)))%nat
  then HASHMAP_IS_EXHAUSTED :: nth (h - 1) hs [] else [HASHMAP_IS_NOT_EXHAUSTED].

Definition request_text (r : t) (n h : nat) : bytes :=
  request_marker r n h ++ hash (fx r) ++ concat (slice n (n + requested r n h) hs).

(** What sending a request does not touch. *)
Lemma receiving_sent now len r n h k wt : receiving r n h k wt -> receiving (set_clk (note_request now len (clk r)) r) n h k wt.
Proof. intros []. by constructor. Qed.

Lemma receiving_outstanding r n h k m wt wt' :
  receiving r n h k wt -> receiving (set_waiting wt' (set_outstanding m r)) n h m wt'.
Proof. intros []. by constructor. Qed.

Lemma request_next_spec now link iv r n h k p :
  receiving r n h k false -> (n <= h)%nat -> (0 < h <= total)%nat ->
  context_packet link iv (request_text r n h) CtxResourceRequest = Some (Ok p) ->
  exists r', request_next now link iv r = Some (r', [p]) /\ fx r' = fx r /\ win r' = win r /\
    receiving r' n h (requested r n h) ((h <? total)%nat && (h - n <? Z.to_nat (window (win r)))%nat).
Proof.
  intros R Hn Hh Ep. unfold request_next. rewrite (rc_status _ _ _ _ _ R), (rc_waiting _ _ _ _ _ R).
  rewrite bool_decide_eq_false_2 by done. cbn [orb]. rewrite (rc_consecutive _ _ _ _ _ R).
  replace (Z.to_nat (Z.max 0 (Z.of_nat n - 1 + 1))) with n by lia.
  pose proof (rc_windows _ _ _ _ _ R) as [Hw _].
  rewrite (collect_spec r n h k false) by (done || lia). cbn [Nat.add]. fold (requested r n h).
  unfold request_text, request_marker in Ep. cbn [hashmap_height set_outstanding].
  set (ex := (h <? total)%nat && (h - n <? Z.to_nat (window (win r)))%nat) in *. destruct ex.
  - rewrite (rc_height _ _ _ _ _ R). destruct (Nat.eqb_spec h 0); [lia|].
    destruct (lookup_lt_is_Some_2 cs (h - 1) ltac:(lia)) as [c Ec]. pose proof (hs_lookup _ _ Ec) as El.
    cbn [hashmap set_outstanding]. rewrite (rc_hashmap _ _ _ _ _ R).
    rewrite (known_nth hs h (h - 1) _ ltac:(rewrite hs_length; lia) El), decide_True by lia.
    unfold send_request. cbn [fx set_waiting set_outstanding]. rewrite (nth_lookup_Some _ _ _ _ El) in Ep. rewrite Ep.
    cbn [mbind option_bind]. eexists. split; [done|]. split; [done|]. split; [done|].
    by apply receiving_sent, (receiving_outstanding r n h k _ false).
  - unfold send_request. cbn [fx set_outstanding]. rewrite Ep. cbn [mbind option_bind].
    eexists. split; [done|]. split; [done|]. split; [done|].
    apply receiving_sent. destruct R. by constructor.
Qed.

(** *** Parts *)
Lemma count_fast_ok rate w : windows_ok w -> windows_ok (count_fast rate w) /\ window (count_fast rate w) = window w.
Proof.
  unfold windows_ok, count_fast, WINDOW_MAX. intros ?. case_match; [|done]. cbn [window window_max]. split; [|done].
  case_match; lia.
Qed.

Lemma count_very_slow_ok rate w :
  windows_ok w -> windows_ok (count_very_slow rate w) /\ window (count_very_slow rate w) = window w.
Proof.
  unfold windows_ok, count_very_slow, WINDOW_MAX, WINDOW_MAX_FAST, WINDOW_MAX_VERY_SLOW. intros ?. case_match; [|done].
  cbn [window window_max]. split; [|done]. case_match; lia.
Qed.

Lemma grow_window_ok fl w : windows_ok w -> windows_ok (grow_window fl w).
Proof. unfold windows_ok, grow_window. intros ?. case_match; zb; [|done]. cbn [window window_max]. lia. Qed.

Lemma note_response_ok now len link r n h k wt :
  receiving r n h k wt ->
  receiving (note_response now len link r) n h k wt /\ fx (note_response now len link r) = fx r /\
  window (win (note_response now len link r)) = window (win r).
Proof.
  intros R. unfold note_response. destruct (_ && _); [|done]. destruct R. split; [constructor; try done|split; [done|]].
  - cbn [win set_win]. case_match; [by apply count_fast_ok|done].
  - cbn [win set_win]. case_match; [by apply count_fast_ok|done].
Qed.

Lemma measure_rate_ok now r n h k wt :
  receiving r n h k wt -> receiving (measure_rate now r) n h k wt /\ fx (measure_rate now r) = fx r.
Proof.
  intros R. unfold measure_rate. destruct (_ && _); [|done]. destruct R. split; [constructor; try done|done].
  cbn [win set_win]. apply count_very_slow_ok. by apply count_fast_ok.
Qed.

Lemma receiving_grown fl r n h k wt :
  receiving r n h k wt -> receiving (set_win (grow_window fl (win r)) r) n h k wt.
Proof. intros []. constructor; try done. by apply grow_window_ok. Qed.

Lemma find_slot_spec h n x : forall count start,
  (n < h <= total)%nat -> hs !! n = Some x -> (start <= n < start + count)%nat -> (n <= start + 1)%nat ->
  find_slot (known hs h) x start count = Some n.
Proof.
  induction count as [|count IH]; intros start Hn Ex Hs Hst; [lia|]. cbn [find_slot].
  destruct (lookup_lt_is_Some_2 hs start ltac:(rewrite hs_length; lia)) as [y Ey].
  rewrite (known_nth hs h start y ltac:(rewrite hs_length; lia) Ey), decide_True by lia.
  case_bool_decide as Hy.
  - injection Hy as ->. destruct (decide (start = n)) as [->|Hne]; [done|].
    exfalso. eapply (Hdistinct start n); [lia| |exact Ey|exact Ex]. assert (1 <= COLLISION_GUARD_SIZE)%nat by (vm_compute; lia). lia.
  - destruct (decide (start = n)) as [->|Hne]; [by rewrite Ex in Ey; injection Ey as ->|]. apply IH; done || lia.
Qed.

Lemma advance_height_none l cp height : advance_height (replicate l None) cp height = height.
Proof. by destruct l. Qed.

Lemma store_part_ok r n h k wt c :
  receiving r n h (S k) wt -> cs !! n = Some c ->
  receiving (store_part n c r) (S n) h k wt /\ fx (store_part n c r) = fx r.
Proof.
  intros [] Ec. pose proof (lookup_lt_Some _ _ _ Ec). unfold store_part.
  rewrite rc_parts0, (known_lookup cs n n c ltac:(lia) Ec), decide_False, (known_insert cs n c Ec) by lia.
  rewrite rc_consecutive0. destruct (Z.eqb_spec (Z.of_nat n) (Z.of_nat n - 1 + 1)); [|lia].
  split; [|done]. constructor; cbn; try done; try lia.
  unfold known. rewrite drop_app_length' by (rewrite length_fmap, length_take; lia). rewrite advance_height_none. lia.
Qed.

(** The next part arrives: nothing more, the last one, or the end of the window. *)
Lemma receive_part_spec now p link iv r n h k wt :
  receiving r n h (S k) wt -> (n < h <= total)%nat -> cs !! n = Some (payload p) ->
  exists r1, receiving r1 (S n) h k wt /\ fx r1 = fx r /\
    receive_part now p link iv r =
      (if (S n =? total)%nat then Some (true, set_status Assembling r1, [])
       else if (k =? 0)%nat then '(r', ps) ← request_next now link iv r1; Some (false, r', ps)
       else Some (false, r1, [])).
Proof.
  intros R Hn Ec. unfold receive_part. rewrite (rc_status _ _ _ _ _ R), bool_decide_eq_false_2 by done. cbv zeta.
  assert (receiving (set_retries (max_retries (fx r)) (set_clk (set_last_activity now (clk r)) r)) n h (S k) wt) as R0
    by (destruct R; by constructor).
  destruct (note_response_ok now (length (payload p)) link _ _ _ _ _ R0) as (R1 & F1 & _).
  set (r1 := note_response _ _ _ _) in *.
  assert (receiving (set_status Transferring r1) n h (S k) wt) as R2 by (destruct R1; by constructor).
  pose proof (rc_windows _ _ _ _ _ R2) as [Hw _]. cbn [random_hash fx set_status].
  rewrite (rc_consecutive _ _ _ _ _ R2), (rc_hashmap _ _ _ _ _ R2), known_length by (rewrite hs_length; lia).
  rewrite (rc_random _ _ _ _ _ R1), hs_length.
  rewrite (find_slot_spec h n (map_hash (payload p) random)); [|lia|by apply hs_lookup|lia|lia].
  destruct (store_part_ok _ n h k wt _ R2 Ec) as [R3 F3]. set (r3 := store_part _ _ _) in *.
  rewrite (rc_count _ _ _ _ _ R3), (rc_total _ _ _ _ _ R3), (rc_assembled _ _ _ _ _ R3), (rc_outstanding _ _ _ _ _ R3).
  assert (fx r3 = fx r) as F by (rewrite F3; exact F1).
  rewrite (bool_decide_eq_true_2 (None = None)), andb_true_r by done.
  destruct (S n =? total)%nat; [by exists r3|]. destruct (k =? 0)%nat eqn:Ek; [|by exists r3].
  apply (receiving_grown (window_flexibility (fx r3))) in R3.
  destruct (measure_rate_ok now _ _ _ _ _ R3) as [R4 F4]. eexists. split; [exact R4|]. by rewrite F4.
Qed.

(** *** The hashmap *)
Lemma fill_hashmap_spec : forall m h,
  (h + m <= total)%nat -> fill_hashmap (known hs h) h h (slice h (h + m) hs) = (known hs (h + m), (h + m)%nat).
Proof.
  induction m as [|m IH]; intros h Hm; [by rewrite Nat.add_0_r, slice_empty|].
  destruct (lookup_lt_is_Some_2 hs h ltac:(rewrite hs_length; lia)) as [x Ex].
  rewrite (slice_S h (h + S m) hs x Ex) by lia. cbn [fill_hashmap]. rewrite known_length, hs_length by (rewrite hs_length; lia).
  destruct (Nat.leb_spec total h); [lia|]. rewrite (known_lookup hs h h x ltac:(rewrite hs_length; lia) Ex), decide_False by lia.
  rewrite (known_insert hs h x Ex). replace (h + S m)%nat with (S h + m)%nat by lia. apply IH. lia.
Qed.

Lemma hs_short : Forall (fun h => length h = MAPHASH_LEN) hs.
Proof. apply Forall_fmap, Forall_true. intros c. cbn. unfold map_hash. rewrite length_take, sha256_length. done. Qed.

(** Segment [s] of the hashmap, for a receiver that has the [s] segments before. *)
Lemma hashmap_update_spec s r n k wt :
  let h := (s * HASHMAP_MAX_LEN)%nat in
  receiving r n h k wt -> (h < total)%nat ->
  let h' := (((s + 1) * HASHMAP_MAX_LEN) `min` total)%nat in
  receiving (hashmap_update (Z.of_nat s) (concat (slice h h' hs)) r) n h' k false /\
  fx (hashmap_update (Z.of_nat s) (concat (slice h h' hs)) r) = fx r.
Proof.
  intros h R Hh h'. assert (h < h')%nat as Hlt by (unfold h, h' in *; assert (0 < HASHMAP_MAX_LEN)%nat by (vm_compute; lia); lia).
  assert (h' <= total)%nat as Hle by lia. unfold hashmap_update.
  rewrite (rc_status _ _ _ _ _ R), bool_decide_eq_false_2 by done. cbv zeta.
  rewrite map_hashes_concat.
  2:{ pose proof hs_short as Hf. unfold slice. by apply Forall_take, Forall_drop. }
  cbn [hashmap hashmap_height set_status]. rewrite (rc_hashmap _ _ _ _ _ R), (rc_height _ _ _ _ _ R).
  rewrite known_length, hs_length by (rewrite hs_length; lia).
  destruct (Z.ltb_spec (Z.of_nat (total / HASHMAP_MAX_LEN) + 1) (Z.of_nat s)) as [Hs|_].
  { exfalso. assert (s <= total / HASHMAP_MAX_LEN)%nat; [|lia]. apply Nat.div_le_lower_bound; [done|]. unfold h in Hh. lia. }
  rewrite Nat2Z.id. fold h. pose proof (fill_hashmap_spec (h' - h) h ltac:(lia)) as Ef.
  replace (h + (h' - h))%nat with h' in Ef by lia. rewrite Ef.
  destruct (lookup_lt_is_Some_2 hs h ltac:(rewrite hs_length; lia)) as [x Ex]. rewrite (slice_S h h' hs x Ex) by lia.
  split; [|done]. destruct R. by constructor.
Qed.

Lemma hashmap_update_packet_spec now s r n k :
  let h := (s * HASHMAP_MAX_LEN)%nat in
  let h' := (((s + 1) * HASHMAP_MAX_LEN) `min` total)%nat in
  receiving r n h k true -> (h < total)%nat -> Z.of_nat total < 2 ^ 30 -> length (hash (fx r)) = HASH_SIZE ->
  let text := hash (fx r) ++ write_array_len 2 ++ write_uint (Z.of_nat s) ++ write_bin (concat (slice h h' hs)) in
  receiving (hashmap_update_packet now text r) n h' k false /\ fx (hashmap_update_packet now text r) = fx r.
Proof.
  intros h h' R Hh Ht Hl text. unfold hashmap_update_packet.
  rewrite (rc_status _ _ _ _ _ R), bool_decide_eq_false_2, (rc_waiting _ _ _ _ _ R) by done. cbn [negb]. cbv zeta.
  assert (length (concat (slice h h' hs)) <= 4 * total)%nat as Hc.
  { pose proof hs_short as Hf. rewrite length_concat_const with (n := 4%nat) by (unfold slice; by apply Forall_take, Forall_drop).
    unfold slice. rewrite length_take, length_drop, hs_length. lia. }
  assert (s <= total)%nat by (unfold h in Hh; assert (0 < HASHMAP_MAX_LEN)%nat by (vm_compute; lia); nia).
  unfold text. rewrite length_app, Hl. rewrite (proj2 (Nat.ltb_ge _ _)) by (unfold HASH_SIZE; lia).
  rewrite drop_app_length' by done.
  rewrite write_array_len_spec, rmp_array_len_spec by lia. cbn [Z.eqb Pos.eqb negb].
  rewrite write_uint_spec, rmp_int_spec by lia.
  rewrite write_bin_spec by lia. rewrite rmp_bin_len_spec by lia. rewrite Nat2Z.id.
  rewrite Nat.ltb_irrefl, take_ge by done.
  assert (receiving (set_retries (max_retries (fx r)) (set_clk (set_last_activity now (clk r)) r)) n h k true) as R'
    by (destruct R; by constructor).
  destruct (hashmap_update_spec s _ n k true R' Hh) as [R2 F2]. split; [exact R2|]. exact F2.
Qed.

End Receiver.
