(* ===== verification/Exchange.v ===== *)
(** * A whole resource transfer

    Two transports with a link between them, and the packets in flight in each
    direction.  What arrives is handled by [handle_resource_packet], and what
    that sends is put in flight: no packet is lost, and each direction keeps its
    order.  Clocks, initialization vectors and the other random draws are
    arbitrary.  The theorem composes [ResourceOut], [ResourceIn],
    [ResourceManager], [Requests], [Links] and [Token]. *)

From S2P Require Import Prelude Float Buffer Crypto Hash Packet Token Identity Msgpack Destination Links Resource.
From S2P Require Import ResourceOut ResourceIn ResourceManager Requests ResourceTransfer.

(** ** The network *)
Record Net := mkNet {
  net_tick : nat;
  node_a : Manager.t;
  end_a : Link.t;
  node_b : Manager.t;
  end_b : Link.t;
  to_b : list Packet;
  to_a : list Packet;
}.

Section Exchange.
Context `{Sha256} `{Hkdf} `{X25519} `{CbcCipher} `{HmacSha256}.
Context `{Rmp} `{RmpCursor} `{Bz2} `{Manager.Rmpv}.

(** The oldest packet to [b] is handled, or else the oldest one to [a]. *)
Definition net_step (inp : nat -> Inputs) (w : Net) : option Net :=
  let i := inp (net_tick w) in
  match to_b w, to_a w with
  | p :: ps, _ =>
      '(_, oc) ← handle_resource_packet i (node_b w) (end_b w) p;
      Some (mkNet (S (net_tick w)) (node_a w) (end_a w) (resources oc) (link_after oc) ps (to_a w ++ sent oc))
  | [], p :: ps =>
      '(_, oc) ← handle_resource_packet i (node_a w) (end_a w) p;
      Some (mkNet (S (net_tick w)) (resources oc) (link_after oc) (node_b w) (end_b w) (to_b w ++ sent oc) ps)
  | [], [] => Some w
  end.

Fixpoint net_run (inp : nat -> Inputs) (n : nat) (w : Net) : option Net :=
  match n with
  | O => Some w
  | S n => w ← net_step inp w; net_run inp n w
  end.

Definition quiet (w : Net) : Prop := to_a w = [] /\ to_b w = [].

Ltac net := cbn [node_a end_a node_b end_b to_b to_a net_tick link_after outcome resources sent].

(** ** Runs *)
Definition reaches (inp : nat -> Inputs) (w w' : Net) : Prop := exists n, net_run inp n w = Some w'.

Lemma reaches_refl inp w : reaches inp w w.
Proof. by exists O. Qed.

Lemma reaches_step inp w w1 w2 : net_step inp w = Some w1 -> reaches inp w1 w2 -> reaches inp w w2.
Proof. intros E [n En]. exists (S n). cbn [net_run]. by rewrite E. Qed.

Lemma reaches_trans inp w w1 w2 : reaches inp w w1 -> reaches inp w1 w2 -> reaches inp w w2.
Proof.
  intros [n E]. revert w E. induction n as [|n IH]; intros w E H12; cbn [net_run] in E.
  - by injection E as ->.
  - destruct (net_step inp w) as [w'|] eqn:Es; [|done]. cbn [mbind option_bind] in E.
    eapply reaches_step; [exact Es|]. by apply IH.
Qed.

(** ** Ends of the link *)
Record endpoint (id : LinkId) (key : bytes) (l : Link.t) : Prop := {
  ep_id : Link.id l = id;
  ep_key : Link.derived_key l = key;
  ep_open : open l;
}.

Lemma endpoint_marked id key at_ ps l : endpoint id key l -> endpoint id key (send_from_link at_ ps l).
Proof.
  intros E. unfold send_from_link. revert l E. induction ps as [|p ps IH]; intros l E; [done|]. cbn [fold_left].
  apply IH. destruct E. by constructor.
Qed.

Lemma send_from_link_destination at_ ps l : Link.destination (send_from_link at_ ps l) = Link.destination l.
Proof. unfold send_from_link. revert l. induction ps as [|p ps IH]; intros l; [done|]. cbn [fold_left]. by rewrite IH. Qed.

(** What a packet carries, for whoever has the key. *)
Definition sealed (key : bytes) (ctx : PacketContext) (text : bytes) (p : Packet) : Prop :=
  context p = ctx /\ forall l, Link.derived_key l = key -> Link_decrypt l (payload p) PACKET_MDU = Ok text.

Lemma text_fits_bound text : all_u8 text -> (length text <= 1900)%nat -> text_fits text.
Proof.
  intros Hu Hl. split; [done|]. rewrite pkcs7_pad_length.
  pose proof (Nat.Div0.div_le_mono (length text) 1900 16 Hl) as Hd. change (1900 / 16)%nat with 118%nat in Hd.
  unfold Token.AES128_BLOCKSIZE, FERNET_OVERHEAD_SIZE, IV_KEY_SIZE, HMAC_OUT_SIZE, PACKET_MDU. lia.
Qed.

Lemma context_packet_sealed id key l iv text ctx :
  endpoint id key l -> length iv = IV_KEY_SIZE -> all_u8 text -> (length text <= 1900)%nat ->
  exists p, context_packet l iv text ctx = Some (Ok p) /\ sealed key ctx text p.
Proof.
  intros E Hiv Hu Hl. pose proof (text_fits_bound text Hu Hl) as Hfit.
  destruct (context_packet_spec l iv text ctx (ep_open _ _ _ E) Hiv Hfit) as [Ep Hp]. eexists. split; [exact Ep|].
  split; [done|]. intros l' El. rewrite Hp, (ep_key _ _ _ E), <- El. by apply Link_decrypt_spec.
Qed.

(** The stream is decrypted with a larger buffer. *)
Lemma stream_opens l l' iv text n :
  Link.derived_key l = Link.derived_key l' -> length iv = IV_KEY_SIZE -> all_u8 text ->
  (length (Outgoing.stream_token l iv text) <= n)%nat ->
  Link_decrypt l' (Outgoing.stream_token l iv text) n = Ok text.
Proof.
  intros Ek Hiv Hu Hn. unfold Outgoing.stream_token in *. rewrite Ek in *.
  unfold Link_decrypt, PrivateIdentity_decrypt_derived.
  pose proof (token_of_length (derived_fernet (Link.derived_key l')) iv text Hiv) as Hl.
  rewrite (proj2 (Nat.leb_gt _ _)) by (unfold FERNET_OVERHEAD_SIZE, PUBLIC_KEY_LENGTH, IV_KEY_SIZE, HMAC_OUT_SIZE in *; lia).
  apply decrypt_token_opens; [done|done|lia].
Qed.

(** ** Managers with one resource on the link *)
Definition with_out (id : LinkId) (o : Outgoing.t) (m : Manager.t) : Manager.t :=
  Manager.set_out (<[id := [o]]> (Manager.out m)) m.

Definition with_in (id : LinkId) (r : Incoming.t) (m : Manager.t) : Manager.t :=
  Manager.set_incoming (<[id := [r]]> (Manager.incoming m)) m.

Lemma out_of_with id o m : Manager.out_of id (with_out id o m) = [o].
Proof. unfold Manager.out_of. cbn. by rewrite lookup_insert_eq. Qed.

Lemma put_out_with id o o' m : Manager.put_out id [o'] (with_out id o m) = with_out id o' m.
Proof. unfold Manager.put_out, with_out. cbn. by rewrite lookup_insert_eq, insert_insert_eq. Qed.

Lemma incoming_of_with id r m : Manager.incoming_of id (with_in id r m) = [r].
Proof. unfold Manager.incoming_of. cbn. by rewrite lookup_insert_eq. Qed.

Lemma put_incoming_with id r r' m : Manager.put_incoming id [r'] (with_in id r m) = with_in id r' m.
Proof. unfold Manager.put_incoming, with_in. cbn. by rewrite lookup_insert_eq, insert_insert_eq. Qed.

Lemma put_incoming_send id r r' e m :
  Manager.put_incoming id [r'] (Manager.send_event e (with_in id r m)) = with_in id r' (Manager.send_event e m).
Proof. unfold Manager.put_incoming, with_in. cbn. by rewrite lookup_insert_eq, insert_insert_eq. Qed.

(** A request finds the resource it names. *)
Lemma handle_request_one now l ivs marker last rest o m :
  length (Outgoing.hash (Outgoing.fx o)) = HASH_SIZE -> is_concluded (Outgoing.status o) = false ->
  (marker = HASHMAP_IS_NOT_EXHAUSTED /\ last = [] \/ marker = HASHMAP_IS_EXHAUSTED /\ length last = MAPHASH_LEN) ->
  let text := marker :: last ++ Outgoing.hash (Outgoing.fx o) ++ rest in
  Manager.handle_request_data now l ivs text (with_out (Link.id l) o m) =
    '(o', ps) ← Outgoing.request now l (ivs 0%nat) text o; Some (with_out (Link.id l) o' m, ps ++ []).
Proof.
  intros Hh Hst Hm text. unfold Manager.handle_request_data. unfold HASH_SIZE in Hh.
  assert (forall n, n = length last -> take 32 (drop (1 + n) text) = Outgoing.hash (Outgoing.fx o)) as Ht.
  { intros n ->. unfold text. cbn [Nat.add drop]. rewrite drop_app_length. by apply take_app_length'. }
  assert (length text = 1 + length last + 32 + length rest)%nat as Hl.
  { unfold text. cbn [length]. rewrite !length_app, Hh. lia. }
  rewrite out_of_with. cbn [Manager.request_loop].
  assert (bool_decide (head text = Some HASHMAP_IS_EXHAUSTED) = (length last =? MAPHASH_LEN)%nat) as ->.
  { unfold text. cbn [head]. by destruct Hm as [[-> ->]|[-> ->]]. }
  assert ((if (length last =? MAPHASH_LEN)%nat then (1 + MAPHASH_LEN)%nat else 1%nat) = (1 + length last)%nat) as ->.
  { by destruct Hm as [[_ ->]|[_ ->]]. }
  rewrite (proj2 (Nat.ltb_ge _ _)) by lia. rewrite Ht by done.
  rewrite bool_decide_eq_true_2, Hst by done. cbn [andb negb].
  destruct (Outgoing.request now l (ivs 0%nat) text o) as [[o' ps]|]; [|done].
  cbn [mbind option_bind]. by rewrite put_out_with.
Qed.

(** A part goes to the one resource. *)
Lemma handle_part_one now p l ivs r m :
  is_concluded (Incoming.status r) = false -> Incoming.is_response (Incoming.fx r) = false ->
  (forall c r' ps, Incoming.receive_part now p l (ivs 0%nat) r = Some (c, r', ps) -> Incoming.fx r' = Incoming.fx r) ->
  Manager.handle_part now p l ivs (with_in (Link.id l) r m) =
    '(c, r', ps) ← Incoming.receive_part now p l (ivs 0%nat) r; Some (with_in (Link.id l) r' m, ps ++ [], c || false).
Proof.
  intros Hst Hre Hfx. unfold Manager.handle_part. rewrite incoming_of_with. cbn [Manager.part_loop]. rewrite Hst.
  destruct (Incoming.receive_part now p l (ivs 0%nat) r) as [[[c r'] ps]|] eqn:E; [|done]. cbn [mbind option_bind orb].
  assert (Incoming.request_progress r' = None) as ->.
  { unfold Incoming.request_progress. by rewrite (Hfx _ _ _ eq_refl), Hre. }
  rewrite put_incoming_with. by destruct (_ =? _)%nat.
Qed.

(** A hashmap update names its resource. *)
Lemma handle_hashmap_one now l iv text r m :
  length (Incoming.hash (Incoming.fx r)) = HASH_SIZE -> take 32 text = Incoming.hash (Incoming.fx r) ->
  Manager.handle_hashmap_update now l iv text (with_in (Link.id l) r m) =
    '(r', ps) ← Incoming.request_next now l iv (Incoming.hashmap_update_packet now text r);
    Some (with_in (Link.id l) r' m, ps).
Proof.
  intros Hh Ht. unfold Manager.handle_hashmap_update. rewrite incoming_of_with. cbn [Manager.hashmap_loop].
  rewrite bool_decide_eq_true_2 by done.
  assert (32 <= length text)%nat as Hl.
  { rewrite <- Ht, length_take in Hh. unfold HASH_SIZE in Hh. lia. }
  rewrite (proj2 (Nat.leb_le _ _)) by done. cbn [andb].
  destruct (Incoming.request_next _ _ _ _) as [[r' ps]|]; [|done]. cbn [mbind option_bind]. by rewrite put_incoming_with.
Qed.

(** ** The transfer of the parts *)
Section Transfer.
Context (id : LinkId) (key : bytes) (cs : list bytes) (random : bytes) (fo : Outgoing.fixed) (fr : Incoming.fixed).
Context (ma mb : Manager.t) (dest : AddressHash) (inp : nat -> Inputs).
Let hs : list bytes := (fun c => map_hash c random) <$> cs.
#[local] Abbreviation total := (length cs) (only parsing).

Definition part_packet (c : bytes) (p : Packet) : Prop := context p = CtxResource /\ payload p = c.

(** What the sender and the receiver agree on. *)
Record agreed : Prop := {
  ag_fixed : fixed_ok fo;
  ag_hashes : Outgoing.part_hashes fo = hs;
  ag_parts : Forall2 part_packet cs (Outgoing.parts fo);
  ag_hash : Incoming.hash fr = Outgoing.hash fo;
  ag_hash_u8 : all_u8 (Outgoing.hash fo);
  ag_plain : Incoming.is_response fr = false;
  ag_total : (0 < total)%nat /\ Z.of_nat total < 2 ^ 30;
  ag_ivs : forall k i, length (loop_ivs (inp k) i) = IV_KEY_SIZE;
}.
Context (Hag : agreed).

#[local] Abbreviation receiving := (receiving cs random) (only parsing).
#[local] Abbreviation request_text := (request_text cs random) (only parsing).

Definition exhausted (r : Incoming.t) (n h : nat) : bool :=
  (h <? total)%nat && (h - n <? Z.to_nat (Incoming.window (Incoming.win r)))%nat.

Lemma agreed_distinct : Outgoing.distinct_within COLLISION_GUARD_SIZE hs.
Proof. rewrite <- (ag_hashes Hag). apply (ag_fixed Hag). Qed.

Lemma agreed_length : length (Outgoing.parts fo) = total.
Proof. symmetry. eapply Forall2_length, (ag_parts Hag). Qed.

Lemma hash_length : length (Outgoing.hash fo) = HASH_SIZE.
Proof. apply (ag_fixed Hag). Qed.

(** The nodes while parts are transferred; the lists are what is in flight. *)
Record between (w : Net) (o : Outgoing.t) (r : Incoming.t) (bs qs : list Packet) : Prop := {
  bt_a : node_a w = with_out id o ma;
  bt_b : node_b w = with_in id r mb;
  bt_end_a : endpoint id key (end_a w);
  bt_end_b : endpoint id key (end_b w);
  bt_dest : desc_address_hash (Link.destination (end_b w)) = dest;
  bt_to_b : to_b w = bs;
  bt_to_a : to_a w = qs;
  bt_out : Outgoing.fx o = fo;
  bt_in : Incoming.fx r = fr;
}.

(** [s] segments of the hashmap are known, and the first [n] parts are there. *)
Record position (o : Outgoing.t) (n s : nat) : Prop := {
  po_serving : serving o n ((s - 1) * HASHMAP_MAX_LEN - 76);
  po_live : is_concluded (Outgoing.status o) = false;
  po_segments : (0 < s)%nat /\ ((s - 1) * HASHMAP_MAX_LEN < total)%nat;
  po_reached : ((s - 1) * HASHMAP_MAX_LEN <= n)%nat;
}.

Definition height (s : nat) : nat := ((s * HASHMAP_MAX_LEN) `min` total)%nat.

(** A request is in flight. *)
Definition asking (w : Net) (n s : nat) : Prop :=
  exists o r p, between w o r [] [p] /\ position o n s /\ (n < total)%nat /\ (n <= height s)%nat /\
    receiving r n (height s) (requested r n (height s)) (exhausted r n (height s)) /\
    sealed key CtxResourceRequest (request_text r n (height s)) p.

(** Parts are in flight, then perhaps the next segment of the hashmap. *)
Definition serving_parts (w : Net) (n k s : nat) (wt : bool) : Prop :=
  exists o r tail, between w o r (slice n (n + k) (Outgoing.parts fo) ++ tail) [] /\ (n + k <= height s)%nat /\
    receiving r n (height s) k wt /\
    if wt then (n + k = height s)%nat /\ (height s < total)%nat /\ position o (n + k) (S s) /\
      exists q, tail = [q] /\ sealed key CtxResourceHashUpdate (hmu_text fo s) q
    else tail = [] /\ position o (n + k) s.

Lemma hs_u8 n m : all_u8 (concat (slice n m hs)).
Proof.
  assert (Forall all_u8 hs) as Hf.
  { apply Forall_fmap, Forall_true. intros c. apply all_u8_take, sha256_u8. }
  assert (Forall all_u8 (slice n m hs)) as Hs by (unfold slice; by apply Forall_take, Forall_drop).
  induction Hs as [|x l Hx _ IH]; [constructor|]. apply all_u8_app. by split.
Qed.

Lemma hs_slice_length n m : (length (concat (slice n m hs)) <= 4 * (m - n))%nat.
Proof.
  rewrite (length_concat_const MAPHASH_LEN).
  - unfold slice. rewrite length_take. unfold MAPHASH_LEN. lia.
  - pose proof (hs_short cs random). unfold slice. by apply Forall_take, Forall_drop.
Qed.

Lemma msgpack_uint_u8 n : 0 <= n -> all_u8 (msgpack_uint n).
Proof.
  intros Hn. unfold msgpack_uint. repeat case_match; zb; apply all_u8_cons; (split; [|apply Forall_nil_2 || apply be_encode_u8]);
    apply is_u8_bound; lia.
Qed.

Lemma msgpack_bin_header_u8 n : all_u8 (msgpack_bin_header n).
Proof.
  unfold msgpack_bin_header. repeat case_match; zb; apply all_u8_cons; (split; [done|apply be_encode_u8]).
Qed.

Lemma hashmap_max_len : HASHMAP_MAX_LEN = 74%nat.
Proof. reflexivity. Qed.

Lemma hmu_text_small f k :
  Outgoing.part_hashes f = hs -> length (Outgoing.parts f) = total -> all_u8 (Outgoing.hash f) ->
  length (Outgoing.hash f) = HASH_SIZE -> Z.of_nat k < 2 ^ 30 ->
  all_u8 (hmu_text f k) /\ (length (hmu_text f k) <= 1900)%nat.
Proof.
  intros Eh El Hu Hl Hk. unfold hmu_text, Outgoing.hashmap_update_data. rewrite Eh, El.
  pose proof (hs_slice_length (k * HASHMAP_MAX_LEN) (((k + 1) * HASHMAP_MAX_LEN) `min` total)) as Hc.
  pose proof (hs_u8 (k * HASHMAP_MAX_LEN) (((k + 1) * HASHMAP_MAX_LEN) `min` total)) as Hcu.
  set (d := concat _) in *. rewrite hashmap_max_len in Hc. assert (length d <= 296)%nat as Hd by lia.
  rewrite write_array_len_spec, write_uint_spec, write_bin_spec by lia.
  unfold HASH_SIZE in *. split.
  - apply all_u8_app. split; [done|]. apply all_u8_app. split; [by repeat constructor|].
    apply all_u8_app. split; [apply msgpack_uint_u8; lia|]. apply all_u8_app. split; [apply msgpack_bin_header_u8|done].
  - unfold msgpack_header, msgpack_uint, msgpack_bin_header. rewrite !length_app, Hl. repeat case_match; cbn [length]; rewrite ?be_encode_length; lia.
Qed.

Lemma request_text_small (r : Incoming.t) n h k wt :
  receiving r n h k wt -> Incoming.fx r = fr -> (0 < h <= total)%nat ->
  all_u8 (request_text r n h) /\ (length (request_text r n h) <= 1900)%nat.
Proof.
  intros R Ef Hh. pose proof (rc_windows _ _ _ _ _ _ _ R) as [Hw _]. unfold ResourceTransfer.request_text.
  rewrite Ef, (ag_hash Hag). pose proof (hs_slice_length n (n + requested r n h)) as Hc.
  assert (requested r n h <= 75)%nat as Hr.
  { unfold requested, WINDOW_MAX, WINDOW_MAX_FAST in *. lia. }
  pose proof hash_length as Hl. unfold HASH_SIZE in Hl. fold hs.
  assert (all_u8 (request_marker cs random r n h) /\ (length (request_marker cs random r n h) <= 5)%nat) as [Mu Ml].
  { unfold request_marker. fold hs. destruct (_ && _); [|split; [by repeat constructor|simpl; lia]].
    destruct (lookup_lt_is_Some_2 cs (h - 1) ltac:(lia)) as [c Ec].
    assert (hs !! (h - 1)%nat = Some (map_hash c random)) as El by (unfold hs; by rewrite list_lookup_fmap, Ec).
    rewrite (nth_lookup_Some _ _ _ _ El). unfold map_hash. split.
    - apply all_u8_cons. split; [done|]. apply all_u8_take, sha256_u8.
    - cbn [length]. rewrite length_take. unfold MAPHASH_LEN. lia. }
  split.
  - apply all_u8_app. split; [done|]. apply all_u8_app. split; [apply (ag_hash_u8 Hag)|apply hs_u8].
  - rewrite !length_app, Hl. lia.
Qed.

Lemma height_pos s : (0 < s)%nat -> (0 < height s <= total)%nat.
Proof. intros Hs. pose proof (ag_total Hag). unfold height. rewrite hashmap_max_len. lia. Qed.

Lemma request_marker_cases r n h :
  (0 < h <= total)%nat -> exists marker last, request_marker cs random r n h = marker :: last /\
    (marker = HASHMAP_IS_NOT_EXHAUSTED /\ last = [] \/ marker = HASHMAP_IS_EXHAUSTED /\ length last = MAPHASH_LEN).
Proof.
  intros Hh. unfold request_marker. fold hs. destruct (_ && _); [|by eexists _, _; split; [done|left]].
  eexists _, _. split; [done|]. right. split; [done|].
  destruct (lookup_lt_is_Some_2 hs (h - 1) ltac:(unfold hs; rewrite length_fmap; lia)) as [x Ex].
  rewrite (nth_lookup_Some _ _ _ _ Ex). exact (Forall_lookup_1 _ _ _ _ (hs_short cs random) Ex).
Qed.

Lemma request_handled i l p o r n h o' ps :
  endpoint id key l -> Outgoing.fx o = fo -> Incoming.fx r = fr -> is_concluded (Outgoing.status o) = false ->
  (0 < h <= total)%nat -> sealed key CtxResourceRequest (request_text r n h) p ->
  Outgoing.request (unix_time i) l (loop_ivs i 0%nat) (request_text r n h) o = Some (o', ps) ->
  handle_resource_packet i (with_out id o ma) l p = Some (true, outcome i (with_out id o' ma) l ps).
Proof.
  intros Pa Eo Ei Hlive Hh [Hctx Hdec] E. unfold handle_resource_packet. rewrite Hctx, Hdec by apply Pa. cbv zeta.
  rewrite <- (ep_id _ _ _ Pa). destruct (request_marker_cases r n h Hh) as (marker & last & Em & Hm).
  unfold ResourceTransfer.request_text in *. rewrite Em, Ei, (ag_hash Hag), <- Eo in *. cbn [app] in *.
  rewrite handle_request_one; [|rewrite Eo; apply hash_length|done|done]. rewrite E. cbn. by rewrite app_nil_r.
Qed.

Lemma answer_parts now l iv o r n s :
  Outgoing.fx o = fo -> Incoming.fx r = fr -> position o n s -> (n <= height s)%nat ->
  exhausted r n (height s) = false ->
  let m := requested r n (height s) in
  exists o', Outgoing.request now l iv (request_text r n (height s)) o = Some (o', slice n (n + m) (Outgoing.parts fo)) /\
    Outgoing.fx o' = fo /\ position o' (n + m) s.
Proof.
  intros Eo Ei [Hs Hlive [Hs0 Hs1] Hreach] Hh Hex m. pose proof agreed_length as Hlen. pose proof hashmap_max_len as E74.
  destruct (request_parts_spec now l iv n m ((s - 1) * HASHMAP_MAX_LEN - 76) o) as (o' & E & Ef & Hs' & Hl').
  - rewrite Eo. apply (ag_fixed Hag).
  - done.
  - lia.
  - rewrite Eo, Hlen. unfold m, requested, height in *. change COLLISION_GUARD_SIZE with 224%nat. lia.
  - exists o'. split; [|split; [congruence|constructor; try done; lia]].
    unfold ResourceTransfer.request_text, request_marker. rewrite Ei, (ag_hash Hag). fold hs.
    fold (exhausted r n (height s)). rewrite Hex. rewrite Eo, (ag_hashes Hag) in E. exact E.
Qed.

Lemma answer_more now l iv o r n s :
  endpoint id key l -> length iv = IV_KEY_SIZE -> Outgoing.fx o = fo -> Incoming.fx r = fr -> position o n s ->
  (n <= height s)%nat -> exhausted r n (height s) = true ->
  exists o' q, Outgoing.request now l iv (request_text r n (height s)) o
      = Some (o', slice n (height s) (Outgoing.parts fo) ++ [q]) /\
    Outgoing.fx o' = fo /\ position o' (height s) (S s) /\ sealed key CtxResourceHashUpdate (hmu_text fo s) q /\
    (n + requested r n (height s) = height s)%nat /\ (height s < total)%nat.
Proof.
  intros Pa Hiv Eo Ei [Hs Hlive [Hs0 Hs1] Hreach] Hh Hex. pose proof agreed_length as Hlen. pose proof hashmap_max_len as E74.
  pose proof Hex as [Hlt%Nat.ltb_lt Hw%Nat.ltb_lt]%andb_true_iff.
  assert (height s = (s * HASHMAP_MAX_LEN)%nat) as Eh by (unfold height in *; lia).
  assert (n + requested r n (height s) = height s)%nat as Em by (unfold requested; lia).
  destruct (hmu_text_small fo s (ag_hashes Hag) Hlen (ag_hash_u8 Hag) hash_length) as [Hu Hl];
    [pose proof (ag_total Hag); lia|].
  destruct (context_packet_sealed id key l iv _ CtxResourceHashUpdate Pa Hiv Hu Hl) as (q & Eq & Hq).
  destruct (lookup_lt_is_Some_2 hs (height s - 1) ltac:(unfold hs; rewrite length_fmap; lia)) as [last El].
  destruct (request_more_spec now l iv n s ((s - 1) * HASHMAP_MAX_LEN - 76) o last q) as (o' & E & Ef & Hs' & Hl').
  all: try rewrite Eo; try (apply (ag_fixed Hag)); try done; try (change COLLISION_GUARD_SIZE with 224%nat); try lia.
  - by rewrite (ag_hashes Hag), <- Eh.
  - exists o', q. split; [|split; [congruence|split; [constructor|split; [done|split; [done|lia]]]]].
    + unfold ResourceTransfer.request_text, request_marker. rewrite Ei, (ag_hash Hag), Em. fold hs.
      fold (exhausted r n (height s)). rewrite Hex, (nth_lookup_Some _ _ _ _ El).
      rewrite Eo, (ag_hashes Hag), <- Eh in E. exact E.
    + rewrite Eh. by replace (S s - 1)%nat with s by lia.
    + done.
    + replace (S s - 1)%nat with s by lia. lia.
    + replace (S s - 1)%nat with s by lia. lia.
Qed.

(** The sender answers a request. *)
Lemma asking_answered w n s :
  asking w n s -> exists w' k wt, net_step inp w = Some w' /\ ((0 < k)%nat \/ wt = true) /\ serving_parts w' n k s wt.
Proof.
  intros (o & r & p & B & P & Hn & Hh & R & Hp). pose proof (rc_windows _ _ _ _ _ _ _ R) as [Hw _].
  destruct B as [Ea Eb Pa Pb Ed Etb Eta Eo Ei]. set (i := inp (net_tick w)).
  assert (forall o' ps, Outgoing.request (unix_time i) (end_a w) (loop_ivs i 0%nat) (request_text r n (height s)) o = Some (o', ps) ->
    Outgoing.fx o' = fo -> exists w', net_step inp w = Some w' /\ between w' o' r ps []) as Hstep.
  { intros o' ps E Ef. eexists. unfold net_step. rewrite Etb, Eta, Ea. fold i.
    rewrite (request_handled i _ p o r n (height s) o' ps) by
      (try done; first [apply (po_live _ _ _ P)|apply height_pos, (proj1 (po_segments _ _ _ P))]). split; [done|].
    constructor; try done. by apply endpoint_marked. }
  destruct (exhausted r n (height s)) eqn:Hex.
  - destruct (answer_more (unix_time i) (end_a w) (loop_ivs i 0%nat) o r n s) as (o' & q & E & Ef & Pos & Hq & Em & Hlt);
      try done; [apply (ag_ivs Hag)|].
    destruct (Hstep _ _ E Ef) as (w' & Ew & Bw). exists w', (requested r n (height s)), true.
    split; [done|]. split; [by right|]. exists o', r, [q]. rewrite Em. split; [done|]. split; [lia|]. split; [done|].
    repeat (split; [done|]). by exists q.
  - destruct (answer_parts (unix_time i) (end_a w) (loop_ivs i 0%nat) o r n s) as (o' & E & Ef & Pos); try done.
    destruct (Hstep _ _ E Ef) as (w' & Ew & Bw). exists w', (requested r n (height s)), false.
    split; [done|]. assert (0 < requested r n (height s) /\ n + requested r n (height s) <= height s)%nat as [Hr Hr'].
    { unfold exhausted in Hex. apply andb_false_iff in Hex. unfold requested.
      destruct Hex as [Hx%Nat.ltb_ge|Hx%Nat.ltb_ge]; pose proof (height_pos s (proj1 (po_segments _ _ _ P))); lia. }
    split; [by left|]. exists o', r, []. rewrite app_nil_r. done.
Qed.


(** The receiver asks for the next parts. *)
Lemma receiver_asks now l iv r n h k :
  endpoint id key l -> length iv = IV_KEY_SIZE -> Incoming.fx r = fr -> receiving r n h k false ->
  (n <= h)%nat -> (0 < h <= total)%nat ->
  exists r' q, Incoming.request_next now l iv r = Some (r', [q]) /\ Incoming.fx r' = fr /\
    receiving r' n h (requested r' n h) (exhausted r' n h) /\ sealed key CtxResourceRequest (request_text r' n h) q.
Proof.
  intros P Hiv Ef R Hn Hh. destruct (request_text_small r n h k false R Ef Hh) as [Hu Hl].
  destruct (context_packet_sealed id key l iv _ CtxResourceRequest P Hiv Hu Hl) as (q & Eq & Hq).
  destruct (request_next_spec cs random now l iv r n h k q R Hn Hh Eq) as (r' & E & Ef' & Ew & R').
  exists r', q. assert (requested r' n h = requested r n h) as Er by (unfold requested; by rewrite Ew).
  split; [done|]. split; [congruence|]. split.
  - rewrite Er. unfold exhausted. by rewrite Ew.
  - assert (request_text r' n h = request_text r n h) as ->; [|done].
    unfold ResourceTransfer.request_text, request_marker. by rewrite Er, Ew, Ef'.
Qed.

(** What a part does to the receiver: the last one, one within the window, or
    the last of the window. *)
Lemma part_received now l ivs p r n h k wt :
  endpoint id key l -> length (ivs 0%nat) = IV_KEY_SIZE -> Incoming.fx r = fr -> receiving r n h (S k) wt ->
  (n < h <= total)%nat -> Outgoing.parts fo !! n = Some p ->
  exists r', Incoming.fx r' = fr /\
    if (S n =? total)%nat then
      Manager.handle_part now p l ivs (with_in id r mb) = Some (with_in id (Incoming.set_status Assembling r') mb, [], true) /\
      receiving r' (S n) h k wt
    else if negb (k =? 0)%nat || wt then
      Manager.handle_part now p l ivs (with_in id r mb) = Some (with_in id r' mb, [], false) /\ receiving r' (S n) h k wt
    else exists q, Manager.handle_part now p l ivs (with_in id r mb) = Some (with_in id r' mb, [q], false) /\
      receiving r' (S n) h (requested r' (S n) h) (exhausted r' (S n) h) /\
      sealed key CtxResourceRequest (request_text r' (S n) h) q.
Proof.
  intros P Hiv Ef R Hn Ep. destruct (lookup_lt_is_Some_2 cs n ltac:(lia)) as [c Ec].
  pose proof (Forall2_lookup_lr _ _ _ _ _ _ (ag_parts Hag) Ec Ep) as [Hctx Hpay]. rewrite <- Hpay in Ec.
  destruct (receive_part_spec cs random agreed_distinct now p l (ivs 0%nat) r n h k wt R Hn Ec) as (r1 & R1 & F1 & E).
  rewrite Ef in F1. assert (is_concluded (Incoming.status r) = false) as Hst by by rewrite (rc_status _ _ _ _ _ _ _ R).
  assert (forall c r' ps, Incoming.receive_part now p l (ivs 0%nat) r = Some (c, r', ps) -> Incoming.fx r' = fr ->
    Manager.handle_part now p l ivs (with_in id r mb) = Some (with_in id r' mb, ps, c)) as Hh.
  { intros c' r' ps E' F'. rewrite <- (ep_id _ _ _ P), handle_part_one.
    - rewrite E'. cbn. by rewrite app_nil_r, orb_false_r.
    - done.
    - rewrite Ef. apply (ag_plain Hag).
    - intros ? ? ? E2. rewrite E' in E2. injection E2 as <- <- <-. congruence. }
  destruct (Nat.eqb_spec (S n) total) as [Et|Et]; [by exists r1; split; [done|]; split; [apply Hh|]|].
  destruct (Nat.eqb_spec k 0) as [->|Hk]; cbn [negb orb].
  - destruct wt.
    + assert (Incoming.request_next now l (ivs 0%nat) r1 = Some (r1, [])) as En.
      { unfold Incoming.request_next. by rewrite (rc_waiting _ _ _ _ _ _ _ R1), orb_true_r. }
      rewrite En in E. exists r1. split; [done|]. split; [by apply Hh|done].
    + destruct (receiver_asks now l (ivs 0%nat) r1 (S n) h 0) as (r' & q & Eq & F' & R' & Hq); try done; try lia.
      rewrite Eq in E. exists r'. split; [done|]. exists q. split; [by apply Hh|done].
  - exists r1. split; [done|]. split; [by apply Hh|done].
Qed.

(** Only the last part is in flight. *)
Definition last_part (w : Net) : Prop :=
  exists o r n p, between w o r [p] [] /\ Outgoing.parts fo !! n = Some p /\ S n = total /\
    receiving r n total 1 false /\ is_concluded (Outgoing.status o) = false.

(** The next segment of the hashmap arrives. *)
Lemma hashmap_arrives w o r q n s :
  between w o r [q] [] -> receiving r n (height s) 0 true -> n = height s -> (height s < total)%nat ->
  position o n (S s) -> sealed key CtxResourceHashUpdate (hmu_text fo s) q ->
  exists w', net_step inp w = Some w' /\ asking w' n (S s).
Proof.
  intros [Ea Eb Pa Pb Ed Etb Eta Eo Ei] R En Hlt Pos [Hctx Hdec]. set (i := inp (net_tick w)).
  assert (height s = (s * HASHMAP_MAX_LEN)%nat) as Eh by (unfold height in *; lia).
  assert (height (S s) = ((s + 1) * HASHMAP_MAX_LEN) `min` total)%nat as Eh' by (unfold height; lia).
  pose proof (ag_total Hag) as [_ Ht30]. pose proof (height_pos (S s) ltac:(lia)) as Hp.
  destruct (hashmap_update_packet_spec cs random (unix_time i) s r n 0) as [R' F'].
  { by rewrite <- Eh. }
  { lia. }
  { done. }
  { rewrite Ei, (ag_hash Hag). apply hash_length. }
  rewrite <- Eh', Ei, (ag_hash Hag) in R', F'. fold hs in R', F'.
  assert (hmu_text fo s = Outgoing.hash fo ++ write_array_len 2 ++ write_uint (Z.of_nat s)
            ++ write_bin (concat (slice (s * HASHMAP_MAX_LEN) (height (S s)) hs))) as Et.
  { unfold hmu_text, Outgoing.hashmap_update_data. by rewrite (ag_hashes Hag), agreed_length, Eh'. }
  rewrite <- Et in R', F'.
  destruct (receiver_asks (unix_time i) (end_b w) (loop_ivs i 0%nat) _ n (height (S s)) 0 Pb (ag_ivs Hag _ _) F' R')
    as (r' & p & E & F & R2 & Hp2); [unfold height in *; lia|done|].
  eexists. split.
  - unfold net_step. rewrite Etb, Eb. fold i. unfold handle_resource_packet. rewrite Hctx, Hdec by apply Pb. cbv zeta.
    rewrite <- (ep_id _ _ _ Pb). rewrite handle_hashmap_one, E; [done| |].
    + rewrite Ei, (ag_hash Hag). apply hash_length.
    + rewrite Et, Ei, (ag_hash Hag). apply take_app_length'. symmetry. apply hash_length.
  - exists o, r', p. split; [|split; [done|split; [lia|split; [unfold height in *; lia|split; done]]]].
    constructor; try done; net.
    + by rewrite (ep_id _ _ _ Pb).
    + by apply endpoint_marked.
    + by rewrite Eta.
Qed.

(** What is in flight arrives. *)
Lemma parts_arrive s wt : forall k w n,
  serving_parts w n k s wt -> (0 < k)%nat \/ wt = true -> (0 < s)%nat ->
  exists w', reaches inp w w' /\ (last_part w' \/ asking w' (n + k) (if wt then S s else s)).
Proof.
  induction k as [|k IH]; intros w n (o & r & tail & B & Hle & R & Ht) Hk Hs0.
  - destruct Hk as [?| ->]; [lia|]. destruct Ht as (Hn & Hlt & Pos & q & -> & Hq). rewrite Nat.add_0_r in *.
    rewrite slice_empty in B. destruct (hashmap_arrives w o r q n s) as (w' & E & A); try done.
    exists w'. split; [by eapply reaches_step; [exact E|apply reaches_refl]|by right].
  - pose proof (height_pos s Hs0) as Hhp. pose proof B as [Ea Eb Pa Pb Ed Etb Eta Eo Ei].
    destruct (lookup_lt_is_Some_2 (Outgoing.parts fo) n ltac:(rewrite agreed_length; lia)) as [p Ep].
    rewrite (slice_S n (n + S k) _ p Ep) in Etb by lia. cbn [app] in Etb. set (i := inp (net_tick w)).
    pose proof (Forall2_lookup_r _ _ _ _ _ (ag_parts Hag) Ep) as (c & _ & Hctx & _).
    destruct (part_received (unix_time i) (end_b w) (loop_ivs i) p r n (height s) k wt Pb (ag_ivs Hag _ _) Ei R ltac:(lia) Ep)
      as (r' & F' & Hcase).
    destruct (Nat.eqb_spec (S n) total) as [Et|Et].
    { exists w. split; [apply reaches_refl|]. left. assert (k = 0)%nat as -> by lia.
      assert (height s = total) as Eht by lia. destruct wt; [lia|]. destruct Ht as [-> Pos].
      exists o, r, n, p. rewrite Eht in R. split; [|split; [done|split; [done|split; [done|apply Pos]]]].
      rewrite (slice_S n (n + 1) _ p Ep), Nat.add_1_r, slice_empty in B by lia. exact B. }
    assert (forall qs, Manager.handle_part (unix_time i) p (end_b w) (loop_ivs i) (with_in id r mb) = Some (with_in id r' mb, qs, false) ->
      exists w1, net_step inp w = Some w1 /\ between w1 o r' (slice (S n) (n + S k) (Outgoing.parts fo) ++ tail) qs) as Hstep.
    { intros qs E. eexists. unfold net_step. rewrite Etb, Eb. fold i. unfold handle_resource_packet, handle_resource_part.
      rewrite Hctx, E. cbn. split; [done|]. constructor; try done; net.
      - by apply endpoint_marked.
      - by rewrite send_from_link_destination.
      - by rewrite Eta. }
    destruct (negb (k =? 0)%nat || wt) eqn:Hkw.
    + destruct Hcase as [E R']. destruct (Hstep _ E) as (w1 & Es & B1).
      replace (n + S k)%nat with (S n + k)%nat in * by lia.
      destruct (IH w1 (S n)) as (w' & Hr & Hw'); [by exists o, r', tail| |done|].
      { apply orb_true_iff in Hkw as [Hk0|Hwt]; [left|by right]. destruct k; [done|lia]. }
      exists w'. split; [by eapply reaches_step|done].
    + apply orb_false_iff in Hkw as [Hk0 ->]. assert (k = 0)%nat as -> by (destruct k; [done|discriminate]).
      destruct Hcase as (q & E & R' & Hq). destruct (Hstep _ E) as (w1 & Es & B1). destruct Ht as [-> Pos].
      rewrite Nat.add_1_r, slice_empty in *. exists w1. split; [by eapply reaches_step; [exact Es|apply reaches_refl]|].
      right. exists o, r', q. split; [exact B1|]. split; [exact Pos|]. split; [lia|]. split; [lia|]. done.
Qed.

(** Whatever is asked for first, the last part comes. *)
Lemma asking_completes w n s : asking w n s -> exists w', reaches inp w w' /\ last_part w'.
Proof.
  remember ((total - n) + (S total * HASHMAP_MAX_LEN - s))%nat as fuel eqn:Ef.
  revert w n s Ef. induction fuel as [fuel IH] using lt_wf_ind. intros w n s -> A.
  pose proof A as (o & r & p & _ & P & Hn & _). destruct (po_segments _ _ _ P) as [Hs0 Hs1].
  assert (s < S total * HASHMAP_MAX_LEN)%nat as Hsb by (rewrite hashmap_max_len in *; lia).
  destruct (asking_answered w n s A) as (w1 & k & wt & Es & Hk & Hsp).
  destruct (parts_arrive s wt k w1 n Hsp Hk Hs0) as (w2 & Hr & [Hl|A2]).
  - exists w2. split; [by eapply reaches_step|done].
  - eapply IH in A2 as (w3 & Hr3 & Hl3); [| |reflexivity].
    + exists w3. split; [|done]. eapply reaches_step; [exact Es|]. by eapply reaches_trans.
    + destruct wt; destruct Hk as [Hk|Hk]; try done; lia.
Qed.

End Transfer.

(** ** Assembly *)
Lemma metadata_length_prefix (n : Z) rest :
  0 <= n < 2 ^ 24 -> Incoming.metadata_length (drop 1 (be_encode 4 (wrap 32 n)) ++ rest) = Z.to_nat n.
Proof.
  intros Hn. rewrite wrap_small by (unfold in_width; lia). unfold Incoming.metadata_length. cbn [be_encode app drop nth]. f_equal.
  change 16 with (8 + 8). rewrite <- Z.shiftl_shiftl by lia.
  rewrite <- Z.shiftl_lor, (lor_shiftl_add _ _ 8), (lor_shiftl_add _ _ 8) by div_lia. div_lia.
Qed.

Lemma raw_packet_spec id key l d ty ctx :
  endpoint id key l -> (length d <= PACKET_MDU)%nat ->
  exists p, raw_packet l d ty ctx = Ok p /\ context p = ctx /\ payload p = d.
Proof.
  intros P Hd. unfold raw_packet. assert (ready (Link.status l) = Ok ()) as -> by by destruct (ep_open _ _ _ P) as [-> | ->].
  eexists. split; [done|]. split; [done|]. apply (buffer_holds_chain [] _ d buffer_holds_new). simpl. lia.
Qed.

Lemma parts_are_packets id key l n cs ps :
  endpoint id key l -> Forall (fun c => Z.of_nat (length c) <= n) cs -> n <= Z.of_nat PACKET_MDU ->
  Forall2 (fun c p => raw_packet l c Data CtxResource = Ok p) cs ps -> Forall2 part_packet cs ps.
Proof.
  intros P Hsm Hn Hps. induction Hps as [|c p cs ps Hc _ IH]; [constructor|]. apply Forall_cons_iff in Hsm as [Hl Hsm].
  constructor; [|by apply IH]. destruct (raw_packet_spec id key l c Data CtxResource P) as (p' & Ep & Hctx & Hpay); [lia|].
  rewrite Ep in Hc. injection Hc as <-. done.
Qed.

(** What was compressed is decompressed. *)
Lemma decompress_compress d en lim max :
  all_u8 d -> Z.of_nat (length d) <= max ->
  let '(prepared, compressed) := maybe_compress d en lim in
  all_u8 prepared /\ (length prepared <= length d)%nat /\ (if compressed then decompress prepared max else Ok prepared) = Ok d.
Proof.
  intros Hu Hl. unfold maybe_compress. destruct (_ || _ || _); [done|].
  destruct (Nat.ltb_spec (length (bz2_compress d)) (length d)); [|done].
  split; [apply bz2_compress_u8|]. split; [lia|]. unfold decompress. rewrite bz2_stream_compress by done.
  by rewrite (proj2 (Z.ltb_ge _ _)).
Qed.

(** ** The end of the transfer *)
Definition metadata_blob (md : option bytes) : bytes :=
  match md with
  | Some packed => drop 1 (be_encode 4 (wrap 32 (Z.of_nat (length packed)))) ++ packed
  | None => []
  end.

Section Completion.
Context (id : LinkId) (key : bytes) (cs : list bytes) (random : bytes) (fo : Outgoing.fixed) (fr : Incoming.fixed).
Context (ma mb : Manager.t) (dest : AddressHash) (inp : nat -> Inputs) (Hag : agreed cs random fo fr inp).
Context (data : bytes) (md : option bytes) (enabled : bool) (limit : Z) (iv : bytes).
#[local] Abbreviation seg := (metadata_blob md ++ data) (only parsing).

(** What the stream holds, and what the ends know of it. *)
Record content : Prop := {
  ct_stream : concat cs = token_of (derived_fernet key) iv (random ++ (maybe_compress seg enabled limit).1);
  ct_iv : length iv = IV_KEY_SIZE;
  ct_random : length random = RANDOM_HASH_SIZE /\ all_u8 random;
  ct_seg : all_u8 seg /\ Z.of_nat (length seg) <= Manager.max_decompressed_size mb;
  ct_md : match md with Some packed => Z.of_nat (length packed) <= METADATA_MAX_SIZE | None => True end;
  ct_compressed : Incoming.compressed fr = (maybe_compress seg enabled limit).2;
  ct_encrypted : Incoming.encrypted fr = true;
  ct_split : Incoming.split fr = false /\ Outgoing.split fo = false;
  ct_segment : Incoming.segment_index fr = 1;
  ct_has_metadata : Incoming.has_metadata fr = bool_decide (is_Some md);
  ct_hash : Outgoing.hash fo = sha256 (seg ++ random);
  ct_proof : Outgoing.expected_proof fo = sha256 (seg ++ Outgoing.hash fo);
  ct_request : Incoming.request_id fr = None /\ Outgoing.request_id fo = None;
  ct_handlers : Manager.request_handlers mb !! dest = None /\ Manager.async_request_handlers mb !! dest = None;
}.
Context (Hct : content).

#[local] Abbreviation total := (length cs) (only parsing).
#[local] Abbreviation receiving := (receiving cs random) (only parsing).

Lemma known_all {A} (l : list A) : omap (fun x => x) (known l (length l)) = l.
Proof.
  unfold known. rewrite Nat.sub_diag, take_ge, app_nil_r by done. induction l as [|x l IH]; [done|]. cbn. by rewrite IH.
Qed.

Lemma open_stream_spec l r k wt :
  Link.derived_key l = key -> Incoming.fx r = fr -> receiving r total total k wt ->
  Incoming.open_stream l (Manager.max_decompressed_size mb) (Incoming.set_status Assembling r) = Ok seg.
Proof.
  intros Ek Ef R. unfold Incoming.open_stream. cbn [Incoming.parts Incoming.fx Incoming.set_status].
  rewrite (rc_parts _ _ _ _ _ _ _ R), known_all, Ef, (ct_encrypted Hct), (ct_compressed Hct), (ct_stream Hct).
  destruct (ct_seg Hct) as [Hu Hl]. destruct (ct_random Hct) as [Lr Ur].
  pose proof (decompress_compress seg enabled limit _ Hu Hl) as Hd.
  destruct (maybe_compress seg enabled limit) as [prep comp]. destruct Hd as (Up & _ & Hd). cbn [fst snd].
  pose proof (stream_opens l l iv (random ++ prep) (length (Outgoing.stream_token l iv (random ++ prep)) + 256) eq_refl (ct_iv Hct)) as Ho.
  unfold Outgoing.stream_token in Ho. rewrite Ek in Ho. rewrite Ho; [|by apply all_u8_app|lia].
  cbn [mbind result_bind]. rewrite <- Lr, drop_app_length. exact Hd.
Qed.

Lemma assemble_spec l r k wt :
  Link.derived_key l = key -> Incoming.fx r = fr -> receiving r total total k wt ->
  Incoming.assemble l (Manager.max_decompressed_size mb) (Incoming.set_status Assembling r)
    = (Ok data, Incoming.set_assembled (Some seg) md (Incoming.set_status Assembling r)).
Proof.
  intros Ek Ef R. unfold Incoming.assemble. rewrite (open_stream_spec l r k wt) by done.
  cbn [Incoming.fx Incoming.set_status Incoming.metadata]. rewrite Ef, (ag_hash _ _ _ _ _ Hag), (ct_hash Hct).
  assert (Incoming.random_hash fr = random) as -> by (rewrite <- Ef; apply (rc_random _ _ _ _ _ _ _ R)).
  rewrite bool_decide_eq_true_2 by done. cbn [negb]. rewrite (ct_has_metadata Hct), (ct_segment Hct), (rc_metadata _ _ _ _ _ _ _ R).
  pose proof (ct_md Hct) as Hmd. unfold metadata_blob. destruct md as [packed|]; [|done].
  rewrite bool_decide_eq_true_2 by done. cbn [andb Z.eqb Pos.eqb].
  assert (length (drop 1 (be_encode 4 (wrap 32 (Z.of_nat (length packed))))) = 3%nat) as L3
    by (rewrite length_drop, be_encode_length; done).
  rewrite <- app_assoc. rewrite metadata_length_prefix by (unfold METADATA_MAX_SIZE in Hmd; lia). rewrite Nat2Z.id.
  rewrite !length_app, L3. rewrite !(proj2 (Nat.ltb_ge _ _)) by lia.
  assert (drop (3 + length packed) (drop 1 (be_encode 4 (wrap 32 (Z.of_nat (length packed)))) ++ packed ++ data) = data) as ->.
  { rewrite app_assoc. apply drop_app_length'. rewrite length_app. lia. }
  assert (slice 3 (3 + length packed) (drop 1 (be_encode 4 (wrap 32 (Z.of_nat (length packed)))) ++ packed ++ data) = packed) as ->.
  { unfold slice. rewrite drop_app_length' by done. apply take_app_length'. lia. }
  done.
Qed.

(** The event with the data. *)
Definition delivers (e : Manager.ResourceEvent) : Prop :=
  Manager.event_link_id e = id /\ Manager.event_hash e = Outgoing.hash fo /\ Manager.event_status e = Complete /\
  Manager.event_data e = Some data /\ Manager.event_metadata e = md.

Definition proof_text : bytes := Outgoing.hash fo ++ sha256 (seg ++ Outgoing.hash fo).

Lemma assemble_completed_spec now l ivs r k wt :
  endpoint id key l -> Incoming.fx r = fr -> receiving r total total k wt ->
  exists r' p e, Manager.assemble_completed now l ivs (with_in id (Incoming.set_status Assembling r) mb)
      = Some (with_in id r' (Manager.send_event e mb), [p], Some (Outgoing.hash fo, data)) /\
    context p = CtxResourceProof /\ payload p = proof_text /\ delivers e.
Proof.
  intros P Ef R. destruct (raw_packet_spec id key l proof_text Proof CtxResourceProof P) as (p & Ep & Hctx & Hpay).
  { unfold proof_text. rewrite length_app, sha256_length, (ct_hash Hct), sha256_length. unfold PACKET_MDU. lia. }
  unfold Manager.assemble_completed. rewrite (ep_id _ _ _ P), incoming_of_with. cbn [Manager.assemble_loop].
  unfold Manager.assemble_one. cbn [Incoming.assembled Incoming.status Incoming.set_status].
  rewrite (rc_assembled _ _ _ _ _ _ _ R), (bool_decide_eq_false_2 (is_Some None)), (bool_decide_eq_true_2 (Assembling = Assembling))
    by (done || by intros [? ?]).
  cbn [negb orb Incoming.fx]. change (Manager.max_decompressed_size (with_in id _ mb)) with (Manager.max_decompressed_size mb).
  rewrite (assemble_spec l r k wt (ep_key _ _ _ P) Ef R).
  change (Incoming.fx (Incoming.set_status Assembling r)) with (Incoming.fx r). rewrite Ef, (ag_plain _ _ _ _ _ Hag). cbn [andb].
  cbn [Incoming.assembled Incoming.set_assembled mbind option_bind]. unfold Incoming.prove. cbn [Incoming.fx Incoming.set_status Incoming.set_assembled].
  rewrite Ef, (ag_hash _ _ _ _ _ Hag). fold proof_text. rewrite Ep. cbn [mbind option_bind].
  unfold Manager.assembled_one. cbn [Incoming.fx Incoming.set_clk Incoming.set_status Incoming.set_assembled Incoming.metadata].
  rewrite Ef, (proj1 (ct_split Hct)), (ag_plain _ _ _ _ _ Hag). cbn [andb mbind option_bind fmap option_fmap option_map app].
  eexists _, p, _. split; [|split; [done|split; [done|]]].
  - rewrite put_incoming_send, (ag_hash _ _ _ _ _ Hag). reflexivity.
  - unfold delivers. cbn. by rewrite (ep_id _ _ _ P).
Qed.

(** Without a handler for the destination nothing is dispatched. *)
Lemma no_handler i m l rid time path d :
  desc_address_hash (Link.destination l) = dest ->
  Manager.request_handlers m = Manager.request_handlers mb ->
  Manager.async_request_handlers m = Manager.async_request_handlers mb ->
  handle_incoming_request i m l rid time path d = Some (mkOutcome m l [] []).
Proof.
  intros Ed E1 E2. unfold handle_incoming_request, Manager.async_request_handler, Manager.request_handler.
  destruct (ct_handlers Hct) as [Hr Ha]. by rewrite Ed, E1, E2, Hr, Ha.
Qed.

(** The data was delivered and its proof is in flight. *)
Definition proved (w : Net) : Prop :=
  exists o r p e, node_a w = with_out id o ma /\ endpoint id key (end_a w) /\ Outgoing.fx o = fo /\
    is_concluded (Outgoing.status o) = false /\ node_b w = with_in id r (Manager.send_event e mb) /\ delivers e /\
    to_b w = [] /\ to_a w = [p] /\ context p = CtxResourceProof /\ payload p = proof_text.

Lemma last_part_proved w :
  last_part id key cs random fo fr ma mb dest w -> exists w', net_step inp w = Some w' /\ proved w'.
Proof.
  intros (o & r & n & p & B & Ep & En & R & Hlive). destruct B as [Ea Eb Pa Pb Ed Etb Eta Eo Ei]. set (i := inp (net_tick w)).
  pose proof (Forall2_lookup_r _ _ _ _ _ (ag_parts _ _ _ _ _ Hag) Ep) as (c & _ & Hctx & _).
  destruct (part_received id key cs random fo fr mb inp Hag (unix_time i) (end_b w) (loop_ivs i) p r n total 0 false Pb
    (ag_ivs _ _ _ _ _ Hag _ _) Ei R ltac:(lia) Ep) as (r1 & F1 & Hcase).
  rewrite (proj2 (Nat.eqb_eq _ _) En), En in Hcase. destruct Hcase as [E R1].
  destruct (assemble_completed_spec (unix_time i) (end_b w) (assemble_ivs i) r1 0 false Pb F1 R1)
    as (r' & q & e & Easm & Hqc & Hqp & He).
  eexists. unfold net_step. rewrite Etb, Eb. fold i. unfold handle_resource_packet, handle_resource_part. rewrite Hctx, E.
  cbn [mbind option_bind negb]. change (send_from_link (instant i) [] (end_b w)) with (end_b w). rewrite Easm.
  cbn [mbind option_bind snd]. set (l' := send_from_link (instant i) [q] (end_b w)).
  assert (forall rid time path d, handle_incoming_request i (with_in id r' (Manager.send_event e mb)) l' rid time path d
    = Some (mkOutcome (with_in id r' (Manager.send_event e mb)) l' [] [])) as Hno by (intros; by apply no_handler).
  destruct (Manager.unpack_request data) as [[[time path] d]|]; cbn [mbind option_bind]; rewrite ?Hno; cbn [mbind option_bind];
    (split; [done|]); exists o, r', q, e; net; rewrite Eta; done.
Qed.

Lemma proof_accepted w :
  proved w -> exists w' r e e', net_step inp w = Some w' /\ quiet w' /\
    node_b w' = with_in id r (Manager.send_event e mb) /\ delivers e /\
    Manager.events (node_a w') = Manager.events ma ++ [e'] /\ Manager.event_hash e' = Outgoing.hash fo /\
    Manager.event_status e' = Complete /\ Manager.out (node_a w') !! id = None.
Proof.
  intros (o & r & p & e & Ea & Pa & Eo & Hlive & Eb & He & Etb & Eta & Hctx & Hpay). set (i := inp (net_tick w)).
  assert (length (Outgoing.hash fo) = 32%nat) as Lh by (rewrite (ct_hash Hct); apply sha256_length).
  assert (length proof_text = 64%nat) as Lp by (unfold proof_text; by rewrite length_app, sha256_length, Lh).
  assert (take 32 proof_text = Outgoing.hash fo) as Tp by (unfold proof_text; by apply take_app_length').
  assert (drop 32 proof_text = sha256 (seg ++ Outgoing.hash fo)) as Dp by (unfold proof_text; by apply drop_app_length').
  assert (exists e', Manager.handle_proof (unix_time i) (end_a w) (loop_ivs i) (segment_draws i) proof_text (with_out id o ma)
    = Some (Manager.set_events (Manager.events ma ++ [e']) (with_out id (Outgoing.set_status Complete o) ma), []) /\
    Manager.event_hash e' = Outgoing.hash fo /\ Manager.event_status e' = Complete) as (e' & Ep & He1 & He2).
  { unfold Manager.handle_proof. rewrite Lp, (ep_id _ _ _ Pa), out_of_with, Tp. cbn [Nat.eqb negb Manager.proof_loop].
    rewrite Eo, bool_decide_eq_true_2, bool_decide_eq_false_2 by (done || (intros E; by rewrite E in Hlive)). cbn [negb orb].
    unfold Outgoing.validate_proof. rewrite Lp, Dp, Eo, (ct_proof Hct), bool_decide_eq_true_2 by done. cbn [Nat.eqb andb negb].
    unfold Manager.following_segment. cbn [Outgoing.fx Outgoing.set_status]. rewrite Eo, (proj2 (ct_split Hct)). cbn [andb negb mbind option_bind].
    cbn [Outgoing.fx Outgoing.set_status]. rewrite Eo, (proj2 (ct_request Hct)).
    rewrite put_out_with. eexists. split; [by destruct (_ && _)|]. cbn. by rewrite Eo. }
  eexists _, r, e, e'. unfold net_step. rewrite Etb, Eta, Ea. fold i. unfold handle_resource_packet. rewrite Hctx, Hpay, Ep.
  split; [done|]. split; [done|]. split; [done|]. split; [done|]. split; [done|]. split; [done|]. split; [done|].
  cbn. rewrite lookup_omap, lookup_insert_eq. done.
Qed.

End Completion.

(** ** The start of the transfer *)

Definition segment_of (data : bytes) (opts : ResourceOptions) : bytes := metadata_blob (opt_metadata opts) ++ data.

Definition prepared_of (data : bytes) (opts : ResourceOptions) : bytes * bool :=
  maybe_compress (segment_of data opts) (should_auto_compress opts (Z.of_nat (length data))) (2 ^ 64 - 1).

(** What [new] made of the data. *)
Record created (l : Link.t) (data : bytes) (opts : ResourceOptions) (o : Outgoing.t) (cs : list bytes) (random iv : bytes)
    : Prop := {
  cr_random : length random = RANDOM_HASH_SIZE /\ all_u8 random;
  cr_iv : length iv = IV_KEY_SIZE;
  cr_stream : concat cs = Outgoing.stream_token l iv (random ++ (prepared_of data opts).1);
  cr_total : length cs = Outgoing.total_parts_of (Z.to_nat (Outgoing.link_sdu l)) (length (concat cs));
  cr_small : Forall (fun c => Z.of_nat (length c) <= Outgoing.link_sdu l) cs;
  cr_hashes : Outgoing.part_hashes (Outgoing.fx o) = (fun c => map_hash c random) <$> cs;
  cr_distinct : Outgoing.distinct_within COLLISION_GUARD_SIZE (Outgoing.part_hashes (Outgoing.fx o));
  cr_parts : Forall2 (fun c p => raw_packet l c Data CtxResource = Ok p) cs (Outgoing.parts (Outgoing.fx o));
  cr_hash : Outgoing.hash (Outgoing.fx o) = sha256 (segment_of data opts ++ random);
  cr_original : Outgoing.original_hash (Outgoing.fx o) = Outgoing.hash (Outgoing.fx o);
  cr_proof : Outgoing.expected_proof (Outgoing.fx o) = sha256 (segment_of data opts ++ Outgoing.hash (Outgoing.fx o));
  cr_random_hash : Outgoing.random_hash (Outgoing.fx o) = random;
  cr_size : Outgoing.size (Outgoing.fx o) = Z.of_nat (length (concat cs));
  cr_data_size : Outgoing.total_size (Outgoing.fx o) = Z.of_nat (length (segment_of data opts));
  cr_flags : Outgoing.encrypted (Outgoing.fx o) = true /\ Outgoing.compressed (Outgoing.fx o) = (prepared_of data opts).2 /\
    Outgoing.split (Outgoing.fx o) = false /\ Outgoing.has_metadata (Outgoing.fx o) = bool_decide (is_Some (opt_metadata opts));
  cr_segment : Outgoing.segment_index (Outgoing.fx o) = 1 /\ Outgoing.total_segments (Outgoing.fx o) = 1;
  cr_request : Outgoing.request_id (Outgoing.fx o) = opt_request_id opts /\
    Outgoing.is_response (Outgoing.fx o) = opt_is_response opts;
  cr_fresh : Outgoing.part_sent o = replicate (length cs) false /\ Outgoing.sent_parts o = 0%nat /\
    Outgoing.receiver_min_consecutive_height o = 0%nat;
}.

Definition metadata_ok (md : option bytes) : Prop :=
  match md with Some packed => Z.of_nat (length packed) <= METADATA_MAX_SIZE | None => True end.

Lemma stage_bytes_spec data opts :
  metadata_ok (opt_metadata opts) ->
  let seg := metadata_blob (opt_metadata opts) ++ data in
  Z.of_nat (length seg) <= MAX_EFFICIENT_SIZE ->
  exists n, Outgoing.stage_bytes data opts = Ok (Outgoing.mkStaged seg (Outgoing.Memory seg) (Z.of_nat (length data))
    (Z.of_nat (length seg)) 1 (bool_decide (is_Some (opt_metadata opts))) n).
Proof.
  intros Hmd seg Hl.
  assert (exists n, Outgoing.metadata_prefix opts
    = Ok (metadata_blob (opt_metadata opts), bool_decide (is_Some (opt_metadata opts)), n)) as [n E].
  { unfold Outgoing.metadata_prefix. destruct (opt_metadata opts) as [packed|]; [|by eexists].
    rewrite (proj2 (Z.ltb_ge _ _)) by done. by eexists. }
  exists n. unfold Outgoing.stage_bytes. rewrite E. cbn [mbind result_bind]. fold seg.
  unfold Outgoing.stage_source, Outgoing.segment_range. rewrite (proj2 (Z.leb_le _ _)) by done. cbn [fst snd].
  replace (Z.to_nat ((1 - 1) * MAX_EFFICIENT_SIZE)) with 0%nat by lia.
  replace (Z.to_nat (Z.min (1 * MAX_EFFICIENT_SIZE) (Z.of_nat (length seg)))) with (length seg) by lia.
  unfold Outgoing.read_range. rewrite (proj2 (Nat.ltb_ge (length seg) 0)), Nat.ltb_irrefl by lia. cbn [mbind result_bind]. unfold slice. rewrite drop_0, Nat.sub_0_r.
  by rewrite take_ge.
Qed.

Lemma new_spec now draw draws data l opts o :
  Outgoing.new now draw draws data l opts = Some (Ok o) ->
  Outgoing.draws_ok (draw :: draws) -> metadata_ok (opt_metadata opts) -> 0 < Outgoing.link_sdu l ->
  Z.of_nat (length (metadata_blob (opt_metadata opts) ++ data)) <= MAX_EFFICIENT_SIZE ->
  exists cs random iv, created l data opts o cs random iv.
Proof.
  intros E Hd Hmd Hsdu Hl. apply Forall_cons_iff in Hd as [(Ld & Ud & Liv) Hd].
  unfold Outgoing.new in E. destruct (stage_bytes_spec data opts Hmd Hl) as [n Es]. rewrite Es in E.
  unfold Outgoing.finish_staged, Outgoing.from_segment_bytes in E.
  cbn [Outgoing.segment_data Outgoing.staged_source Outgoing.staged_input_len Outgoing.staged_total_size Outgoing.staged_total_segments
       Outgoing.staged_has_metadata Outgoing.staged_metadata_size] in E.
  set (seg := metadata_blob (opt_metadata opts) ++ data) in *.
  destruct (maybe_compress seg (should_auto_compress opts (Z.of_nat (length data))) (2 ^ 64 - 1)) as [prep comp] eqn:Ec.
  rewrite Outgoing.encrypt_alloc_spec in E by done. cbn [mbind option_bind] in E. rewrite take_ge in E by done.
  destruct (Z.eqb_spec (Outgoing.link_sdu l) 0); [lia|]. fold (Outgoing.total_parts_of (Z.to_nat (Outgoing.link_sdu l))
    (length (Outgoing.stream_token l draw.2 (take RANDOM_HASH_SIZE draw.1 ++ prep)))) in E.
  destruct (Outgoing.map_loop _ _ _ _ _ _ _ _) as [[[[random ps] hs]|]|] eqn:Em; try done. cbn [mbind option_bind] in E.
  assert (length (take RANDOM_HASH_SIZE draw.1) = RANDOM_HASH_SIZE) as Lr by (rewrite length_take, Ld; done).
  apply Outgoing.map_loop_spec in Em as [(iv & Hiv & Hr & Hru & Hcs) Hsize]; try done; [|by apply all_u8_take].
  injection E as <-. set (e := Outgoing.stream_token l iv (random ++ prep)) in Hcs.
  destruct (Outgoing.chunk_list_spec (Z.to_nat (Outgoing.link_sdu l)) e ltac:(lia)) as (Hcat & Hlen & Hsm).
  destruct Hcs as (-> & Hdist & Hps). set (cs := Outgoing.chunk_list _ e _ _) in *.
  assert (length (Outgoing.stream_token l draw.2 (take RANDOM_HASH_SIZE draw.1 ++ prep)) = length e) as Ele.
  { unfold e. apply Outgoing.stream_token_length; try done. rewrite !length_app. lia. }
  exists cs, random, iv. constructor; cbn [Outgoing.fx Outgoing.part_hashes Outgoing.parts Outgoing.hash Outgoing.original_hash
    Outgoing.expected_proof Outgoing.random_hash Outgoing.size Outgoing.total_size Outgoing.encrypted Outgoing.compressed Outgoing.split
    Outgoing.has_metadata Outgoing.segment_index Outgoing.total_segments Outgoing.request_id Outgoing.is_response Outgoing.part_sent
    Outgoing.sent_parts Outgoing.receiver_min_consecutive_height]; unfold prepared_of, segment_of; fold seg; rewrite ?Ec; try done.
  - by rewrite Hcat.
  - eapply Forall_impl; [|exact Hsm]. cbn. lia.
  - by rewrite Hcat, Ele.
  - by rewrite Hlen, Ele.
Qed.

(** *** The advertisement fits in a packet *)
Definition piece (d : bytes) (n : nat) : Prop := all_u8 d /\ (length d <= n)%nat.

Lemma piece_app d e n m : piece d n -> piece e m -> piece (d ++ e) (n + m).
Proof. intros [? ?] [? ?]. split; [by apply all_u8_app|]. rewrite length_app. lia. Qed.

Lemma piece_uint n : 0 <= n < 2 ^ 64 -> piece (write_uint n) 9.
Proof.
  intros Hn. rewrite write_uint_spec by done. split; [apply msgpack_uint_u8; lia|].
  unfold msgpack_uint. repeat case_match; cbn [length]; rewrite ?be_encode_length; lia.
Qed.

Lemma piece_bin d n : piece d n -> (n <= 1000)%nat -> piece (write_bin d) (5 + n).
Proof.
  intros [Hu Hl] Hn. rewrite write_bin_spec by lia. apply piece_app; [|done]. split; [apply msgpack_bin_header_u8|].
  unfold msgpack_bin_header. repeat case_match; cbn [length]; rewrite ?be_encode_length; lia.
Qed.

Lemma piece_nil : piece write_nil 1.
Proof. rewrite write_nil_spec. split; [by repeat constructor|done]. Qed.

Lemma piece_key k : is_u8 k -> piece (adv_key k) 2.
Proof.
  intros Hk. split; [|done]. apply all_u8_cons. split; [done|]. apply all_u8_cons. split; [done|apply Forall_nil_2].
Qed.

Lemma adv_pack_small a :
  adv_wf a -> adv_request_id a = None -> all_u8 (adv_hash a) -> all_u8 (adv_random_hash a) -> all_u8 (adv_original_hash a) ->
  piece (adv_hashmap a) 296 -> piece (adv_pack a) 1900.
Proof.
  intros (Ht & Hd & Hp & Lh & Lr & Lo & Hi & Hs & _ & Hf & _) En Uh Ur Uo Hm. unfold adv_pack. rewrite En.
  unfold in_width in *. apply (proj1 (is_u8_bound _)) in Hf.
  assert (forall d n, piece d n -> (n <= 1900)%nat -> piece d 1900) as Hw by (intros d n [? ?] ?; split; [done|lia]).
  eapply Hw.
  - repeat first [apply piece_key; by vm_compute|apply piece_uint; unfold MAX_EFFICIENT_SIZE in *; lia
      |apply piece_nil|eapply piece_bin; [exact Hm|lia]
      |apply (piece_bin _ HASH_SIZE); [split; [done|unfold HASH_SIZE in *; lia]|unfold HASH_SIZE; lia]
      |apply (piece_bin _ RANDOM_HASH_SIZE); [split; [done|lia]|unfold RANDOM_HASH_SIZE; lia]
      |apply (piece_app [Z.lor 0x80 11] _ 1); [split; [by repeat constructor|done]|]|eapply piece_app].
  - vm_compute. lia.
Qed.

(** *** The receiver accepts *)
Lemma stream_token_bound l iv text :
  length iv = IV_KEY_SIZE ->
  (0 < length (Outgoing.stream_token l iv text) <= length text + 80)%nat.
Proof.
  intros Hiv. unfold Outgoing.stream_token. rewrite token_of_length, pkcs7_pad_length by done.
  pose proof (Nat.div_mod (length text) 16 ltac:(lia)).
  unfold FERNET_OVERHEAD_SIZE, IV_KEY_SIZE, HMAC_OUT_SIZE, Token.AES128_BLOCKSIZE. lia.
Qed.

Lemma flags_of_decode c s h adv :
  adv_flags adv = flags_of true c s h None false ->
  adv_encrypted adv = true /\ adv_compressed adv = c /\ adv_split adv = s /\ adv_has_metadata adv = h /\ is_u8 (adv_flags adv).
Proof.
  intros E. unfold adv_encrypted, adv_compressed, adv_split, adv_has_metadata, has_flag. rewrite E. by destruct c, s, h.
Qed.

Section Start.
Context (la lb : Link.t) (data : bytes) (opts : ResourceOptions) (o : Outgoing.t) (cs : list bytes) (random iv : bytes).
Context (Hcr : created la data opts o cs random iv).
#[local] Abbreviation seg := (metadata_blob (opt_metadata opts) ++ data) (only parsing).
#[local] Abbreviation fo := (Outgoing.fx o) (only parsing).
Let adv : ResourceAdvertisement := Outgoing.advertisement o.

Record start_ok : Prop := {
  st_size : Z.of_nat (length seg) <= MAX_EFFICIENT_SIZE;
  st_sdu : 0 < Outgoing.link_sdu la;
  st_bytes : all_u8 seg;
  st_request : opt_request_id opts = None /\ opt_is_response opts = false;
}.
Context (Hst : start_ok).

Lemma parts_length : length (Outgoing.parts fo) = length cs.
Proof. symmetry. eapply Forall2_length, (cr_parts _ _ _ _ _ _ _ Hcr). Qed.

Lemma stream_size : (0 < length (concat cs))%nat /\ Z.of_nat (length (concat cs)) <= MAX_EFFICIENT_SIZE + 84.
Proof.
  rewrite (cr_stream _ _ _ _ _ _ _ Hcr). destruct (cr_random _ _ _ _ _ _ _ Hcr) as [Lr _].
  pose proof (stream_token_bound la iv (random ++ (prepared_of data opts).1) (cr_iv _ _ _ _ _ _ _ Hcr)) as Hb.
  rewrite length_app, Lr in Hb.
  pose proof (decompress_compress seg (should_auto_compress opts (Z.of_nat (length data))) (2 ^ 64 - 1) MAX_EFFICIENT_SIZE
    (st_bytes Hst) (st_size Hst)) as Hd.
  unfold prepared_of, segment_of in *. destruct (maybe_compress _ _ _) as [prep comp]. destruct Hd as (_ & Hl & _). cbn [fst] in *.
  pose proof (st_size Hst). unfold RANDOM_HASH_SIZE in Hb. lia.
Qed.

Lemma parts_bound : (0 < length cs)%nat /\ (length cs <= length (concat cs))%nat /\ Z.of_nat (length cs) < 2 ^ 30.
Proof.
  destruct stream_size as [Hs Hm]. pose proof (st_sdu Hst).
  destruct (Outgoing.ceil_div_bounds (length (concat cs)) (Z.to_nat (Outgoing.link_sdu la)) ltac:(lia)) as [H1' H2'].
  specialize (H2' Hs). fold (Outgoing.total_parts_of (Z.to_nat (Outgoing.link_sdu la)) (length (concat cs))) in H1', H2'.
  rewrite <- (cr_total _ _ _ _ _ _ _ Hcr) in H1', H2'. unfold MAX_EFFICIENT_SIZE in Hm.
  assert (0 < length cs)%nat by nia. assert (length cs <= length (concat cs))%nat by nia. lia.
Qed.

Lemma adv_flags_ok :
  adv_encrypted adv = true /\ adv_compressed adv = (prepared_of data opts).2 /\ adv_split adv = false /\
  adv_has_metadata adv = bool_decide (is_Some (opt_metadata opts)) /\ is_u8 (adv_flags adv).
Proof.
  apply flags_of_decode. unfold adv, Outgoing.advertisement. cbn [adv_flags].
  destruct (cr_flags _ _ _ _ _ _ _ Hcr) as (-> & -> & -> & ->). destruct (cr_request _ _ _ _ _ _ _ Hcr) as [-> ->].
  by destruct (st_request Hst) as [-> ->].
Qed.

Lemma adv_request_none : adv_request_id adv = None.
Proof. cbn. rewrite (proj1 (cr_request _ _ _ _ _ _ _ Hcr)). apply (st_request Hst). Qed.

Lemma adv_hashmap_slice :
  adv_hashmap adv = concat (slice 0 (((0 + 1) * HASHMAP_MAX_LEN) `min` length cs)%nat ((fun c => map_hash c random) <$> cs)).
Proof.
  unfold adv, Outgoing.advertisement. cbn [adv_hashmap]. rewrite (cr_hashes _ _ _ _ _ _ _ Hcr), length_fmap.
  unfold slice. by rewrite drop_0, Nat.sub_0_r, Nat.add_0_l, Nat.mul_1_l.
Qed.

Lemma adv_wf_ok : adv_wf adv /\ piece (adv_pack adv) 1900.
Proof.
  destruct stream_size as [Hs Hm]. destruct parts_bound as (Hp & _ & Hp2). pose proof (st_size Hst).
  assert (piece (adv_hashmap adv) 296) as Hmap.
  { rewrite adv_hashmap_slice. split; [apply hs_u8|].
    etransitivity; [apply hs_slice_length|]. rewrite hashmap_max_len. lia. }
  destruct (cr_random _ _ _ _ _ _ _ Hcr) as [Lr Ur].
  assert (length (adv_hash adv) = HASH_SIZE /\ all_u8 (adv_hash adv)) as [Lh Uh].
  { cbn. rewrite (cr_hash _ _ _ _ _ _ _ Hcr). split; [apply sha256_length|apply sha256_u8]. }
  assert (adv_wf adv) as Hwf.
  { unfold adv_wf. destruct adv_flags_ok as (_ & _ & _ & _ & Hf). rewrite adv_request_none.
    cbn [adv Outgoing.advertisement adv_transfer_size adv_data_size adv_parts adv_random_hash adv_original_hash adv_segment_index adv_total_segments].
    rewrite (cr_size _ _ _ _ _ _ _ Hcr), (cr_data_size _ _ _ _ _ _ _ Hcr), (cr_random_hash _ _ _ _ _ _ _ Hcr),
      (cr_original _ _ _ _ _ _ _ Hcr), parts_length.
    destruct (cr_segment _ _ _ _ _ _ _ Hcr) as [-> ->]. unfold segment_of, in_width. unfold MAX_EFFICIENT_SIZE in *.
    repeat (split; [first [lia|done]|]). destruct Hmap. unfold fits32. lia. }
  split; [done|]. apply adv_pack_small; try done.
  - apply adv_request_none.
  - cbn. by rewrite (cr_random_hash _ _ _ _ _ _ _ Hcr).
  - cbn. by rewrite (cr_original _ _ _ _ _ _ _ Hcr).
Qed.

(** What the receiver keeps of the advertisement. *)
Record accepted (fr : Incoming.fixed) : Prop := {
  ac_hash : Incoming.hash fr = Outgoing.hash fo;
  ac_random : Incoming.random_hash fr = random;
  ac_response : Incoming.is_response fr = false;
  ac_request : Incoming.request_id fr = None;
  ac_compressed : Incoming.compressed fr = (prepared_of data opts).2;
  ac_encrypted : Incoming.encrypted fr = true;
  ac_split : Incoming.split fr = false;
  ac_segment : Incoming.segment_index fr = 1;
  ac_metadata : Incoming.has_metadata fr = bool_decide (is_Some (opt_metadata opts));
}.

Context (Hsdu : Outgoing.link_sdu lb = Outgoing.link_sdu la).
Context (Hwindow : match Link.last_resource_window lb with Some w => 2 <= w <= WINDOW_MAX | None => True end).

Lemma incoming_accept now :
  exists r, Incoming.accept now (adv_pack adv) lb = Some (Ok r) /\ accepted (Incoming.fx r) /\
    receiving cs random r 0 0 0 false.
Proof.
  destruct adv_wf_ok as [Hwf _]. destruct parts_bound as (Hp & _ & _). pose proof (st_sdu Hst) as Hpos.
  unfold Incoming.accept. rewrite adv_unpack_pack by done. fold (Outgoing.link_sdu lb). rewrite Hsdu.
  destruct (Z.eqb_spec (Outgoing.link_sdu la) 0); [lia|].
  assert (Z.to_nat (Z.max 1 ((adv_transfer_size adv + Outgoing.link_sdu la - 1) / Outgoing.link_sdu la)) = length cs) as Et.
  { cbn [adv Outgoing.advertisement adv_transfer_size]. rewrite (cr_size _ _ _ _ _ _ _ Hcr).
    pose proof (cr_total _ _ _ _ _ _ _ Hcr) as Ht. unfold Outgoing.total_parts_of in Ht.
    assert (Z.of_nat (length cs) = (Z.of_nat (length (concat cs)) + Outgoing.link_sdu la - 1) / Outgoing.link_sdu la) as <-; [|lia].
    rewrite Ht at 1. rewrite Nat2Z.inj_div. f_equal; lia. }
  rewrite Et. eexists. split; [done|]. destruct adv_flags_ok as (Fe & Fc & Fs & Fm & _). pose proof adv_request_none as Fr.
  split; constructor; cbn [Incoming.fx Incoming.hash Incoming.random_hash Incoming.is_response Incoming.request_id Incoming.compressed
    Incoming.encrypted Incoming.split Incoming.segment_index Incoming.has_metadata Incoming.total_parts Incoming.parts Incoming.hashmap]; try done.
  - apply (cr_random_hash _ _ _ _ _ _ _ Hcr).
  - unfold adv_is_response. by rewrite Fr.
  - apply (cr_segment _ _ _ _ _ _ _ Hcr).
  - apply (cr_random_hash _ _ _ _ _ _ _ Hcr).
  - unfold known. by rewrite take_0, Nat.sub_0_r.
  - unfold known. by rewrite take_0, Nat.sub_0_r, length_fmap.
  - unfold windows_ok. cbn. destruct (Link.last_resource_window lb); cbn; unfold WINDOW, WINDOW_MAX, WINDOW_MAX_FAST, WINDOW_MAX_SLOW in *; lia.
Qed.

Context (Hmdu : Outgoing.link_sdu la <= Z.of_nat PACKET_MDU).

Lemma agreed_start id key inp fr :
  endpoint id key la -> accepted fr -> (forall k i, length (loop_ivs (inp k) i) = IV_KEY_SIZE) ->
  agreed cs random fo fr inp.
Proof.
  intros P Ha Hivs. destruct parts_bound as (Hp & _ & Hp2). pose proof (cr_hash _ _ _ _ _ _ _ Hcr) as Eh.
  constructor; try apply Ha; try done.
  - unfold fixed_ok. rewrite (cr_hashes _ _ _ _ _ _ _ Hcr), length_fmap, parts_length. split; [done|].
    split; [rewrite <- (cr_hashes _ _ _ _ _ _ _ Hcr); apply (cr_distinct _ _ _ _ _ _ _ Hcr)|].
    split; [apply hs_short|]. rewrite Eh. apply sha256_length.
  - apply (cr_hashes _ _ _ _ _ _ _ Hcr).
  - eapply parts_are_packets; [exact P|apply (cr_small _ _ _ _ _ _ _ Hcr)|done|apply (cr_parts _ _ _ _ _ _ _ Hcr)].
  - rewrite Eh. apply sha256_u8.
Qed.

(** What a manager keeps from the acceptance on. *)
Record same_setup (m m' : Manager.t) (e : Manager.ResourceEvent) : Prop := {
  ss_handlers : Manager.request_handlers m' = Manager.request_handlers m;
  ss_async : Manager.async_request_handlers m' = Manager.async_request_handlers m;
  ss_max : Manager.max_decompressed_size m' = Manager.max_decompressed_size m;
  ss_events : Manager.events m' = Manager.events m ++ [e];
}.

Lemma accept_asks id key inp now ivb mb :
  endpoint id key la -> endpoint id key lb -> length ivb = IV_KEY_SIZE ->
  (forall k i, length (loop_ivs (inp k) i) = IV_KEY_SIZE) -> Manager.incoming_of id mb = [] ->
  exists fr r mb' e q, Manager.accept now ivb lb adv mb = Some (with_in id r mb', [q]) /\ same_setup mb mb' e /\
    accepted fr /\ Incoming.fx r = fr /\ agreed cs random fo fr inp /\
    receiving cs random r 0 (height cs 1) (requested r 0 (height cs 1)) (exhausted cs r 0 (height cs 1)) /\
    sealed key CtxResourceRequest (request_text cs random r 0 (height cs 1)) q.
Proof.
  intros Pa Pb Hiv Hivs Hin. destruct (incoming_accept now) as (r0 & E0 & Ha & R0).
  destruct parts_bound as (Hp & _ & _). pose proof (agreed_start id key inp _ Pa Ha Hivs) as Hag.
  destruct (hashmap_update_spec cs random 0 r0 0 0 false R0 Hp) as [R1 F1].
  change (0 * HASHMAP_MAX_LEN)%nat with 0%nat in R1, F1. change (Z.of_nat 0) with 0 in R1, F1.
  rewrite <- adv_hashmap_slice in R1, F1.
  change (((0 + 1) * HASHMAP_MAX_LEN) `min` length cs)%nat with (height cs 1) in R1.
  destruct (receiver_asks id key cs random fo (Incoming.fx r0) inp Hag now lb ivb _ 0 (height cs 1) 0 Pb Hiv F1 R1)
    as (r & q & E & F & R & Hq); [lia|apply (height_pos cs random fo (Incoming.fx r0) inp Hag); lia|].
  unfold Manager.accept. rewrite E0. cbn [mbind option_bind]. rewrite (ep_id _ _ _ Pb), Hin. cbn [existsb].
  rewrite E. cbn [mbind option_bind]. unfold adv_is_response. rewrite adv_request_none.
  rewrite (bool_decide_eq_false_2 (is_Some None)) by (by intros [? ?]). cbn [andb].
  assert (Incoming.request_progress r = None) as ->.
  { unfold Incoming.request_progress. by rewrite F, (ac_response _ Ha). }
  set (m0 := if bool_decide (id ∈ Manager.started_callbacks mb) then _ else mb).
  exists (Incoming.fx r0), r, (Manager.send_event (Manager.mkEvent id (Incoming.hash (Incoming.fx r)) (Incoming.status r)
    (f64_of_Z 0) None None (Some adv)) m0), (Manager.mkEvent id (Incoming.hash (Incoming.fx r)) (Incoming.status r)
    (f64_of_Z 0) None None (Some adv)), q.
  split; [|split; [|done]].
  - do 2 f_equal. unfold Manager.push_incoming, with_in.
    assert (Manager.incoming_of id m0 = []) as Hm0 by (unfold m0; by destruct (bool_decide _)).
    cbn. unfold Manager.incoming_of in *. cbn. by rewrite Hm0.
  - unfold m0. by destruct (bool_decide _).
Qed.

End Start.

(** ** The whole transfer *)

(** The sender's transport queues the resource; its packets are in flight. *)
Definition net_start (inp : Inputs) (ma : Manager.t) (la : Link.t) (mb : Manager.t) (lb : Link.t) (o : Outgoing.t) : option Net :=
  '(r, oc) ← enqueue_resource inp ma la o;
  match r with
  | Ok _ => Some (mkNet 0 (resources oc) (link_after oc) mb lb (sent oc) [])
  | Err _ => None
  end.

(** The two ends of an established link. *)
Record link_ends (la lb : Link.t) : Prop := {
  le_id : Link.id la = Link.id lb;
  le_key : Link.derived_key la = Link.derived_key lb;
  le_open_a : open la;
  le_open_b : open lb;
  le_mtu : Link.mtu la = Link.mtu lb /\ 37 <= Link.mtu la <= 2084;
  le_window : match Link.last_resource_window lb with Some w => 2 <= w <= WINDOW_MAX | None => True end;
}.

(** The receiver accepts plain resources and has nothing else on the link. *)
Record receiver_ready (mb : Manager.t) (lb : Link.t) : Prop := {
  rr_strategy : Manager.resource_strategy (Link.id lb) mb = Manager.StrategyAll;
  rr_idle : Manager.incoming_of (Link.id lb) mb = [];
  rr_handlers : Manager.has_request_handlers lb mb = false;
}.

Lemma link_sdu_bounds la lb : link_ends la lb ->
  Outgoing.link_sdu lb = Outgoing.link_sdu la /\ 0 < Outgoing.link_sdu la <= Z.of_nat PACKET_MDU.
Proof.
  intros [_ _ _ _ [Em Hm] _]. unfold Outgoing.link_sdu, Links.sdu. rewrite <- Em. split; [done|].
  rewrite (proj2 (Z.ltb_lt _ _)) by lia. change (HEADER_MAXSIZE + IFAC_MIN_SIZE) with 36. unfold PACKET_MDU. lia.
Qed.

(** The advertisement arrives and the first parts are asked for. *)
Lemma transfer_starts la lb ma mb data opts o cs random iv inp0 inp :
  created la data opts o cs random iv -> start_ok la data opts -> link_ends la lb -> receiver_ready mb lb ->
  Manager.out_of (Link.id la) ma = [] -> length (advertise_iv inp0) = IV_KEY_SIZE ->
  (forall k i, length (loop_ivs (inp k) i) = IV_KEY_SIZE) ->
  exists w0 w fr mb' e, net_start inp0 ma la mb lb o = Some w0 /\ net_step inp w0 = Some w /\
    same_setup mb mb' e /\ accepted data opts o random fr /\ agreed cs random (Outgoing.fx o) fr inp /\
    asking (Link.id la) (Link.derived_key la) cs random (Outgoing.fx o) fr ma mb'
      (desc_address_hash (Link.destination lb)) w 0 1.
Proof.
  intros Hcr Hst Hle Hrr Hout Hiv0 Hivs. pose proof (link_sdu_bounds la lb Hle) as [Hsdu [Hs0 Hs1]].
  destruct (adv_wf_ok la data opts o cs random iv Hcr Hst) as [Hwf [Hu Hl]].
  set (adv := Outgoing.advertisement o) in *. destruct Hle as [Eid Ekey Oa Ob _ Hwin].
  assert (endpoint (Link.id la) (Link.derived_key la) la) as Pa by by constructor.
  assert (endpoint (Link.id la) (Link.derived_key la) lb) as Pb by by constructor.
  destruct (context_packet_sealed _ _ la (advertise_iv inp0) (adv_pack adv) CtxResourceAdvertisement Pa Hiv0 Hu Hl)
    as (p & Ep & Hctx & Hdec).
  destruct Hrr as [Hstrat Hidle Hnoh]. rewrite <- Eid in Hidle, Hstrat.
  destruct (accept_asks la lb data opts o cs random iv Hcr Hst Hsdu Hwin Hs1 (Link.id la) (Link.derived_key la) inp
    (unix_time (inp 0%nat)) (loop_ivs (inp 0%nat) 0%nat) mb Pa Pb (Hivs _ _) Hivs Hidle)
    as (fr & r & mb' & e & q & Eacc & Hss & Ha & Ef & Hag & R & Hq).
  set (o' := Outgoing.set_retries MAX_ADV_RETRIES (Outgoing.set_activity (unix_time inp0) (Outgoing.last_part_sent o)
    (Outgoing.set_times None (Some (unix_time inp0)) (Outgoing.set_status Advertised o)))).
  assert (net_start inp0 ma la mb lb o = Some (mkNet 0 (with_out (Link.id la) o' ma) (send_from_link (instant inp0) [p] la)
            mb lb [p] [])) as E0.
  { unfold net_start, enqueue_resource. rewrite Hout. cbn [existsb]. unfold Outgoing.advertise. fold adv. rewrite Ep.
    cbn [mbind option_bind]. unfold outcome, with_out, Manager.push_out. by rewrite Hout. }
  eexists _, _, fr, mb', e. split; [exact E0|]. split; [|split; [done|split; [done|split; [done|]]]].
  - unfold net_step. cbn [to_b to_a net_tick node_b end_b]. unfold handle_resource_packet. rewrite Hctx, Hdec by apply Pb.
    cbv zeta. unfold Manager.handle_advertisement. rewrite adv_unpack_pack by done.
    unfold adv_is_request, adv_is_response. fold adv in Eacc.
    pose proof (adv_request_none la data opts o cs random iv Hcr Hst) as Hnone. fold adv in Hnone.
    rewrite Hnone, (bool_decide_eq_false_2 (is_Some None)) by (by intros [? ?]). cbn [andb]. rewrite (ep_id _ _ _ Pb), Hstrat, Eacc. reflexivity.
  - destruct (cr_fresh _ _ _ _ _ _ _ Hcr) as (Fs & Fn & Fh). destruct (parts_bound la data opts o cs random iv Hcr Hst) as (Hp & _).
    exists o', r, q. split; [|split; [|split; [lia|split; [lia|done]]]].
    + constructor; try done; net; by apply endpoint_marked.
    + constructor; [|done|lia|lia]. unfold serving. cbn [o' Outgoing.set_retries Outgoing.set_activity Outgoing.set_times Outgoing.set_status
        Outgoing.fx Outgoing.part_sent Outgoing.sent_parts Outgoing.receiver_min_consecutive_height].
      rewrite (parts_length la data opts o cs random iv Hcr), Fs, Fn, Fh, Nat.sub_0_r. repeat split; lia || done.
Qed.

(** C1: a resource of one segment, sent over a link that loses nothing to a
    receiver that accepts it and has no request handlers, arrives. Whatever the
    clocks and the random draws are, once the sender has made a resource of the
    data and queued it, the two transports exchange packets until none is in
    flight; then the receiver has reported the data and its metadata as they were
    given, and the sender has reported the same resource as complete and dropped
    it. *)
Theorem Resource_transfer (la lb : Link.t) (ma mb : Manager.t) (data : bytes) (opts : ResourceOptions) (o : Outgoing.t)
    (now : f64) (draw : Hash * bytes) (draws : list (Hash * bytes)) (inp0 : Inputs) (inp : nat -> Inputs)
    (Hnew : Outgoing.new now draw draws data la opts = Some (Ok o))
    (Hends : link_ends la lb) (Hready : receiver_ready mb lb) (Hidle : Manager.out_of (Link.id la) ma = [])
    (Hplain : opt_request_id opts = None /\ opt_is_response opts = false)
    (Hbytes : all_u8 (metadata_blob (opt_metadata opts) ++ data)) (Hmeta : metadata_ok (opt_metadata opts))
    (Hsize : Z.of_nat (length (metadata_blob (opt_metadata opts) ++ data)) <= MAX_EFFICIENT_SIZE)
    (Hmax : Z.of_nat (length (metadata_blob (opt_metadata opts) ++ data)) <= Manager.max_decompressed_size mb)
    (Hdraws : Outgoing.draws_ok (draw :: draws)) (Hiv : length (advertise_iv inp0) = IV_KEY_SIZE)
    (Hivs : forall k i, length (loop_ivs (inp k) i) = IV_KEY_SIZE) :
  exists w0 n w e1 e2 e3,
    net_start inp0 ma la mb lb o = Some w0 /\ net_run inp n w0 = Some w /\ quiet w /\
    Manager.events (node_b w) = Manager.events mb ++ [e1; e2] /\
    Manager.event_status e2 = Complete /\ Manager.event_hash e2 = Outgoing.hash (Outgoing.fx o) /\
    Manager.event_data e2 = Some data /\ Manager.event_metadata e2 = opt_metadata opts /\
    Manager.events (node_a w) = Manager.events ma ++ [e3] /\
    Manager.event_status e3 = Complete /\ Manager.event_hash e3 = Outgoing.hash (Outgoing.fx o) /\
    Manager.out (node_a w) !! Link.id la = None.
Proof.
  pose proof (link_sdu_bounds la lb Hends) as [_ [Hsdu _]].
  destruct (new_spec now draw draws data la opts o Hnew Hdraws Hmeta Hsdu Hsize) as (cs & random & iv & Hcr).
  assert (start_ok la data opts) as Hst by by constructor.
  destruct (transfer_starts la lb ma mb data opts o cs random iv inp0 inp Hcr Hst Hends Hready Hidle Hiv Hivs)
    as (w0 & w1 & fr & mb' & e1 & E0 & E1 & Hss & Ha & Hag & Hask).
  destruct (asking_completes _ _ _ _ _ _ _ _ _ inp Hag w1 0 1 Hask) as (w2 & R2 & Hlast).
  assert (content (Link.derived_key la) cs random (Outgoing.fx o) fr mb' (desc_address_hash (Link.destination lb)) data
    (opt_metadata opts) (should_auto_compress opts (Z.of_nat (length data))) (2 ^ 64 - 1) iv) as Hct.
  { destruct Hss as [E_h E_a E_m _]. pose proof (rr_handlers _ _ Hready) as Hnoh.
    unfold Manager.has_request_handlers in Hnoh. apply orb_false_iff in Hnoh as [N1%bool_decide_eq_false_1 N2%bool_decide_eq_false_1].
    constructor; try apply Hcr; try apply Ha; try done.
    - by rewrite E_m.
    - split; [apply Ha|apply (cr_flags _ _ _ _ _ _ _ Hcr)].
    - split; [apply Ha|]. rewrite (proj1 (cr_request _ _ _ _ _ _ _ Hcr)). apply Hplain.
    - rewrite E_h, E_a. split; by apply eq_None_not_Some. }
  destruct (last_part_proved _ _ _ _ _ _ _ _ _ inp Hag _ _ _ _ _ Hct w2 Hlast) as (w3 & E3 & Hpr).
  destruct (proof_accepted _ _ _ _ _ _ _ _ _ inp _ _ _ _ _ Hct w3 Hpr) as (w & r & e2 & e3 & E4 & Hq & Eb & He & Ea & Eh3 & Es3 & Eo).
  assert (reaches inp w0 w) as [n En].
  { eapply reaches_step; [exact E1|]. eapply reaches_trans; [exact R2|]. eapply reaches_step; [exact E3|].
    eapply reaches_step; [exact E4|apply reaches_refl]. }
  exists w0, n, w, e1, e2, e3. destruct He as (_ & Eh2 & Es2 & Ed2 & Em2).
  split; [done|]. split; [done|]. split; [done|]. split; [|done].
  rewrite Eb. cbn. rewrite (ss_events _ _ _ Hss), <- app_assoc. done.
Qed.

End Exchange.

(** ** Concrete instances *)
#[local] Existing Instance toy_sha256.
#[local] Existing Instance toy_hkdf.
#[local] Existing Instance toy_x25519.
#[local] Existing Instance toy_cbc.
#[local] Existing Instance toy_hmac.
#[local] Existing Instance toy_signing.
#[local] Existing Instance toy_verifying.
#[local] Existing Instance toy_ed25519.
#[local] Existing Instance toy_keys.
#[local] Existing Instance msgpack_rmp.
#[local] Existing Instance toy_cursor.
#[local] Existing Instance toy_bz2.
#[local] Existing Instance toy_rmpv.

Definition sample_payload : bytes := seqZ 1 200.
Definition sample_options : ResourceOptions := mkOptions true None (Some [1; 2; 3]) None None false.
Definition sample_draw : Hash * bytes := (replicate 32 1, replicate 16 2).
Definition sample_inputs : Inputs :=
  mkInputs (f64_of_Z 0) 0 (fun _ => replicate 16 3) (fun _ => replicate 16 3) (fun _ => (sample_draw, [])) (replicate 16 3)
    (sample_draw, []) (replicate 16 3).
Definition sample_receiver : Manager.t := Manager.set_default_resource_strategy Manager.StrategyAll Manager.new.

(** Links with parts of 48 bytes. *)
Definition small_a : Link.t := set_mtu 84 sample_a.
Definition small_b : Link.t := set_mtu 84 sample_b.

Lemma small_ends : link_ends small_a small_b.
Proof.
  destruct sample_paired as (Eid & Ek & _ & _ & Oa & Ob). constructor; [exact Eid|exact Ek|exact Oa|exact Ob| |exact I].
  split; [reflexivity|]. vm_compute. split; congruence.
Qed.

Definition sample_new : option (result Outgoing.t) :=
  Outgoing.new (f64_of_Z 0) sample_draw [] sample_payload small_a sample_options.

(** More parts than the first window asks for. *)
Lemma Resource_transfer_witness :
  exists o w0 n w e,
    sample_new = Some (Ok o) /\ (4 < length (Outgoing.parts (Outgoing.fx o)))%nat /\
    net_start sample_inputs Manager.new small_a sample_receiver small_b o = Some w0 /\
    net_run (fun _ => sample_inputs) n w0 = Some w /\ quiet w /\ (e ∈ Manager.events (node_b w)) /\
    Manager.event_data e = Some sample_payload /\ Manager.event_metadata e = Some [1; 2; 3].
Proof.
  assert (match sample_new with Some (Ok o) => (4 <? length (Outgoing.parts (Outgoing.fx o)))%nat | _ => false end = true) as Hb
    by (vm_compute; reflexivity).
  destruct sample_new as [[o|]|] eqn:E; [|discriminate Hb..]. apply Nat.ltb_lt in Hb.
  destruct (Resource_transfer small_a small_b Manager.new sample_receiver sample_payload sample_options o (f64_of_Z 0)
    sample_draw [] sample_inputs (fun _ => sample_inputs) E small_ends)
    as (w0 & n & w & e1 & e2 & e3 & E0 & En & Hq & Eb & _ & _ & Ed & Em & _).
  - constructor; vm_compute; reflexivity.
  - reflexivity.
  - split; reflexivity.
  - apply (bool_decide_unpack _). vm_compute. exact I.
  - vm_compute. congruence.
  - vm_compute. congruence.
  - vm_compute. congruence.
  - apply Forall_cons_2; [|apply Forall_nil_2]. split; [reflexivity|]. split; [|reflexivity].
    apply (bool_decide_unpack _). vm_compute. exact I.
  - reflexivity.
  - intros k i. reflexivity.
  - exists o, w0, n, w, e2. split; [reflexivity|]. repeat (split; [assumption|]). split; [|split; assumption].
    rewrite Eb, elem_of_app, !elem_of_cons. auto.
Defined.
