(* ===== verification/ResourceSafety.v ===== *)
(** * What a receiver of a resource keeps, whatever arrives

    Parts, hashmap updates and watchdog passes in any order, with any contents:
    the bookkeeping of [IncomingResource] ([src/src/resource/inbound.rs]) stays
    consistent, parts are only declared complete when all are there, and data is
    only handed out when its hash is the advertised one.  The last theorem shows
    that reordered parts can leave a gap that is never requested again. *)

From S2P Require Import Prelude Float Buffer Crypto Hash Packet Token Identity Msgpack Destination Links Resource.
From S2P Require Import ResourceOut ResourceIn ResourceManager Requests ResourceTransfer Exchange.

(** ** Operations in any order

    [InAdvertised] is what follows the acceptance of an advertisement: its hashmap
    is read and the first parts are requested. *)
Inductive InOp :=
| InPart (now : f64) (p : Packet) (link : Link.t) (iv : bytes)
| InAdvertised (now : f64) (hashmap : bytes) (link : Link.t) (iv : bytes)
| InHashmap (now : f64) (plaintext : bytes) (link : Link.t) (iv : bytes)
| InCheck (now : f64) (link : Link.t) (iv : bytes).

Section Safety.
Context `{Sha256} `{Hkdf} `{X25519} `{CbcCipher} `{HmacSha256}.
Context `{Rmp} `{RmpCursor} `{Bz2}.
Import Incoming.

(** The resource after the operation, and whether all parts were reported to be
    there.  [None]: the code panics. *)
Definition in_step (op : InOp) (r : t) : option (t * bool) :=
  match op with
  | InPart now p link iv => '(c, r, _) ← receive_part now p link iv r; Some (r, c)
  | InAdvertised now d link iv => '(r, _) ← request_next now link iv (hashmap_update 0 d r); Some (r, false)
  | InHashmap now plaintext link iv => '(r, _) ← request_next now link iv (hashmap_update_packet now plaintext r); Some (r, false)
  | InCheck now link iv => '(_, r, _) ← check now link iv r; Some (r, false)
  end.

(** The packets that the operation sends. *)
Definition in_sent (op : InOp) (r : t) : list Packet :=
  match op with
  | InPart now p link iv => from_option snd [] (receive_part now p link iv r)
  | InAdvertised now d link iv => from_option snd [] (request_next now link iv (hashmap_update 0 d r))
  | InHashmap now plaintext link iv => from_option snd [] (request_next now link iv (hashmap_update_packet now plaintext r))
  | InCheck now link iv => from_option snd [] (check now link iv r)
  end.

Fixpoint in_run (ops : list InOp) (r : t) : option (t * list bool) :=
  match ops with
  | [] => Some (r, [])
  | op :: ops' =>
      '(r, c) ← in_step op r;
      '(r, cs) ← in_run ops' r;
      Some (r, c :: cs)
  end.

(** ** The invariant *)
Definition present (l : list (option bytes)) : nat := length (omap (fun x => x) l).

Record consistent (r : t) : Prop := {
  cn_parts : length (parts r) = total_parts (fx r);
  cn_hashmap : length (hashmap r) = total_parts (fx r);
  cn_count : received_count r = present (parts r);
  cn_height : -1 <= consecutive_completed_height r < Z.of_nat (total_parts (fx r));
  cn_total : (0 < total_parts (fx r))%nat;
}.

(** What no operation changes, and what only grows. *)
Definition core (r : t) := (fx r, parts r, received_count r, consecutive_completed_height r).

Lemma consistent_core r r' : core r' = core r -> length (hashmap r') = length (hashmap r) -> consistent r -> consistent r'.
Proof. unfold core. intros [= E1 E2 E3 E4] E5 []. constructor; rewrite ?E1, ?E2, ?E3, ?E4, ?E5; done. Qed.

Lemma send_request_core now link iv hmu hs r r' ps :
  send_request now link iv hmu hs r = Some (r', ps) -> core r' = core r /\ hashmap r' = hashmap r.
Proof.
  unfold send_request. destruct (context_packet _ _ _ _) as [[p|]|]; cbn; intros [= <- <-]; done.
Qed.

Lemma request_next_core now link iv r r' ps :
  request_next now link iv r = Some (r', ps) -> core r' = core r /\ hashmap r' = hashmap r.
Proof.
  unfold request_next. destruct (_ || _); [by intros [= <- <-]|].
  destruct (collect _ _ _ _) as [[hs n] ex]. cbv zeta. destruct ex.
  - destruct (_ =? _)%nat; [by intros [= <- <-]|]. destruct (nth _ _ _); [|by intros [= <- <-]].
    intros E. by apply send_request_core in E.
  - intros E. by apply send_request_core in E.
Qed.

Lemma fill_hashmap_length hs : forall hm height idx, length (fill_hashmap hm height idx hs).1 = length hm.
Proof.
  induction hs as [|h hs IH]; intros hm height idx; [done|]. cbn [fill_hashmap].
  destruct (_ <=? _)%nat; [done|]. by rewrite IH, length_insert.
Qed.

Lemma hashmap_update_core segment d r :
  core (hashmap_update segment d r) = core r /\ length (hashmap (hashmap_update segment d r)) = length (hashmap r).
Proof.
  unfold hashmap_update. case_bool_decide; [done|]. cbv zeta. destruct (_ <? _); [done|].
  pose proof (fill_hashmap_length (map_hashes d) (hashmap r) (hashmap_height r) (Z.to_nat segment * HASHMAP_MAX_LEN)) as Hl.
  cbn [hashmap hashmap_height set_status]. destruct (fill_hashmap _ _ _ _) as [hm height]. cbn [fst] in Hl. by destruct (map_hashes d).
Qed.

Lemma hashmap_update_packet_core now d r :
  core (hashmap_update_packet now d r) = core r /\ length (hashmap (hashmap_update_packet now d r)) = length (hashmap r).
Proof.
  unfold hashmap_update_packet. case_bool_decide; [done|]. destruct (negb _); [done|]. cbv zeta.
  destruct (_ <? _)%nat; [done|]. destruct (rmp_array_len _) as [[n c]|]; [|done]. destruct (negb _); [done|].
  destruct (rmp_int _) as [[sg c']|]; [|done]. destruct (rmp_bin_len _) as [[k c'']|]; [|done]. destruct (_ <? _)%nat; [done|].
  destruct (hashmap_update_core sg (take (Z.to_nat k) c'') (set_retries (max_retries (fx r)) (set_clk (set_last_activity now (clk r)) r)))
    as [E1 E2]. by rewrite E1, E2.
Qed.

Lemma note_response_core now n link r : core (note_response now n link r) = core r /\ hashmap (note_response now n link r) = hashmap r.
Proof. unfold note_response. by destruct (_ && _). Qed.

Lemma measure_rate_core now r : core (measure_rate now r) = core r /\ hashmap (measure_rate now r) = hashmap r.
Proof. unfold measure_rate. by destruct (_ && _). Qed.

(** *** Storing a part *)
Lemma present_insert l i d : l !! i = Some None -> present (<[i := Some d]> l) = S (present l).
Proof.
  revert i. induction l as [|x l IH]; intros i E; [done|]. destruct i as [|i]; cbn in E.
  - injection E as ->. done.
  - specialize (IH i E). unfold present in *. destruct x; cbn; [f_equal|]; exact IH.
Qed.

Lemma present_le l : (present l <= length l)%nat.
Proof. unfold present. induction l as [|[x|] l IH]; cbn; lia. Qed.

Lemma present_all l : present l = length l -> Forall is_Some l.
Proof.
  unfold present. induction l as [|[x|] l IH]; cbn; intros E; [constructor| |].
  - constructor; [by eexists|]. apply IH. lia.
  - pose proof (present_le l). unfold present in *. lia.
Qed.

Lemma advance_height_bounds l : forall cp height,
  height < cp -> height <= advance_height l cp height < cp + Z.of_nat (length l).
Proof.
  induction l as [|[x|] l IH]; intros cp height Hlt; cbn [advance_height length]; [lia| |lia].
  specialize (IH (cp + 1) cp ltac:(lia)). lia.
Qed.

Lemma find_slot_range hm h : forall n i k, find_slot hm h i n = Some k -> (i <= k < i + n)%nat.
Proof.
  induction n as [|n IH]; intros i k E; cbn [find_slot] in E; [done|]. case_bool_decide; [injection E as <-; lia|].
  apply IH in E. lia.
Qed.

(** The height that a stored part gives. *)
Lemma store_part_ok' i d r :
  consistent r -> Z.max 0 (consecutive_completed_height r) <= Z.of_nat i -> (i < total_parts (fx r))%nat ->
  consistent (store_part i d r) /\ fx (store_part i d r) = fx r /\ hashmap (store_part i d r) = hashmap r /\
  consecutive_completed_height r <= consecutive_completed_height (store_part i d r) /\
  forall j, (j < i)%nat -> parts (store_part i d r) !! j = parts r !! j.
Proof.
  intros C Hi Hlt. assert (consistent r /\ fx r = fx r /\ hashmap r = hashmap r /\
    consecutive_completed_height r <= consecutive_completed_height r /\
    forall j, (j < i)%nat -> parts r !! j = parts r !! j) as Hsame by (split; [done|repeat split; lia || done]).
  unfold store_part. destruct (parts r !! i) as [[x|]|] eqn:E; [done| |done]. clear Hsame. destruct C.
  set (height := if _ =? _ then _ else _). set (ps := <[i := Some d]> (parts r)).
  assert (height < Z.of_nat i + 1 /\ consecutive_completed_height r <= height /\ height < Z.of_nat (total_parts (fx r))) as (Hh1 & Hh2 & Hh3).
  { unfold height. destruct (Z.eqb_spec (Z.of_nat i) (consecutive_completed_height r + 1)); lia. }
  pose proof (advance_height_bounds (drop (S i) ps) (Z.of_nat i + 1) height Hh1) as Ha.
  assert (length ps = total_parts (fx r)) as Lp by (unfold ps; by rewrite length_insert).
  rewrite length_drop, Lp in Ha. cbn. split; [constructor; cbn; try done|].
  - rewrite cn_count0. symmetry. by apply present_insert.
  - lia.
  - split; [done|]. split; [done|]. split; [lia|]. intros j Hj. apply list_lookup_insert_ne. lia.
Qed.

(** What every operation keeps. *)
Definition keeps (r r' : t) : Prop :=
  consistent r' /\ fx r' = fx r /\ consecutive_completed_height r <= consecutive_completed_height r' /\
  forall j, Z.of_nat j < consecutive_completed_height r -> parts r' !! j = parts r !! j.

Lemma keeps_core r r' : consistent r -> core r' = core r -> length (hashmap r') = length (hashmap r) -> keeps r r'.
Proof.
  intros C E El. split; [by eapply consistent_core|]. unfold core in E. injection E as E1 E2 E3 E4.
  rewrite E1, E2, E4. repeat split; lia || done.
Qed.

Lemma keeps_trans r r1 r2 : keeps r r1 -> keeps r1 r2 -> keeps r r2.
Proof.
  intros (_ & F1 & H1' & P1) (C2 & F2 & H2' & P2). split; [done|]. split; [congruence|]. split; [lia|].
  intros j Hj. rewrite P2 by lia. by apply P1.
Qed.

Lemma store_slot_keeps r data :
  consistent r ->
  let start := Z.to_nat (Z.max 0 (consecutive_completed_height r)) in
  let stop := ((start + Z.to_nat (window (win r))) `min` length (hashmap r))%nat in
  keeps r (match find_slot (hashmap r) (map_hash data (random_hash (fx r))) start (stop - start) with
           | Some i => store_part i data r
           | None => r
           end).
Proof.
  intros C start stop. destruct (find_slot _ _ _ _) as [i|] eqn:E; [|by apply keeps_core].
  apply find_slot_range in E. pose proof (cn_hashmap _ C). pose proof (cn_height _ C).
  destruct (store_part_ok' i data r C) as (C' & F & _ & Hh & Hp); [lia|lia|].
  split; [done|]. split; [done|]. split; [done|]. intros j Hj. apply Hp. lia.
Qed.

Lemma receive_part_keeps now p link iv r c r' ps :
  consistent r -> receive_part now p link iv r = Some (c, r', ps) ->
  keeps r r' /\ (c = true -> Forall is_Some (parts r') /\ status r' = Assembling).
Proof.
  intros C E. unfold receive_part in E. case_bool_decide; [injection E as <- <- <-; split; [by apply keeps_core|done]|].
  cbv zeta in E. set (r0 := set_retries _ _) in E.
  destruct (note_response_core now (length (payload p)) link r0) as [Ec Eh]. set (r1 := set_status Transferring _) in E.
  assert (keeps r r1) as K1 by (apply keeps_core; [done|exact Ec|unfold r1; cbn [hashmap set_status]; by rewrite Eh]).
  pose proof (store_slot_keeps r1 (payload p) (proj1 K1)) as K2. cbv zeta in K2. match type of K2 with keeps _ ?x => set (r2 := x) in * end.
  pose proof (keeps_trans _ _ _ K1 K2) as K. destruct (_ && _) eqn:Hdone.
  - injection E as <- <- <-. split.
    + eapply keeps_trans; [exact K|]. apply keeps_core; [apply K|done|done].
    + intros _. split; [|done]. apply andb_true_iff in Hdone as [Hn%Nat.eqb_eq _]. apply present_all.
      destruct (proj1 K) as [Lp _ Lc _ _]. change (present (parts r2) = length (parts r2)). congruence.
  - destruct (_ =? 0)%nat; [|by injection E as <- <- <-].
    set (r3 := measure_rate now _) in E. destruct (request_next now link iv r3) as [[r4 ps']|] eqn:En; [|done].
    injection E as <- <- <-. split; [|done]. apply request_next_core in En as [E1 E2].
    destruct (measure_rate_core now (set_win (grow_window (window_flexibility (fx r2)) (win r2)) r2)) as [E3 E4]. fold r3 in E3, E4.
    eapply keeps_trans; [exact K|]. apply keeps_core; [apply K|by rewrite E1, E3|by rewrite E2, E4].
Qed.

Lemma in_step_keeps op r r' c :
  consistent r -> in_step op r = Some (r', c) ->
  keeps r r' /\ (c = true -> Forall is_Some (parts r') /\ status r' = Assembling).
Proof.
  intros C E. destruct op as [now p link iv|now d link iv|now d link iv|now link iv]; cbn [in_step] in E.
  - destruct (receive_part now p link iv r) as [[[c' r1] ps]|] eqn:Er; [|done]. injection E as <- <-. by eapply receive_part_keeps.
  - destruct (hashmap_update_core 0 d r) as [E1 E2].
    destruct (request_next _ _ _ _) as [[r1 ps]|] eqn:Er; [|done]. injection E as <- <-. apply request_next_core in Er as [E3 E4].
    split; [|done]. apply keeps_core; [done|congruence|congruence].
  - destruct (hashmap_update_packet_core now d r) as [E1 E2].
    destruct (request_next _ _ _ _) as [[r1 ps]|] eqn:Er; [|done]. injection E as <- <-. apply request_next_core in Er as [E3 E4].
    split; [|done]. apply keeps_core; [done|congruence|congruence].
  - destruct (check now link iv r) as [[[f r1] ps]|] eqn:Er; [|done]. injection E as <- <-. split; [|done].
    unfold check in Er. destruct (negb _); [injection Er as <- <- <-; by apply keeps_core|]. cbv zeta in Er.
    destruct (f_lt _ _); [|injection Er as <- <- <-; by apply keeps_core].
    destruct (_ <? _); [|injection Er as <- <- <-; by apply keeps_core].
    destruct (request_next _ _ _ _) as [[r2 ps']|] eqn:En; [|done]. injection Er as <- <- <-.
    apply request_next_core in En as [E1 E2]. apply keeps_core; [done|by rewrite E1|by rewrite E2].
Qed.

Lemma in_run_keeps ops : forall r r' cs,
  consistent r -> in_run ops r = Some (r', cs) -> keeps r r'.
Proof.
  induction ops as [|op ops IH]; intros r r' cs C E; cbn [in_run] in E.
  - injection E as <- <-. by apply keeps_core.
  - destruct (in_step op r) as [[r1 c]|] eqn:Es; [|done]. cbn [mbind option_bind] in E.
    destruct (in_run ops r1) as [[r2 cs']|] eqn:Er; [|done]. injection E as <- <-.
    destruct (in_step_keeps op r r1 c C Es) as [K _]. eapply keeps_trans; [exact K|]. eapply IH; [apply K|done].
Qed.

Lemma accept_consistent now d link r : accept now d link = Some (Ok r) -> consistent r.
Proof.
  unfold accept. destruct (adv_unpack d) as [adv|]; [|done]. set (sdu := if 0 <? Link.mtu link then _ else _). destruct (sdu =? 0); [done|].
  intros [= <-]. constructor; cbn [parts hashmap fx total_parts received_count consecutive_completed_height].
  - apply length_replicate.
  - apply length_replicate.
  - symmetry. unfold present. generalize (Z.to_nat (Z.max 1 ((adv_transfer_size adv + sdu - 1) / sdu))) as n.
    induction n; done.
  - lia.
  - lia.
Qed.

Lemma assemble_hash link max r d r' :
  assemble link max r = (Ok d, r') ->
  exists full, assembled r' = Some full /\ sha256 (full ++ random_hash (fx r)) = hash (fx r) /\
    (d = full \/ exists packed, metadata r' = Some packed /\ d = drop (3 + length packed) full).
Proof.
  unfold assemble. destruct (open_stream link max r) as [data|]; [|done].
  case_bool_decide as Hh; cbn [negb]; [|done]. destruct (_ && _).
  - destruct (_ <? _)%nat; [done|]. destruct (Nat.ltb_spec (length data) (3 + metadata_length data)); [done|]. intros [= <- <-].
    exists data. split; [done|]. split; [done|]. right. eexists. split; [done|]. unfold slice. rewrite length_take, length_drop.
    f_equal. lia.
  - intros [= <- <-]. exists data. split; [done|]. split; [done|]. by left.
Qed.

(** *** Requests *)

(** The packet is a request for parts, and all it asks for are behind slot [i]. *)
Definition asks_behind (i : nat) (r : t) (p : Packet) : Prop :=
  exists link iv head hs, context_packet link iv (head ++ hash (fx r) ++ concat hs) CtxResourceRequest = Some (Ok p) /\
    (head = [HASHMAP_IS_NOT_EXHAUSTED] \/ exists last, head = HASHMAP_IS_EXHAUSTED :: last /\ nth (hashmap_height r - 1) (hashmap r) None = Some last) /\
    Forall (fun h => exists j, (i < j)%nat /\ parts r !! j = Some None /\ nth j (hashmap r) None = Some h) hs.

Lemma collect_from r : forall count pn k hs n ex, collect r pn count k = (hs, n, ex) ->
  Forall (fun h => exists j, (pn <= j)%nat /\ parts r !! j = Some None /\ nth j (hashmap r) None = Some h) hs.
Proof.
  induction count as [|count IH]; intros pn k hs n ex E; cbn [collect] in E; [by injection E as <- _ _|].
  destruct (_ <=? _)%nat; [by injection E as <- _ _|].
  assert (forall k', let '(hs', _, _) := collect r (S pn) count k' in
    Forall (fun h => exists j, (pn <= j)%nat /\ parts r !! j = Some None /\ nth j (hashmap r) None = Some h) hs') as Hrest.
  { intros k'. destruct (collect r (S pn) count k') as [[hs' n'] ex'] eqn:E'. eapply Forall_impl; [|exact (IH _ _ _ _ _ E')].
    cbn. intros h (j & Hj & H'). exists j. split; [lia|done]. }
  destruct (parts r !! pn) as [[x|]|] eqn:Ep.
  - destruct (_ <=? _); [by injection E as <- _ _|]. specialize (Hrest k). by rewrite E in Hrest.
  - destruct (nth pn (hashmap r) None) as [h|] eqn:Eh; [|by injection E as <- _ _]. specialize (Hrest (S k)).
    destruct (_ <=? _); [injection E as <- _ _; constructor; [by exists pn|constructor]|].
    destruct (collect r (S pn) count (S k)) as [[hs' n'] ex']. injection E as <- _ _. constructor; [by exists pn|done].
  - destruct (_ <=? _); [by injection E as <- _ _|]. specialize (Hrest k). by rewrite E in Hrest.
Qed.

Lemma request_next_asks now link iv r r' ps i : request_next now link iv r = Some (r', ps) -> Z.of_nat i < consecutive_completed_height r ->
  Forall (asks_behind i r') ps.
Proof.
  unfold request_next. intros E Hi. destruct (_ || _); [by injection E as <- <-|].
  destruct (collect _ _ _ _) as [[hs n] ex] eqn:Ec. apply collect_from in Ec. cbv zeta in E.
  assert (forall head r1, send_request now link iv head hs r1 = Some (r', ps) -> core r1 = core r -> hashmap r1 = hashmap r -> hashmap_height r1 = hashmap_height r ->
    (head = [HASHMAP_IS_NOT_EXHAUSTED] \/ exists last, head = HASHMAP_IS_EXHAUSTED :: last /\ nth (hashmap_height r - 1) (hashmap r) None = Some last) ->
    Forall (asks_behind i r') ps) as Hsend.
  { intros head r1 Es [= E1 E2 _ _] Eh Ehh Hhead. unfold send_request in Es. destruct (context_packet _ _ _ _) as [[p|e]|] eqn:Ep; [|by injection Es as <- <-|done].
    injection Es as <- <-. constructor; [|constructor]. exists link, iv, head, hs. cbn. rewrite Eh, E2, Ehh. split; [done|]. split; [done|].
    eapply Forall_impl; [|exact Ec]. cbn. intros h (j & Hj & H'). exists j. split; [lia|done]. }
  destruct ex.
  - destruct (_ =? _)%nat; [by injection E as <- <-|]. destruct (nth _ _ _) as [last|] eqn:El; [|by injection E as <- <-].
    refine (Hsend _ _ E eq_refl eq_refl eq_refl _). right. by exists last.
  - refine (Hsend _ _ E eq_refl eq_refl eq_refl _). by left.
Qed.

Lemma in_step_asks op r r' c i : consistent r -> in_step op r = Some (r', c) -> Z.of_nat i < consecutive_completed_height r -> Forall (asks_behind i r') (in_sent op r).
Proof.
  intros C E Hi. destruct op as [now p link iv|now d link iv|now d link iv|now link iv]; cbn [in_step in_sent] in *.
  - unfold receive_part in *. case_bool_decide; [done|]. cbv zeta in *. set (r0 := set_retries _ _) in *.
    destruct (note_response_core now (length (payload p)) link r0) as [Ec Eh]. set (r1 := set_status Transferring _) in *.
    assert (keeps r r1) as K1 by (apply keeps_core; [done|exact Ec|unfold r1; cbn [hashmap set_status]; by rewrite Eh]).
    pose proof (store_slot_keeps r1 (payload p) (proj1 K1)) as K2. cbv zeta in K2. match type of K2 with keeps _ ?x => set (r2 := x) in * end.
    destruct (keeps_trans _ _ _ K1 K2) as (_ & _ & Hh & _). destruct (_ && _); [done|]. destruct (_ =? 0)%nat; [|done].
    set (r3 := measure_rate now _) in *. destruct (request_next now link iv r3) as [[r4 ps']|] eqn:En; [|done]. injection E as <- _.
    apply (request_next_asks _ _ _ _ _ _ _ En). destruct (measure_rate_core now (set_win (grow_window (window_flexibility (fx r2)) (win r2)) r2)) as [[= _ _ _ E3] _].
    fold r3 in E3. rewrite E3. cbn. lia.
  - destruct (hashmap_update_core 0 d r) as [[= _ _ _ E1] _]. destruct (request_next _ _ _ _) as [[r1 ps]|] eqn:En; [|done]. injection E as <- _.
    apply (request_next_asks _ _ _ _ _ _ _ En). by rewrite E1.
  - destruct (hashmap_update_packet_core now d r) as [[= _ _ _ E1] _]. destruct (request_next _ _ _ _) as [[r1 ps]|] eqn:En; [|done]. injection E as <- _.
    apply (request_next_asks _ _ _ _ _ _ _ En). by rewrite E1.
  - unfold check in *. destruct (negb _); [done|]. cbv zeta in *. destruct (f_lt _ _); [|done]. destruct (_ <? _); [|done].
    destruct (request_next _ _ _ _) as [[r2 ps']|] eqn:En; [|done]. injection E as <- _. by apply (request_next_asks _ _ _ _ _ _ _ En).
Qed.

(** ** Theorems *)

(** C13: whatever parts, hashmap updates and watchdog passes a receiver handles, in
    any order and with any contents, its bookkeeping stays consistent: as many
    slots for parts and map hashes as the advertisement promised, and a count of
    the parts that are there. All parts are reported to be there only when every
    slot is filled, and data is handed out only when the hash of what was
    assembled is the one that was advertised. *)
Theorem Incoming_sound (now : f64) (text : bytes) (link : Link.t) (r0 r : t) (ops : list InOp) (reports : list bool)
    (Haccept : accept now text link = Some (Ok r0)) (Hrun : in_run ops r0 = Some (r, reports)) :
  fx r = fx r0 /\ length (parts r) = total_parts (fx r) /\ length (hashmap r) = total_parts (fx r) /\
  received_count r = present (parts r) /\ (received_count r <= total_parts (fx r))%nat /\
  forall op r', in_step op r = Some (r', true) ->
    status r' = Assembling /\ Forall is_Some (parts r') /\
    forall link' max d r'', assemble link' max r' = (Ok d, r'') ->
      exists full, assembled r'' = Some full /\ sha256 (full ++ random_hash (fx r0)) = hash (fx r0) /\
        (d = full \/ exists packed, metadata r'' = Some packed /\ d = drop (3 + length packed) full).
Proof.
  pose proof (in_run_keeps ops r0 r reports (accept_consistent _ _ _ _ Haccept) Hrun) as (C & Ef & _).
  split; [done|]. split; [apply C|]. split; [apply C|]. split; [apply C|]. split.
  { rewrite (cn_count _ C), <- (cn_parts _ C). apply present_le. }
  intros op r' Es. destruct (in_step_keeps op r r' true C Es) as [(_ & Ef' & _) Hall]. destruct (Hall eq_refl) as [Hp Hs].
  split; [done|]. split; [done|]. intros link' max d r'' Ea. rewrite <- Ef, <- Ef'. by eapply assemble_hash.
Qed.

(** C40: a missing part below the completed height is lost: whatever arrives
    later, also the part itself, the slot stays empty, the parts are never
    reported to be complete, and the part is never asked for, since every request
    that any later operation sends asks only for parts behind it.  The height
    passes over a gap when the part behind it arrives before it, since the loop
    that moves it starts at the arrived part. *)
Theorem Incoming_gap_permanent (now : f64) (text : bytes) (link : Link.t) (r0 r r' : t) (before ops : list InOp)
    (reports reports' : list bool) (i : nat)
    (Haccept : accept now text link = Some (Ok r0)) (Hbefore : in_run before r0 = Some (r, reports))
    (Hgap : parts r !! i = Some None) (Hbelow : Z.of_nat i < consecutive_completed_height r)
    (Hrun : in_run ops r = Some (r', reports')) :
  parts r' !! i = Some None /\ Forall (fun c => c = false) reports' /\
  forall op r'' c, in_step op r' = Some (r'', c) -> c = false /\ Forall (asks_behind i r'') (in_sent op r').
Proof.
  pose proof (in_run_keeps before r0 r reports (accept_consistent _ _ _ _ Haccept) Hbefore) as (C & _).
  clear Haccept Hbefore. revert r C Hgap Hbelow reports' Hrun.
  induction ops as [|op ops IH]; intros r C Hgap Hbelow reports' Hrun; cbn [in_run] in Hrun.
  { injection Hrun as <- <-. split; [done|]. split; [done|]. intros op r'' c Es. destruct (in_step_keeps op r r'' c C Es) as [(_ & _ & _ & Hp) Hall].
    split; [|by eapply in_step_asks]. destruct c; [|done]. destruct (Hall eq_refl) as [Hf _]. rewrite <- Hp in Hgap by done. by destruct (Forall_lookup_1 _ _ _ _ Hf Hgap). }
  destruct (in_step op r) as [[r1 c]|] eqn:Es; [|done]. cbn [mbind option_bind] in Hrun.
  destruct (in_run ops r1) as [[r2 cs]|] eqn:Er; [|done]. injection Hrun as <- <-.
  destruct (in_step_keeps op r r1 c C Es) as [(C1 & _ & Hh & Hp) Hall].
  assert (parts r1 !! i = Some None) as Hg1 by (by rewrite Hp).
  destruct (IH r1 C1 Hg1 ltac:(lia) cs Er) as (Hg2 & Hf & Hlast). split; [done|]. split; [|done]. constructor; [|done].
  destruct c; [|done]. destruct (Hall eq_refl) as [Hf1 _]. by destruct (Forall_lookup_1 _ _ _ _ Hf1 Hg1).
Qed.

End Safety.

(** ** Concrete instances *)
#[local] Existing Instance toy_sha256.
#[local] Existing Instance toy_hkdf.
#[local] Existing Instance toy_x25519.
#[local] Existing Instance toy_cbc.
#[local] Existing Instance toy_hmac.
#[local] Existing Instance toy_signing.
#[local] Existing Instance toy_verifying.
#[local] Existing Instance toy_ed25519.
#[local] Existing Instance toy_keys.
#[local] Existing Instance msgpack_rmp.
#[local] Existing Instance toy_cursor.
#[local] Existing Instance toy_bz2.
#[local] Existing Instance toy_rmpv.

Definition sample_text : bytes :=
  match sample_new with Some (Ok o) => adv_pack (Outgoing.advertisement o) | _ => [] end.

Definition sample_first : InOp :=
  InAdvertised (f64_of_Z 0) (match sample_new with Some (Ok o) => adv_hashmap (Outgoing.advertisement o) | _ => [] end)
    small_b (replicate 16 3).

(** Part [i] of the sample arrives. *)
Definition sample_part (i : nat) : list InOp :=
  match sample_new with
  | Some (Ok o) => (fun p => InPart (f64_of_Z 0) p small_b (replicate 16 3)) <$> Manager.option_list (Outgoing.parts (Outgoing.fx o) !! i)
  | _ => []
  end.

(** Six parts in order: the last one completes them, and they assemble. *)
Lemma Incoming_sound_witness :
  exists r0 r reports op r' d r'',
    Incoming.accept (f64_of_Z 0) sample_text small_b = Some (Ok r0) /\
    in_run (sample_first :: concat (sample_part <$> [0; 1; 2; 3; 4]%nat)) r0 = Some (r, reports) /\
    in_step op r = Some (r', true) /\ Forall is_Some (Incoming.parts r') /\
    Incoming.assemble small_b 1000 r' = (Ok d, r'') /\ d = sample_payload /\
    exists full, sha256 (full ++ Incoming.random_hash (Incoming.fx r0)) = Incoming.hash (Incoming.fx r0).
Proof.
  assert (match Incoming.accept (f64_of_Z 0) sample_text small_b with
          | Some (Ok r0) =>
              match in_run (sample_first :: concat (sample_part <$> [0; 1; 2; 3; 4]%nat)) r0, sample_part 5 with
              | Some (r, _), op :: _ =>
                  match in_step op r with
                  | Some (r', true) =>
                      match Incoming.assemble small_b 1000 r' with (Ok d, _) => bool_decide (d = sample_payload) | _ => false end
                  | _ => false
                  end
              | _, _ => false
              end
          | _ => false
          end = true) as Hb by (vm_compute; reflexivity).
  destruct (Incoming.accept (f64_of_Z 0) sample_text small_b) as [[r0|]|] eqn:Ea; [|discriminate Hb..].
  destruct (in_run (sample_first :: concat (sample_part <$> [0; 1; 2; 3; 4]%nat)) r0) as [[r reports]|] eqn:Er; [|discriminate Hb].
  destruct (sample_part 5) as [|op rest] eqn:Ep; [discriminate Hb|].
  destruct (in_step op r) as [[r' []]|] eqn:Es; [|discriminate Hb..].
  destruct (Incoming.assemble small_b 1000 r') as [[d|] r''] eqn:Em; [|discriminate Hb]. apply bool_decide_eq_true in Hb.
  destruct (Incoming_sound (f64_of_Z 0) sample_text small_b r0 r _ reports Ea Er) as (_ & _ & _ & _ & _ & Hall).
  destruct (Hall op r' Es) as (_ & Hf & Has). destruct (Has small_b 1000 d r'' Em) as (full & _ & Hh & _).
  exists r0, r, reports, op, r', d, r''. repeat (split; [assumption || reflexivity|]). by exists full.
Defined.

(** Parts 0, 3 and 2 arrive in this order, then all the others. *)
Lemma Incoming_gap_permanent_witness :
  exists r0 r r' reports reports',
    Incoming.accept (f64_of_Z 0) sample_text small_b = Some (Ok r0) /\
    in_run (sample_first :: concat (sample_part <$> [0; 3; 2]%nat)) r0 = Some (r, reports) /\
    in_run (concat (sample_part <$> [1; 4; 5; 1]%nat)) r = Some (r', reports') /\
    in_sent sample_first r' <> [] /\
    Incoming.parts r' !! 1%nat = Some None /\ Forall (fun c => c = false) reports' /\
    forall op r'' c, in_step op r' = Some (r'', c) -> c = false /\ Forall (asks_behind 1 r'') (in_sent op r').
Proof.
  assert (match Incoming.accept (f64_of_Z 0) sample_text small_b with
          | Some (Ok r0) =>
              match in_run (sample_first :: concat (sample_part <$> [0; 3; 2]%nat)) r0 with
              | Some (r, _) =>
                  match Incoming.parts r !! 1%nat, in_run (concat (sample_part <$> [1; 4; 5; 1]%nat)) r with
                  | Some None, Some (r', _) => (1 <? Incoming.consecutive_completed_height r) && (0 <? length (in_sent sample_first r'))%nat
                  | _, _ => false
                  end
              | None => false
              end
          | _ => false
          end = true) as Hb by (vm_compute; reflexivity).
  destruct (Incoming.accept (f64_of_Z 0) sample_text small_b) as [[r0|]|] eqn:Ea; [|discriminate Hb..].
  destruct (in_run (sample_first :: concat (sample_part <$> [0; 3; 2]%nat)) r0) as [[r reports]|] eqn:Er; [|discriminate Hb].
  destruct (Incoming.parts r !! 1%nat) as [[x|]|] eqn:Ep; [discriminate Hb| |discriminate Hb].
  destruct (in_run (concat (sample_part <$> [1; 4; 5; 1]%nat)) r) as [[r' reports']|] eqn:Er'; [|discriminate Hb].
  apply andb_true_iff in Hb as [Hb Hs]. apply Z.ltb_lt in Hb. apply Nat.ltb_lt in Hs.
  exists r0, r, r', reports, reports'. split; [reflexivity|]. split; [exact Er|]. split; [exact Er'|].
  split; [intros E0; rewrite E0 in Hs; inversion Hs|].
  exact (Incoming_gap_permanent (f64_of_Z 0) sample_text small_b r0 r r' _ _ reports reports' 1%nat Ea Er Ep Hb Er').
Defined.
