(* ===== verification/RequestExchange.v ===== *)
(** * What requests and responses on a link do

    Packed requests and responses are read back as they were written.  A request
    that fits a packet reaches the handler registered for its path with the data,
    the time and the identifier of the sender, and the handler's answer is what
    the requester waits for.  The remaining lemmas are about the sweep: transfers
    of links that it does not find stay as they are
    ([src/src/transport.rs], [src/src/resource/manager.rs]). *)

From Stdlib Require Import Floats.SpecFloat.
From S2P Require Import Prelude Float Buffer Crypto Hash Packet Token Identity Msgpack Destination Links Resource.
From S2P Require Import ResourceOut ResourceIn ResourceManager Requests ResourceTransfer Exchange.

(** What a requester gets for a value of a handler: binary data is taken out, any
    other value is handed over as it was encoded. *)
Definition answer (v : Value) : bytes := match v with VBin b => b | _ => encode_value v end.

Section RequestExchange.
Context `{Sha256} `{Hkdf} `{X25519} `{CbcCipher} `{HmacSha256}.
Context `{Rmp} `{RmpCursor} `{Bz2} `{Manager.Rmpv}.

(** The values that handlers answer with. *)
Definition answer_ok (v : Value) : Prop :=
  value_wf v = true /\ (Manager.value_depth v < 1024)%nat /\ all_u8 (encode_value v).

(** ** Packed requests and responses *)
Lemma make_request_id_is_address packed : is_address (Manager.make_request_id packed).
Proof. apply AddressHash_new_from_hash_is_address, Hash_new_from_slice_is_hash. Qed.

Lemma path_hash_written path : take 16 (Hash_new_from_slice path) = Manager.path_hash_of path.
Proof. unfold Manager.path_hash_of. by rewrite AddressHash_new_from_slice_spec, Hash_new_from_slice_spec. Qed.

Lemma read_bin d rest :
  Z.of_nat (length d) < 2 ^ 32 -> Manager.read_value (write_bin d ++ rest) = Some (VBin d, rest).
Proof.
  intros Hd. rewrite write_bin_spec by done.
  destruct (Manager.read_value_spec (VBin d) rest) as (v' & Ev & ->); [cbn; lia|cbn; lia|done].
Qed.

Lemma unpack_pack_request now path data :
  valid_binary 53 1024 now = true -> Z.of_nat (length data) < 2 ^ 32 ->
  Manager.unpack_request (Manager.pack_request now path data) = Some (now, Manager.path_hash_of path, data).
Proof.
  intros Hn Hd. pose proof (f64_bits_range now Hn) as Hb. unfold Manager.pack_request, Manager.pack_request_element, Manager.unpack_request.
  rewrite path_hash_written. set (ph := Manager.path_hash_of path).
  assert (length ph = 16%nat) as Lp by apply AddressHash_new_from_slice_is_address.
  rewrite write_array_len_spec, rmp_array_len_spec by lia. cbn [mbind option_bind negb Z.eqb Pos.eqb].
  rewrite write_f64_spec by done.
  destruct (Manager.read_value_spec (VF64 (f64_to_bits now)) (write_bin ph ++ write_bin data)) as (v' & Ev & ->); [done|cbn; lia|].
  change (encode_value (VF64 (f64_to_bits now))) with (0xcb :: be_encode 8 (f64_to_bits now)) in Ev. rewrite Ev.
  cbn [mbind option_bind Manager.as_f64]. rewrite (wrap_small 64), f64_bits_roundtrip by done.
  rewrite read_bin by lia. cbn [mbind option_bind]. rewrite Lp. cbn [negb Nat.eqb].
  rewrite <- (app_nil_r (write_bin data)), read_bin by done. done.
Qed.

Lemma unpack_pack_response rid v :
  length rid = 16%nat -> answer_ok v ->
  Manager.unpack_response (Manager.pack_response rid (encode_value v)) = Some (rid, answer v) /\
  Manager.packet_response_size (Manager.pack_response rid (encode_value v)) = Some (Z.of_nat (length (encode_value v) - 2)).
Proof.
  intros Lr (Hwf & Hdep & _). unfold Manager.pack_response, Manager.unpack_response, Manager.packet_response_size.
  rewrite write_array_len_spec, rmp_array_len_spec by lia. cbn [mbind option_bind negb Z.eqb Pos.eqb].
  rewrite write_bin_spec by lia. rewrite <- app_assoc, rmp_bin_len_spec by lia. cbn [mbind option_bind].
  rewrite Lr, length_app, Lr. change (Z.to_nat (Z.of_nat 16)) with 16%nat.
  rewrite (proj2 (Nat.ltb_ge _ _)) by lia. change (negb (Z.of_nat 16 =? 16)) with false. cbn [orb].
  rewrite take_app_length', drop_app_length' by done. split; [|done].
  destruct (Manager.read_value_spec v [] Hwf Hdep) as (v' & Ev & Hr). rewrite app_nil_r in Ev. rewrite Ev.
  cbn [mbind option_bind length]. do 2 f_equal. rewrite Nat.sub_0_r, take_ge by lia.
  destruct v; cbn [Manager.reads_as] in Hr; subst; try done; by destruct v'.
Qed.

Lemma bin_written d : all_u8 d -> Z.of_nat (length d) < 2 ^ 32 -> all_u8 (write_bin d) /\ (length (write_bin d) <= 5 + length d)%nat.
Proof.
  intros Hu Hd. rewrite write_bin_spec by done. split; [apply all_u8_app; split; [|done]|rewrite length_app];
    unfold msgpack_bin_header; repeat case_match; cbn [length]; rewrite ?be_encode_length; try lia;
    apply all_u8_cons; (split; [done|apply be_encode_u8]).
Qed.

Lemma array_written n : 0 <= n < 16 -> write_array_len n = [0x90 + n].
Proof.
  intros Hn. rewrite write_array_len_spec by lia. unfold msgpack_header. repeat case_match; zb; (done || lia).
Qed.

Lemma pack_request_text now path data :
  valid_binary 53 1024 now = true -> all_u8 data -> (length data <= 1800)%nat ->
  all_u8 (Manager.pack_request now path data) /\ (length (Manager.pack_request now path data) <= 1900)%nat.
Proof.
  intros Hn Hu Hl. unfold Manager.pack_request, Manager.pack_request_element. rewrite path_hash_written.
  destruct (AddressHash_new_from_slice_is_address path) as [Lp Up]. fold (Manager.path_hash_of path) in Lp, Up.
  unfold ADDRESS_HASH_SIZE in Lp. destruct (bin_written _ Up ltac:(lia)) as [U1 L1]. destruct (bin_written _ Hu ltac:(lia)) as [U2 L2].
  rewrite array_written by lia. rewrite write_f64_spec by (by apply f64_bits_range). split.
  - rewrite !all_u8_app, !all_u8_cons. repeat split; try done; [apply Forall_nil_2|apply be_encode_u8].
  - rewrite !length_app. cbn [length]. rewrite be_encode_length. lia.
Qed.

Lemma pack_response_length rid e : is_address rid -> length (Manager.pack_response rid e) = (19 + length e)%nat.
Proof.
  intros [Lr _]. unfold ADDRESS_HASH_SIZE in Lr. unfold Manager.pack_response.
  rewrite array_written, write_bin_spec by lia. rewrite !length_app, Lr. done.
Qed.

Lemma pack_response_text rid e :
  is_address rid -> all_u8 e -> (length e <= 1800)%nat ->
  all_u8 (Manager.pack_response rid e) /\ (length (Manager.pack_response rid e) <= 1900)%nat.
Proof.
  intros Hr Ue Le. rewrite pack_response_length by done. destruct Hr as [Lr Ur]. unfold ADDRESS_HASH_SIZE in Lr.
  split; [|lia]. unfold Manager.pack_response. rewrite array_written by lia. destruct (bin_written _ Ur ltac:(lia)) as [U1 _].
  rewrite !all_u8_app, all_u8_cons. repeat split; try done. apply Forall_nil_2.
Qed.

(** The identifier of a request packet. *)
Lemma request_id_is_address p : is_address (request_id_from_packet p).
Proof. apply make_request_id_is_address. Qed.

(** ** A request and its answer *)

(** The answering end: a handler for the path that the requester may use. *)
Record serves (mb : Manager.t) (lb : Link.t) (path : bytes) (h : Manager.RegisteredHandler) : Prop := {
  sv_sync : Manager.async_request_handler (desc_address_hash (Link.destination lb)) (Manager.path_hash_of path) mb = None;
  sv_handler : Manager.request_handler (desc_address_hash (Link.destination lb)) (Manager.path_hash_of path) mb = Some h;
  sv_allowed : Manager.allows h (Link.remote_identity lb) = true;
}.

(** The limit on responses that holds for a request. *)
Definition response_limit (options : Manager.RequestOptions) (m : Manager.t) : option Z :=
  match Manager.request_max_response_size options with Some n => Some n | None => Manager.max_response_size m end.

Lemma request_sent inp m l path data options :
  open l -> Link.status l = Active -> length (response_iv inp) = IV_KEY_SIZE -> valid_binary 53 1024 (unix_time inp) = true ->
  all_u8 data -> (length data <= 1800)%nat ->
  Z.of_nat (length (Manager.pack_request (unix_time inp) path data)) <= mdu l ->
  exists p, request_with_options inp m l path data options =
      Some (Ok (request_id_from_packet p), outcome inp (Manager.track_request (request_id_from_packet p)
        (Manager.mkPending (Link.id l) ((fun x => f64_add (unix_time inp) x) <$> Manager.request_timeout options)
           (Manager.request_timeout options) (Manager.request_max_response_size options)) m) l [p]) /\
    sealed (Link.derived_key l) CtxRequest (Manager.pack_request (unix_time inp) path data) p.
Proof.
  intros Ho Hs Hiv Hn Hu Hl Hfit. destruct (pack_request_text (unix_time inp) path data Hn Hu Hl) as [Hup Hlp].
  assert (endpoint (Link.id l) (Link.derived_key l) l) as E by done.
  destruct (context_packet_sealed _ _ l (response_iv inp) _ CtxRequest E Hiv Hup Hlp) as (p & Ep & Hp).
  exists p. split; [|done]. unfold request_with_options, dispatch_packed_request. rewrite bool_decide_eq_true_2 by done.
  cbn [negb]. rewrite (proj2 (Z.leb_le _ _)) by done. rewrite Ep. done.
Qed.

Lemma request_answered inp mb lb path h v p now data :
  serves mb lb path h -> open lb -> length (response_iv inp) = IV_KEY_SIZE ->
  sealed (Link.derived_key lb) CtxRequest (Manager.pack_request now path data) p ->
  valid_binary 53 1024 now = true -> Z.of_nat (length data) < 2 ^ 32 -> answer_ok v -> (length (encode_value v) <= 1800)%nat ->
  Z.of_nat (length (Manager.pack_response (request_id_from_packet p) (encode_value v))) <= mdu lb ->
  Manager.invoke h (Manager.mkContext (Manager.path_hash_of path) data (request_id_from_packet p) (Link.id lb)
    (Link.remote_identity lb) now) = Some (Manager.Element (encode_value v)) ->
  exists q, handle_request_or_response_packet inp mb lb p = Some (true, outcome inp mb lb [q]) /\
    sealed (Link.derived_key lb) CtxResponse (Manager.pack_response (request_id_from_packet p) (encode_value v)) q /\
    destination q = Link.id lb.
Proof.
  intros [S1 S2 S3] Ho Hiv [Hc Hd] Hn Hlen Hv Hl Hfit Hinv.
  destruct (pack_response_text (request_id_from_packet p) (encode_value v) (request_id_is_address p) (proj2 (proj2 Hv)) Hl) as [Hu Hl'].
  destruct (context_packet_spec lb (response_iv inp) _ CtxResponse Ho Hiv (text_fits_bound _ Hu Hl')) as [Eq Hq].
  match type of Eq with _ = Some (Ok ?q) => exists q end. split; [|split; [split; [done|]|done]].
  - unfold handle_request_or_response_packet. rewrite Hd by done. rewrite Hc, unpack_pack_request by done. cbn [mbind option_bind].
    unfold handle_incoming_request. rewrite S1, S2, S3. cbn [negb]. rewrite Hinv. unfold send_response.
    rewrite (proj2 (Z.leb_le _ _)) by done. rewrite Eq. done.
  - intros l El. rewrite Hq, <- El. apply Link_decrypt_spec; [done|by apply text_fits_bound].
Qed.

Lemma answer_received inp m l rid v q :
  sealed (Link.derived_key l) CtxResponse (Manager.pack_response rid (encode_value v)) q -> length rid = 16%nat ->
  is_Some (Manager.pending_requests m !! rid) -> answer_ok v ->
  Manager.response_size_allowed rid (Z.of_nat (length (encode_value v) - 2)) m = true ->
  handle_request_or_response_packet inp m l q =
    Some (true, mkOutcome
      (Manager.set_pending (delete rid (Manager.pending_requests m))
        (Manager.send_request_event (destination q) (Manager.Response rid (answer v) None)
          (Manager.set_completed (<[rid := Some (answer v)]> (Manager.completed_responses m)) m))) l [] []).
Proof.
  intros [Hc Hd] Lr [x Ex] Hv Ha. destruct (unpack_pack_response rid v Lr Hv) as [E1 E2].
  unfold handle_request_or_response_packet. rewrite Hd by done. rewrite Hc, E1, Ex, E2. cbn [from_option id]. by rewrite Ha.
Qed.

Lemma await_completed rid es m r :
  Manager.completed_responses m !! rid = Some r -> (await_request_response rid es m).1 = r.
Proof. intros E. unfold await_request_response, take_completed_response. by rewrite E. Qed.

(** ** The sweep and links it does not find *)
Lemma fail_requests_keeps rids : forall m,
  Manager.out (Manager.fail_requests rids m) = Manager.out m /\ Manager.incoming (Manager.fail_requests rids m) = Manager.incoming m.
Proof.
  induction rids as [|rid rids IH]; intros m; [done|]. unfold Manager.fail_requests. cbn [fold_left].
  destruct (IH (Manager.fail_request rid m)) as [E1 E2]. unfold Manager.fail_requests in E1, E2. rewrite E1, E2.
  unfold Manager.fail_request. by destruct (Manager.pending_requests m !! rid).
Qed.

Lemma check_out_other now links ivs id ids : forall m m' ps es rids,
  links !! id = None -> Manager.check_out now links ivs ids m = Some (m', ps, es, rids) ->
  Manager.out m' !! id = Manager.out m !! id /\ Manager.incoming m' = Manager.incoming m.
Proof.
  induction ids as [|i ids IH]; intros m m' ps es rids Hid E; cbn [Manager.check_out] in E; [by injection E as <- <- <- <-|].
  destruct (links !! i) as [l|] eqn:Ei; [|by eapply IH].
  destruct (Manager.check_out_loop _ _ _ _ _ _ _) as [[[[l' ps1] es1] rids1]|]; [|done]. cbn [mbind option_bind] in E.
  destruct (Manager.check_out now links ivs ids _) as [[[[m2 ps2] es2] rids2]|] eqn:E2; [|done]. injection E as <- <- <- <-.
  apply IH in E2 as [-> ->]; [|done]. unfold Manager.put_out. destruct (Manager.out m !! i); [|done].
  split; [|done]. apply lookup_insert_ne. congruence.
Qed.

Lemma check_in_other now links ivs id ids : forall m m' ps es rids,
  links !! id = None -> Manager.check_in now links ivs ids m = Some (m', ps, es, rids) ->
  Manager.incoming m' !! id = Manager.incoming m !! id /\ Manager.out m' = Manager.out m.
Proof.
  induction ids as [|i ids IH]; intros m m' ps es rids Hid E; cbn [Manager.check_in] in E; [by injection E as <- <- <- <-|].
  destruct (links !! i) as [l|] eqn:Ei; [|by eapply IH].
  destruct (Manager.check_in_loop _ _ _ _ _) as [[[[l' ps1] es1] rids1]|]; [|done]. cbn [mbind option_bind] in E.
  destruct (Manager.check_in now links ivs ids _) as [[[[m2 ps2] es2] rids2]|] eqn:E2; [|done]. injection E as <- <- <- <-.
  apply IH in E2 as [-> ->]; [|done]. unfold Manager.put_incoming. destruct (Manager.incoming m !! i); [|done].
  split; [|done]. apply lookup_insert_ne. congruence.
Qed.

Definition live_out (l : list Outgoing.t) : list Outgoing.t := filter (fun o => is_concluded (Outgoing.status o) = false) l.
Definition live_in (l : list Incoming.t) : list Incoming.t := filter (fun r => is_concluded (Incoming.status r) = false) l.

Lemma cleanup_live now id m :
  Manager.out_of id (Manager.cleanup now m) = live_out (Manager.out_of id m) /\
  Manager.incoming_of id (Manager.cleanup now m) = live_in (Manager.incoming_of id m).
Proof.
  unfold Manager.out_of, Manager.incoming_of, Manager.cleanup. cbv zeta.
  cbn [Manager.out Manager.incoming Manager.set_assembly Manager.set_incoming Manager.set_out]. rewrite !lookup_omap. split.
  - unfold live_out. destruct (Manager.out m !! id) as [l|]; [|done]. cbn. by destruct (filter _ l).
  - unfold live_in. destruct (Manager.incoming m !! id) as [l|]; [|done]. cbn. by destruct (filter _ l).
Qed.

Lemma sweep_other now in_links out_links oi ii m m' ps id :
  in_links !! id = None -> out_links !! id = None ->
  resource_sweep now in_links out_links oi ii m = Some (m', ps) ->
  Manager.out_of id m' = live_out (Manager.out_of id m) /\ Manager.incoming_of id m' = live_in (Manager.incoming_of id m).
Proof.
  intros Hi Ho E. unfold resource_sweep, Manager.check in E.
  assert ((out_links ∪ in_links) !! id = None) as Hid by (by apply lookup_union_None).
  destruct (Manager.check_out _ _ _ _ m) as [[[[m1 ps1] es1] rids1]|] eqn:E1; [|done]. cbn [mbind option_bind] in E.
  destruct (Manager.check_in _ _ _ _ m1) as [[[[m2 ps2] es2] rids2]|] eqn:E2; [|done]. cbn [mbind option_bind] in E.
  injection E as <- <-. apply check_out_other with (id := id) in E1 as [Eo1 Ei1]; [|done].
  apply check_in_other with (id := id) in E2 as [Ei2 Eo2]; [|done].
  rewrite !(proj1 (cleanup_live _ _ _)), !(proj2 (cleanup_live _ _ _)). unfold Manager.expire_requests, Manager.out_of, Manager.incoming_of.
  destruct (fail_requests_keeps (rids1 ++ rids2) (Manager.set_events (Manager.events m2 ++ es1 ++ es2) m2)) as [F1 F2].
  match goal with |- context [Manager.fail_requests ?r ?x] => destruct (fail_requests_keeps r x) as [G1 G2]; rewrite G1, G2 end.
  rewrite F1, F2. cbn [Manager.out Manager.incoming Manager.set_events]. by rewrite Eo2, Eo1, Ei2, Ei1.
Qed.

(** The answer fits a packet of the link, and the limits of the requester. *)
Definition response_fits (lb : Link.t) (options : Manager.RequestOptions) (ma : Manager.t) (v : Value) : Prop :=
  answer_ok v /\ (length (encode_value v) <= 1800)%nat /\ 19 + Z.of_nat (length (encode_value v)) <= mdu lb /\
  match response_limit options ma with Some n => Z.of_nat (length (encode_value v) - 2) <= n | None => True end.

(** ** Theorems *)

(** C8: a request that fits a packet is answered.  The handler registered for its
    path runs with the requester's data, time and request identifier and with the
    identity that the requester proved: this is the context [c].  If what it
    answers in that context fits a packet, is small enough for the decoder and
    within the limit on responses that the requester set, it is what waiting for
    this request returns, whatever other events came before; it is announced once,
    and the request is no longer pending. *)
Theorem Request_roundtrip (la lb : Link.t) (ma mb : Manager.t) (path data : bytes) (options : Manager.RequestOptions)
    (h : Manager.RegisteredHandler) (respond : Manager.RequestContext -> Value) (inp inp1 inp2 : Inputs) (es : list Manager.RequestEventData)
    (c := fun rid => Manager.mkContext (Manager.path_hash_of path) data rid (Link.id lb) (Link.remote_identity lb) (unix_time inp))
    (Hends : link_ends la lb) (Hactive : Link.status la = Active) (Hserves : serves mb lb path h)
    (Hiv : length (response_iv inp) = IV_KEY_SIZE) (Hiv1 : length (response_iv inp1) = IV_KEY_SIZE)
    (Htime : valid_binary 53 1024 (unix_time inp) = true) (Hdata : all_u8 data /\ (length data <= 1800)%nat)
    (Hfits : Z.of_nat (length (Manager.pack_request (unix_time inp) path data)) <= mdu la)
    (Hrespond : forall rid, is_address rid -> Manager.invoke h (c rid) = Some (Manager.Element (encode_value (respond (c rid)))) /\
       response_fits lb options ma (respond (c rid))) :
  exists rid p q oc oc1 oc2,
    request_with_options inp ma la path data options = Some (Ok rid, oc) /\ sent oc = [p] /\
    is_Some (Manager.pending_requests (resources oc) !! rid) /\
    handle_request_or_response_packet inp1 mb lb p = Some (true, oc1) /\ sent oc1 = [q] /\ resources oc1 = mb /\
    handle_request_or_response_packet inp2 (resources oc) (link_after oc) q = Some (true, oc2) /\
    (await_request_response rid es (resources oc2)).1 = Some (answer (respond (c rid))) /\
    Manager.pending_requests (resources oc2) = delete rid (Manager.pending_requests ma) /\
    Manager.request_events (resources oc2) =
      Manager.request_events ma ++ [Manager.mkRequestEvent (Link.id la) (Manager.Response rid (answer (respond (c rid))) None)].
Proof.
  destruct Hends as [Eid Ekey Oa Ob _ _], Hdata as [Hu Hl].
  destruct (request_sent inp ma la path data options Oa Hactive Hiv Htime Hu Hl Hfits) as (p & Er & Hp).
  rewrite Ekey in Hp. set (rid := request_id_from_packet p) in *.
  destruct (Hrespond rid (request_id_is_address p)) as (Hi & Hv & Hlv & Hroom & Hlimit). set (v := respond (c rid)) in *.
  pose proof (pack_response_length rid (encode_value v) (request_id_is_address p)) as Hf.
  destruct (request_answered inp1 mb lb path h v p (unix_time inp) data Hserves Ob Hiv1 Hp Htime ltac:(lia) Hv Hlv ltac:(fold rid; lia) Hi)
    as (q & E1 & Hq & Ed). fold rid in Hq.
  match type of Er with _ = Some (_, ?o) => set (oc := o) in Er end.
  assert (Manager.pending_requests (resources oc) !! rid = Some (Manager.mkPending (Link.id la)
    ((fun x => f64_add (unix_time inp) x) <$> Manager.request_timeout options)
    (Manager.request_timeout options) (Manager.request_max_response_size options))) as Ep by apply lookup_insert_eq.
  assert (endpoint (Link.id la) (Link.derived_key la) la) as Ea by done.
  pose proof (ep_key _ _ _ (endpoint_marked _ _ (instant inp) [p] la Ea)) as Ek.
  assert (sealed (Link.derived_key (link_after oc)) CtxResponse (Manager.pack_response rid (encode_value v)) q) as Hq'
    by (unfold oc; cbn [link_after outcome]; by rewrite Ek, Ekey).
  assert (Manager.response_size_allowed rid (Z.of_nat (length (encode_value v) - 2)) (resources oc) = true) as Hallow.
  { unfold Manager.response_size_allowed. rewrite Ep. cbn [mbind option_bind Manager.pending_max_response_size].
    unfold response_limit in Hlimit. change (Manager.max_response_size (resources oc)) with (Manager.max_response_size ma).
    destruct (Manager.request_max_response_size options); [by apply Z.leb_le|].
    destruct (Manager.max_response_size ma); [by apply Z.leb_le|done]. }
  pose proof (answer_received inp2 _ _ rid v q Hq' (proj1 (request_id_is_address p)) (mk_is_Some _ _ Ep) Hv Hallow) as E2.
  exists rid, p, q, oc. do 2 eexists. repeat (split; [eassumption || done || by eexists|]).
  cbn [resources]. split; [|split].
  - apply await_completed, lookup_insert_eq.
  - apply delete_insert_eq.
  - cbn. by rewrite Ed, Eid.
Qed.

End RequestExchange.

(** ** Concrete instances *)
#[local] Existing Instance toy_sha256.
#[local] Existing Instance toy_hkdf.
#[local] Existing Instance toy_x25519.
#[local] Existing Instance toy_cbc.
#[local] Existing Instance toy_hmac.
#[local] Existing Instance toy_signing.
#[local] Existing Instance toy_verifying.
#[local] Existing Instance toy_ed25519.
#[local] Existing Instance toy_keys.
#[local] Existing Instance msgpack_rmp.
#[local] Existing Instance toy_cursor.
#[local] Existing Instance toy_bz2.
#[local] Existing Instance toy_rmpv.

(** A handler that answers with the identifier and the data it got. *)
Definition echoed (c : Manager.RequestContext) : Value := VBin (Manager.ctx_request_id c ++ Manager.ctx_data c).
Definition echo (c : Manager.RequestContext) : option bytes := Some (encode_value (echoed c)).
Definition sample_path : bytes := [47; 101].
Definition sample_server : Manager.t :=
  Manager.register_request_handler (desc_address_hash (Link.destination sample_b)) sample_path echo Manager.new.

Lemma sample_ends : link_ends sample_a sample_b.
Proof.
  destruct sample_paired as (Eid & Ek & _ & _ & Oa & Ob). constructor; [exact Eid|exact Ek|exact Oa|exact Ob| |exact I].
  split; [reflexivity|]. vm_compute. split; congruence.
Qed.

Lemma echoed_fits rid : is_address rid -> response_fits sample_b (Manager.mkRequestOptions None (Some 30)) Manager.new (VBin (rid ++ [1; 2; 3])).
Proof.
  intros [Hl Hu]. assert (encode_value (VBin (rid ++ [1; 2; 3])) = [196; 19] ++ rid ++ [1; 2; 3]) as E.
  { cbn. rewrite length_app, Hl. reflexivity. }
  unfold response_fits, answer_ok. rewrite E, !length_app, Hl. split_and!.
  - cbn. rewrite length_app, Hl. reflexivity.
  - cbn. lia.
  - apply all_u8_app; split; [repeat constructor; lia|]. apply all_u8_app. split; [done|repeat constructor; lia].
  - cbn. lia.
  - vm_compute. congruence.
  - vm_compute. congruence.
Qed.

Lemma Request_roundtrip_witness :
  exists rid p q oc oc1 oc2,
    request_with_options sample_inputs Manager.new sample_a sample_path [1; 2; 3] (Manager.mkRequestOptions None (Some 30)) =
      Some (Ok rid, oc) /\ sent oc = [p] /\
    handle_request_or_response_packet sample_inputs sample_server sample_b p = Some (true, oc1) /\ sent oc1 = [q] /\
    handle_request_or_response_packet sample_inputs (resources oc) (link_after oc) q = Some (true, oc2) /\
    (await_request_response rid [] (resources oc2)).1 = Some (rid ++ [1; 2; 3]).
Proof.
  destruct (Request_roundtrip sample_a sample_b Manager.new sample_server sample_path [1; 2; 3]
    (Manager.mkRequestOptions None (Some 30))
    (Manager.mkHandler (fun c => Manager.Element <$> echo c) Manager.RequestHandlerConfig_default) echoed
    sample_inputs sample_inputs sample_inputs [] sample_ends)
    as (rid & p & q & oc & oc1 & oc2 & E1 & E2 & _ & E3 & E4 & _ & E5 & E6 & _).
  - reflexivity.
  - constructor; vm_compute; reflexivity.
  - reflexivity.
  - reflexivity.
  - reflexivity.
  - split; [repeat constructor; lia|cbn; lia].
  - vm_compute. congruence.
  - intros i Hi. split; [reflexivity|exact (echoed_fits i Hi)].
  - exists rid, p, q, oc, oc1, oc2. repeat (split; [assumption|]). exact E6.
Defined.
