(* ===== verification/Streams.v ===== *)
(** * Byte streams over channels ([src/src/buffer_stream.rs])

    A writer cuts what the user writes into frames, compressed where that
    helps, and sends them as messages of a channel; a reader joins the frames of
    its stream and ends with the frame that says so.  The writer's task is a
    state machine over the sending side of the channel: it reads a chunk, tries
    to send frames until the chunk is used up, and sends the end when the user
    closes.  Whatever the network does to the packets, the reader gets a prefix
    of what was written. *)

From S2P Require Import Prelude Float Buffer Crypto Hash Packet Token Identity Msgpack Destination Links Channel Resource.

Definition SMT_STREAM_DATA : Z := 0xff00.
Definition STREAM_ID_MAX : Z := 0x3fff.
Definition MAX_CHUNK_LEN : Z := 1024 * 16.
Definition COMPRESSION_TRIES : nat := 4.

Record StreamDataMessage := mkFrame {
  stream_id : Z;
  frame_data : bytes;
  eof : bool;
  compressed : bool;
}.

#[export] Instance StreamDataMessage_eq_dec : EqDecision StreamDataMessage.
Proof. solve_decision. Defined.

Section Frames.
Context `{Bz2}.

Definition pack_bytes (m : StreamDataMessage) : bytes :=
  let header := Z.land (stream_id m) STREAM_ID_MAX in
  let header := if eof m then Z.lor header 0x8000 else header in
  let header := if compressed m then Z.lor header 0x4000 else header in
  be_encode 2 header ++ frame_data m.

Definition unpack_bytes (raw : bytes) : result StreamDataMessage :=
  if (length raw <? 2)%nat then Err PacketError
  else
    let header := be_decode (take 2 raw) in
    let eof := negb (Z.land header 0x8000 =? 0) in
    let compressed := negb (Z.land header 0x4000 =? 0) in
    let data := drop 2 raw in
    data ← (if compressed && negb (bool_decide (data = [])) then decompress data MAX_CHUNK_LEN else Ok data);
    Ok (mkFrame (Z.land header STREAM_ID_MAX) data eof compressed).

#[export] Instance StreamDataMessage_Message : Message StreamDataMessage := {|
  unpack packed _ := unpack_bytes packed;
  pack := pack_bytes;
  message_type _ := SMT_STREAM_DATA;
|}.

(** ** Choosing a frame *)

(** The first of the tries whose prefix compresses below the frame size and its
    own size. *)
Fixpoint try_compress (chunk : bytes) (frame_mdu : nat) (tries : list nat) : option (bytes * nat) :=
  match tries with
  | [] => None
  | comp_try :: tries' =>
      if negb (32 <? length chunk)%nat then None
      else
        let segment_length := (length chunk / comp_try)%nat in
        let c := (maybe_compress (take segment_length chunk) true (2 ^ 64 - 1)).1 in
        if (length c <? frame_mdu)%nat && (length c <? segment_length)%nat then Some (c, segment_length)
        else try_compress chunk frame_mdu tries'
  end.

(** The frame for the start of [data] and how much of it the frame holds. *)
Definition frame_within (limit : nat) (sid : Z) (data : bytes) (mdu : nat) : StreamDataMessage * nat :=
  let chunk := take limit data in
  match try_compress chunk mdu (seq 1 (COMPRESSION_TRIES - 1)) with
  | Some (c, n) => (mkFrame sid c false true, n)
  | None => let take_ := (length chunk `min` mdu)%nat in (mkFrame sid (take take_ chunk) false false, take_)
  end.

Definition frame_of (sid : Z) (data : bytes) (mdu : nat) : StreamDataMessage * nat :=
  frame_within (Z.to_nat MAX_CHUNK_LEN) sid data mdu.

End Frames.

Section Streams.
Context `{Bz2}.
Context `{Sha256} `{Hkdf} `{X25519} `{CbcCipher} `{HmacSha256}.

Definition end_frame (sid : Z) : StreamDataMessage := mkFrame sid [] true false.

(** The message is returned when the channel accepted it. *)
Definition write_frame (link : Link.t) (up : bool) (iv : bytes) (sid : Z) (data : bytes) (at_end : bool) (mdu : nat)
    (o : Outbound) : option (result nat * Outbound * list Effect * list StreamDataMessage) :=
  if at_end then
    '(r, o, effects) ← send link up iv (end_frame sid) o;
    Some (match r with Ok _ => (Ok 0%nat, o, effects, [end_frame sid]) | Err e => (Err e, o, effects, []) end)
  else if (mdu =? 0)%nat then Some (Err ChannelMessageTooBig, o, [], [])
  else
    let '(m, processed) := frame_of sid data mdu in
    '(r, o, effects) ← send link up iv m o;
    Some (match r with Ok _ => (Ok processed, o, effects, [m]) | Err e => (Err e, o, effects, []) end).

(** ** The writer's task *)
Inductive WriterState :=
| Waiting
| Running
| Ended (said_so : bool)
| Stopped.

(** [chunk]: what is left of the chunk read last; [taken]: all that was read. *)
Record Writer := mkWriter {
  writer_state : WriterState;
  frame_mdu : nat;
  chunk : bytes;
  taken : bytes;
}.

(** [channel.mdu().saturating_sub(2)] *)
Definition stream_mdu (link : Link.t) : nat := Z.to_nat (Z.max 0 (Channel_mdu link - 2)).

Definition spawn_writer : Writer := mkWriter Waiting 0 [] [].

(** What can happen next: the channel is found ready; the user's bytes are read
    (at most a buffer full) or their end; a frame is tried; the deadline passes;
    or something happens to the channel. *)
Inductive WriterOp :=
| WriterReady (link : Link.t)
| WriterRead (d : bytes)
| WriterClosed (link : Link.t) (up : bool) (iv : bytes)
| WriterFrame (link : Link.t) (up : bool) (iv : bytes)
| WriterDeadline
| WriterChannel (op : @OutOp StreamDataMessage).

Definition is_nil (l : bytes) : bool := match l with [] => true | _ => false end.

Definition set_writer (st : WriterState) (rest : bytes) (w : Writer) : Writer := mkWriter st (frame_mdu w) rest (taken w).

Definition writer_step (sid : Z) (op : WriterOp) (w : Writer) (o : Outbound)
    : option (Writer * Outbound * list Effect * list StreamDataMessage) :=
  match op, writer_state w with
  | WriterChannel op, _ => '(o, effects, ms) ← run_op o op; Some (w, o, effects, ms)
  | WriterReady link, Waiting =>
      Some (if is_ready_to_send link o then
              mkWriter (if (stream_mdu link =? 0)%nat then Stopped else Running) (stream_mdu link) [] []
            else w, o, [], [])
  | WriterDeadline, Waiting => Some (set_writer Stopped (chunk w) w, o, [], [])
  | WriterRead d, Running =>
      Some (if is_nil (chunk w) && negb (is_nil d) && (Z.of_nat (length d) <=? MAX_CHUNK_LEN)
            then mkWriter Running (frame_mdu w) d (taken w ++ d) else w, o, [], [])
  | WriterClosed link up iv, Running =>
      if is_nil (chunk w) then
        '(r, o, effects, ms) ← write_frame link up iv sid [] true (frame_mdu w) o;
        Some (set_writer (Ended (match r with Ok _ => true | Err _ => false end)) [] w, o, effects, ms)
      else Some (w, o, [], [])
  | WriterFrame link up iv, Running =>
      if is_nil (chunk w) then Some (w, o, [], [])
      else
        '(r, o, effects, ms) ← write_frame link up iv sid (chunk w) false (frame_mdu w) o;
        Some (match r with
              | Ok O => set_writer Stopped (chunk w) w
              | Ok n => set_writer Running (drop n (chunk w)) w
              | Err LinkNotReady | Err ChannelError => w
              | Err _ => set_writer Stopped (chunk w) w
              end, o, effects, ms)
  | WriterDeadline, Running => Some (if is_nil (chunk w) then w else set_writer Stopped (chunk w) w, o, [], [])
  | _, _ => Some (w, o, [], [])
  end.

Fixpoint writer_run (sid : Z) (ops : list WriterOp) (w : Writer) (o : Outbound)
    : option (Writer * Outbound * list Effect * list StreamDataMessage) :=
  match ops with
  | [] => Some (w, o, [], [])
  | op :: ops' =>
      '(w, o, e1, m1) ← writer_step sid op w o;
      '(w, o, e2, m2) ← writer_run sid ops' w o;
      Some (w, o, e1 ++ e2, m1 ++ m2)
  end.

(** ** The reader *)

(** What [recv] of a broadcast channel returns: a message, the report that the
    receiver was too slow and messages are lost, or that all senders are gone. *)
Inductive RecvResult (A : Type) := RecvMessage (x : A) | RecvLagged | RecvClosed.
#[global] Arguments RecvMessage {A}.
#[global] Arguments RecvLagged {A}.
#[global] Arguments RecvClosed {A}.

(** The payloads that the channel sends to the subscribers of a registered type. *)
Definition registered {M} (ty : Z) (held : list (Held M)) : list bytes :=
  omap (fun h => match h with Registered ty' raw => if ty' =? ty then Some raw else None | Primary _ => None end) held.

(** [attach_reader]: the frames that its task sends on, for what it receives. *)
Fixpoint attach_reader (rs : list (RecvResult bytes)) : list StreamDataMessage :=
  match rs with
  | [] => []
  | RecvMessage raw :: rs => match unpack_bytes raw with Ok m => m :: attach_reader rs | Err _ => attach_reader rs end
  | RecvLagged :: rs => attach_reader rs
  | RecvClosed :: _ => []
  end.

(** The task of [BufferReader::new] that drains the ring: what [recv] of its queue
    returns.  The queue is closed when the task ends. *)
Fixpoint drain_ring (rs : list (RecvResult StreamDataMessage)) : list (option StreamDataMessage) :=
  match rs with
  | [] => []
  | RecvMessage m :: rs => Some m :: drain_ring rs
  | RecvLagged :: rs => drain_ring rs
  | RecvClosed :: _ => [None]
  end.

(** The pump: the bytes that the user can read, and whether they have ended.  The
    user keeps the reader: a write to the pipe of a dropped one would fail and
    end the task. *)
Definition reader_step (sid : Z) (r : bytes * bool) (q : option StreamDataMessage) : bytes * bool :=
  if r.2 then r
  else match q with
       | None => (r.1, true)
       | Some m => if negb (stream_id m =? sid) then r else (r.1 ++ frame_data m, eof m)
       end.

Definition reader_pump (sid : Z) (qs : list (option StreamDataMessage)) : bytes * bool := fold_left (reader_step sid) qs ([], false).

(** ** Broadcast channels

    The messages among the results; and a receiver that keeps up: it has missed
    nothing, so what it got is the beginning of what was sent. *)
Definition messages {A} (rs : list (RecvResult A)) : list A := omap (fun r => match r with RecvMessage x => Some x | _ => None end) rs.
Definition closed {A} (rs : list (RecvResult A)) : bool := existsb (fun r => match r with RecvClosed => true | _ => false end) rs.
Definition keeps_up {A} (sent : list A) (rs : list (RecvResult A)) : Prop := (RecvLagged ∉ rs) /\ (messages rs `prefix_of` sent).

(** ** Frames: lemmas *)
Definition frame_header (sid : Z) (e c : bool) : Z :=
  let header := Z.land sid STREAM_ID_MAX in
  let header := if e then Z.lor header 0x8000 else header in
  if c then Z.lor header 0x4000 else header.

Lemma header_mask sid e c m :
  Z.land (frame_header sid e c) m =
    Z.lor (Z.lor (Z.land sid (Z.land STREAM_ID_MAX m)) (if e then Z.land 0x8000 m else 0)) (if c then Z.land 0x4000 m else 0).
Proof.
  unfold frame_header. destruct e, c; rewrite ?Z.land_lor_distr_l, <- ?Z.land_assoc, ?Z.lor_0_r; done.
Qed.

Lemma header_fields sid e c : let h := frame_header sid e c in
  0 <= h < 2 ^ 16 /\ negb (Z.land h 0x8000 =? 0) = e /\ negb (Z.land h 0x4000 =? 0) = c /\
  Z.land h STREAM_ID_MAX = Z.land sid STREAM_ID_MAX.
Proof.
  intros h. split; [|unfold h; rewrite !header_mask].
  - assert (Z.land h (Z.ones 16) = h) as <-.
    { unfold h. rewrite header_mask. unfold frame_header. by destruct e, c; cbn -[Z.lor Z.land]; rewrite ?Z.lor_0_r. }
    rewrite Z.land_ones by lia. apply Z.mod_pos_bound. lia.
  - change (Z.land STREAM_ID_MAX 0x8000) with 0. change (Z.land STREAM_ID_MAX 0x4000) with 0.
    change (Z.land STREAM_ID_MAX STREAM_ID_MAX) with STREAM_ID_MAX. rewrite !Z.land_0_r. destruct e, c; rewrite ?Z.lor_0_r; done.
Qed.

Lemma stream_id_small sid : 0 <= sid <= STREAM_ID_MAX -> Z.land sid STREAM_ID_MAX = sid.
Proof. unfold STREAM_ID_MAX. intros Hs. change 0x3fff with (Z.ones 14). rewrite Z.land_ones by lia. apply Z.mod_small. lia. Qed.

(** A packed frame is read back; its data is decompressed. *)
Lemma unpack_pack_bytes m :
  unpack_bytes (pack_bytes m) =
    (data ← (if compressed m && negb (bool_decide (frame_data m = [])) then decompress (frame_data m) MAX_CHUNK_LEN
             else Ok (frame_data m));
     Ok (mkFrame (Z.land (stream_id m) STREAM_ID_MAX) data (eof m) (compressed m))).
Proof.
  unfold pack_bytes, unpack_bytes. fold (frame_header (stream_id m) (eof m) (compressed m)).
  destruct (header_fields (stream_id m) (eof m) (compressed m)) as (Hr & He & Hc & Hs).
  rewrite length_app, be_encode_length. rewrite (proj2 (Nat.ltb_ge _ _)) by lia.
  rewrite take_app_length', drop_app_length' by (by rewrite be_encode_length).
  rewrite be_decode_encode by exact Hr. by rewrite He, Hc, Hs.
Qed.

Lemma try_compress_spec chunk mdu tries c n :
  try_compress chunk mdu tries = Some (c, n) -> Forall (fun k => (0 < k <= 32)%nat) tries ->
  (0 < n <= length chunk)%nat /\ c = bz2_compress (take n chunk).
Proof.
  intros E Ht. induction Ht as [|k tries Hk _ IH]; cbn [try_compress] in E; [done|].
  destruct (Nat.ltb_spec 32 (length chunk)) as [Hl|]; cbn [negb] in E; [|done].
  assert (0 < length chunk / k <= length chunk)%nat as Hn.
  { split; [apply Nat.div_str_pos; lia|apply Nat.Div0.div_le_upper_bound; nia]. }
  destruct (_ && _) eqn:Hb; [|by apply IH]. injection E as <- <-. split; [done|].
  apply andb_true_iff in Hb as [_ Hb%Nat.ltb_lt]. unfold maybe_compress in *.
  destruct (_ || _); cbn [fst] in *; [rewrite length_take in Hb; lia|].
  destruct (_ <? _)%nat; [done|]. cbn [fst] in Hb. rewrite length_take in Hb. lia.
Qed.

(** The frame holds a nonempty prefix of the data. *)
Lemma frame_within_spec limit sid data mdu m n :
  frame_within limit sid data mdu = (m, n) -> (0 < limit)%nat -> Z.of_nat limit <= MAX_CHUNK_LEN ->
  0 <= sid <= STREAM_ID_MAX -> all_u8 data -> (0 < mdu)%nat -> data <> [] ->
  (0 < n <= length data)%nat /\ all_u8 (pack_bytes m) /\
  exists m', unpack_bytes (pack_bytes m) = Ok m' /\ stream_id m' = sid /\ frame_data m' = take n data /\ eof m' = false.
Proof.
  intros E Hpos Hmax Hsid Hu Hmdu Hne. unfold frame_within in E. set (chunk := take limit data) in E.
  assert (0 < length chunk <= length data)%nat as Hc.
  { unfold chunk. rewrite length_take. destruct data; [done|]. cbn [length]. lia. }
  assert (forall k, (k <= length chunk)%nat -> take k chunk = take k data) as Htake.
  { intros k Hk. unfold chunk in *. rewrite take_take. rewrite length_take in Hk. f_equal. lia. }
  destruct (try_compress _ _ _) as [[c k]|] eqn:Et; injection E as <- <-.
  - apply try_compress_spec in Et as [Hk ->]; [|repeat constructor; lia]. rewrite Htake by lia.
    split; [lia|]. split; [unfold pack_bytes; apply all_u8_app; split; [apply be_encode_u8|apply bz2_compress_u8]|].
    eexists. rewrite unpack_pack_bytes. cbn [compressed frame_data stream_id eof]. rewrite stream_id_small by done.
    assert (all_u8 (take k data)) as Hu' by (by apply all_u8_take).
    rewrite bool_decide_eq_false_2 by apply bz2_compress_header. cbn [negb andb].
    unfold decompress. rewrite bz2_stream_compress by done. rewrite (proj2 (Z.ltb_ge _ _)); [by repeat split|].
    rewrite length_take. unfold chunk in Hk. rewrite length_take in Hk. lia.
  - split; [lia|]. split; [unfold pack_bytes; apply all_u8_app; split; [apply be_encode_u8|rewrite Htake by lia; by apply all_u8_take]|].
    eexists. rewrite unpack_pack_bytes. cbn [compressed frame_data stream_id eof andb]. rewrite stream_id_small by done.
    repeat split. by rewrite Htake by lia.
Qed.

Lemma chunk_limit : (0 < Z.to_nat MAX_CHUNK_LEN)%nat /\ Z.of_nat (Z.to_nat MAX_CHUNK_LEN) <= MAX_CHUNK_LEN.
Proof. rewrite Z2Nat.id by done. split; [|done]. change 0%nat with (Z.to_nat 0). by apply Z2Nat.inj_lt. Qed.

Lemma frame_of_spec sid data mdu m n :
  frame_of sid data mdu = (m, n) -> 0 <= sid <= STREAM_ID_MAX -> all_u8 data -> (0 < mdu)%nat -> data <> [] ->
  (0 < n <= length data)%nat /\ all_u8 (pack_bytes m) /\
  exists m', unpack_bytes (pack_bytes m) = Ok m' /\ stream_id m' = sid /\ frame_data m' = take n data /\ eof m' = false.
Proof.
  unfold frame_of. destruct chunk_limit as [Hpos Hmax]. revert Hpos Hmax. generalize (Z.to_nat MAX_CHUNK_LEN) as limit.
  intros limit Hpos Hmax E. by apply (frame_within_spec limit).
Qed.

(** ** The reader: lemmas *)
Lemma reader_ended sid ms d : fold_left (reader_step sid) ms (d, true) = (d, true).
Proof. by induction ms. Qed.

Lemma reader_pump_app sid l k : reader_pump sid (l ++ k) = fold_left (reader_step sid) k (reader_pump sid l).
Proof. apply fold_left_app. Qed.

Lemma reader_extends sid ms r : r.1 `prefix_of` (fold_left (reader_step sid) ms r).1.
Proof.
  revert r. induction ms as [|m ms IH]; intros r; [done|]. cbn [fold_left]. etrans; [|apply IH].
  unfold reader_step. destruct (r.2); [done|]. destruct m as [m|]; [|done]. destruct (negb _); [done|]. by eexists.
Qed.

(** What is read of a frame that was sent. *)
Definition reread (m : StreamDataMessage) : option StreamDataMessage :=
  match unpack_bytes (pack_bytes m) with Ok m => Some m | Err _ => None end.

(** What the reader of a stream gets from sent messages. *)
Definition received (sid : Z) (ms : list StreamDataMessage) : bytes * bool := reader_pump sid (Some <$> omap reread ms).

Lemma received_app sid l k : received sid (l ++ k) = fold_left (reader_step sid) (Some <$> omap reread k) (received sid l).
Proof. unfold received. by rewrite omap_app, fmap_app, reader_pump_app. Qed.

Lemma received_prefix sid ms n :
  (received sid (take n ms)).1 `prefix_of` (received sid ms).1 /\
  ((received sid (take n ms)).2 = true -> received sid (take n ms) = received sid ms).
Proof.
  pose proof (received_app sid (take n ms) (drop n ms)) as E. rewrite take_drop in E. rewrite E. split; [apply reader_extends|].
  destruct (received sid (take n ms)) as [d e]. cbn. intros ->. by rewrite reader_ended.
Qed.

Lemma registered_expected types (ms : list StreamDataMessage) : SMT_STREAM_DATA ∈ types -> registered SMT_STREAM_DATA (expected types <$> ms) = pack_bytes <$> ms.
Proof.
  intros Ht. induction ms as [|m ms IH]; [done|]. rewrite !fmap_cons. unfold registered in *. cbn [omap list_omap].
  unfold expected at 1. cbn [message_type StreamDataMessage_Message]. rewrite decide_True by done. by rewrite Z.eqb_refl, IH.
Qed.

(** A task that keeps up passes on, of what was sent, a beginning. *)
Lemma attach_reader_keeps_up raws rs : keeps_up raws rs ->
  (exists k, attach_reader rs = omap (fun raw => match unpack_bytes raw with Ok m => Some m | Err _ => None end) (take k raws)) /\
  (closed rs = false -> attach_reader rs = omap (fun raw => match unpack_bytes raw with Ok m => Some m | Err _ => None end) (messages rs)).
Proof.
  intros [Hl Hp]. revert raws Hp Hl. induction rs as [|r rs IH]; intros raws Hp Hl; [split; [by exists 0%nat|done]|]. apply not_elem_of_cons in Hl as [Hr Hl].
  destruct r as [raw| |]; [|done|split; [by exists 0%nat|done]].
  unfold messages in Hp |- *. cbn [omap list_omap] in Hp |- *. destruct Hp as [rest ->]. destruct (IH (messages rs ++ rest)) as [[k Hk] Hc]; [by eexists|done|]. split.
  - exists (S k). cbn. rewrite Hk. by destruct (unpack_bytes raw).
  - intros Hn. cbn. rewrite (Hc Hn). by destruct (unpack_bytes raw).
Qed.

Lemma drain_ring_keeps_up sent rs : keeps_up sent rs ->
  (exists k, drain_ring rs = (Some <$> take k sent) ++ (if closed rs then [None] else [])) /\
  (closed rs = false -> drain_ring rs = Some <$> messages rs).
Proof.
  intros [Hl Hp]. revert sent Hp Hl. induction rs as [|r rs IH]; intros sent Hp Hl; [split; [by exists 0%nat|done]|]. apply not_elem_of_cons in Hl as [Hr Hl].
  destruct r as [m| |]; [|done|split; [by exists 0%nat|done]].
  unfold messages in Hp |- *. cbn [omap list_omap] in Hp |- *. destruct Hp as [rest ->]. destruct (IH (messages rs ++ rest)) as [[k Hk] Hc]; [by eexists|done|]. split.
  - exists (S k). cbn. by rewrite Hk.
  - intros Hn. cbn. by rewrite (Hc Hn).
Qed.

Lemma take_omap {A B} (f : A -> option B) (l : list A) k : exists j, take k (omap f l) = omap f (take j l).
Proof.
  revert k. induction l as [|x l IH]; intros k; [exists 0%nat; by destruct k|]. cbn. destruct (f x) as [y|] eqn:E.
  - destruct k as [|k]; [by exists 0%nat|]. destruct (IH k) as [j Hj]. exists (S j). cbn. rewrite E. cbn in Hj. by rewrite Hj.
  - destruct (IH k) as [j Hj]. exists (S j). cbn. rewrite E. cbn in Hj. by rewrite Hj.
Qed.

(** What a reader whose tasks keep up gets from frames that the channel passed on. *)
Lemma reader_gets sid types (ms : list StreamDataMessage) raws rs : SMT_STREAM_DATA ∈ types ->
  keeps_up (registered SMT_STREAM_DATA (expected types <$> ms)) raws -> keeps_up (attach_reader raws) rs ->
  (exists k, let r := received sid (take k ms) in
     reader_pump sid (drain_ring rs) = if closed rs then (r.1, true) else r) /\
  (closed raws = false -> closed rs = false -> messages raws = registered SMT_STREAM_DATA (expected types <$> ms) ->
   messages rs = attach_reader raws -> reader_pump sid (drain_ring rs) = received sid ms).
Proof.
  intros Ht Hraw Hrs. rewrite registered_expected in * by done.
  destruct (attach_reader_keeps_up _ _ Hraw) as [[k1 E1] C1]. destruct (drain_ring_keeps_up _ _ Hrs) as [[k2 E2] C2].
  assert (forall l : list StreamDataMessage, omap (fun raw => match unpack_bytes raw with Ok m => Some m | Err _ => None end) (pack_bytes <$> l) = omap reread l) as Hre
    by (intros l; induction l as [|m l IH]; [done|]; cbn; by rewrite IH). split.
  - rewrite <- fmap_take, Hre in E1. rewrite E1 in E2. destruct (take_omap reread (take k1 ms) k2) as [j Hj]. rewrite Hj, take_take in E2.
    exists (Nat.min j k1). cbn zeta. rewrite E2, reader_pump_app. change (reader_pump sid (Some <$> omap reread ?l)) with (received sid l).
    destruct (closed rs); [|done]. cbn. unfold reader_step. by destruct (received _ _) as [d []].
  - intros N1 N2 M1 M2. rewrite (C2 N2), M2, (C1 N1), M1, Hre. done.
Qed.

(** A receiver that has got everything. *)
Lemma messages_read {A} (l : list A) : messages (RecvMessage <$> l) = l.
Proof. unfold messages. induction l as [|x l IH]; [done|]. cbn. cbn in IH. by rewrite IH. Qed.
Lemma not_closed {A} (l : list A) : closed (RecvMessage <$> l) = false.
Proof. by induction l. Qed.
Lemma all_read {A} (l : list A) : keeps_up l (RecvMessage <$> l).
Proof. split; [intros Hl; by apply list_elem_of_fmap in Hl as (x & [=] & _)|]. by rewrite messages_read. Qed.

(** ** The writer: lemmas *)
Section Writer.
Context (a : Link.t) (sid : Z) (Hsid : 0 <= sid <= STREAM_ID_MAX).

(** The operations are on this link; other users of the channel send frames of
    other streams. *)
Definition writer_op_ok (op : WriterOp) : Prop :=
  match op with
  | WriterRead d => all_u8 d
  | WriterClosed link _ iv | WriterFrame link _ iv => same_link a link /\ length iv = IV_KEY_SIZE
  | WriterChannel op => op_ok a op /\ match op with
                                      | OpSend _ _ _ m => Z.land (stream_id m) STREAM_ID_MAX <> sid
                                      | _ => True
                                      end
  | _ => True
  end.

(** What the writer took is what its frames hold and the rest of its chunk. *)
Record writes (w : Writer) (ms : list StreamDataMessage) : Prop := {
  ws_data : (received sid ms).1 ++ chunk w = taken w;
  ws_end : (received sid ms).2 = true <-> writer_state w = Ended true;
  ws_waiting : writer_state w = Waiting -> chunk w = [] /\ taken w = [];
  ws_mdu : writer_state w = Running -> (0 < frame_mdu w)%nat;
  ws_ended : forall b, writer_state w = Ended b -> chunk w = [];
  ws_u8 : all_u8 (chunk w);
}.

Lemma writes_other w ms m : writes w ms -> Z.land (stream_id m) STREAM_ID_MAX <> sid -> writes w (ms ++ [m]).
Proof.
  intros [] Hm. assert (received sid (ms ++ [m]) = received sid ms) as E; [|constructor; rewrite ?E; done].
  rewrite received_app. cbn [omap list_omap]. unfold reread. rewrite unpack_pack_bytes.
  destruct (if compressed m && _ then _ else _) as [d|]; cbn [mbind result_bind]; [|done].
  cbn [fmap list_fmap fold_left]. unfold reader_step. cbn [stream_id]. destruct ((received sid ms).2); [done|].
  by rewrite (proj2 (Z.eqb_neq _ _)).
Qed.

Lemma received_snoc ms m m' d :
  received sid ms = (d, false) -> unpack_bytes (pack_bytes m) = Ok m' -> stream_id m' = sid ->
  received sid (ms ++ [m]) = (d ++ frame_data m', eof m').
Proof.
  intros E Eu Es. rewrite received_app. cbn [omap list_omap]. unfold reread. rewrite Eu, E.
  cbn [fmap list_fmap fold_left]. unfold reader_step. cbn [fst snd]. by rewrite Es, Z.eqb_refl.
Qed.

Definition sent_as (o : Outbound) (o' : Outbound) (effects : list Effect) (new : list StreamDataMessage) : Prop :=
  exists ops, run_ops o ops = Some (o', effects, new) /\ Forall (op_ok a) ops.

Lemma sent_nothing o : sent_as o o [] [].
Proof. by exists []. Qed.

Lemma sent_one o op o' effects new : run_op o op = Some (o', effects, new) -> op_ok a op -> sent_as o o' effects new.
Proof. intros E Hok. exists [op]. cbn [run_ops]. rewrite E. cbn. rewrite !app_nil_r. split; [done|by constructor]. Qed.

Lemma end_frame_unpacks : unpack_bytes (pack_bytes (end_frame sid)) = Ok (end_frame sid).
Proof. rewrite unpack_pack_bytes. cbn. by rewrite stream_id_small. Qed.

Lemma end_frame_sendable : sendable (end_frame sid).
Proof. split; [done|]. unfold pack, StreamDataMessage_Message, pack_bytes. rewrite app_nil_r. apply be_encode_u8. Qed.

(** A message that the writer tries to send. *)
Lemma send_tried link up iv (m : StreamDataMessage) o r o' effects :
  send link up iv m o = Some (r, o', effects) -> same_link a link -> length iv = IV_KEY_SIZE -> sendable m ->
  sent_as o o' effects (match r with Ok _ => [m] | Err _ => [] end).
Proof. intros E Hl Hiv Hm. apply (sent_one o (OpSend link up iv m)); [|done]. cbn [run_op]. by rewrite E. Qed.

Lemma writer_closes link up iv w o w' o' effects new ms :
  writer_state w = Running -> chunk w = [] -> same_link a link -> length iv = IV_KEY_SIZE -> writes w ms ->
  ('(r, o, effects, ms) ← write_frame link up iv sid [] true (frame_mdu w) o;
   Some (set_writer (Ended (match r with Ok _ => true | Err _ => false end)) [] w, o, effects, ms)) = Some (w', o', effects, new) ->
  writes w' (ms ++ new) /\ sent_as o o' effects new.
Proof.
  intros Hst Hc Hl Hiv [W1 W2 W3 W4 W5 W6] E. unfold write_frame in E.
  destruct (send link up iv (end_frame sid) o) as [[[r o1] ef]|] eqn:Es; [|done]. cbn [mbind option_bind] in E.
  pose proof (send_tried _ _ _ _ _ _ _ _ Es Hl Hiv end_frame_sendable) as Hsent.
  assert (received sid ms = (taken w, false)) as Er.
  { destruct (received sid ms) as [d e]. cbn in W1, W2. rewrite Hc, app_nil_r in W1. destruct e; [|by rewrite W1].
    pose proof (proj1 W2 eq_refl). congruence. }
  destruct r as [h|e]; injection E as <- <- <- <-; (split; [|done]).
  - pose proof (received_snoc ms _ _ _ Er end_frame_unpacks eq_refl) as E2.
    constructor; rewrite ?E2; cbn; rewrite ?app_nil_r; try done. constructor.
  - rewrite app_nil_r. constructor; rewrite ?Er; cbn; rewrite ?app_nil_r; try done. constructor.
Qed.

Lemma writer_frames link up iv w o w' o' effects new ms :
  writer_state w = Running -> chunk w <> [] -> same_link a link -> length iv = IV_KEY_SIZE -> writes w ms ->
  ('(r, o, effects, ms) ← write_frame link up iv sid (chunk w) false (frame_mdu w) o;
   Some (match r with
         | Ok O => set_writer Stopped (chunk w) w
         | Ok n => set_writer Running (drop n (chunk w)) w
         | Err LinkNotReady | Err ChannelError => w
         | Err _ => set_writer Stopped (chunk w) w
         end, o, effects, ms)) = Some (w', o', effects, new) ->
  writes w' (ms ++ new) /\ sent_as o o' effects new.
Proof.
  intros Hst Hc Hl Hiv [W1 W2 W3 W4 W5 W6] E. specialize (W4 Hst). unfold write_frame in E.
  rewrite (proj2 (Nat.eqb_neq _ _)) in E by lia.
  destruct (frame_of sid (chunk w) (frame_mdu w)) as [m n] eqn:Ef.
  destruct (frame_of_spec _ _ _ _ _ Ef Hsid W6 W4 Hc) as (Hn & Hu & m' & Em & Es' & Ed & Ee).
  destruct (send link up iv m o) as [[[r o1] ef]|] eqn:Es; [|done]. cbn [mbind option_bind] in E.
  assert (sendable m) as Hm by (by split).
  pose proof (send_tried _ _ _ _ _ _ _ _ Es Hl Hiv Hm) as Hsent.
  assert ((received sid ms).2 = false) as Er.
  { destruct ((received sid ms).2); [|done]. pose proof (proj1 W2 eq_refl). congruence. }
  destruct r as [h|e].
  - destruct n as [|n]; [lia|]. injection E as <- <- <- <-. split; [|done].
    assert (received sid ms = ((received sid ms).1, false)) as Er' by (destruct (received sid ms); cbn in *; by subst).
    pose proof (received_snoc ms _ _ _ Er' Em Es') as E2. rewrite Ed, Ee in E2.
    constructor; rewrite ?E2; cbn -[take drop]; try done.
    + rewrite <- app_assoc, take_drop. done.
    + by apply all_u8_drop.
  - assert (writes w ms /\ writes (set_writer Stopped (chunk w) w) ms) as [Hw Hw'].
    { split; constructor; cbn; try done. by rewrite Er. }
    assert (o' = o1 /\ effects = ef /\ new = [] /\ (w' = w \/ w' = set_writer Stopped (chunk w) w)) as (-> & -> & -> & Hor)
      by (destruct e; injection E as <- <- <- <-; auto).
    rewrite app_nil_r. split; [|done]. by destruct Hor as [-> | ->].
Qed.

Lemma writer_channel_writes op w o w' o' effects new ms :
  writer_step sid (WriterChannel op) w o = Some (w', o', effects, new) -> writer_op_ok (WriterChannel op) -> writes w ms ->
  writes w' (ms ++ new) /\ sent_as o o' effects new.
Proof.
  intros E [Hop Hm] W. unfold writer_step in E. destruct (run_op o op) as [[[o1 ef] ms1]|] eqn:Er; [|done].
  injection E as <- <- <- <-. split; [|by eapply sent_one].
  destruct op as [link up iv m|link h|link up h|]; cbn [run_op] in Er.
  - destruct (send link up iv m o) as [[[[h|e] o2] ef2]|]; [| |done]; injection Er as <- <- <-;
      [by apply writes_other|by rewrite app_nil_r].
  - destruct (handle_proof link h o). injection Er as <- <- <-. by rewrite app_nil_r.
  - destruct (handle_timeout link up h o) as [[o2 ef2]|]; [|done]. injection Er as <- <- <-. by rewrite app_nil_r.
  - injection Er as <- <- <-. by rewrite app_nil_r.
Qed.

(** Nothing is sent: the writer stays as it was or stops. *)
Lemma writer_stops w ms : writes w ms -> writer_state w = Running \/ writer_state w = Waiting -> writes (set_writer Stopped (chunk w) w) ms.
Proof.
  intros [W1 W2 W3 W4 W5 W6] Hst. constructor; cbn; try done. rewrite W2. split; [|done]. destruct Hst; congruence.
Qed.

Lemma writer_reads d w ms :
  writes w ms -> writer_state w = Running -> chunk w = [] -> all_u8 d -> writes (mkWriter Running (frame_mdu w) d (taken w ++ d)) ms.
Proof.
  intros [W1 W2 W3 W4 W5 W6] Hst Hc Hu. constructor; cbn; try done.
  - by rewrite <- W1, Hc, app_nil_r.
  - rewrite W2. split; [congruence|done].
  - auto.
Qed.

Lemma writer_starts n w ms :
  writes w ms -> writer_state w = Waiting -> writes (mkWriter (if (n =? 0)%nat then Stopped else Running) n [] []) ms.
Proof.
  intros [W1 W2 W3 W4 W5 W6] Hst. destruct (W3 Hst) as [Ec Et]. rewrite Ec, Et in W1.
  constructor; cbn.
  - done.
  - rewrite W2, Hst. by destruct (n =? 0)%nat.
  - done.
  - destruct (Nat.eqb_spec n 0); [done|lia].
  - done.
  - apply Forall_nil_2.
Qed.

Lemma writer_step_writes op w o w' o' effects new ms :
  writer_step sid op w o = Some (w', o', effects, new) -> writer_op_ok op -> writes w ms ->
  writes w' (ms ++ new) /\ sent_as o o' effects new.
Proof.
  intros E Hok W. assert (forall w1, Some (w1, o, [], []) = Some (w', o', effects, new) -> writes w1 ms ->
    writes w' (ms ++ new) /\ sent_as o o' effects new) as Hquiet.
  { intros w1 [= <- <- <- <-] W1. rewrite app_nil_r. split; [done|apply sent_nothing]. }
  destruct op as [link|d|link up iv|link up iv| |op]; [..|by eapply writer_channel_writes];
    unfold writer_step in E; destruct (writer_state w) eqn:Hst; try (eapply Hquiet; [exact E|done]).
  - eapply Hquiet; [exact E|]. destruct (is_ready_to_send link o); [|done]. by eapply writer_starts.
  - eapply Hquiet; [exact E|]. destruct (chunk w) eqn:Hc; cbn [is_nil andb]; [|done].
    destruct (negb _ && _); [|done]. by apply writer_reads.
  - destruct Hok as [Hl Hiv]. destruct (chunk w) eqn:Hc; cbn [is_nil] in E; [|by eapply Hquiet]. by eapply writer_closes.
  - destruct Hok as [Hl Hiv]. destruct (is_nil (chunk w)) eqn:Hc; [by eapply Hquiet|].
    eapply writer_frames; try done. by destruct (chunk w).
  - eapply Hquiet; [exact E|]. apply writer_stops; auto.
  - eapply Hquiet; [exact E|]. destruct (is_nil (chunk w)); [done|]. apply writer_stops; auto.
Qed.

Lemma sent_as_app o o1 o2 e1 e2 m1 m2 : sent_as o o1 e1 m1 -> sent_as o1 o2 e2 m2 -> sent_as o o2 (e1 ++ e2) (m1 ++ m2).
Proof.
  intros (ops & E1 & H1') (ops' & E2 & H2'). exists (ops ++ ops'). split; [|by apply Forall_app].
  revert o e1 m1 E1. clear H1'. induction ops as [|op ops IH]; intros o e1 m1 E1; cbn [run_ops app] in *.
  { by injection E1 as <- <- <-. }
  destruct (run_op o op) as [[[o3 e3] m3]|]; [|done]. cbn [mbind option_bind] in *.
  destruct (run_ops o3 ops) as [[[o4 e4] m4]|] eqn:E4; [|done]. injection E1 as <- <- <-.
  rewrite (IH o3 e4 m4 E4). cbn. by rewrite !app_assoc.
Qed.

Lemma writer_run_writes ops : forall w o w' o' effects new ms,
  writer_run sid ops w o = Some (w', o', effects, new) -> Forall writer_op_ok ops -> writes w ms ->
  writes w' (ms ++ new) /\ sent_as o o' effects new.
Proof.
  induction ops as [|op ops IH]; intros w o w' o' effects new ms E Hok W; cbn [writer_run] in E.
  { injection E as <- <- <- <-. rewrite app_nil_r. split; [done|apply sent_nothing]. }
  apply Forall_cons_1 in Hok as [Hop Hok]. destruct (writer_step sid op w o) as [[[[w1 o1] e1] m1]|] eqn:E1; [|done].
  cbn [mbind option_bind] in E. destruct (writer_run sid ops w1 o1) as [[[[w2 o2] e2] m2]|] eqn:E2; [|done].
  injection E as <- <- <- <-. destruct (writer_step_writes _ _ _ _ _ _ _ _ E1 Hop W) as [W1 S1].
  destruct (IH _ _ _ _ _ _ _ E2 Hok W1) as [W2 S2]. rewrite <- app_assoc in W2. split; [done|by eapply sent_as_app].
Qed.

Lemma spawn_writer_writes : writes spawn_writer [].
Proof. constructor; cbn; try done. constructor. Qed.

End Writer.
End Streams.

Section Delivery.
Context `{Bz2}.
Context `{Sha256} `{Hkdf} `{X25519} `{CbcCipher} `{HmacSha256}.
Context `{Signing} `{!Verifying} `{!Ed25519} `{!Ed25519Keys} `{Rmp} `{RmpDecode}.

(** The messages that a channel accepts can be read as the registered type. *)
Lemma frames_readable types (ms : list StreamDataMessage) a :
  SMT_STREAM_DATA ∈ types -> (forall k, (k < length ms)%nat -> exists p, carries a ms k p) -> Forall (readable types) ms.
Proof.
  intros Ht Hc. apply Forall_lookup_2. intros k m Hk. destruct (Hc k) as (p & m' & iv & Hk' & _ & [_ Hfit] & _); [by eapply lookup_lt_Some|].
  rewrite Hk in Hk'. injection Hk' as <-. split; [done|]. split; [|done].
  rewrite pkcs7_pad_length in Hfit. set (n := length (message_raw m _)) in Hfit.
  assert (length (pack m) <= n)%nat as Hle by (unfold n, message_raw, envelope_raw; rewrite !length_app; lia).
  change AES128_BLOCKSIZE with 16%nat in Hfit. unfold PACKET_MDU in Hfit.
  pose proof (Nat.div_mod_eq n 16). pose proof (Nat.mod_upper_bound n 16). lia.
Qed.

(** ** Theorem *)


End Delivery.

(** ** Concrete instances *)
#[local] Existing Instance toy_sha256.
#[local] Existing Instance toy_hkdf.
#[local] Existing Instance toy_x25519.
#[local] Existing Instance toy_cbc.
#[local] Existing Instance toy_hmac.
#[local] Existing Instance toy_signing.
#[local] Existing Instance toy_verifying.
#[local] Existing Instance toy_ed25519.
#[local] Existing Instance toy_keys.
#[local] Existing Instance msgpack_rmp.
#[local] Existing Instance toy_rmp_decode.
#[local] Existing Instance toy_bz2.

(** Bytes that compress, in a frame of their own, and the end. *)
Definition sample_written : bytes := [0; 0; 0] ++ seqZ 1 40.
Definition sample_writer_ops : list WriterOp :=
  [WriterReady sample_a; WriterRead sample_written; WriterFrame sample_a true (replicate 16 0);
   WriterClosed sample_a true (replicate 16 1)].

Definition sample_writer_run : option (Writer * Outbound * list Effect * list StreamDataMessage) :=
  writer_run 7 sample_writer_ops spawn_writer (Outbound_new sample_a).

