(* ===== verification/IfaceControl.v ===== *)
(** * Control state of an interface ([src/src/iface/control.rs])

    Frequencies of announces and path requests, the detection of bursts and the
    announces held back during them, and the airtime budget with its queue of
    announces to send.  [now] is the monotonic clock in nanoseconds.  A panic of
    [Duration::from_secs_f64] is [None].

    The settings that the interface manager and the configuration write are the
    record [Settings]; the rest of the state is private to the operations. *)

From Stdlib Require Import Ascii.
From S2P Require Import Prelude Float Buffer Hash Packet PathTable.
Local Open Scope Z_scope.

#[export] Instance InterfaceMode_eq_dec : EqDecision InterfaceMode.
Proof. solve_decision. Defined.

(** ** Modes *)
Definition DISCOVER_PATHS_FOR : list InterfaceMode := [AccessPoint; Gateway; Roaming; Internal].
Definition BOUNDARY_SEARCH_MODES : list InterfaceMode := [Boundary; Gateway].

Definition mode_as_u8 (m : InterfaceMode) : Z :=
  match m with
  | Full => 1 | PointToPoint => 2 | AccessPoint => 3 | Roaming => 4 | Boundary => 5 | Gateway => 6 | Internal => 7
  end.

Definition mode_from_u8 (value : Z) : option InterfaceMode :=
  if value =? 1 then Some Full
  else if value =? 2 then Some PointToPoint
  else if value =? 3 then Some AccessPoint
  else if value =? 4 then Some Roaming
  else if value =? 5 then Some Boundary
  else if value =? 6 then Some Gateway
  else if value =? 7 then Some Internal
  else None.

(** [to_lowercase] on the letters that occur in names: the only other character
    whose lower case is one ASCII letter is the Kelvin sign, and no name has a
    [k]. *)
Definition to_lowercase (c : ascii) : ascii :=
  let n := nat_of_ascii c in if ((65 <=? n) && (n <=? 90))%nat then ascii_of_nat (n + 32) else c.

Fixpoint lowercase (s : string) : string :=
  match s with EmptyString => EmptyString | String c s' => String (to_lowercase c) (lowercase s') end.

Definition mode_from_name (name : string) : option InterfaceMode :=
  let n := lowercase name in
  if bool_decide (n ∈ ["full"; "default"]%string) then Some Full
  else if bool_decide (n ∈ ["pointtopoint"; "point_to_point"; "point-to-point"; "ptp"]%string) then Some PointToPoint
  else if bool_decide (n ∈ ["accesspoint"; "access_point"; "access-point"; "ap"]%string) then Some AccessPoint
  else if bool_decide (n = "roaming"%string) then Some Roaming
  else if bool_decide (n = "boundary"%string) then Some Boundary
  else if bool_decide (n ∈ ["gateway"; "gw"]%string) then Some Gateway
  else if bool_decide (n = "internal"%string) then Some Internal
  else None.

Definition mode_name (m : InterfaceMode) : string :=
  match m with
  | Full => "full" | PointToPoint => "point_to_point" | AccessPoint => "access_point" | Roaming => "roaming"
  | Boundary => "boundary" | Gateway => "gateway" | Internal => "internal"
  end.

(** ** Constants and parameters *)
Definition FREQ_SAMPLES : nat := 48.
Definition DEQUE_MIN_SAMPLE : nat := 2.
Definition EC_BURST_MIN_SAMPLES : nat := 2.
Definition IC_PR_BURST_COOLDOWN : Z := 3.
Definition AR_FREQ_DECAY : Z := 10 * NANOS.
Definition PR_FREQ_DECAY : Z := 10 * NANOS.
Definition ANNOUNCE_CAP : f64 := f64_dec 2 2.
Definition DEFAULT_BITRATE : Z := 62500.
Definition MAX_QUEUED_ANNOUNCES : Z := 16384.
Definition QUEUED_ANNOUNCE_LIFE : Z := 60 * 60 * 24 * NANOS.
Definition MAX_HELD_ANNOUNCES : nat := 256.

(** [f64::MIN_POSITIVE] *)
Definition F64_MIN_POSITIVE : f64 := f64_lit 1 (-1022).

Record IfaceControlParams := mkParams {
  ic_max_held_announces : nat;
  ic_burst_hold : Z;
  ic_burst_freq_new : f64;
  ic_burst_freq : f64;
  ic_pr_burst_freq_new : f64;
  ic_pr_burst_freq : f64;
  ic_new_time : Z;
  ic_burst_penalty : Z;
  ic_held_release_interval : Z;
  ec_pr_freq : f64;
}.

Definition IfaceControlParams_default : IfaceControlParams :=
  mkParams MAX_HELD_ANNOUNCES (15 * NANOS) (f64_of_Z 3) (f64_of_Z 10) (f64_of_Z 3) (f64_of_Z 8) (2 * 60 * 60 * NANOS)
    (15 * NANOS) (5 * NANOS) (f64_of_Z 5).

Record QueuedAnnounce := mkQueued {
  q_packet : Packet;
  queued_at : Z;
  q_emitted : Z;
}.

(** The announce budget that the daemon's configuration sets
    ([reticulum-daemon/src/config.rs], [announce_cap] in percent). *)
Definition announce_cap_fraction (announce_cap : option f64) : f64 :=
  match announce_cap with
  | Some cap => if f_lt (f64_of_Z 0) cap && f_le cap (f64_of_Z 100) then f64_div cap (f64_of_Z 100)
                else f64_div ANNOUNCE_CAP (f64_of_Z 100)
  | None => f64_div ANNOUNCE_CAP (f64_of_Z 100)
  end.

(** A buffer of [PACKET_MDU + 128] bytes is written. *)
Definition packet_wire_len (p : Packet) : nat :=
  match Packet_serialize p (OutputBuffer.new (replicate (PACKET_MDU + 128) 0)) with
  | (Ok _, o) => OutputBuffer.offset o
  | (Err _, _) => PACKET_MDU
  end.

Definition queued_is_stale (entry : QueuedAnnounce) (now : Z) : bool := queued_at entry + QUEUED_ANNOUNCE_LIFE <? now.

Record Settings := mkSettings {
  ctl_mode : InterfaceMode;
  bitrate : Z;
  announce_cap : f64;
  ingress_control : bool;
  announce_ingress_limit : bool;
  egress_control : bool;
  recursive_prs : bool;
  announces_from_internal : bool;
  announces_to_internal : option bool;
  is_local_client : bool;
  tunnel_id : option AddressHash;
  wants_tunnel : bool;
  ctl_gravity : Z;
  announce_rate_target : option Z;
  announce_rate_grace : option Z;
  announce_rate_penalty : option Z;
  params : IfaceControlParams;
}.

Definition Settings_default : Settings :=
  mkSettings Full DEFAULT_BITRATE ANNOUNCE_CAP true true false false true None false None false 0 None None None
    IfaceControlParams_default.

(** A burst: whether it is active, since when, and when it was last seen at its
    threshold. *)
Record Burst := mkBurst {
  burst_active : bool;
  burst_activated : Z;
  burst_sustained : Z;
}.

Record IfaceControlState := mkControl {
  created : Z;
  settings : Settings;
  announce_allowed_at : Z;
  ia_freq_deque : list Z;
  oa_freq_deque : list Z;
  ip_freq_deque : list Z;
  op_freq_deque : list Z;
  ic_burst : Burst;
  ic_pr_burst : Burst;
  ic_pr_burst_cooldown : Z;
  ic_held_release : Z;
  held_announces : gmap AddressHash Packet;
  announce_queue : list QueuedAnnounce;
}.

Definition Control_new (now : Z) : IfaceControlState :=
  mkControl now Settings_default now [] [] [] [] (mkBurst false now now) (mkBurst false now now) 0 now ∅ [].

(** ** Updates of one field *)
Definition set_settings (f : Settings -> Settings) (s : IfaceControlState) : IfaceControlState :=
  mkControl (created s) (f (settings s)) (announce_allowed_at s) (ia_freq_deque s) (oa_freq_deque s) (ip_freq_deque s)
    (op_freq_deque s) (ic_burst s) (ic_pr_burst s) (ic_pr_burst_cooldown s) (ic_held_release s) (held_announces s) (announce_queue s).
Definition set_deques (ia oa ip op : list Z) (s : IfaceControlState) : IfaceControlState :=
  mkControl (created s) (settings s) (announce_allowed_at s) ia oa ip
    op (ic_burst s) (ic_pr_burst s) (ic_pr_burst_cooldown s) (ic_held_release s) (held_announces s) (announce_queue s).
Definition set_ia (d : list Z) (s : IfaceControlState) := set_deques d (oa_freq_deque s) (ip_freq_deque s) (op_freq_deque s) s.
Definition set_oa (d : list Z) (s : IfaceControlState) := set_deques (ia_freq_deque s) d (ip_freq_deque s) (op_freq_deque s) s.
Definition set_ip (d : list Z) (s : IfaceControlState) := set_deques (ia_freq_deque s) (oa_freq_deque s) d (op_freq_deque s) s.
Definition set_op (d : list Z) (s : IfaceControlState) := set_deques (ia_freq_deque s) (oa_freq_deque s) (ip_freq_deque s) d s.
Definition set_burst (b : Burst) (release : Z) (s : IfaceControlState) : IfaceControlState :=
  mkControl (created s) (settings s) (announce_allowed_at s) (ia_freq_deque s) (oa_freq_deque s) (ip_freq_deque s)
    (op_freq_deque s) b (ic_pr_burst s) (ic_pr_burst_cooldown s) release (held_announces s) (announce_queue s).
Definition set_pr_burst (b : Burst) (cooldown : Z) (s : IfaceControlState) : IfaceControlState :=
  mkControl (created s) (settings s) (announce_allowed_at s) (ia_freq_deque s) (oa_freq_deque s) (ip_freq_deque s)
    (op_freq_deque s) (ic_burst s) b cooldown (ic_held_release s) (held_announces s) (announce_queue s).
Definition set_held (release : Z) (held : gmap AddressHash Packet) (s : IfaceControlState) : IfaceControlState :=
  mkControl (created s) (settings s) (announce_allowed_at s) (ia_freq_deque s) (oa_freq_deque s) (ip_freq_deque s)
    (op_freq_deque s) (ic_burst s) (ic_pr_burst s) (ic_pr_burst_cooldown s) release held (announce_queue s).
Definition set_budget (at_ : Z) (q : list QueuedAnnounce) (s : IfaceControlState) : IfaceControlState :=
  mkControl (created s) (settings s) at_ (ia_freq_deque s) (oa_freq_deque s) (ip_freq_deque s)
    (op_freq_deque s) (ic_burst s) (ic_pr_burst s) (ic_pr_burst_cooldown s) (ic_held_release s) (held_announces s) q.

Definition set_params (p : IfaceControlParams) : IfaceControlState -> IfaceControlState :=
  set_settings (fun c => mkSettings (ctl_mode c) (bitrate c) (announce_cap c) (ingress_control c) (announce_ingress_limit c)
    (egress_control c) (recursive_prs c) (announces_from_internal c) (announces_to_internal c) (is_local_client c)
    (tunnel_id c) (wants_tunnel c) (ctl_gravity c) (announce_rate_target c) (announce_rate_grace c) (announce_rate_penalty c) p).
Definition set_announce_ingress_limit (enabled : bool) : IfaceControlState -> IfaceControlState :=
  set_settings (fun c => mkSettings (ctl_mode c) (bitrate c) (announce_cap c) (ingress_control c) enabled
    (egress_control c) (recursive_prs c) (announces_from_internal c) (announces_to_internal c) (is_local_client c)
    (tunnel_id c) (wants_tunnel c) (ctl_gravity c) (announce_rate_target c) (announce_rate_grace c) (announce_rate_penalty c)
    (params c)).

Definition control_params (s : IfaceControlState) : IfaceControlParams := params (settings s).

Definition age (now : Z) (s : IfaceControlState) : Z := Z.max 0 (now - created s).

(** ** Frequencies *)
Definition push_sample (deque : list Z) (now : Z) : list Z :=
  (if (length deque =? FREQ_SAMPLES)%nat then drop 1 deque else deque) ++ [now].

Definition received_announce (now : Z) (s : IfaceControlState) := set_ia (push_sample (ia_freq_deque s) now) s.
Definition sent_announce (now : Z) (s : IfaceControlState) := set_oa (push_sample (oa_freq_deque s) now) s.
Definition received_path_request (now : Z) (s : IfaceControlState) := set_ip (push_sample (ip_freq_deque s) now) s.
Definition sent_path_request (now : Z) (s : IfaceControlState) := set_op (push_sample (op_freq_deque s) now) s.

Definition frequency (deque : list Z) (decay : Z) (min_samples : nat) (now : Z) (preemptive : bool) : f64 * list Z :=
  let n := length deque in
  match deque with
  | oldest :: rest =>
      if (n <=? min_samples)%nat then (f64_of_Z 0, deque)
      else
        let span := Z.max 0 (now - oldest) in
        let deque1 := if decay <? span then rest else deque in
        let span := as_secs_f64 span in
        (if f_le span (f64_of_Z 0) then f64_of_Z 0
         else f64_div (f64_of_Z (Z.of_nat n + (if preemptive then 1 else 0))) span, deque1)
  | [] => (f64_of_Z 0, deque)
  end.

Definition incoming_announce_frequency (now : Z) (s : IfaceControlState) : f64 * IfaceControlState :=
  let '(f, d) := frequency (ia_freq_deque s) AR_FREQ_DECAY DEQUE_MIN_SAMPLE now false in (f, set_ia d s).
Definition outgoing_announce_frequency (now : Z) (s : IfaceControlState) : f64 * IfaceControlState :=
  let '(f, d) := frequency (oa_freq_deque s) AR_FREQ_DECAY 1 now false in (f, set_oa d s).
Definition incoming_pr_frequency (now : Z) (s : IfaceControlState) : f64 * IfaceControlState :=
  let '(f, d) := frequency (ip_freq_deque s) PR_FREQ_DECAY DEQUE_MIN_SAMPLE now false in (f, set_ip d s).
Definition outgoing_pr_frequency (now : Z) (s : IfaceControlState) : f64 * IfaceControlState :=
  let '(f, d) := frequency (op_freq_deque s) PR_FREQ_DECAY 1 now false in (f, set_op d s).

(** ** Ingress limits *)
Definition announce_threshold (now : Z) (s : IfaceControlState) : f64 :=
  if age now s <? ic_new_time (control_params s) then ic_burst_freq_new (control_params s) else ic_burst_freq (control_params s).

Definition hold_elapsed (hold now : Z) (b : Burst) : bool :=
  (burst_activated b + hold <? now) && (burst_sustained b + hold <? now).

Definition should_ingress_limit (now : Z) (s : IfaceControlState) : bool * IfaceControlState :=
  if negb (ingress_control (settings s)) || negb (announce_ingress_limit (settings s)) then (false, s)
  else
    let freq_threshold := announce_threshold now s in
    let '(ia_freq, s) := incoming_announce_frequency now s in
    let b := ic_burst s in
    if burst_active b then
      (true,
       if f_lt ia_freq freq_threshold && hold_elapsed (ic_burst_hold (control_params s)) now b then
         if (DEQUE_MIN_SAMPLE <=? length (ia_freq_deque s))%nat
         then set_burst (mkBurst false (burst_activated b) (burst_sustained b)) (ic_held_release s) s else s
       else if f_le freq_threshold ia_freq
       then set_burst (mkBurst true (burst_activated b) now) (ic_held_release s) s else s)
    else if f_lt freq_threshold ia_freq then
      (true, set_burst (mkBurst true now now) (now + ic_burst_penalty (control_params s)) s)
    else (false, s).

Definition should_ingress_limit_pr (now : Z) (s : IfaceControlState) : bool * IfaceControlState :=
  if negb (ingress_control (settings s)) then (false, s)
  else
    let freq_threshold :=
      if age now s <? ic_new_time (control_params s) then ic_pr_burst_freq_new (control_params s)
      else ic_pr_burst_freq (control_params s) in
    let '(ip_freq, s) := incoming_pr_frequency now s in
    let b := ic_pr_burst s in
    if burst_active b then
      (true,
       if f_lt ip_freq freq_threshold && hold_elapsed (ic_burst_hold (control_params s)) now b then
         if ic_pr_burst_cooldown s =? 0
         then set_pr_burst (mkBurst false (burst_activated b) (burst_sustained b)) 0 s
         else set_pr_burst b (ic_pr_burst_cooldown s - 1) s
       else set_pr_burst (mkBurst true (burst_activated b) (if f_le freq_threshold ip_freq then now else burst_sustained b))
              IC_PR_BURST_COOLDOWN s)
    else if f_lt freq_threshold ip_freq then (true, set_pr_burst (mkBurst true now now) IC_PR_BURST_COOLDOWN s)
    else (false, s).

Definition should_egress_limit_pr (now : Z) (s : IfaceControlState) : bool * IfaceControlState :=
  if negb (egress_control (settings s)) then (false, s)
  else
    let '(op_freq, d) := frequency (op_freq_deque s) PR_FREQ_DECAY 1 now true in
    (f_lt (ec_pr_freq (control_params s)) op_freq && (EC_BURST_MIN_SAMPLES <=? length d)%nat, set_op d s).

(** ** Held announces *)
Definition hold_announce (packet : Packet) (max_hops : Z) (s : IfaceControlState) : IfaceControlState :=
  if Z.max 0 (max_hops - 1) <=? hops (header packet) then s
  else
    let held := held_announces s in
    if bool_decide (held !! destination packet = None) && (ic_max_held_announces (control_params s) <=? size held)%nat then s
    else set_held (ic_held_release s) (<[destination packet := packet]> held) s.

(** [Iterator::min_by_key]: the first of the smallest. *)
Fixpoint min_by_key {A} (key : A -> Z) (l : list A) : option A :=
  match l with
  | [] => None
  | a :: l' => match min_by_key key l' with
               | Some b => if key b <? key a then Some b else Some a
               | None => Some a
               end
  end.

Definition release_held_announce (now : Z) (s : IfaceControlState) : option Packet * IfaceControlState :=
  if bool_decide (held_announces s = ∅) || (now <=? ic_held_release s) then (None, s)
  else
    let freq_threshold := announce_threshold now s in
    let '(f, s) := incoming_announce_frequency now s in
    if f_le freq_threshold f then (None, s)
    else
      match min_by_key (fun x : AddressHash * Packet => hops (header x.2)) (btree_iter bytes_le (held_announces s)) with
      | Some (selected, _) =>
          (held_announces s !! selected,
           set_held (now + ic_held_release_interval (control_params s)) (delete selected (held_announces s)) s)
      | None => (None, s)
      end.

(** ** The airtime budget *)
Definition cap_wait_time (size : nat) (s : IfaceControlState) : option Z :=
  if bitrate (settings s) =? 0 then Some 0
  else
    let tx_time := f64_div (f64_mul (f64_of_Z (Z.of_nat size)) (f64_of_Z 8)) (f64_of_Z (bitrate (settings s))) in
    let wait := f64_div tx_time (f64_max (announce_cap (settings s)) F64_MIN_POSITIVE) in
    from_secs_f64 (f64_max wait (f64_of_Z 0)).

Definition try_transmit_announce (size : nat) (now : Z) (s : IfaceControlState) : option (bool * IfaceControlState) :=
  if negb (bool_decide (announce_queue s = [])) || (bitrate (settings s) =? 0) || f_le (announce_cap (settings s)) (f64_of_Z 0)
  then Some (false, s)
  else if announce_allowed_at s <=? now then
    w ← cap_wait_time size s; Some (true, set_budget (now + w) (announce_queue s) s)
  else Some (false, s).

(** The entry of the destination, if there is one, is replaced in place when the
    new announce was emitted later. *)
Fixpoint replace_queued (q : list QueuedAnnounce) (e : QueuedAnnounce) : option (list QueuedAnnounce) :=
  match q with
  | [] => None
  | x :: q' =>
      if decide (destination (q_packet x) = destination (q_packet e))
      then Some ((if q_emitted x <? q_emitted e then e else x) :: q')
      else cons x <$> replace_queued q' e
  end.

Definition queue_announce (packet : Packet) (now : Z) (s : IfaceControlState) : IfaceControlState :=
  if negb (bool_decide (packet_type (header packet) = Announce)) then s
  else
    let e := mkQueued packet now (announce_emitted packet) in
    match replace_queued (announce_queue s) e with
    | Some q => set_budget (announce_allowed_at s) q s
    | None =>
        if MAX_QUEUED_ANNOUNCES <=? Z.of_nat (length (announce_queue s)) then s
        else set_budget (announce_allowed_at s) (announce_queue s ++ [e]) s
    end.

(** The index of the first entry with the least hops. *)
Definition select_queued (q : list QueuedAnnounce) : option nat :=
  fst <$> min_by_key (fun x : nat * QueuedAnnounce => hops (header (q_packet x.2))) (imap pair q).

Definition take_queued_announce (now : Z) (s : IfaceControlState) : option (option Packet * IfaceControlState) :=
  let q := filter (fun e => queued_is_stale e now = false) (announce_queue s) in
  match select_queued q with
  | None => Some (None, set_budget (announce_allowed_at s) q s)
  | Some i =>
      match q !! i with
      | None => None
      | Some entry =>
          wait_time ← cap_wait_time (packet_wire_len (q_packet entry)) s;
          Some (Some (q_packet entry), set_budget (now + wait_time) (take i q ++ drop (S i) q) s)
      end
  end.

Definition queued_announce_wait (now : Z) (s : IfaceControlState) : option Z :=
  if bool_decide (announce_queue s = []) then None else Some (Z.max 0 (announce_allowed_at s - now)).

Definition clear_announce_queue (s : IfaceControlState) : IfaceControlState := set_budget (announce_allowed_at s) [] s.

(** ** Runs

    What can happen to an interface after it is set up. *)
Inductive CtlOp :=
| OpReceivedAnnounce
| OpSentAnnounce
| OpReceivedPathRequest
| OpSentPathRequest
| OpIngressLimit
| OpIngressLimitPr
| OpEgressLimitPr
| OpHold (packet : Packet) (max_hops : Z)
| OpRelease
| OpTryTransmit (size : nat)
| OpQueue (packet : Packet)
| OpTake
| OpClear.

Inductive CtlEvent :=
| Nothing
| Limited (answer : bool)
| LimitedPr (answer : bool)
| EgressLimited (answer : bool)
| Released (packet : Packet)
| Transmit (answer : bool)
| Taken (packet : Packet).

Definition ctl_step (now : Z) (op : CtlOp) (s : IfaceControlState) : option (CtlEvent * IfaceControlState) :=
  match op with
  | OpReceivedAnnounce => Some (Nothing, received_announce now s)
  | OpSentAnnounce => Some (Nothing, sent_announce now s)
  | OpReceivedPathRequest => Some (Nothing, received_path_request now s)
  | OpSentPathRequest => Some (Nothing, sent_path_request now s)
  | OpIngressLimit => let '(b, s) := should_ingress_limit now s in Some (Limited b, s)
  | OpIngressLimitPr => let '(b, s) := should_ingress_limit_pr now s in Some (LimitedPr b, s)
  | OpEgressLimitPr => let '(b, s) := should_egress_limit_pr now s in Some (EgressLimited b, s)
  | OpHold packet max_hops => Some (Nothing, hold_announce packet max_hops s)
  | OpRelease => let '(r, s) := release_held_announce now s in Some (from_option Released Nothing r, s)
  | OpTryTransmit size => '(b, s) ← try_transmit_announce size now s; Some (Transmit b, s)
  | OpQueue packet => Some (Nothing, queue_announce packet now s)
  | OpTake => '(r, s) ← take_queued_announce now s; Some (from_option Taken Nothing r, s)
  | OpClear => Some (Nothing, clear_announce_queue s)
  end.

Fixpoint ctl_run (ops : list (Z * CtlOp)) (s : IfaceControlState) : option (list (Z * CtlEvent) * IfaceControlState) :=
  match ops with
  | [] => Some ([], s)
  | (now, op) :: ops' =>
      '(e, s) ← ctl_step now op s;
      '(es, s) ← ctl_run ops' s;
      Some ((now, e) :: es, s)
  end.

(** One pass of the queue per tick, as [process_announce_queues] makes it. *)
Definition queue_tick (now : Z) (s : IfaceControlState) : option (list Packet * IfaceControlState) :=
  '(r, s) ← take_queued_announce now s;
  Some (match r with Some p => ([p], sent_announce now s) | None => ([], s) end).

Fixpoint queue_ticks (times : list Z) (s : IfaceControlState) : option (list Packet * IfaceControlState) :=
  match times with
  | [] => Some ([], s)
  | now :: times' => '(p1, s) ← queue_tick now s; '(p2, s) ← queue_ticks times' s; Some (p1 ++ p2, s)
  end.

(** ** Lemmas: the queue *)
Definition q_hops (e : QueuedAnnounce) : Z := hops (header (q_packet e)).

(** The queue in the order of hops, equal hops in the order of the queue. *)
Fixpoint insert_by_hops (e : QueuedAnnounce) (l : list QueuedAnnounce) : list QueuedAnnounce :=
  match l with
  | [] => [e]
  | x :: l' => if q_hops x <? q_hops e then x :: insert_by_hops e l' else e :: x :: l'
  end.

Definition by_hops (q : list QueuedAnnounce) : list QueuedAnnounce := foldr insert_by_hops [] q.

Lemma min_by_key_fmap {A B} (key : B -> Z) (f : A -> B) l : min_by_key key (f <$> l) = f <$> min_by_key (key ∘ f) l.
Proof.
  induction l as [|a l IH]; [done|]. cbn [min_by_key fmap list_fmap]. fold (f <$> l). rewrite IH.
  destruct (min_by_key (key ∘ f) l) as [b|]; [|done]. cbn [fmap option_fmap option_map]. unfold compose.
  by destruct (key (f b) <? key (f a)).
Qed.

Lemma min_by_key_elem {A} (key : A -> Z) l a : min_by_key key l = Some a -> a ∈ l.
Proof.
  revert a. induction l as [|x l IH]; intros a; [done|]. cbn [min_by_key]. rewrite elem_of_cons.
  destruct (min_by_key key l) as [b|]; [|by intros [= ->]; left].
  destruct (_ <? _); intros [= <-]; [right; by apply IH|by left].
Qed.

Lemma select_cons a q : select_queued (a :: q) =
  match select_queued q with
  | Some i => match q !! i with
              | Some e => if q_hops e <? q_hops a then Some (S i) else Some 0%nat
              | None => None
              end
  | None => Some 0%nat
  end.
Proof.
  unfold select_queued. cbn [imap]. assert (imap (pair ∘ S) q = prod_map S id <$> imap pair q) as ->.
  { rewrite fmap_imap. by apply imap_ext. }
  cbn [min_by_key]. rewrite min_by_key_fmap.
  change ((fun x : nat * QueuedAnnounce => hops (header (q_packet x.2))) ∘ prod_map S id)
    with (fun x : nat * QueuedAnnounce => hops (header (q_packet x.2))).
  destruct (min_by_key _ (imap pair q)) as [[i e]|] eqn:E; [|done]. cbn.
  assert (q !! i = Some e) as ->; [|by destruct (_ <? _)].
  apply min_by_key_elem, list_elem_of_lookup in E as [k E]. rewrite list_lookup_imap in E.
  destruct (q !! k) eqn:Ek; [|done]. cbn in E. by injection E as <- <-.
Qed.

(** What is selected is the head of the ordered queue, the rest its tail. *)
Lemma select_by_hops q : q <> [] -> exists i e,
  select_queued q = Some i /\ q !! i = Some e /\ by_hops q = e :: by_hops (take i q ++ drop (S i) q).
Proof.
  induction q as [|a q IH]; [done|]. intros _. rewrite select_cons. destruct (decide (q = [])) as [->|Hq].
  - exists 0%nat, a. done.
  - destruct (IH Hq) as (i & e & -> & E & Hs). rewrite E. destruct (q_hops e <? q_hops a) eqn:Hlt.
    + exists (S i), e. split; [done|]. split; [done|]. cbn [by_hops foldr take drop app]. fold (by_hops q).
      rewrite Hs. cbn [insert_by_hops]. by rewrite Hlt.
    + exists 0%nat, a. split; [done|]. split; [done|]. cbn [by_hops foldr take drop app]. fold (by_hops q).
      rewrite Hs. cbn [insert_by_hops]. rewrite Hlt. by rewrite drop_0, <- Hs.
Qed.

Lemma fresh_filter now q : Forall (fun e => queued_is_stale e now = false) q -> filter (fun e => queued_is_stale e now = false) q = q.
Proof. induction 1 as [|e q He _ IH]; [done|]. by rewrite filter_cons_True, IH. Qed.

Lemma cap_wait_settings size s s' : settings s = settings s' -> cap_wait_time size s = cap_wait_time size s'.
Proof. unfold cap_wait_time. by intros ->. Qed.

Definition budget_ok (s : IfaceControlState) (e : QueuedAnnounce) : Prop := is_Some (cap_wait_time (packet_wire_len (q_packet e)) s).

Lemma queue_tick_spec now s : announce_queue s <> [] -> Forall (fun e => queued_is_stale e now = false) (announce_queue s) ->
  Forall (budget_ok s) (announce_queue s) -> exists e s',
  queue_tick now s = Some ([q_packet e], s') /\ settings s' = settings s /\ by_hops (announce_queue s) = e :: by_hops (announce_queue s') /\
  announce_queue s ≡ₚ e :: announce_queue s'.
Proof.
  intros Hq Hf Hb. destruct (select_by_hops _ Hq) as (i & e & Hi & He & Hs).
  destruct (proj1 (Forall_lookup _ _) Hb i e He) as [w Hw]. unfold queue_tick, take_queued_announce.
  rewrite fresh_filter by done. rewrite Hi, He, Hw. cbn. eexists _, _. split; [done|]. split; [done|]. cbn.
  split; [done|]. rewrite <- (take_drop_middle _ _ _ He) at 1. by rewrite Permutation_middle.
Qed.

Lemma queue_ticks_spec times : forall s, (length (announce_queue s) <= length times)%nat ->
  Forall (fun now => Forall (fun e => queued_is_stale e now = false) (announce_queue s)) times -> Forall (budget_ok s) (announce_queue s) ->
  exists s', queue_ticks times s = Some (q_packet <$> by_hops (announce_queue s), s') /\ announce_queue s' = [].
Proof.
  induction times as [|now times IH]; intros s Hl Hf Hb.
  - destruct (announce_queue s) eqn:E; [|by cbn in Hl; lia]. exists s. done.
  - apply Forall_cons_1 in Hf as [Hn Hf]. destruct (decide (announce_queue s = [])) as [E|Hq].
    + cbn [queue_ticks]. unfold queue_tick, take_queued_announce. rewrite E. cbn.
      destruct (IH (set_budget (announce_allowed_at s) [] s)) as (s' & -> & Hs'); [cbn; lia|by apply Forall_true; intros; constructor|constructor|].
      exists s'. done.
    + destruct (queue_tick_spec now s Hq Hn Hb) as (e & s1 & E & Hset & Hs & Hp).
      cbn [queue_ticks]. rewrite E. cbn [mbind option_bind].
      destruct (IH s1) as (s' & -> & Hs').
      * apply Permutation_length in Hp. cbn in Hp, Hl. lia.
      * eapply Forall_impl; [|exact Hf]. intros t. cbn. rewrite Hp. by intros [_ ?]%Forall_cons_1.
      * rewrite Hp in Hb. apply Forall_cons_1 in Hb as [_ Hb]. eapply Forall_impl; [|exact Hb].
        intros x. unfold budget_ok. by rewrite (cap_wait_settings _ s s1).
      * exists s'. split; [|done]. by rewrite Hs.
Qed.

(** The same for a pass that is known not to panic. *)
Lemma queue_tick_some now s ps s' : queue_tick now s = Some (ps, s') -> announce_queue s <> [] ->
  Forall (fun e => queued_is_stale e now = false) (announce_queue s) -> exists e,
  ps = [q_packet e] /\ by_hops (announce_queue s) = e :: by_hops (announce_queue s') /\ announce_queue s ≡ₚ e :: announce_queue s'.
Proof.
  intros E Hq Hf. destruct (select_by_hops _ Hq) as (i & e & Hi & He & Hs). unfold queue_tick, take_queued_announce in E.
  rewrite fresh_filter in E by done. rewrite Hi, He in E. destruct (cap_wait_time _ s); [|done]. cbn in E. injection E as <- <-.
  exists e. split; [done|]. cbn. split; [done|]. rewrite <- (take_drop_middle _ _ _ He) at 1. by rewrite Permutation_middle.
Qed.

Lemma queue_ticks_some times : forall s ps s', queue_ticks times s = Some (ps, s') -> (length (announce_queue s) <= length times)%nat ->
  Forall (fun now => Forall (fun e => queued_is_stale e now = false) (announce_queue s)) times ->
  ps = q_packet <$> by_hops (announce_queue s).
Proof.
  induction times as [|now times IH]; intros s ps s' E Hl Hf.
  - destruct (announce_queue s) eqn:Eq; [|by cbn in Hl; lia]. by injection E as <- <-.
  - apply Forall_cons_1 in Hf as [Hn Hf]. cbn [queue_ticks] in E. destruct (queue_tick now s) as [[p1 s1]|] eqn:E1; [|done]. cbn in E.
    destruct (queue_ticks times s1) as [[p2 s2]|] eqn:E2; [|done]. injection E as <- <-.
    destruct (decide (announce_queue s = [])) as [Eq|Hq].
    + unfold queue_tick, take_queued_announce in E1. rewrite Eq in E1. cbn in E1. injection E1 as <- <-.
      apply IH in E2; [by rewrite Eq|cbn; lia|apply Forall_true; intros; constructor].
    + destruct (queue_tick_some _ _ _ _ E1 Hq Hn) as (e & -> & Hs & Hp). apply IH in E2.
      * by rewrite Hs, E2.
      * apply Permutation_length in Hp. cbn in Hp, Hl. lia.
      * eapply Forall_impl; [|exact Hf]. intros t. cbn. rewrite Hp. by intros [_ ?]%Forall_cons_1.
Qed.

(** A tick takes packets from the queue and adds none to it. *)
Lemma queue_tick_from now s ps s' : queue_tick now s = Some (ps, s') ->
  (forall p, p ∈ ps -> exists e, e ∈ announce_queue s /\ p = q_packet e) /\ announce_queue s' ⊆ announce_queue s.
Proof.
  unfold queue_tick, take_queued_announce. set (q := filter _ (announce_queue s)). assert (q ⊆ announce_queue s) as Hq by (intros e He; by apply list_elem_of_filter in He as [_ He]).
  destruct (select_queued q) as [i|]; [|intros [= <- <-]; cbn; split; [by intros p ?%elem_of_nil|done]].
  destruct (q !! i) as [e|] eqn:Ei; [|done]. destruct (cap_wait_time _ _) as [w|]; [|done]. intros [= <- <-]. cbn. split.
  - intros p ->%list_elem_of_singleton. exists e. split; [|done]. apply Hq. by eapply list_elem_of_lookup_2.
  - intros x Hx. apply Hq. rewrite <- (take_drop_middle _ _ _ Ei). set_solver.
Qed.

Lemma insert_by_hops_perm e l : insert_by_hops e l ≡ₚ e :: l.
Proof. induction l as [|x l IH]; [done|]. cbn. destruct (_ <? _); [|done]. rewrite IH. apply Permutation_swap. Qed.

Lemma by_hops_perm q : by_hops q ≡ₚ q.
Proof. induction q as [|e q IH]; [done|]. cbn. rewrite insert_by_hops_perm. by rewrite <- IH at 2. Qed.

(** Entries record when their announce was emitted. *)
Definition queue_ok (s : IfaceControlState) : Prop := Forall (fun e => q_emitted e = announce_emitted (q_packet e)) (announce_queue s).

Lemma replace_queued_spec q e q' : replace_queued q e = Some q' ->
  Forall (fun x => x = e \/ x ∈ q) q' /\ exists x, x ∈ q' /\ destination (q_packet x) = destination (q_packet e) /\ q_emitted e <= q_emitted x.
Proof.
  revert q'. induction q as [|x q IH]; intros q' E; [done|]. cbn in E. destruct (decide _) as [Hd|_].
  - injection E as <-. split.
    + constructor; [destruct (_ <? _); [by left|right; left]|]. apply Forall_forall. intros y Hy. right. right. by apply list_elem_of_In.
    + eexists. split; [left|]. destruct (Z.ltb_spec (q_emitted x) (q_emitted e)); split; [done|lia|done|lia].
  - destruct (replace_queued q e) as [q1|]; [|done]. injection E as <-. destruct (IH q1 eq_refl) as [HF (y & Hy & Hd & He)]. split.
    + constructor; [right; left|]. eapply Forall_impl; [|exact HF]. intros z [->|Hz]; [by left|right; by right].
    + exists y. split; [by right|done].
Qed.

(** After an announce was queued its destination has an entry at least as recent,
    unless the queue was full. *)
Lemma queue_announce_spec p now s : queue_ok s -> packet_type (header p) = Announce ->
  Z.of_nat (length (announce_queue s)) < MAX_QUEUED_ANNOUNCES ->
  queue_ok (queue_announce p now s) /\
  exists e, e ∈ announce_queue (queue_announce p now s) /\ destination (q_packet e) = destination p /\ announce_emitted p <= announce_emitted (q_packet e).
Proof.
  intros Hok Hp Hl. unfold queue_announce, queue_ok in *. rewrite bool_decide_true by done. cbn [negb].
  destruct (replace_queued _ _) as [q|] eqn:E.
  - apply replace_queued_spec in E as [HF (x & Hx & Hd & He)]. cbn [announce_queue set_budget q_packet q_emitted] in *.
    assert (Forall (fun e => q_emitted e = announce_emitted (q_packet e)) q) as HF'.
    { eapply Forall_impl; [|exact HF]. intros y [->|Hy]; [done|]. rewrite Forall_forall in Hok. apply Hok. by apply list_elem_of_In. }
    split; [done|]. exists x. split; [done|]. split; [done|]. rewrite Forall_forall in HF'. rewrite <- (HF' x); [done|by apply list_elem_of_In].
  - rewrite (proj2 (Z.leb_gt _ _)) by done. cbn [announce_queue set_budget]. split; [apply Forall_app; split; [done|by repeat constructor]|].
    eexists. split; [apply elem_of_app; right; by apply list_elem_of_singleton|]. by split.
Qed.

(** ** Lemmas: the run *)
Lemma ctl_step_params now op s e s' : ctl_step now op s = Some (e, s') -> settings s' = settings s.
Proof.
  destruct op; cbn [ctl_step]; try by intros [= _ <-].
  - unfold should_ingress_limit, incoming_announce_frequency. destruct (frequency _ _ _ _ _). by intros E; repeat case_match; simplify_eq.
  - unfold should_ingress_limit_pr, incoming_pr_frequency. destruct (frequency _ _ _ _ _). by intros E; repeat case_match; simplify_eq.
  - unfold should_egress_limit_pr. destruct (frequency _ _ _ _ _). by intros E; repeat case_match; simplify_eq.
  - unfold hold_announce. by intros E; repeat case_match; simplify_eq.
  - unfold release_held_announce, incoming_announce_frequency. destruct (frequency _ _ _ _ _).
    by intros E; repeat case_match; simplify_eq.
  - unfold try_transmit_announce. by intros E; repeat case_match; simplify_option_eq.
  - unfold queue_announce. by intros E; repeat case_match; simplify_eq.
  - unfold take_queued_announce. by intros E; repeat case_match; simplify_option_eq.
Qed.

(** One step: the number of held announces stays within the limit; the next
    release moves only with a burst or a release, which happens only when it is
    due; a burst lasts for its hold time. *)
Record ctl_steps (now : Z) (e : CtlEvent) (s s' : IfaceControlState) : Prop := {
  steps_settings : settings s' = settings s;
  steps_held : (size (held_announces s') <= size (held_announces s) `max` ic_max_held_announces (control_params s))%nat;
  steps_release : ic_held_release s' = ic_held_release s \/ ic_held_release s' = now + ic_burst_penalty (control_params s) \/ exists p, e = Released p;
  steps_released : forall p, e = Released p -> ic_held_release s < now /\ ic_held_release s' = now + ic_held_release_interval (control_params s)
    /\ (exists d, held_announces s !! d = Some p);
  steps_burst : burst_active (ic_burst s) = true -> now <= burst_activated (ic_burst s) + ic_burst_hold (control_params s) ->
    burst_active (ic_burst s') = true /\ burst_activated (ic_burst s') = burst_activated (ic_burst s);
  steps_limited : forall b, e = Limited b -> burst_active (ic_burst s) = true ->
    ingress_control (settings s) && announce_ingress_limit (settings s) = true -> b = true;
}.

Lemma steps_same now e s s' : settings s' = settings s -> held_announces s' = held_announces s -> ic_held_release s' = ic_held_release s ->
  ic_burst s' = ic_burst s -> (forall p, e <> Released p) -> (forall b, e <> Limited b) -> ctl_steps now e s s'.
Proof.
  intros Hs Hh Hk Hb Hr Hl. split; rewrite ?Hh, ?Hk, ?Hb; auto with lia.
  - intros p E. by apply Hr in E.
  - intros b E. by apply Hl in E.
Qed.

Lemma ingress_steps now s b s' : should_ingress_limit now s = (b, s') -> ctl_steps now (Limited b) s s'.
Proof.
  unfold should_ingress_limit, incoming_announce_frequency. intros E.
  destruct (ingress_control (settings s)) eqn:H1; cbn in E; [|injection E as <- <-; split; auto with lia; cbn; [done|by rewrite H1]].
  destruct (announce_ingress_limit (settings s)) eqn:H2; cbn in E; [|injection E as <- <-; split; auto with lia; cbn; [done|by rewrite H1, H2]].
  destruct (frequency _ _ _ _ _) as [f d]. cbn [ic_burst set_ia set_deques] in E. destruct (burst_active (ic_burst s)) eqn:Hb.
  - injection E as <- <-. split; try by repeat case_match.
    + repeat case_match; cbn; lia.
    + left. by repeat case_match.
    + intros _ Hn. destruct (hold_elapsed _ _ _) eqn:Hh.
      { unfold hold_elapsed in Hh. apply andb_true_iff in Hh as [Hh%Z.ltb_lt _]. cbn in Hh. unfold control_params in *. cbn in Hh. lia. }
      rewrite andb_false_r. by case_match.
    + by intros b' [= <-].
  - destruct (f_lt _ _); injection E as <- <-; split; cbn; auto with lia; try done; intros; congruence.
Qed.

Lemma held_insert_bound (held : gmap AddressHash Packet) d p m :
  bool_decide (held !! d = None) && (m <=? size held)%nat = false -> (size (<[d := p]> held) <= size held `max` m)%nat.
Proof.
  intros H. destruct (held !! d) eqn:E.
  - rewrite map_size_insert_Some by (by eexists). lia.
  - rewrite bool_decide_true in H by done. apply Nat.leb_gt in H. rewrite map_size_insert_None by done. lia.
Qed.

Lemma release_steps now s r s' : release_held_announce now s = (r, s') -> ctl_steps now (from_option Released Nothing r) s s'.
Proof.
  unfold release_held_announce, incoming_announce_frequency. intros E.
  destruct (_ || _) eqn:H0; [injection E as <- <-; by apply steps_same|]. apply orb_false_iff in H0 as [_ H0%Z.leb_gt].
  destruct (frequency _ _ _ _ _) as [f d]. destruct (f_le _ _); [injection E as <- <-; by apply steps_same|].
  destruct (min_by_key _ _) as [[x p]|] eqn:Em; [|injection E as <- <-; by apply steps_same].
  apply min_by_key_elem, elem_of_btree_iter in Em. cbn in Em. cbn [held_announces set_ia set_deques] in E. rewrite Em in E. injection E as <- <-. split; cbn; try done; try by eauto.
  - rewrite map_size_delete_Some by (by eexists). lia.
  - intros p' [= <-]. split; [lia|]. split; [done|by eexists].
Qed.

Lemma ctl_step_steps now op s e s' : ctl_step now op s = Some (e, s') -> ctl_steps now e s s'.
Proof.
  intros E. pose proof (ctl_step_params _ _ _ _ _ E) as Hset. destruct op; cbn [ctl_step] in E; try by (injection E as <- <-; apply steps_same).
  - destruct (should_ingress_limit now s) eqn:E'. injection E as <- <-. by apply ingress_steps.
  - unfold should_ingress_limit_pr, incoming_pr_frequency in E. destruct (frequency _ _ _ _ _). repeat case_match; simplify_eq; by apply steps_same.
  - unfold should_egress_limit_pr in E. destruct (frequency _ _ _ _ _). repeat case_match; simplify_eq; by apply steps_same.
  - injection E as <- <-. unfold hold_announce in *. destruct (_ <=? _); [by apply steps_same|]. destruct (_ && _) eqn:Hb; [by apply steps_same|].
    split; cbn; auto; try done. by apply held_insert_bound.
  - destruct (release_held_announce now s) eqn:E'. injection E as <- <-. by apply release_steps.
  - unfold try_transmit_announce in E. repeat case_match; simplify_option_eq; by apply steps_same.
  - injection E as <- <-. unfold queue_announce. repeat case_match; by apply steps_same.
  - unfold take_queued_announce in E. repeat case_match; simplify_option_eq; by apply steps_same.
Qed.

Lemma ctl_run_cons now op ops s es s' : ctl_run ((now, op) :: ops) s = Some (es, s') ->
  exists e s1 es', ctl_step now op s = Some (e, s1) /\ ctl_run ops s1 = Some (es', s') /\ es = (now, e) :: es'.
Proof.
  cbn [ctl_run]. intros E. destruct (ctl_step now op s) as [[e s1]|] eqn:E1; [|done]. cbn in E.
  destruct (ctl_run ops s1) as [[es' s2]|] eqn:E2; [|done]. injection E as <- <-. by exists e, s1, es'.
Qed.

Lemma run_times ops : forall s es s', ctl_run ops s = Some (es, s') -> es.*1 = ops.*1.
Proof.
  induction ops as [|[now op] ops IH]; intros s es s' E; [by injection E as <- <-|].
  apply ctl_run_cons in E as (e & s1 & es' & _ & E & ->). by rewrite !fmap_cons, (IH _ _ _ E).
Qed.

Lemma run_held ops : forall s es s', ctl_run ops s = Some (es, s') ->
  settings s' = settings s /\
  (size (held_announces s') <= size (held_announces s) `max` ic_max_held_announces (control_params s))%nat.
Proof.
  induction ops as [|[now op] ops IH]; intros s es s' E; [injection E as <- <-; split; [done|lia]|].
  apply ctl_run_cons in E as (e & s1 & es' & E1 & E & ->). apply ctl_step_steps in E1 as [Hset Hh _ _ _ _].
  apply IH in E as [Hset' Hh']. unfold control_params in *. rewrite Hset in *. split; [done|]. lia.
Qed.

(** Nothing is released before the time of the next release, whatever bursts
    and releases move it to. *)
Lemma run_release L ops : forall s es s', ctl_run ops s = Some (es, s') ->
  0 <= ic_held_release_interval (control_params s) -> L <= ic_held_release s ->
  Forall (fun t => L <= t + ic_burst_penalty (control_params s)) ops.*1 ->
  Forall (fun x => forall p, x.2 = Released p -> L < x.1) es.
Proof.
  induction ops as [|[now op] ops IH]; intros s es s' E Hi HL Ht; [injection E as <- <-; constructor|].
  apply ctl_run_cons in E as (e & s1 & es' & E1 & E & ->). apply ctl_step_steps in E1 as [Hset _ Hr Hrel _ _].
  rewrite fmap_cons in Ht. apply Forall_cons_1 in Ht as [Hn Ht]. cbn in Hn.
  assert (L <= ic_held_release s1) as HL'.
  { destruct Hr as [->|[->|[p Hp]]]; [done|done|]. destruct (Hrel p Hp) as (? & -> & _). lia. }
  constructor.
  - intros p Hp. cbn in *. destruct (Hrel p Hp) as [? _]. lia.
  - apply (IH s1 es' s' E); unfold control_params in *; rewrite ?Hset; done.
Qed.

Lemma run_spacing ops : forall s es s', ctl_run ops s = Some (es, s') -> StronglySorted Z.le ops.*1 ->
  0 <= ic_held_release_interval (control_params s) <= ic_burst_penalty (control_params s) ->
  forall i j t u p q, (i < j)%nat -> es !! i = Some (t, Released p) -> es !! j = Some (u, Released q) ->
  t + ic_held_release_interval (control_params s) < u.
Proof.
  induction ops as [|[now op] ops IH]; intros s es s' E Hs Hi i j t u p q Hij Ei Ej; [by injection E as <- <-|].
  apply ctl_run_cons in E as (e & s1 & es' & E1 & E & ->). apply ctl_step_steps in E1 as [Hset _ _ Hrel _ _].
  rewrite fmap_cons in Hs. apply StronglySorted_inv in Hs as [Hs Hall]. cbn in Hall.
  destruct j as [|j]; [lia|]. cbn in Ej. destruct i as [|i].
  - cbn in Ei. injection Ei as -> ->. destruct (Hrel p eq_refl) as (_ & Hk & _).
    assert (Forall (fun x => forall p, x.2 = Released p -> t + ic_held_release_interval (control_params s) < x.1) es') as HF.
    { apply (run_release _ ops s1 es' s' E); unfold control_params in *; rewrite ?Hset; [lia|lia|].
      eapply Forall_impl; [|exact Hall]. cbn. intros. lia. }
    rewrite Forall_lookup in HF. by apply (HF j _ Ej q).
  - cbn in Ei. assert (control_params s = control_params s1) as Hc by (unfold control_params; by rewrite Hset).
    rewrite Hc in *. apply (IH s1 es' s' E Hs Hi i j t u p q); [lia|done|done].
Qed.

Lemma run_limited ops : forall s es s', ctl_run ops s = Some (es, s') -> StronglySorted Z.le ops.*1 ->
  ingress_control (settings s) && announce_ingress_limit (settings s) = true -> burst_active (ic_burst s) = true ->
  forall t b, (t, Limited b) ∈ es -> t <= burst_activated (ic_burst s) + ic_burst_hold (control_params s) -> b = true.
Proof.
  induction ops as [|[now op] ops IH]; intros s es s' E Hs Hon Hb t b Hin Ht; [injection E as <- <-; by apply elem_of_nil in Hin|].
  pose proof (run_times _ _ _ _ E) as Htimes.
  apply ctl_run_cons in E as (e & s1 & es' & E1 & E & ->). apply ctl_step_steps in E1 as [Hset _ _ _ Hburst Hlim].
  rewrite fmap_cons in Hs. apply StronglySorted_inv in Hs as [Hs Hall]. cbn in Hall.
  apply elem_of_cons in Hin as [[= <- <-]|Hin]; [by apply (Hlim b)|].
  assert (now <= t) as Hle.
  { rewrite Forall_forall in Hall. apply Hall. rewrite !fmap_cons in Htimes. injection Htimes as <-.
    apply list_elem_of_In, list_elem_of_fmap. by exists (t, Limited b). }
  destruct (Hburst Hb ltac:(lia)) as [Hb' Ha]. apply (IH s1 es' s' E Hs) with (t := t); unfold control_params in *; rewrite ?Hset, ?Ha; done.
Qed.

Lemma ctl_run_app ops1 ops2 : forall s es s', ctl_run (ops1 ++ ops2) s = Some (es, s') ->
  exists es1 s1 es2, ctl_run ops1 s = Some (es1, s1) /\ ctl_run ops2 s1 = Some (es2, s') /\ es = es1 ++ es2.
Proof.
  induction ops1 as [|[now op] ops1 IH]; intros s es s' E; [by exists [], s, es|]. cbn [app] in E.
  apply ctl_run_cons in E as (e & s1 & es' & E1 & E & ->). destruct (IH _ _ _ E) as (es1 & s2 & es2 & E2 & E3 & ->).
  exists ((now, e) :: es1), s2, es2. cbn [ctl_run]. rewrite E1. cbn. rewrite E2. done.
Qed.

(** The check that finds a burst sets the time of the next release. *)
Lemma burst_start now s s' : should_ingress_limit now s = (true, s') -> burst_active (ic_burst s) = false ->
  ic_held_release s' = now + ic_burst_penalty (control_params s).
Proof.
  unfold should_ingress_limit, incoming_announce_frequency. destruct (_ || _); [done|]. destruct (frequency _ _ _ _ _) as [f d].
  cbn [ic_burst set_ia set_deques]. intros E Hb. rewrite Hb in E. destruct (f_lt _ _); by simplify_eq.
Qed.

(** The burst that the check [now] after the operations [before] finds. *)
Definition finds_burst (before : list (Z * CtlOp)) (now : Z) (s : IfaceControlState) : bool :=
  match ctl_run before s with
  | Some (_, s1) => negb (burst_active (ic_burst s1)) && (should_ingress_limit now s1).1
  | None => false
  end.

Lemma run_penalty before now after s es s' : ctl_run (before ++ (now, OpIngressLimit) :: after) s = Some (es, s') ->
  0 <= ic_held_release_interval (control_params s) -> StronglySorted Z.le (now :: after.*1) -> finds_burst before now s = true ->
  forall t p, (t, Released p) ∈ drop (length before) es -> now + ic_burst_penalty (control_params s) < t.
Proof.
  intros E Hi Hs Hb t p Hin. apply ctl_run_app in E as (es1 & s1 & es2 & E1 & E2 & ->). unfold finds_burst in Hb. rewrite E1 in Hb.
  apply andb_true_iff in Hb as [Hb%negb_true_iff Ht]. pose proof (f_equal length (run_times _ _ _ _ E1)) as Hl. rewrite !length_fmap in Hl.
  rewrite drop_app_length' in Hin by done. destruct (run_held _ _ _ _ E1) as [Hset _].
  apply ctl_run_cons in E2 as (e & s2 & es' & Es & E2 & ->). cbn [ctl_step] in Es. destruct (should_ingress_limit now s1) as [b s3] eqn:El.
  cbn [fst] in Ht. subst b. injection Es as <- <-. pose proof (burst_start _ _ _ El Hb) as Hr. apply ingress_steps in El as [Hset3 _ _ _ _ _].
  apply elem_of_cons in Hin as [[=]|Hin]. apply StronglySorted_inv in Hs as [_ Hall].
  assert (control_params s3 = control_params s) as Hc by (unfold control_params; congruence).
  assert (Forall (fun x => forall p, x.2 = Released p -> now + ic_burst_penalty (control_params s) < x.1) es') as HF.
  { apply (run_release _ after s3 es' s' E2); rewrite ?Hc; [done|rewrite Hr; unfold control_params; rewrite Hset; lia|].
    eapply Forall_impl; [|exact Hall]. cbn. intros. lia. }
  rewrite Forall_forall in HF. by apply (HF (t, Released p) (proj1 (list_elem_of_In _ _) Hin) p).
Qed.

(** ** Theorems *)

(** C35: ingress control of announces. In any run of operations in the order of
    time the number of held announces stays within the limit; after a check that
    finds a burst nothing is released before the penalty for it has passed; a
    check within the hold time of the active burst answers that announces are
    limited; nothing is released before the time set for the next release; and,
    if the release interval is not longer than the penalty, as it is by default,
    two releases are further apart than that interval. *)
Theorem Ingress_control (s s' : IfaceControlState) (ops : list (Z * CtlOp)) (es : list (Z * CtlEvent)) (t0 : Z)
    (Hrun : ctl_run ops s = Some (es, s')) (Hsorted : StronglySorted Z.le (t0 :: ops.*1))
    (Hinterval : 0 <= ic_held_release_interval (control_params s))
    (Hheld : (size (held_announces s) <= ic_max_held_announces (control_params s))%nat)
    (Hnext : ic_held_release s <= t0 + ic_burst_penalty (control_params s)) :
  (size (held_announces s') <= ic_max_held_announces (control_params s))%nat /\
  (forall before now after, ops = before ++ (now, OpIngressLimit) :: after -> finds_burst before now s = true ->
   forall t p, (t, Released p) ∈ drop (length before) es -> now + ic_burst_penalty (control_params s) < t) /\
  (forall t p, (t, Released p) ∈ es -> ic_held_release s < t) /\
  (ingress_control (settings s) && announce_ingress_limit (settings s) = true -> burst_active (ic_burst s) = true ->
   forall t b, (t, Limited b) ∈ es -> t <= burst_activated (ic_burst s) + ic_burst_hold (control_params s) -> b = true) /\
  (ic_held_release_interval (control_params s) <= ic_burst_penalty (control_params s) ->
   forall i j t u p q, (i < j)%nat -> es !! i = Some (t, Released p) -> es !! j = Some (u, Released q) ->
     t + ic_held_release_interval (control_params s) < u).
Proof.
  apply StronglySorted_inv in Hsorted as [Hs Hall]. split; [|split; [|split; [|split]]].
  - destruct (run_held _ _ _ _ Hrun) as [_ H]. lia.
  - intros before now after -> Hb. apply (run_penalty before now after s es s' Hrun Hinterval); [|done].
    rewrite fmap_app in Hs. clear -Hs. induction before.*1 as [|x l IH]; [done|]. apply IH. by apply StronglySorted_inv in Hs as [Hs _].
  - intros t p Hin. assert (Forall (fun x => forall p, x.2 = Released p -> ic_held_release s < x.1) es) as HF.
    { apply (run_release _ ops s es s' Hrun); [lia|done|]. eapply Forall_impl; [|exact Hall]. cbn. intros. lia. }
    rewrite Forall_forall in HF. by apply (HF (t, Released p) (proj1 (list_elem_of_In _ _) Hin) p).
  - by apply (run_limited ops s es s').
  - intros Hle. exact (run_spacing ops s es s' Hrun Hs (conj Hinterval Hle)).
Qed.

(** C36: the queue of announces. Whatever the airtime budget says (it is set to
    any [allowed] here), one tick sends one announce, so as many ticks as there
    are queued announces empty the queue, in the order of hops and, for equal
    hops, of the queue. *)
Theorem Announce_queue_drains (s : IfaceControlState) (times : list Z) (allowed : Z)
    (Hn : (length (announce_queue s) <= length times)%nat)
    (Hfresh : Forall (fun now => Forall (fun e => queued_is_stale e now = false) (announce_queue s)) times)
    (Hcap : Forall (budget_ok s) (announce_queue s)) :
  exists s', queue_ticks times (set_budget allowed (announce_queue s) s) = Some (q_packet <$> by_hops (announce_queue s), s') /\
    announce_queue s' = [].
Proof. exact (queue_ticks_spec times (set_budget allowed (announce_queue s) s) Hn Hfresh Hcap). Qed.

(** ** Witnesses *)
Definition sample_announce (h : Z) (d : Z) : Packet :=
  mkPacket (mkHeader Open false Type1 Broadcast Single Announce h) None (replicate 16 d) None CtxNone PacketDataBuffer_new.

(** Twelve announces in two thirds of a second are a burst; two announces are
    held, and released long after the penalty. *)
Definition sample_flood : list (Z * CtlOp) := (fun i => (i * 60000000, OpReceivedAnnounce)) <$> seqZ 0 12.
Definition sample_after : list (Z * CtlOp) :=
  [(NANOS, OpHold (sample_announce 5 1) 128); (NANOS, OpHold (sample_announce 2 9) 128); (10 * NANOS, OpIngressLimit);
   (10 * NANOS, OpRelease); (60 * NANOS, OpRelease); (61 * NANOS, OpRelease); (66 * NANOS, OpRelease)].
Definition sample_ops : list (Z * CtlOp) := sample_flood ++ (NANOS, OpIngressLimit) :: sample_after.

Definition event_code (e : CtlEvent) : Z :=
  match e with Limited true => 1 | Released p => 10 + hops (header p) | _ => 0 end.

Lemma sorted_by_check l : forallb (fun x => x) (zip_with Z.leb l (drop 1 l)) = true -> StronglySorted Z.le l.
Proof.
  intros H. apply Sorted_StronglySorted; [exact Z.le_trans|]. induction l as [|x [|y l] IH]; [constructor|by repeat constructor|].
  cbn in H. apply andb_true_iff in H as [Hxy%Z.leb_le H]. constructor; [by apply IH|by constructor].
Qed.

Lemma Ingress_control_witness : exists es s', ctl_run sample_ops (Control_new 0) = Some (es, s') /\
  (event_code ∘ snd) <$> drop 12 es = [1; 0; 0; 1; 0; 12; 0; 15] /\ (size (held_announces s') <= 256)%nat /\
  forall t p, (t, Released p) ∈ drop 12 es -> 16 * NANOS < t.
Proof.
  assert (match ctl_run sample_ops (Control_new 0) with
          | Some (es, s') => bool_decide ((event_code ∘ snd) <$> drop 12 es = [1; 0; 0; 1; 0; 12; 0; 15]) | None => false end = true) as H
    by (vm_compute; reflexivity).
  destruct (ctl_run sample_ops (Control_new 0)) as [[es s']|] eqn:E; [|discriminate H].
  exists es, s'. split; [reflexivity|]. apply bool_decide_eq_true in H. split; [exact H|].
  assert (StronglySorted Z.le (0 :: sample_ops.*1)) as Hs by (apply sorted_by_check; vm_compute; reflexivity).
  destruct (Ingress_control (Control_new 0) s' sample_ops es 0 E Hs) as (T1 & T2 & _).
  - vm_compute. discriminate.
  - apply Nat.leb_le. vm_compute. reflexivity.
  - vm_compute. discriminate.
  - split; [exact T1|]. intros t p Hin. refine (T2 sample_flood NANOS sample_after eq_refl _ t p Hin). vm_compute. reflexivity.
Defined.

(** A radio at 1200 bit/s with the default cap: after one announce the next may
    go out more than six seconds later; queued ones go out 100 ms apart. *)
Definition slow_radio : IfaceControlState :=
  set_settings (fun c => mkSettings (ctl_mode c) 1200 (announce_cap c) true true false false true None false None false 0 None None None
    (params c)) (Control_new 0).

Definition sample_queue : list (Z * CtlOp) :=
  [(0, OpTryTransmit (packet_wire_len (sample_announce 1 1))); (1, OpQueue (sample_announce 3 2)); (2, OpQueue (sample_announce 2 3));
   (3, OpQueue (sample_announce 3 4))].

Lemma Announce_queue_drains_witness : exists s es, ctl_run sample_queue slow_radio = Some (es, s) /\
  6 * NANOS < announce_allowed_at s /\
  exists s', queue_ticks [100000000; 200000000; 300000000] (set_budget (announce_allowed_at s) (announce_queue s) s) =
    Some ([sample_announce 2 3; sample_announce 3 2; sample_announce 3 4], s').
Proof.
  assert (match ctl_run sample_queue slow_radio with
          | Some (_, s) => (6 * NANOS <? announce_allowed_at s) && (length (announce_queue s) =? 3)%nat
              && forallb (fun now => forallb (fun e => negb (queued_is_stale e now)) (announce_queue s)) [100000000; 200000000; 300000000]
              && forallb (fun e => match cap_wait_time (packet_wire_len (q_packet e)) s with Some _ => true | None => false end) (announce_queue s)
              && bool_decide (q_packet <$> by_hops (announce_queue s) = [sample_announce 2 3; sample_announce 3 2; sample_announce 3 4])
          | None => false end = true) as H by (vm_compute; reflexivity).
  destruct (ctl_run sample_queue slow_radio) as [[es s]|] eqn:E; [|discriminate H]. clear E.
  rewrite !andb_true_iff, !forallb_forall, Z.ltb_lt, Nat.eqb_eq in H. destruct H as [[[[H1 H2] H3] H4] H5].
  apply bool_decide_eq_true in H5. exists s, es. split; [reflexivity|]. split; [exact H1|].
  destruct (Announce_queue_drains s [100000000; 200000000; 300000000] (announce_allowed_at s)) as (s' & E & _).
  - rewrite H2. apply le_n.
  - apply List.Forall_forall. intros now Hn. apply H3 in Hn. rewrite forallb_forall in Hn. apply List.Forall_forall.
    intros e He. apply Hn in He. by destruct (queued_is_stale e now).
  - apply List.Forall_forall. intros e He. apply H4 in He. unfold budget_ok. destruct (cap_wait_time _ s) as [w|]; [by exists w|discriminate He].
  - exists s'. rewrite E, H5. reflexivity.
Defined.
