(* ===== verification/Ifaces.v ===== *)
(** * Interface manager ([src/src/iface.rs])

    The interfaces of a node with their control state: registration, settings,
    statistics, stopping, the fan-out of packets with its policies, and the
    periodic passes over held and queued announces.  The channel to a worker is
    the list of messages put into it, in order; waiting for room in it, starting
    tasks and cancellation tokens beyond the flag they set are not modelled.
    [now] is the clock, [seed] what the random generator filled in.  [None] is a
    panic.  Names are their UTF-8 bytes as a [string]. *)

From Stdlib Require Import Ascii.
From S2P Require Import Prelude Float Buffer Crypto Hash Counters Ifac Packet AnnounceTable PathTable IfaceControl.
Local Open Scope Z_scope.

(** What the code asks of an interface type: the trait [Interface] and the name
    of the type. *)
Record IfaceType := mkIfaceType {
  ty_kind : string;
  ty_constructor_bitrate : option Z;
  ty_ingress_limit : bool;
  ty_endpoint : string;
}.

Record LocalInterface := mkIface {
  if_address : AddressHash;
  if_name : string;
  if_kind : string;
  if_endpoint : string;
  if_parent : option AddressHash;
  if_stopped : bool;
  if_stats : InterfaceCounters;
  if_ifac : option IfacKey;
}.

Record InterfaceManager := mkManager {
  counter : Z;
  ifaces : list LocalInterface;
  controls : gmap AddressHash IfaceControlState;
  local_hops_delta : Z;
  transport_identity : option AddressHash;
}.

Definition Manager_new : InterfaceManager := mkManager 0 [] ∅ 0 None.

Definition set_ifaces (l : list LocalInterface) (m : InterfaceManager) : InterfaceManager :=
  mkManager (counter m) l (controls m) (local_hops_delta m) (transport_identity m).
Definition set_controls (c : gmap AddressHash IfaceControlState) (m : InterfaceManager) : InterfaceManager :=
  mkManager (counter m) (ifaces m) c (local_hops_delta m) (transport_identity m).

Definition set_local_hops_delta (delta : Z) (transport_id : option AddressHash) (m : InterfaceManager) : InterfaceManager :=
  mkManager (counter m) (ifaces m) (controls m) delta transport_id.

Definition drop_announce_queues (m : InterfaceManager) : InterfaceManager :=
  set_controls (clear_announce_queue <$> controls m) m.

(** [self.ifaces.iter().find] by address. *)
Definition has_address (address : AddressHash) (i : LocalInterface) : bool := bool_decide (if_address i = address).
Definition find_iface (address : AddressHash) (m : InterfaceManager) : option LocalInterface := List.find (has_address address) (ifaces m).
Definition find_live (address : AddressHash) (m : InterfaceManager) : option LocalInterface :=
  List.find (fun i => has_address address i && negb (if_stopped i)) (ifaces m).

(** [iter_mut().find] followed by an update. *)
Fixpoint update_first (P : LocalInterface -> bool) (f : LocalInterface -> LocalInterface) (l : list LocalInterface) : list LocalInterface :=
  match l with
  | [] => []
  | i :: l' => if P i then f i :: l' else i :: update_first P f l'
  end.

Definition update_iface (address : AddressHash) (f : LocalInterface -> LocalInterface) (m : InterfaceManager) : InterfaceManager :=
  set_ifaces (update_first (has_address address) f (ifaces m)) m.

Definition set_name (n : string) (i : LocalInterface) : LocalInterface :=
  mkIface (if_address i) n (if_kind i) (if_endpoint i) (if_parent i) (if_stopped i) (if_stats i) (if_ifac i).
Definition set_endpoint (e : string) (i : LocalInterface) : LocalInterface :=
  mkIface (if_address i) (if_name i) (if_kind i) e (if_parent i) (if_stopped i) (if_stats i) (if_ifac i).
Definition set_parent (p : AddressHash) (i : LocalInterface) : LocalInterface :=
  mkIface (if_address i) (if_name i) (if_kind i) (if_endpoint i) (Some p) (if_stopped i) (if_stats i) (if_ifac i).
Definition set_stats (f : InterfaceCounters -> InterfaceCounters) (i : LocalInterface) : LocalInterface :=
  mkIface (if_address i) (if_name i) (if_kind i) (if_endpoint i) (if_parent i) (if_stopped i) (f (if_stats i)) (if_ifac i).
Definition set_ifac (k : option IfacKey) (i : LocalInterface) : LocalInterface :=
  mkIface (if_address i) (if_name i) (if_kind i) (if_endpoint i) (if_parent i) (if_stopped i) (if_stats i) k.
(** The worker's token is cancelled. *)
Definition set_stopped (i : LocalInterface) : LocalInterface :=
  mkIface (if_address i) (if_name i) (if_kind i) (if_endpoint i) (if_parent i) true (if_stats i) (if_ifac i).

(** ** Control state *)
Definition with_control {A} (address : AddressHash) (f : IfaceControlState -> A * IfaceControlState) (m : InterfaceManager)
    : option A * InterfaceManager :=
  match controls m !! address with
  | Some c => let '(a, c) := f c in (Some a, set_controls (<[address := c]> (controls m)) m)
  | None => (None, m)
  end.

Definition read_control {A} (address : AddressHash) (f : IfaceControlState -> A) (m : InterfaceManager) : option A :=
  f <$> controls m !! address.

Definition with_stats (address : AddressHash) (f : InterfaceCounters -> InterfaceCounters) (m : InterfaceManager) : InterfaceManager :=
  update_iface address (set_stats f) m.

(** Writing a public field of the control state; the answer says whether there
    was one. *)
Definition write_control (address : AddressHash) (f : Settings -> Settings) (m : InterfaceManager) : bool * InterfaceManager :=
  let '(r, m) := with_control address (fun c => (tt, set_settings f c)) m in (bool_decide (is_Some r), m).

Definition with_mode (v : InterfaceMode) (c : Settings) : Settings :=
  mkSettings v (bitrate c) (announce_cap c) (ingress_control c) (announce_ingress_limit c)
    (egress_control c) (recursive_prs c) (announces_from_internal c) (announces_to_internal c) (is_local_client c)
    (tunnel_id c) (wants_tunnel c) (ctl_gravity c) (announce_rate_target c) (announce_rate_grace c) (announce_rate_penalty c) (params c).
Definition with_bitrate (v : Z) (c : Settings) : Settings :=
  mkSettings (ctl_mode c) v (announce_cap c) (ingress_control c) (announce_ingress_limit c)
    (egress_control c) (recursive_prs c) (announces_from_internal c) (announces_to_internal c) (is_local_client c)
    (tunnel_id c) (wants_tunnel c) (ctl_gravity c) (announce_rate_target c) (announce_rate_grace c) (announce_rate_penalty c) (params c).
Definition with_local_client (v : bool) (c : Settings) : Settings :=
  mkSettings (ctl_mode c) (bitrate c) (announce_cap c) (ingress_control c) (announce_ingress_limit c)
    (egress_control c) (recursive_prs c) (announces_from_internal c) (announces_to_internal c) v
    (tunnel_id c) (wants_tunnel c) (ctl_gravity c) (announce_rate_target c) (announce_rate_grace c) (announce_rate_penalty c) (params c).
Definition with_tunnel (v : option AddressHash) (c : Settings) : Settings :=
  mkSettings (ctl_mode c) (bitrate c) (announce_cap c) (ingress_control c) (announce_ingress_limit c)
    (egress_control c) (recursive_prs c) (announces_from_internal c) (announces_to_internal c) (is_local_client c)
    v (wants_tunnel c) (ctl_gravity c) (announce_rate_target c) (announce_rate_grace c) (announce_rate_penalty c) (params c).
Definition with_wants_tunnel (v : bool) (c : Settings) : Settings :=
  mkSettings (ctl_mode c) (bitrate c) (announce_cap c) (ingress_control c) (announce_ingress_limit c)
    (egress_control c) (recursive_prs c) (announces_from_internal c) (announces_to_internal c) (is_local_client c)
    (tunnel_id c) v (ctl_gravity c) (announce_rate_target c) (announce_rate_grace c) (announce_rate_penalty c) (params c).

Definition set_iface_mode (address : AddressHash) (v : InterfaceMode) := write_control address (with_mode v).
Definition set_iface_bitrate (address : AddressHash) (v : Z) := write_control address (with_bitrate v).
Definition set_iface_local_client (address : AddressHash) := write_control address (with_local_client true).
Definition set_iface_tunnel (address : AddressHash) (v : option AddressHash) := write_control address (with_tunnel v).
Definition set_iface_wants_tunnel (address : AddressHash) (v : bool) := write_control address (with_wants_tunnel v).

Definition iface_tunnel (address : AddressHash) (m : InterfaceManager) : option AddressHash :=
  mjoin (read_control address (fun c => tunnel_id (settings c)) m).
Definition is_local_client_iface (address : AddressHash) (m : InterfaceManager) : bool :=
  default false (read_control address (fun c => is_local_client (settings c)) m).
Definition iface_mode (address : AddressHash) (m : InterfaceManager) : InterfaceMode :=
  default Full (read_control address (fun c => ctl_mode (settings c)) m).

Definition interfaces_wanting_tunnel (m : InterfaceManager) : list AddressHash :=
  if_address <$> List.filter (fun i => negb (if_stopped i) && default false (read_control (if_address i) (fun c => wants_tunnel (settings c)) m)) (ifaces m).
Definition local_client_iface_addresses (m : InterfaceManager) : list AddressHash :=
  if_address <$> List.filter (fun i => negb (if_stopped i) && is_local_client_iface (if_address i) m) (ifaces m).

Definition connected_to_shared_instance (m : InterfaceManager) : bool :=
  existsb (fun i => bool_decide (if_kind i = "LocalClient"%string) && c_online (if_stats i) && negb (if_stopped i)
                    && negb (is_local_client_iface (if_address i) m)) (ifaces m).

(** ** Registration *)
Section Registration.
Context `{Sha256} `{Hkdf} `{Signing}.

(** The address hashes the counter in little-endian order and eight random
    bytes. *)
Definition new_address (counter : Z) (seed : bytes) : AddressHash :=
  AddressHash_new_from_hash (Hash_new_from_slice (reverse (be_encode 8 counter) ++ drop 8 seed)).

Definition new_channel_named (now : Z) (seed : bytes) (name kind : string) (m : InterfaceManager) : AddressHash * InterfaceManager :=
  let counter := wrap 64 (counter m + 1) in
  let address := new_address counter seed in
  (address,
   mkManager counter (ifaces m ++ [mkIface address name kind EmptyString None false Counters_default None])
     (<[address := Control_new now]> (controls m)) (local_hops_delta m) (transport_identity m)).

Definition new_channel (now : Z) (seed : bytes) : InterfaceManager -> AddressHash * InterfaceManager :=
  new_channel_named now seed EmptyString EmptyString.

Definition apply_type_ingress_policy (ty : IfaceType) (address : AddressHash) (m : InterfaceManager) : InterfaceManager :=
  if negb (ty_ingress_limit ty) then
    (with_control address (fun c => (tt, set_announce_ingress_limit false c)) m).2
  else m.

(** [new_context] and [open] *)
Definition new_context (now : Z) (seed : bytes) (ty : IfaceType) (m : InterfaceManager) : AddressHash * InterfaceManager :=
  let '(address, m) := new_channel_named now seed (ty_kind ty) (ty_kind ty) m in
  let m := update_iface address (set_endpoint (ty_endpoint ty)) m in
  (address, apply_type_ingress_policy ty address m).

Definition set_iface_name (address : AddressHash) (name : string) : InterfaceManager -> InterfaceManager :=
  update_iface address (set_name name).

Definition open_named (now : Z) (seed : bytes) (name : string) (ty : IfaceType) (m : InterfaceManager) : AddressHash * InterfaceManager :=
  let '(address, m) := new_context now seed ty m in (address, set_iface_name address name m).

Definition open_with_ifac (now : Z) (seed : bytes) (ty : IfaceType) (k : IfacKey) (m : InterfaceManager) : AddressHash * InterfaceManager :=
  let '(address, m) := new_channel_named now seed (ty_kind ty) (ty_kind ty) m in
  let m := update_iface address (set_ifac (Some k)) m in
  let m := apply_type_ingress_policy ty address m in
  (address,
   update_iface address (fun i => set_endpoint (ty_endpoint ty)
     (if bool_decide (ty_endpoint ty = EmptyString) then i else set_name (ty_endpoint ty) i)) m).

(** [publish_constructor_bitrate]; starting the worker is left out. *)
Definition launch (ty : IfaceType) (address : AddressHash) (m : InterfaceManager) : InterfaceManager :=
  match ty_constructor_bitrate ty with
  | Some rate => (set_iface_bitrate address rate m).2
  | None => m
  end.

Definition spawn (now : Z) (seed : bytes) (ty : IfaceType) (m : InterfaceManager) : AddressHash * InterfaceManager :=
  let '(address, m) := new_context now seed ty m in (address, launch ty address m).
Definition spawn_named (now : Z) (seed : bytes) (name : string) (ty : IfaceType) (m : InterfaceManager) : AddressHash * InterfaceManager :=
  let '(address, m) := open_named now seed name ty m in (address, launch ty address m).
Definition spawn_with_ifac (now : Z) (seed : bytes) (ty : IfaceType) (k : IfacKey) (m : InterfaceManager) : AddressHash * InterfaceManager :=
  let '(address, m) := open_with_ifac now seed ty k m in (address, launch ty address m).

Definition set_iface_ifac (address : AddressHash) (netname netkey : option bytes) (size : nat) (m : InterfaceManager)
    : option (result bool * InterfaceManager) :=
  k ← IfacKey_derive netname netkey size;
  Some (match k with
        | Ok k => (Ok (bool_decide (is_Some (find_iface address m))), update_iface address (set_ifac (Some k)) m)
        | Err e => (Err e, m)
        end).

Definition copy_spawned_control (parent child : AddressHash) (m : InterfaceManager) : InterfaceManager :=
  match controls m !! parent, controls m !! child with
  | Some source, Some dest =>
      let c := settings source in
      set_controls (<[child := set_settings (fun d =>
        mkSettings (ctl_mode c) (bitrate c) (announce_cap c) (ingress_control c) (announce_ingress_limit d)
          (egress_control c) (recursive_prs c) (announces_from_internal c) (announces_to_internal c) (is_local_client d)
          (tunnel_id d) (wants_tunnel d) (ctl_gravity c) (announce_rate_target c) (announce_rate_grace c)
          (announce_rate_penalty c) (params c)) dest]> (controls m)) m
  | _, _ => m
  end.

End Registration.

(** ** Parents *)
Definition note_spawned (parent child : AddressHash) : InterfaceManager -> InterfaceManager := update_iface child (set_parent parent).

Definition spawned_parent_name (address : AddressHash) (m : InterfaceManager) : option string :=
  i ← find_iface address m; p ← if_parent i; if_name <$> find_iface p m.

Definition iface_endpoint (address : AddressHash) (m : InterfaceManager) : string :=
  default EmptyString (if_endpoint <$> find_iface address m).

Definition is_child_of (address : AddressHash) (i : LocalInterface) : bool := bool_decide (if_parent i = Some address).

Definition local_server_clients (address : AddressHash) (m : InterfaceManager) : option nat :=
  i ← find_iface address m;
  if bool_decide (if_kind i = "LocalServer"%string)
  then Some (length (List.filter (fun i => is_child_of address i && negb (if_stopped i)) (ifaces m))) else None.

(** [Vec::remove] at the first interface of the address. *)
Fixpoint remove_first (P : LocalInterface -> bool) (l : list LocalInterface) : list LocalInterface :=
  match l with
  | [] => []
  | i :: l' => if P i then l' else i :: remove_first P l'
  end.

(** Removing one interface, when its children are stopped. *)
Definition stop_one (address : AddressHash) (m : InterfaceManager) : bool * InterfaceManager :=
  match find_iface address m with
  | Some _ => (true, set_controls (delete address (controls m)) (set_ifaces (remove_first (has_address address) (ifaces m)) m))
  | None => (false, m)
  end.

Fixpoint stop_all (stop : AddressHash -> InterfaceManager -> option (bool * InterfaceManager)) (l : list AddressHash) (m : InterfaceManager)
    : option InterfaceManager :=
  match l with
  | [] => Some m
  | child :: l' => '(_, m) ← stop child m; stop_all stop l' m
  end.

(** The answer says whether the interface was there.  [fuel] bounds the depth of
    the recursion; [None] is a recursion that goes deeper. *)
Fixpoint stop_iface (fuel : nat) (address : AddressHash) (m : InterfaceManager) : option (bool * InterfaceManager) :=
  match fuel with
  | O => None
  | S fuel' =>
      m ← stop_all (stop_iface fuel') (if_address <$> List.filter (is_child_of address) (ifaces m)) m;
      Some (stop_one address m)
  end.

Definition cleanup (m : InterfaceManager) : InterfaceManager := set_ifaces (List.filter (fun i => negb (if_stopped i)) (ifaces m)) m.

(** ** Accounting *)
Definition control_op (address : AddressHash) (f : IfaceControlState -> IfaceControlState) (m : InterfaceManager) : InterfaceManager :=
  (with_control address (fun c => (tt, f c)) m).2.

Definition Manager_received_announce (address : AddressHash) (now n : Z) (m : InterfaceManager) : InterfaceManager :=
  with_stats address (count_announce_rx n) (control_op address (received_announce now) m).
Definition Manager_sent_announce (address : AddressHash) (now n : Z) (m : InterfaceManager) : InterfaceManager :=
  with_stats address (count_announce_tx n) (control_op address (sent_announce now) m).
Definition Manager_received_path_request (address : AddressHash) (now : Z) (m : InterfaceManager) : InterfaceManager :=
  with_stats address count_path_request_rx (control_op address (received_path_request now) m).
Definition Manager_sent_path_request (address : AddressHash) (now : Z) (m : InterfaceManager) : InterfaceManager :=
  with_stats address count_path_request_tx (control_op address (sent_path_request now) m).
Definition Manager_packet_filter_hit (address : AddressHash) : InterfaceManager -> InterfaceManager := with_stats address count_packet_filter_hit.
Definition Manager_protocol_violation (address : AddressHash) : InterfaceManager -> InterfaceManager := with_stats address count_protocol_violation.
Definition Manager_ifac_violation (address : AddressHash) : InterfaceManager -> InterfaceManager := with_stats address count_ifac_violation.

(** ** Periodic passes

    A pass over the map of control states takes each state once, in no
    particular order. *)

Definition drained_of (passes : gmap AddressHash (list Packet * IfaceControlState)) : list (AddressHash * Packet) :=
  concat ((fun x : AddressHash * (list Packet * IfaceControlState) => (fun p => (x.1, p)) <$> x.2.1) <$> map_to_list passes).

(** [while let Some(packet) = control.release_held_announce(now)] *)
Fixpoint release_loop (fuel : nat) (now : Z) (c : IfaceControlState) : list Packet * IfaceControlState :=
  match fuel with
  | O => ([], c)
  | S fuel' =>
      match release_held_announce now c with
      | (Some p, c) => let '(l, c) := release_loop fuel' now c in (p :: l, c)
      | (None, c) => ([], c)
      end
  end.

(** Each turn of the loop removes a held announce. *)
Definition release_all (now : Z) (c : IfaceControlState) : list Packet * IfaceControlState :=
  release_loop (S (base.size (held_announces c))) now c.

Definition release_held_announces (now : Z) (m : InterfaceManager) : list (AddressHash * Packet) * InterfaceManager :=
  let passes : gmap AddressHash _ := release_all now <$> controls m in
  (drained_of passes, set_controls (snd <$> passes) m).

(** What was drained is put into the channel of the live interface of its
    address. *)
Definition transmit_drained (m : InterfaceManager) (x : AddressHash * Packet) : InterfaceManager * list (AddressHash * TxMessage) :=
  match find_live x.1 m with
  | Some _ =>
      (set_ifaces (update_first (fun i => has_address x.1 i && negb (if_stopped i))
                     (set_stats (count_announce_tx (Z.of_nat (packet_wire_len x.2)))) (ifaces m)) m,
       [(x.1, mkTxMessage (TxDirect x.1) x.2)])
  | None => (m, [])
  end.

Fixpoint transmit_all (l : list (AddressHash * Packet)) (m : InterfaceManager) : InterfaceManager * list (AddressHash * TxMessage) :=
  match l with
  | [] => (m, [])
  | x :: l' => let '(m, out1) := transmit_drained m x in let '(m, out2) := transmit_all l' m in (m, out1 ++ out2)
  end.

(** All of the passes, unless one panics. *)
Definition all_passes {A} (passes : gmap AddressHash (option A)) : option (gmap AddressHash A) :=
  if decide (map_Forall (fun _ => is_Some) passes) then Some (omap id passes) else None.

Definition process_announce_queues (now : Z) (m : InterfaceManager) : option (InterfaceManager * list (AddressHash * TxMessage)) :=
  passes ← all_passes (queue_tick now <$> controls m);
  Some (transmit_all (drained_of passes) (set_controls (snd <$> passes) m)).

(** ** Sending *)
Definition announce_forwarding_allowed (to_iface : AddressHash) (from_iface : option AddressHash) (m : InterfaceManager) : bool :=
  match iface_mode to_iface m, from_iface with
  | Internal, Some from =>
      bool_decide (iface_mode from m = Boundary)
      || default false (read_control from (fun c => bool_decide (announces_to_internal (settings c) = Some true)) m)
  | Roaming, Some from => negb (bool_decide (iface_mode from m = Roaming)) && negb (bool_decide (iface_mode from m = Boundary))
  | Boundary, Some from => negb (bool_decide (iface_mode from m = Roaming))
  | _, _ => true
  end.

Definition is_announce (p : Packet) : bool := bool_decide (packet_type (header p) = Announce).

Definition should_send (msg : TxMessage) (m : InterfaceManager) (i : LocalInterface) : bool :=
  let p := tx_packet msg in
  match tx_type msg with
  | TxBroadcast address =>
      let s := match address with Some a => negb (bool_decide (a = if_address i)) | None => true end in
      if s && is_announce p && (0 <? hops (header p)) then announce_forwarding_allowed (if_address i) address m else s
  | TxDirect address => bool_decide (address = if_address i)
  end.

(** The rewriting of packets that leave with no hops; [delta] is nonzero. *)
Definition rewritten (delta : Z) (transport_id : option AddressHash) (p : Packet) : Packet :=
  let h := header p in
  let upgrade := is_announce p && bool_decide (header_type h = Type1) in
  match upgrade, transport_id with
  | true, Some t =>
      mkPacket (mkHeader (ifac_flag h) (context_flag h) Type2 Transport (destination_type h) (packet_type h) delta) (Packet.ifac p)
        (destination p) (Some t) (context p) (data p)
  | _, _ => mkPacket (with_hops h delta) (Packet.ifac p) (destination p) (transport p) (context p) (data p)
  end.

Definition outbound_packet (rewrite_hops : bool) (m : InterfaceManager) (i : LocalInterface) (p : Packet) : Packet :=
  if rewrite_hops && (hops (header p) =? 0) && negb (bool_decide (destination_type (header p) = Plain))
     && negb (bool_decide (destination_type (header p) = Group)) && negb (is_local_client_iface (if_address i) m)
     && negb (bool_decide (if_kind i = "LocalServer"%string))
  then rewritten (local_hops_delta m) (transport_identity m) p else p.

(** The budget of the interface for a forwarded announce: sent now or queued. *)
Definition announce_gate (now : Z) (p : Packet) (c : IfaceControlState) : option (bool * IfaceControlState) :=
  '(ok, c) ← try_transmit_announce (packet_wire_len p) now c;
  Some (if (ok : bool) then (true, sent_announce now c) else (false, queue_announce p now c)).

(** One turn of the loop over the interfaces. *)
Definition send_one (now : Z) (rewrite_hops : bool) (msg : TxMessage) (i : LocalInterface) (m : InterfaceManager)
    : option (InterfaceManager * LocalInterface * list (AddressHash * TxMessage)) :=
  let p := tx_packet msg in
  if should_send msg m i && negb (if_stopped i) then
    '(m, allowed) ← (if is_announce p && (0 <? hops (header p)) then
                       match controls m !! if_address i with
                       | Some c => '(ok, c) ← announce_gate now p c; Some (set_controls (<[if_address i := c]> (controls m)) m, ok)
                       | None => Some (m, true)
                       end
                     else Some (m, true));
    Some (if (allowed : bool) then
            (m, if is_announce p then set_stats (count_announce_tx (Z.of_nat (packet_wire_len p))) i else i,
             [(if_address i, mkTxMessage (tx_type msg) (outbound_packet rewrite_hops m i p))])
          else (m, i, []))
  else Some (m, i, []).

Fixpoint send_loop (now : Z) (rewrite_hops : bool) (msg : TxMessage) (l : list LocalInterface) (m : InterfaceManager)
    : option (InterfaceManager * list LocalInterface * list (AddressHash * TxMessage)) :=
  match l with
  | [] => Some (m, [], [])
  | i :: l' =>
      '(m, i, out1) ← send_one now rewrite_hops msg i m;
      '(m, l, out2) ← send_loop now rewrite_hops msg l' m;
      Some (m, i :: l, out1 ++ out2)
  end.

Definition send (now : Z) (msg : TxMessage) (m : InterfaceManager) : option (InterfaceManager * list (AddressHash * TxMessage)) :=
  let rewrite_hops := negb (local_hops_delta m =? 0) && negb (connected_to_shared_instance m) in
  '(m, l, out) ← send_loop now rewrite_hops msg (ifaces m) m;
  Some (set_ifaces l m, out).

(** ** Reading *)
Definition live_iface_addresses (m : InterfaceManager) : list (AddressHash * bool) :=
  (fun i => (if_address i, c_online (if_stats i))) <$> List.filter (fun i => negb (if_stopped i)) (ifaces m).

Definition iface_kind (address : AddressHash) (m : InterfaceManager) : option string := if_kind <$> find_live address m.

Fixpoint minimum (l : list Z) : option Z :=
  match l with
  | [] => None
  | x :: l' => Some (match minimum l' with Some y => Z.min x y | None => x end)
  end.

Definition lowest_interface_bitrate (m : InterfaceManager) : option Z :=
  minimum (omap (fun i => if negb (if_stopped i) && c_online (if_stats i) then read_control (if_address i) (fun c => bitrate (settings c)) m
                          else None) (ifaces m)).

Definition first_iface_address (m : InterfaceManager) : option AddressHash :=
  match ifaces m with
  | i :: _ => if if_stopped i then None else Some (if_address i)
  | [] => None
  end.

Definition WEAVE_HW_MTU : Z := 1024.

Definition mtu_tier (bitrate : Z) : option Z :=
  if 1000000000 <=? bitrate then Some 524288
  else if 750000000 <=? bitrate then Some 262144
  else if 400000000 <=? bitrate then Some 131072
  else if 200000000 <=? bitrate then Some 65536
  else if 100000000 <=? bitrate then Some 32768
  else if 10000000 <=? bitrate then Some 16384
  else if 5000000 <=? bitrate then Some 8192
  else if 2000000 <=? bitrate then Some 4096
  else if 1000000 <=? bitrate then Some 2048
  else if 62500 <=? bitrate then Some 1024
  else None.

Definition mtu_ceiling (kind : string) : option Z :=
  if bool_decide (kind ∈ ["LocalServer"; "LocalClient"]%string) then Some 524288
  else if bool_decide (kind ∈ ["TcpClient"; "TcpServer"]%string) then Some 262144
  else if bool_decide (kind ∈ ["BackboneClient"; "BackboneServer"]%string) then Some 1048576
  else None.

Definition iface_hw_mtu (address : AddressHash) (m : InterfaceManager) : option Z :=
  kind ← iface_kind address m;
  if bool_decide (kind ∈ ["AutoInterface"; "AutoPeer"]%string) then Some 1196
  else if bool_decide (kind ∈ ["WeaveInterface"; "WeaveInterfacePeer"]%string) then Some WEAVE_HW_MTU
  else
    ceiling ← mtu_ceiling kind;
    bitrate ← read_control address (fun c => bitrate (settings c)) m;
    tier ← mtu_tier bitrate;
    Some (Z.min tier ceiling).

Definition first_iface_hw_mtu (m : InterfaceManager) : option Z := a ← first_iface_address m; iface_hw_mtu a m.

(** ** Stable identifiers *)
Section Stable.
Context `{Sha256}.

Definition string_bytes (s : string) : bytes := (fun c => Z.of_nat (nat_of_ascii c)) <$> String.list_ascii_of_string s.

Definition stable_interface_id (kind name endpoint : string) : AddressHash :=
  AddressHash_new_from_slice
    (string_bytes kind ++ [0] ++ string_bytes name ++ (if bool_decide (endpoint = EmptyString) then [] else [0] ++ string_bytes endpoint)).

Definition iface_stable_id (i : LocalInterface) : AddressHash := stable_interface_id (if_kind i) (if_name i) (if_endpoint i).

Definition stable_iface_map (m : InterfaceManager) : gmap AddressHash AddressHash :=
  foldl (fun acc i => if if_stopped i then acc else <[if_address i := iface_stable_id i]> acc) ∅ (ifaces m).

(** [counts] and [first] in one pass. *)
Definition count_id (acc : gmap AddressHash (nat * AddressHash)) (i : LocalInterface) : gmap AddressHash (nat * AddressHash) :=
  if if_stopped i then acc
  else
    let id := iface_stable_id i in
    match acc !! id with
    | Some (n, a) => <[id := (S n, a)]> acc
    | None => <[id := (1%nat, if_address i)]> acc
    end.

Definition classify_stable_ids (m : InterfaceManager) : gmap AddressHash AddressHash * gset AddressHash :=
  let counts := foldl count_id ∅ (ifaces m) in
  (omap (fun x : nat * AddressHash => if (x.1 =? 1)%nat then Some x.2 else None) counts,
   dom (filter (fun e : AddressHash * (nat * AddressHash) => e.2.1 <> 1%nat) counts)).

End Stable.

(** ** Lemmas: sending *)
Definition iface_key (i : LocalInterface) : AddressHash * bool := (if_address i, if_stopped i).

(** An interface of the address is registered and runs. *)
Definition live (m : InterfaceManager) (a : AddressHash) : Prop := (a, false) ∈ iface_key <$> ifaces m.

Lemma live_find m a : live m a -> is_Some (find_live a m).
Proof.
  unfold live, find_live. intros (i & E & Hin)%list_elem_of_fmap. injection E as -> Hs. destruct (List.find _ _) eqn:Ef; [by eexists|].
  apply list_elem_of_In in Hin. pose proof (List.find_none _ _ Ef i Hin) as Hn. cbn in Hn. unfold has_address in Hn.
  by rewrite bool_decide_true, <- Hs in Hn.
Qed.

Lemma update_first_key P f l : (forall i, iface_key (f i) = iface_key i) -> iface_key <$> update_first P f l = iface_key <$> l.
Proof. intros Hf. induction l as [|i l IH]; [done|]. cbn. destruct (P i); rewrite !fmap_cons, ?Hf; [done|]. by rewrite IH. Qed.

(** The settings of every interface are the same. *)
Definition same_settings (m m' : InterfaceManager) : Prop :=
  forall a, settings <$> controls m !! a = settings <$> controls m' !! a.

#[export] Instance same_settings_equiv : Equivalence same_settings.
Proof. split; [by intros m a|by intros m m' H a|intros m1 m2 m3 H H' a; by rewrite H]. Qed.

Lemma read_same {A} (f : Settings -> A) a m m' : same_settings m m' ->
  read_control a (fun c => f (settings c)) m = read_control a (fun c => f (settings c)) m'.
Proof. intros H. unfold read_control. specialize (H a). destruct (controls m !! a), (controls m' !! a); cbn in *; congruence. Qed.

Lemma iface_mode_same a m m' : same_settings m m' -> iface_mode a m = iface_mode a m'.
Proof. intros H. unfold iface_mode. by rewrite (read_same ctl_mode a m m' H). Qed.

Lemma should_send_same msg i m m' : same_settings m m' -> should_send msg m i = should_send msg m' i.
Proof.
  intros H. unfold should_send, announce_forwarding_allowed. destruct (tx_type msg) as [[x|]|]; [| |done]; cbv beta zeta iota.
  - rewrite !(iface_mode_same _ m m' H). pose proof (read_same (fun c => bool_decide (announces_to_internal c = Some true)) x m m' H) as E.
    cbv beta in E. by rewrite E.
  - by rewrite !(iface_mode_same _ m m' H).
Qed.

Lemma insert_same m a c c' : controls m !! a = Some c -> settings c' = settings c -> same_settings m (set_controls (<[a := c']> (controls m)) m).
Proof.
  intros Hc Hs b. cbn. destruct (decide (b = a)) as [->|Hb]; [rewrite lookup_insert_eq, Hc; cbn; by rewrite Hs|by rewrite lookup_insert_ne].
Qed.

Lemma gate_settings now p c ok c' : announce_gate now p c = Some (ok, c') -> settings c' = settings c.
Proof.
  unfold announce_gate, try_transmit_announce, queue_announce. intros E. repeat (case_match; simplify_option_eq); try done.
  all: destruct (cap_wait_time _ c); simplify_option_eq; done.
Qed.

(** What a gate does with the announce: it lets it pass, or an announce of the
    destination at least as recent is in the queue. *)
Lemma gate_spec now p c ok c' : announce_gate now p c = Some (ok, c') -> queue_ok c -> is_announce p = true ->
  Z.of_nat (length (announce_queue c)) < MAX_QUEUED_ANNOUNCES ->
  queue_ok c' /\ (ok = true \/ exists e, e ∈ announce_queue c' /\ destination (q_packet e) = destination p /\
                                 announce_emitted p <= announce_emitted (q_packet e)).
Proof.
  intros E Hok Hp%bool_decide_eq_true Hl. unfold announce_gate, try_transmit_announce in E.
  destruct (_ || _) in E.
  - injection E as <- <-. destruct (queue_announce_spec p now c Hok Hp Hl). split; [done|by right].
  - destruct (announce_allowed_at c <=? now) in E.
    + destruct (cap_wait_time _ c); [|done]. injection E as <- <-. split; [done|by left].
    + injection E as <- <-. destruct (queue_announce_spec p now c Hok Hp Hl). split; [done|by right].
Qed.

(** The announce, or one of the same destination that was not emitted before
    it. *)
Definition as_recent (p q : Packet) : Prop := destination q = destination p /\ announce_emitted p <= announce_emitted q.

Definition queued_at_least (p : Packet) (c : IfaceControlState) : Prop :=
  queue_ok c /\ exists e, e ∈ announce_queue c /\ as_recent p (q_packet e).

(** Whether the loop sends to this interface at all. *)
Definition wanted (msg : TxMessage) (m : InterfaceManager) (i : LocalInterface) : bool := should_send msg m i && negb (if_stopped i).

Definition sent_or_queued (msg : TxMessage) (a : AddressHash) (m : InterfaceManager) (out : list (AddressHash * TxMessage)) : Prop :=
  (a, msg) ∈ out \/ exists c, controls m !! a = Some c /\ queued_at_least (tx_packet msg) c.

Record one_sent (msg : TxMessage) (i : LocalInterface) (m m1 : InterfaceManager) (i1 : LocalInterface) (out : list (AddressHash * TxMessage))
    : Prop := {
  one_key : iface_key i1 = iface_key i;
  one_settings : same_settings m m1;
  one_others : forall a, a <> if_address i -> controls m1 !! a = controls m !! a;
  one_out : Forall (fun x => x.1 = if_address i) out;
  one_unwanted : wanted msg m i = false -> out = [] /\ m1 = m;
}.

Lemma send_one_frame now rw msg i m m1 i1 out : send_one now rw msg i m = Some (m1, i1, out) -> one_sent msg i m m1 i1 out.
Proof.
  unfold send_one. fold (wanted msg m i). intros E. destruct (wanted msg m i) eqn:Hw; [|by injection E as <- <- <-; split].
  assert (forall b (m2 : InterfaceManager), same_settings m m2 -> (forall a, a <> if_address i -> controls m2 !! a = controls m !! a) ->
    Some (if (b : bool) then (m2, if is_announce (tx_packet msg) then set_stats (count_announce_tx (Z.of_nat (packet_wire_len (tx_packet msg)))) i else i,
            [(if_address i, mkTxMessage (tx_type msg) (outbound_packet rw m2 i (tx_packet msg)))]) else (m2, i, [])) = Some (m1, i1, out) ->
    one_sent msg i m m1 i1 out) as Hfin.
  { intros b m2 Hs Ho E2. destruct b; injection E2 as <- <- <-; split; try done; try congruence; [by case_match|by repeat constructor]. }
  destruct (_ && _) in E; [|by apply (Hfin true m)].
  destruct (controls m !! if_address i) as [c|] eqn:Hc; [|by apply (Hfin true m)].
  destruct (announce_gate _ _ c) as [[ok c']|] eqn:Hg; [|done].
  apply (Hfin ok (set_controls (<[if_address i := c']> (controls m)) m)) in E; [done| |].
  - apply (insert_same _ _ c); [done|]. by apply (gate_settings _ _ _ _ _ Hg).
  - intros a Ha. cbn. by rewrite lookup_insert_ne.
Qed.

(** A forwarded announce that an interface takes. *)
Lemma send_one_announce now rw msg i m m1 i1 out : send_one now rw msg i m = Some (m1, i1, out) ->
  is_announce (tx_packet msg) = true -> 0 < hops (header (tx_packet msg)) -> wanted msg m i = true ->
  (forall c, controls m !! if_address i = Some c -> queue_ok c /\ Z.of_nat (length (announce_queue c)) < MAX_QUEUED_ANNOUNCES) ->
  sent_or_queued msg (if_address i) m1 out.
Proof.
  intros E Ha Hh Hw Hc. unfold send_one in E. fold (wanted msg m i) in E. rewrite Hw, Ha in E. rewrite (proj2 (Z.ltb_lt _ _)) in E by done.
  cbn [andb] in E. assert (forall m2, outbound_packet rw m2 i (tx_packet msg) = tx_packet msg) as Hout.
  { intros m2. unfold outbound_packet. rewrite (proj2 (Z.eqb_neq _ _)) by lia. by rewrite !andb_false_r, !andb_false_l. }
  destruct (controls m !! if_address i) as [c|] eqn:Ec.
  - destruct (announce_gate _ _ c) as [[ok c']|] eqn:Hg; [|done]. cbn in E. destruct (Hc c eq_refl) as [Hok Hl].
    destruct (gate_spec _ _ _ _ _ Hg Hok Ha Hl) as [Hok' [->|He]].
    + rewrite Hout in E. injection E as <- <- <-. left. destruct msg. by left.
    + right. destruct ok; injection E as <- <- <-; cbn; rewrite lookup_insert_eq; eexists; split; done.
  - cbn in E. rewrite Hout in E. injection E as <- <- <-. left. destruct msg. by left.
Qed.

Definition room_for_announces (m : InterfaceManager) : Prop :=
  map_Forall (fun _ c => queue_ok c /\ Z.of_nat (length (announce_queue c)) < MAX_QUEUED_ANNOUNCES) (controls m).

Lemma wanted_same msg i m m' : same_settings m m' -> wanted msg m i = wanted msg m' i.
Proof. intros H. unfold wanted. by rewrite (should_send_same msg i m m' H). Qed.

Record loop_sent (msg : TxMessage) (l : list LocalInterface) (m m1 : InterfaceManager) (l1 : list LocalInterface)
    (out : list (AddressHash * TxMessage)) : Prop := {
  loop_key : iface_key <$> l1 = iface_key <$> l;
  loop_settings : same_settings m m1;
  loop_others : forall a, a ∉ if_address <$> l -> controls m1 !! a = controls m !! a;
  loop_out : Forall (fun x => x.1 ∈ if_address <$> l) out;
  loop_unwanted : forall i, i ∈ l -> wanted msg m i = false -> Forall (fun x => x.1 <> if_address i) out /\
    controls m1 !! if_address i = controls m !! if_address i;
  loop_announce : forall i, i ∈ l -> wanted msg m i = true -> is_announce (tx_packet msg) = true -> 0 < hops (header (tx_packet msg)) ->
    (forall a c, a ∈ if_address <$> l -> controls m !! a = Some c -> queue_ok c /\ Z.of_nat (length (announce_queue c)) < MAX_QUEUED_ANNOUNCES) ->
    sent_or_queued msg (if_address i) m1 out;
}.

Lemma sent_or_queued_l msg a m out out' : sent_or_queued msg a m out' -> sent_or_queued msg a m (out ++ out').
Proof. intros [H|H]; [left; apply elem_of_app; by right|by right]. Qed.

Lemma send_loop_spec now rw msg l : forall m m1 l1 out, send_loop now rw msg l m = Some (m1, l1, out) -> NoDup (if_address <$> l) ->
  loop_sent msg l m m1 l1 out.
Proof.
  induction l as [|i l IH]; intros m m2 l2 out E Hnd.
  { injection E as <- <- <-. split; try done; intros i Hi; by apply elem_of_nil in Hi. }
  cbn [send_loop] in E. destruct (send_one now rw msg i m) as [[[m1 i1] out1]|] eqn:E1; [|done]. cbn in E.
  destruct (send_loop now rw msg l m1) as [[[m2' l1] out2]|] eqn:E2; [|done]. injection E as <- <- <-.
  rewrite fmap_cons in Hnd. apply list.NoDup_cons in Hnd as [Hni Hnd].
  pose proof (send_one_frame _ _ _ _ _ _ _ _ E1) as [Hk1 Hs1 Ho1 Hout1 Hun1].
  pose proof (IH _ _ _ _ E2 Hnd) as [Hk2 Hs2 Ho2 Hout2 Hun2 Ha2]. split.
  - by rewrite !fmap_cons, Hk1, Hk2.
  - by transitivity m1.
  - intros a Ha. rewrite fmap_cons, not_elem_of_cons in Ha. destruct Ha. rewrite Ho2 by done. by apply Ho1.
  - apply Forall_app. split; rewrite fmap_cons; [eapply Forall_impl; [|exact Hout1]|eapply Forall_impl; [|exact Hout2]]; cbn; intros x Hx; [rewrite Hx; by left|by right].
  - intros j [->|Hj]%elem_of_cons Hw.
    + destruct (Hun1 Hw) as [-> ->]. split; [|by apply Ho2]. cbn. eapply Forall_impl; [|exact Hout2]. cbn. intros x Hx Heq. apply Hni. by rewrite <- Heq.
    + assert (if_address j ∈ if_address <$> l) as Hjl by (apply list_elem_of_fmap; by exists j).
      destruct (Hun2 j Hj) as [Hf2 Hc2]; [by rewrite <- (wanted_same msg j m m1)|]. split; [|rewrite Hc2; apply Ho1; by intros Heq; rewrite <- Heq in Hni].
      apply Forall_app. split; [|done]. eapply Forall_impl; [|exact Hout1]. cbn. intros x Hx Heq. apply Hni. by rewrite <- Hx, Heq.
  - intros j [->|Hj]%elem_of_cons Hw Hann Hh Hroom.
    + destruct (send_one_announce _ _ _ _ _ _ _ _ E1 Hann Hh Hw) as [H|H].
      * intros c. apply Hroom. rewrite fmap_cons. by left.
      * left. apply elem_of_app. by left.
      * right. by rewrite Ho2.
    + apply sent_or_queued_l. apply Ha2; [done|by rewrite <- (wanted_same msg j m m1)|done|done|].
      intros a c Ha. rewrite Ho1; [apply Hroom; rewrite fmap_cons; by right|]. intros ->. done.
Qed.

(** ** Lemmas: the passes over the queues *)
Fixpoint announce_ticks (times : list Z) (m : InterfaceManager) : option (InterfaceManager * list (AddressHash * TxMessage)) :=
  match times with
  | [] => Some (m, [])
  | now :: times' =>
      '(m, out1) ← process_announce_queues now m;
      '(m, out2) ← announce_ticks times' m;
      Some (m, out1 ++ out2)
  end.

Lemma transmit_all_spec l : forall m m1 out, transmit_all l m = (m1, out) ->
  iface_key <$> ifaces m1 = iface_key <$> ifaces m /\ controls m1 = controls m /\
  forall x, x ∈ l -> live m x.1 -> (x.1, mkTxMessage (TxDirect x.1) x.2) ∈ out.
Proof.
  induction l as [|x l IH]; intros m m2 out E; [injection E as <- <-; split; [done|]; split; [done|]; by intros x ?%elem_of_nil|].
  cbn [transmit_all] in E. destruct (transmit_drained m x) as [m1 out1] eqn:E1. destruct (transmit_all l m1) as [m2' out2] eqn:E2.
  injection E as <- <-. apply IH in E2 as (Hk2 & Hc2 & Ho2). unfold transmit_drained in E1.
  assert (iface_key <$> ifaces m1 = iface_key <$> ifaces m /\ controls m1 = controls m) as [Hk1 Hc1].
  { destruct (find_live x.1 m); injection E1 as <- <-; [|done]. split; [|done]. cbn. by apply update_first_key. }
  split; [by rewrite Hk2|]. split; [by rewrite Hc2|]. intros y [->|Hy]%elem_of_cons Hl; apply elem_of_app.
  - left. destruct (live_find _ _ Hl) as [i Hi]. rewrite Hi in E1. injection E1 as <- <-. by left.
  - right. apply Ho2; [done|]. unfold live in *. by rewrite Hk1.
Qed.

Lemma process_spec now m m1 out a c : process_announce_queues now m = Some (m1, out) -> controls m !! a = Some c ->
  iface_key <$> ifaces m1 = iface_key <$> ifaces m /\ exists ps c1, queue_tick now c = Some (ps, c1) /\ controls m1 !! a = Some c1 /\
  (live m a -> forall p, p ∈ ps -> (a, mkTxMessage (TxDirect a) p) ∈ out).
Proof.
  unfold process_announce_queues, all_passes. destruct (decide _) as [Hall|]; [|done]. cbn. intros E Hc. injection E as E.
  apply transmit_all_spec in E as (Hk & Hctl & Hout). split; [done|].
  destruct (Hall a (queue_tick now c)) as [[ps c1] Ht]; [by rewrite lookup_fmap, Hc|]. exists ps, c1. split; [done|].
  assert ((omap id (queue_tick now <$> controls m) : gmap _ _) !! a = Some (ps, c1)) as Hp.
  { rewrite lookup_omap, lookup_fmap, Hc. cbn. by rewrite Ht. }
  split; [rewrite Hctl; cbn; by rewrite lookup_fmap, Hp|]. intros Hl p Hin. apply (Hout (a, p)); [|done].
  unfold drained_of. apply list_elem_of_In, List.in_concat. eexists. split.
  - apply list_elem_of_In, list_elem_of_fmap. exists (a, (ps, c1)). split; [done|]. by apply elem_of_map_to_list.
  - cbn. apply list_elem_of_In, list_elem_of_fmap. by exists p.
Qed.

Lemma announce_ticks_spec times : forall m m1 out a c, announce_ticks times m = Some (m1, out) -> controls m !! a = Some c -> live m a ->
  exists ps c1, queue_ticks times c = Some (ps, c1) /\ forall p, p ∈ ps -> (a, mkTxMessage (TxDirect a) p) ∈ out.
Proof.
  induction times as [|now times IH]; intros m m2 out a c E Hc Hl; [injection E as <- <-; exists [], c; split; [done|]; by intros p ?%elem_of_nil|].
  cbn [announce_ticks] in E. destruct (process_announce_queues now m) as [[m1 out1]|] eqn:E1; [|done]. cbn in E.
  destruct (announce_ticks times m1) as [[m2' out2]|] eqn:E2; [|done]. injection E as <- <-.
  destruct (process_spec _ _ _ _ a c E1 Hc) as (Hk & p1 & c1 & Ht & Hc1 & Ho1).
  destruct (IH _ _ _ a c1 E2 Hc1) as (p2 & c2 & Ht2 & Ho2); [unfold live in *; by rewrite Hk|].
  exists (p1 ++ p2), c2. cbn [queue_ticks]. rewrite Ht. cbn. rewrite Ht2. split; [done|].
  intros p [Hp|Hp]%elem_of_app; apply elem_of_app; [left; by apply Ho1|right; by apply Ho2].
Qed.

(** What leaves in the passes was in a queue before. *)
Definition queued_before (m : InterfaceManager) (a : AddressHash) (msg : TxMessage) : Prop :=
  exists c e, controls m !! a = Some c /\ e ∈ announce_queue c /\ msg = mkTxMessage (TxDirect a) (q_packet e).

Lemma transmit_all_from l : forall m m1 out, transmit_all l m = (m1, out) ->
  controls m1 = controls m /\ forall a msg, (a, msg) ∈ out -> exists p, (a, p) ∈ l /\ msg = mkTxMessage (TxDirect a) p.
Proof.
  induction l as [|[b p] l IH]; intros m m2 out E; [injection E as <- <-; split; [done|]; by intros a msg ?%elem_of_nil|].
  cbn [transmit_all] in E. destruct (transmit_drained m (b, p)) as [m1 out1] eqn:E1. destruct (transmit_all l m1) as [m2' out2] eqn:E2.
  injection E as <- <-. apply IH in E2 as [Hc2 Ho2]. unfold transmit_drained in E1. cbn [fst snd] in E1.
  assert (controls m1 = controls m /\ forall a msg, (a, msg) ∈ out1 -> (a, msg) = (b, mkTxMessage (TxDirect b) p)) as [Hc1 Ho1]
    by (destruct (find_live b m); injection E1 as <- <-; (split; [done|]); intros a msg; [by intros ?%list_elem_of_singleton|by intros ?%elem_of_nil]).
  split; [by rewrite Hc2|]. intros a msg [Hx|Hx]%elem_of_app.
  - apply Ho1 in Hx as [= -> ->]. exists p. split; [by left|done].
  - destruct (Ho2 a msg Hx) as (q & Hq & ->). exists q. split; [by right|done].
Qed.

Lemma process_from now m m1 out : process_announce_queues now m = Some (m1, out) ->
  (forall a msg, (a, msg) ∈ out -> queued_before m a msg) /\ (forall a msg, queued_before m1 a msg -> queued_before m a msg).
Proof.
  unfold process_announce_queues, all_passes. destruct (decide _) as [Hall|]; [|done]. cbn. intros E. injection E as E.
  apply transmit_all_from in E as [Hctl Hout].
  assert (forall a ps c1, (omap id (queue_tick now <$> controls m) : gmap _ _) !! a = Some (ps, c1) -> exists c, controls m !! a = Some c /\ queue_tick now c = Some (ps, c1)) as Hp.
  { intros a ps c1. rewrite lookup_omap, lookup_fmap. destruct (controls m !! a) as [c|]; [|done]. cbn. intros Ht. by exists c. }
  split.
  - intros a msg Hx. destruct (Hout a msg Hx) as (p & Hin & ->). unfold drained_of in Hin. apply list_elem_of_In, List.in_concat in Hin as (l & Hl & Hin).
    apply list_elem_of_In, list_elem_of_fmap in Hl as ([b [ps c1]] & -> & Hb%elem_of_map_to_list). apply list_elem_of_In, list_elem_of_fmap in Hin as (p' & [= -> ->] & Hin).
    destruct (Hp _ _ _ Hb) as (c & Hc & Ht). destruct (proj1 (queue_tick_from _ _ _ _ Ht) p' Hin) as (e & He & ->). by exists c, e.
  - intros a msg (c1 & e & Hc1 & He & ->). rewrite Hctl in Hc1. cbn in Hc1. rewrite lookup_fmap in Hc1.
    destruct ((omap id (queue_tick now <$> controls m) : gmap _ _) !! a) as [[ps c']|] eqn:Ea; [|done]. injection Hc1 as <-.
    destruct (Hp _ _ _ Ea) as (c & Hc & Ht). exists c, e. split; [done|]. split; [|done]. by apply (proj2 (queue_tick_from _ _ _ _ Ht)).
Qed.

Lemma announce_ticks_from times : forall m m1 out a msg, announce_ticks times m = Some (m1, out) -> (a, msg) ∈ out -> queued_before m a msg.
Proof.
  induction times as [|now times IH]; intros m m2 out a msg E Hin; [injection E as <- <-; by apply elem_of_nil in Hin|].
  cbn [announce_ticks] in E. destruct (process_announce_queues now m) as [[m1 out1]|] eqn:E1; [|done]. cbn in E.
  destruct (announce_ticks times m1) as [[m2' out2]|] eqn:E2; [|done]. injection E as <- <-. destruct (process_from _ _ _ _ E1) as [H1 H2].
  apply elem_of_app in Hin as [Hin|Hin]; [by apply H1|]. apply H2. by eapply IH.
Qed.

(** ** Lemmas: stopping *)

(** The addresses of an interface and of what it spawned, and so on. *)
Inductive descends (l : list LocalInterface) (a : AddressHash) : AddressHash -> Prop :=
| descends_self : descends l a a
| descends_child i b : i ∈ l -> if_parent i = Some b -> descends l a b -> descends l a (if_address i).

Lemma descends_mono l l' a x : (forall i, i ∈ l -> i ∈ l') -> descends l a x -> descends l' a x.
Proof. intros Hl. induction 1 as [|i b Hi Hp _ IH]; [constructor|]. apply (descends_child _ _ i b); auto. Qed.

Lemma descends_trans l a b x : descends l a b -> descends l b x -> descends l a x.
Proof. intros Ha. induction 1 as [|i c Hi Hp _ IH]; [done|]. by apply (descends_child _ _ i c). Qed.

Lemma descends_inv l a x : descends l a x -> x = a \/ exists i, i ∈ l /\ if_address i = x.
Proof. intros [|i b Hi _ _]; [by left|right; by exists i]. Qed.

Lemma remove_first_sublist P l : remove_first P l `sublist_of` l.
Proof. induction l as [|i l IH]; [constructor|]. cbn. destruct (P i); [by apply sublist_cons|by apply sublist_skip]. Qed.

Lemma remove_first_elem a i l : NoDup (if_address <$> l) -> i ∈ remove_first (has_address a) l <-> i ∈ l /\ if_address i <> a.
Proof.
  induction l as [|j l IH]; intros Hnd; [cbn; rewrite elem_of_nil; tauto|]. rewrite fmap_cons in Hnd. apply list.NoDup_cons in Hnd as [Hj Hnd].
  cbn. unfold has_address at 1. destruct (decide (if_address j = a)) as [E|Hne].
  - rewrite bool_decide_true by done. rewrite elem_of_cons. split; [|by intros [[->|]]].
    intros Hi. split; [by right|]. intros E'. apply Hj. rewrite E, <- E'. apply list_elem_of_fmap. by exists i.
  - rewrite bool_decide_false by done. rewrite !elem_of_cons, IH by done. split; [|tauto]. intros [->|]; tauto.
Qed.

Lemma find_iface_none a m : find_iface a m = None -> forall i, i ∈ ifaces m -> if_address i <> a.
Proof.
  intros E i Hi Ha. unfold find_iface in E. apply list_elem_of_In in Hi. pose proof (List.find_none _ _ E i Hi) as Hn.
  unfold has_address in Hn. by rewrite bool_decide_true in Hn.
Qed.

Lemma find_iface_some a m i : find_iface a m = Some i -> i ∈ ifaces m /\ if_address i = a.
Proof.
  intros E. unfold find_iface in E. apply List.find_some in E as [Hi Ha]. split; [by apply list_elem_of_In|]. by apply bool_decide_eq_true in Ha.
Qed.

(** [m1] is [m] without interfaces of [D], whose control state is gone. *)
Record stopped (D : AddressHash -> Prop) (m m1 : InterfaceManager) : Prop := {
  stopped_sub : ifaces m1 `sublist_of` ifaces m;
  stopped_rest : forall i, i ∈ ifaces m -> i ∈ ifaces m1 \/ (D (if_address i) /\ controls m1 !! if_address i = None);
  stopped_controls : forall x, controls m1 !! x = controls m !! x \/ (D x /\ controls m1 !! x = None);
}.

Lemma stopped_refl D m : stopped D m m.
Proof. split; [done|by left|by left]. Qed.

Lemma stopped_trans D m m1 m2 : stopped D m m1 -> stopped D m1 m2 -> stopped D m m2.
Proof.
  intros [S1 R1 C1] [S2 R2 C2]. split; [by transitivity (ifaces m1)| |].
  - intros i Hi. destruct (R1 i Hi) as [H|[HD HN]]; [by apply R2|]. right. split; [done|]. destruct (C2 (if_address i)) as [->|[_ H]]; done.
  - intros x. destruct (C2 x) as [->|H]; [apply C1|by right].
Qed.

Lemma stopped_weaken (D D' : AddressHash -> Prop) m m1 : (forall x, D x -> D' x) -> stopped D m m1 -> stopped D' m m1.
Proof. intros H [S R C]. split; [done| |]; intros x; [intros Hx; destruct (R x Hx) as [|[? ?]]|destruct (C x) as [|[? ?]]]; auto. Qed.

Lemma stopped_nodup D m m1 : stopped D m m1 -> NoDup (if_address <$> ifaces m) -> NoDup (if_address <$> ifaces m1).
Proof. intros [S _ _] H. eapply sublist_NoDup; [exact H|]. by apply fmap_sublist. Qed.

Lemma stop_one_spec a m : NoDup (if_address <$> ifaces m) ->
  stopped (eq a) m (stop_one a m).2 /\ (forall i, i ∈ ifaces (stop_one a m).2 -> if_address i <> a) /\
  ((stop_one a m).1 = true <-> a ∈ if_address <$> ifaces m).
Proof.
  intros Hnd. unfold stop_one. destruct (find_iface a m) as [i|] eqn:E.
  - apply find_iface_some in E as [Hi Ha]. cbn. split; [split|split].
    + apply remove_first_sublist.
    + intros j Hj. cbn. destruct (decide (if_address j = a)) as [E|Hne]; [right; by rewrite E, lookup_delete_eq|left]. by apply remove_first_elem.
    + intros x. cbn. destruct (decide (x = a)) as [->|Hne]; [right; by rewrite lookup_delete_eq|left; by rewrite lookup_delete_ne].
    + intros j Hj. by apply remove_first_elem in Hj as [_ ?].
    + split; [|done]. intros _. apply list_elem_of_fmap. by exists i.
  - cbn. split; [apply stopped_refl|]. split; [by apply find_iface_none|]. split; [done|].
    intros (i & -> & Hi)%list_elem_of_fmap. by destruct (find_iface_none _ _ E i Hi).
Qed.

(** The state of the loop over children: those in [done_] are stopped with all
    that descends from them. *)
Definition stopped_below (m0 : InterfaceManager) (done_ : list AddressHash) (m : InterfaceManager) : Prop :=
  stopped (fun x => exists c, c ∈ done_ /\ descends (ifaces m0) c x) m0 m /\
  forall i c, i ∈ ifaces m -> c ∈ done_ -> ~ descends (ifaces m0) c (if_address i).

(** What is left still has its line of descent. *)
Lemma descends_left m0 done_ m c x : NoDup (if_address <$> ifaces m0) -> stopped_below m0 done_ m ->
  descends (ifaces m0) c x -> forall i, i ∈ ifaces m -> if_address i = x -> descends (ifaces m) c x.
Proof.
  intros Hnd [[Hsub Hrest _] Hno]. induction 1 as [|j b Hj Hp Hd IH]; intros i Hi Ei; [constructor|].
  assert (i = j) as ->.
  { pose proof (elem_of_sublist _ _ _ Hi Hsub) as Hi0. apply list_elem_of_lookup in Hi0 as [p Hp0], Hj as [q Hq].
    assert (p = q) as ->; [|congruence]. eapply NoDup_lookup; [exact Hnd| |]; rewrite list_lookup_fmap; [by rewrite Hp0|rewrite Hq; cbn; by rewrite Ei]. }
  apply (descends_child _ _ j b Hi Hp). destruct (descends_inv _ _ _ Hd) as [->|(k & Hk & Ek)]; [constructor|].
  destruct (Hrest k Hk) as [Hk'|[(c' & Hc' & Hd') _]]; [by apply (IH k)|].
  destruct (Hno j c' Hi Hc'). rewrite Ek in Hd'. by apply (descends_child _ _ j b).
Qed.

Lemma stop_all_spec stop : (forall a m b m1, stop a m = Some (b, m1) -> NoDup (if_address <$> ifaces m) ->
    stopped (descends (ifaces m) a) m m1 /\ forall i, i ∈ ifaces m1 -> ~ descends (ifaces m) a (if_address i)) ->
  forall l m0 done_ m m1, stop_all stop l m = Some m1 -> NoDup (if_address <$> ifaces m0) -> stopped_below m0 done_ m ->
  stopped_below m0 (done_ ++ l) m1.
Proof.
  intros Hstop l. induction l as [|c l IH]; intros m0 done_ m m2 E Hnd Hbelow; [injection E as <-; by rewrite app_nil_r|].
  cbn [stop_all] in E. destruct (stop c m) as [[b m1]|] eqn:E1; [|done]. cbn in E.
  assert (stopped_below m0 (done_ ++ [c]) m1) as Hb1; [|by rewrite cons_middle, app_assoc; apply (IH m0 _ m1)].
  pose proof (descends_left m0 done_ m c) as Hleft. destruct Hbelow as [Hst Hno].
  destruct (Hstop _ _ _ _ E1 (stopped_nodup _ _ _ Hst Hnd)) as [Hst1 Hno1].
  assert (forall i, i ∈ ifaces m -> i ∈ ifaces m0) as Hsub by (intros i Hi; eapply elem_of_sublist; [exact Hi|apply Hst]). split.
  - eapply stopped_trans; [eapply stopped_weaken; [|exact Hst]|eapply stopped_weaken; [|exact Hst1]].
    + intros x (c' & Hc' & Hd). exists c'. split; [apply elem_of_app; by left|done].
    + intros x Hd. exists c. split; [apply elem_of_app; right; by apply list_elem_of_singleton|]. by eapply descends_mono.
  - intros i c' Hi [Hc'| ->%list_elem_of_singleton]%elem_of_app Hd.
    + destruct (Hno i c'); [|done|done]. eapply elem_of_sublist; [exact Hi|apply Hst1].
    + destruct (Hno1 i Hi). apply (Hleft (if_address i)) with (i := i); [done|done|done| |done]. eapply elem_of_sublist; [exact Hi|apply Hst1].
Qed.

Lemma stop_iface_spec fuel : forall a m b m1, stop_iface fuel a m = Some (b, m1) -> NoDup (if_address <$> ifaces m) ->
  stopped (descends (ifaces m) a) m m1 /\ forall i, i ∈ ifaces m1 -> ~ descends (ifaces m) a (if_address i).
Proof.
  induction fuel as [|fuel IH]; intros a m b m2 E Hnd; [done|]. cbn [stop_iface] in E.
  set (children := if_address <$> List.filter (is_child_of a) (ifaces m)) in E.
  destruct (stop_all _ _ _) as [m1|] eqn:E1; [|done]. injection E as E.
  apply (stop_all_spec _ IH _ m []) in E1; [|done|split; [apply stopped_refl|by intros i c _ ?%elem_of_nil]]. destruct E1 as [Hst Hno]. cbn [app] in *.
  destruct (stop_one_spec a m1 (stopped_nodup _ _ _ Hst Hnd)) as (Hs1 & Hn1 & _). rewrite E in Hs1, Hn1. cbn [snd] in *.
  assert (forall i, i ∈ ifaces m -> if_parent i = Some a -> if_address i ∈ children) as Hch.
  { intros i Hi Hp. apply list_elem_of_fmap. exists i. split; [done|]. apply list_elem_of_In, List.filter_In.
    split; [by apply list_elem_of_In|]. by apply bool_decide_eq_true. }
  assert (forall c, c ∈ children -> descends (ifaces m) a c) as Hdesc.
  { intros c (i & -> & [Hi Hp]%list_elem_of_In%List.filter_In)%list_elem_of_fmap. apply bool_decide_eq_true in Hp.
    apply (descends_child _ _ i a); [by apply list_elem_of_In|done|constructor]. }
  split.
  - eapply stopped_trans; [eapply stopped_weaken; [|exact Hst]|eapply stopped_weaken; [|exact Hs1]].
    + intros x (c & Hc & Hd). by eapply descends_trans; [apply Hdesc|].
    + intros x <-. constructor.
  - intros i Hi Hd. assert (i ∈ ifaces m1) as Hi1 by (eapply elem_of_sublist; [exact Hi|apply Hs1]).
    assert (if_address i = a \/ exists c, c ∈ children /\ descends (ifaces m) c (if_address i)) as [Ha|(c & Hc & Hd')]; [|by apply (Hn1 i)|by apply (Hno i c)].
    clear -Hd Hch. induction Hd as [|j b Hj Hp Hd IH]; [by left|right]. destruct IH as [->|(c & Hc & Hd')].
    + exists (if_address j). split; [by apply Hch|constructor].
    + exists c. split; [done|]. by apply (descends_child _ _ j b).
Qed.

Definition ranked (rank : AddressHash -> nat) (n : nat) (l : list LocalInterface) : Prop :=
  Forall (fun i => (rank (if_address i) <= n)%nat /\ forall b, if_parent i = Some b -> (rank b < rank (if_address i))%nat) l.

Lemma ranked_sublist rank n l l' : l' `sublist_of` l -> ranked rank n l -> ranked rank n l'.
Proof. unfold ranked. rewrite !Forall_forall. intros Hs H i Hi. apply H. apply list_elem_of_In. eapply elem_of_sublist; [by apply list_elem_of_In|done]. Qed.

Lemma stop_iface_total rank n fuel : forall a m, ranked rank n (ifaces m) -> (rank a <= n)%nat -> (n < fuel + rank a)%nat ->
  NoDup (if_address <$> ifaces m) -> is_Some (stop_iface fuel a m).
Proof.
  induction fuel as [|fuel IH]; intros a m Hr Ha Hf Hnd; [lia|]. cbn [stop_iface].
  assert (Forall (fun c => rank c <= n /\ rank a < rank c)%nat (if_address <$> List.filter (is_child_of a) (ifaces m))) as Hc.
  { apply Forall_forall. intros c (i & <- & [Hi Hp]%List.filter_In)%List.in_map_iff. unfold ranked in Hr. rewrite Forall_forall in Hr.
    destruct (Hr i Hi) as [H1 H2]. split; [done|]. apply H2. by apply bool_decide_eq_true in Hp. }
  assert (is_Some (stop_all (stop_iface fuel) (if_address <$> List.filter (is_child_of a) (ifaces m)) m)) as [m1 ->]; [|by eexists].
  revert Hr Hnd. generalize m at 1 2 4. induction Hc as [|c l [Hcn Hca] _ IHl]; intros m' Hr Hnd; [by eexists|]. cbn [stop_all].
  destruct (IH c m' Hr Hcn ltac:(lia) Hnd) as [[b m1] E]. rewrite E. cbn. destruct (stop_iface_spec _ _ _ _ _ E Hnd) as [Hst _].
  apply IHl; [eapply ranked_sublist; [apply Hst|done]|by eapply stopped_nodup].
Qed.

(** Interfaces are registered after the interface that spawns them. *)
Definition parents_first (l : list LocalInterface) : Prop :=
  forall p q i j, l !! p = Some i -> l !! q = Some j -> if_parent j = Some (if_address i) -> (p < q)%nat.

Definition position (l : list LocalInterface) (a : AddressHash) : nat :=
  match list_find (fun i => if_address i = a) l with Some (p, _) => S p | None => 0%nat end.

Lemma position_bound l a : (position l a <= length l)%nat.
Proof.
  unfold position. destruct (list_find _ l) as [[p i]|] eqn:E; [|lia]. apply list_find_Some in E as (E & _). apply lookup_lt_Some in E. lia.
Qed.

Lemma position_ranked l : NoDup (if_address <$> l) -> parents_first l -> ranked (position l) (length l) l.
Proof.
  intros Hnd Hpf. apply Forall_forall. intros j Hj. split; [apply position_bound|]. intros b Hb.
  apply list_elem_of_In, list_elem_of_lookup in Hj as [q Hq]. assert (position l (if_address j) = S q) as ->.
  { unfold position. destruct (list_find _ l) as [[p i]|] eqn:E.
    - apply list_find_Some in E as (E & Ea & _). f_equal. eapply NoDup_lookup; [exact Hnd| |]; rewrite list_lookup_fmap; [by rewrite E|rewrite Hq; cbn; by rewrite Ea].
    - apply list_find_None in E. rewrite Forall_lookup in E. by destruct (E q j Hq). }
  unfold position. destruct (list_find _ l) as [[p i]|] eqn:E; [|lia]. apply list_find_Some in E as (E & Ea & _).
  assert (p < q)%nat; [|lia]. apply (Hpf p q i j E Hq). by rewrite Ea.
Qed.

(** ** Theorems *)

(** C11: a forwarded announce reaches the interfaces that the policy allows. When
    it is broadcast, each running interface that the policy between interface
    modes allows gets it at once or, if its airtime budget does not allow that,
    within as many passes over the queues as announces wait there: then it gets
    this announce or one of the same destination that was not emitted earlier.
    An interface that the policy excludes, the one the announce came from among
    them, gets nothing at once, and in the passes only what was in its queue
    before. *)
Theorem Announce_fanout (now : Z) (except : option AddressHash) (p : Packet) (m m1 m2 : InterfaceManager)
    (out outs : list (AddressHash * TxMessage)) (times : list Z)
    (Hann : is_announce p = true) (Hhops : 0 < hops (header p)) (Hdistinct : NoDup (if_address <$> ifaces m)) (Hroom : room_for_announces m)
    (Hsend : send now (mkTxMessage (TxBroadcast except) p) m = Some (m1, out))
    (Hticks : announce_ticks times m1 = Some (m2, outs))
    (Henough : map_Forall (fun _ c => (length (announce_queue c) <= length times)%nat /\
       Forall (fun t => Forall (fun e => queued_is_stale e t = false) (announce_queue c)) times) (controls m1)) :
  forall i, i ∈ ifaces m ->
    if wanted (mkTxMessage (TxBroadcast except) p) m i
    then exists msg, (if_address i, msg) ∈ out ++ outs /\ as_recent p (tx_packet msg)
    else Forall (fun x => x.1 <> if_address i) out /\ forall msg, (if_address i, msg) ∈ outs -> queued_before m (if_address i) msg.
Proof.
  unfold send in Hsend. set (msg := mkTxMessage (TxBroadcast except) p) in *. destruct (send_loop _ _ _ _ _) as [[[m' l] o]|] eqn:E; [|done].
  injection Hsend as <- <-. apply send_loop_spec in E as [Hkey _ _ _ Hun Hsent]; [|done]. intros i Hi.
  destruct (wanted msg m i) eqn:Hw.
  2: { destruct (Hun i Hi Hw) as [Hf Hc]. split; [done|]. intros x Hx. destruct (announce_ticks_from _ _ _ _ _ _ Hticks Hx) as (c & e & Hce & He & ->).
    exists c, e. cbn in Hce. by rewrite Hc in Hce. }
  destruct (Hsent i Hi Hw Hann Hhops) as [H|(c & Hc & Hok & e & He & Hrec)]; [by intros a c _; apply Hroom|..].
  - exists msg. split; [apply elem_of_app; by left|]. by split.
  - assert (live (set_ifaces l m') (if_address i)) as Hl.
    { unfold live. cbn. rewrite Hkey. apply list_elem_of_fmap. exists i. split; [|done]. unfold iface_key. f_equal.
      apply andb_true_iff in Hw as [_ Hw]. by destruct (if_stopped i). }
    destruct (announce_ticks_spec _ _ _ _ _ c Hticks Hc Hl) as (ps & c1 & Ht & Hout). destruct (Henough _ c Hc) as [Hlen Hfresh].
    apply queue_ticks_some in Ht; [|done|done]. exists (mkTxMessage (TxDirect (if_address i)) (q_packet e)).
    split; [|done]. apply elem_of_app. right. apply Hout. rewrite Ht. apply list_elem_of_fmap. exists e. split; [done|]. by rewrite by_hops_perm.
Qed.

(** C12: stopping an interface. With interfaces registered after those that spawn
    them the recursion ends; then the interface and all it spawned, directly or
    not, are gone with their control state, and everything else is as it was. *)
Theorem Iface_stop (a : AddressHash) (m : InterfaceManager)
    (Hdistinct : NoDup (if_address <$> ifaces m)) (Hparents : parents_first (ifaces m)) :
  exists b m1, stop_iface (S (length (ifaces m))) a m = Some (b, m1) /\ ifaces m1 `sublist_of` ifaces m /\
    (forall i, i ∈ ifaces m -> i ∈ ifaces m1 <-> ~ descends (ifaces m) a (if_address i)) /\
    (forall i, i ∈ ifaces m -> descends (ifaces m) a (if_address i) -> controls m1 !! if_address i = None) /\
    (forall x, ~ descends (ifaces m) a x -> controls m1 !! x = controls m !! x).
Proof.
  destruct (stop_iface_total (position (ifaces m)) (length (ifaces m)) (S (length (ifaces m))) a m) as [[b m1] E];
    [by apply position_ranked|apply position_bound|lia|done|].
  exists b, m1. split; [done|]. destruct (stop_iface_spec _ _ _ _ _ E Hdistinct) as [[Hsub Hrest Hctl] Hno]. split; [done|]. split; [|split].
  - intros i Hi. split; [by apply Hno|]. intros Hd. by destruct (Hrest i Hi) as [|[? _]].
  - intros i Hi Hd. by destruct (Hrest i Hi) as [Hi1|[_ ?]]; [destruct (Hno i Hi1)|].
  - intros x Hd. by destruct (Hctl x) as [|[? _]].
Qed.

(** ** Witnesses *)
Definition sample_iface (k : Z) (parent : option Z) : LocalInterface :=
  mkIface (replicate 16 k) "if"%string "TcpClient"%string EmptyString (replicate 16 <$> parent) false Counters_default None.

(** A roaming interface, a free one, a slow one that has just sent an announce
    and holds another, and a boundary one. *)
Definition sample_manager : InterfaceManager :=
  mkManager 4 [sample_iface 1 None; sample_iface 2 None; sample_iface 3 None; sample_iface 4 None]
    (<[replicate 16 1 := set_settings (with_mode Roaming) (Control_new 0)]>
     (<[replicate 16 2 := Control_new 0]>
      (<[replicate 16 3 := default (Control_new 0) (snd <$> ctl_run (take 2 sample_queue) slow_radio)]>
       {[replicate 16 4 := set_settings (with_mode Boundary) (Control_new 0)]}))) 0 None.

Definition sample_forward : TxMessage := mkTxMessage (TxBroadcast (Some (replicate 16 1))) (sample_announce 7 5).

Definition controls_ok (m : InterfaceManager) (n : nat) (times : list Z) : bool :=
  forallb (fun x : AddressHash * IfaceControlState =>
    forallb (fun e => q_emitted e =? announce_emitted (q_packet e)) (announce_queue x.2)
    && (Z.of_nat (length (announce_queue x.2)) <? MAX_QUEUED_ANNOUNCES) && (length (announce_queue x.2) <=? n)%nat
    && forallb (fun t => forallb (fun e => negb (queued_is_stale e t)) (announce_queue x.2)) times) (map_to_list (controls m)).

Lemma controls_ok_spec m n times : controls_ok m n times = true ->
  map_Forall (fun _ c => queue_ok c /\ Z.of_nat (length (announce_queue c)) < MAX_QUEUED_ANNOUNCES /\ (length (announce_queue c) <= n)%nat /\
    Forall (fun t => Forall (fun e => queued_is_stale e t = false) (announce_queue c)) times) (controls m).
Proof.
  unfold controls_ok. rewrite forallb_forall. intros H a c Hc. apply elem_of_map_to_list, list_elem_of_In, H in Hc.
  rewrite !andb_true_iff, !forallb_forall, Z.ltb_lt, Nat.leb_le in Hc. destruct Hc as [[[H1 H2] H3] H4]. split; [|split; [done|split; [done|]]].
  - apply List.Forall_forall. intros e He. by apply Z.eqb_eq, H1.
  - apply List.Forall_forall. intros t Ht. apply H4 in Ht. rewrite forallb_forall in Ht. apply List.Forall_forall. intros e He.
    apply Ht in He. by destruct (queued_is_stale e t).
Qed.

(** The free interface gets the announce at once, the slow one after its other
    announce, the boundary one never. *)
Lemma Announce_fanout_witness : exists m1 out m2 outs,
  send 10 sample_forward sample_manager = Some (m1, out) /\ announce_ticks [100000000; 200000000] m1 = Some (m2, outs) /\
  if_address <$> ifaces m1 = [replicate 16 1; replicate 16 2; replicate 16 3; replicate 16 4] /\
  (exists msg, (replicate 16 3, msg) ∈ out ++ outs /\ as_recent (sample_announce 7 5) (tx_packet msg)) /\
  Forall (fun x => x.1 <> replicate 16 4) out /\ (forall msg, (replicate 16 4, msg) ∈ outs -> queued_before sample_manager (replicate 16 4) msg) /\
  out.*1 = [replicate 16 2] /\ outs.*1 = [replicate 16 3; replicate 16 3].
Proof.
  assert (match send 10 sample_forward sample_manager with
          | Some (m1, out) => match announce_ticks [100000000; 200000000] m1 with
              | Some (m2, outs) => controls_ok m1 2 [100000000; 200000000] && bool_decide (out.*1 = [replicate 16 2])
                  && bool_decide (outs.*1 = [replicate 16 3; replicate 16 3])
                  && bool_decide (if_address <$> ifaces m1 = [replicate 16 1; replicate 16 2; replicate 16 3; replicate 16 4])
              | None => false end
          | None => false end = true) as H by (vm_compute; reflexivity).
  destruct (send 10 sample_forward sample_manager) as [[m1 out]|] eqn:E1; [|discriminate H].
  destruct (announce_ticks [100000000; 200000000] m1) as [[m2 outs]|] eqn:E2; [|discriminate H].
  rewrite !andb_true_iff, !bool_decide_eq_true in H. destruct H as [[[H1 H2] H3] H4]. exists m1, out, m2, outs.
  split; [reflexivity|]. split; [exact E2|]. split; [exact H4|].
  assert (forall i, i ∈ ifaces sample_manager -> if wanted sample_forward sample_manager i
    then exists msg, (if_address i, msg) ∈ out ++ outs /\ as_recent (sample_announce 7 5) (tx_packet msg)
    else Forall (fun x => x.1 <> if_address i) out /\ forall msg, (if_address i, msg) ∈ outs -> queued_before sample_manager (if_address i) msg) as HF.
  { refine (Announce_fanout 10 (Some (replicate 16 1)) (sample_announce 7 5) sample_manager m1 m2 out outs [100000000; 200000000] _ _ _ _ E1 E2 _).
    - reflexivity.
    - reflexivity.
    - apply (bool_decide_unpack _). vm_compute. exact I.
    - assert (controls_ok sample_manager 2 [] = true) as Hc by (vm_compute; reflexivity). intros a c Ec.
      destruct (controls_ok_spec _ _ _ Hc a c Ec) as (? & ? & _). split; assumption.
    - intros a c Ec. destruct (controls_ok_spec _ _ _ H1 a c Ec) as (_ & _ & ? & ?). split; assumption. }
  assert (sample_iface 4 None ∈ ifaces sample_manager) as H4i by (do 3 right; left).
  split; [|split; [|split; [|split; assumption]]].
  - apply (HF (sample_iface 3 None)). do 2 right. left.
  - exact (proj1 (HF (sample_iface 4 None) H4i)).
  - exact (proj2 (HF (sample_iface 4 None) H4i)).
Defined.

(** A server, a peer it accepted, something that peer spawned, and an interface
    of its own. *)
Definition sample_tree : InterfaceManager :=
  mkManager 4 [sample_iface 1 None; sample_iface 2 None; sample_iface 3 (Some 1); sample_iface 4 (Some 3)]
    (<[replicate 16 1 := Control_new 0]> (<[replicate 16 2 := Control_new 0]> {[replicate 16 4 := Control_new 0]})) 0 None.

Lemma Iface_stop_witness : exists b m1, stop_iface 5 (replicate 16 1) sample_tree = Some (b, m1) /\
  controls m1 !! replicate 16 4 = None /\ if_address <$> ifaces m1 = [replicate 16 2].
Proof.
  assert (match stop_iface 5 (replicate 16 1) sample_tree with
          | Some (_, m1) => bool_decide (if_address <$> ifaces m1 = [replicate 16 2]) | None => false end = true) as H by (vm_compute; reflexivity).
  destruct (Iface_stop (replicate 16 1) sample_tree) as (b & m1 & E & _ & _ & Hgone & _).
  - apply (bool_decide_unpack _). vm_compute. exact I.
  - intros p q i j Hi Hj Hp. cbn in Hi, Hj.
    destruct q as [|[|[|[|q]]]]; cbn in Hj; try discriminate Hj; injection Hj as <-; try discriminate Hp;
      destruct p as [|[|[|[|p]]]]; cbn in Hi; try discriminate Hi; injection Hi as <-; try discriminate Hp; lia.
  - change (S (length (ifaces sample_tree))) with 5%nat in E. rewrite E in H. apply bool_decide_eq_true in H. exists b, m1.
    split; [exact E|]. split; [|exact H]. apply (Hgone (sample_iface 4 (Some 3))); [do 3 right; left|].
    apply (descends_child _ _ (sample_iface 4 (Some 3)) (replicate 16 3)); [do 3 right; left|reflexivity|].
    apply (descends_child _ _ (sample_iface 3 (Some 1)) (replicate 16 1)); [do 2 right; left|reflexivity|constructor].
Defined.
