(* ===== verification/Storage.v ===== *)
(** * Stored identities, destinations and ratchets ([src/src/storage/mod.rs])

    What the transport remembers of announced destinations and keeps in files.
    The backend is the class [Storage], the operations of the trait of that name,
    and [StorageLaws] is what its documentation promises; [MemoryStorage] is the
    backend of the repository that keeps files in a map.  The backend on the file
    system is system calls and not modelled.  Paths are their UTF-8 bytes; times
    in files are the bit patterns of [f64]. *)

From Stdlib Require Import Floats.SpecFloat.
From S2P Require Import Prelude Float Crypto Hash Packet Identity Msgpack Destination.

(** ** Backends *)
Class Storage (S : Type) := {
  read : bytes -> S -> option bytes;
  write : bytes -> bytes -> S -> result unit * S;
  list_dir : bytes -> S -> list bytes;
  remove : bytes -> S -> bool * S;
}.

Class StorageLaws (S : Type) `{!Storage S} := {
  read_written : forall path d s s', write path d s = (Ok tt, s') -> read path s' = Some d;
  write_failed : forall path d s e s', write path d s = (Err e, s') -> read path s' = read path s;
  read_other : forall path d s r s' other, write path d s = (r, s') -> other <> path -> read other s' = read other s;
  read_removed : forall path s s', remove path s = (true, s') -> read path s' = None;
  remove_other : forall path s r s' other, remove path s = (r, s') -> other <> path -> read other s' = read other s;
}.

Abbreviation MemoryStorage := (gmap (list Z) (list Z)) (only parsing).

Definition Memory_list (dir : bytes) (s : MemoryStorage) : list bytes :=
  let prefix := dir ++ [47] in
  merge_sort bytes_le
    (omap (fun e : bytes * bytes => if bool_decide (take (length prefix) e.1 = prefix) then Some (drop (length prefix) e.1) else None)
       (map_to_list s)).

#[export] Instance Memory_Storage : Storage MemoryStorage := {|
  read path s := s !! path;
  write path d s := (Ok tt, <[path := d]> s);
  list_dir := Memory_list;
  remove path s := (bool_decide (is_Some (s !! path)), delete path s);
|}.

#[export] Instance Memory_laws : StorageLaws MemoryStorage.
Proof.
  split; cbn; intros path.
  - intros d s s' [= <-]. apply lookup_insert_eq.
  - done.
  - intros d s r s' other [= <- <-] Ho. by apply lookup_insert_ne.
  - intros s s' [= _ <-]. apply lookup_delete_eq.
  - intros s r s' other [= <- <-] Ho. by apply lookup_delete_ne.
Qed.

(** ** Files *)

(** [known_destinations] and [ratchets] *)
Definition KNOWN_DESTINATIONS_FILE : bytes :=
  [107; 110; 111; 119; 110; 95; 100; 101; 115; 116; 105; 110; 97; 116; 105; 111; 110; 115].
Definition RATCHETS_DIR : bytes := key_ratchets.

Section Files.
Context {S : Type} `{!Storage S}.
Context `{Sha256} `{Hs : Signing} `{Hv : !Verifying} `{He : !Ed25519} `{Hk : !Ed25519Keys} `{X25519} `{Rmp}.

Definition private_identity_from_file (path : bytes) (s : S) : result PrivateIdentity :=
  match read path s with Some b => PrivateIdentity_new_from_bytes b | None => Err Prelude.Storage end.

Definition stored_identity (public_key : bytes) : Identity :=
  identity_of_keys (take PUBLIC_KEY_LENGTH public_key) (drop PUBLIC_KEY_LENGTH public_key).

Definition identity_from_public_file (path : bytes) (s : S) : result Identity :=
  match read path s with
  | None => Err Prelude.Storage
  | Some b => if negb (length b =? PUBLIC_KEY_LENGTH * 2)%nat then Err IncorrectHash else Ok (stored_identity b)
  end.

Definition PrivateIdentity_to_file (i : PrivateIdentity) (path : bytes) (s : S) : result unit * S :=
  write path (PrivateIdentity_to_bytes i) s.
Definition PrivateIdentity_pub_to_file (i : PrivateIdentity) (path : bytes) (s : S) : result unit * S :=
  write path (Identity_to_bytes (identity i)) s.
Definition Identity_to_file (s : S) : result unit * S := (Err Unsupported, s).
Definition Identity_pub_to_file (i : Identity) (path : bytes) (s : S) : result unit * S := write path (Identity_to_bytes i) s.

(** ** Known destinations *)
Record KnownDestinations := mkKnownDestinations {
  entries : list (AddressHash * KnownDestinationData);
  index : gmap AddressHash nat;
  dirty : bool;
}.

Definition Known_new : KnownDestinations := mkKnownDestinations [] ∅ false.

Definition position (h : AddressHash) (k : KnownDestinations) : option nat := index k !! h.

Definition remember (packet_hash : Hash) (h : AddressHash) (public_key : bytes) (app_data : option bytes) (now : f64) (k : KnownDestinations)
    : KnownDestinations :=
  match position h k with
  | Some i =>
      mkKnownDestinations
        (alter (fun e => (e.1, mkKnown (f64_to_bits now) packet_hash public_key app_data (kd_uses e.2))) i (entries k)) (index k) true
  | None =>
      mkKnownDestinations (entries k ++ [(h, mkKnown (f64_to_bits now) packet_hash public_key app_data Never)])
        (<[h := length (entries k)]> (index k)) true
  end.

Definition Known_get (h : AddressHash) (k : KnownDestinations) : option KnownDestinationData :=
  i ← position h k; snd <$> entries k !! i.

Definition recall_no_use (h : AddressHash) (k : KnownDestinations) : option Identity :=
  (fun e => stored_identity (kd_public_key e)) <$> Known_get h k.

Definition with_uses (u : DestinationUses) (e : AddressHash * KnownDestinationData) : AddressHash * KnownDestinationData :=
  (e.1, mkKnown (kd_time e.2) (kd_packet_hash e.2) (kd_public_key e.2) (kd_app_data e.2) u).

Definition set_uses (h : AddressHash) (u : DestinationUses) (k : KnownDestinations) : bool * KnownDestinations :=
  match position h k with
  | Some i => (true, mkKnownDestinations (alter (with_uses u) i (entries k)) (index k) true)
  | None => (false, k)
  end.

Definition mark_used (h : AddressHash) (now : f64) (k : KnownDestinations) : bool * KnownDestinations :=
  match position h k with
  | None => (false, k)
  | Some i =>
      if from_option (fun e => is_retained (kd_uses e.2)) false (entries k !! i) then (false, k)
      else (true, mkKnownDestinations (alter (with_uses (LastUsed (f64_to_bits now))) i (entries k)) (index k) true)
  end.

Definition Known_recall (h : AddressHash) (now : f64) (k : KnownDestinations) : option Identity * KnownDestinations :=
  match recall_no_use h k with
  | Some i => (Some i, (mark_used h now k).2)
  | None => (None, k)
  end.

Definition recall_app_data (h : AddressHash) (now : f64) (k : KnownDestinations) : option bytes * KnownDestinations :=
  match Known_get h k ≫= kd_app_data with
  | Some d => (Some d, (mark_used h now k).2)
  | None => (None, k)
  end.

Definition Known_retain (h : AddressHash) : KnownDestinations -> bool * KnownDestinations := set_uses h Retained.
Definition unretain (h : AddressHash) (now : f64) : KnownDestinations -> bool * KnownDestinations := set_uses h (LastUsed (f64_to_bits now)).

Fixpoint retain_all (hs : list AddressHash) (k : KnownDestinations) : bool * KnownDestinations :=
  match hs with
  | [] => (false, k)
  | h :: hs' => let '(r1, k) := Known_retain h k in let '(r2, k) := retain_all hs' k in (r1 || r2, k)
  end.

Definition retain_identity (identity_hash : AddressHash) (k : KnownDestinations) : bool * KnownDestinations :=
  retain_all (List.filter (fun e => bool_decide (address_hash (stored_identity (kd_public_key e.2)) = identity_hash)) (entries k)).*1 k.

Definition reindex (l : list (AddressHash * KnownDestinationData)) : gmap AddressHash nat :=
  foldl (fun m x => <[x.2 := x.1]> m) ∅ (imap (fun i e => (i, e.1)) l).

Definition UNUSED_DESTINATION_LINGER : f64 := f64_of_Z (6 * 60).
Definition DESTINATION_TIMEOUT : f64 := f64_of_Z (60 * 60 * 24 * 7).

Definition is_stale_entry (now : f64) (has_path : AddressHash -> bool) (e : AddressHash * KnownDestinationData) : bool :=
  if is_retained (kd_uses e.2) || has_path e.1 then false
  else match kd_uses e.2 with
       | LastUsed t => f_lt (f64_mul DESTINATION_TIMEOUT (f64_dec 125 2)) (f64_sub now (f64_from_bits t))
       | _ => f_lt UNUSED_DESTINATION_LINGER (f64_sub now (f64_from_bits (kd_time e.2)))
       end.

Definition Known_clean (now : f64) (has_path : AddressHash -> bool) (k : KnownDestinations) : list AddressHash * KnownDestinations :=
  let stale := (List.filter (is_stale_entry now has_path) (entries k)).*1 in
  let l := List.filter (fun e => negb (bool_decide (e.1 ∈ stale))) (entries k) in
  (stale, mkKnownDestinations l (reindex l) (dirty k || negb (bool_decide (stale = [])))).

Definition Known_save (k : KnownDestinations) (s : S) : result unit * KnownDestinations * S :=
  if negb (dirty k) && bool_decide (is_Some (read KNOWN_DESTINATIONS_FILE s)) then (Ok tt, k, s)
  else
    match write KNOWN_DESTINATIONS_FILE (pack_known_destinations (entries k)) s with
    | (Ok _, s) => (Ok tt, mkKnownDestinations (entries k) (index k) false, s)
    | (Err e, s) => (Err e, k, s)
    end.

Definition Known_load (k : KnownDestinations) (s : S) : result unit * KnownDestinations :=
  match read KNOWN_DESTINATIONS_FILE s with
  | None => (Ok tt, k)
  | Some b =>
      match unpack_known_destinations b with
      | Ok l => (Ok tt, mkKnownDestinations l (reindex l) false)
      | Err e => (Err e, k)
      end
  end.

(** ** Known ratchets *)
Abbreviation KnownRatchets := (gmap (list Z) (list Z * Z)) (only parsing).

Definition ratchet_path (h : AddressHash) : bytes := RATCHETS_DIR ++ [47] ++ AddressHash_to_hex_string h.

Definition ratchet_expired (now : f64) (received : Z) : bool := f_le (f64_add (f64_from_bits received) (f64_of_Z RATCHET_EXPIRY_SECS)) now.

Definition remember_ratchet (h : AddressHash) (ratchet : bytes) (now : f64) (k : KnownRatchets) (s : S) : result unit * KnownRatchets * S :=
  if bool_decide (fst <$> k !! h = Some ratchet) then (Ok tt, k, s)
  else
    let '(r, s) := write (ratchet_path h) (pack_ratchet (mkRatchetFile ratchet (f64_to_bits now))) s in
    (r, <[h := (ratchet, f64_to_bits now)]> k, s).

(** The ratchets with the one of the file, when there is none in memory. *)
Definition load_ratchet (h : AddressHash) (k : KnownRatchets) (s : S) : KnownRatchets :=
  match k !! h with
  | Some _ => k
  | None =>
      match read (ratchet_path h) s with
      | None => k
      | Some b => match unpack_ratchet b with Ok d => <[h := (rf_ratchet d, rf_received d)]> k | Err _ => k end
      end
  end.

Definition get_ratchet (h : AddressHash) (now : f64) (k : KnownRatchets) (s : S) : option bytes * KnownRatchets :=
  let k := load_ratchet h k s in
  (match k !! h with
   | Some (ratchet, received) => if ratchet_expired now received then None else Some ratchet
   | None => None
   end, k).

Definition current_ratchet_id (h : AddressHash) (now : f64) (k : KnownRatchets) (s : S) : option bytes * KnownRatchets :=
  let '(r, k) := get_ratchet h now k s in ((fun r => take 10 (ratchet_id r)) <$> r, k).

Fixpoint clean_files (now : f64) (known : AddressHash -> bool) (names : list bytes) (k : KnownRatchets) (s : S) : option (nat * KnownRatchets * S) :=
  match names with
  | [] => Some (0%nat, k, s)
  | name :: names' =>
      let path := RATCHETS_DIR ++ [47] ++ name in
      r ← AddressHash_new_from_hex_string name;
      let '(n, k, s) :=
        match r with
        | Err _ => (1%nat, k, (remove path s).2)
        | Ok h =>
            let bad := match read path s with
                       | Some b => match unpack_ratchet b with Ok d => ratchet_expired now (rf_received d) | Err _ => true end
                       | None => true
                       end in
            if bad || negb (known h) then (1%nat, delete h k, (remove path s).2) else (0%nat, k, s)
        end in
      '(m, k, s) ← clean_files now known names' k s;
      Some ((n + m)%nat, k, s)
  end.

Definition Ratchets_clean (now : f64) (known : AddressHash -> bool) (k : KnownRatchets) (s : S) : option (nat * KnownRatchets * S) :=
  clean_files now known (list_dir RATCHETS_DIR s) k s.

(** ** Ratchets of local destinations *)
Definition load_destination_ratchets (path : bytes) (i : Identity) (s : S) : result (list bytes) :=
  match read path s with
  | None => Ok []
  | Some b =>
      '(ratchets, signature) ← unpack_destination_ratchets b;
      match Identity_verify i (pack_ratchet_list ratchets) signature with
      | Ok _ => Ok ratchets
      | Err _ => Err IncorrectSignature
      end
  end.

Definition save_destination_ratchets (path : bytes) (i : PrivateIdentity) (ratchets : list bytes) (s : S) : result unit * S :=
  let packed := pack_ratchet_list ratchets in
  write path (pack_destination_ratchets ratchets (PrivateIdentity_sign i packed)) s.

Definition clean_destination_ratchets (ratchets : list bytes) (retained : nat) : list bytes :=
  take ((retained `max` 1) `min` RATCHET_COUNT) ratchets.

End Files.

(** ** The dictionary that [KnownDestinations] stands for

    Entries in the order of insertion, found by their key. *)
Section Dictionary.
Context `{Sha256} `{Hs : Signing} `{Hv : !Verifying} `{He : !Ed25519} `{Hk : !Ed25519Keys} `{X25519}.

Abbreviation Dict := (list (list Z * KnownDestinationData)) (only parsing).

Definition dict_get (h : AddressHash) (d : Dict) : option KnownDestinationData := snd <$> List.find (fun e => bool_decide (e.1 = h)) d.

Definition dict_update (h : AddressHash) (f : KnownDestinationData -> KnownDestinationData) (d : Dict) : Dict :=
  (fun e => if bool_decide (e.1 = h) then (e.1, f e.2) else e) <$> d.

Definition use (u : DestinationUses) (e : KnownDestinationData) : KnownDestinationData :=
  mkKnown (kd_time e) (kd_packet_hash e) (kd_public_key e) (kd_app_data e) u.
Definition use_unless_retained (u : DestinationUses) (e : KnownDestinationData) : KnownDestinationData :=
  if is_retained (kd_uses e) then e else use u e.

Inductive KnownOp :=
| KRemember (packet_hash : Hash) (h : AddressHash) (public_key : bytes) (app_data : option bytes) (now : f64)
| KRecall (h : AddressHash) (now : f64)
| KAppData (h : AddressHash) (now : f64)
| KMark (h : AddressHash) (now : f64)
| KRetain (h : AddressHash)
| KUnretain (h : AddressHash) (now : f64)
| KRetainIdentity (identity_hash : AddressHash)
| KClean (now : f64) (has_path : AddressHash -> bool).

Definition known_op (op : KnownOp) (k : KnownDestinations) : KnownDestinations :=
  match op with
  | KRemember p h pk a now => remember p h pk a now k
  | KRecall h now => (Known_recall h now k).2
  | KAppData h now => (recall_app_data h now k).2
  | KMark h now => (mark_used h now k).2
  | KRetain h => (Known_retain h k).2
  | KUnretain h now => (unretain h now k).2
  | KRetainIdentity i => (retain_identity i k).2
  | KClean now has_path => (Known_clean now has_path k).2
  end.

Definition dict_op (op : KnownOp) (d : Dict) : Dict :=
  match op with
  | KRemember p h pk a now =>
      match dict_get h d with
      | Some _ => dict_update h (fun e => mkKnown (f64_to_bits now) p pk a (kd_uses e)) d
      | None => d ++ [(h, mkKnown (f64_to_bits now) p pk a Never)]
      end
  | KRecall h now | KMark h now => dict_update h (use_unless_retained (LastUsed (f64_to_bits now))) d
  | KAppData h now =>
      match dict_get h d ≫= kd_app_data with
      | Some _ => dict_update h (use_unless_retained (LastUsed (f64_to_bits now))) d
      | None => d
      end
  | KRetain h => dict_update h (use Retained) d
  | KUnretain h now => dict_update h (use (LastUsed (f64_to_bits now))) d
  | KRetainIdentity i =>
      (fun e => if bool_decide (address_hash (stored_identity (kd_public_key e.2)) = i) then (e.1, use Retained e.2) else e) <$> d
  | KClean now has_path => List.filter (fun e => negb (is_stale_entry now has_path e)) d
  end.

(** The index points at the entries. *)
Record known_ok (k : KnownDestinations) : Prop := {
  known_nodup : NoDup (entries k).*1;
  known_index : forall h i, index k !! h = Some i <-> (entries k).*1 !! i = Some h;
}.

Lemma alter_at {A} (f g : A -> A) (i : nat) (l : list A) : (forall x, l !! i = Some x -> f x = g x) -> alter f i l = alter g i l.
Proof.
  revert i. induction l as [|x l IH]; intros [|i] Hf; cbn; [done|done|by rewrite (Hf x)|]. f_equal. by apply IH.
Qed.

Lemma filter_sublist {A} (P : A -> bool) l : List.filter P l `sublist_of` l.
Proof. induction l as [|x l IH]; [constructor|]. cbn. destruct (P x); [by apply sublist_skip|by apply sublist_cons]. Qed.

Lemma dict_get_lookup d h i : NoDup d.*1 -> d.*1 !! i = Some h -> dict_get h d = snd <$> d !! i.
Proof.
  intros Hnd Hi. unfold dict_get. f_equal. revert i Hnd Hi. induction d as [|[x v] d IH]; intros i Hnd Hi; [done|].
  rewrite fmap_cons in Hnd, Hi. apply list.NoDup_cons in Hnd as [Hx Hnd]. cbn [List.find fst] in *. destruct i as [|i]; cbn in Hi.
  - injection Hi as ->. by rewrite bool_decide_true.
  - rewrite bool_decide_false; [by apply IH|]. intros ->. apply Hx. by apply list_elem_of_lookup_2 in Hi.
Qed.

Lemma dict_get_none d h : h ∉ d.*1 -> dict_get h d = None.
Proof.
  induction d as [|[x v] d IH]; [done|]. rewrite fmap_cons, not_elem_of_cons. intros [Hx Hd]. unfold dict_get in *. cbn [List.find fst].
  rewrite bool_decide_false by (intros ->; by apply Hx). by apply IH.
Qed.

Lemma dict_update_alter d h i f : NoDup d.*1 -> d.*1 !! i = Some h ->
  alter (fun e : AddressHash * KnownDestinationData => (e.1, f e.2)) i d = dict_update h f d.
Proof.
  revert i. induction d as [|[x v] d IH]; intros i Hnd Hi; [done|]. rewrite fmap_cons in Hnd, Hi. apply list.NoDup_cons in Hnd as [Hx Hnd].
  destruct i as [|i]; cbn in Hi.
  - injection Hi as ->. cbn. rewrite bool_decide_true by done. f_equal. clear IH Hnd. induction d as [|[y w] d IH]; [done|].
    rewrite fmap_cons, not_elem_of_cons in Hx. destruct Hx as [Hy Hx]. cbn. rewrite bool_decide_false by (intros ->; by apply Hy). f_equal. by apply IH.
  - cbn. rewrite bool_decide_false by (intros ->; apply Hx; by apply list_elem_of_lookup_2 in Hi). f_equal. by apply IH.
Qed.

Lemma dict_update_none d h f : h ∉ d.*1 -> dict_update h f d = d.
Proof.
  induction d as [|[x v] d IH]; [done|]. rewrite fmap_cons, not_elem_of_cons. intros [Hx Hd]. cbn.
  rewrite bool_decide_false by (intros ->; by apply Hx). f_equal. by apply IH.
Qed.

Lemma alter_keys (f : KnownDestinationData -> KnownDestinationData) i d :
  (alter (fun e : AddressHash * KnownDestinationData => (e.1, f e.2)) i d).*1 = d.*1.
Proof. revert i. induction d as [|e d IH]; intros [|i]; try done. cbn. f_equal. apply IH. Qed.

Lemma alter_ok k f i b : known_ok k ->
  known_ok (mkKnownDestinations (alter (fun e => (e.1, f e.2)) i (entries k)) (index k) b).
Proof. intros [Hn Hi]. split; cbn; rewrite alter_keys; done. Qed.

Lemma position_none k h : known_ok k -> position h k = None -> h ∉ (entries k).*1.
Proof.
  intros [_ Hi] Hp Hin. apply list_elem_of_lookup_1 in Hin as [i Hx]. apply Hi in Hx. unfold position in Hp. congruence.
Qed.

Lemma Known_get_dict k h : known_ok k -> Known_get h k = dict_get h (entries k).
Proof.
  intros Hok. unfold Known_get. destruct (position h k) as [i|] eqn:Hp; cbn.
  - destruct Hok as [Hn Hi]. apply Hi in Hp. by rewrite (dict_get_lookup _ h i).
  - by rewrite dict_get_none by (by apply position_none).
Qed.

Lemma update_dict k h f b : known_ok k ->
  match position h k with
  | Some i => alter (fun e => (e.1, f e.2)) i (entries k) = dict_update h f (entries k) /\ known_ok (mkKnownDestinations (alter (fun e => (e.1, f e.2)) i (entries k)) (index k) b)
  | None => entries k = dict_update h f (entries k)
  end.
Proof.
  intros Hok. destruct (position h k) as [i|] eqn:Hp.
  - split; [|by apply alter_ok]. destruct Hok as [Hn Hi]. apply Hi in Hp. by apply dict_update_alter.
  - by rewrite dict_update_none by (by apply position_none).
Qed.

Lemma reindex_snoc l e : reindex (l ++ [e]) = <[e.1 := length l]> (reindex l).
Proof. unfold reindex. rewrite imap_app, foldl_app. cbn. by rewrite Nat.add_0_r. Qed.

Lemma append_index (l : list AddressHash) (m : gmap AddressHash nat) x : x ∉ l -> (forall h i, m !! h = Some i <-> l !! i = Some h) ->
  forall h i, <[x := length l]> m !! h = Some i <-> (l ++ [x]) !! i = Some h.
Proof.
  intros Hx Hm h i. destruct (decide (h = x)) as [->|Hne].
  - rewrite lookup_insert_eq. split; [intros [= <-]; by apply list_lookup_middle|]. intros Hi. f_equal.
    apply lookup_app_Some in Hi as [Hi|[Hl Hi]]; [by apply list_elem_of_lookup_2 in Hi|]. apply list_lookup_singleton_Some in Hi as [? _]. lia.
  - rewrite lookup_insert_ne by done. rewrite Hm. split; intros Hi; [by apply lookup_app_l_Some|].
    apply lookup_app_Some in Hi as [Hi|[_ Hi]]; [done|]. by apply list_lookup_singleton_Some in Hi as [_ ->].
Qed.

Lemma reindex_ok l b : NoDup l.*1 -> known_ok (mkKnownDestinations l (reindex l) b).
Proof.
  intros Hnd. split; [done|]. cbn. induction l as [|e l IH] using rev_ind; [intros h i; unfold reindex; cbn; by rewrite lookup_empty, lookup_nil|].
  rewrite fmap_app in *. apply list.NoDup_app in Hnd as (Hl & Hd & _). intros h i. rewrite reindex_snoc, <- (length_fmap fst l).
  apply append_index; [|by apply IH]. intros Hin. apply (Hd _ Hin). cbn. by apply list_elem_of_singleton.
Qed.

Lemma remember_dict p h pk a now k : known_ok k ->
  known_ok (remember p h pk a now k) /\ entries (remember p h pk a now k) = dict_op (KRemember p h pk a now) (entries k).
Proof.
  intros Hok. unfold remember, dict_op. rewrite <- Known_get_dict by done.
  pose proof (update_dict k h (fun e => mkKnown (f64_to_bits now) p pk a (kd_uses e)) true Hok) as Hu. destruct (position h k) as [i|] eqn:Hp.
  - destruct Hu as [Hu Hok']. split; [done|]. unfold Known_get. rewrite Hp. cbn. destruct (entries k !! i) eqn:Ei; [done|].
    apply (known_index k Hok) in Hp. rewrite list_lookup_fmap, Ei in Hp. done.
  - pose proof (position_none k h Hok Hp) as Hn. unfold Known_get. rewrite Hp. cbn. split; [|done]. destruct Hok as [Hnd Hi]. split; cbn; rewrite fmap_app.
    + apply list.NoDup_app. split; [done|]. split; [|apply NoDup_singleton]. intros x Hx ->%list_elem_of_singleton. done.
    + rewrite <- (length_fmap fst (entries k)). by apply append_index.
Qed.

Lemma mark_used_dict h now k : known_ok k -> known_ok (mark_used h now k).2 /\
  entries (mark_used h now k).2 = dict_update h (use_unless_retained (LastUsed (f64_to_bits now))) (entries k).
Proof.
  intros Hok. unfold mark_used. set (u := LastUsed _). pose proof (update_dict k h (use_unless_retained u) true Hok) as Hu.
  destruct (position h k) as [i|]; [|by split]. destruct Hu as [Hu Hok'].
  assert (forall x, entries k !! i = Some x -> (x.1, use_unless_retained u x.2) = if is_retained (kd_uses x.2) then x else with_uses u x) as Hx.
  { intros [y v] _. unfold use_unless_retained. cbn. by destruct (is_retained _). }
  destruct (from_option _ _ _) eqn:Hr; cbn [snd].
  - split; [done|]. rewrite <- Hu. rewrite (alter_at _ id); [symmetry; by apply list_alter_id|]. intros x E. rewrite (Hx x E). rewrite E in Hr. cbn in Hr. by rewrite Hr.
  - assert (alter (with_uses u) i (entries k) = alter (fun e => (e.1, use_unless_retained u e.2)) i (entries k)) as ->; [|done].
    apply alter_at. intros x E. rewrite (Hx x E). rewrite E in Hr. cbn in Hr. by rewrite Hr.
Qed.

Lemma set_uses_dict h u k : known_ok k -> known_ok (set_uses h u k).2 /\ entries (set_uses h u k).2 = dict_update h (use u) (entries k).
Proof.
  intros Hok. unfold set_uses. pose proof (update_dict k h (use u) true Hok) as Hu. destruct (position h k) as [i|]; [|by split].
  destruct Hu as [Hu Hok']. by split.
Qed.

Lemma retain_all_dict hs : forall k, known_ok k -> known_ok (retain_all hs k).2 /\
  entries (retain_all hs k).2 = (fun e => if bool_decide (e.1 ∈ hs) then (e.1, use Retained e.2) else e) <$> entries k.
Proof.
  induction hs as [|h hs IH]; intros k Hok; [split; [done|]; cbn; rewrite <- (list_fmap_id (entries k)) at 1; by apply list_fmap_ext|].
  cbn [retain_all]. destruct (set_uses_dict h Retained k Hok) as [Hok1 E1]. unfold Known_retain.
  destruct (set_uses h Retained k) as [r1 k1]. cbn [snd] in *. destruct (IH k1 Hok1) as [Hok2 E2].
  destruct (retain_all hs k1) as [r2 k2]. cbn [snd] in *. split; [done|]. rewrite E2, E1. unfold dict_update. rewrite <- list_fmap_compose.
  apply list_fmap_ext. intros i [x v] _. unfold compose. cbn [fst snd]. destruct (decide (x = h)) as [->|Hne].
  - rewrite (bool_decide_true (h = h)) by reflexivity. cbn [fst snd]. rewrite (bool_decide_true (h ∈ h :: hs)) by apply elem_of_cons, or_introl, eq_refl. by destruct (bool_decide _).
  - rewrite (bool_decide_false (x = h)) by exact Hne. cbn [fst snd]. apply (f_equal (fun b : bool => if b then _ else _)). apply bool_decide_ext.
    rewrite elem_of_cons. tauto.
Qed.

Lemma filtered_key d (P : AddressHash * KnownDestinationData -> bool) e : NoDup d.*1 -> e ∈ d -> e.1 ∈ (List.filter P d).*1 <-> P e = true.
Proof.
  intros Hnd Hed. split.
  - intros (e' & E & [Hin HP]%list_elem_of_In%List.filter_In)%list_elem_of_fmap. apply list_elem_of_In in Hin.
    assert (e = e') as ->; [|done]. apply list_elem_of_lookup_1 in Hed as [i Hi], Hin as [j Hj].
    assert (i = j) as ->; [|congruence]. eapply NoDup_lookup; [exact Hnd| |]; rewrite list_lookup_fmap; [by rewrite Hi|rewrite Hj; cbn; by rewrite E].
  - intros HP. apply list_elem_of_fmap. exists e. split; [done|]. apply list_elem_of_In, List.filter_In. split; [by apply list_elem_of_In|done].
Qed.

Lemma known_op_dict op k : known_ok k -> known_ok (known_op op k) /\ entries (known_op op k) = dict_op op (entries k).
Proof.
  intros Hok. destruct op as [p h pk a now|h now|h now|h now|h|h now|i|now has_path]; cbn [known_op dict_op].
  - by apply remember_dict.
  - unfold Known_recall, recall_no_use. rewrite Known_get_dict by done. destruct (dict_get h (entries k)) eqn:E; cbn; [by apply mark_used_dict|].
    split; [done|]. rewrite dict_update_none; [done|]. intros Hin. apply list_elem_of_lookup_1 in Hin as [i Hi].
    rewrite (dict_get_lookup _ h i) in E by (done || apply Hok). rewrite list_lookup_fmap in Hi. by destruct (entries k !! i).
  - unfold recall_app_data. rewrite Known_get_dict by done. destruct (dict_get h (entries k) ≫= kd_app_data); [by apply mark_used_dict|done].
  - by apply mark_used_dict.
  - by apply set_uses_dict.
  - by apply set_uses_dict.
  - unfold retain_identity. destruct (retain_all_dict (List.filter (fun e => bool_decide (address_hash (stored_identity (kd_public_key e.2)) = i)) (entries k)).*1 k Hok)
      as [Hok' E]. split; [done|]. rewrite E. apply list_fmap_ext. intros j e Hj. apply list_elem_of_lookup_2 in Hj.
    pose proof (filtered_key _ (fun e => bool_decide (address_hash (stored_identity (kd_public_key e.2)) = i)) e (known_nodup k Hok) Hj) as Hf.
    cbn beta in Hf. by destruct (bool_decide_reflect (e.1 ∈ (List.filter (fun e => bool_decide (address_hash (stored_identity (kd_public_key e.2)) = i)) (entries k)).*1)) as [Hin|Hin];
      destruct (bool_decide (address_hash (stored_identity (kd_public_key e.2)) = i)) eqn:Hb; [done|apply Hf in Hin|destruct Hin; by apply Hf|done].
  - unfold Known_clean. cbn [snd]. assert (List.filter (fun e => negb (bool_decide (e.1 ∈ (List.filter (is_stale_entry now has_path) (entries k)).*1))) (entries k) =
      List.filter (fun e => negb (is_stale_entry now has_path e)) (entries k)) as ->.
    { apply List.filter_ext_in. intros e Hed%list_elem_of_In. f_equal. pose proof (filtered_key _ (is_stale_entry now has_path) e (known_nodup k Hok) Hed) as Hf.
      destruct (bool_decide_reflect (e.1 ∈ (List.filter (is_stale_entry now has_path) (entries k)).*1)) as [Hin|Hin];
        destruct (is_stale_entry now has_path e) eqn:Hb; [done|by apply Hf in Hin|destruct Hin; by apply Hf|done]. }
    split; [|done]. apply reindex_ok. eapply sublist_NoDup; [apply (known_nodup k Hok)|]. apply fmap_sublist. apply filter_sublist.
Qed.

(** What the types of the source say of the arguments. *)
Definition op_wf (op : KnownOp) : Prop :=
  match op with
  | KRemember p h pk a now =>
      length h = ADDRESS_HASH_SIZE /\ valid_binary 53 1024 now = true /\ length p = HASH_SIZE /\
      length pk = (PUBLIC_KEY_LENGTH * 2)%nat /\ from_option fits32 True a
  | KRecall _ now | KAppData _ now | KMark _ now | KUnretain _ now => valid_binary 53 1024 now = true
  | KRetain _ | KRetainIdentity _ | KClean _ _ => True
  end.

Lemma dict_update_wf h f d : (forall e, known_wf e -> known_wf (e.1, f e.2)) -> Forall known_wf d -> Forall known_wf (dict_update h f d).
Proof.
  intros Hf Hd. apply Forall_fmap. eapply Forall_impl; [|exact Hd]. intros e Hwf. unfold compose. destruct (bool_decide _); [by apply Hf|done].
Qed.

Lemma use_wf u e : uses_wf u -> known_wf e -> known_wf (e.1, use u e.2).
Proof. intros Hu (A & B & C & D & E & F). by repeat split; try apply B. Qed.

Lemma use_unless_retained_wf u e : uses_wf u -> known_wf e -> known_wf (e.1, use_unless_retained u e.2).
Proof. intros Hu Hwf. unfold use_unless_retained. destruct (is_retained _); [by destruct e|by apply use_wf]. Qed.

Lemma dict_op_wf op d : op_wf op -> Forall known_wf d -> Forall known_wf (dict_op op d).
Proof.
  intros Hop Hd. destruct op as [p h pk a now|h now|h now|h now|h|h now|i|now has_path]; cbn [dict_op op_wf] in *.
  - destruct Hop as (A & B & C & D & E). pose proof (f64_bits_range now B) as Ht. destruct (dict_get h d).
    + apply dict_update_wf; [|done]. intros e (A' & _ & _ & _ & _ & F). by repeat split; try apply Ht.
    + apply Forall_app. split; [done|]. apply Forall_cons_2; [by repeat split; try apply Ht|apply Forall_nil_2].
  - apply dict_update_wf; [|done]. intros e. apply use_unless_retained_wf. by apply f64_bits_range.
  - destruct (dict_get h d ≫= kd_app_data); [|done]. apply dict_update_wf; [|done]. intros e. apply use_unless_retained_wf. by apply f64_bits_range.
  - apply dict_update_wf; [|done]. intros e. apply use_unless_retained_wf. by apply f64_bits_range.
  - apply dict_update_wf; [|done]. intros e. by apply use_wf.
  - apply dict_update_wf; [|done]. intros e. apply use_wf. by apply f64_bits_range.
  - apply Forall_fmap. eapply Forall_impl; [|exact Hd]. intros e Hwf. unfold compose. destruct (bool_decide _); [by apply use_wf|done].
  - apply List.incl_Forall with (l1 := d); [|done]. intros e He'%List.filter_In. apply He'.
Qed.

Lemma dict_op_length op d : (length (dict_op op d) <= S (length d))%nat.
Proof.
  destruct op; cbn [dict_op]; unfold dict_update; repeat case_match; rewrite ?length_fmap, ?length_app; cbn; try lia.
  pose proof (List.filter_length_le (fun e => negb (is_stale_entry now has_path e)) d). lia.
Qed.

(** An operation that leaves the dictionary clean has not changed it. *)
Lemma set_uses_clean h u k : dirty (set_uses h u k).2 = false -> (set_uses h u k).2 = k.
Proof. unfold set_uses. by destruct (position h k). Qed.

Lemma mark_used_clean h now k : dirty (mark_used h now k).2 = false -> (mark_used h now k).2 = k.
Proof. unfold mark_used. destruct (position h k); [|done]. by destruct (from_option _ _ _). Qed.

Lemma retain_all_clean hs : forall k, dirty (retain_all hs k).2 = false -> (retain_all hs k).2 = k.
Proof.
  induction hs as [|h hs IH]; intros k; [done|]. cbn [retain_all]. unfold Known_retain. pose proof (set_uses_clean h Retained k) as Hc.
  destruct (set_uses h Retained k) as [r1 k1]. specialize (IH k1). destruct (retain_all hs k1) as [r2 k2]. cbn [snd] in *.
  intros Hd. rewrite IH in * by done. by apply Hc.
Qed.

Lemma known_op_clean op k : dirty (known_op op k) = false -> dirty k = false /\ entries (known_op op k) = entries k.
Proof.
  assert (forall k', (dirty k' = false -> k' = k) -> dirty k' = false -> dirty k = false /\ entries k' = entries k) as Hid.
  { intros k' Hk' Hd. by rewrite Hk' in * by done. }
  destruct op as [p h pk a now|h now|h now|h now|h|h now|i|now has_path]; cbn [known_op].
  - unfold remember. by destruct (position h k).
  - unfold Known_recall. destruct (recall_no_use h k); [apply Hid, mark_used_clean|done].
  - unfold recall_app_data. destruct (_ ≫= _); [apply Hid, mark_used_clean|done].
  - apply Hid, mark_used_clean.
  - apply Hid, set_uses_clean.
  - apply Hid, set_uses_clean.
  - apply Hid, retain_all_clean.
  - unfold Known_clean. cbn [snd dirty entries]. intros [Hd Hnil]%orb_false_iff. split; [done|]. apply negb_false_iff, bool_decide_eq_true in Hnil.
    rewrite Hnil. generalize (entries k). intros l. induction l as [|e l IH]; [done|]. cbn. by rewrite IH.
Qed.

End Dictionary.

(** ** Operations, saves and restarts *)
Section Restart.
Context {S : Type} `{!Storage S} `{!StorageLaws S}.
Context `{Sha256} `{Hs : Signing} `{Hv : !Verifying} `{He : !Ed25519} `{Hk : !Ed25519Keys} `{X25519} `{Rmp}.

(** A restart is a new process that loads the file. *)
Inductive KnownStep :=
| Apply (op : KnownOp)
| Save
| Restart.

Definition known_step (x : KnownDestinations * S) (st : KnownStep) : KnownDestinations * S :=
  match st with
  | Apply op => (known_op op x.1, x.2)
  | Save => let '(_, k, s) := Known_save x.1 x.2 in (k, s)
  | Restart => ((Known_load Known_new x.2).2, x.2)
  end.

(** The specification: a dictionary and the one that was saved last. *)
Abbreviation Dict := (list (AddressHash * KnownDestinationData)) (only parsing).

Definition dict_step (saves : bool) (d : Dict * Dict) (st : KnownStep) : Dict * Dict :=
  match st with
  | Apply op => (dict_op op d.1, d.2)
  | Save => if saves then (d.1, d.1) else d
  | Restart => (d.2, d.2)
  end.

(** Whether a save would succeed now. *)
Definition saves (x : KnownDestinations * S) : bool := match (Known_save x.1 x.2).1.1 with Ok _ => true | Err _ => false end.

Fixpoint dict_run (sts : list KnownStep) (x : KnownDestinations * S) (d : Dict * Dict) : Dict * Dict :=
  match sts with
  | [] => d
  | st :: sts => dict_run sts (known_step x st) (dict_step (saves x) d st)
  end.

Definition step_wf (st : KnownStep) : Prop := match st with Apply op => op_wf op | _ => True end.

Record dict_ok (n : nat) (d : Dict) : Prop := {
  do_keys : NoDup d.*1;
  do_wf : Forall known_wf d;
  do_length : (length d <= n)%nat;
}.

(** The table holds the dictionary, the file the one saved last, and they are the
    same unless the table is marked as changed. *)
Record holds (n : nat) (x : KnownDestinations * S) (d : Dict * Dict) : Prop := {
  ho_ok : known_ok x.1;
  ho_entries : entries x.1 = d.1;
  ho_current : dict_ok n d.1;
  ho_saved : dict_ok n d.2;
  ho_file : match read KNOWN_DESTINATIONS_FILE x.2 with Some b => b = pack_known_destinations d.2 | None => d.2 = [] end;
  ho_clean : dirty x.1 = false -> d.1 = d.2;
}.

Lemma dict_ok_mono n n' d : (n <= n')%nat -> dict_ok n d -> dict_ok n' d.
Proof. intros Hn []. split; done || lia. Qed.

Lemma known_new_ok : known_ok Known_new.
Proof. split; [constructor|]. intros h i. cbn. by rewrite lookup_empty, lookup_nil. Qed.

(** Loading the file gives what was saved last. *)
Lemma load_saved n x d : holds n x d -> Z.of_nat n < 2 ^ 32 ->
  exists k, Known_load Known_new x.2 = (Ok tt, k) /\ entries k = d.2 /\ known_ok k /\ dirty k = false.
Proof.
  intros [_ _ _ [Hnd Hwf Hl] Hfile _] Hn. unfold Known_load. destruct (read KNOWN_DESTINATIONS_FILE x.2) as [b|].
  - subst b. destruct (known_destinations_accepts d.2 Hwf ltac:(lia)) as [-> _]. eexists. split; [done|]. split; [done|]. split; [by apply reindex_ok|done].
  - rewrite Hfile. eexists. split; [done|]. split; [done|]. split; [apply known_new_ok|done].
Qed.

Lemma save_holds n x d : holds n x d -> holds n (known_step x Save) (dict_step (saves x) d Save).
Proof.
  intros [Hok Hent Hcur Hsaved Hfile Hclean]. unfold saves. cbn [known_step dict_step]. unfold Known_save.
  destruct (negb (dirty x.1) && bool_decide (is_Some (read KNOWN_DESTINATIONS_FILE x.2))) eqn:Hc.
  - apply andb_true_iff in Hc as [Hd%negb_true_iff _]. specialize (Hclean Hd). cbn. split; try done. cbn. by rewrite Hclean.
  - destruct (write _ _ x.2) as [[[]|e] s1] eqn:Hw; cbn.
    + apply read_written in Hw. split; cbn [fst snd]; [|done..|by rewrite Hw, Hent|done]. destruct Hok as [A B]. by split.
    + split; try done. cbn. by rewrite (write_failed _ _ _ _ _ Hw).
Qed.

Lemma step_holds n x d st : holds n x d -> step_wf st -> Z.of_nat n < 2 ^ 32 ->
  holds (Datatypes.S n) (known_step x st) (dict_step (saves x) d st).
Proof.
  assert (forall x d, holds n x d -> holds (Datatypes.S n) x d) as Hmono by (intros y e []; split; try done; eapply dict_ok_mono; [|done|..|done]; lia).
  intros Hx Hst Hn. destruct st as [op| |].
  - destruct Hx as [Hok Hent Hcur Hsaved Hfile Hclean]. destruct (known_op_dict op x.1 Hok) as [Hok1 E1]. rewrite Hent in E1. destruct Hcur as [Hnd Hwf Hl].
    pose proof (dict_op_length op d.1) as Hl1. split; try done; cbn [known_step dict_step fst snd].
    + split; [rewrite <- E1; apply Hok1|by apply dict_op_wf|lia].
    + eapply dict_ok_mono; [|done]. lia.
    + intros Hd. destruct (known_op_clean op x.1 Hd) as [Hd' Ee]. rewrite <- E1, Ee, Hent. by apply Hclean.
  - by apply Hmono, save_holds.
  - destruct (load_saved n x d Hx Hn) as (k & El & Ee & Hok & Hd). apply Hmono in Hx as [_ _ _ Hsaved Hfile _].
    split; cbn [known_step dict_step fst snd]; rewrite ?El; done.
Qed.

Lemma run_holds sts : forall n x d, holds n x d -> Forall step_wf sts -> Z.of_nat (n + length sts) < 2 ^ 32 ->
  holds (n + length sts) (foldl known_step x sts) (dict_run sts x d).
Proof.
  induction sts as [|st sts IH]; intros n x d Hx Hwf Hn; [by rewrite Nat.add_0_r|]. apply Forall_cons_1 in Hwf as [Hst Hwf]. cbn [length] in *.
  rewrite Nat.add_succ_r in *. cbn [foldl dict_run]. apply (IH (Datatypes.S n)); [|done|lia]. apply step_holds; [done|done|lia].
Qed.

(** C27: known destinations are a dictionary in the order of insertion, and it
    survives restarts.  In whatever sequence operations (remember, recall, mark,
    retain, retain an identity, clean), saves that may fail, and restarts of the
    process come, with any backend that keeps what it is given, the table has the
    entries, in order, and the lookups of a list dictionary that each operation
    changes, each successful save copies and each restart replaces by its last
    copy; and a process that would start at the end has exactly that copy. *)
Theorem KnownDestinations_restart (sts : list KnownStep) (s0 : S)
    (Hwf : Forall step_wf sts) (Hlen : Z.of_nat (length sts) < 2 ^ 32) (Hnew : read KNOWN_DESTINATIONS_FILE s0 = None) :
  let '(k, s) := foldl known_step (Known_new, s0) sts in
  let '(d, saved) := dict_run sts (Known_new, s0) ([], []) in
  entries k = d /\ (forall h, Known_get h k = dict_get h d) /\
  exists k2, Known_load Known_new s = (Ok tt, k2) /\ entries k2 = saved /\ forall h, Known_get h k2 = dict_get h saved.
Proof.
  assert (holds 0 (Known_new, s0) ([], [])) as Hstart by (split; try done; [apply known_new_ok|split; [constructor..|done]|split; [constructor..|done]|cbn; by rewrite Hnew]).
  pose proof (run_holds sts 0 _ _ Hstart Hwf Hlen) as Hh. destruct (load_saved _ _ _ Hh Hlen) as (k2 & El & Ee & Hok2 & _). destruct Hh as [Hok Hent _ _ _ _].
  destruct (foldl known_step (Known_new, s0) sts) as [k s], (dict_run sts (Known_new, s0) ([], [])) as [d saved]. cbn [fst snd] in *.
  split; [done|]. split; [intros h; by rewrite Known_get_dict, Hent|]. exists k2. split; [done|]. split; [done|]. intros h. by rewrite Known_get_dict, Ee.
Qed.

(** A ratchet that was remembered is found by a process started later, until it
    expires, and remembering it has not changed the files of other destinations. *)
Theorem Ratchet_restart (h : AddressHash) (ratchet : bytes) (now later : f64) (k : gmap (list Z) (list Z * Z)) (s : S)
    (k' : gmap (list Z) (list Z * Z)) (s' : S)
    (Hlen : length ratchet = RATCHET_KEY_LENGTH) (Hnow : valid_binary 53 1024 now = true)
    (Hfresh : fst <$> k !! h <> Some ratchet) (Hrem : remember_ratchet h ratchet now k s = (Ok tt, k', s')) :
  (get_ratchet h later ∅ s').1 = (if f_le (f64_add now (f64_of_Z RATCHET_EXPIRY_SECS)) later then None else Some ratchet) /\
  (get_ratchet h later k' s').1 = (get_ratchet h later ∅ s').1 /\
  forall other, ratchet_path other <> ratchet_path h -> read (ratchet_path other) s' = read (ratchet_path other) s.
Proof.
  unfold remember_ratchet in Hrem. rewrite bool_decide_false in Hrem by done. destruct (write _ _ s) as [r s1] eqn:Hw. injection Hrem as -> <- <-.
  pose proof (read_written _ _ _ _ Hw) as Hr. unfold get_ratchet, load_ratchet. rewrite lookup_empty, Hr, lookup_insert_eq.
  destruct (ratchet_file_accepts (mkRatchetFile ratchet (f64_to_bits now)) Hlen (f64_bits_range now Hnow)) as [-> _].
  cbn [fst rf_ratchet rf_received]. rewrite !lookup_insert_eq. unfold ratchet_expired. rewrite f64_bits_roundtrip by done.
  repeat split. intros other Ho. by apply (read_other _ _ _ _ _ _ Hw).
Qed.

End Restart.

(** ** Witnesses *)
#[local] Existing Instance toy_sha256.
#[local] Existing Instance msgpack_rmp.
#[local] Existing Instance toy_x25519.
#[local] Existing Instance toy_signing.
#[local] Existing Instance toy_verifying.
#[local] Existing Instance toy_ed25519.
#[local] Existing Instance toy_keys.

(** Two destinations are saved; after a restart one of them is cleaned away and
    not saved, so the next restart has both again. *)
Definition example_steps : list KnownStep :=
  [Apply (KRemember (replicate 32 1) (replicate 16 7) (replicate 64 2) (Some [104; 105]) (f64_of_Z 1000));
   Apply (KRemember (replicate 32 2) (replicate 16 8) (replicate 64 3) None (f64_of_Z 1001)); Save; Restart;
   Apply (KRecall (replicate 16 7) (f64_of_Z 1500)); Apply (KClean (f64_of_Z 2000) (fun _ => false))].

Lemma KnownDestinations_restart_witness :
  let '(k, s) := foldl known_step (Known_new, ∅ : MemoryStorage) example_steps in
  (entries k).*1 = [replicate 16 7] /\ exists k2, Known_load Known_new s = (Ok tt, k2) /\ (entries k2).*1 = [replicate 16 7; replicate 16 8].
Proof.
  assert (Forall step_wf example_steps) as Hwf by (repeat constructor; unfold fits32; cbn; lia).
  pose proof (KnownDestinations_restart example_steps (∅ : MemoryStorage) Hwf ltac:(cbn; lia) eq_refl) as T.
  assert ((dict_run example_steps (Known_new, ∅ : MemoryStorage) ([], [])).1.*1 = [replicate 16 7]) as E1 by (vm_compute; reflexivity).
  assert ((dict_run example_steps (Known_new, ∅ : MemoryStorage) ([], [])).2.*1 = [replicate 16 7; replicate 16 8]) as E2 by (vm_compute; reflexivity).
  destruct (foldl known_step _ example_steps) as [k s], (dict_run example_steps _ _) as [d saved]. cbn [fst snd] in E1, E2.
  destruct T as (-> & _ & k2 & El & Ee & _). split; [exact E1|]. exists k2. split; [exact El|]. rewrite Ee. exact E2.
Defined.

Lemma Ratchet_restart_witness :
  let '(r, k', s') := remember_ratchet (replicate 16 7) (replicate 32 5) (f64_of_Z 1000) ∅ (∅ : MemoryStorage) in
  r = Ok tt /\ (get_ratchet (replicate 16 7) (f64_of_Z 2000) ∅ s').1 = Some (replicate 32 5).
Proof.
  destruct (remember_ratchet (replicate 16 7) (replicate 32 5) (f64_of_Z 1000) ∅ (∅ : MemoryStorage)) as [[r k'] s'] eqn:E.
  assert (r = Ok tt) as -> by (injection E as <- _ _; reflexivity). split; [reflexivity|].
  destruct (Ratchet_restart (replicate 16 7) (replicate 32 5) (f64_of_Z 1000) (f64_of_Z 2000) ∅ (∅ : MemoryStorage) k' s' eq_refl eq_refl ltac:(rewrite lookup_empty; discriminate) E)
    as [-> _]. vm_compute. reflexivity.
Defined.
