(* ===== verification/Blackholes.v ===== *)
(** * Blackholed identities ([src/src/transport/blackholes.rs])

    The table of identities whose announces and paths are dropped, its packed
    form, which is also what nodes publish, and its files.  Times are bit patterns
    of [f64] seconds, reasons the bytes of their text. *)

From Stdlib Require Import Floats.SpecFloat.
From S2P Require Import Prelude Float Crypto Hash Packet Identity Msgpack Destination Storage Resource ResourceManager.

(** [blackhole] and [local] *)
Definition BLACKHOLE_DIR : bytes := [98; 108; 97; 99; 107; 104; 111; 108; 101].
Definition LOCAL_FILE : bytes := [108; 111; 99; 97; 108].

Definition key_source : bytes := [115; 111; 117; 114; 99; 101].
Definition key_until : bytes := [117; 110; 116; 105; 108].
Definition key_reason : bytes := [114; 101; 97; 115; 111; 110].

(** ** Text

    [core::str::from_utf8]: the byte sequences that are valid UTF-8. *)
Definition continuation (b : Z) : bool := (0x80 <=? b) && (b <=? 0xbf).

Fixpoint utf8_valid (d : bytes) : bool :=
  match d with
  | [] => true
  | a :: d1 =>
      if a <? 0x80 then utf8_valid d1
      else match d1 with
           | [] => false
           | b :: d2 =>
               if (0xc2 <=? a) && (a <=? 0xdf) then continuation b && utf8_valid d2
               else match d2 with
                    | [] => false
                    | c :: d3 =>
                        if (0xe0 <=? a) && (a <=? 0xef) then
                          ((if a =? 0xe0 then 0xa0 <=? b else 0x80 <=? b) && (if a =? 0xed then b <=? 0x9f else b <=? 0xbf))
                          && continuation c && utf8_valid d3
                        else match d3 with
                             | [] => false
                             | e :: d4 =>
                                 if (0xf0 <=? a) && (a <=? 0xf4) then
                                   ((if a =? 0xf0 then 0x90 <=? b else 0x80 <=? b) && (if a =? 0xf4 then b <=? 0x8f else b <=? 0xbf))
                                   && continuation c && continuation e && utf8_valid d4
                                 else false
                             end
                    end
           end
  end.

(** [rmp::decode::read_str_len] on a cursor. *)
Class RmpStr := {
  rmp_str_len : bytes -> option (Z * bytes);
  rmp_str_len_spec : forall n rest, 0 <= n < 2 ^ 32 -> rmp_str_len (msgpack_str_header n ++ rest) = Some (n, rest);
}.

(** ** The table *)
Record BlackholeEntry := mkBlackhole {
  bh_source : AddressHash;
  bh_until : option Z;
  bh_reason : option bytes;
}.

Record Blackholes := mkBlackholes {
  bh_entries : gmap AddressHash BlackholeEntry;
  bh_publish : bool;
}.

Definition Blackholes_new (publish : bool) : Blackholes := mkBlackholes ∅ publish.

Definition with_entries (m : gmap AddressHash BlackholeEntry) (b : Blackholes) : Blackholes := mkBlackholes m (bh_publish b).

Definition blackhole (identity source : AddressHash) (until : option Z) (reason : option bytes) (b : Blackholes) : Blackholes :=
  with_entries (<[identity := mkBlackhole source until reason]> (bh_entries b)) b.

Definition unblackhole (identity : AddressHash) (b : Blackholes) : bool * Blackholes :=
  (bool_decide (is_Some (bh_entries b !! identity)), with_entries (delete identity (bh_entries b)) b).

Definition is_blackholed (identity : AddressHash) (b : Blackholes) : bool := bool_decide (is_Some (bh_entries b !! identity)).

Definition blackholed_identities (b : Blackholes) : list AddressHash := (btree_iter bytes_le (bh_entries b)).*1.

(** [now < until] *)
Definition in_force (now : f64) (e : BlackholeEntry) : bool :=
  match bh_until e with None => true | Some until => f_lt now (f64_from_bits until) end.

(** [now >= until] *)
Definition has_expired (now : f64) (e : BlackholeEntry) : bool :=
  match bh_until e with None => false | Some until => f_le (f64_from_bits until) now end.

Definition Blackholes_clean (now : f64) (b : Blackholes) : nat * Blackholes :=
  let m := filter (fun e : AddressHash * BlackholeEntry => in_force now e.2 = true) (bh_entries b) in
  ((size (bh_entries b) - size m)%nat, with_entries m b).

(** ** The packed form *)
Section Packed.
Context `{Rmp} `{RmpCursor} `{RmpStr} `{Manager.Rmpv}.

Definition pack_entry (e : BlackholeEntry) : bytes :=
  write_map_len 3 ++ write_str key_source ++ write_bin (bh_source e) ++
  write_str key_until ++ (match bh_until e with Some until => write_f64 until | None => write_nil end) ++
  write_str key_reason ++ (match bh_reason e with Some reason => write_str reason | None => write_nil end).

Definition pack_entries (l : list (AddressHash * BlackholeEntry)) : bytes :=
  write_map_len (wrap 32 (Z.of_nat (length l))) ++ concat ((fun x => write_bin x.1 ++ pack_entry x.2) <$> l).

Definition pack_table (b : Blackholes) : bytes := pack_entries (btree_iter bytes_le (bh_entries b)).

Definition read_str_raw (c : bytes) : option (bytes * bytes) :=
  '(len, c) ← rmp_str_len c;
  if Z.of_nat (length c) <? len then None
  else let d := take (Z.to_nat len) c in if utf8_valid d then Some (d, drop (Z.to_nat len) c) else None.

Definition as_str (v : Value) : option bytes :=
  match v with VStr d => if utf8_valid d then Some d else None | _ => None end.

(** The fields found so far. *)
Fixpoint parse_fields (n : nat) (c : bytes) (source : option AddressHash) (until : option Z) (reason : option bytes)
    : option (BlackholeEntry * bytes) :=
  match n with
  | O => s ← source; Some (mkBlackhole s until reason, c)
  | S n' =>
      '(key, c) ← read_str_raw c;
      '(v, c) ← Manager.read_value c;
      if decide (key = key_source) then
        match v with
        | VBin d => if (length d =? ADDRESS_HASH_SIZE)%nat then parse_fields n' c (Some d) until reason else None
        | _ => None
        end
      else if decide (key = key_until) then parse_fields n' c source (f64_to_bits <$> Manager.as_f64 v) reason
      else if decide (key = key_reason) then parse_fields n' c source until (as_str v)
      else parse_fields n' c source until reason
  end.

Definition parse_entry (c : bytes) : option (BlackholeEntry * bytes) :=
  '(count, c) ← rmp_map_len c; parse_fields (Z.to_nat count) c None None None.

Fixpoint parse_rows (n : nat) (c : bytes) : option (list (AddressHash * BlackholeEntry)) :=
  match n with
  | O => Some []
  | S n' =>
      '(len, c) ← rmp_bin_len c;
      if negb (len =? 16) || (Z.of_nat (length c) <? len) then None
      else
        '(e, c') ← parse_entry (drop (Z.to_nat len) c);
        rows ← parse_rows n' c';
        Some ((take (Z.to_nat len) c, e) :: rows)
  end.

Definition parse_table (packed : bytes) : option (list (AddressHash * BlackholeEntry)) :=
  '(count, c) ← rmp_map_len packed; parse_rows (Z.to_nat count) c.

Definition set_source (source : AddressHash) (e : BlackholeEntry) : BlackholeEntry := mkBlackhole source (bh_until e) (bh_reason e).

Definition merge_row (publisher : AddressHash) (x : nat * Blackholes) (row : AddressHash * BlackholeEntry) : nat * Blackholes :=
  match bh_entries x.2 !! row.1 with
  | Some _ => x
  | None => (S x.1, with_entries (<[row.1 := set_source publisher row.2]> (bh_entries x.2)) x.2)
  end.

Definition merge_table (packed : bytes) (publisher : AddressHash) (b : Blackholes) : nat * Blackholes :=
  match parse_table packed with
  | None => (0%nat, b)
  | Some rows => foldl (merge_row publisher) (0%nat, b) rows
  end.

(** ** Files *)
Context {S : Type} `{!Storage S}.

Definition persist_local (own : AddressHash) (b : Blackholes) (s : S) : result unit * S :=
  write (BLACKHOLE_DIR ++ [47] ++ LOCAL_FILE)
    (pack_entries (List.filter (fun e => bool_decide (bh_source e.2 = own)) (btree_iter bytes_le (bh_entries b)))) s.

Definition hex_value (c : Z) : option Z :=
  if (48 <=? c) && (c <=? 57) then Some (c - 48)
  else if (97 <=? c) && (c <=? 102) then Some (c - 97 + 10)
  else if (65 <=? c) && (c <=? 70) then Some (c - 65 + 10) else None.

(** [bytes.chunks(2)], of an even number of bytes. *)
Fixpoint decode_hex (d : bytes) : option bytes :=
  match d with
  | [] => Some []
  | [_] => None
  | a :: b :: d' =>
      x ← hex_value a;
      y ← hex_value b;
      rest ← decode_hex d';
      Some (Z.lor (Z.shiftl x 4) y :: rest)
  end.

Definition hex_to_hash (name : bytes) : option AddressHash :=
  d ← decode_hex name; if (length d =? ADDRESS_HASH_SIZE)%nat then Some d else None.

Definition file_source (own : AddressHash) (allowed : list AddressHash) (name : bytes) : option AddressHash :=
  if decide (name = LOCAL_FILE) then Some own
  else source ← hex_to_hash name; if decide (source ∈ allowed) then Some source else None.

Definition reload_row (now : f64) (own source : AddressHash) (x : nat * Blackholes) (row : AddressHash * BlackholeEntry) : nat * Blackholes :=
  if has_expired now row.2 then x
  else match bh_entries x.2 !! row.1 with
       | Some existing => if bool_decide (bh_source existing = own) then x
                          else (Datatypes.S x.1, with_entries (<[row.1 := set_source source row.2]> (bh_entries x.2)) x.2)
       | None => (Datatypes.S x.1, with_entries (<[row.1 := set_source source row.2]> (bh_entries x.2)) x.2)
       end.

Definition reload_file (now : f64) (own : AddressHash) (allowed : list AddressHash) (s : S) (x : nat * Blackholes) (name : bytes) : nat * Blackholes :=
  match file_source own allowed name with
  | None => x
  | Some source =>
      match read (BLACKHOLE_DIR ++ [47] ++ name) s ≫= parse_table with
      | None => x
      | Some rows => foldl (reload_row now own source) x rows
      end
  end.

Definition reload (now : f64) (own : AddressHash) (allowed : list AddressHash) (s : S) (b : Blackholes) : nat * Blackholes :=
  foldl (reload_file now own allowed s) (0%nat, b) (list_dir BLACKHOLE_DIR s).

(** ** Lemmas *)

(** What the types of the source say of an entry. *)
Definition row_wf (x : AddressHash * BlackholeEntry) : Prop :=
  length x.1 = ADDRESS_HASH_SIZE /\ length (bh_source x.2) = ADDRESS_HASH_SIZE /\
  (forall u, bh_until x.2 = Some u -> exists v, valid_binary 53 1024 v = true /\ u = f64_to_bits v) /\
  (forall r, bh_reason x.2 = Some r -> utf8_valid r = true /\ fits32 r).

Lemma read_str_raw_written key rest : utf8_valid key = true -> fits32 key ->
  read_str_raw (write_str key ++ rest) = Some (key, rest).
Proof.
  intros Hu Hf. unfold fits32 in Hf. unfold read_str_raw. rewrite write_str_spec by done. rewrite <- app_assoc, rmp_str_len_spec by lia. cbn.
  rewrite length_app. destruct (Z.ltb_spec (Z.of_nat (length key + length rest)) (Z.of_nat (length key))); [lia|].
  rewrite Nat2Z.id, take_app_length, drop_app_length, Hu. done.
Qed.

Lemma read_written_value enc v rest : enc = encode_value v -> value_wf v = true -> (Manager.value_depth v < 1024)%nat ->
  match v with VNil | VStr _ | VBin _ => True | VF64 b => 0 <= b < 2 ^ 64 | _ => False end ->
  Manager.read_value (enc ++ rest) = Some (v, rest).
Proof.
  intros -> Hwf Hd Hk. destruct (Manager.read_value_spec v rest Hwf Hd) as (v' & -> & Hr). destruct v; try done; cbn in Hr; subst; first [done|by rewrite wrap_small].
Qed.

Lemma parse_entry_written k e rest : row_wf (k, e) -> parse_entry (pack_entry e ++ rest) = Some (e, rest).
Proof.
  intros (_ & Hs & Hu & Hr). destruct e as [source until reason]. cbn [fst snd bh_source bh_until bh_reason] in *.
  unfold parse_entry, pack_entry. cbn [bh_source bh_until bh_reason]. rewrite <- !app_assoc, write_map_len_spec by lia. rewrite rmp_map_len_spec by lia. cbn [mbind option_bind].
  change (Z.to_nat 3) with 3%nat. cbn [parse_fields]. rewrite read_str_raw_written by done. cbn [mbind option_bind].
  rewrite (read_written_value _ (VBin source)); cbn; [|rewrite write_bin_spec by (rewrite Hs; done); done|rewrite Hs; done|lia|done].
  rewrite Hs. cbn [Nat.eqb ADDRESS_HASH_SIZE]. rewrite read_str_raw_written by done. cbn [mbind option_bind].
  assert (exists v, (forall tail, Manager.read_value ((match until with Some u => write_f64 u | None => write_nil end) ++ tail) = Some (v, tail)) /\
    f64_to_bits <$> Manager.as_f64 v = until) as (v & -> & Ev).
  { destruct until as [u|].
    - destruct (Hu u eq_refl) as (x & Hx & ->). pose proof (f64_bits_range x Hx) as Hb. exists (VF64 (f64_to_bits x)). split.
      + intros tail. apply read_written_value; cbn; [by rewrite write_f64_spec|done|lia|done].
      + cbn. by rewrite f64_bits_roundtrip.
    - exists VNil. split; [|done]. intros tail. apply read_written_value; cbn; [by rewrite write_nil_spec|done|lia|done]. }
  cbn [mbind option_bind]. rewrite Ev. rewrite (decide_False (P := key_until = key_source)) by done. rewrite decide_True by done.
  rewrite read_str_raw_written by done. cbn [mbind option_bind].
  assert (exists v, (forall tail, Manager.read_value ((match reason with Some r => write_str r | None => write_nil end) ++ tail) = Some (v, tail)) /\
    as_str v = reason) as (w & -> & Ew).
  { destruct reason as [r|].
    - destruct (Hr r eq_refl) as [Hv Hf]. exists (VStr r). split; [|cbn; by rewrite Hv].
      intros tail. unfold fits32 in Hf. apply read_written_value; cbn; [by rewrite write_str_spec|by apply Z.ltb_lt|lia|done].
    - exists VNil. split; [|done]. intros tail. apply read_written_value; cbn; [by rewrite write_nil_spec|done|lia|done]. }
  cbn [mbind option_bind]. rewrite (decide_False (P := key_reason = key_source)) by done. rewrite (decide_False (P := key_reason = key_until)) by done.
  rewrite decide_True by done. by rewrite Ew.
Qed.

Lemma parse_table_written l : Forall row_wf l -> Z.of_nat (length l) < 2 ^ 32 -> parse_table (pack_entries l) = Some l.
Proof.
  intros Hwf Hl. unfold parse_table, pack_entries. rewrite wrap_small by (unfold in_width; lia). rewrite write_map_len_spec, rmp_map_len_spec by lia.
  cbn [mbind option_bind]. rewrite Nat2Z.id. clear Hl. induction Hwf as [|[k e] l Hx Hl IH]; [done|]. rewrite fmap_cons. cbn [length parse_rows concat fst snd].
  destruct Hx as (Hk & Hx). cbn [fst] in Hk. rewrite write_bin_spec by (rewrite Hk; done). rewrite <- !app_assoc, rmp_bin_len_spec by (rewrite Hk; unfold ADDRESS_HASH_SIZE; lia).
  cbn [mbind option_bind]. rewrite Hk. cbn [Z.of_nat ADDRESS_HASH_SIZE]. rewrite Z.eqb_refl. cbn [negb orb]. rewrite length_app, Hk.
  match goal with |- context [?x <? ?y] => destruct (Z.ltb_spec x y) as [Hlt|_]; [unfold ADDRESS_HASH_SIZE in Hlt; lia|] end.
  rewrite Nat2Z.id, drop_app_length', take_app_length' by done.
  rewrite (parse_entry_written k e _) by by split. cbn [mbind option_bind]. rewrite IH. cbn [option_bind mbind]. reflexivity.
Qed.

Lemma merge_rows publisher rows : forall n b, NoDup rows.*1 ->
  bh_entries (foldl (merge_row publisher) (n, b) rows).2 = bh_entries b ∪ (set_source publisher <$> list_to_map rows).
Proof.
  induction rows as [|[k e] rows IH]; intros n b Hnd; [cbn; by rewrite fmap_empty, (right_id_L ∅ (∪))|].
  rewrite fmap_cons in Hnd. apply list.NoDup_cons in Hnd as [Hk Hnd]. cbn [foldl]. unfold merge_row at 2. cbn [fst snd].
  cbn [list_to_map foldr fst snd]. rewrite fmap_insert. apply map_eq. intros j. destruct (bh_entries b !! k) as [old|] eqn:Ek.
  - rewrite IH by done. rewrite !lookup_union. destruct (decide (j = k)) as [->|Hne]; [by rewrite Ek, !union_Some_l|by rewrite lookup_insert_ne].
  - rewrite IH by done. cbn [bh_entries with_entries]. rewrite !lookup_union. destruct (decide (j = k)) as [->|Hne]; [|by rewrite !lookup_insert_ne by done].
    rewrite Ek, !lookup_insert_eq. by destruct ((set_source publisher <$> list_to_map rows) !! k).
Qed.

Lemma merge_rows_count publisher rows : forall n b,
  let '(n', b') := foldl (merge_row publisher) (n, b) rows in (n' + size (bh_entries b) = n + size (bh_entries b'))%nat.
Proof.
  induction rows as [|[k e] rows IH]; intros n b; [done|]. cbn [foldl]. unfold merge_row at 2. cbn [fst snd]. destruct (bh_entries b !! k) as [old|] eqn:Ek; [apply IH|].
  specialize (IH (Datatypes.S n) (with_entries (<[k := set_source publisher e]> (bh_entries b)) b)).
  destruct (foldl _ _ rows) as [n' b']. cbn [bh_entries with_entries] in IH. rewrite map_size_insert_None in IH by done. lia.
Qed.

(** C29: a published blackhole list is read as it was written, and does what it
    should at the nodes that fetch it: every identity that was not yet blackholed
    there becomes blackholed, until and for the reason the publisher gave, with
    the publisher, and not the source of the published entry, as its source;
    entries that were there, local ones in particular, are not replaced; and the
    number reported is the number of new ones. *)
Theorem Blackholes_publish (a b : Blackholes) (publisher : AddressHash)
    (Hwf : Forall row_wf (btree_iter bytes_le (bh_entries a))) (Hsize : Z.of_nat (size (bh_entries a)) < 2 ^ 32) :
  parse_table (pack_table a) = Some (btree_iter bytes_le (bh_entries a)) /\
  let '(merged, b') := merge_table (pack_table a) publisher b in
  bh_entries b' = bh_entries b ∪ (set_source publisher <$> bh_entries a) /\
  merged = (size (bh_entries b') - size (bh_entries b))%nat.
Proof.
  unfold merge_table, pack_table. pose proof (btree_iter_length bytes_le (bh_entries a)) as Hlen.
  rewrite parse_table_written by (done || lia). split; [done|]. pose proof (merge_rows publisher _ 0 b (NoDup_btree_iter_keys bytes_le (bh_entries a))) as Hm.
  pose proof (merge_rows_count publisher (btree_iter bytes_le (bh_entries a)) 0 b) as Hc. rewrite btree_iter_to_map in Hm.
  destruct (foldl _ _ _) as [n b']. cbn [snd] in Hm. split; [done|lia].
Qed.

(** Reloading never touches what this node blackholed itself, and adds only what
    has not expired, from its own file or one of a trusted source. *)
Theorem Blackholes_reload (now : f64) (own : AddressHash) (allowed : list AddressHash) (s : S) (b : Blackholes) (k : AddressHash) :
  let b' := (reload now own allowed s b).2 in
  (forall e, bh_entries b !! k = Some e -> bh_source e = own -> bh_entries b' !! k = Some e) /\
  (forall e, bh_entries b' !! k = Some e -> bh_entries b !! k = Some e \/
     (has_expired now e = false /\ (bh_source e = own \/ bh_source e ∈ allowed))).
Proof.
  set (good := fun b' : Blackholes => (forall e, bh_entries b !! k = Some e -> bh_source e = own -> bh_entries b' !! k = Some e) /\
    (forall e, bh_entries b' !! k = Some e -> bh_entries b !! k = Some e \/ (has_expired now e = false /\ (bh_source e = own \/ bh_source e ∈ allowed)))).
  change (good (reload now own allowed s b).2). unfold reload.
  assert (forall source rows x, source = own \/ source ∈ allowed -> good x.2 -> good (foldl (reload_row now own source) x rows).2) as Hrows.
  { intros source rows. induction rows as [|[j e] rows IH]; intros x Hsrc Hg; [done|]. cbn [foldl]. apply IH; [done|]. unfold reload_row. cbn [fst snd].
    destruct (has_expired now e) eqn:Hexp; [done|]. set (x' := (Datatypes.S x.1, _)).
    assert ((bh_entries x.2 !! j = None \/ exists old, bh_entries x.2 !! j = Some old /\ bh_source old <> own) -> good x'.2) as Hin.
    { intros Hj. destruct Hg as [G1 G2]. split; cbn [x' snd bh_entries with_entries]; intros e' He'.
      - intros Ho. rewrite lookup_insert_ne; [by apply G1|]. intros <-. specialize (G1 e' He' Ho). destruct Hj as [?|(old & ? & ?)]; congruence.
      - destruct (decide (j = k)) as [->|Hne]; [|rewrite lookup_insert_ne in He' by done; by apply G2].
        rewrite lookup_insert_eq in He'. injection He' as <-. right. done. }
    destruct (bh_entries x.2 !! j) as [old|] eqn:Ej; [|apply Hin; by left]. case_bool_decide as Ho; [done|]. apply Hin. right. by exists old. }
  assert (good (0%nat, b).2) as Hg by (split; auto). revert Hg. generalize (0%nat, b). induction (list_dir BLACKHOLE_DIR s) as [|name names IH]; intros x Hg; [done|].
  cbn [foldl]. apply IH. unfold reload_file. destruct (file_source own allowed name) as [source|] eqn:Hsrc; [|done].
  destruct (read _ s ≫= parse_table) as [rows|]; [|done]. apply Hrows; [|done]. unfold file_source in Hsrc.
  case_decide; [left; congruence|]. destruct (hex_to_hash name); [|done]. cbn in Hsrc. case_decide; [|done]. right. congruence.
Qed.

End Packed.

(** ** Witnesses *)
Definition toy_rmp_str : RmpStr.
Proof.
  refine {| rmp_str_len := cursor_of (n ← read_bin_len; mret (Z.of_nat n)) |}.
  intros n rest Hn. apply cursor_of_reads. rewrite <- (Z2Nat.id n) at 2 by lia. by apply reads_map, reads_str_len.
Defined.

#[local] Existing Instance msgpack_rmp.
#[local] Existing Instance toy_cursor.
#[local] Existing Instance toy_rmp_str.
#[local] Existing Instance toy_rmpv.

Definition sample_blackholes : Blackholes :=
  blackhole (replicate 16 1) (replicate 16 9) (Some (f64_to_bits (f64_of_Z 1800000000))) (Some [115; 112; 97; 109])
    (blackhole (replicate 16 2) (replicate 16 9) None None (Blackholes_new true)).

Lemma Blackholes_publish_witness :
  let b := blackhole (replicate 16 2) (replicate 16 7) None None (Blackholes_new false) in
  let '(merged, b') := merge_table (pack_table sample_blackholes) (replicate 16 9) b in
  bh_entries b' !! replicate 16 2 = Some (mkBlackhole (replicate 16 7) None None) /\ merged = 1%nat.
Proof.
  intros b. assert (Forall row_wf (btree_iter bytes_le (bh_entries sample_blackholes))) as Hwf.
  { apply list.Forall_forall. intros [k e] Hin. apply elem_of_btree_iter in Hin. cbn [fst snd] in Hin. unfold sample_blackholes in Hin.
    cbn [bh_entries blackhole with_entries Blackholes_new] in Hin. apply lookup_insert_Some in Hin as [[<- <-]|[_ Hin]].
    - split_and!; [done|done| |]; cbn; [intros u [= <-]; exists (f64_of_Z 1800000000); by split|intros r [= <-]; by split].
    - apply lookup_insert_Some in Hin as [[<- <-]|[_ Hin]]; [|by rewrite lookup_empty in Hin]. by split_and!. }
  pose proof (proj2 (Blackholes_publish sample_blackholes b (replicate 16 9) Hwf eq_refl)) as T. destruct (merge_table _ _ b) as [merged b']. destruct T as [E ->].
  rewrite E. split; [reflexivity|]. vm_compute. reflexivity.
Defined.
