(* ===== verification/Inbound.v ===== *)
(** * Inbound queues, filters and receipts ([src/src/transport.rs])

    The parts of the transport that work on their own data: the prioritized
    inbound queues, the early packet filter, the receipts of sent packets and the
    memory of radio readings. *)

From S2P Require Import Prelude Float Crypto Hash Packet Identity.

Record RxMessage := mkRx {
  rx_address : AddressHash;
  rx_packet : Packet;
}.

(** ** Inbound queues *)
Inductive TrafficClass := TcData | TcAnnounce | TcPathRequest | TcIngressLimited.

#[export] Instance TrafficClass_eq_dec : EqDecision TrafficClass.
Proof. solve_decision. Defined.

(** [class as usize] *)
Definition class_index (c : TrafficClass) : nat :=
  match c with TcData => 0 | TcAnnounce => 1 | TcPathRequest => 2 | TcIngressLimited => 3 end.

Definition INBOUND_QUEUE_LENGTHS : list nat := [1024; 128; 128; 8]%nat.

Record InboundQueues := mkQueues {
  queues : list (list RxMessage);
  sizes : list nat;
  dropped : list Z;
}.

Definition InboundQueues_new (sizes : list nat) : InboundQueues :=
  mkQueues (replicate 4 []) (zip_with (fun s d => if (s =? 0)%nat then d else s) sizes INBOUND_QUEUE_LENGTHS) (replicate 4 0).

Definition put (c : TrafficClass) (item : RxMessage) (q : InboundQueues) : bool * InboundQueues :=
  let i := class_index c in
  let l := nth i (queues q) [] in
  if (nth i (sizes q) 0 <=? length l)%nat then (false, mkQueues (queues q) (sizes q) (alter (fun n => n + 1) i (dropped q)))
  else (true, mkQueues (<[i := l ++ [item]]> (queues q)) (sizes q) (dropped q)).

(** The loop over the queues: the first item of the first that has one. *)
Fixpoint pop_first (l : list (list RxMessage)) : option (RxMessage * list (list RxMessage)) :=
  match l with
  | [] => None
  | (item :: rest) :: l' => Some (item, rest :: l')
  | [] :: l' => '(item, l'') ← pop_first l'; Some (item, [] :: l'')
  end.

Definition get (q : InboundQueues) : option (RxMessage * InboundQueues) :=
  '(item, l) ← pop_first (queues q); Some (item, mkQueues l (sizes q) (dropped q)).

Definition snapshot (q : InboundQueues) : nat * list nat * list Z :=
  let heights := length <$> queues q in (sum_list heights, heights, dropped q).

(** [while let Some(item) = queues.get()]: one round for each queued item. *)
Fixpoint drain_loop (fuel : nat) (q : InboundQueues) : list RxMessage * InboundQueues :=
  match fuel with
  | O => ([], q)
  | S n => match get q with
           | None => ([], q)
           | Some (item, q) => let '(out, q) := drain_loop n q in (item :: out, q)
           end
  end.

Definition drain_queues (q : InboundQueues) : list RxMessage * InboundQueues :=
  drain_loop (S (sum_list (length <$> queues q))) q.

Definition classify (p : Packet) (path_request_dest : AddressHash) (ingress_limited : bool) : TrafficClass :=
  if bool_decide (packet_type (header p) = Announce) then TcAnnounce
  else if bool_decide (packet_type (header p) = Data) && bool_decide (destination p = path_request_dest)
  then if ingress_limited then TcIngressLimited else TcPathRequest
  else TcData.

Definition enqueue_and_drain (incoming : RxMessage) (q : InboundQueues) : list RxMessage * InboundQueues :=
  drain_queues (put (classify (rx_packet incoming) (replicate ADDRESS_HASH_SIZE 0) false) incoming q).2.

(** A batch as the packet task queues it. *)
Definition put_all (batch : list (TrafficClass * RxMessage)) (q : InboundQueues) : InboundQueues :=
  foldl (fun q x => (put x.1 x.2 q).2) q batch.

(** ** Filters *)
Definition packet_filter_violation (p : Packet) : option string :=
  let h := header p in
  match destination_type h with
  | Plain =>
      if negb (bool_decide (packet_type h = Announce))
      then if 1 <? hops h then Some "Transported PLAIN packet with hops > 1"%string else None
      else Some "Announce packet with PLAIN type"%string
  | Group =>
      if negb (bool_decide (packet_type h = Announce))
      then if 1 <? hops h then Some "Transported GROUP packet with hops > 1"%string else None
      else Some "Announce packet with GROUP type"%string
  | _ => None
  end.

Definition packet_filter (p : Packet) : bool := bool_decide (packet_filter_violation p = None).

Definition ingress_exempt_kind (kind : string) : bool :=
  bool_decide (kind ∈ ["KissInterface"; "SerialInterface"; "RnodeInterface"; "RnodeMultiInterface"]%string).

Definition announced_identity_hash `{Sha256} `{Hs : Signing} `{Hv : !Verifying} `{He : !Ed25519} `{Hk : !Ed25519Keys} (p : Packet) : option AddressHash :=
  let d := payload p in
  if (length d <? 64)%nat then None else Some (address_hash (identity_of_keys (take 32 d) (slice 32 64 d))).

(** ** Timeouts *)
Definition TIMEOUT_PER_HOP : Z := 6 * NANOS.

(** [None]: [Duration::from_secs_f64] panics. *)
Definition first_hop_timeout (bitrate : Z) : option Z :=
  if bitrate =? 0 then Some (6 * NANOS)
  else from_secs_f64 (f64_add (f64_mul (f64_of_Z PROTOCOL_MTU) (f64_div (f64_of_Z 8) (f64_of_Z bitrate))) (f64_of_Z 6)).

(** A round trip of a full packet on the slowest interface. *)
Definition medium_timeout (bitrate : Z) : option Z :=
  from_secs_f64 (f64_add (f64_mul (f64_of_Z 2)
    (f64_div (f64_mul (f64_of_Z PROTOCOL_MTU) (f64_of_Z 8)) (f64_max (f64_of_Z bitrate) (f64_of_Z 5)))) (f64_of_Z 6)).

(** ** Receipts *)
Inductive ReceiptStatus := ReceiptFailed | ReceiptSent | ReceiptDelivered | ReceiptCulled.

#[export] Instance ReceiptStatus_eq_dec : EqDecision ReceiptStatus.
Proof. solve_decision. Defined.

Record PacketReceiptInfo := mkReceiptInfo {
  ri_status : ReceiptStatus;
  ri_timeout : option Z;
  ri_rtt : option Z;
}.

Record PacketReceipt := mkReceipt {
  rc_destination : AddressHash;
  rc_packet_hash : Hash;
  rc_identity : Identity;
  rc_sent_at : Z;
  rc_timeout : option Z;
  rc_status : ReceiptStatus;
  rc_concluded_at : option Z;
}.

Abbreviation Receipts := (gmap (list Z) PacketReceipt) (only parsing).

Definition MAX_RECEIPTS : nat := 1024.
Definition RECEIPT_CONCLUDED_GRACE : Z := 5 * NANOS.

Definition conclude (s : ReceiptStatus) (now : Z) (r : PacketReceipt) : PacketReceipt :=
  mkReceipt (rc_destination r) (rc_packet_hash r) (rc_identity r) (rc_sent_at r) (rc_timeout r) s (Some now).

Definition set_timeout (timeout : option Z) (r : PacketReceipt) : PacketReceipt :=
  mkReceipt (rc_destination r) (rc_packet_hash r) (rc_identity r) (rc_sent_at r) timeout (rc_status r) (rc_concluded_at r).

(** [checked_duration_since] is [None] for an earlier time. *)
Definition receipt_info (r : PacketReceipt) : PacketReceiptInfo :=
  mkReceiptInfo (rc_status r) (rc_timeout r)
    (rc_concluded_at r ≫= fun at_ => if rc_sent_at r <=? at_ then Some (at_ - rc_sent_at r) else None).

Definition is_sent (r : PacketReceipt) : bool := bool_decide (rc_status r = ReceiptSent).

Definition timed_out (now : Z) (r : PacketReceipt) : bool :=
  match rc_timeout r with None => true | Some timeout => timeout <=? Z.max 0 (now - rc_sent_at r) end.

Definition check_receipt (now : Z) (r : PacketReceipt) : PacketReceipt :=
  if is_sent r && timed_out now r
  then conclude (if bool_decide (rc_timeout r = None) then ReceiptCulled else ReceiptFailed) now r else r.

Definition readable (now : Z) (r : PacketReceipt) : bool :=
  is_sent r || match rc_concluded_at r with Some at_ => Z.max 0 (now - at_) <? RECEIPT_CONCLUDED_GRACE | None => false end.

(** [min_by_key]: the first of the entries with the least value. *)
Fixpoint min_by_key {A} (f : A -> Z) (l : list A) : option A :=
  match l with
  | [] => None
  | x :: l' => Some (match min_by_key f l' with Some y => if f x <=? f y then x else y | None => x end)
  end.

Definition receipt_to_drop (m : Receipts) : option AddressHash :=
  let l := btree_iter bytes_le m in
  match min_by_key (fun e => rc_sent_at e.2) (List.filter (fun e => is_sent e.2) l) with
  | Some e => Some e.1
  | None => fst <$> min_by_key (fun e => default (rc_sent_at e.2) (rc_concluded_at e.2)) l
  end.

(** The loop removes one receipt in each round. *)
Fixpoint cull_loop (fuel : nat) (m : Receipts) : Receipts :=
  match fuel with
  | O => m
  | S n => if (MAX_RECEIPTS <? size m)%nat
           then match receipt_to_drop m with Some key => cull_loop n (delete key m) | None => m end
           else m
  end.

Definition cull_receipts (now : Z) (m : Receipts) : Receipts :=
  let kept := filter (fun e : AddressHash * PacketReceipt => readable now e.2 = true) m in
  cull_loop (S (size kept)) kept.

Definition check_receipts (now : Z) (m : Receipts) : Receipts := cull_receipts now (check_receipt now <$> m).

(** ** Radio readings of packets *)
Record PhyCache := mkPhy {
  phy_capacity : nat;
  phy_rssi : list (Hash * f64);
  phy_snr : list (Hash * f64);
  phy_q : list (Hash * f64);
}.

Definition PhyCache_new (capacity : nat) : PhyCache := mkPhy capacity [] [] [].

Definition push_phy (cache : list (Hash * f64)) (capacity : nat) (h : Hash) (value : f64) : list (Hash * f64) :=
  (if (length cache =? capacity)%nat then drop 1 cache else cache) ++ [(h, value)].

Definition push_opt (capacity : nat) (h : Hash) (value : option f64) (cache : list (Hash * f64)) : list (Hash * f64) :=
  match value with Some v => push_phy cache capacity h v | None => cache end.

(** The readings are converted to [f64] by the caller. *)
Definition PhyCache_record (h : Hash) (rssi snr q : option f64) (c : PhyCache) : PhyCache :=
  let cap := phy_capacity c in
  if (cap =? 0)%nat then c
  else mkPhy cap (push_opt cap h rssi (phy_rssi c)) (push_opt cap h snr (phy_snr c)) (push_opt cap h q (phy_q c)).

Definition phy_lookup (cache : list (Hash * f64)) (h : Hash) : option f64 :=
  snd <$> List.find (fun e => bool_decide (e.1 = h)) (rev cache).

(** ** What the queues promise *)
Definition of_class (c : TrafficClass) (batch : list (TrafficClass * RxMessage)) : list RxMessage :=
  (List.filter (fun x => bool_decide (x.1 = c)) batch).*2.

Definition classes : list TrafficClass := [TcData; TcAnnounce; TcPathRequest; TcIngressLimited].

Definition size_of (c : TrafficClass) (q : InboundQueues) : nat := nth (class_index c) (sizes q) 0%nat.
Definition queue_of (c : TrafficClass) (q : InboundQueues) : list RxMessage := nth (class_index c) (queues q) [].
Definition dropped_of (c : TrafficClass) (q : InboundQueues) : Z := nth (class_index c) (dropped q) 0.

Definition four_queues (q : InboundQueues) : Prop := length (queues q) = 4%nat /\ length (dropped q) = 4%nat.

Lemma class_index_lt c : (class_index c < 4)%nat.
Proof. destruct c; cbn; lia. Qed.

Lemma class_index_inj c d : class_index c = class_index d -> c = d.
Proof. by destruct c, d. Qed.

Lemma nth_insert_eq {A} (l : list A) i x d : (i < length l)%nat -> nth i (<[i := x]> l) d = x.
Proof. intros Hi. apply nth_lookup_Some. by apply list_lookup_insert_eq. Qed.

Lemma nth_insert_ne {A} (l : list A) i j x d : i <> j -> nth j (<[i := x]> l) d = nth j l d.
Proof. intros Hij. by rewrite !nth_lookup, list_lookup_insert_ne. Qed.

Lemma nth_alter_ne {A} (l : list A) i j f d : i <> j -> nth j (alter f i l) d = nth j l d.
Proof. intros Hij. by rewrite !nth_lookup, list_lookup_alter_ne. Qed.

Lemma nth_alter_eq (l : list Z) i f : (i < length l)%nat -> nth i (alter f i l) 0 = f (nth i l 0).
Proof.
  intros Hi. apply lookup_lt_is_Some in Hi as [x Hx]. rewrite !nth_lookup, list_lookup_alter_eq, Hx. done.
Qed.

Lemma put_spec c item q d : four_queues q ->
  let q' := (put c item q).2 in
  four_queues q' /\ sizes q' = sizes q /\
  queue_of d q' = queue_of d q ++ (if decide (d = c) then take (size_of c q - length (queue_of c q)) [item] else []) /\
  dropped_of d q' = dropped_of d q + (if decide (d = c) then 1 - Z.of_nat (length (take (size_of c q - length (queue_of c q)) [item])) else 0).
Proof.
  intros [Hq Hd]. unfold put, queue_of, dropped_of, size_of, four_queues. pose proof (class_index_lt c) as Hc.
  destruct (Nat.leb_spec (nth (class_index c) (sizes q) 0%nat) (length (nth (class_index c) (queues q) []))) as [Hf|Hf]; cbn [snd queues sizes dropped].
  - rewrite length_alter. split; [done|]. split; [done|]. replace (_ - _)%nat with 0%nat by lia. cbn [take length].
    destruct (decide (d = c)) as [->|Hne]; rewrite app_nil_r; (split; [done|]).
    + rewrite nth_alter_eq by lia. lia.
    + rewrite nth_alter_ne; [lia|]. intros E. by apply Hne, class_index_inj.
  - rewrite length_insert. split; [done|]. split; [done|].
    assert (take (nth (class_index c) (sizes q) 0%nat - length (nth (class_index c) (queues q) [])) [item] = [item]) as -> by (apply take_ge; cbn; lia).
    destruct (decide (d = c)) as [->|Hne]; cbn [length].
    + rewrite nth_insert_eq by lia. split; [done|lia].
    + rewrite nth_insert_ne by (intros E; by apply Hne, class_index_inj). by rewrite app_nil_r, Z.add_0_r.
Qed.

Lemma put_all_spec batch : forall q c, four_queues q ->
  let q' := put_all batch q in
  four_queues q' /\ sizes q' = sizes q /\
  queue_of c q' = queue_of c q ++ take (size_of c q - length (queue_of c q)) (of_class c batch) /\
  dropped_of c q' = dropped_of c q + Z.of_nat (length (of_class c batch) - (size_of c q - length (queue_of c q))).
Proof.
  induction batch as [|[d item] batch IH]; intros q c Hq; cbn zeta.
  - unfold of_class. cbn. rewrite take_nil, app_nil_r. split; [exact Hq|]. split; [reflexivity|]. split; [reflexivity|]. lia.
  - change (put_all ((d, item) :: batch) q) with (put_all batch (put d item q).2).
    destruct (put_spec d item q c Hq) as (Hq1 & Hs1 & Hl1 & Hd1). destruct (IH (put d item q).2 c Hq1) as (Hq2 & Hs2 & Hl2 & Hd2).
    split; [done|]. split; [by rewrite Hs2|]. rewrite Hl2, Hd2. assert (size_of c (put d item q).2 = size_of c q) as Es by (unfold size_of; by rewrite Hs1).
    rewrite Es, Hl1, Hd1. unfold of_class. cbn [List.filter fst]. destruct (decide (c = d)) as [->|Hne].
    + rewrite bool_decide_true by done. rewrite fmap_cons. cbn [snd]. generalize (size_of d q) (queue_of d q). intros n l.
      destruct (n - length l)%nat as [|k] eqn:Hk; cbn [take].
      * rewrite !app_nil_r, Hk. rewrite !take_0, app_nil_r. cbn [length]. split; [reflexivity|]. lia.
      * replace (take k []) with (@nil RxMessage) by by rewrite take_nil. rewrite length_app. cbn [length].
        replace (n - (length l + 1))%nat with k by lia. rewrite <- app_assoc. split; [done|]. lia.
    + rewrite bool_decide_false by (intros E; by apply Hne). rewrite app_nil_r, Z.add_0_r. done.
Qed.

Lemma pop_first_concat l : match pop_first l with
  | None => concat l = [] /\ Forall (fun x => x = []) l
  | Some (x, l') => concat l = x :: concat l' /\ length l' = length l /\ S (sum_list (length <$> l')) = sum_list (length <$> l)
  end.
Proof.
  induction l as [|[|x r] l IH]; cbn [pop_first concat]; [done| |].
  - destruct (pop_first l) as [[y l']|]; cbn [mbind option_bind].
    + destruct IH as (E & El & Es). cbn. rewrite E, El. done.
    + destruct IH. split; [done|]. by constructor.
  - cbn. split; [done|]. split; [done|lia].
Qed.

Lemma drain_loop_spec fuel : forall q, (sum_list (length <$> queues q) < fuel)%nat ->
  drain_loop fuel q = (concat (queues q), mkQueues (replicate (length (queues q)) []) (sizes q) (dropped q)).
Proof.
  induction fuel as [|n IH]; intros q Hf; [lia|]. cbn [drain_loop]. unfold get. pose proof (pop_first_concat (queues q)) as Hp.
  destruct (pop_first (queues q)) as [[x l']|]; cbn [mbind option_bind].
  - destruct Hp as (E & El & Es). rewrite IH by (cbn [queues]; lia). cbn [queues sizes dropped]. by rewrite E, El.
  - destruct Hp as [E Hn]. rewrite E. destruct q as [l s d]. cbn [queues sizes dropped] in *. do 2 f_equal. clear -Hn.
    induction Hn as [|x l -> _ IH]; [done|]. cbn. by f_equal.
Qed.

Lemma concat_four q : length (queues q) = 4%nat -> concat (queues q) = concat ((fun c => queue_of c q) <$> classes).
Proof.
  intros Hl. unfold queue_of, classes. destruct (queues q) as [|a [|b [|c [|d [|]]]]]; try done.
Qed.

(** C28: a burst of messages is processed class by class.  When the queues are
    empty, queueing a batch and draining it yields the data packets, then the
    announces, then the path requests, then the ingress-limited ones, each class
    in the order of arrival and cut to the length of its queue; what is cut is
    counted, and the queues are empty again. *)
Theorem Inbound_drain (batch : list (TrafficClass * RxMessage)) (q : InboundQueues)
    (Hempty : queues q = replicate 4 []) (Hdropped : length (dropped q) = 4%nat) :
  let '(out, q') := drain_queues (put_all batch q) in
  out = concat ((fun c => take (size_of c q) (of_class c batch)) <$> classes) /\
  queues q' = replicate 4 [] /\ sizes q' = sizes q /\
  forall c, dropped_of c q' = dropped_of c q + Z.of_nat (length (of_class c batch) - size_of c q).
Proof.
  assert (four_queues q) as Hq by (split; [by rewrite Hempty|done]).
  assert (forall c, queue_of c q = []) as He by (intros c; unfold queue_of; rewrite Hempty; by destruct c).
  unfold drain_queues. rewrite drain_loop_spec by lia. destruct (put_all_spec batch q TcData Hq) as ([Hl _] & Hs & _).
  split_and!; [|by rewrite Hl|done|].
  - rewrite concat_four by done. f_equal. apply list_fmap_ext. intros i c _. destruct (put_all_spec batch q c Hq) as (_ & _ & -> & _).
    by rewrite He, Nat.sub_0_r.
  - intros c. destruct (put_all_spec batch q c Hq) as (_ & _ & _ & Hd). unfold dropped_of in *. cbn [dropped]. by rewrite Hd, He, Nat.sub_0_r.
Qed.

(** ** What the receipts promise *)
Lemma min_by_key_spec {A} (f : A -> Z) l : match min_by_key f l with
  | Some x => x ∈ l /\ forall y, y ∈ l -> f x <= f y
  | None => l = []
  end.
Proof.
  induction l as [|x l IH]; [done|]. cbn [min_by_key]. destruct (min_by_key f l) as [y|].
  - destruct IH as [Hin Hle]. destruct (Z.leb_spec (f x) (f y)) as [H|H]; (split; [by (apply list_elem_of_here || (apply list_elem_of_further))|]);
      intros z [->|Hz]%elem_of_cons; try lia; specialize (Hle z Hz); lia.
  - subst l. split; [apply list_elem_of_here|]. intros z [->|Hz]%elem_of_cons; [lia|]. by apply not_elem_of_nil in Hz.
Qed.

(** What is dropped is there, and no receipt in flight is older. *)
Lemma receipt_to_drop_spec (m : Receipts) : match receipt_to_drop m with
  | Some k => exists r, m !! k = Some r /\ forall k' r', m !! k' = Some r' -> is_sent r' = true -> is_sent r = true /\ rc_sent_at r <= rc_sent_at r'
  | None => m = ∅
  end.
Proof.
  unfold receipt_to_drop. set (l := btree_iter bytes_le m).
  assert (forall e, e ∈ List.filter (fun e => is_sent e.2) l <-> e ∈ l /\ is_sent e.2 = true) as Hf.
  { intros e. rewrite !list_elem_of_In. apply List.filter_In. }
  pose proof (min_by_key_spec (fun e => rc_sent_at e.2) (List.filter (fun e : AddressHash * PacketReceipt => is_sent e.2) l)) as H1.
  destruct (min_by_key _ (List.filter _ l)) as [e|].
  - destruct e as [k r], H1 as [[Hin Hs]%Hf Hmin]. exists r. split; [by apply elem_of_btree_iter in Hin|]. intros k' r' Hk' Hs'. split; [done|].
    apply (Hmin (k', r')). apply Hf. split; [by apply elem_of_btree_iter|done].
  - assert (forall k' r', m !! k' = Some r' -> is_sent r' <> true) as Hno.
    { intros k' r' Hk' Hs'. assert ((k', r') ∈ List.filter (fun e => is_sent e.2) l) as Hin by (apply Hf; split; [by apply elem_of_btree_iter|done]).
      rewrite H1 in Hin. by apply not_elem_of_nil in Hin. }
    pose proof (min_by_key_spec (fun e => default (rc_sent_at e.2) (rc_concluded_at e.2)) l) as H2.
    destruct (min_by_key _ l) as [e|]; cbn.
    + destruct e as [k r], H2 as [Hin _]. exists r. split; [by apply elem_of_btree_iter in Hin|]. intros k' r' Hk' Hs'. by destruct (Hno k' r' Hk').
    + apply map_empty. intros k. apply eq_None_not_Some. intros [r Hr]. assert ((k, r) ∈ l) as Hin by by apply elem_of_btree_iter.
      rewrite H2 in Hin. by apply not_elem_of_nil in Hin.
Qed.

Lemma cull_loop_spec fuel : forall m : Receipts, (size m < fuel)%nat ->
  let m' := cull_loop fuel m in
  (size m' <= MAX_RECEIPTS)%nat /\ m' ⊆ m /\ ((size m <= MAX_RECEIPTS)%nat -> m' = m) /\
  forall k r k' r', m !! k = Some r -> m' !! k = None -> m' !! k' = Some r' -> is_sent r' = true -> is_sent r = true /\ rc_sent_at r <= rc_sent_at r'.
Proof.
  induction fuel as [|n IH]; intros m Hf; [lia|]. cbn [cull_loop]. destruct (Nat.ltb_spec MAX_RECEIPTS (size m)) as [Hs|Hs]; cbn zeta.
  - pose proof (receipt_to_drop_spec m) as Hd. destruct (receipt_to_drop m) as [key|].
    + destruct Hd as (rk & Hk & Hold). assert (size (delete key m) = pred (size m)) as Esz by (by rewrite map_size_delete_Some by (by eexists)).
      destruct (IH (delete key m) ltac:(lia)) as (B1 & B2 & _ & B4). split; [done|]. split; [etrans; [exact B2|apply delete_subseteq]|]. split; [lia|].
      intros k r k' r' Hm Hnone Hm' Hsent. destruct (decide (k = key)) as [->|Hne].
      * assert (rk = r) as -> by congruence. apply (Hold k'); [|done]. pose proof (lookup_weaken _ _ _ _ Hm' B2) as Hx. by apply lookup_delete_Some in Hx as [_ ?].
      * apply (B4 k r k' r'); [by rewrite lookup_delete_ne|done..].
    + subst m. rewrite map_size_empty in Hs. lia.
  - split; [done|]. split; [done|]. split; [done|]. intros k r k' r' Hm Hn. congruence.
Qed.

(** receipts end and are bounded.  A check leaves at most 1024 receipts,
    and each is an old one or an old one concluded: none is still in flight
    after its timeout, and none that concluded is older than the grace period.  A
    receipt in flight before its timeout is untouched while there are no more
    than 1024; when there are more, it is dropped only if all that stay in flight
    were sent no earlier. *)
Theorem Receipts_check (now : Z) (m : gmap (list Z) PacketReceipt) :
  let m' := check_receipts now m in
  (size m' <= MAX_RECEIPTS)%nat /\
  (forall k r', m' !! k = Some r' -> exists r, m !! k = Some r /\ r' = check_receipt now r /\
     (rc_status r' = ReceiptSent -> timed_out now r' = false) /\
     (rc_status r' <> ReceiptSent -> exists at_, rc_concluded_at r' = Some at_ /\ now - at_ < RECEIPT_CONCLUDED_GRACE)) /\
  (forall k r, m !! k = Some r -> rc_status r = ReceiptSent -> timed_out now r = false ->
     m' !! k = Some r \/
     (m' !! k = None /\ (MAX_RECEIPTS < size m)%nat /\
      forall k' r', m' !! k' = Some r' -> rc_status r' = ReceiptSent -> rc_sent_at r <= rc_sent_at r')).
Proof.
  unfold check_receipts, cull_receipts. set (kept := filter _ _). destruct (cull_loop_spec (S (size kept)) kept ltac:(lia)) as (B1 & B2 & B3 & B4).
  set (m' := cull_loop _ _) in *. cbn zeta. split; [done|].
  assert (forall k r', kept !! k = Some r' -> exists r, m !! k = Some r /\ r' = check_receipt now r /\ readable now r' = true) as Hkept.
  { intros k r' (Hl & Hr)%map_lookup_filter_Some. rewrite lookup_fmap in Hl. destruct (m !! k) as [r|]; [|done]. injection Hl as <-. by exists r. }
  split.
  - intros k r' Hk. pose proof (lookup_weaken _ _ _ _ Hk B2) as Hk'. destruct (Hkept k r' Hk') as (r & Hr & -> & Hread). exists r. split; [done|]. split; [done|].
    unfold readable, is_sent in Hread. split.
    + unfold check_receipt, is_sent. destruct (bool_decide_reflect (rc_status r = ReceiptSent)) as [Es|Es]; [|done].
      destruct (timed_out now r) eqn:Et; [|done]. cbn [andb conclude rc_status]. by destruct (bool_decide (rc_timeout r = None)).
    + intros Hns. rewrite bool_decide_false in Hread by done. cbn [orb] in Hread. destruct (rc_concluded_at (check_receipt now r)) as [at_|]; [|done].
      exists at_. split; [done|]. apply Z.ltb_lt in Hread. lia.
  - intros k r Hr Hs Ht. assert (check_receipt now r = r) as Ec by (unfold check_receipt; by rewrite Ht, andb_false_r).
    assert (kept !! k = Some r) as Hk.
    { apply map_lookup_filter_Some. rewrite lookup_fmap, Hr. cbn. rewrite Ec. split; [done|]. unfold readable, is_sent. by rewrite bool_decide_true. }
    destruct (m' !! k) as [r1|] eqn:Hm'.
    + left. pose proof (lookup_weaken _ _ _ _ Hm' B2). congruence.
    + right. split; [done|]. split.
      * apply Nat.nle_gt. intros Hle. assert (size kept <= MAX_RECEIPTS)%nat as Hk1.
        { etrans; [|exact Hle]. unfold kept. rewrite <- (map_size_fmap (check_receipt now) m). apply map_subseteq_size, map_filter_subseteq. }
        rewrite (B3 Hk1) in Hm'. congruence.
      * intros k' r' Hk' Hs'. apply (B4 k r k' r' Hk Hm' Hk'). unfold is_sent. by rewrite bool_decide_true.
Qed.

(** ** Witnesses *)
Definition sample_data (n : Z) : Packet :=
  mkPacket (mkHeader Open false Type1 Broadcast Single Data 0) None (replicate 16 n) None CtxNone PacketDataBuffer_new.

Lemma Inbound_drain_witness :
  let rx n := mkRx (replicate 16 n) (sample_data n) in
  (drain_queues (put_all [(TcAnnounce, rx 1); (TcPathRequest, rx 2); (TcData, rx 3); (TcAnnounce, rx 4)]
     (InboundQueues_new [0; 1; 5; 5]%nat))).1 = [rx 3; rx 1; rx 2].
Proof.
  intros rx. pose proof (Inbound_drain [(TcAnnounce, rx 1); (TcPathRequest, rx 2); (TcData, rx 3); (TcAnnounce, rx 4)]
     (InboundQueues_new [0; 1; 5; 5]%nat) eq_refl eq_refl) as T.
  destruct (drain_queues _) as [out q']. destruct T as (-> & _). reflexivity.
Defined.
