(* ===== verification/Handler.v ===== *)
(** * The state of the transport and its effects ([src/src/transport.rs])

    [TransportHandler], the state that every task of the transport locks, and the
    monad in which its handlers are written.  A handler reads the clocks, draws
    random bytes, changes the state and produces outputs: packets put into the
    channels of interfaces and events for the subscribers.  A panic is [None].

    A task locks the state for the whole of a handler, so handlers do not
    interleave; what is shared beyond it (links, destinations, blackholes, storage)
    is part of the state.  [try_lock] on a link fails exactly when the handler
    itself holds it, which the callers of [send] say with [held]. *)

From S2P Require Import Prelude Float Buffer Crypto Hash Token Identity Msgpack Packet Counters Ifac PacketCache LinkTable AnnounceTable.
From S2P Require Import AnnounceLimits PathTable Destination Links PathRequests Tunnels Resource ResourceOut ResourceIn ResourceManager Requests.
From S2P Require Import IfaceControl Ifaces Storage Blackholes Inbound.

(** ** Configuration *)
Definition PATHFINDER_M : Z := 128.
Definition KEEP_ALIVE_REQUEST : Z := 0xFF.
Definition KEEP_ALIVE_RESPONSE : Z := 0xFE.
Definition PATH_REQUEST_GRACE : Z := 400 * 10 ^ 6.
Definition PATH_REQUEST_RG : Z := 1500 * 10 ^ 6.
Definition REVERSE_TIMEOUT : Z := 8 * 60 * NANOS.

Record TimerConfig := mkTimers {
  link_check : Z;
  in_link_stale : Z;
  in_link_close : Z;
  out_link_restart : Z;
  out_link_stale : Z;
  out_link_close : Z;
  out_link_repeat : Z;
  out_link_keep : Z;
  iface_cleanup : Z;
  announces_retransmit : Z;
  old_announces_retransmit : Z;
  keep_packet_cached : Z;
  packet_cache_cleanup : Z;
  resource_watchdog : Z;
}.

Definition TimerConfig_default : TimerConfig :=
  mkTimers NANOS STALE_TIME STALE_GRACE (60 * NANOS) STALE_TIME STALE_GRACE (6 * NANOS) KEEPALIVE (10 * NANOS) NANOS (60 * NANOS)
    (180 * NANOS) (90 * NANOS) NANOS.

(** The name, which only log lines use, the storage, which is a field of the
    handler, and the capacity of the event channels are left out. *)
Record TransportConfig := mkConfig {
  cfg_identity : PrivateIdentity;
  cfg_retransmit : bool;
  cfg_reroute_eager : bool;
  cfg_restart_outlinks : bool;
  cfg_announce_forever : bool;
  cfg_link_mtu_discovery : bool;
  cfg_inbound_queue_lengths : list nat;
  cfg_blackhole_publish : bool;
  cfg_blackhole_sources : list AddressHash;
  cfg_announce_cache_capacity : nat;
  cfg_phy_cache_capacity : nat;
  cfg_use_implicit_proof : bool;
  cfg_local_hops_delta : bool;
  cfg_enable_resource_watchdog : bool;
  cfg_timers : TimerConfig;
}.

Definition TransportConfig_new (identity : PrivateIdentity) : TransportConfig :=
  mkConfig identity false false false false true INBOUND_QUEUE_LENGTHS false [] (Z.to_nat 8192) 512 true false true TimerConfig_default.

Definition set_retransmit (b : bool) (c : TransportConfig) : TransportConfig :=
  mkConfig (cfg_identity c) b (cfg_reroute_eager c) (cfg_restart_outlinks c) (cfg_announce_forever c) (cfg_link_mtu_discovery c)
    (cfg_inbound_queue_lengths c) (cfg_blackhole_publish c) (cfg_blackhole_sources c) (cfg_announce_cache_capacity c)
    (cfg_phy_cache_capacity c) (cfg_use_implicit_proof c) (cfg_local_hops_delta c) (cfg_enable_resource_watchdog c) (cfg_timers c).

(** ** State *)

(** Where the proof of a forwarded packet goes back. *)
Record ReverseEntry := mkReverse {
  rv_received : AddressHash;
  rv_outbound : AddressHash;
  rv_at : Z;
}.

(** A row of the stored path table. *)
Record PersistedPath := mkPersisted {
  pp_destination : AddressHash;
  pp_stable_iface : AddressHash;
  pp_hops : Z;
  pp_stored_unix : Z;
  pp_mode : Z;
  pp_gravity : option Z;
  pp_unresponsive : bool;
  pp_blobs : list bytes;
  pp_announce : bytes;
  pp_received_from : AddressHash;
  pp_packet_hash : Hash;
  pp_expires_unix : option f64;
}.

(** [channel_table] holds the links that have a channel; the lists that a
    channel receives are outputs. *)
Record Handler (S : Type) := mkHandler {
  th_config : TransportConfig;
  th_iface_manager : InterfaceManager;
  th_path_table : PathTable;
  th_announce_table : AnnounceTable;
  th_channel_table : gset AddressHash;
  th_link_table : gmap AddressHash LinkEntry;
  th_single_in_destinations : gmap AddressHash (Destination PrivateIdentity);
  th_single_out_destinations : gmap AddressHash (Destination Identity);
  th_plain_in_destinations : gmap AddressHash (Destination EmptyIdentity);
  th_group_in_destinations : gmap AddressHash (Destination EmptyIdentity);
  th_announce_limits : gmap AddressHash AnnounceLimitEntry;
  th_phy : PhyCache;
  th_out_links : gmap AddressHash Link.t;
  th_in_links : gmap AddressHash Link.t;
  th_in_link_ifaces : gmap AddressHash AddressHash;
  th_packet_cache : PacketCache;
  th_resources : Manager.t;
  th_blackholes : Blackholes;
  th_path_requests : PathRequests;
  th_storage : option S;
  th_known_destinations : KnownDestinations;
  th_known_ratchets : gmap AddressHash (bytes * Z);
  th_receipts : gmap AddressHash PacketReceipt;
  th_destination_ratchet_paths : gmap AddressHash bytes;
  th_fixed_dest_path_requests : AddressHash;
  th_fixed_dest_tunnel_synthesize : AddressHash;
  th_tunnels : gmap AddressHash TunnelEntry;
  th_remote_management_allowed : list AddressHash;
  th_blackhole_sources : list AddressHash;
  th_inbound_queues : InboundQueues;
  th_reverse_table : gmap AddressHash ReverseEntry;
  th_shared_was_online : option bool;
  th_seen_local_clients : list AddressHash;
  th_persisted_loaded : bool;
  th_shutdown_persisted : bool;
  th_unresolved_paths : option (list PersistedPath);
  th_persisted_aux_loaded : bool;
}.

Arguments mkHandler {S}.
Arguments th_config {S}.
Arguments th_iface_manager {S}.
Arguments th_path_table {S}.
Arguments th_announce_table {S}.
Arguments th_channel_table {S}.
Arguments th_link_table {S}.
Arguments th_single_in_destinations {S}.
Arguments th_single_out_destinations {S}.
Arguments th_plain_in_destinations {S}.
Arguments th_group_in_destinations {S}.
Arguments th_announce_limits {S}.
Arguments th_phy {S}.
Arguments th_out_links {S}.
Arguments th_in_links {S}.
Arguments th_in_link_ifaces {S}.
Arguments th_packet_cache {S}.
Arguments th_resources {S}.
Arguments th_blackholes {S}.
Arguments th_path_requests {S}.
Arguments th_storage {S}.
Arguments th_known_destinations {S}.
Arguments th_known_ratchets {S}.
Arguments th_receipts {S}.
Arguments th_destination_ratchet_paths {S}.
Arguments th_fixed_dest_path_requests {S}.
Arguments th_fixed_dest_tunnel_synthesize {S}.
Arguments th_tunnels {S}.
Arguments th_remote_management_allowed {S}.
Arguments th_blackhole_sources {S}.
Arguments th_inbound_queues {S}.
Arguments th_reverse_table {S}.
Arguments th_shared_was_online {S}.
Arguments th_seen_local_clients {S}.
Arguments th_persisted_loaded {S}.
Arguments th_shutdown_persisted {S}.
Arguments th_unresolved_paths {S}.
Arguments th_persisted_aux_loaded {S}.

(** Setting one field: the record is written out once, and [set_field] replaces
    the field in it. *)
Section Setters.
Context {S : Type}.

Definition same_handler (h : Handler S) : Handler S :=
  mkHandler (th_config h) (th_iface_manager h) (th_path_table h) (th_announce_table h) (th_channel_table h) (th_link_table h)
    (th_single_in_destinations h) (th_single_out_destinations h) (th_plain_in_destinations h) (th_group_in_destinations h)
    (th_announce_limits h) (th_phy h) (th_out_links h) (th_in_links h) (th_in_link_ifaces h) (th_packet_cache h) (th_resources h)
    (th_blackholes h) (th_path_requests h) (th_storage h) (th_known_destinations h) (th_known_ratchets h) (th_receipts h)
    (th_destination_ratchet_paths h) (th_fixed_dest_path_requests h) (th_fixed_dest_tunnel_synthesize h) (th_tunnels h)
    (th_remote_management_allowed h) (th_blackhole_sources h) (th_inbound_queues h) (th_reverse_table h) (th_shared_was_online h)
    (th_seen_local_clients h) (th_persisted_loaded h) (th_shutdown_persisted h) (th_unresolved_paths h)
    (th_persisted_aux_loaded h).

Ltac set_field field x h :=
  let e := eval cbv [same_handler] in (same_handler h) in
  let e := eval pattern field in e in
  match e with ?f _ => let r := eval cbv beta in (f x) in exact r end.

Definition set_config (x : TransportConfig) (h : Handler S) : Handler S := ltac:(set_field (th_config h) x h).
Definition set_iface_manager (x : InterfaceManager) (h : Handler S) : Handler S := ltac:(set_field (th_iface_manager h) x h).
Definition set_path_table (x : PathTable) (h : Handler S) : Handler S := ltac:(set_field (th_path_table h) x h).
Definition set_announce_table (x : AnnounceTable) (h : Handler S) : Handler S := ltac:(set_field (th_announce_table h) x h).
Definition set_channel_table (x : gset AddressHash) (h : Handler S) : Handler S := ltac:(set_field (th_channel_table h) x h).
Definition set_link_table (x : gmap AddressHash LinkEntry) (h : Handler S) : Handler S := ltac:(set_field (th_link_table h) x h).
Definition set_single_in_destinations (x : gmap AddressHash (Destination PrivateIdentity)) (h : Handler S) : Handler S := ltac:(set_field (th_single_in_destinations h) x h).
Definition set_single_out_destinations (x : gmap AddressHash (Destination Identity)) (h : Handler S) : Handler S := ltac:(set_field (th_single_out_destinations h) x h).
Definition set_plain_in_destinations (x : gmap AddressHash (Destination EmptyIdentity)) (h : Handler S) : Handler S := ltac:(set_field (th_plain_in_destinations h) x h).
Definition set_group_in_destinations (x : gmap AddressHash (Destination EmptyIdentity)) (h : Handler S) : Handler S := ltac:(set_field (th_group_in_destinations h) x h).
Definition set_announce_limits (x : gmap AddressHash AnnounceLimitEntry) (h : Handler S) : Handler S := ltac:(set_field (th_announce_limits h) x h).
Definition set_phy (x : PhyCache) (h : Handler S) : Handler S := ltac:(set_field (th_phy h) x h).
Definition set_out_links (x : gmap AddressHash Link.t) (h : Handler S) : Handler S := ltac:(set_field (th_out_links h) x h).
Definition set_in_links (x : gmap AddressHash Link.t) (h : Handler S) : Handler S := ltac:(set_field (th_in_links h) x h).
Definition set_in_link_ifaces (x : gmap AddressHash AddressHash) (h : Handler S) : Handler S := ltac:(set_field (th_in_link_ifaces h) x h).
Definition set_packet_cache (x : PacketCache) (h : Handler S) : Handler S := ltac:(set_field (th_packet_cache h) x h).
Definition set_resources (x : Manager.t) (h : Handler S) : Handler S := ltac:(set_field (th_resources h) x h).
Definition set_blackholes (x : Blackholes) (h : Handler S) : Handler S := ltac:(set_field (th_blackholes h) x h).
Definition set_path_requests (x : PathRequests) (h : Handler S) : Handler S := ltac:(set_field (th_path_requests h) x h).
Definition set_storage (x : option S) (h : Handler S) : Handler S := ltac:(set_field (th_storage h) x h).
Definition set_known_destinations (x : KnownDestinations) (h : Handler S) : Handler S := ltac:(set_field (th_known_destinations h) x h).
Definition set_known_ratchets (x : gmap AddressHash (bytes * Z)) (h : Handler S) : Handler S := ltac:(set_field (th_known_ratchets h) x h).
Definition set_receipts (x : gmap AddressHash PacketReceipt) (h : Handler S) : Handler S := ltac:(set_field (th_receipts h) x h).
Definition set_destination_ratchet_paths (x : gmap AddressHash bytes) (h : Handler S) : Handler S := ltac:(set_field (th_destination_ratchet_paths h) x h).
Definition set_tunnels (x : gmap AddressHash TunnelEntry) (h : Handler S) : Handler S := ltac:(set_field (th_tunnels h) x h).
Definition set_remote_management_allowed (x : list AddressHash) (h : Handler S) : Handler S := ltac:(set_field (th_remote_management_allowed h) x h).
Definition set_inbound_queues (x : InboundQueues) (h : Handler S) : Handler S := ltac:(set_field (th_inbound_queues h) x h).
Definition set_reverse_table (x : gmap AddressHash ReverseEntry) (h : Handler S) : Handler S := ltac:(set_field (th_reverse_table h) x h).
Definition set_shared_was_online (x : option bool) (h : Handler S) : Handler S := ltac:(set_field (th_shared_was_online h) x h).
Definition set_seen_local_clients (x : list AddressHash) (h : Handler S) : Handler S := ltac:(set_field (th_seen_local_clients h) x h).
Definition set_persisted_loaded (x : bool) (h : Handler S) : Handler S := ltac:(set_field (th_persisted_loaded h) x h).
Definition set_shutdown_persisted (x : bool) (h : Handler S) : Handler S := ltac:(set_field (th_shutdown_persisted h) x h).
Definition set_unresolved_paths (x : option (list PersistedPath)) (h : Handler S) : Handler S := ltac:(set_field (th_unresolved_paths h) x h).
Definition set_persisted_aux_loaded (x : bool) (h : Handler S) : Handler S := ltac:(set_field (th_persisted_aux_loaded h) x h).

End Setters.

(** ** Effects *)

(** The clocks at the time of the call (the tokio clock, the clock of the core,
    the system time in seconds as a float and as an integer), and the random
    draws. *)
Record Env := mkEnv {
  e_now : Z;
  e_mono : Z;
  e_unix : f64;
  e_secs : Z;
  e_draw : nat -> bytes;
  e_inputs : nat -> Inputs;
}.

Inductive Output :=
| OSent (iface : AddressHash) (msg : TxMessage)
| OAnnounce (destination : Destination Identity) (app_data : bytes) (ratchet : option bytes)
| OLinkIn (e : LinkEventData)
| OLinkOut (e : LinkEventData)
| OChannel (id : LinkId) (payload : bytes)
| OData (destination : AddressHash) (data : bytes) (decrypted : bool)
| OReceipt (destination : AddressHash) (packet_hash : Hash)
| OTask (id : LinkId) (t : Task)
| ORx (message : RxMessage).

(** The number counts the draws made. *)
Definition Tr (S A : Type) : Type := Env -> nat -> Handler S -> option (A * nat * Handler S * list Output).

#[export] Instance Tr_ret {S} : MRet (Tr S) := fun A a env n h => Some (a, n, h, []).
#[export] Instance Tr_bind {S} : MBind (Tr S) := fun A B f m env n h =>
  match m env n h with
  | Some (a, n, h, o1) =>
      match f a env n h with
      | Some (b, n, h, o2) => Some (b, n, h, o1 ++ o2)
      | None => None
      end
  | None => None
  end.

Section Effects.
Context {S : Type}.

Definition ask : Tr S Env := fun env n h => Some (env, n, h, []).
Definition gets {A} (f : Handler S -> A) : Tr S A := fun env n h => Some (f h, n, h, []).
Definition modify (f : Handler S -> Handler S) : Tr S unit := fun env n h => Some (tt, n, f h, []).
Definition emit (os : list Output) : Tr S unit := fun env n h => Some (tt, n, h, os).
Definition draw : Tr S bytes := fun env n h => Some (e_draw env n, Datatypes.S n, h, []).
Definition unwrap {A} (o : option A) : Tr S A := fun env n h => a ← o; Some (a, n, h, []).

(** The inputs of an operation on resources, at the time of the call. *)
Definition draw_inputs : Tr S Inputs := fun env n h =>
  let i := e_inputs env n in
  Some (mkInputs (e_unix env) (e_mono env) (loop_ivs i) (assemble_ivs i) (segment_draws i) (response_iv i) (response_draws i) (advertise_iv i),
        Datatypes.S n, h, []).

Definition when (b : bool) (m : Tr S unit) : Tr S unit := if b then m else mret tt.

Fixpoint for_each {A} (l : list A) (f : A -> Tr S unit) : Tr S unit :=
  match l with
  | [] => mret tt
  | x :: l' => _ ← f x; for_each l' f
  end.

(** An operation on a field that also answers. *)
Definition with_field {F A} (get : Handler S -> F) (set : F -> Handler S -> Handler S) (f : F -> F * A) : Tr S A :=
  fun env n h => let '(x, a) := f (get h) in Some (a, n, set x h, []).
Definition update_field {F} (get : Handler S -> F) (set : F -> Handler S -> Handler S) (f : F -> F) : Tr S unit :=
  modify (fun h => set (f (get h)) h).

Definition managing {A} (f : InterfaceManager -> A * InterfaceManager) : Tr S A :=
  with_field th_iface_manager set_iface_manager (fun m => let '(a, m) := f m in (m, a)).

End Effects.

(** ** Sending *)

(** A link of the tables: inbound links by their id, outbound ones by the
    address of their destination. *)
Inductive LinkRef := InLink (key : AddressHash) | OutLink (key : AddressHash).

#[export] Instance LinkRef_eq_dec : EqDecision LinkRef.
Proof. solve_decision. Defined.

Section Methods.
Context {S : Type} `{!Storage S}.
Context `{Sha256} `{Hkdf} `{X25519} `{CbcCipher} `{HmacSha256}.
Context `{Signing} `{!Verifying} `{!Ed25519} `{!Ed25519Keys} `{Rmp} `{RmpDecode}.

Definition link_at (r : LinkRef) (h : Handler S) : option Link.t :=
  match r with InLink k => th_in_links h !! k | OutLink k => th_out_links h !! k end.

Definition put_link (r : LinkRef) (l : Link.t) (h : Handler S) : Handler S :=
  match r with
  | InLink k => set_in_links (<[k := l]> (th_in_links h)) h
  | OutLink k => set_out_links (<[k := l]> (th_out_links h)) h
  end.

(** The outbound link with the id, among those whose lock is free. *)
Definition find_by_id (held : option LinkRef) (i : LinkId) (h : Handler S) : option AddressHash :=
  fst <$> List.find (fun e => negb (bool_decide (held = Some (OutLink e.1))) && bool_decide (Link.id e.2 = i)) (btree_iter bytes_le (th_out_links h)).

Definition mark_link (held : option LinkRef) (now : Z) (is_keepalive : bool) (r : LinkRef) (h : Handler S) : Handler S :=
  match link_at r h with
  | Some l => if decide (held = Some r) then h else put_link r (mark_outbound now is_keepalive l) h
  | None => h
  end.

Definition note_unlocked_link_outbound (held : option LinkRef) (now : Z) (p : Packet) (h : Handler S) : Handler S :=
  let is_keepalive := bool_decide (context p = CtxKeepAlive) in
  if decide (destination_type (header p) = Packet.Link) then
    match th_in_links h !! destination p with
    | Some _ => mark_link held now is_keepalive (InLink (destination p)) h
    | None => match find_by_id held (destination p) h with
              | Some key => mark_link held now is_keepalive (OutLink key) h
              | None => h
              end
    end
  else if decide (packet_type (header p) = LinkRequest) then mark_link held now false (OutLink (destination p)) h
  else h.

Definition send (held : option LinkRef) (msg : TxMessage) : Tr S unit :=
  env ← ask;
  if PATHFINDER_M - 1 <? hops (header (tx_packet msg)) then mret tt
  else
    _ ← modify (note_unlocked_link_outbound held (e_mono env) (tx_packet msg));
    _ ← with_field th_packet_cache set_packet_cache (fun c => PacketCache_update c (e_now env) (tx_packet msg));
    manager ← gets th_iface_manager;
    '(manager, out) ← unwrap (Ifaces.send (e_now env) msg manager);
    _ ← modify (set_iface_manager manager);
    emit ((fun x : AddressHash * TxMessage => OSent x.1 x.2) <$> out).

Definition send_direct (iface : AddressHash) (p : Packet) : Tr S unit := send None (mkTxMessage (TxDirect iface) p).
Definition send_packet (held : option LinkRef) (p : Packet) : Tr S unit := send held (mkTxMessage (TxBroadcast None) p).

(** The link is the caller's, who holds its lock. *)
Definition send_from_link (held : option LinkRef) (l : Link.t) (p : Packet) : Tr S Link.t :=
  env ← ask;
  _ ← send_packet held p;
  mret (mark_outbound (e_mono env) (bool_decide (context p = CtxKeepAlive)) l).

(** Locking a link of the tables. *)
Definition with_link (r : LinkRef) (f : Link.t -> Tr S Link.t) : Tr S unit :=
  l ← gets (link_at r);
  match l with
  | Some l => l ← f l; modify (put_link r l)
  | None => mret tt
  end.

(** ** Lookups *)
Definition has_destination (address : AddressHash) (h : Handler S) : bool := bool_decide (is_Some (th_single_in_destinations h !! address)).
Definition knows_destination (address : AddressHash) (h : Handler S) : bool := bool_decide (is_Some (th_single_out_destinations h !! address)).
Definition find_out_link (link_id : AddressHash) (h : Handler S) : option Link.t := th_out_links h !! link_id.
Definition find_in_link (link_id : AddressHash) (h : Handler S) : option Link.t := th_in_links h !! link_id.

(** Closing a link, in its lock; the packet is sent after the lock is
    released. *)
Definition teardown_link (r : LinkRef) (held : bool) : Tr S (result unit) :=
  l ← gets (link_at r);
  match l with
  | None => mret (Ok tt)
  | Some l =>
      '(res, l, events) ← unwrap (teardown l);
      _ ← modify (put_link r l);
      _ ← emit ((match r with InLink _ => OLinkIn | OutLink _ => OLinkOut end) <$> events);
      match res with
      | Err e => mret (Err e)
      | Ok None => mret (Ok tt)
      | Ok (Some p) =>
          _ ← (if held then with_link r (fun l => send_from_link (Some r) l p) else send_packet None p);
          mret (Ok tt)
      end
  end.

Definition link_close (link_id : LinkId) : Tr S (result unit) :=
  inbound ← gets (find_in_link link_id);
  match inbound with
  | Some _ => teardown_link (InLink link_id) false
  | None => teardown_link (OutLink link_id) false
  end.

Definition filter_duplicate_packets (p : Packet) : Tr S bool :=
  env ← ask;
  h ← gets (fun h => h);
  let lr_proof := bool_decide (context p = CtxLinkRequestProof) in
  let allow := contains_destination (th_link_table h) (destination p) || (bool_decide (packet_type (header p) = Proof) && lr_proof) in
  let after (allow : bool) : Tr S bool :=
    is_new ← with_field th_packet_cache set_packet_cache (fun c => PacketCache_update c (e_now env) p);
    mret (is_new || allow) in
  match packet_type (header p) with
  | Announce => mret true
  | LinkRequest => after true
  | Data => after (bool_decide (context p = CtxKeepAlive))
  | Proof => after (allow || (lr_proof && match th_in_links h !! destination p with
                                          | Some l => not_yet_active (Link.status l)
                                          | None => false
                                          end))
  end.

Definition generate_request (address : AddressHash) (tag : option bytes) : Tr S Packet :=
  env ← ask;
  tag ← match tag with Some t => mret t | None => r ← draw; mret (AddressHash_new_from_rand r) end;
  with_field th_path_requests set_path_requests (fun r => PathRequests_generate r (e_now env) address tag).

Definition request_path (address : AddressHash) (on_iface : option AddressHash) (tag : option bytes) : Tr S unit :=
  p ← generate_request address tag;
  send None (mkTxMessage (TxBroadcast on_iface) p).

Definition bind_link_to_channel (id : LinkId) : Tr S (result unit) :=
  t ← gets th_channel_table;
  if decide (id ∈ t) then mret (Err ChannelError)
  else _ ← modify (set_channel_table ({[id]} ∪ t)); mret (Ok tt).

(** The configured storage is changed, a temporary one forgotten. *)
Definition persist_known_destinations : Tr S unit :=
  h ← gets (fun h => h);
  match th_storage h with
  | None => mret tt
  | Some s =>
      let '(_, k, s) := Known_save (th_known_destinations h) s in
      _ ← modify (set_known_destinations k);
      modify (set_storage (Some s))
  end.

End Methods.
