(* ===== verification/Transport.v ===== *)
(** * The handlers of the transport ([src/src/transport.rs])

    What the transport does with a packet from an interface, on its timers and
    for its user, each handler whole, in the monad of [Handler].  The tasks that
    call them are the definitions of the last section. *)

From S2P Require Import Prelude Float Buffer Crypto Hash Token Identity Msgpack Packet Counters Ifac PacketCache LinkTable AnnounceTable.
From S2P Require Import AnnounceLimits PathTable Destination Links PathRequests Tunnels Resource ResourceOut ResourceIn ResourceManager Requests.
From S2P Require Import IfaceControl Ifaces Storage Blackholes Inbound Handler.

Section Transport.
Context {S : Type} `{!Storage S}.
Context `{Sha256} `{Hkdf} `{X25519} `{CbcCipher} `{HmacSha256}.
Context `{Signing} `{!Verifying} `{!Ed25519} `{!Ed25519Keys} `{Rmp} `{RmpDecode} `{RmpCursor} `{Bz2} `{Manager.Rmpv}.

Definition own_address (h : Handler S) : AddressHash := address_hash (identity (cfg_identity (th_config h))).
Definition retransmits (h : Handler S) : bool := cfg_retransmit (th_config h).

(** ** Proofs of single packets *)
Definition create_single_destination_proof (implicit : bool) (p : Packet) (strategy : ProofStrategy) (sign_key : bytes) : option Packet :=
  let should_prove := match strategy with ProveAll => true | ProveNone | ProveApp => false end in
  if negb should_prove then None
  else
    let packet_hash := Packet_hash p in
    let signature := sign sign_key packet_hash in
    let data := if implicit then (StaticBuffer.safe_write signature PacketDataBuffer_new).2
                else (StaticBuffer.safe_write signature (StaticBuffer.safe_write packet_hash PacketDataBuffer_new).2).2 in
    Some (mkPacket (mkHeader Open false Type1 Broadcast Single Proof 0) None (AddressHash_new_from_hash packet_hash) None CtxNone data).

Definition proof_of_receipt (r : PacketReceipt) (proof : bytes) : bool :=
  if (length proof =? 64)%nat then bool_decide (Identity_verify (rc_identity r) (rc_packet_hash r) proof = Ok tt)
  else if (length proof =? 96)%nat then
    bool_decide (take 32 proof = rc_packet_hash r) && bool_decide (Identity_verify (rc_identity r) (rc_packet_hash r) (drop 32 proof) = Ok tt)
  else false.

Definition validate_single_destination_proof (p : Packet) : Tr S bool :=
  env ← ask;
  receipts ← gets th_receipts;
  match receipts !! destination p with
  | None => mret false
  | Some r =>
      if proof_of_receipt r (payload p) then
        _ ← modify (set_receipts (<[destination p := conclude ReceiptDelivered (e_now env) r]> receipts));
        _ ← emit [OReceipt (rc_destination r) (rc_packet_hash r)];
        mret true
      else mret false
  end.

Definition relay_reverse_proof (p : Packet) (ingress : AddressHash) : Tr S unit :=
  if decide (context p = CtxResourceProof) then mret tt
  else if decide (context p = CtxLinkRequestProof) then mret tt
  else
    h ← gets (fun h => h);
    match th_reverse_table h !! destination p with
    | None => mret tt
    | Some e =>
        let m := th_iface_manager h in
        let from_local := is_local_client_iface ingress m in
        let proof_for_local := is_local_client_iface (rv_received e) m in
        if negb (retransmits h || from_local || proof_for_local) then mret tt
        else
          _ ← modify (set_reverse_table (delete (destination p) (th_reverse_table h)));
          if decide (ingress = rv_outbound e) then
            let new_hops := if from_local && negb proof_for_local && negb (local_hops_delta m =? 0) then local_hops_delta m
                            else u8_saturating_add (hops (header p)) 1 in
            send_direct (rv_received e)
              (mkPacket (with_hops (header p) new_hops) (ifac p) (destination p) (transport p) (context p) (data p))
          else mret tt
    end.

(** ** Links *)

(** What a link reported: events to subscribers, payloads to its channel. *)
Definition link_outputs (r : LinkRef) (l : Link.t) (handled : LinkHandled) : list Output :=
  ((match r with InLink _ => OLinkIn | OutLink _ => OLinkOut end) <$> h_events handled) ++ (OChannel (Link.id l) <$> h_channel handled).

Definition is_out (r : LinkRef) : bool := match r with InLink _ => false | OutLink _ => true end.

(** [link.handle_packet], with the channel of the link when it has one; the
    link, which the caller holds, is the answer. *)
Definition link_handle_packet (r : LinkRef) (p : Packet) (l : Link.t) : Tr S (LinkHandleResult * Link.t) :=
  env ← ask;
  channels ← gets th_channel_table;
  let handled := handle_packet (e_mono env) (bool_decide (Link.id l ∈ channels)) (is_out r) p l in
  _ ← emit (link_outputs r l handled);
  mret (h_result handled, h_link handled).

Definition note_established_inbound (now : Z) (p : Packet) (out_link : bool) (l : Link.t) : Link.t :=
  match Link.status l with
  | Active | Stale =>
      if out_link && bool_decide (context p = CtxKeepAlive) && bool_decide (head (payload p) = Some KEEP_ALIVE_REQUEST) then l
      else Links.touch now l
  | _ => l
  end.

(** The manager's state, the link and the packets of an operation on resources. *)
Definition apply_outcome (r : LinkRef) (oc : Outcome) : Tr S unit :=
  _ ← modify (set_resources (resources oc));
  _ ← modify (put_link r (link_after oc));
  _ ← for_each (sent oc) (send_packet (Some r));
  emit (OTask (Link.id (link_after oc)) <$> tasks oc).

Definition on_resources (f : Inputs -> Manager.t -> Link.t -> Packet -> option (bool * Outcome)) (r : LinkRef) (p : Packet) : Tr S bool :=
  inp ← draw_inputs;
  m ← gets th_resources;
  l ← gets (link_at r);
  match l with
  | None => mret false
  | Some l =>
      '(handled, oc) ← unwrap (f inp m l p);
      _ ← apply_outcome r oc;
      mret handled
  end.

Definition handle_resource_packet : LinkRef -> Packet -> Tr S bool := on_resources Requests.handle_resource_packet.
Definition handle_request_or_response_packet : LinkRef -> Packet -> Tr S bool := on_resources Requests.handle_request_or_response_packet.

(** The outbound links with the id, by their keys. *)
Definition out_links_with (i : LinkId) (h : Handler S) : list AddressHash :=
  (List.filter (fun e => bool_decide (Link.id e.2 = i)) (btree_iter bytes_le (th_out_links h))).*1.

Definition in_links_with (i : LinkId) (h : Handler S) : list AddressHash :=
  (List.filter (fun e => bool_decide (Link.id e.2 = i)) (btree_iter bytes_le (th_in_links h))).*1.

(** ** Proofs *)

(** The resource engine's part of [handle_proof]. *)
Definition resource_proof (r : LinkRef) (p : Packet) : Tr S unit :=
  env ← ask;
  inp ← draw_inputs;
  l ← gets (link_at r);
  match l with
  | None => mret tt
  | Some l =>
      let l := note_established_inbound (e_mono env) p false l in
      m ← gets th_resources;
      '(m, ps) ← unwrap (Manager.handle_proof (unix_time inp) l (loop_ivs inp) (segment_draws inp) (payload p) m);
      _ ← modify (set_resources m);
      _ ← modify (put_link r (Requests.send_from_link (instant inp) ps l));
      _ ← for_each ps (send_packet (Some r));
      update_field th_resources set_resources (Manager.cleanup (unix_time inp))
  end.

(** A proof for an outbound link; the answer is the path whose hop count the
    activation has shown. *)
Definition out_link_proof (p : Packet) (key : AddressHash) : Tr S (option (AddressHash * Z)) :=
  l ← gets (link_at (OutLink key));
  match l with
  | None => mret None
  | Some l =>
      '(res, l) ← link_handle_packet (OutLink key) p l;
      match res with
      | ResultActivated =>
          iv ← draw;
          rtt_packet ← unwrap (create_rtt l iv);
          l ← send_from_link (Some (OutLink key)) l rtt_packet;
          _ ← modify (put_link (OutLink key) l);
          mret (Some (desc_address_hash (Link.destination l), u8_saturating_add (hops (header p)) 1))
      | _ => _ ← modify (put_link (OutLink key) l); mret None
      end
  end.

Fixpoint out_link_proofs (p : Packet) (keys : list AddressHash) (rebalanced : option (AddressHash * Z)) : Tr S (option (AddressHash * Z)) :=
  match keys with
  | [] => mret rebalanced
  | k :: keys' => x ← out_link_proof p k; out_link_proofs p keys' (match x with Some y => Some y | None => rebalanced end)
  end.

Definition rebalance_path (x : option (AddressHash * Z)) : Tr S unit :=
  match x with
  | None => mret tt
  | Some (dest, observed) =>
      t ← gets th_path_table;
      match PathTable_get t dest with
      | Some e => if pe_hops e =? observed then mret tt else modify (set_path_table (rebalance_hops t dest observed).1)
      | None => mret tt
      end
  end.

Definition in_link_proof (p : Packet) (key : AddressHash) : Tr S unit :=
  with_link (InLink key) (fun l => '(_, l) ← link_handle_packet (InLink key) p l; mret l).

(** A packet of a relayed link. *)
Definition route_on_link_table (p : Packet) (ingress : AddressHash) : Tr S unit :=
  env ← ask;
  x ← with_field th_link_table set_link_table (fun t => route_link_packet t (e_now env) p ingress);
  match x with Some (p, iface) => send_direct iface p | None => mret tt end.

Definition recall_known (dest : AddressHash) : Tr S (option Identity) :=
  env ← ask;
  with_field th_known_destinations set_known_destinations (fun k => let '(i, k) := Known_recall dest (e_unix env) k in (k, i)).

Definition link_request_proof (p : Packet) (ingress : AddressHash) : Tr S unit :=
  recalled ← recall_known (destination p);
  recalled ← match recalled with
             | Some i => mret (Some i)
             | None => t ← gets th_link_table;
                       match original_destination_of t (destination p) with
                       | Some d => recall_known d
                       | None => mret None
                       end
             end;
  outcome ← with_field th_link_table set_link_table (fun t => handle_lr_proof t p ingress (verifying_key <$> recalled));
  _ ← match path_hops_update outcome with
      | Some (d, h) => update_field th_path_table set_path_table (fun t => (rebalance_hops t d h).1)
      | None => mret tt
      end;
  match relay outcome with Some (p, iface) => send_direct iface p | None => mret tt end.

Definition resource_proof_link (p : Packet) (h : Handler S) : option LinkRef :=
  match out_links_with (destination p) h with
  | k :: _ => Some (OutLink k)
  | [] => if decide (is_Some (th_in_links h !! destination p)) then Some (InLink (destination p)) else None
  end.

Definition handle_proof (p : Packet) (ingress : AddressHash) : Tr S unit :=
  owner ← (if decide (context p = CtxResourceProof) then gets (resource_proof_link p) else mret None);
  match owner with
  | Some r => resource_proof r p
  | None =>
      _ ← relay_reverse_proof p ingress;
      receipts ← gets th_receipts;
      valid ← (if bool_decide (destination_type (header p) = Single) && bool_decide (is_Some (receipts !! destination p))
               then validate_single_destination_proof p else mret false);
      if (valid : bool) then mret tt
      else
        outs ← gets (out_links_with (destination p));
        rebalanced ← out_link_proofs p outs None;
        _ ← rebalance_path rebalanced;
        ins ← gets (in_links_with (destination p));
        _ ← for_each ins (in_link_proof p);
        let local := negb (bool_decide (outs = [])) || negb (bool_decide (ins = [])) in
        let lr_proof := bool_decide (context p = CtxLinkRequestProof) in
        _ ← when (negb local && negb lr_proof) (route_on_link_table p ingress);
        when lr_proof (link_request_proof p ingress)
  end.

(** ** Announces *)
Definition draw_word : Tr S Z := b ← draw; mret (be_decode (take 8 b) mod 2 ^ 64).

(** Whether the interface holds the announce back: an unexpected announce on an
    interface in a burst. *)
Definition hold_if_limited (p : Packet) (iface : AddressHash) : Tr S bool :=
  env ← ask;
  _ ← managing (fun m => (tt, Manager_received_announce iface (e_now env) (Z.of_nat (length (payload p)) + 18) m));
  known ← gets (fun h => PathTable_contains (th_path_table h) (destination p));
  pending ← with_field th_path_requests set_path_requests (fun r => has_pending r (e_now env) (destination p));
  waiting ← gets (fun h => discovery_pending (th_path_requests h) (e_now env) (destination p));
  exempt ← gets (fun h => match iface_kind iface (th_iface_manager h) with Some k => ingress_exempt_kind k | None => false end);
  if negb known && negb pending && negb waiting && negb exempt then
    limited ← managing (with_control iface (should_ingress_limit (e_now env)));
    if default false limited then
      _ ← managing (with_control iface (fun c => (tt, hold_announce p PATHFINDER_M c)));
      mret true
    else mret false
  else mret false.

Definition interface_rate (iface : AddressHash) (m : InterfaceManager) : option AnnounceRateLimit :=
  mjoin (read_control iface (fun c =>
    (fun target => mkRateLimit target (default 0 (announce_rate_grace (settings c))) (announce_rate_penalty (settings c)))
      <$> announce_rate_target (settings c)) m).

Definition rate_check (p : Packet) (iface : AddressHash) : Tr S bool :=
  env ← ask;
  limit ← gets (fun h => interface_rate iface (th_iface_manager h));
  blocked ← with_field th_announce_limits set_announce_limits (fun l =>
              match limit with
              | Some limit => AnnounceLimits_check_limited l (destination p) limit (e_now env) (e_unix env)
              | None => AnnounceLimits_check l (destination p) (e_now env) (e_unix env)
              end);
  mret (bool_decide (is_Some blocked)).

Definition protocol_violation (iface : AddressHash) : Tr S unit := managing (fun m => (tt, Manager_protocol_violation iface m)).

(** [known_ratchets.remember], in a storage of its own when none is configured. *)
Definition remember_announced_ratchet (dest : AddressHash) (ratchet : bytes) : Tr S unit :=
  env ← ask;
  h ← gets (fun h => h);
  match th_storage h with
  | Some s => let '(_, k, s) := remember_ratchet dest ratchet (e_unix env) (th_known_ratchets h) s in
              _ ← modify (set_known_ratchets k);
              modify (set_storage (Some s))
  | None => let '(_, k, _) := remember_ratchet dest ratchet (e_unix env) (th_known_ratchets h) (∅ : MemoryStorage) in
            modify (set_known_ratchets k)
  end.

(** The destination, its ratchet and the announce itself are remembered. *)
Definition remember_announce (p : Packet) (d : Destination Identity) (a : AnnounceData) : Tr S unit :=
  env ← ask;
  _ ← update_field th_known_destinations set_known_destinations
        (remember (Packet_hash p) (destination p) (Identity_to_bytes (dst_identity d)) (ad_app_data a) (e_unix env));
  _ ← persist_known_destinations;
  _ ← match ad_ratchet a with Some r => remember_announced_ratchet (destination p) r | None => mret tt end;
  known ← gets (knows_destination (destination p));
  _ ← when (negb known) (update_field th_single_out_destinations set_single_out_destinations (insert (destination p) d));
  update_field th_packet_cache set_packet_cache (fun c => PacketCache_cache_announce c p).

(** The interfaces that wait for the path are answered. *)
Definition answer_discovery (p : Packet) (iface : AddressHash) : Tr S unit :=
  env ← ask;
  waiting ← with_field th_path_requests set_path_requests (fun r => clear_discovery r (destination p));
  match waiting with
  | None => mret tt
  | Some ifaces =>
      let targets := match ifaces with [] => [iface] | _ => ifaces end in
      for_each targets (fun to_iface =>
        update_field th_announce_table set_announce_table
          (fun t => (add_response t (e_now env) (destination p) to_iface (u8_add (hops (header p)) 1) 0).1))
  end.

(** The path of the announce, also in the tunnel of its interface. *)
Definition install_path (p : Packet) (iface : AddressHash) (identity_hash : AddressHash) : Tr S unit :=
  env ← ask;
  m ← gets th_iface_manager;
  let gravity := default 0 (read_control iface (fun c => ctl_gravity (settings c)) m) in
  _ ← update_field th_path_table set_path_table
        (fun t => handle_announce_with_mode t (e_mono env) (e_unix env) p (transport p) iface (iface_mode iface m) (Some gravity));
  match iface_tunnel iface m with
  | None => mret tt
  | Some tunnel =>
      update_field th_tunnels set_tunnels
        (fun t => (associate_path t tunnel (destination p)
                     (mkTunnelPath identity_hash (u8_add (hops (header p)) 1) (e_mono env + PATHFINDER_E) (Packet_hash p)) (e_now env)).1)
  end.

(** An announce whose signature is valid. *)
Definition accept_announce (p : Packet) (iface : AddressHash) (rate_blocked : bool) (d : Destination Identity) (a : AnnounceData) : Tr S unit :=
  env ← ask;
  let dest_hash := address_hash (dst_identity d) in
  _ ← remember_announce p d a;
  _ ← when (negb rate_blocked)
        (word ← draw_word;
         t ← gets th_announce_table;
         t ← unwrap (AnnounceTable_add t (e_now env) word p (destination p) dest_hash);
         modify (set_announce_table t));
  _ ← answer_discovery p iface;
  _ ← install_path p iface dest_hash;
  h ← gets (fun h => h);
  _ ← when (retransmits h && negb rate_blocked)
        (msg ← with_field th_announce_table set_announce_table (fun t => new_packet t (e_now env) (destination p) (own_address h));
         match msg with Some msg => send None msg | None => mret tt end);
  emit [OAnnounce d (default [] (ad_app_data a)) (ad_ratchet a)].

Definition handle_announce (p : Packet) (iface : AddressHash) : Tr S unit :=
  local ← gets (has_destination (destination p));
  if (local : bool) then mret tt
  else
    held ← hold_if_limited p iface;
    if (held : bool) then mret tt
    else
      rate_blocked ← rate_check p iface;
      match announced_identity_hash p with
      | None => protocol_violation iface
      | Some identity_hash =>
          blackholed ← gets (fun h => is_blackholed identity_hash (th_blackholes h));
          if (blackholed : bool) then mret tt
          else
            match validate p with
            | Err _ => protocol_violation iface
            | Ok (d, a) => accept_announce p iface rate_blocked d a
            end
      end.

(** ** Data *)
Definition handle_cache_request (p : Packet) : Tr S bool :=
  if (length (payload p) =? HASH_SIZE)%nat then
    cached ← gets (fun h => PacketCache_get_cached_announce (th_packet_cache h) (Hash_new_from_slice (payload p)));
    match cached with
    | Some a => _ ← handle_announce a (destination p); mret true
    | None => mret false
    end
  else mret false.

(** Interfaces that can negotiate the MTU of a link. *)
Definition supports_mtu (kind : string) : bool :=
  bool_decide (kind ∈ ["TcpClient"; "TcpServer"; "BackboneClient"; "BackboneServer"; "AutoInterface"; "LocalServer"; "LocalClient";
                       "WeaveInterface"; "WeaveInterfacePeer"]%string).

(** A link request loses its MTU signalling on an interface without support. *)
Definition clamp_link_mtu (iface : AddressHash) (m : InterfaceManager) (p : Packet) : Packet :=
  if bool_decide (packet_type (header p) = LinkRequest)
     && negb (match iface_kind iface m with Some k => supports_mtu k | None => false end)
     && (length (payload p) =? 32 + 32 + LINK_MTU_SIZE)%nat
  then mkPacket (header p) (ifac p) (destination p) (transport p) (context p)
         (chain_opt (Some (take (length (payload p) - 3) (payload p))) PacketDataBuffer_new)
  else p.

Definition send_to_next_hop (p : Packet) (lookup ingress : option AddressHash) : Tr S bool :=
  env ← ask;
  let truncated := AddressHash_new_from_hash (Packet_hash p) in
  '(p1, iface) ← with_field th_path_table set_path_table (fun t => handle_inbound_packet t (e_mono env) p lookup);
  match iface with
  | None => mret false
  | Some iface =>
      _ ← match ingress with
          | Some received =>
              when (negb (bool_decide (packet_type (header p) = LinkRequest)))
                (update_field th_reverse_table set_reverse_table (insert truncated (mkReverse received iface (e_now env))))
          | None => mret tt
          end;
      m ← gets th_iface_manager;
      _ ← send_direct iface (clamp_link_mtu iface m p1);
      mret true
  end.

Definition handle_keepalive_response (p : Packet) (ingress : AddressHash) : Tr S bool :=
  if bool_decide (context p = CtxKeepAlive) && bool_decide (head (payload p) = Some KEEP_ALIVE_RESPONSE) then
    env ← ask;
    x ← with_field th_link_table set_link_table (fun t => handle_keepalive t (e_now env) p ingress);
    _ ← match x with Some (p, iface) => send_direct iface p | None => mret tt end;
    mret true
  else mret false.

(** A cached announce that a link asks for; the answer says whether it was
    sent. *)
Definition answer_link_cache_request (r : LinkRef) (p : Packet) : Tr S bool :=
  if bool_decide (context p = CtxCacheRequest) && (length (payload p) =? HASH_SIZE)%nat then
    cached ← gets (fun h => PacketCache_get_cached_announce (th_packet_cache h) (Hash_new_from_slice (payload p)));
    l ← gets (link_at r);
    match cached, l with
    | Some c, Some l =>
        iv ← draw;
        response ← unwrap (data_packet l iv (payload c));
        match response with
        | Ok q => l ← send_from_link (Some r) l q; _ ← modify (put_link r l); mret true
        | Err _ => mret false
        end
    | _, _ => mret false
    end
  else mret false.

(** Whether the owner of the link's destination wants the packet proved. *)
Definition proves_link_data (p : Packet) (l : Link.t) (h : Handler S) : bool :=
  if decide (context p = CtxChannel) then true
  else if decide (context p = CtxNone) then
    match th_single_in_destinations h !! desc_address_hash (Link.destination l) with
    | None => false
    | Some d => match proof_strategy d with
                | ProveNone => false
                | ProveApp => should_prove d p
                | ProveAll => true
                end
    end
  else false.

(** What an inbound link does with a packet that no engine took. *)
Definition in_link_packet (r : LinkRef) (p : Packet) (l : Link.t) : Tr S Link.t :=
  env ← ask;
  h ← gets (fun h => h);
  let proves := proves_link_data p l h in
  '(res, l) ← link_handle_packet r p l;
  match res with
  | ResultKeepAlive =>
      if keepalive_reply_due (e_mono env) l (out_link_keep (cfg_timers (th_config h)))
      then send_from_link (Some r) l (keep_alive_packet l KEEP_ALIVE_RESPONSE) else mret l
  | ResultMessageReceived (Some proof) => if proves then send_from_link (Some r) l proof else mret l
  | _ => mret l
  end.

(** The packet on a link of this instance: the resources, the requests, then the
    link itself; the answer says whether an engine took it. *)
Definition engines (r : LinkRef) (p : Packet) : Tr S bool :=
  env ← ask;
  _ ← with_link r (fun l => mret (note_established_inbound (e_mono env) p (is_out r) l));
  taken ← handle_resource_packet r p;
  if (taken : bool) then mret true else handle_request_or_response_packet r p.

Definition in_link_data (p : Packet) : Tr S bool :=
  let r := InLink (destination p) in
  taken ← engines r p;
  if (taken : bool) then mret true
  else
    answered ← answer_link_cache_request r p;
    if (answered : bool) then mret true
    else _ ← with_link r (in_link_packet r p); mret false.

Definition out_link_data (p : Packet) (key : AddressHash) : Tr S unit :=
  let r := OutLink key in
  taken ← engines r p;
  if (taken : bool) then mret tt
  else with_link r (fun l =>
         '(res, l) ← link_handle_packet r p l;
         match res with
         | ResultMessageReceived (Some proof) => send_from_link (Some r) l proof
         | _ => mret l
         end).

(** The answer says that the handler returns. *)
Definition handle_link_data (p : Packet) (ingress : AddressHash) : Tr S bool :=
  inbound ← gets (fun h => bool_decide (is_Some (th_in_links h !! destination p)));
  done ← (if (inbound : bool) then in_link_data p else mret false);
  if (done : bool) then mret true
  else
    outs ← gets (out_links_with (destination p));
    _ ← for_each outs (out_link_data p);
    if inbound || negb (bool_decide (outs = [])) then mret false
    else
      keepalive ← handle_keepalive_response p ingress;
      if (keepalive : bool) then mret true
      else _ ← route_on_link_table p ingress; mret false.

Definition handle_group_data (p : Packet) : Tr S unit :=
  h ← gets (fun h => h);
  match th_group_in_destinations h !! destination p with
  | None => mret tt
  | Some d =>
      if decide (is_Some (group_key d)) then
        match decrypt_group d (payload p) PACKET_MDU with
        | Ok plain => emit [OData (destination p) plain true]
        | Err _ => mret tt
        end
      else emit [OData (destination p) (payload p) false]
  end.

Definition handle_plain_data (p : Packet) : Tr S unit :=
  h ← gets (fun h => h);
  when (bool_decide (is_Some (th_plain_in_destinations h !! destination p))) (emit [OData (destination p) (payload p) false]).

Definition handle_single_data (p : Packet) (ingress : AddressHash) : Tr S unit :=
  h ← gets (fun h => h);
  match th_single_in_destinations h !! destination p with
  | Some d =>
      match Destination_decrypt d (payload p) PACKET_MDU with
      | Ok plain =>
          _ ← emit [OData (destination p) plain true];
          when (should_prove d p)
            (match create_single_destination_proof (cfg_use_implicit_proof (th_config h)) p ProveAll (signing_key (dst_identity d)) with
             | Some proof => send_packet None proof
             | None => mret tt
             end)
      | Err _ => mret tt
      end
  | None =>
      when (bool_decide (transport p = Some (own_address h)))
        (_ ← send_to_next_hop p None (Some ingress); mret tt)
  end.

Definition handle_data (p : Packet) (ingress : AddressHash) : Tr S unit :=
  replayed ← (if decide (context p = CtxCacheRequest) then handle_cache_request p else mret false);
  if (replayed : bool) then mret tt
  else
    match destination_type (header p) with
    | Packet.Link => _ ← handle_link_data p ingress; mret tt
    | Group => handle_group_data p
    | Plain => handle_plain_data p
    | Single => handle_single_data p ingress
    end.

(** ** Path requests *)
Definition medium_discovery_timeout : Tr S Z :=
  m ← gets th_iface_manager;
  match lowest_interface_bitrate m with
  | Some b => if 0 <? b then unwrap (medium_timeout b) else mret 0
  | None => mret 0
  end.

Definition register_discovery (dest iface : AddressHash) : Tr S bool :=
  env ← ask;
  timeout ← medium_discovery_timeout;
  with_field th_path_requests set_path_requests (fun r => register_discovery_with_timeout r (e_now env) dest (Some iface) timeout).

(** A path request for one interface, counted on it. *)
Definition forward_path_request (dest : AddressHash) (tag : option bytes) (other : AddressHash) : Tr S unit :=
  env ← ask;
  _ ← managing (fun m => (tt, Manager_sent_path_request other (e_now env) m));
  request_path dest (Some other) tag.

Definition online_ifaces_except (iface : AddressHash) (m : InterfaceManager) : list AddressHash :=
  (List.filter (fun x => negb (bool_decide (x.1 = iface)) && x.2) (live_iface_addresses m)).*1.

(** A path response of a local destination, whose ratchets it may rotate. *)
Definition local_path_response (dest : AddressHash) (d : Destination PrivateIdentity) : Tr S (result Packet) :=
  env ← ask;
  new_ratchet ← draw;
  rand ← draw;
  let '(r, d) := path_response new_ratchet (Hash_new_from_rand rand) None (e_secs env) d in
  _ ← update_field th_single_in_destinations set_single_in_destinations (insert dest d);
  mret r.

(** The grace of a path response, or [None] when the request is not answered. *)
Definition response_grace (iface : AddressHash) (request : PathRequest) (e : PathEntry) (m : InterfaceManager) : option Z :=
  if decide (requesting_transport request = Some (pe_received_from e)) then None
  else if decide (iface_mode iface m = Roaming /\ pe_iface e = iface) then None
  else if is_local_client_iface iface m || is_local_client_iface (pe_iface e) m then Some 0
  else Some (PATH_REQUEST_GRACE + if decide (iface_mode iface m = Roaming) then PATH_REQUEST_RG else 0).

Definition answer_known_path (iface : AddressHash) (request : PathRequest) (e : PathEntry) : Tr S unit :=
  env ← ask;
  m ← gets th_iface_manager;
  match response_grace iface request e m with
  | None => mret tt
  | Some grace =>
      update_field th_announce_table set_announce_table
        (fun t => (add_response t (e_now env) (pr_destination request) iface (pe_hops e) grace).1)
  end.

(** [Some None]: search on all interfaces; [Some (Some modes)]: on those with the
    modes. *)
Definition search_plan (iface : AddressHash) (m : InterfaceManager) : option (option (list InterfaceMode)) :=
  mjoin (read_control iface (fun c =>
    if recursive_prs (settings c) || bool_decide (ctl_mode (settings c) ∈ DISCOVER_PATHS_FOR) then Some None
    else if decide (ctl_mode (settings c) = Boundary) then Some (Some BOUNDARY_SEARCH_MODES)
    else None) m).

Definition pr_ingress_limited (iface : AddressHash) : Tr S bool :=
  env ← ask;
  m ← gets th_iface_manager;
  if match iface_kind iface m with Some k => ingress_exempt_kind k | None => false end then mret false
  else r ← managing (with_control iface (should_ingress_limit_pr (e_now env))); mret (default false r).

Definition search_on (request : PathRequest) (modes : option (list InterfaceMode)) (other : AddressHash) : Tr S unit :=
  env ← ask;
  m ← gets th_iface_manager;
  if negb (match modes with Some l => bool_decide (iface_mode other m ∈ l) | None => true end) then mret tt
  else
    limited ← managing (with_control other (should_egress_limit_pr (e_now env)));
    if default false limited then mret tt
    else forward_path_request (pr_destination request) (Some (tag_bytes request)) other.

Definition search_path (iface : AddressHash) (request : PathRequest) (modes : option (list InterfaceMode)) : Tr S unit :=
  limited ← pr_ingress_limited iface;
  if (limited : bool) then mret tt
  else
    started ← register_discovery (pr_destination request) iface;
    if (started : bool) then
      others ← gets (fun h => online_ifaces_except iface (th_iface_manager h));
      for_each others (search_on request modes)
    else mret tt.

(** A request for a destination to which there is no path. *)
Definition discover_path (iface : AddressHash) (request : PathRequest) : Tr S unit :=
  m ← gets th_iface_manager;
  if is_local_client_iface iface m then
    _ ← register_discovery (pr_destination request) iface;
    others ← gets (fun h => online_ifaces_except iface (th_iface_manager h));
    for_each others (forward_path_request (pr_destination request) None)
  else
    match search_plan iface m with
    | Some modes => search_path iface request modes
    | None => for_each (local_client_iface_addresses m) (forward_path_request (pr_destination request) None)
    end.

Definition handle_path_request (p : Packet) (iface : AddressHash) : Tr S unit :=
  env ← ask;
  request ← with_field th_path_requests set_path_requests (fun r => PathRequests_decode r (payload p));
  match request with
  | None => mret tt
  | Some request =>
      _ ← managing (fun m => (tt, Manager_received_path_request iface (e_now env) m));
      h ← gets (fun h => h);
      match th_single_in_destinations h !! pr_destination request with
      | Some d =>
          response ← local_path_response (pr_destination request) d;
          response ← unwrap (match response with Ok q => Some q | Err _ => None end);
          send_direct iface response
      | None =>
          match (if retransmits h then PathTable_get (th_path_table h) (pr_destination request) else None) with
          | Some e => answer_known_path iface request e
          | None => discover_path iface request
          end
      end
  end.

(** ** Tunnels *)
Definition should_restore (now : Z) (t : PathTable) (dest : AddressHash) (path : TunnelPath) : bool :=
  match PathTable_get t dest with
  | None => true
  | Some e => (PATHFINDER_E <=? path_age now (timestamp e)) || (tp_hops path <=? pe_hops e)
  end.

(** The candidates are restored or declined one after the other. *)
Fixpoint restore_paths (now : Z) (unix : f64) (iface : AddressHash) (candidates : list (AddressHash * TunnelPath)) (t : PathTable)
    : PathTable * list AddressHash :=
  match candidates with
  | [] => (t, [])
  | (dest, path) :: l =>
      if should_restore now t dest path then
        restore_paths now unix iface l
          (insert_restored t now unix dest (tp_received_from path) (tp_hops path) iface (tp_packet_hash path))
      else let '(t, declined) := restore_paths now unix iface l t in (t, dest :: declined)
  end.

Definition handle_tunnel_synthesize (p : Packet) (iface : AddressHash) : Tr S unit :=
  env ← ask;
  match decode_tunnel_synthesize (payload p) with
  | None => mret tt
  | Some synthesis =>
      let id := Tunnels.tunnel_id synthesis in
      handling ← with_field th_tunnels set_tunnels (fun t => handle_tunnel t id iface (e_now env));
      _ ← match handling with
          | Established => mret tt
          | Restored candidates =>
              declined ← with_field th_path_table set_path_table (restore_paths (e_mono env) (e_unix env) iface candidates);
              update_field th_tunnels set_tunnels (fun t => finish_restore t id declined)
          end;
      _ ← managing (set_iface_tunnel iface (Some id));
      mret tt
  end.

(** The answer says whether the packet is for a destination of the transport. *)
Definition handle_fixed_destinations (p : Packet) (iface : AddressHash) : Tr S bool :=
  h ← gets (fun h => h);
  if decide (destination p = th_fixed_dest_path_requests h) then _ ← handle_path_request p iface; mret true
  else if decide (destination p = th_fixed_dest_tunnel_synthesize h) then _ ← handle_tunnel_synthesize p iface; mret true
  else mret false.

(** ** Link requests *)
Definition handle_link_request_as_destination (d : Destination PrivateIdentity) (p : Packet) (iface : AddressHash) : Tr S unit :=
  env ← ask;
  links ← gets th_in_links;
  if negb (accepts_links d) then mret tt
  else
    match Destination_handle_packet d p with
    | HandleNone => mret tt
    | HandleLinkProof =>
        if decide (is_Some (links !! LinkId_from p)) then mret tt
        else
          secret ← draw;
          match new_from_request p (signing_key (dst_identity d)) (desc d) secret (e_mono env) with
          | Err _ => mret tt
          | Ok l =>
              let l := Link.prove_messages (match proof_strategy d with ProveNone => false | _ => true end) l in
              let '(proof, l, events) := Links.prove l in
              _ ← emit (OLinkIn <$> events);
              l ← send_from_link None l proof;
              _ ← update_field th_in_link_ifaces set_in_link_ifaces (insert (Link.id l) iface);
              update_field th_in_links set_in_links (insert (Link.id l) l)
          end
    end.

Definition handle_link_request_as_intermediate (received_from next_hop next_hop_iface : AddressHash) (remaining_hops : Z) (p : Packet) : Tr S unit :=
  env ← ask;
  h ← gets (fun h => h);
  let b := default 0 (read_control next_hop_iface (fun c => bitrate (settings c)) (th_iface_manager h)) in
  t ← unwrap (LinkTable_add (th_link_table h) (e_now env) p (destination p) received_from next_hop next_hop_iface remaining_hops b);
  _ ← modify (set_link_table t);
  _ ← send_to_next_hop p None None;
  mret tt.

Definition handle_link_request (p : Packet) (iface : AddressHash) : Tr S unit :=
  h ← gets (fun h => h);
  match th_single_in_destinations h !! destination p with
  | Some d => handle_link_request_as_destination d p iface
  | None =>
      match next_hop_full (th_path_table h) (destination p) with
      | None => mret tt
      | Some (next_hop, next_hop_iface) =>
          if decide (transport p = Some (own_address h)) then
            let remaining := match PathTable_get (th_path_table h) (destination p) with Some e => pe_hops e | None => 1 end in
            handle_link_request_as_intermediate iface next_hop next_hop_iface remaining p
          else mret tt
      end
  end.

End Transport.
