(* ===== verification/Persist.v ===== *)
(** * The transport's tables on storage ([src/src/transport.rs])

    A transport writes its packet hashes, its path table and its tunnels when it
    shuts down, and reads them when it starts, one path after the other as the
    interfaces of the paths come up.  [rmpv], which encodes and decodes the files,
    is the class [RmpvCodec]; [toy_codec] is an instance. *)

From S2P Require Import Prelude Float Buffer Crypto Hash Token Identity Msgpack Packet Counters Ifac PacketCache LinkTable AnnounceTable.
From S2P Require Import AnnounceLimits PathTable Destination Links PathRequests Tunnels Resource ResourceOut ResourceIn ResourceManager Requests.
From S2P Require Import IfaceControl Ifaces Storage Blackholes Inbound Handler.

(** ** [rmpv::Value] *)
Inductive RValue :=
| RNil
| RBool (b : bool)
| RInt (z : Z)
| RF32 (bits : Z)
| RF64 (bits : Z)
| RStr (d : bytes)
| RBin (d : bytes)
| RArray (l : list RValue)
| RMap (l : list (RValue * RValue))
| RExt (ty : Z) (d : bytes).

Fixpoint rv_depth (v : RValue) : nat :=
  match v with
  | RArray l => S (max_list (map rv_depth l))
  | RMap l => S (max_list (map (fun kv => rv_depth kv.1 `max` rv_depth kv.2)%nat l))
  | _ => 1
  end.

Definition small {A} (l : list A) : bool := Z.of_nat (length l) <? 2 ^ 32.

(** What the format can hold. *)
Fixpoint rv_wf (v : RValue) : bool :=
  match v with
  | RNil | RBool _ => true
  | RInt z => (- 2 ^ 63 <=? z) && (z <? 2 ^ 64)
  | RF32 b => (0 <=? b) && (b <? 2 ^ 32)
  | RF64 b => (0 <=? b) && (b <? 2 ^ 64)
  | RStr d | RBin d => small d
  | RArray l => small l && forallb rv_wf l
  | RMap l => small l && forallb (fun kv => rv_wf kv.1 && rv_wf kv.2) l
  | RExt ty d => (- 128 <=? ty) && (ty <? 128) && small d
  end.

(** [write_value] into a vector and [read_value] from a slice; the documented
    limit on nesting is 1024. *)
Class RmpvCodec := {
  rv_write : RValue -> option bytes;
  rv_read : bytes -> option RValue;
  rv_roundtrip : forall v, rv_wf v = true -> (rv_depth v < 1024)%nat -> exists b, rv_write v = Some b /\ rv_read b = Some v;
}.

Definition as_array (v : RValue) : option (list RValue) := match v with RArray l => Some l | _ => None end.
Definition as_u64 (v : RValue) : option Z := match v with RInt z => if 0 <=? z then Some z else None | _ => None end.
Definition as_i64 (v : RValue) : option Z := match v with RInt z => if z <? 2 ^ 63 then Some z else None | _ => None end.
Definition as_bool (v : RValue) : option bool := match v with RBool b => Some b | _ => None end.
Definition as_f64 (v : RValue) : option f64 :=
  match v with
  | RInt z => Some (f64_of_Z z)
  | RF32 b => Some (f64_from_f32 (f32_from_bits b))
  | RF64 b => Some (f64_from_bits b)
  | _ => None
  end.

Definition value_bin (v : RValue) : option bytes := match v with RBin d => Some d | _ => None end.
Definition value_addr (v : RValue) : option AddressHash := b ← value_bin v; if (length b =? 16)%nat then Some b else None.
Definition value_hash (v : RValue) : option Hash := b ← value_bin v; if (length b =? 32)%nat then Some b else None.
Definition value_f64 (v : RValue) : option f64 :=
  match as_f64 v with
  | Some x => Some x
  | None => match as_i64 v with Some z => Some (f64_of_Z z) | None => f64_of_Z <$> as_u64 v end
  end.

(** ** Files *)
Definition PACKET_HASHLIST_FILE : bytes := string_bytes "packet_hashlist.raw".
Definition DESTINATION_TABLE_FILE : bytes := string_bytes "destination_table".
Definition TUNNELS_FILE : bytes := string_bytes "tunnels".

Definition serialize_packet (p : Packet) : option bytes :=
  match Packet_serialize p (OutputBuffer.new (replicate (Z.to_nat 2048) 0)) with
  | (Ok _, b) => Some (OutputBuffer.as_slice b)
  | (Err _, _) => None
  end.

Definition destination_table_row (destination stable_iface : bytes) (hops learned_unix mode : Z) (gravity : option Z) (unresponsive : bool)
    (blobs : list RValue) (announce : option bytes) (received_from packet_hash : bytes) (expires_unix : option f64) : RValue :=
  RArray ([RBin destination; RBin stable_iface; RInt hops; RInt learned_unix; RInt mode;
           match gravity with Some g => RInt g | None => RNil end;
           RBool unresponsive; RArray blobs;
           match announce with Some b => RBin b | None => RNil end;
           RBin received_from; RBin packet_hash]
          ++ match expires_unix with Some x => [RF64 (f64_to_bits x)] | None => [] end).

(** The row of a path in use, when its interface is. *)
Definition live_row (now : Z) (unix_now : Z) (cache : PacketCache) (iface_ids : gmap AddressHash AddressHash) (e : AddressHash * PathEntry)
    : option RValue :=
  let '(destination, e) := e in
  iface ← iface_ids !! pe_iface e;
  let age := path_age now (timestamp e) / NANOS in
  Some (destination_table_row destination iface (pe_hops e) (Z.max 0 (unix_now - age)) (mode_as_u8 (mode e)) (gravity e) (unresponsive e)
          (RBin <$> drop (length (random_blobs e) - 32) (random_blobs e))
          (PacketCache_get_cached_announce cache (pe_packet_hash e) ≫= serialize_packet)
          (pe_received_from e) (pe_packet_hash e) (Some (expires_unix e))).

(** The row of a path that waits for its interface. *)
Definition waiting_row (p : PersistedPath) : RValue :=
  destination_table_row (pp_destination p) (pp_stable_iface p) (pp_hops p) (pp_stored_unix p) (pp_mode p) (pp_gravity p) (pp_unresponsive p)
    (RBin <$> pp_blobs p) (Some (pp_announce p)) (pp_received_from p) (pp_packet_hash p) (pp_expires_unix p).

Definition path_rows (now unix_now : Z) (cache : PacketCache) (iface_ids : gmap AddressHash AddressHash) (t : PathTable)
    (unresolved : option (list PersistedPath)) : list RValue :=
  omap (live_row now unix_now cache iface_ids) (btree_iter bytes_le (pt_map t))
  ++ (waiting_row <$> List.filter (fun p => negb (PathTable_contains t (pp_destination p))) (default [] unresolved)).

Definition tunnel_path_row (now : Z) (e : AddressHash * TunnelPath) : RValue :=
  RArray [RBin e.1; RBin (tp_received_from e.2); RInt (tp_hops e.2); RInt (Z.max 0 (tp_expires e.2 - now) / NANOS); RBin (tp_packet_hash e.2)].

Definition tunnel_row (now_instant now : Z) (iface_ids : gmap AddressHash AddressHash) (e : AddressHash * TunnelEntry) : RValue :=
  RArray [RBin e.1; match te_iface e.2 ≫= (fun i => iface_ids !! i) with Some i => RBin i | None => RNil end;
          RInt (Z.max 0 (te_expires e.2 - now_instant) / NANOS);
          RArray (tunnel_path_row now <$> btree_iter bytes_le (te_paths e.2))].

Section Files.
Context {S : Type} `{!Storage S}.
Context `{RmpvCodec}.

Definition write_hashlist (hashes : list Hash) (s : S) : bool * S :=
  let '(r, s) := write PACKET_HASHLIST_FILE (concat hashes) s in (bool_decide (r = Ok tt), s).

Definition write_table (path : bytes) (rows : list RValue) (s : S) : bool * S :=
  match rv_write (RArray rows) with
  | None => (false, s)
  | Some b => let '(r, s) := write path b s in (bool_decide (r = Ok tt), s)
  end.

End Files.

(** ** Parsing *)
Definition parse_blobs (v : RValue) : list bytes :=
  match as_array v with
  | Some items => omap (fun i => b ← value_bin i; if (length b =? 10)%nat then Some b else None) items
  | None => []
  end.

Definition parse_persisted_path (entry : RValue) : option PersistedPath :=
  fields ← as_array entry;
  if (length fields <? 11)%nat then None
  else
    let field i := nth i fields RNil in
    destination ← value_addr (field 0%nat);
    stable_iface ← value_addr (field 1%nat);
    announce ← value_bin (field 8%nat);
    received_from ← value_addr (field 9%nat);
    packet_hash ← value_hash (field 10%nat);
    Some (mkPersisted destination stable_iface (wrap 8 (default 0 (as_u64 (field 2%nat)))) (default 0 (as_u64 (field 3%nat)))
            (wrap 8 (default 1 (as_u64 (field 4%nat)))) (as_i64 (field 5%nat)) (default false (as_bool (field 6%nat))) (parse_blobs (field 7%nat))
            announce received_from packet_hash ((fields !! 11%nat) ≫= value_f64)).

Definition parse_persisted_paths `{RmpvCodec} (b : bytes) : list PersistedPath :=
  match rv_read b ≫= as_array with
  | Some entries => omap parse_persisted_path entries
  | None => []
  end.

(** The outer [None]s below are panics: a time that does not fit its type. *)
Definition INSTANT_MAX : Z := 2 ^ 63 * NANOS.
Definition checked_later (limit now secs : Z) : option Z := if now + secs * NANOS <? limit then Some (now + secs * NANOS) else None.

Definition parse_all {A} (f : RValue -> option (option A)) (l : list RValue) : option (list A) := r ← mapM f l; Some (omap id r).

Definition parse_tunnel_path (now : Z) (item : RValue) : option (option (AddressHash * TunnelPath)) :=
  match as_array item with
  | None => Some None
  | Some fields =>
      if (length fields <? 5)%nat then Some None
      else
        let field i := nth i fields RNil in
        match value_addr (field 0%nat), value_addr (field 1%nat), value_hash (field 4%nat) with
        | Some destination, Some received_from, Some packet_hash =>
            expires ← checked_later (DURATION_MAX + 1) now (default 0 (as_u64 (field 3%nat)));
            Some (Some (destination, mkTunnelPath received_from (wrap 8 (default 0 (as_u64 (field 2%nat)))) expires packet_hash))
        | _, _, _ => Some None
        end
  end.

Definition parse_tunnel (now_instant now : Z) (tunnel : RValue) : option (option (AddressHash * TunnelEntry)) :=
  match as_array tunnel with
  | None => Some None
  | Some fields =>
      if (length fields <? 4)%nat then Some None
      else
        let field i := nth i fields RNil in
        match value_addr (field 0%nat) with
        | None => Some None
        | Some id =>
            l ← parse_all (parse_tunnel_path now) (default [] (as_array (field 3%nat)));
            let paths := foldl (fun m x => <[x.1 := x.2]> m) ∅ l in
            if decide (paths = ∅) then Some None
            else
              expires ← checked_later INSTANT_MAX now_instant (default 0 (as_u64 (field 2%nat)));
              Some (Some (id, mkTunnelEntry None paths expires))
        end
  end.

Definition load_tunnels `{RmpvCodec} (now_instant now : Z) (b : bytes) (t : gmap AddressHash TunnelEntry) : option (gmap AddressHash TunnelEntry) :=
  match rv_read b ≫= as_array with
  | Some l => entries ← parse_all (parse_tunnel now_instant now) l; Some (foldl (fun t x => Tunnels_insert t x.1 x.2) t entries)
  | None => Some t
  end.

(** [as_chunks::<32>().0]: the whole chunks of the file. *)
Fixpoint hash_chunks (fuel : nat) (raw : bytes) : list Hash :=
  match fuel with
  | O => []
  | Datatypes.S fuel => if (length raw <? 32)%nat then [] else take 32 raw :: hash_chunks fuel (drop 32 raw)
  end.

Section Persist.
Context {S : Type} `{!Storage S}.
Context `{Sha256} `{Signing} `{!Verifying} `{!Ed25519} `{!Ed25519Keys}.
Context `{RmpvCodec}.

(** ** Saving *)
Definition with_storage {A} (s : S) (f : S -> A * S) : Tr S A :=
  let '(a, s) := f s in _ ← modify (set_storage (Some s)); mret a.

(** [&&] evaluates its left operands first: the path table is written also when
    the hash list could not be. *)
Definition persist_handler : Tr S bool :=
  env ← ask;
  h ← gets (fun h => h);
  match th_storage h with
  | None => mret true
  | Some s =>
      let m := th_iface_manager h in
      if connected_to_shared_instance m then mret true
      else
        let ids := stable_iface_map m in
        hash_ok ← (if cfg_retransmit (th_config h) then with_storage s (write_hashlist (PacketCache_hashes (th_packet_cache h))) else mret true);
        s ← gets (fun h => default s (th_storage h));
        path_ok ← with_storage s (write_table DESTINATION_TABLE_FILE
                     (path_rows (e_mono env) (e_secs env) (th_packet_cache h) ids (th_path_table h) (th_unresolved_paths h)));
        s ← gets (fun h => default s (th_storage h));
        if hash_ok && path_ok
        then with_storage s (write_table TUNNELS_FILE (tunnel_row (e_now env) (e_mono env) ids <$> btree_iter bytes_le (th_tunnels h)))
        else mret false
  end.

Definition shutdown_persist : Tr S unit :=
  done ← gets th_shutdown_persisted;
  if (done : bool) then mret tt
  else ok ← persist_handler; when ok (modify (set_shutdown_persisted true)).

(** ** Loading *)
Definition restored_entry (now unix_now : Z) (path : PersistedPath) (iface : AddressHash) : PathEntry :=
  let stored := if pp_stored_unix path =? 0 then unix_now else pp_stored_unix path in
  let age_ns := Z.min (Z.max 0 (unix_now - stored) * NANOS) I64_MAX in
  let m := default Full (mode_from_u8 (pp_mode path)) in
  mkPathEntry (pp_received_from path) (pp_hops path) iface (i64_saturating_sub (monotonic_ns now) age_ns) (pp_unresponsive path)
    (pp_packet_hash path) m
    (match pp_expires_unix path with
     | Some x => x
     | None => f64_add (f64_of_Z stored) (f64_of_Z (path_lifetime m / SECS))
     end) (pp_blobs path) (pp_gravity path).

Definition restore_persisted_path (path : PersistedPath) (iface : AddressHash) : Tr S unit :=
  env ← ask;
  match (Packet_deserialize (InputBuffer.new (pp_announce path))).1 with
  | Err _ => mret tt
  | Ok p =>
      blackholed ← gets (fun h => match announced_identity_hash p with Some i => is_blackholed i (th_blackholes h) | None => false end);
      if (blackholed : bool) then mret tt
      else
        _ ← update_field th_packet_cache set_packet_cache (fun c => PacketCache_cache_announce c p);
        update_field th_path_table set_path_table
          (fun t => PathTable_restore t (pp_destination path) (restored_entry (e_mono env) (e_secs env) path iface))
  end.

(** The paths with a live interface are restored; those whose interface id is
    ambiguous are dropped; the others wait. *)
Fixpoint restore_pending (live : gmap AddressHash AddressHash) (ambiguous : gset AddressHash) (pending : list PersistedPath)
    : Tr S (list PersistedPath) :=
  match pending with
  | [] => mret []
  | path :: l =>
      if decide (pp_stable_iface path ∈ ambiguous) then restore_pending live ambiguous l
      else match live !! pp_stable_iface path with
           | None => w ← restore_pending live ambiguous l; mret (path :: w)
           | Some iface => _ ← restore_persisted_path path iface; restore_pending live ambiguous l
           end
  end.

Definition load_hashlist (s : S) : Tr S unit :=
  env ← ask;
  match read PACKET_HASHLIST_FILE s with
  | None => mret tt
  | Some raw => update_field th_packet_cache set_packet_cache
                  (fun c => foldl (fun c h => PacketCache_remember_hash c (e_now env) h) c (hash_chunks (length raw) raw))
  end.

Definition load_persisted_state : Tr S unit :=
  env ← ask;
  h ← gets (fun h => h);
  let m := th_iface_manager h in
  let '(live, ambiguous) := classify_stable_ids m in
  let loaded := modify (set_persisted_loaded true) in
  if th_persisted_loaded h then mret tt
  else
    match th_storage h with
    | None => loaded
    | Some s =>
        if connected_to_shared_instance m then loaded
        else if bool_decide (live = ∅) && bool_decide (ambiguous = ∅) then mret tt
        else if negb (cfg_retransmit (th_config h)) then loaded
        else
          _ ← when (negb (th_persisted_aux_loaded h)) (load_hashlist s);
          let pending := match th_unresolved_paths h with
                         | Some l => l
                         | None => match read DESTINATION_TABLE_FILE s with Some b => parse_persisted_paths b | None => [] end
                         end in
          waiting ← restore_pending live ambiguous pending;
          _ ← match waiting with
              | [] => _ ← modify (set_unresolved_paths None); loaded
              | _ => modify (set_unresolved_paths (Some waiting))
              end;
          when (negb (th_persisted_aux_loaded h))
            (_ ← match read TUNNELS_FILE s with
                 | Some b => t ← unwrap (load_tunnels (e_now env) (e_mono env) b (th_tunnels h)); modify (set_tunnels t)
                 | None => mret tt
                 end;
             modify (set_persisted_aux_loaded true))
    end.

End Persist.

(** ** An instance of [RmpvCodec]

    A tag, then the value, with the length before what has one. *)
Fixpoint toy_write (v : RValue) : bytes :=
  match v with
  | RNil => [0]
  | RBool b => [1; if b then 1 else 0]
  | RInt z => [2; z]
  | RF32 b => [3; b]
  | RF64 b => [4; b]
  | RStr d => 5 :: Z.of_nat (length d) :: d
  | RBin d => 6 :: Z.of_nat (length d) :: d
  | RArray l => 7 :: Z.of_nat (length l) :: flat_map toy_write l
  | RMap l => 8 :: Z.of_nat (length l) :: flat_map (fun kv => toy_write kv.1 ++ toy_write kv.2) l
  | RExt ty d => 9 :: ty :: Z.of_nat (length d) :: d
  end.

Fixpoint toy_many {A} (f : bytes -> option (A * bytes)) (n : nat) (b : bytes) : option (list A * bytes) :=
  match n with
  | O => Some ([], b)
  | Datatypes.S n => '(x, b) ← f b; '(l, b) ← toy_many f n b; Some (x :: l, b)
  end.

Fixpoint toy_read (fuel : nat) (b : bytes) : option (RValue * bytes) :=
  match fuel with
  | O => None
  | Datatypes.S fuel =>
      match b with
      | tag :: b =>
          if tag =? 0 then Some (RNil, b)
          else
            match b with
            | x :: b =>
                if tag =? 1 then Some (RBool (x =? 1), b)
                else if tag =? 2 then Some (RInt x, b)
                else if tag =? 3 then Some (RF32 x, b)
                else if tag =? 4 then Some (RF64 x, b)
                else if tag =? 5 then Some (RStr (firstn (Z.to_nat x) b), drop (Z.to_nat x) b)
                else if tag =? 6 then Some (RBin (firstn (Z.to_nat x) b), drop (Z.to_nat x) b)
                else if tag =? 7 then '(l, b) ← toy_many (toy_read fuel) (Z.to_nat x) b; Some (RArray l, b)
                else if tag =? 8 then
                  '(l, b) ← toy_many (fun b => '(k, b) ← toy_read fuel b; '(v, b) ← toy_read fuel b; Some ((k, v), b)) (Z.to_nat x) b;
                  Some (RMap l, b)
                else
                  match b with
                  | m :: b => Some (RExt x (firstn (Z.to_nat m) b), drop (Z.to_nat m) b)
                  | [] => None
                  end
            | [] => None
            end
      | [] => None
      end
  end.

Lemma toy_many_written {A} (f : bytes -> option (A * bytes)) (w : A -> bytes) (l : list A) rest :
  (forall x rest, x ∈ l -> f (w x ++ rest) = Some (x, rest)) -> toy_many f (length l) (flat_map w l ++ rest) = Some (l, rest).
Proof.
  induction l as [|x l IH]; intros Hf; [done|]. cbn [length toy_many flat_map]. rewrite <- app_assoc, Hf by left. cbn.
  rewrite IH; [done|]. intros y r Hy. apply Hf. by right.
Qed.

Lemma toy_read_written fuel v rest : (rv_depth v <= fuel)%nat -> toy_read fuel (toy_write v ++ rest) = Some (v, rest).
Proof.
  revert v rest. induction fuel as [|fuel IH]; intros v rest Hd; [destruct v; cbn in Hd; lia|].
  assert (forall d : bytes, firstn (length d) (d ++ rest) = d /\ drop (length d) (d ++ rest) = rest) as Hs
    by (intros d; split; [apply take_app_length|apply drop_app_length]).
  destruct v as [|[]|z|b|b|d|d|l|l|ty d]; try reflexivity; cbn [rv_depth] in Hd; cbn -[Z.of_nat Z.to_nat]; rewrite ?Nat2Z.id;
    try (by destruct (Hs d) as [-> ->]).
  - rewrite toy_many_written; [done|]. intros x r Hx. apply IH.
    assert (rv_depth x <= max_list (map rv_depth l))%nat; [|lia]. apply max_list_elem_of_le. by apply list_elem_of_fmap_2.
  - rewrite (toy_many_written _ (fun kv => toy_write kv.1 ++ toy_write kv.2)); [done|]. intros [k v] r Hx. cbn.
    assert (rv_depth k `max` rv_depth v <= max_list (map (fun kv => rv_depth kv.1 `max` rv_depth kv.2) l))%nat
      by (apply max_list_elem_of_le, (list_elem_of_fmap_2 (fun kv => rv_depth kv.1 `max` rv_depth kv.2)%nat _ _ Hx)).
    rewrite <- app_assoc, IH by lia. cbn. by rewrite IH by lia.
Qed.

Definition toy_codec : RmpvCodec.
Proof.
  refine {| rv_write v := Some (toy_write v); rv_read b := fst <$> toy_read 1024 b |}.
  intros v _ Hd. exists (toy_write v). split; [done|]. pose proof (toy_read_written 1024 v [] ltac:(lia)) as E. rewrite app_nil_r in E.
  by rewrite E.
Defined.
