(* ===== verification/Loop.v ===== *)
(** * The tasks of the transport ([src/src/transport.rs], [manage_transport])

    The loop that takes packets from the interfaces, and the bodies of the timers:
    interface control, link checks, culling of tables, caches, resources and
    retransmission of announces.  A step of the transport is one of these bodies,
    or one packet ([TransportStep]). *)

From S2P Require Import Prelude Float Buffer Crypto Hash Token Identity Msgpack Packet Counters Ifac PacketCache LinkTable AnnounceTable.
From S2P Require Import AnnounceLimits PathTable Destination Links PathRequests Tunnels Resource ResourceOut ResourceIn ResourceManager Requests.
From S2P Require Import IfaceControl Ifaces Storage Blackholes Inbound Handler Transport Persist.

Section Loop.
Context {S : Type} `{!Storage S}.
Context `{Sha256} `{Hkdf} `{X25519} `{CbcCipher} `{HmacSha256}.
Context `{Signing} `{!Verifying} `{!Ed25519} `{!Ed25519Keys} `{Rmp} `{RmpDecode} `{RmpCursor} `{Bz2} `{Manager.Rmpv} `{RmpvCodec}.

Definition keys_of {A} (m : gmap AddressHash A) : list AddressHash := (btree_iter bytes_le m).*1.

(** ** Links *)
Definition close_after (stale_after configured : Z) (l : Link.t) : Z := Z.min DURATION_MAX (stale_after + Z.min configured (close_grace l)).

(** The answer says whether the link is removed. *)
Definition check_in_link (key : AddressHash) : Tr S bool :=
  env ← ask;
  timers ← gets (fun h => cfg_timers (th_config h));
  l ← gets (link_at (InLink key));
  match l with
  | None => mret false
  | Some l =>
      let stale_after := effective_stale l (in_link_stale timers) in
      match Link.status l with
      | Active => _ ← when (stale_after <=? Links.elapsed (e_mono env) l) (modify (put_link (InLink key) (stale l))); mret false
      | Stale =>
          if close_after stale_after (in_link_close timers) l <=? Links.elapsed (e_mono env) l
          then _ ← teardown_link (InLink key) true; mret true
          else mret false
      | _ => mret false
      end
  end.

(** How long a link may take to be established, on the path to its destination. *)
Definition establishment_timeout (dest : AddressHash) (h : Handler S) : option Z :=
  let e := PathTable_get (th_path_table h) dest in
  let hops := match e with Some e => pe_hops e | None => 1 end in
  let b := match e with
           | Some e => default 0 (read_control (pe_iface e) (fun c => bitrate (settings c)) (th_iface_manager h))
           | None => 0
           end in
  first ← first_hop_timeout b;
  Some (first + TIMEOUT_PER_HOP * Z.max hops 1).

Inductive LinkCheck := KeepLink | RemoveLink | ExpireLink (destination : AddressHash).

Definition check_pending_link (key : AddressHash) (l : Link.t) : Tr S LinkCheck :=
  env ← ask;
  timers ← gets (fun h => cfg_timers (th_config h));
  if Links.elapsed (e_mono env) l <=? out_link_repeat timers then mret KeepLink
  else
    let dest := desc_address_hash (Link.destination l) in
    h ← gets (fun h => h);
    timeout ← unwrap (establishment_timeout dest h);
    if timeout <? Links.elapsed (e_mono env) l
    then _ ← teardown_link (OutLink key) true; mret (ExpireLink dest)
    else
      let '(p, l) := Links.request (e_mono env) l in
      l ← send_from_link (Some (OutLink key)) l p;
      _ ← modify (put_link (OutLink key) l);
      mret KeepLink.

Definition check_out_link (key : AddressHash) : Tr S LinkCheck :=
  env ← ask;
  config ← gets th_config;
  let timers := cfg_timers config in
  _ ← with_link (OutLink key) (fun l =>
        if keepalive_due (e_mono env) l (out_link_keep timers)
        then send_from_link (Some (OutLink key)) l (keep_alive_packet l KEEP_ALIVE_REQUEST) else mret l);
  l ← gets (link_at (OutLink key));
  match l with
  | None => mret KeepLink
  | Some l =>
      let stale_after := effective_stale l (out_link_stale timers) in
      let elapsed := Links.elapsed (e_mono env) l in
      match Link.status l with
      | Active => _ ← when (stale_after <=? elapsed) (modify (put_link (OutLink key) (stale l))); mret KeepLink
      | Stale =>
          if cfg_restart_outlinks config then
            _ ← when (out_link_restart timers <? elapsed) (modify (put_link (OutLink key) (restart l))); mret KeepLink
          else if close_after stale_after (out_link_close timers) l <=? elapsed
          then _ ← teardown_link (OutLink key) true; mret RemoveLink
          else mret KeepLink
      | Pending => check_pending_link key l
      | Closed =>
          let '(l, events) := close l in
          _ ← modify (put_link (OutLink key) l);
          _ ← emit (OLinkOut <$> events);
          mret RemoveLink
      | Handshake => mret KeepLink
      end
  end.

Fixpoint check_each {A} (f : AddressHash -> Tr S A) (keys : list AddressHash) : Tr S (list (AddressHash * A)) :=
  match keys with
  | [] => mret []
  | k :: keys => a ← f k; l ← check_each f keys; mret ((k, a) :: l)
  end.

Definition remove_in_link (key : AddressHash) (h : Handler S) : Handler S :=
  set_in_link_ifaces (delete key (th_in_link_ifaces h)) (set_in_links (delete key (th_in_links h)) h).

(** The path of a link that was not established is asked for again. *)
Definition rediscover (dest : AddressHash) : Tr S unit :=
  env ← ask;
  h ← gets (fun h => h);
  if retransmits h || connected_to_shared_instance (th_iface_manager h) then mret tt
  else
    allowed ← with_field th_path_requests set_path_requests (fun r => request_allowed r (e_now env) dest);
    when allowed
      (_ ← update_field th_path_table set_path_table (fun t => (expire_path t (e_mono env) dest).1);
       request_path dest None None).

Definition handle_check_links : Tr S unit :=
  in_keys ← gets (fun h => keys_of (th_in_links h));
  removed ← check_each check_in_link in_keys;
  _ ← for_each (List.filter snd removed) (fun x => modify (remove_in_link x.1));
  out_keys ← gets (fun h => keys_of (th_out_links h));
  checked ← check_each check_out_link out_keys;
  _ ← for_each (List.filter (fun x => match x.2 with KeepLink => false | _ => true end) checked)
        (fun x => update_field th_out_links set_out_links (delete x.1));
  for_each (omap (fun x => match x.2 with ExpireLink d => Some d | _ => None end) checked) rediscover.

(** ** Shared instance *)
Definition shared_connection_disappeared : Tr S unit :=
  ins ← gets (fun h => keys_of (th_in_links h));
  _ ← for_each ins (fun k => _ ← teardown_link (InLink k) true; mret tt);
  outs ← gets (fun h => keys_of (th_out_links h));
  _ ← for_each outs (fun k => _ ← teardown_link (OutLink k) true; mret tt);
  _ ← modify (set_in_links ∅);
  _ ← modify (set_out_links ∅);
  _ ← modify (set_in_link_ifaces ∅);
  _ ← update_field th_announce_table set_announce_table AnnounceTable_clear;
  _ ← update_field th_path_table set_path_table PathTable_clear;
  _ ← modify (set_reverse_table ∅);
  _ ← update_field th_link_table set_link_table LinkTable_clear;
  update_field th_tunnels set_tunnels Tunnels_clear.

Definition announce_destination (key : AddressHash) : Tr S unit :=
  h ← gets (fun h => h);
  match th_single_in_destinations h !! key with
  | None => mret tt
  | Some d => r ← local_path_response key d; match r with Ok p => send_packet None p | Err _ => mret tt end
  end.

Definition shared_connection_reappeared : Tr S unit :=
  h ← gets (fun h => h);
  when (connected_to_shared_instance (th_iface_manager h)) (for_each (keys_of (th_single_in_destinations h)) announce_destination).

(** A link of a client that is gone; it is no longer in the table when it is
    closed. *)
Definition drop_client_link (id : AddressHash) : Tr S unit :=
  links ← gets th_in_links;
  _ ← match links !! id with
      | None => mret tt
      | Some l =>
          _ ← modify (set_in_links (delete id links));
          '(res, l, events) ← unwrap (teardown l);
          _ ← emit (OLinkIn <$> events);
          match res with
          | Ok (Some p) => _ ← send_from_link None l p; mret tt
          | _ => mret tt
          end
      end;
  update_field th_in_link_ifaces set_in_link_ifaces (delete id).

Definition drop_local_client (iface : AddressHash) : Tr S unit :=
  _ ← update_field th_path_table set_path_table (fun t => (drop_all_via t iface).1);
  _ ← update_field th_announce_table set_announce_table (fun t => drop_responses_to t iface);
  _ ← update_field th_link_table set_link_table (fun t => LinkTable_drop_iface t iface);
  _ ← update_field th_tunnels set_tunnels (fun t => Tunnels_drop_iface t iface);
  _ ← update_field th_reverse_table set_reverse_table
        (filter (fun e : AddressHash * ReverseEntry => rv_received e.2 <> iface /\ rv_outbound e.2 <> iface));
  dead ← gets (fun h => (List.filter (fun e => bool_decide (e.2 = iface)) (btree_iter bytes_le (th_in_link_ifaces h))).*1);
  for_each dead drop_client_link.

Definition note_shared_instance : Tr S unit :=
  h ← gets (fun h => h);
  let online := connected_to_shared_instance (th_iface_manager h) in
  let clients := local_client_iface_addresses (th_iface_manager h) in
  match th_shared_was_online h with
  | None => _ ← modify (set_shared_was_online (Some online)); modify (set_seen_local_clients clients)
  | Some was =>
      _ ← (if was && negb online then shared_connection_disappeared
           else if negb was && online then shared_connection_reappeared else mret tt);
      _ ← modify (set_shared_was_online (Some online));
      let gone := List.filter (fun i => negb (bool_decide (i ∈ clients))) (th_seen_local_clients h) in
      _ ← for_each gone drop_local_client;
      modify (set_seen_local_clients clients)
  end.

(** ** Inbound packets *)
Definition record_phy (p : Packet) (address : AddressHash) (h : Handler S) : Handler S :=
  match find_live address (th_iface_manager h) with
  | None => h
  | Some i =>
      let c := if_stats i in
      let f32 b := f64_from_f32 (f32_from_bits b) in
      match rssi c, snr c, quality c with
      | None, None, None => h
      | r, n, q => set_phy (PhyCache_record (Packet_hash p) (f64_of_Z <$> r) (f32 <$> n) (f32 <$> q) (th_phy h)) h
      end
  end.

(** A directed packet for another instance. *)
Definition for_other_instance (p : Packet) (h : Handler S) : bool :=
  bool_decide (header_type (header p) = Type2) && negb (bool_decide (packet_type (header p) = Announce))
  && match transport p with Some t => negb (bool_decide (t = own_address h)) | None => false end.

(** A packet in transit that this instance only overheard. *)
Definition overheard (p : Packet) (h : Handler S) : bool :=
  match transport p with
  | None => false
  | Some t =>
      negb (bool_decide (destination_type (header p) = Packet.Link)) && negb (bool_decide (packet_type (header p) = Announce))
      && negb (bool_decide (packet_type (header p) = Proof)) && negb (bool_decide (t = own_address h)) && negb (has_destination t h)
  end.

Definition dispatch (p : Packet) (address : AddressHash) : Tr S unit :=
  match packet_type (header p) with
  | Announce => handle_announce p address
  | LinkRequest => handle_link_request p address
  | Proof => handle_proof p address
  | Data => handle_data p address
  end.

Definition inbound_packet (m : RxMessage) : Tr S unit :=
  let p := rx_packet m in
  let address := rx_address m in
  _ ← emit [ORx m];
  _ ← modify (record_phy p address);
  if negb (packet_filter p) then
    _ ← managing (fun m => (tt, Manager_packet_filter_hit address m));
    protocol_violation address
  else
    fixed ← handle_fixed_destinations p address;
    if (fixed : bool) then mret tt
    else
      h ← gets (fun h => h);
      if for_other_instance p h then mret tt
      else
        fresh ← filter_duplicate_packets p;
        if negb fresh then mret tt
        else
          h ← gets (fun h => h);
          if overheard p h then mret tt else dispatch p address.

Definition ingress_limited_path_request (m : RxMessage) : Tr S bool :=
  h ← gets (fun h => h);
  if bool_decide (packet_type (header (rx_packet m)) = Data) && bool_decide (destination (rx_packet m) = th_fixed_dest_path_requests h)
  then pr_ingress_limited (rx_address m) else mret false.

Fixpoint classify_all (batch : list RxMessage) : Tr S (list (TrafficClass * RxMessage)) :=
  match batch with
  | [] => mret []
  | m :: l =>
      limited ← ingress_limited_path_request m;
      dest ← gets th_fixed_dest_path_requests;
      rest ← classify_all l;
      mret ((classify (rx_packet m) dest limited, m) :: rest)
  end.

(** A batch of received packets: queued by class, drained in order, handled. *)
Definition inbound_batch (batch : list RxMessage) : Tr S unit :=
  classified ← classify_all batch;
  drained ← with_field th_inbound_queues set_inbound_queues
              (fun q => let '(out, q) := drain_queues (put_all classified q) in (q, out));
  for_each drained inbound_packet.

(** ** Timers *)
Definition synthesize_tunnel (iface : AddressHash) : Tr S unit :=
  h ← gets (fun h => h);
  if decide (is_Some (iface_tunnel iface (th_iface_manager h))) then mret tt
  else
    seed ← draw;
    let i := cfg_identity (th_config h) in
    let p := synthesize_tunnel_packet (public_key (identity i)) (signing_key i) iface (th_fixed_dest_tunnel_synthesize h)
               (if retransmits h then Some (own_address h) else None) seed in
    _ ← managing (set_iface_wants_tunnel iface false);
    send_direct iface p.

Definition control_tick : Tr S unit :=
  env ← ask;
  _ ← load_persisted_state;
  _ ← note_shared_instance;
  released ← managing (release_held_announces (e_now env));
  _ ← for_each released (fun x => handle_announce x.2 x.1);
  m ← gets th_iface_manager;
  '(m, out) ← unwrap (process_announce_queues (e_now env) m);
  _ ← modify (set_iface_manager m);
  _ ← emit ((fun x : AddressHash * TxMessage => OSent x.1 x.2) <$> out);
  synth ← gets (fun h => interfaces_wanting_tunnel (th_iface_manager h));
  for_each synth synthesize_tunnel.

Definition link_tick : Tr S unit :=
  env ← ask;
  _ ← update_field th_receipts set_receipts (check_receipts (e_now env));
  handle_check_links.

Definition handle_cleanup : Tr S unit :=
  env ← ask;
  _ ← managing (fun m => (tt, Ifaces.cleanup m));
  update_field th_tunnels set_tunnels (fun t => (Tunnels_clean t (e_now env)).1).

(** What follows from a relayed link that was never proved. *)
Definition stale_link (e : LinkEntry) : Tr S unit :=
  env ← ask;
  h ← gets (fun h => h);
  let dest := original_destination e in
  let path := PathTable_get (th_path_table h) dest in
  allowed ← with_field th_path_requests set_path_requests (fun r => request_allowed r (e_now env) dest);
  let again (exclude : option AddressHash) : Tr S unit :=
    _ ← when (negb (retransmits h)) (update_field th_path_table set_path_table (fun t => (expire_path t (e_mono env) dest).1));
    request_path dest exclude None in
  if negb (bool_decide (is_Some path)) || (allowed && (taken_hops e =? 0)) then again None
  else if allowed && (bool_decide (pe_hops <$> path = Some 1) || (taken_hops e =? 1)) then
    _ ← when (retransmits h && negb (bool_decide (iface_mode (receiving_iface e) (th_iface_manager h) = Boundary)))
          (update_field th_path_table set_path_table (fun t => (mark_path_unresponsive t dest).1));
    again (Some (receiving_iface e))
  else mret tt.

Definition cull_tick : Tr S unit :=
  env ← ask;
  live ← gets (fun h => (live_iface_addresses (th_iface_manager h)).*1);
  _ ← update_field th_reverse_table set_reverse_table
        (filter (fun e : AddressHash * ReverseEntry =>
           Z.max 0 (e_now env - rv_at e.2) < REVERSE_TIMEOUT /\ rv_received e.2 ∈ live /\ rv_outbound e.2 ∈ live));
  _ ← update_field th_path_table set_path_table (fun t => (drop_ifaces_not_in t live).1);
  stale ← with_field th_link_table set_link_table (fun t => LinkTable_remove_stale t (e_now env));
  _ ← for_each stale stale_link;
  update_field th_path_table set_path_table (fun t => (expire_paths t (e_mono env)).1).

Definition cache_tick : Tr S unit :=
  env ← ask;
  timers ← gets (fun h => cfg_timers (th_config h));
  _ ← update_field th_packet_cache set_packet_cache (fun c => PacketCache_release c (e_now env) (keep_packet_cached timers));
  update_field th_blackholes set_blackholes (fun b => (Blackholes_clean (e_unix env) b).2).

Fixpoint draw_ivs (ids : list LinkId) : Tr S (LinkId -> nat -> bytes) :=
  match ids with
  | [] => mret (fun _ _ => [])
  | id :: l => i ← draw_inputs; f ← draw_ivs l; mret (fun x => if decide (x = id) then loop_ivs i else f x)
  end.

(** [all_links] holds the inbound links by their ids and the outbound links by
    their destinations. *)
Definition resource_tick : Tr S unit :=
  env ← ask;
  h ← gets (fun h => h);
  let all_links : gmap LinkId Link.t := th_out_links h ∪ th_in_links h in
  out_ivs ← draw_ivs (keys_of all_links);
  in_ivs ← draw_ivs (keys_of all_links);
  '(m, ps) ← unwrap (Manager.check (e_unix env) all_links out_ivs in_ivs (th_resources h));
  _ ← modify (set_resources m);
  _ ← for_each ps (send_packet None);
  update_field th_resources set_resources (Manager.cleanup (e_unix env)).

Definition retransmit_announces (retransmit_old : bool) : Tr S unit :=
  env ← ask;
  h ← gets (fun h => h);
  messages ← with_field th_announce_table set_announce_table (fun t => tx_to_retransmit t (e_now env) (own_address h));
  _ ← for_each messages (send None);
  if retransmit_old then
    old ← gets (fun h => tx_to_retransmit_old (th_announce_table h) (own_address h));
    for_each old (send None)
  else mret tt.

(** The retransmission timer remembers when old announces were last sent. *)
Definition old_due (timers : TimerConfig) (now : Z) (last : option Z) : bool * option Z :=
  match last with
  | Some at_ => if old_announces_retransmit timers <? Z.max 0 (now - at_) then (true, Some now) else (false, last)
  | None => (false, None)
  end.

End Loop.
