(* ===== verification/Api.v ===== *)
(** * What the transport offers to its user ([src/src/transport.rs], [Transport])

    The operations of the public interface that change the state or send packets,
    in the monad of [Handler]; each locks the state for its whole body.
    [Transport_new] is the state a transport starts with. *)

From S2P Require Import Prelude Float Buffer Crypto Hash Token Identity Msgpack Packet Counters Ifac PacketCache LinkTable AnnounceTable.
From S2P Require Import AnnounceLimits PathTable Destination Links PathRequests Tunnels Resource ResourceOut ResourceIn ResourceManager Requests.
From S2P Require Import IfaceControl Ifaces Storage Blackholes Inbound Handler Transport Persist Loop.

Section Api.
Context {S : Type} `{!Storage S}.
Context `{Sha256} `{Hkdf} `{X25519} `{CbcCipher} `{HmacSha256}.
Context `{Signing} `{!Verifying} `{!Ed25519} `{!Ed25519Keys} `{Rmp} `{RmpDecode} `{RmpCursor} `{RmpStr} `{Bz2} `{Manager.Rmpv} `{RmpvCodec}.

(** ** Starting *)
Definition rnstransport : bytes := string_bytes "rnstransport".
Definition path_request_address : AddressHash :=
  desc_address_hash (desc (PlainDestination_new Empty (DestinationName_new rnstransport (string_bytes "path.request")))).
Definition tunnel_synthesize_address : AddressHash :=
  desc_address_hash (desc (PlainDestination_new Empty (DestinationName_new rnstransport (string_bytes "tunnel.synthesize")))).

(** [word]: the random number behind [local_hops_delta]. *)
Definition Transport_new (config : TransportConfig) (storage : option S) (word : Z) : Handler S :=
  let own := address_hash (identity (cfg_identity config)) in
  let delta := if cfg_local_hops_delta config then word mod 256 mod 6 + 2 else 0 in
  let manager := if delta =? 0 then Manager_new else set_local_hops_delta delta (Some own) Manager_new in
  mkHandler config manager (PathTable_new (cfg_reroute_eager config)) AnnounceTable_new ∅ LinkTable_new ∅ ∅ ∅ ∅ AnnounceLimits_new
    (PhyCache_new (cfg_phy_cache_capacity config)) ∅ ∅ ∅ (PacketCache_new (cfg_announce_cache_capacity config)) Manager.new
    (Blackholes_new (cfg_blackhole_publish config))
    (PathRequests_new (if cfg_retransmit config then Some own else None) path_request_address)
    storage Known_new ∅ ∅ ∅ path_request_address tunnel_synthesize_address Tunnels_new [] (cfg_blackhole_sources config)
    (InboundQueues_new (cfg_inbound_queue_lengths config)) ∅ None [] (bool_decide (storage = None)) false None false.

(** ** Packets *)
Definition outbound (p : Packet) : Tr S unit :=
  env ← ask;
  '(p, iface) ← with_field th_path_table set_path_table (fun t => handle_local_packet t (e_mono env) p);
  match iface with Some i => send_direct i p | None => send_packet None p end.

Definition send_broadcast (p : Packet) (from : option AddressHash) : Tr S unit := send None (mkTxMessage (TxBroadcast from) p).

(** The ratchets of an announced destination, when they are kept in a file. *)
Definition save_announced_ratchets (dest : AddressHash) (d : Destination PrivateIdentity) : Tr S unit :=
  h ← gets (fun h => h);
  match th_destination_ratchet_paths h !! dest, th_storage h, ratchets d with
  | Some path, Some s, Some r =>
      _ ← with_storage s (save_destination_ratchets path (dst_identity d) (clean_destination_ratchets r (retained_ratchets d)));
      mret tt
  | _, _, _ => mret tt
  end.

(** [d] is the destination, which the table shares when it is registered. *)
Definition send_announce (key : AddressHash) (d : Destination PrivateIdentity) (app_data : option bytes) : Tr S unit :=
  env ← ask;
  new_ratchet ← draw;
  rand ← draw;
  let '(r, d) := announce_at new_ratchet (Hash_new_from_rand rand) app_data (e_secs env) d in
  _ ← update_field th_single_in_destinations set_single_in_destinations (alter (fun _ => d) key);
  p ← unwrap (match r with Ok p => Some p | Err _ => None end);
  _ ← save_announced_ratchets (destination p) d;
  send_packet None p.

(** The payload on each of the links that satisfy the condition; the answer is
    the hashes of the packets. *)
Fixpoint send_on_links (wanted : Link.t -> bool) (payload_ : bytes) (refs : list LinkRef) : Tr S (list Hash) :=
  match refs with
  | [] => mret []
  | r :: refs =>
      l ← gets (link_at r);
      sent ← match l with
             | None => mret []
             | Some l =>
                 if wanted l && bool_decide (Link.status l = Active) then
                   iv ← draw;
                   p ← unwrap (data_packet l iv payload_);
                   match p with
                   | Err _ => mret []
                   | Ok p => l ← send_from_link (Some r) l p; _ ← modify (put_link r l); mret [Packet_hash p]
                   end
                 else mret []
             end;
      rest ← send_on_links wanted payload_ refs;
      mret (sent ++ rest)
  end.

Definition towards (dest : AddressHash) (l : Link.t) : bool := bool_decide (desc_address_hash (Link.destination l) = dest).

Definition send_to_all_out_links (payload_ : bytes) : Tr S unit :=
  refs ← gets (fun h => OutLink <$> keys_of (th_out_links h));
  _ ← send_on_links (fun _ => true) payload_ refs; mret tt.

Definition send_to_out_links (dest : AddressHash) (payload_ : bytes) : Tr S (list Hash) :=
  refs ← gets (fun h => OutLink <$> keys_of (th_out_links h));
  send_on_links (towards dest) payload_ refs.

Definition send_to_in_links (dest : AddressHash) (payload_ : bytes) : Tr S unit :=
  refs ← gets (fun h => InLink <$> keys_of (th_in_links h));
  _ ← send_on_links (towards dest) payload_ refs; mret tt.

(** ** Links *)

(** The MTU that a link request signals: that of the interface of the next hop. *)
Definition link_request_mtu (dest : AddressHash) (h : Handler S) : Z :=
  let m := th_iface_manager h in
  let iface := match PathTable_get (th_path_table h) dest with
               | Some e => Some (pe_iface e)
               | None => first_iface_address m
               end in
  default PROTOCOL_MTU (iface ≫= (fun i => iface_hw_mtu i m)).

(** A link to the destination; an open one is used again. *)
Definition link (d : DestinationDesc) : Tr S unit :=
  env ← ask;
  h ← gets (fun h => h);
  let dest := desc_address_hash d in
  let usable := match th_out_links h !! dest with
                | Some l => negb (bool_decide (Link.status l = Closed))
                | None => false
                end in
  if usable then mret tt
  else
    secret ← draw;
    seed ← draw;
    let l := Link_new secret seed d (e_mono env) in
    let l := if cfg_link_mtu_discovery (th_config h) then set_mtu (link_request_mtu dest h) l else l in
    let '(p, l) := Links.request (e_mono env) l in
    _ ← update_field th_out_links set_out_links (insert dest l);
    if PathTable_contains (th_path_table h) dest then outbound p else send_packet None p.

Definition set_destination_accepts_links (dest : AddressHash) (accepts : bool) : Tr S bool :=
  h ← gets (fun h => h);
  match th_single_in_destinations h !! dest with
  | None => mret false
  | Some d => _ ← modify (set_single_in_destinations (<[dest := set_accepts_links accepts d]> (th_single_in_destinations h))); mret true
  end.

(** ** Destinations *)
Definition add_destination (i : PrivateIdentity) (name : DestinationName) : Tr S (Destination PrivateIdentity) :=
  let d := SingleInputDestination_new i name in
  _ ← update_field th_single_in_destinations set_single_in_destinations (insert (desc_address_hash (desc d)) d);
  mret d.

Definition add_plain_destination (name : DestinationName) : Tr S (Destination EmptyIdentity) :=
  let d := PlainDestination_new Empty name in
  _ ← update_field th_plain_in_destinations set_plain_in_destinations (insert (desc_address_hash (desc d)) d);
  mret d.

Definition add_group_destination (name : DestinationName) : Tr S (Destination EmptyIdentity) :=
  let d := GroupDestination_new Empty name in
  _ ← update_field th_group_in_destinations set_group_in_destinations (insert (desc_address_hash (desc d)) d);
  mret d.

Definition group_limit (keyed : bool) : Z :=
  if keyed then Z.max 0 (Z.max 0 (PACKET_PROTOCOL_MDU - TOKEN_OVERHEAD) - Packet.AES128_BLOCKSIZE) else PACKET_PROTOCOL_MDU.

Definition open_packet (ty : DestinationType) (dest : AddressHash) (d : bytes) : Packet :=
  mkPacket (mkHeader Open false Type1 Broadcast ty Data 0) None dest None CtxNone (StaticBuffer.safe_write d PacketDataBuffer_new).2.

Definition send_to_group_destination (name : DestinationName) (d : bytes) (key : option bytes) : Tr S (result AddressHash) :=
  if group_limit (bool_decide (is_Some key)) <? Z.of_nat (length d) then mret (Err InvalidArgument)
  else
    iv ← draw;
    let g := GroupDestination_new Empty name in
    let g := match key with Some k => load_group_key k g | None => g end in
    let dest := desc_address_hash (desc g) in
    token ← unwrap (encrypt_group g iv d PACKET_MDU);
    let text := match token with Ok t => t | Err _ => d end in
    _ ← send_broadcast (open_packet Group dest text) None;
    mret (Ok dest).

Definition send_to_plain_destination (name : DestinationName) (d : bytes) : Tr S (result AddressHash) :=
  if PACKET_PROTOCOL_MDU <? Z.of_nat (length d) then mret (Err InvalidArgument)
  else
    let dest := desc_address_hash (desc (PlainDestination_new Empty name)) in
    _ ← send_packet None (open_packet Plain dest d);
    mret (Ok dest).

Definition ratchet_of (dest : AddressHash) : Tr S (option bytes) :=
  env ← ask;
  h ← gets (fun h => h);
  let '(r, k) := match th_storage h with
                 | Some s => get_ratchet dest (e_unix env) (th_known_ratchets h) s
                 | None => get_ratchet dest (e_unix env) (th_known_ratchets h) (∅ : MemoryStorage)
                 end in
  _ ← modify (set_known_ratchets k);
  mret r.

(** The receipt of a packet for the destination, with the time a proof may take. *)
Definition receipt_for (now : Z) (dest : AddressHash) (p : Packet) (i : Identity) (h : Handler S) : option PacketReceipt :=
  let e := PathTable_get (th_path_table h) dest in
  let hops := match e with Some e => pe_hops e | None => PATHFINDER_M end in
  let b := match e with
           | Some e => default 0 (read_control (pe_iface e) (fun c => bitrate (settings c)) (th_iface_manager h))
           | None => 0
           end in
  first ← first_hop_timeout b;
  Some (mkReceipt dest (Packet_hash p) i now (Some (first + TIMEOUT_PER_HOP * hops)) ReceiptSent None).

Definition send_to_destination (dest : AddressHash) (d : bytes) : Tr S (result Hash) :=
  env ← ask;
  out ← gets th_single_out_destinations;
  if SINGLE_PLAINTEXT_MDU <? Z.of_nat (length d) then mret (Err InvalidArgument)
  else
    match out !! dest with
    | None => mret (Err LinkNotReady)
    | Some o =>
        let i := desc_identity (desc o) in
        ratchet ← ratchet_of dest;
        ephemeral ← draw;
        iv ← draw;
        token ← unwrap (encrypt_single i ephemeral iv d ratchet PACKET_MDU);
        match token with
        | Err e => mret (Err e)
        | Ok token =>
            let p := open_packet Single dest token in
            h ← gets (fun h => h);
            receipt ← unwrap (receipt_for (e_now env) dest p i h);
            _ ← update_field th_receipts set_receipts
                  (fun m => cull_receipts (e_now env) (<[AddressHash_new_from_hash (Packet_hash p) := receipt]> m));
            let '(q, iface) := PathTable_handle_packet (th_path_table h) p in
            _ ← match iface with Some a => send_direct a q | None => send_packet None q end;
            mret (Ok (Packet_hash p))
        end
    end.

Definition receipt (packet_hash : Hash) (h : Handler S) : option PacketReceiptInfo :=
  receipt_info <$> th_receipts h !! AddressHash_new_from_hash packet_hash.

Definition set_receipt_timeout (packet_hash : Hash) (timeout : option Z) : Tr S bool :=
  h ← gets (fun h => h);
  let key := AddressHash_new_from_hash packet_hash in
  match th_receipts h !! key with
  | None => mret false
  | Some r => _ ← modify (set_receipts (<[key := set_timeout timeout r]> (th_receipts h))); mret true
  end.

(** ** Requests and resources on a link *)
Definition on_link {A} (f : Inputs -> Manager.t -> Link.t -> option (result A * Outcome)) (r : LinkRef) : Tr S (result A) :=
  inp ← draw_inputs;
  m ← gets th_resources;
  l ← gets (link_at r);
  match l with
  | None => mret (Err LinkNotReady)
  | Some l => '(x, oc) ← unwrap (f inp m l); _ ← apply_outcome r oc; mret x
  end.

Definition request_on (r : LinkRef) (path d : bytes) : Tr S (result AddressHash) :=
  on_link (fun inp m l => Requests.request inp m l path d) r.

(** The link with the id, outbound ones first. *)
Definition link_with_id (i : LinkId) (h : Handler S) : option LinkRef :=
  match out_links_with i h, in_links_with i h with
  | k :: _, _ => Some (OutLink k)
  | [], k :: _ => Some (InLink k)
  | [], [] => None
  end.

Definition cancel_resource_on (i : LinkId) (hash : Hash) : Tr S (result unit) :=
  r ← gets (link_with_id i);
  inp ← draw_inputs;
  h ← gets (fun h => h);
  match r ≫= (fun r => link_at r h) with
  | None => mret (Err InvalidArgument)
  | Some l =>
      '(x, m) ← unwrap (Requests.cancel_resource (loop_ivs inp) l hash (th_resources h));
      _ ← modify (set_resources m);
      match x with
      | Err e => mret (Err e)
      | Ok ps => _ ← for_each ps (send_packet None); mret (Ok tt)
      end
  end.

(** ** Blackholes *)
Definition remove_blackholed_paths : Tr S nat :=
  h ← gets (fun h => h);
  let t := th_path_table h in
  let gone := List.filter (fun d => match recall_no_use d (th_known_destinations h) with
                                    | Some i => bool_decide (address_hash i ∈ blackholed_identities (th_blackholes h))
                                    | None => false
                                    end) (keys_of (pt_map t)) in
  _ ← modify (set_path_table (foldl (fun t d => (drop_path t d).1) t gone));
  mret (length gone).

Definition persist_blackholes : Tr S unit :=
  h ← gets (fun h => h);
  match th_storage h with
  | None => mret tt
  | Some s => _ ← with_storage s (persist_local (own_address h) (th_blackholes h)); mret tt
  end.

Definition blackhole_identity (i : AddressHash) (until : option Z) (reason : option bytes) : Tr S unit :=
  own ← gets own_address;
  _ ← update_field th_blackholes set_blackholes (blackhole i own until reason);
  _ ← persist_blackholes;
  _ ← remove_blackholed_paths; mret tt.

Definition unblackhole_identity (i : AddressHash) : Tr S bool :=
  removed ← with_field th_blackholes set_blackholes (fun b => let '(r, b) := unblackhole i b in (b, r));
  _ ← when removed persist_blackholes;
  mret removed.

Definition reload_blackholes : Tr S nat :=
  env ← ask;
  h ← gets (fun h => h);
  match th_storage h with
  | None => mret 0%nat
  | Some s =>
      let '(n, b) := reload (e_unix env) (own_address h) (th_blackhole_sources h) s (th_blackholes h) in
      _ ← modify (set_blackholes b);
      _ ← when (0 <? n)%nat (_ ← remove_blackholed_paths; mret tt);
      mret n
  end.

Definition persist_blackhole_source (publisher : AddressHash) (packed : bytes) : Tr S unit :=
  h ← gets (fun h => h);
  match th_storage h with
  | None => mret tt
  | Some s => _ ← with_storage s (write (BLACKHOLE_DIR ++ [47] ++ AddressHash_to_hex_string publisher) packed); mret tt
  end.

(** ** Known destinations *)
Definition on_known {A} (f : KnownDestinations -> A * KnownDestinations) : Tr S A :=
  with_field th_known_destinations set_known_destinations (fun k => let '(a, k) := f k in (k, a)).

Definition Transport_recall (dest : AddressHash) : Tr S (option Identity) :=
  env ← ask;
  known ← on_known (Known_recall dest (e_unix env));
  match known with
  | Some i => _ ← persist_known_destinations; mret (Some i)
  | None =>
      h ← gets (fun h => h);
      mret (match th_single_in_destinations h !! dest with
            | Some d => Some (desc_identity (desc d))
            | None => (fun d => desc_identity (desc d)) <$> th_single_out_destinations h !! dest
            end)
  end.

(** [retain], [unretain], [mark_used], [retain_identity], [recall_app_data]: the
    operation, then saving. *)
Definition known_then_save {A} (f : KnownDestinations -> A * KnownDestinations) : Tr S A :=
  a ← on_known f; _ ← persist_known_destinations; mret a.

Definition save_known_destinations : Tr S (result unit) :=
  h ← gets (fun h => h);
  match th_storage h with
  | None => mret (Err Prelude.Storage)
  | Some s =>
      let '(r, k, s) := Known_save (th_known_destinations h) s in
      _ ← modify (set_known_destinations k);
      _ ← modify (set_storage (Some s));
      mret r
  end.

Definition load_known_destinations : Tr S (result unit) :=
  h ← gets (fun h => h);
  match th_storage h with
  | None => mret (Err Prelude.Storage)
  | Some s =>
      let '(r, k) := Known_load (th_known_destinations h) s in
      _ ← modify (set_known_destinations k);
      match r with
      | Err e => mret (Err e)
      | Ok _ => _ ← reload_blackholes; mret (Ok tt)
      end
  end.

Definition clean_in {T} `{!Storage T} (now : f64) (h : Handler S) (s : T) : option (nat * list AddressHash * gmap AddressHash (bytes * Z) * KnownDestinations * T) :=
  let '(stale, known) := Known_clean now (PathTable_contains (th_path_table h)) (th_known_destinations h) in
  let s := foldl (fun s d => (remove (ratchet_path d) s).2) s stale in
  '(n, k, s) ← Ratchets_clean now (fun d => bool_decide (d ∈ (entries known).*1)) (th_known_ratchets h) s;
  Some (n, stale, k, known, s).

Definition clean_known_destinations : Tr S (nat * list AddressHash) :=
  env ← ask;
  h ← gets (fun h => h);
  '(n, stale) ← match th_storage h with
                | Some s =>
                    '(n, stale, k, known, s) ← unwrap (clean_in (e_unix env) h s);
                    _ ← modify (set_known_ratchets k);
                    _ ← modify (set_known_destinations known);
                    _ ← modify (set_storage (Some s));
                    mret (n, stale)
                | None =>
                    '(n, stale, k, known, _) ← unwrap (clean_in (e_unix env) h (∅ : MemoryStorage));
                    _ ← modify (set_known_ratchets k);
                    _ ← modify (set_known_destinations known);
                    mret (n, stale)
                end;
  _ ← persist_known_destinations;
  mret (n, stale).

Definition enable_destination_ratchets (dest path : bytes) : Tr S (result unit) :=
  h ← gets (fun h => h);
  match th_storage h with
  | None => mret (Err Prelude.Storage)
  | Some s =>
      match th_single_in_destinations h !! dest with
      | None => mret (Err InvalidArgument)
      | Some d =>
          match load_destination_ratchets path (desc_identity (desc d)) s with
          | Err e => mret (Err e)
          | Ok r =>
              let d := enable_ratchets r d in
              _ ← modify (set_single_in_destinations (<[dest := d]> (th_single_in_destinations h)));
              saved ← match r with
                      | [] => with_storage s (save_destination_ratchets path (dst_identity d)
                                (clean_destination_ratchets (default [] (ratchets d)) (retained_ratchets d)))
                      | _ => mret (Ok tt)
                      end;
              match saved with
              | Err e => mret (Err e)
              | Ok _ => _ ← update_field th_destination_ratchet_paths set_destination_ratchet_paths (insert dest path); mret (Ok tt)
              end
          end
      end
  end.

(** ** Paths and tables *)
Definition on_paths {A} (f : PathTable -> PathTable * A) : Tr S A := with_field th_path_table set_path_table f.

Definition reload_persisted_state : Tr S unit :=
  _ ← modify (set_persisted_loaded false);
  _ ← modify (set_unresolved_paths None);
  _ ← modify (set_persisted_aux_loaded false);
  load_persisted_state.

(** Dropping the transport: the tables are saved once. *)
Definition drop_transport : Tr S unit := shutdown_persist.

(** ** Runs

    What a transport with its tables in memory does: interfaces come, are
    configured, count what they transfer and go; a task handles a batch of packets
    or its timer fires; its user calls. *)
Inductive TransportStep :=
| Attach (ty : IfaceType)
| Configure (iface : AddressHash) (f : Settings -> Settings)
| Count (iface : AddressHash) (f : InterfaceCounters -> InterfaceCounters)
| Detach (iface : AddressHash)
| Receive (batch : list RxMessage)
| ControlTick
| LinkTick
| CleanupTick
| CullTick
| CacheTick
| ResourceTick
| RetransmitTick (old : bool)
| AddDestination (i : PrivateIdentity) (name : DestinationName)
| AcceptLinks (dest : AddressHash) (accepts : bool)
| AnnounceOwn (dest : AddressHash) (app_data : option bytes)
| OpenLink (d : DestinationDesc)
| CloseLink (i : LinkId)
| SendOutbound (p : Packet)
| SendTo (dest : AddressHash) (d : bytes)
| SendPlain (name : DestinationName) (d : bytes)
| SendGroup (name : DestinationName) (d : bytes) (key : option bytes)
| SendOnLinks (dest : AddressHash) (d : bytes)
| RequestPath (dest : AddressHash) (iface : option AddressHash) (tag : option bytes)
| RequestOnLink (r : LinkRef) (path d : bytes)
| CancelResource (i : LinkId) (hash : Hash)
| Blackhole (i : AddressHash) (until : option Z) (reason : option bytes)
| Unblackhole (i : AddressHash)
| RecallDestination (dest : AddressHash)
| SaveTables.

(** [InterfaceManager::spawn], and [stop_iface] with its children. *)
Definition attach (ty : IfaceType) : Tr S AddressHash :=
  env ← ask;
  seed ← draw;
  managing (spawn (e_now env) seed ty).

Definition detach (iface : AddressHash) : Tr S unit :=
  m ← gets th_iface_manager;
  '(_, m) ← unwrap (stop_iface (Datatypes.S (length (ifaces m))) iface m);
  modify (set_iface_manager m).

Definition ignore {A} (m : Tr S A) : Tr S unit := _ ← m; mret tt.

(** Announcing a destination of the table. *)
Definition announce_own (dest : AddressHash) (app_data : option bytes) : Tr S unit :=
  h ← gets (fun h => h);
  match th_single_in_destinations h !! dest with
  | Some d => send_announce dest d app_data
  | None => mret tt
  end.

Definition step_body (s : TransportStep) : Tr S unit :=
  match s with
  | Attach ty => ignore (attach ty)
  | Configure iface f => ignore (managing (write_control iface f))
  | Count iface f => ignore (managing (fun m => (tt, with_stats iface f m)))
  | Detach iface => detach iface
  | Receive batch => inbound_batch batch
  | ControlTick => control_tick
  | LinkTick => link_tick
  | CleanupTick => handle_cleanup
  | CullTick => cull_tick
  | CacheTick => cache_tick
  | ResourceTick => resource_tick
  | RetransmitTick old => retransmit_announces old
  | AddDestination i name => ignore (add_destination i name)
  | AcceptLinks dest accepts => ignore (set_destination_accepts_links dest accepts)
  | AnnounceOwn dest app_data => announce_own dest app_data
  | OpenLink d => link d
  | CloseLink i => ignore (link_close i)
  | SendOutbound p => outbound p
  | SendTo dest d => ignore (send_to_destination dest d)
  | SendPlain name d => ignore (send_to_plain_destination name d)
  | SendGroup name d key => ignore (send_to_group_destination name d key)
  | SendOnLinks dest d => ignore (send_to_out_links dest d)
  | RequestPath dest iface tag => request_path dest iface tag
  | RequestOnLink r path d => ignore (request_on r path d)
  | CancelResource i hash => ignore (cancel_resource_on i hash)
  | Blackhole i until reason => blackhole_identity i until reason
  | Unblackhole i => ignore (unblackhole_identity i)
  | RecallDestination dest => ignore (Transport_recall dest)
  | SaveTables => shutdown_persist
  end.

(** The state and the outputs after the steps; [None]: one panicked. *)
Fixpoint transport_run (steps : list (Env * TransportStep)) (h : Handler S) : option (Handler S * list Output) :=
  match steps with
  | [] => Some (h, [])
  | (env, s) :: steps =>
      '(_, _, h, o1) ← step_body s env 0%nat h;
      '(h, o2) ← transport_run steps h;
      Some (h, o1 ++ o2)
  end.

End Api.
