(* ===== verification/Tables.v ===== *)
(** * What the tables of the transport keep

    Predicates on the entries of the announce table, the path table, the cache of
    announces and the announce queues of the interfaces, and that the operations
    of [src/src/transport/] and [src/src/iface.rs] keep them; and that the
    operations on links keep their id and destination. *)

From S2P Require Import Prelude Float Buffer Crypto Hash Token Identity Msgpack Packet Counters Ifac PacketCache LinkTable AnnounceTable.
From S2P Require Import AnnounceLimits PathTable Destination Links PathRequests Tunnels Resource ResourceOut ResourceIn ResourceManager Requests.
From S2P Require Import IfaceControl Ifaces Storage Blackholes Inbound Handler Transport Persist Loop Api.

(** ** Tables of announces *)
Definition entries_hold (P : AddressHash -> AnnounceEntry -> Prop) (t : AnnounceTable) : Prop :=
  map_Forall P (at_map t) /\ map_Forall (fun k => P k.1) (responses t)
  /\ map_Forall P (newer (at_cache t)) /\ (forall m, older (at_cache t) = Some m -> map_Forall P m).

Section AnnounceEntries.
Context (P : AddressHash -> AnnounceEntry -> Prop).
(** The predicate is about the announce, not about when it is repeated. *)
Context (P_packet : forall d e e', ae_packet e' = ae_packet e -> P d e -> P d e').

Lemma new_entries : entries_hold P AnnounceTable_new.
Proof using. split_and!; try apply map_Forall_empty. intros m [=]. Qed.

Lemma clear_entries t : entries_hold P (AnnounceTable_clear t).
Proof using. split_and!; try apply map_Forall_empty. intros m [=]. Qed.

Lemma add_entries t now word p d from t' : (forall e, ae_packet e = p -> P d e) ->
  AnnounceTable_add t now word p d from = Some t' -> entries_hold P t -> entries_hold P t'.
Proof using.
  unfold AnnounceTable_add. intros Hp E (H1 & H2 & H3 & H4). destruct (rand_window word); [|done]. injection E as <-.
  split_and!; cbn; auto. apply map_Forall_insert_2; [by apply Hp|done].
Qed.

Lemma get_cache_entry t d e : entries_hold P t -> AnnounceCache_get (at_cache t) d = Some e -> P d e.
Proof using.
  intros (_ & _ & H3 & H4). unfold AnnounceCache_get. destruct (newer _ !! d) eqn:E; [intros [= <-]; by apply H3|].
  destruct (older _) as [m|]; [|done]. cbn. intros E'. exact (H4 m eq_refl d e E').
Qed.

Lemma add_response_entries t now d i h g : entries_hold P t -> entries_hold P (add_response t now d i h g).1.
Proof.
  intros Ht. unfold add_response. destruct (at_map t !! d) as [e|] eqn:E; [|destruct (AnnounceCache_get _ d) as [e|] eqn:E'; [|done]].
  all: assert (P d e) as He by (first [exact (proj1 Ht d e E) | by eapply get_cache_entry]).
  all: destruct Ht as (H1 & H2 & H3 & H4); split_and!; cbn; auto; apply map_Forall_insert_2; [by refine (P_packet d e _ _ He)|done].
Qed.

Lemma new_packet_entries t now d tid : entries_hold P t -> entries_hold P (new_packet t now d tid).1.
Proof.
  intros Ht. unfold new_packet. destruct (at_map t !! d) as [e|] eqn:E; [|done]. destruct (_ || _); [done|].
  destruct Ht as (H1 & H2 & H3 & H4). split_and!; cbn; auto. apply map_Forall_insert_2; [by refine (P_packet d e _ _ (H1 d e E))|done].
Qed.

Lemma drop_responses_entries t i : entries_hold P t -> entries_hold P (drop_responses_to t i).
Proof using.
  intros (H1 & H2 & H3 & H4). split_and!; cbn; auto. intros k e (He & _)%map_lookup_filter_Some. by apply H2.
Qed.

Lemma retransmit_packet e now tid : ae_packet (retransmit e now tid).1 = ae_packet e.
Proof using. unfold retransmit. by repeat case_match. Qed.

Lemma retried_entries t now tid : map_Forall P (at_map t) -> map_Forall P (retried t now tid).
Proof.
  intros Ht d e E. unfold retried in E. rewrite map_lookup_imap in E. destruct (at_map t !! d) as [e0|] eqn:E0; [|done]. cbn in E.
  injection E as <-. case_match; [by apply Ht|]. by refine (P_packet d e0 _ (retransmit_packet _ _ _) (Ht d e0 E0)).
Qed.

Lemma complete_entries l mc : map_Forall P mc.1 -> (map_Forall P (newer mc.2) /\ (forall m, older mc.2 = Some m -> map_Forall P m)) ->
  let mc' := foldl complete mc l in
  map_Forall P mc'.1 /\ map_Forall P (newer mc'.2) /\ (forall m, older mc'.2 = Some m -> map_Forall P m).
Proof using.
  revert mc. induction l as [|d l IH]; intros [m c] H1 [H2 H3]; [done|]. apply (IH (complete (m, c) d)).
  all: unfold complete; cbn [fst snd] in *; destruct (m !! d) as [e|] eqn:E; cbn; try done.
  - by apply map_Forall_delete.
  - unfold AnnounceCache_insert. destruct (_ <=? _); cbn; split; try done.
    + apply map_Forall_singleton. by apply H1.
    + by intros m0 [= <-].
    + apply map_Forall_insert_2; [by apply H1|done].
Qed.

Lemma deletes_entries {K} `{Countable K} (Q : K -> AnnounceEntry -> Prop) l (m : gmap K AnnounceEntry) :
  map_Forall Q m -> map_Forall Q (foldl (fun m k => delete k m) m l).
Proof using. revert m. induction l as [|k l IH]; intros m Hm; [done|]. cbn. apply IH. by apply map_Forall_delete. Qed.

Lemma tick_entries t now tid : entries_hold P t -> entries_hold P (tx_to_retransmit t now tid).1.
Proof.
  intros (H1 & H2 & H3 & H4). unfold tx_to_retransmit. cbv zeta. 
  set (done_ := (filter _ (btree_iter bytes_le (at_map t))).*1). destruct (foldl complete _ done_) as [m c] eqn:E. cbn [fst].
  pose proof (complete_entries done_ (retried t now tid, at_cache t) (retried_entries t now tid H1) (conj H3 H4)) as Hc. cbv zeta in Hc.
  rewrite E in Hc. destruct Hc as (Hm & Hn & Ho). split_and!; cbn [at_map responses at_cache]; auto.
  apply deletes_entries. intros k e Hk. rewrite lookup_fmap in Hk. destruct (responses t !! k) as [e0|] eqn:E0; [|done].
  injection Hk as <-. by refine (P_packet _ e0 _ (retransmit_packet _ _ _) (H2 k e0 E0)).
Qed.

End AnnounceEntries.

(** ** Path tables *)
Section PathEntries.
Context (P : AddressHash -> PathEntry -> Prop).
Context (P_hash : forall d e e', pe_packet_hash e' = pe_packet_hash e -> P d e -> P d e').

Definition paths_hold (t : PathTable) : Prop := map_Forall P (pt_map t).

Lemma update_entry_paths t d f : (forall e, pe_packet_hash (f e) = pe_packet_hash e) -> paths_hold t -> paths_hold (update_entry t d f).1.
Proof.
  intros Hf Ht. unfold update_entry. destruct (pt_map t !! d) as [e|] eqn:E; [|done]. cbn. apply map_Forall_insert_2; [|done].
  by refine (P_hash d e _ (Hf e) (Ht d e E)).
Qed.

Lemma retain_paths t Q : paths_hold t -> paths_hold (retain t Q).1.
Proof using. intros Ht d e (He & _)%map_lookup_filter_Some. by apply Ht. Qed.

Lemma drop_path_paths t d : paths_hold t -> paths_hold (drop_path t d).1.
Proof using. intros Ht. unfold drop_path. cbn. by apply map_Forall_delete. Qed.

Lemma touch_paths t now d : paths_hold t -> paths_hold (PathTable.touch t now d).
Proof. by apply update_entry_paths. Qed.

Lemma inbound_paths t now p lookup : paths_hold t -> paths_hold (handle_inbound_packet t now p lookup).1.
Proof. intros Ht. unfold handle_inbound_packet. destruct (pt_map t !! _); [|done]. by apply touch_paths. Qed.

Lemma local_paths t now p : paths_hold t -> paths_hold (handle_local_packet t now p).1.
Proof. intros Ht. unfold handle_local_packet. destruct (pt_map t !! _); [|done]. cbv zeta. destruct (_ <=? 1); by apply touch_paths. Qed.

Lemma announce_paths `{Sha256} t now unix p tid i m g : (forall e, pe_packet_hash e = Packet_hash p -> P (destination p) e) ->
  paths_hold t -> paths_hold (handle_announce_with_mode t now unix p tid i m g).
Proof using.
  intros Hp Ht. unfold handle_announce_with_mode. cbv zeta. destruct (pt_map t !! _) as [e|]; [destruct (should_replace_path _ _ _ _ _ _); [|done]|].
  all: apply map_Forall_insert_2; [by apply Hp|done].
Qed.

Lemma restored_paths t now unix d from h i hash : (forall e, pe_packet_hash e = hash -> P d e) -> paths_hold t ->
  paths_hold (insert_restored t now unix d from h i hash).
Proof using. intros Hp Ht. apply map_Forall_insert_2; [by apply Hp|done]. Qed.

End PathEntries.

(** ** Cached announces *)
Section CachedAnnounces.
Context `{Sha256} (P : Packet -> Prop).

Definition cached_hold (c : PacketCache) : Prop := map_Forall (fun _ p => P p) (announces c).

Lemma update_cached c now p : cached_hold c -> cached_hold (PacketCache_update c now p).1.
Proof. intros Hc. unfold PacketCache_update. by destruct (pc_map c !! _). Qed.

Lemma release_cached c now d : cached_hold c -> cached_hold (PacketCache_release c now d).
Proof. done. Qed.

Lemma evict_hold cap order m : map_Forall (fun _ p => P p) m -> map_Forall (fun _ p => P p) (evict cap order m).2.
Proof.
  revert m. induction order as [|h order IH]; intros m Hm; cbn; destruct (_ <=? _)%nat; try done. apply IH. by apply map_Forall_delete.
Qed.

Lemma cache_announce_cached c p : P p -> cached_hold c -> cached_hold (PacketCache_cache_announce c p).
Proof.
  intros Hp Hc. unfold PacketCache_cache_announce, cached_hold. destruct (_ =? 0)%nat; [done|]. cbv zeta. case_decide; cbn.
  - by apply map_Forall_insert_2.
  - pose proof (evict_hold (announce_capacity c) (announce_order c) (announces c) Hc) as He. destruct (evict _ _ _) as [order m]. cbn.
    by apply map_Forall_insert_2.
Qed.

End CachedAnnounces.

(** ** Links keep their id and destination *)
Definition same_link (l l' : Link.t) : Prop := Link.id l' = Link.id l /\ Link.destination l' = Link.destination l.

#[export] Instance same_link_po : PreOrder same_link.
Proof. split; [by intros l|intros a b c [] []; split; congruence]. Qed.

Section SameLink.
Context `{Sha256} `{Hkdf} `{X25519} `{CbcCipher} `{HmacSha256}.
Context `{Signing} `{!Verifying} `{!Ed25519} `{!Ed25519Keys} `{Rmp} `{RmpDecode} `{RmpCursor} `{Bz2} `{Manager.Rmpv}.

Lemma touch_same now l : same_link l (Links.touch now l).
Proof. unfold Links.touch. by case_decide. Qed.

Lemma note_established_same now p o l : same_link l (note_established_inbound now p o l).
Proof. unfold note_established_inbound. destruct (Link.status l); try done; destruct (_ && _ && _); try done; apply touch_same. Qed.

Lemma handle_packet_same now c o p l : same_link l (h_link (handle_packet now c o p l)).
Proof.
  pose proof (touch_same now l) as Ht.
  unfold handle_packet, handle_data_packet, handle_proof_packet, message_proof_event, handle_data_none, handle_identify, handle_keepalive_packet,
    handle_rtt, handle_close, handle_channel, activate, close.
  repeat first [done | case_match | progress cbn | apply touch_same ].
  all: etransitivity; [|apply touch_same]; done.
Qed.

Lemma teardown_same l r l' es : teardown l = Some (r, l', es) -> same_link l l'.
Proof.
  unfold teardown, close. intros E. destruct (Link.status l); try by injection E as <- <- <-.
  all: destruct (data_packet l _ _) as [[p|e]|]; [| |done]; by injection E as <- <- <-.
Qed.

Lemma request_same now l : Link.destination (Links.request now l).2 = Link.destination l.
Proof. cbn. unfold Links.touch. by case_decide. Qed.

Lemma marks_same at_ ps l : same_link l (Requests.send_from_link at_ ps l).
Proof.
  unfold Requests.send_from_link. revert l. induction ps as [|p ps IH]; intros l; [done|]. cbn. etransitivity; [|apply IH]. done.
Qed.

Lemma enqueue_same inp m l o r oc : Requests.enqueue_resource inp m l o = Some (r, oc) -> same_link l (link_after oc).
Proof.
  unfold Requests.enqueue_resource. cbv zeta. destruct (existsb _ _); [by intros [= <- <-]|].
  destruct (Outgoing.advertise _ _ _ _) as [[[ps|e] o']|]; [| |done]; cbn; intros [= <- <-]; [apply marks_same|done].
Qed.

Lemma send_response_same inp m l rid r ac lim oc : Requests.send_response inp m l rid r ac lim = Some oc -> same_link l (link_after oc).
Proof.
  unfold Requests.send_response. cbv zeta. intros E. repeat (case_match; simplify_option_eq); try done.
  all: try apply marks_same.
  all: match goal with H : Requests.enqueue_resource _ _ _ _ = Some (_, _) |- _ => by eapply enqueue_same in H end.
Qed.

Lemma incoming_request_same inp m l rid at_ ph d oc : Requests.handle_incoming_request inp m l rid at_ ph d = Some oc -> same_link l (link_after oc).
Proof.
  unfold Requests.handle_incoming_request. cbv zeta. intros E. repeat case_match; simplify_option_eq; try done. by eapply send_response_same.
Qed.

Lemma request_packet_same inp m l p b oc : Requests.handle_request_or_response_packet inp m l p = Some (b, oc) -> same_link l (link_after oc).
Proof.
  unfold Requests.handle_request_or_response_packet. cbv zeta. intros E. repeat (case_match; simplify_option_eq); try done.
  by eapply incoming_request_same.
Qed.

Lemma resource_part_same inp m l p oc : Requests.handle_resource_part inp m l p = Some oc -> same_link l (link_after oc).
Proof.
  unfold Requests.handle_resource_part. destruct (Manager.handle_part _ _ _ _ _) as [[[m1 ps] done_]|]; [|done]. cbn.
  pose proof (marks_same (instant inp) ps l) as Hm. destruct (negb done_); [by intros [= <-]|].
  destruct (Manager.assemble_completed _ _ _ _) as [[[m2 qs] d]|]; [|done]. cbn.
  pose proof (transitivity Hm (marks_same (instant inp) qs _)) as Hq. destruct (d ≫= _) as [[data [[time path] req]]|]; [|by intros [= <-]].
  destruct (Requests.handle_incoming_request _ _ _ _ _ _ _) eqn:E; [|done]. cbn. intros [= <-]. cbn.
  etransitivity; [exact Hq|by eapply incoming_request_same].
Qed.

Lemma resource_packet_same inp m l p b oc : Requests.handle_resource_packet inp m l p = Some (b, oc) -> same_link l (link_after oc).
Proof.
  unfold Requests.handle_resource_packet. cbv zeta. intros E. repeat (case_match; simplify_option_eq); try done; try apply marks_same.
  by eapply resource_part_same.
Qed.

End SameLink.

(** ** Hop counts on the interfaces *)
Definition hop_ok (p : Packet) : Prop := hops (header p) <= 127.

Definition queue_bounded (c : IfaceControlState) : Prop := Forall (fun e => hop_ok (q_packet e)) (announce_queue c).

Record bounded (m : InterfaceManager) : Prop := {
  b_delta : local_hops_delta m <= 127;
  b_queues : map_Forall (fun _ => queue_bounded) (controls m);
}.

Lemma bounded_controls m a c : bounded m -> queue_bounded c -> bounded (set_controls (<[a := c]> (controls m)) m).
Proof. intros [Hd Hq] Hc. split; [done|]. cbn. by apply map_Forall_insert_2. Qed.

Lemma bounded_ifaces m l : bounded m -> bounded (set_ifaces l m).
Proof. by intros [Hd Hq]. Qed.

Lemma with_control_bounded {A} a (f : IfaceControlState -> A * IfaceControlState) m :
  (forall c, announce_queue (f c).2 = announce_queue c) -> bounded m -> bounded (with_control a f m).2.
Proof.
  intros Hf Hm. unfold with_control. destruct (controls m !! a) as [c|] eqn:E; [|done]. specialize (Hf c). destruct (f c) as [x c']. cbn.
  apply bounded_controls; [done|]. unfold queue_bounded. cbn in Hf. rewrite Hf. by apply (b_queues m Hm a).
Qed.

Lemma stats_bounded a f m : bounded m -> bounded (with_stats a f m).
Proof. by intros []. Qed.

Lemma op_bounded a f m : (forall c, announce_queue (f c) = announce_queue c) -> bounded m -> bounded (control_op a f m).
Proof. intros Hf Hm. unfold control_op. by apply with_control_bounded. Qed.

Lemma write_bounded a f m : bounded m -> bounded (write_control a f m).2.
Proof.
  intros Hm. unfold write_control. pose proof (with_control_bounded a (fun c => (tt, set_settings f c)) m) as T.
  destruct (with_control _ _ m). cbn in *. by apply T.
Qed.

Lemma ingress_queue now c : announce_queue (should_ingress_limit now c).2 = announce_queue c.
Proof. unfold should_ingress_limit, incoming_announce_frequency. destruct (frequency _ _ _ _ _). by repeat case_match. Qed.

Lemma ingress_pr_queue now c : announce_queue (should_ingress_limit_pr now c).2 = announce_queue c.
Proof. unfold should_ingress_limit_pr, incoming_pr_frequency. destruct (frequency _ _ _ _ _). by repeat case_match. Qed.

Lemma egress_pr_queue now c : announce_queue (should_egress_limit_pr now c).2 = announce_queue c.
Proof. unfold should_egress_limit_pr. destruct (frequency _ _ _ _ _). by repeat case_match. Qed.

Lemma hold_queue p n c : announce_queue (hold_announce p n c) = announce_queue c.
Proof. unfold hold_announce. by repeat case_match. Qed.

Lemma release_queue now c : announce_queue (release_held_announce now c).2 = announce_queue c.
Proof. unfold release_held_announce, incoming_announce_frequency. destruct (frequency _ _ _ _ _). by repeat case_match. Qed.

Lemma release_loop_queue n now c : announce_queue (release_loop n now c).2 = announce_queue c.
Proof.
  revert c. induction n as [|n IH]; intros c; [done|]. cbn. pose proof (release_queue now c) as Hr.
  destruct (release_held_announce now c) as [[p|] c']; [|done]. specialize (IH c'). destruct (release_loop n now c'). cbn in *. congruence.
Qed.

Lemma release_all_queue now c : announce_queue (release_all now c).2 = announce_queue c.
Proof. apply release_loop_queue. Qed.

Lemma release_bounded now m : bounded m -> bounded (release_held_announces now m).2.
Proof.
  intros [Hd Hq]. split; [done|]. intros a c Hc. cbn in Hc. rewrite !lookup_fmap in Hc. destruct (controls m !! a) as [c0|] eqn:E; [|done].
  injection Hc as <-. unfold queue_bounded. rewrite release_all_queue. by apply (Hq a).
Qed.

Lemma replace_bounded q e q' : Forall (fun e => hop_ok (q_packet e)) q -> hop_ok (q_packet e) -> replace_queued q e = Some q' ->
  Forall (fun e => hop_ok (q_packet e)) q'.
Proof.
  revert q'. induction q as [|x q IH]; intros q' Hq He; [done|]. apply list.Forall_cons in Hq as [Hx Hq]. cbn. case_decide.
  - intros [= <-]. constructor; [by destruct (_ <? _)|done].
  - destruct (replace_queued q e) eqn:E; [|done]. intros [= <-]. constructor; [done|]. by apply IH.
Qed.

Lemma queue_announce_bounded p now c : hop_ok p -> queue_bounded c -> queue_bounded (queue_announce p now c).
Proof.
  intros Hp Hc. unfold queue_announce. destruct (negb _); [done|]. cbv zeta. destruct (replace_queued _ _) eqn:E.
  - exact (replace_bounded (announce_queue c) (mkQueued p now (announce_emitted p)) l Hc Hp E).
  - destruct (_ <=? _); [done|]. unfold queue_bounded. cbn. apply list.Forall_app. split; [done|]. by constructor.
Qed.

Lemma gate_bounded now p c ok c' : hop_ok p -> queue_bounded c -> announce_gate now p c = Some (ok, c') -> queue_bounded c'.
Proof.
  intros Hp Hc. unfold announce_gate, try_transmit_announce. destruct (_ || _); [|destruct (_ <=? now); [destruct (cap_wait_time _ _); [|done]|]].
  all: cbn; intros [= <- <-]; try done; by apply queue_announce_bounded.
Qed.

Lemma outbound_bounded b m i p : local_hops_delta m <= 127 -> hop_ok p -> hop_ok (outbound_packet b m i p).
Proof. intros Hd Hp. unfold outbound_packet. destruct (_ && _); [|done]. unfold rewritten. cbv zeta. by repeat case_match. Qed.

Lemma send_one_bounded now b msg i m m' i' out : bounded m -> hop_ok (tx_packet msg) -> send_one now b msg i m = Some (m', i', out) ->
  bounded m' /\ Forall (fun x => hop_ok (tx_packet x.2)) out.
Proof.
  intros Hm Hp. unfold send_one. cbv zeta. destruct (_ && negb _); [|by intros [= <- <- <-]].
  destruct (is_announce _ && _); [destruct (controls m !! _) as [c|] eqn:Ec|]; cbn.
  - destruct (announce_gate _ _ _) as [[ok c']|] eqn:Eg; [|done]. cbn.
    pose proof (bounded_controls m (if_address i) c' Hm (gate_bounded _ _ _ _ _ Hp (b_queues m Hm _ _ Ec) Eg)) as Hm'.
    destruct ok; intros [= <- <- <-]; split; auto. constructor; [|done]. apply outbound_bounded; [apply Hm'|done].
  - intros [= <- <- <-]. split; [done|]. constructor; [|done]. apply outbound_bounded; [apply Hm|done].
  - intros [= <- <- <-]. split; [done|]. constructor; [|done]. apply outbound_bounded; [apply Hm|done].
Qed.

Lemma send_loop_bounded now b msg l m m' l' out : bounded m -> hop_ok (tx_packet msg) -> send_loop now b msg l m = Some (m', l', out) ->
  bounded m' /\ Forall (fun x => hop_ok (tx_packet x.2)) out.
Proof.
  intros Hm Hp. revert m m' l' out Hm. induction l as [|i l IH]; intros m m' l' out Hm; cbn; [by intros [= <- <- <-]|].
  destruct (send_one _ _ _ _ _) as [[[m1 i1] o1]|] eqn:E1; [|done]. cbn. destruct (send_loop _ _ _ _ _) as [[[m2 l2] o2]|] eqn:E2; [|done].
  cbn. intros [= <- <- <-]. destruct (send_one_bounded _ _ _ _ _ _ _ _ Hm Hp E1) as [Hm1 Ho1]. destruct (IH _ _ _ _ Hm1 E2) as [Hm2 Ho2].
  split; [done|]. by apply list.Forall_app.
Qed.

Lemma send_bounded now msg m m' out : bounded m -> hop_ok (tx_packet msg) -> Ifaces.send now msg m = Some (m', out) ->
  bounded m' /\ Forall (fun x => hop_ok (tx_packet x.2)) out.
Proof.
  intros Hm Hp. unfold Ifaces.send. cbv zeta. destruct (send_loop _ _ _ _ _) as [[[m1 l1] o1]|] eqn:E; [|done]. cbn. intros [= <- <-].
  destruct (send_loop_bounded _ _ _ _ _ _ _ _ Hm Hp E) as [Hm1 Ho]. split; [by apply bounded_ifaces|done].
Qed.

Lemma queue_tick_bounded now c ps c' : queue_bounded c -> queue_tick now c = Some (ps, c') -> queue_bounded c' /\ Forall hop_ok ps.
Proof.
  intros Hc. unfold queue_tick, take_queued_announce. cbv zeta. set (q := filter _ (announce_queue c)).
  assert (Forall (fun e => hop_ok (q_packet e)) q) as Hq.
  { apply list.Forall_forall. intros x [_ Hx]%list_elem_of_filter. exact (proj1 (list.Forall_forall _ _) Hc x Hx). }
  destruct (select_queued q) as [i|]; cbn; [|by intros [= <- <-]]. destruct (q !! i) as [e|] eqn:Ei; cbn; [|done].
  destruct (cap_wait_time _ _); cbn; [|done]. intros [= <- <-]. split.
  - unfold queue_bounded. cbn. apply list.Forall_app. split; [by apply Forall_take|by apply Forall_drop].
  - constructor; [|done]. by eapply (Forall_lookup_1 _ _ _ _ Hq).
Qed.

Lemma transmit_all_bounded l m : bounded m -> Forall (fun x => hop_ok x.2) l ->
  bounded (transmit_all l m).1 /\ Forall (fun x => hop_ok (tx_packet x.2)) (transmit_all l m).2.
Proof.
  revert m. induction l as [|[a p] l IH]; intros m Hm Hl; [done|]. apply list.Forall_cons in Hl as [Hp Hl]. cbn. unfold transmit_drained. cbn.
  destruct (find_live a m).
  - pose proof (fun k => IH _ (bounded_ifaces m k Hm) Hl) as T. match goal with |- context [set_ifaces ?k m] => specialize (T k) end.
    destruct (transmit_all l _) as [m' out]. cbn in *. split; [apply T|].
    constructor; [done|apply T].
  - specialize (IH _ Hm Hl). by destruct (transmit_all l _) as [m' out].
Qed.

Lemma queues_bounded now m m' out : bounded m -> process_announce_queues now m = Some (m', out) ->
  bounded m' /\ Forall (fun x => hop_ok (tx_packet x.2)) out.
Proof.
  intros [Hd Hq]. unfold process_announce_queues, all_passes. case_decide as Hall; [|done]. cbn. intros E.
  set (passes := omap id (queue_tick now <$> controls m)) in E.
  assert (forall a ps c, passes !! a = Some (ps, c) -> queue_bounded c /\ Forall hop_ok ps) as Hp.
  { intros a ps c Ha. unfold passes in Ha. rewrite lookup_omap, lookup_fmap in Ha. destruct (controls m !! a) as [c0|] eqn:E0; [|done].
    cbn in Ha. by eapply queue_tick_bounded; [exact (Hq a c0 E0)|]. }
  injection E as E. pose proof (transmit_all_bounded (drained_of passes) (set_controls (snd <$> passes) m)) as T.
  destruct (transmit_all _ _) as [m1 o1]. injection E as <- <-. apply T.
  - split; [done|]. intros a c Hc. cbn in Hc. rewrite lookup_fmap in Hc. destruct (passes !! a) as [[ps c0]|] eqn:E0; [|done].
    injection Hc as <-. by eapply Hp.
  - unfold drained_of. apply Forall_concat, Forall_fmap, list.Forall_forall. intros [a [ps c]] Hin. cbn. apply Forall_fmap.
    apply elem_of_map_to_list in Hin. apply Hp in Hin as [_ Hin]. exact Hin.
Qed.

Lemma spawn_bounded `{Sha256} now seed ty m : bounded m -> bounded (spawn now seed ty m).2.
Proof.
  intros [Hd Hq]. unfold spawn, new_context, new_channel_named, apply_type_ingress_policy, launch. cbv zeta.
  match goal with |- context [mkManager ?c ?l ?k ?d ?t] => set (m0 := mkManager c l k d t) end.
  assert (bounded m0) as H0 by (split; [done|]; cbn; apply map_Forall_insert_2; [constructor|done]).
  pose proof (bounded_ifaces m0 (ifaces (update_iface (new_address (wrap 64 (counter m + 1)) seed) (set_endpoint (ty_endpoint ty)) m0)) H0) as H1.
  destruct (negb _); [apply (with_control_bounded (new_address (wrap 64 (counter m + 1)) seed) (fun c => (tt, set_announce_ingress_limit false c))) in H1; [|done]|].
  all: destruct (ty_constructor_bitrate ty); [apply write_bounded|]; exact H1.
Qed.

Lemma stop_bounded n a m b m' : bounded m -> stop_iface n a m = Some (b, m') -> bounded m'.
Proof.
  revert a m b m'. induction n as [|n IH]; intros a m b m' Hm; [done|]. cbn.
  assert (forall l m m', bounded m -> stop_all (stop_iface n) l m = Some m' -> bounded m') as Hall.
  { intros l. induction l as [|x l IHl]; intros m0 m1 H0; cbn; [by intros [= <-]|].
    destruct (stop_iface n x m0) as [[b0 m2]|] eqn:E; [|done]. cbn. apply IHl. by eapply IH. }
  destruct (stop_all _ _ m) as [m1|] eqn:E; [|done]. cbn. apply Hall in E; [|done]. unfold stop_one. destruct (find_iface a m1); intros [= <- <-]; [|done].
  split; [apply E|]. cbn. apply map_Forall_delete, E.
Qed.
