(* ===== verification/TransportSafety.v ===== *)
(** * What holds of a transport whatever it receives

    [safe]: the paths, the tunnels, the announces to be repeated, the announces
    that answer cache requests and the destinations to which packets are encrypted
    all come from announces with a valid signature; the tables are keyed by what
    they hold; and no packet leaves that has travelled too far.  [ok] is a small
    logic of handlers that keep it. *)

From S2P Require Import Prelude Float Buffer Crypto Hash Token Identity Msgpack Packet Counters Ifac PacketCache LinkTable AnnounceTable.
From S2P Require Import AnnounceLimits PathTable Destination Links PathRequests Tunnels Resource ResourceOut ResourceIn ResourceManager Requests.
From S2P Require Import IfaceControl Ifaces Storage Blackholes Inbound Handler Transport Persist Loop Api Tables.

(** A field that the invariant does not mention. *)
Ltac frame := let h := fresh "h" in let Hh := fresh "Hh" in intros h Hh; destruct Hh; constructor; cbn; assumption.

(** The lemmas that handlers keep the invariant. *)
Create HintDb handlers discriminated.

Section Safety.
Context {S : Type} `{!Storage S}.
Context `{sha : Sha256} `{kdf : Hkdf} `{dh : X25519} `{cbc : CbcCipher} `{mac : HmacSha256}.
Context `{sg : Signing} `{vf : !Verifying} `{ed : !Ed25519} `{edk : !Ed25519Keys}.
Context `{rm : Rmp} `{rd : RmpDecode} `{rc : RmpCursor} `{rs : RmpStr} `{bz : Bz2} `{rv : Manager.Rmpv} `{cd : RmpvCodec}.

(** ** The invariant *)

(** A packet that is an announce with a valid signature. *)
Definition authentic (p : Packet) : Prop := exists x, validate p = Ok x.

(** The destination was announced by the packet with the hash. *)
Definition announced (d : AddressHash) (hash : Hash) : Prop := exists p, authentic p /\ destination p = d /\ Packet_hash p = hash.

Record safe (h : Handler S) : Prop := {
  s_paths : paths_hold (fun d e => announced d (pe_packet_hash e)) (th_path_table h);
  s_tunnels : map_Forall (fun _ t => map_Forall (fun d x => announced d (tp_packet_hash x)) (te_paths t)) (th_tunnels h);
  s_announces : entries_hold (fun d e => authentic (ae_packet e) /\ destination (ae_packet e) = d) (th_announce_table h);
  s_cached : cached_hold authentic (th_packet_cache h);
  s_out : map_Forall (fun k d => exists p a, validate p = Ok (d, a) /\ destination p = k) (th_single_out_destinations h);
  s_in : map_Forall (fun k d => desc_address_hash (desc d) = k) (th_single_in_destinations h);
  s_in_links : map_Forall (fun k l => Link.id l = k) (th_in_links h);
  s_out_links : map_Forall (fun k l => desc_address_hash (Link.destination l) = k) (th_out_links h);
  s_hops : bounded (th_iface_manager h);
  s_loaded : th_persisted_loaded h = true;
}.

Definition output_ok (o : Output) : Prop := match o with OSent _ msg => hop_ok (tx_packet msg) | _ => True end.

(** ** The logic

    [ok m V]: the handler [m] keeps the invariant, what it sends is fine, and its
    answer satisfies [V]. *)
Definition ok {A} (m : Tr S A) (V : A -> Prop) : Prop :=
  forall env n h, safe h ->
    match m env n h with
    | Some (a, _, h', out) => safe h' /\ V a /\ Forall output_ok out
    | None => True
    end.

Abbreviation keeps m := (ok m (fun _ => True)).

Lemma ok_ret {A} (a : A) : ok (mret a) (fun x => x = a).
Proof. by intros env n h Hh. Qed.

Lemma ok_bind {A B} (m : Tr S A) (f : A -> Tr S B) V W : ok m V -> (forall a, V a -> ok (f a) W) -> ok (m ≫= f) W.
Proof.
  intros Hm Hf env n h Hh. specialize (Hm env n h Hh). unfold mbind, Tr_bind. destruct (m env n h) as [[[[a n1] h1] o1]|]; [|done].
  destruct Hm as (H1 & Ha & Ho). specialize (Hf a Ha env n1 h1 H1). destruct (f a env n1 h1) as [[[[b n2] h2] o2]|]; [|done].
  destruct Hf as (H2 & Hb & Ho2). split_and!; try done. by apply list.Forall_app.
Qed.

Lemma ok_weaken {A} (m : Tr S A) (V W : A -> Prop) : ok m V -> (forall a, V a -> W a) -> ok m W.
Proof.
  intros Hm HV env n h Hh. specialize (Hm env n h Hh). destruct (m env n h) as [[[[a n1] h1] o1]|]; [|done]. destruct Hm as (? & ? & ?). auto.
Qed.

Lemma ok_keeps {A} (m : Tr S A) V : ok m V -> keeps m.
Proof. intros Hm. by eapply ok_weaken. Qed.

Lemma ok_ask : ok ask (fun _ => True).
Proof. by intros env n h Hh. Qed.

(** What is read was read from a state that satisfies the invariant. *)
Lemma ok_gets {A} (f : Handler S -> A) : ok (gets f) (fun a => exists h, safe h /\ a = f h).
Proof. intros env n h Hh. cbn. split; [done|]. split; [by exists h|done]. Qed.

Lemma ok_modify f : (forall h, safe h -> safe (f h)) -> keeps (modify f).
Proof. intros Hf env n h Hh. cbn. auto. Qed.

Lemma ok_emit os : Forall output_ok os -> keeps (emit os).
Proof. intros Ho env n h Hh. cbn. auto. Qed.

Lemma ok_draw : keeps (draw (S := S)).
Proof. by intros env n h Hh. Qed.

Lemma ok_draw_inputs : keeps (draw_inputs (S := S)).
Proof. by intros env n h Hh. Qed.

Lemma ok_unwrap {A} (o : option A) : ok (unwrap o) (fun a => o = Some a).
Proof. intros env n h Hh. unfold unwrap. by destruct o. Qed.

Lemma ok_when b m : (b = true -> keeps m) -> keeps (when b m).
Proof. intros Hm. destruct b; [by apply Hm|]. by intros env n h Hh. Qed.

Lemma ok_for_each {A} (l : list A) (f : A -> Tr S unit) : (forall x, x ∈ l -> keeps (f x)) -> keeps (for_each l f).
Proof.
  induction l as [|x l IH]; intros Hf; [by intros env n h Hh|]. cbn. eapply ok_bind; [apply Hf; left|]. intros _ _. apply IH.
  intros y Hy. apply Hf. by right.
Qed.

Lemma ok_with_field {F A} (get : Handler S -> F) set (f : F -> F * A) :
  (forall h, safe h -> safe (set (f (get h)).1 h)) -> ok (with_field get set f) (fun a => exists h, safe h /\ a = (f (get h)).2).
Proof.
  intros Hf env n h Hh. unfold with_field. specialize (Hf h Hh). destruct (f (get h)) as [x a] eqn:E. split; [done|].
  split; [|done]. exists h. by rewrite E.
Qed.

Lemma ok_update_field {F} (get : Handler S -> F) set f : (forall h, safe h -> safe (set (f (get h)) h)) -> keeps (update_field get set f).
Proof. intros Hf. by apply ok_modify. Qed.

Lemma ok_managing {A} (f : InterfaceManager -> A * InterfaceManager) : (forall m, bounded m -> bounded (f m).2) ->
  ok (managing f) (fun a => exists h, safe h /\ a = (f (th_iface_manager h)).1).
Proof.
  intros Hf. unfold managing. eapply ok_weaken; [apply ok_with_field|].
  - intros h Hh. specialize (Hf (th_iface_manager h) (s_hops h Hh)). destruct (f (th_iface_manager h)) as [a m]. destruct Hh. by constructor.
  - intros a (h & Hh & ->). exists h. split; [done|]. by destruct (f (th_iface_manager h)).
Qed.

(** ** Fields of the invariant *)
Lemma safe_paths t h : paths_hold (fun d e => announced d (pe_packet_hash e)) t -> safe h -> safe (set_path_table t h).
Proof. intros Ht []. by constructor. Qed.

Lemma safe_announces t h : entries_hold (fun d e => authentic (ae_packet e) /\ destination (ae_packet e) = d) t -> safe h -> safe (set_announce_table t h).
Proof. intros Ht []. by constructor. Qed.

Lemma safe_cache c h : cached_hold authentic c -> safe h -> safe (set_packet_cache c h).
Proof. intros Hc []. by constructor. Qed.

Lemma safe_manager m h : bounded m -> safe h -> safe (set_iface_manager m h).
Proof. intros Hm []. by constructor. Qed.

Lemma safe_destinations m h : map_Forall (fun k d => desc_address_hash (desc d) = k) m -> safe h -> safe (set_single_in_destinations m h).
Proof. intros Hm []. by constructor. Qed.

Lemma paths_update t d f : (forall e, pe_packet_hash (f e) = pe_packet_hash e) ->
  paths_hold (fun d e => announced d (pe_packet_hash e)) t -> paths_hold (fun d e => announced d (pe_packet_hash e)) (update_entry t d f).1.
Proof. intros Hf. apply update_entry_paths; [|done]. intros d0 e e' ->. done. Qed.

(** A link in its place. *)
Definition link_ok (r : LinkRef) (l : Link.t) : Prop :=
  match r with InLink k => Link.id l = k | OutLink k => desc_address_hash (Link.destination l) = k end.

Lemma link_ok_same r l l' : same_link l l' -> link_ok r l -> link_ok r l'.
Proof. intros [E1 E2]. destruct r; cbn; congruence. Qed.

Lemma link_at_ok r h l : safe h -> Some l = link_at r h -> link_ok r l.
Proof. intros Hh E. symmetry in E. destruct r as [k|k]; cbn in *; [by apply (s_in_links h Hh)|by apply (s_out_links h Hh)]. Qed.

Lemma put_link_safe r l h : link_ok r l -> safe h -> safe (put_link r l h).
Proof. intros Hl []. destruct r; cbn in Hl; constructor; cbn; try done; by apply map_Forall_insert_2. Qed.

Lemma mark_link_safe held now b r h : safe h -> safe (mark_link held now b r h).
Proof.
  intros Hh. unfold mark_link. destruct (link_at r h) as [l|] eqn:E; [|done]. case_decide; [done|]. apply put_link_safe; [|done].
  eapply link_ok_same; [|exact (link_at_ok _ h _ Hh (eq_sym E))]. done.
Qed.

Lemma note_unlocked_safe held now p h : safe h -> safe (note_unlocked_link_outbound held now p h).
Proof.
  intros Hh. unfold note_unlocked_link_outbound. cbv zeta. case_decide; [|case_decide; [|done]; by apply mark_link_safe].
  destruct (th_in_links h !! _); [by apply mark_link_safe|]. destruct (find_by_id _ _ _); [by apply mark_link_safe|done].
Qed.

End Safety.

#[export] Hint Resolve ok_ask ok_gets ok_draw ok_draw_inputs ok_unwrap ok_ret : handlers.

Ltac leaf :=
  lazymatch goal with
  | |- ok (mret _) _ => first [apply ok_ret | eapply ok_weaken; [apply ok_ret|]; try done]
  | |- ok ask _ => apply ok_ask
  | |- ok (gets _) _ => first [apply ok_gets | eapply ok_keeps, ok_gets]
  | |- ok draw _ => apply ok_draw
  | |- ok draw_inputs _ => apply ok_draw_inputs
  | |- ok (unwrap _) _ => first [apply ok_unwrap | eapply ok_keeps, ok_unwrap]
  | |- ok (emit _) _ => apply ok_emit
  | |- ok (modify _) _ => apply ok_modify; try frame
  | |- ok (update_field _ _ _) _ => apply ok_update_field; try frame
  | |- ok (with_field _ _ _) _ => first [apply ok_with_field | eapply ok_keeps, ok_with_field]; try frame
  | |- ok (managing _) _ => first [apply ok_managing | eapply ok_keeps, ok_managing]
  | |- ok _ _ => first [solve [eauto with handlers] | eapply ok_keeps; solve [eauto with handlers] | idtac]
  | |- _ => idtac
  end.

(** Decomposes a handler; what was read comes from a safe state. *)
Ltac oks :=
  lazymatch goal with
  | |- ok (match _ with _ => _ end ≫= _) _ => eapply (ok_bind _ _ (fun _ => True)); [oks|intros ? _; oks]
  | |- ok (_ ≫= _) _ => eapply ok_bind; [oks|let a := fresh "a" in let Ha := fresh "Ha" in intros a Ha; cbv beta in Ha;
                          try (destruct Ha as (? & ? & ->)); oks]
  | |- ok (let _ := _ in _) _ => cbv zeta; oks
  | |- ok (match ?x with _ => _ end) _ => destruct x eqn:?; oks
  | |- ok (when _ _) _ => apply ok_when; intros ?; oks
  | |- ok (for_each _ _) _ => apply ok_for_each; intros ? ?; oks
  | |- _ => leaf
  end.

Section Handlers.
Context {S : Type} `{!Storage S}.
Context `{sha : Sha256} `{kdf : Hkdf} `{dh : X25519} `{cbc : CbcCipher} `{mac : HmacSha256}.
Context `{sg : Signing} `{vf : !Verifying} `{ed : !Ed25519} `{edk : !Ed25519Keys}.
Context `{rm : Rmp} `{rd : RmpDecode} `{rc : RmpCursor} `{rs : RmpStr} `{bz : Bz2} `{rv : Manager.Rmpv} `{cd : RmpvCodec}.

Abbreviation keeps m := (ok m (fun _ => True)).

(** ** Sending *)
Lemma sent_ok (out : list (AddressHash * TxMessage)) : Forall (fun x => hop_ok (tx_packet x.2)) out ->
  Forall output_ok ((fun x : AddressHash * TxMessage => OSent x.1 x.2) <$> out).
Proof. intros Ho. apply Forall_fmap. eapply list.Forall_impl; [exact Ho|done]. Qed.

Lemma send_ok held msg : keeps (send (S := S) held msg).
Proof.
  unfold send. eapply ok_bind; [apply ok_ask|]. intros env _. destruct (_ <? _) eqn:Eh; [leaf|]. apply Z.ltb_ge in Eh.
  eapply ok_bind; [apply ok_modify; intros h Hh; by apply note_unlocked_safe|]. intros _ _.
  eapply ok_bind; [apply ok_with_field; intros h Hh; apply safe_cache; [apply update_cached, Hh|done]|]. intros _ _.
  eapply ok_bind; [apply ok_gets|]. intros m (h & Hh & ->). eapply ok_bind; [apply ok_unwrap|]. intros [m' out] E.
  assert (hop_ok (tx_packet msg)) as Hp by (unfold hop_ok, PATHFINDER_M in *; lia).
  destruct (send_bounded _ _ _ _ _ (s_hops h Hh) Hp E) as [Hm Ho].
  eapply ok_bind; [apply ok_modify; intros h' Hh'; by apply safe_manager|]. intros _ _. apply ok_emit. by apply sent_ok.
Qed.
#[local] Hint Resolve send_ok : handlers.

Lemma send_direct_ok i p : keeps (send_direct (S := S) i p).
Proof. apply send_ok. Qed.
Lemma send_packet_ok held p : keeps (send_packet (S := S) held p).
Proof. apply send_ok. Qed.
#[local] Hint Resolve send_direct_ok send_packet_ok : handlers.

Lemma send_from_link_ok held l p : ok (send_from_link (S := S) held l p) (same_link l).
Proof. unfold send_from_link. oks. by intros l' ->. Qed.

Lemma with_link_ok r f : (forall l, link_ok r l -> ok (f l) (link_ok r)) -> keeps (with_link (S := S) r f).
Proof.
  intros Hf. unfold with_link. eapply ok_bind; [apply ok_gets|]. intros l (h & Hh & El). destruct l as [l|]; [|leaf].
  eapply ok_bind; [apply Hf; exact (link_at_ok _ h _ Hh El)|]. intros l' Hl'. apply ok_modify. intros h' Hh'. by apply put_link_safe.
Qed.

(** Sending the last packet of a step on a link. *)
Lemma send_last_ok held r l p : link_ok r l -> ok (send_from_link (S := S) held l p) (link_ok r).
Proof. intros Hl. eapply ok_weaken; [apply send_from_link_ok|]. intros l' Hs. by eapply link_ok_same. Qed.

Lemma events_ok es : Forall output_ok (OLinkIn <$> es) /\ Forall output_ok (OLinkOut <$> es).
Proof. split; apply Forall_fmap, list.Forall_true; done. Qed.

Lemma teardown_link_ok r held : keeps (teardown_link (S := S) r held).
Proof.
  unfold teardown_link. eapply ok_bind; [apply ok_gets|]. intros l (h & Hh & El). destruct l as [l|]; [|leaf].
  eapply ok_bind; [apply ok_unwrap|]. intros [[res l'] es] E. assert (link_ok r l') as Hl.
  { eapply link_ok_same; [by eapply teardown_same|exact (link_at_ok _ h _ Hh El)]. }
  eapply ok_bind; [apply ok_modify; intros h' Hh'; by apply put_link_safe|]. intros _ _.
  eapply ok_bind; [apply ok_emit; destruct r; apply events_ok|]. intros _ _. destruct res as [[p|]|e]; [|leaf|leaf].
  eapply ok_bind; [|intros _ _; leaf]. destruct held; [|apply send_packet_ok]. apply with_link_ok. intros l0 Hl0. by apply send_last_ok.
Qed.
#[local] Hint Resolve teardown_link_ok : handlers.

Lemma link_close_ok i : keeps (link_close (S := S) i).
Proof. unfold link_close. oks. Qed.

Lemma filter_duplicates_ok p : keeps (filter_duplicate_packets (S := S) p).
Proof.
  unfold filter_duplicate_packets. oks.
  all: intros h Hh; apply safe_cache; [apply update_cached, Hh|done].
Qed.

Lemma request_path_ok d i tag : keeps (request_path (S := S) d i tag).
Proof. unfold request_path, generate_request. oks. Qed.

Lemma persist_known_ok : keeps (persist_known_destinations (S := S)).
Proof. unfold persist_known_destinations. oks. Qed.
#[local] Hint Resolve link_close_ok filter_duplicates_ok request_path_ok persist_known_ok : handlers.

(** ** Proofs *)
Lemma validate_proof_ok p : keeps (validate_single_destination_proof (S := S) p).
Proof. unfold validate_single_destination_proof. oks. by constructor. Qed.

Lemma relay_reverse_ok p i : keeps (relay_reverse_proof (S := S) p i).
Proof. unfold relay_reverse_proof. oks. Qed.
#[local] Hint Resolve validate_proof_ok relay_reverse_ok : handlers.

Lemma link_outputs_ok r l x : Forall output_ok (link_outputs r l x).
Proof.
  unfold link_outputs. apply list.Forall_app. split; [|apply Forall_fmap, list.Forall_true; done]. destruct r; apply events_ok.
Qed.

Lemma link_handle_ok r p l : ok (link_handle_packet (S := S) r p l) (fun x => same_link l x.2).
Proof.
  unfold link_handle_packet. eapply ok_bind; [apply ok_ask|]. intros env _. eapply ok_bind; [apply ok_gets|]. intros c _. cbv zeta.
  eapply ok_bind; [apply ok_emit, link_outputs_ok|]. intros _ _. eapply ok_weaken; [apply ok_ret|]. intros x ->. apply handle_packet_same.
Qed.

Lemma apply_outcome_ok r oc : link_ok r (link_after oc) -> keeps (apply_outcome (S := S) r oc).
Proof.
  intros Hl. unfold apply_outcome. oks; [intros h Hh; by apply put_link_safe|]. apply Forall_fmap, list.Forall_true. done.
Qed.

Lemma on_resources_ok f r p : (forall inp m l b oc, f inp m l p = Some (b, oc) -> same_link l (link_after oc)) -> keeps (on_resources (S := S) f r p).
Proof.
  intros Hf. unfold on_resources. eapply ok_bind; [apply ok_draw_inputs|]. intros inp _. eapply ok_bind; [apply ok_gets|]. intros m _.
  eapply ok_bind; [apply ok_gets|]. intros l (h & Hh & El). destruct l as [l|]; [|leaf]. eapply ok_bind; [apply ok_unwrap|]. intros [b oc] E.
  eapply ok_bind; [apply apply_outcome_ok|intros _ _; leaf]. eapply link_ok_same; [by eapply Hf|exact (link_at_ok _ h _ Hh El)].
Qed.

Lemma resource_packet_ok r p : keeps (Transport.handle_resource_packet (S := S) r p).
Proof. apply on_resources_ok. intros *. apply resource_packet_same. Qed.
Lemma request_packet_ok r p : keeps (Transport.handle_request_or_response_packet (S := S) r p).
Proof. apply on_resources_ok. intros *. apply request_packet_same. Qed.
#[local] Hint Resolve resource_packet_ok request_packet_ok : handlers.

Lemma resource_proof_ok r p : keeps (resource_proof (S := S) r p).
Proof.
  unfold resource_proof. do 2 (eapply ok_bind; [leaf|intros ? _]). eapply ok_bind; [apply ok_gets|]. intros l (h & Hh & El).
  destruct l as [l|]; [|leaf]. oks. intros h' Hh'. apply put_link_safe; [|done].
  eapply link_ok_same; [|exact (link_at_ok _ h _ Hh El)]. etransitivity; [apply note_established_same|apply marks_same].
Qed.

Lemma out_link_proof_ok p k : keeps (out_link_proof (S := S) p k).
Proof.
  unfold out_link_proof. eapply ok_bind; [apply ok_gets|]. intros l (h & Hh & El). destruct l as [l|]; [|leaf].
  pose proof (link_at_ok (OutLink k) h l Hh El) as Hl. eapply ok_bind; [apply link_handle_ok|]. intros [res l'] Hs. cbn in Hs.
  pose proof (link_ok_same _ _ _ Hs Hl) as Hl'. destruct res; try (oks; intros h' Hh'; by apply put_link_safe).
  do 2 (eapply ok_bind; [leaf|intros ? _]). eapply ok_bind; [by apply (send_last_ok _ (OutLink k))|]. intros l'' Hl''.
  oks. intros h' Hh'. by apply put_link_safe.
Qed.
#[local] Hint Resolve resource_proof_ok out_link_proof_ok : handlers.

Lemma out_link_proofs_ok p ks x : keeps (out_link_proofs (S := S) p ks x).
Proof. revert x. induction ks as [|k ks IH]; intros x; cbn; oks. Qed.

Lemma rebalance_path_ok x : keeps (rebalance_path (S := S) x).
Proof.
  unfold rebalance_path. destruct x as [[d o]|]; [|leaf]. eapply ok_bind; [apply ok_gets|]. intros t (h0 & H0 & ->). oks.
  intros h Hh. apply safe_paths; [|done]. by apply paths_update, H0.
Qed.

Lemma in_link_proof_ok p k : keeps (in_link_proof (S := S) p k).
Proof.
  unfold in_link_proof. apply with_link_ok. intros l Hl. eapply ok_bind; [apply link_handle_ok|]. intros [res l'] Hs.
  eapply ok_weaken; [apply ok_ret|]. intros x ->. by eapply link_ok_same.
Qed.

Lemma route_ok p i : keeps (route_on_link_table (S := S) p i).
Proof. unfold route_on_link_table. oks. Qed.

Lemma recall_known_ok d : keeps (recall_known (S := S) d).
Proof. unfold recall_known. oks. Qed.
#[local] Hint Resolve out_link_proofs_ok rebalance_path_ok in_link_proof_ok route_ok recall_known_ok : handlers.

Lemma link_request_proof_ok p i : keeps (link_request_proof (S := S) p i).
Proof. unfold link_request_proof. oks. intros h Hh. apply safe_paths; [|done]. by apply paths_update, Hh. Qed.
#[local] Hint Resolve link_request_proof_ok : handlers.

Lemma handle_proof_ok p i : keeps (Transport.handle_proof (S := S) p i).
Proof. unfold Transport.handle_proof. oks. Qed.
#[local] Hint Resolve handle_proof_ok : handlers.

(** ** Announces *)
Lemma hold_ok p i : keeps (hold_if_limited (S := S) p i).
Proof.
  unfold hold_if_limited. oks.
  - intros m Hm. cbn. apply stats_bounded. by apply op_bounded.
  - intros m Hm. apply with_control_bounded; [|done]. apply ingress_queue.
  - intros m Hm. apply with_control_bounded; [|done]. intros c. apply hold_queue.
Qed.

Lemma rate_check_ok p i : keeps (rate_check (S := S) p i).
Proof. unfold rate_check. oks. Qed.

Lemma violation_ok i : keeps (protocol_violation (S := S) i).
Proof. unfold protocol_violation. oks. intros m Hm. by apply stats_bounded. Qed.

Lemma remember_ratchet_ok d r : keeps (remember_announced_ratchet (S := S) d r).
Proof. unfold remember_announced_ratchet. oks. Qed.
#[local] Hint Resolve hold_ok rate_check_ok violation_ok remember_ratchet_ok : handlers.

Lemma remember_announce_ok p d a : validate p = Ok (d, a) -> keeps (remember_announce (S := S) p d a).
Proof.
  intros Hv. unfold remember_announce. oks.
  - intros h Hh. destruct Hh. constructor; cbn; try done. apply map_Forall_insert_2; [by exists p, a|done].
  - intros h Hh. apply safe_cache; [|done]. apply cache_announce_cached; [by eexists|apply Hh].
Qed.

Lemma response_entries_ok now d i hp g (h : Handler S) : safe h -> safe (set_announce_table (add_response (th_announce_table h) now d i hp g).1 h).
Proof.
  intros Hh. apply safe_announces; [|done]. apply add_response_entries; [|apply Hh]. intros d0 e e' ->. done.
Qed.

Lemma answer_discovery_ok p i : keeps (answer_discovery (S := S) p i).
Proof. unfold answer_discovery. oks. intros h Hh. by apply response_entries_ok. Qed.

Lemma install_path_ok p i w : authentic p -> keeps (install_path (S := S) p i w).
Proof.
  intros Hp. assert (announced (destination p) (Packet_hash p)) as Ha by (by exists p). unfold install_path. oks.
  - intros h Hh. apply safe_paths; [|done]. apply announce_paths; [by intros e ->|apply Hh].
  - intros h Hh. destruct Hh. constructor; cbn; try done. unfold associate_path. destruct (th_tunnels h !! _) as [t|] eqn:Et; [|done].
    cbn. apply map_Forall_insert_2; [|done]. cbn. apply map_Forall_insert_2; [done|]. exact (s_tunnels0 _ _ Et).
Qed.
#[local] Hint Resolve answer_discovery_ok : handlers.

Lemma draw_word_ok : keeps (draw_word (S := S)).
Proof. unfold draw_word. oks. Qed.
#[local] Hint Resolve draw_word_ok : handlers.

Lemma accept_announce_ok p i b d a : validate p = Ok (d, a) -> keeps (accept_announce (S := S) p i b d a).
Proof.
  intros Hv. assert (authentic p) as Hp by (by eexists). unfold accept_announce. oks.
  - by apply remember_announce_ok.
  - intros h Hh. apply safe_announces; [|done]. match goal with E : AnnounceTable_add _ _ _ _ _ _ = Some _ |- _ => eapply add_entries; [|exact E|] end;
      [by intros e ->|by apply s_announces].
  - by apply install_path_ok.
  - intros h Hh. apply safe_announces; [|done]. apply new_packet_entries; [|apply Hh]. intros d0 e e' ->. done.
  - by constructor.
Qed.

Lemma handle_announce_ok p i : keeps (Transport.handle_announce (S := S) p i).
Proof. unfold Transport.handle_announce. oks. by apply accept_announce_ok. Qed.
#[local] Hint Resolve handle_announce_ok : handlers.

(** ** Data *)
Lemma cache_request_ok p : keeps (handle_cache_request (S := S) p).
Proof. unfold handle_cache_request. oks. Qed.

Lemma next_hop_ok p l i : keeps (send_to_next_hop (S := S) p l i).
Proof.
  unfold send_to_next_hop. oks. intros h Hh. apply safe_paths; [|done]. apply inbound_paths; [|apply Hh]. intros d e e' ->. done.
Qed.

Lemma keepalive_response_ok p i : keeps (handle_keepalive_response (S := S) p i).
Proof. unfold handle_keepalive_response. oks. Qed.
#[local] Hint Resolve cache_request_ok next_hop_ok keepalive_response_ok : handlers.

Lemma link_cache_request_ok r p : keeps (answer_link_cache_request (S := S) r p).
Proof.
  unfold answer_link_cache_request. destruct (_ && _); [|leaf]. eapply ok_bind; [apply ok_gets|]. intros c _.
  eapply ok_bind; [apply ok_gets|]. intros l (h & Hh & El). destruct c as [c|], l as [l|]; try leaf.
  do 2 (eapply ok_bind; [leaf|intros ? _]). match goal with r : result Packet |- _ => destruct r as [q|e]; [|leaf] end. eapply ok_bind; [apply (send_last_ok _ r), (link_at_ok _ h _ Hh El)|].
  intros l' Hl'. oks. intros h' Hh'. by apply put_link_safe.
Qed.

Lemma in_link_packet_ok r p l : link_ok r l -> ok (in_link_packet (S := S) r p l) (link_ok r).
Proof.
  intros Hl. unfold in_link_packet. do 2 (eapply ok_bind; [leaf|intros ? _]). cbv zeta. eapply ok_bind; [apply link_handle_ok|].
  intros [res l'] Hs. cbn in Hs. pose proof (link_ok_same _ _ _ Hs Hl) as Hl'.
  assert (ok (mret l' : Tr S _) (link_ok r)) as Hr by (eapply ok_weaken; [apply ok_ret|]; by intros x ->).
  destruct res as [| | |[q|]]; try done; [destruct (keepalive_reply_due _ _ _)|destruct (proves_link_data _ _ _)]; try done; by apply send_last_ok.
Qed.

Lemma engines_ok r p : keeps (engines (S := S) r p).
Proof.
  unfold engines. oks. apply with_link_ok. intros l Hl. eapply ok_weaken; [apply ok_ret|]. intros x ->.
  eapply link_ok_same; [apply note_established_same|done].
Qed.
#[local] Hint Resolve link_cache_request_ok engines_ok : handlers.

Lemma in_link_data_ok p : keeps (in_link_data (S := S) p).
Proof. unfold in_link_data. oks. apply with_link_ok. intros l Hl. by apply in_link_packet_ok. Qed.

Lemma out_link_data_ok p k : keeps (out_link_data (S := S) p k).
Proof.
  unfold out_link_data. oks. apply with_link_ok. intros l Hl. eapply ok_bind; [apply link_handle_ok|]. intros [res l'] Hs. cbn in Hs.
  pose proof (link_ok_same _ _ _ Hs Hl) as Hl'.
  destruct res as [| | |[q|]]; try (eapply ok_weaken; [apply ok_ret|]; by intros x ->). by apply send_last_ok.
Qed.
#[local] Hint Resolve in_link_data_ok out_link_data_ok : handlers.

Lemma link_data_ok p i : keeps (handle_link_data (S := S) p i).
Proof. unfold handle_link_data. oks. Qed.

Lemma group_data_ok p : keeps (handle_group_data (S := S) p).
Proof. unfold handle_group_data. oks; by constructor. Qed.

Lemma plain_data_ok p : keeps (handle_plain_data (S := S) p).
Proof. unfold handle_plain_data. oks. by constructor. Qed.

Lemma single_data_ok p i : keeps (handle_single_data (S := S) p i).
Proof. unfold handle_single_data. oks. by constructor. Qed.
#[local] Hint Resolve link_data_ok group_data_ok plain_data_ok single_data_ok : handlers.

Lemma handle_data_ok p i : keeps (Transport.handle_data (S := S) p i).
Proof. unfold Transport.handle_data. oks. Qed.
#[local] Hint Resolve handle_data_ok : handlers.

(** ** Path requests *)
Lemma medium_timeout_ok : keeps (medium_discovery_timeout (S := S)).
Proof. unfold medium_discovery_timeout. oks. Qed.
#[local] Hint Resolve medium_timeout_ok : handlers.

Lemma register_discovery_ok d i : keeps (register_discovery (S := S) d i).
Proof. unfold register_discovery. oks. Qed.

Lemma forward_request_ok d tag o : keeps (forward_path_request (S := S) d tag o).
Proof. unfold forward_path_request. oks. intros m Hm. apply stats_bounded. by apply op_bounded. Qed.
#[local] Hint Resolve register_discovery_ok forward_request_ok : handlers.

Lemma clean_desc {I} (d : Destination I) : desc (clean_ratchets d) = desc d.
Proof. unfold clean_ratchets. destruct (ratchets d); [destruct (_ <? _)%nat|]; reflexivity. Qed.

Lemma rotate_desc ratchet now d : desc (rotate_ratchets_if_due ratchet now d).2 = desc d.
Proof.
  unfold rotate_ratchets_if_due, push_ratchet. destruct (ratchets d); [|reflexivity]. cbv zeta. cbn [snd]. destruct (_ || _); [|reflexivity].
  rewrite clean_desc. reflexivity.
Qed.

Lemma announce_at_desc ratchet rand app now d : desc (announce_at ratchet rand app now d).2 = desc d.
Proof.
  pose proof (rotate_desc ratchet now d) as E. unfold announce_at. cbv zeta. destruct (rotate_ratchets_if_due _ _ _) as [r d'].
  destruct (write_opt _ _) as [[u|e] b]; [|exact E]. destruct (write_opt _ _) as [[u'|e] b']; exact E.
Qed.

Lemma path_response_desc ratchet rand app now d : desc (path_response ratchet rand app now d).2 = desc d.
Proof.
  pose proof (announce_at_desc ratchet rand app now d) as E. unfold path_response. destruct (announce_at _ _ _ _ d) as [[p|e] d']; exact E.
Qed.

Lemma local_response_ok k d : desc_address_hash (desc d) = k -> keeps (local_path_response (S := S) k d).
Proof.
  intros Hd. unfold local_path_response. do 3 (eapply ok_bind; [leaf|intros ? _]).
  match goal with |- context [path_response ?a ?b ?c ?t ?d] => pose proof (path_response_desc a b c t d) as E; destruct (path_response a b c t d) as [r d'] end.
  cbn in E. oks. intros h Hh. apply safe_destinations; [|done]. apply map_Forall_insert_2; [congruence|apply Hh].
Qed.

Lemma known_path_ok i r e : keeps (answer_known_path (S := S) i r e).
Proof. unfold answer_known_path. oks. intros h Hh. by apply response_entries_ok. Qed.

Lemma pr_limited_ok i : keeps (pr_ingress_limited (S := S) i).
Proof. unfold pr_ingress_limited. oks. intros m Hm. apply with_control_bounded; [|done]. apply ingress_pr_queue. Qed.

Lemma search_on_ok r modes o : keeps (search_on (S := S) r modes o).
Proof. unfold search_on. oks. intros m Hm. apply with_control_bounded; [|done]. apply egress_pr_queue. Qed.
#[local] Hint Resolve known_path_ok pr_limited_ok search_on_ok : handlers.

Lemma search_path_ok i r modes : keeps (search_path (S := S) i r modes).
Proof. unfold search_path. oks. Qed.
#[local] Hint Resolve search_path_ok : handlers.

Lemma discover_path_ok i r : keeps (discover_path (S := S) i r).
Proof. unfold discover_path. oks. Qed.
#[local] Hint Resolve discover_path_ok : handlers.

Lemma handle_path_request_ok p i : keeps (Transport.handle_path_request (S := S) p i).
Proof.
  unfold Transport.handle_path_request. oks.
  - intros m Hm. apply stats_bounded. by apply op_bounded.
  - match goal with E : th_single_in_destinations ?x !! _ = Some _, Hx : safe ?x |- _ => apply local_response_ok; exact (s_in x Hx _ _ E) end.
Qed.

(** ** Tunnels *)
Lemma restore_paths_ok now unix i l t : Forall (fun x => announced x.1 (tp_packet_hash x.2)) l ->
  paths_hold (fun d e => announced d (pe_packet_hash e)) t ->
  paths_hold (fun d e => announced d (pe_packet_hash e)) (restore_paths now unix i l t).1.
Proof.
  revert t. induction l as [|[d x] l IH]; intros t Hl Ht; [done|]. apply list.Forall_cons in Hl as [Hx Hl]. cbn. destruct (should_restore _ _ _ _).
  - apply IH; [done|]. apply restored_paths; [|done]. by intros e ->.
  - specialize (IH t Hl Ht). by destruct (restore_paths now unix i l t).
Qed.

Definition tunnel_paths_ok (t : TunnelEntry) : Prop := map_Forall (fun d x => announced d (tp_packet_hash x)) (te_paths t).

Lemma handle_tunnel_ok t id i now : map_Forall (fun _ => tunnel_paths_ok) t ->
  map_Forall (fun _ => tunnel_paths_ok) (handle_tunnel t id i now).1 /\
  forall l, (handle_tunnel t id i now).2 = Restored l -> Forall (fun x => announced x.1 (tp_packet_hash x.2)) l.
Proof.
  intros Ht. unfold handle_tunnel. cbv zeta. destruct (t !! id) as [e|] eqn:E; cbn.
  - pose proof (Ht id e E) as He. split; [by apply map_Forall_insert_2|]. intros l [= <-]. apply list.Forall_forall.
    intros [d x] Hin%elem_of_btree_iter. exact (He d x Hin).
  - split; [|done]. apply map_Forall_insert_2; [|done]. apply map_Forall_empty.
Qed.

Lemma finish_restore_ok t id declined : map_Forall (fun _ => tunnel_paths_ok) t -> map_Forall (fun _ => tunnel_paths_ok) (finish_restore t id declined).
Proof.
  intros Ht. unfold finish_restore. destruct (t !! id) as [e|] eqn:E; [|done]. apply map_Forall_insert_2; [|done].
  pose proof (Ht id e E) as He. unfold tunnel_paths_ok in *. cbn. revert He. generalize (te_paths e).
  induction declined as [|d l IH]; intros m Hm; [done|]. cbn. apply IH. by apply map_Forall_delete.
Qed.

Lemma safe_tunnels t (h : Handler S) : map_Forall (fun _ => tunnel_paths_ok) t -> safe h -> safe (set_tunnels t h).
Proof. intros Ht []. by constructor. Qed.

Lemma tunnel_synthesize_ok p i : keeps (handle_tunnel_synthesize (S := S) p i).
Proof.
  unfold handle_tunnel_synthesize. eapply ok_bind; [leaf|]. intros env _. destruct (decode_tunnel_synthesize _) as [x|]; [|leaf]. cbv zeta.
  eapply ok_bind; [apply ok_with_field; intros h Hh; apply safe_tunnels; [apply handle_tunnel_ok, Hh|done]|].
  intros handling (h & Hh & ->). eapply (ok_bind _ _ (fun _ => True)).
  - destruct (handle_tunnel _ _ _ _).2 as [|l] eqn:E; [leaf|]. apply handle_tunnel_ok in E; [|apply Hh]. oks.
    + intros h' Hh'. apply safe_paths; [|done]. by apply restore_paths_ok, Hh'.
    + intros h' Hh'. apply safe_tunnels; [|done]. apply finish_restore_ok, Hh'.
  - intros _ _. oks. intros m Hm. by apply write_bounded.
Qed.
#[local] Hint Resolve handle_path_request_ok tunnel_synthesize_ok : handlers.

Lemma fixed_destinations_ok p i : keeps (handle_fixed_destinations (S := S) p i).
Proof. unfold handle_fixed_destinations. oks. Qed.

(** ** Link requests *)
Lemma request_as_destination_ok d p i : keeps (handle_link_request_as_destination (S := S) d p i).
Proof.
  unfold handle_link_request_as_destination. do 2 (eapply ok_bind; [leaf|intros ? _]). destruct (negb _); [leaf|].
  destruct (Destination_handle_packet d p); [leaf|]. case_decide; [leaf|]. eapply ok_bind; [leaf|]. intros secret _.
  destruct (new_from_request _ _ _ _ _) as [l|e]; [|leaf]. cbv zeta. destruct (Links.prove _) as [[proof l'] es].
  eapply ok_bind; [apply ok_emit, events_ok|]. intros _ _. eapply ok_bind; [apply send_from_link_ok|]. intros l'' _. oks.
  intros h Hh. destruct Hh. constructor; cbn; try done. by apply map_Forall_insert_2.
Qed.

Lemma request_as_intermediate_ok a b c n p : keeps (handle_link_request_as_intermediate (S := S) a b c n p).
Proof. unfold handle_link_request_as_intermediate. oks. Qed.
#[local] Hint Resolve fixed_destinations_ok request_as_destination_ok request_as_intermediate_ok : handlers.

Lemma handle_link_request_ok p i : keeps (handle_link_request (S := S) p i).
Proof. unfold handle_link_request. oks. Qed.
#[local] Hint Resolve handle_link_request_ok : handlers.

(** ** Storage *)
Lemma with_storage_ok {A} s (f : S -> A * S) : keeps (with_storage s f).
Proof. unfold with_storage. oks. Qed.
#[local] Hint Resolve with_storage_ok : handlers.

Lemma persist_ok : keeps (persist_handler (S := S)).
Proof. unfold persist_handler. oks. Qed.
#[local] Hint Resolve persist_ok : handlers.

Lemma shutdown_ok : keeps (shutdown_persist (S := S)).
Proof. unfold shutdown_persist. oks. Qed.

(** The tables have been loaded. *)
Lemma load_ok : keeps (load_persisted_state (S := S)).
Proof.
  unfold load_persisted_state. eapply ok_bind; [leaf|]. intros env _. eapply ok_bind; [apply ok_gets|]. intros h (h0 & Hh & ->).
  destruct (classify_stable_ids _) as [live ambiguous]. cbv zeta. rewrite (s_loaded h0 Hh). leaf.
Qed.
#[local] Hint Resolve shutdown_ok load_ok : handlers.

(** ** Timers *)
Lemma check_in_link_ok k : keeps (check_in_link (S := S) k).
Proof.
  unfold check_in_link. do 2 (eapply ok_bind; [leaf|intros ? _]). eapply ok_bind; [apply ok_gets|]. intros l (h & Hh & El). destruct l as [l|]; [|leaf].
  pose proof (link_at_ok _ h _ Hh El) as Hl. oks. intros h' Hh'. apply put_link_safe; [|done]. by eapply link_ok_same; [|exact Hl].
Qed.

Lemma check_pending_ok k l : link_ok (OutLink k) l -> keeps (check_pending_link (S := S) k l).
Proof.
  intros Hl. unfold check_pending_link. do 2 (eapply ok_bind; [leaf|intros ? _]). destruct (_ <=? _); [leaf|]. cbv zeta.
  do 2 (eapply ok_bind; [leaf|intros ? _]). destruct (_ <? _); [oks|].
  match goal with |- context [Links.request ?t l] => pose proof (request_same t l) as E; destruct (Links.request t l) as [p l'] end. cbn in E.
  eapply ok_bind; [apply (send_last_ok _ (OutLink k)); cbn in *; congruence|]. intros l'' Hl''. oks. intros h Hh. by apply put_link_safe.
Qed.

Lemma check_out_link_ok k : keeps (check_out_link (S := S) k).
Proof.
  unfold check_out_link. do 2 (eapply ok_bind; [leaf|intros ? _]). cbv zeta. eapply (ok_bind _ _ (fun _ => True)).
  { apply with_link_ok. intros l Hl. destruct (keepalive_due _ _ _); [by apply send_last_ok|]. eapply ok_weaken; [apply ok_ret|]. by intros x ->. }
  intros _ _. eapply ok_bind; [apply ok_gets|]. intros l (h & Hh & El). destruct l as [l|]; [|leaf].
  pose proof (link_at_ok _ h _ Hh El) as Hl. destruct (Link.status l); cbn [close]; oks.
  all: try (intros h' Hh'; apply put_link_safe; [|done]; by eapply link_ok_same; [|exact Hl]).
  - by apply check_pending_ok.
  - apply events_ok.
Qed.
#[local] Hint Resolve check_in_link_ok check_out_link_ok : handlers.

Lemma check_each_ok {A} (f : AddressHash -> Tr S A) ks : (forall k, keeps (f k)) -> keeps (check_each f ks).
Proof. intros Hf. induction ks as [|k ks IH]; cbn; oks. Qed.

Lemma rediscover_ok d : keeps (rediscover (S := S) d).
Proof. unfold rediscover. oks. intros h Hh. apply safe_paths; [|done]. apply paths_update; [done|apply Hh]. Qed.
#[local] Hint Resolve rediscover_ok : handlers.

Lemma check_links_ok : keeps (handle_check_links (S := S)).
Proof.
  unfold handle_check_links. oks.
  - apply check_each_ok. apply check_in_link_ok.
  - intros h Hh. destruct Hh. constructor; cbn; try done. by apply map_Forall_delete.
  - apply check_each_ok. apply check_out_link_ok.
  - intros h Hh. destruct Hh. constructor; cbn; try done. by apply map_Forall_delete.
Qed.

Lemma disappeared_ok : keeps (shared_connection_disappeared (S := S)).
Proof.
  unfold shared_connection_disappeared. oks.
  all: intros h Hh; destruct Hh; constructor; cbn; try done; try apply map_Forall_empty; try apply clear_entries.
Qed.

Lemma announce_destination_ok k : keeps (announce_destination (S := S) k).
Proof.
  unfold announce_destination. oks.
  match goal with E : th_single_in_destinations ?x !! _ = Some _, Hx : safe ?x |- _ => apply local_response_ok; exact (s_in x Hx _ _ E) end.
Qed.
#[local] Hint Resolve check_links_ok disappeared_ok announce_destination_ok : handlers.

Lemma reappeared_ok : keeps (shared_connection_reappeared (S := S)).
Proof. unfold shared_connection_reappeared. oks. Qed.

Lemma drop_client_link_ok id : keeps (drop_client_link (S := S) id).
Proof.
  unfold drop_client_link. eapply ok_bind; [apply ok_gets|]. intros links (h & Hh & ->). eapply (ok_bind _ _ (fun _ => True)); [|intros _ _; leaf].
  destruct (th_in_links h !! id); [|leaf]. oks; [|apply events_ok|eapply ok_keeps, send_from_link_ok].
  intros h' Hh'. destruct Hh'. constructor; cbn; try done. by apply map_Forall_delete, Hh.
Qed.
#[local] Hint Resolve reappeared_ok drop_client_link_ok : handlers.

Lemma drop_local_client_ok i : keeps (drop_local_client (S := S) i).
Proof.
  unfold drop_local_client. oks.
  - intros h Hh. apply safe_paths; [|done]. apply retain_paths, Hh.
  - intros h Hh. apply safe_announces; [|done]. apply drop_responses_entries, Hh.
  - intros h Hh. apply safe_tunnels; [|done]. intros k t (Ht & _)%map_lookup_filter_Some. exact (s_tunnels h Hh k t Ht).
Qed.
#[local] Hint Resolve drop_local_client_ok : handlers.

Lemma shared_instance_ok : keeps (note_shared_instance (S := S)).
Proof. unfold note_shared_instance. oks. Qed.

Lemma dispatch_ok p i : keeps (dispatch (S := S) p i).
Proof. unfold dispatch. oks. Qed.
#[local] Hint Resolve shared_instance_ok dispatch_ok : handlers.

Lemma record_phy_safe p a (h : Handler S) : safe h -> safe (record_phy p a h).
Proof. intros Hh. unfold record_phy. cbv zeta. repeat case_match; try done; destruct Hh; by constructor. Qed.

Lemma inbound_packet_ok m : keeps (inbound_packet (S := S) m).
Proof.
  unfold inbound_packet. oks.
  - by constructor.
  - intros h Hh. by apply record_phy_safe.
  - intros m' Hm. by apply stats_bounded.
Qed.
#[local] Hint Resolve inbound_packet_ok : handlers.

Lemma classify_all_ok l : keeps (classify_all (S := S) l).
Proof. induction l as [|m l IH]; cbn; unfold ingress_limited_path_request; oks. Qed.
#[local] Hint Resolve classify_all_ok : handlers.

Lemma inbound_batch_ok l : keeps (inbound_batch (S := S) l).
Proof. unfold inbound_batch. oks. Qed.

Lemma synthesize_ok i : keeps (synthesize_tunnel (S := S) i).
Proof. unfold synthesize_tunnel. oks. intros m. apply write_bounded. Qed.
#[local] Hint Resolve synthesize_ok : handlers.

Lemma control_tick_ok : keeps (control_tick (S := S)).
Proof.
  unfold control_tick. oks.
  - intros m Hm. by apply release_bounded.
  - intros h Hh. apply safe_manager; [|done].
    match goal with E : process_announce_queues _ _ = Some _ |- _ => eapply (queues_bounded _ _ _ _ _ E) end. Unshelve. by apply s_hops.
  - apply sent_ok. match goal with E : process_announce_queues _ _ = Some _ |- _ => eapply (queues_bounded _ _ _ _ _ E) end. Unshelve. by apply s_hops.
Qed.

Lemma link_tick_ok : keeps (link_tick (S := S)).
Proof. unfold link_tick. oks. Qed.

Lemma cleanup_ok : keeps (handle_cleanup (S := S)).
Proof.
  unfold handle_cleanup. oks; [by intros m []|]. intros h Hh. apply safe_tunnels; [|done]. intros k t (Ht & _)%map_lookup_filter_Some.
  exact (s_tunnels h Hh k t Ht).
Qed.

Lemma stale_link_ok e : keeps (stale_link (S := S) e).
Proof. unfold stale_link. oks. all: intros h Hh; apply safe_paths; [|done]; apply paths_update; [done|apply Hh]. Qed.
#[local] Hint Resolve stale_link_ok : handlers.

Lemma cull_tick_ok : keeps (cull_tick (S := S)).
Proof. unfold cull_tick. oks. all: intros h Hh; apply safe_paths; [|done]; apply retain_paths, Hh. Qed.

Lemma cache_tick_ok : keeps (cache_tick (S := S)).
Proof. unfold cache_tick. oks. Qed.

Lemma draw_ivs_ok ids : keeps (draw_ivs (S := S) ids).
Proof. induction ids as [|i ids IH]; cbn; oks. Qed.
#[local] Hint Resolve draw_ivs_ok : handlers.

Lemma resource_tick_ok : keeps (resource_tick (S := S)).
Proof. unfold resource_tick. oks. Qed.

Lemma retransmit_ok b : keeps (retransmit_announces (S := S) b).
Proof.
  unfold retransmit_announces. oks. intros h Hh. apply safe_announces; [|done]. apply tick_entries; [|apply Hh]. intros d e e' ->. done.
Qed.
#[local] Hint Resolve inbound_batch_ok control_tick_ok link_tick_ok cleanup_ok cull_tick_ok cache_tick_ok resource_tick_ok retransmit_ok : handlers.

(** ** Calls *)
Lemma outbound_ok p : keeps (outbound (S := S) p).
Proof. unfold outbound. oks. intros h Hh. apply safe_paths; [|done]. apply local_paths; [|apply Hh]. intros d e e' ->. done. Qed.

Lemma save_ratchets_ok k d : keeps (save_announced_ratchets (S := S) k d).
Proof. unfold save_announced_ratchets. oks. Qed.
#[local] Hint Resolve outbound_ok save_ratchets_ok : handlers.

Lemma alter_keyed (k : AddressHash) (d : Destination PrivateIdentity) (m : gmap AddressHash (Destination PrivateIdentity)) : desc_address_hash (desc d) = k ->
  map_Forall (fun k d => desc_address_hash (desc d) = k) m -> map_Forall (fun k d => desc_address_hash (desc d) = k) (alter (fun _ => d) k m).
Proof.
  intros Hd Hm k' d' E. destruct (decide (k' = k)) as [->|Hne]; [rewrite lookup_alter_eq in E; destruct (m !! k); [|done]; by injection E as <-|].
  rewrite lookup_alter_ne in E by done. exact (Hm k' d' E).
Qed.

Lemma announce_own_ok k app : keeps (announce_own (S := S) k app).
Proof.
  unfold announce_own. eapply ok_bind; [apply ok_gets|]. intros h (h0 & Hh & ->). destruct (th_single_in_destinations h0 !! k) as [d|] eqn:E; [|leaf].
  pose proof (s_in h0 Hh k d E) as Hd. cbn in Hd. unfold send_announce. do 3 (eapply ok_bind; [leaf|intros ? _]).
  match goal with |- context [announce_at ?a ?b ?c ?t ?d] => pose proof (announce_at_desc a b c t d) as Ed; destruct (announce_at a b c t d) as [r d'] end.
  cbn in Ed. oks. intros h Hh'. apply safe_destinations; [|done]. apply alter_keyed; [congruence|apply Hh'].
Qed.

Lemma send_on_links_ok w d refs : keeps (send_on_links (S := S) w d refs).
Proof.
  induction refs as [|r refs IH]; cbn; [leaf|]. eapply ok_bind; [apply ok_gets|]. intros l (h & Hh & El).
  eapply (ok_bind _ _ (fun _ => True)); [|intros ? _; oks]. destruct l as [l|]; [|leaf]. pose proof (link_at_ok _ h _ Hh El) as Hl.
  destruct (_ && _); [|leaf]. do 2 (eapply ok_bind; [leaf|intros ? _]). match goal with r : result Packet |- _ => destruct r as [q|e]; [|leaf] end.
  eapply ok_bind; [by apply (send_last_ok _ r)|]. intros l' Hl'. oks. intros h' Hh'. by apply put_link_safe.
Qed.
#[local] Hint Resolve announce_own_ok send_on_links_ok : handlers.

Lemma open_link_ok d : keeps (link (S := S) d).
Proof.
  unfold link. do 2 (eapply ok_bind; [leaf|intros ? _]). cbv zeta. match goal with |- context [if ?b then _ else _] => destruct b; [leaf|] end.
  do 2 (eapply ok_bind; [leaf|intros ? _]). match goal with |- context [Links.request _ (if ?c then ?a else ?b)] => set (l := if c then a else b) end.
  assert (Link.destination l = d) as Hd by (unfold l; by destruct (cfg_link_mtu_discovery _)).
  match goal with |- context [Links.request ?t l] => pose proof (request_same t l) as E; destruct (Links.request t l) as [p l'] end. cbn in E.
  oks. intros h Hh. destruct Hh. constructor; cbn; try done. apply map_Forall_insert_2; [by rewrite E, Hd|done].
Qed.

Lemma add_destination_ok i name : keeps (add_destination (S := S) i name).
Proof. unfold add_destination. oks. intros h Hh. apply safe_destinations; [|done]. apply map_Forall_insert_2; [done|apply Hh]. Qed.

Lemma accepts_ok k b : keeps (set_destination_accepts_links (S := S) k b).
Proof.
  unfold set_destination_accepts_links. oks. intros h Hh. apply safe_destinations; [|done].
  match goal with E : th_single_in_destinations ?x !! _ = Some _, Hx : safe ?x |- _ => apply map_Forall_insert_2; [exact (s_in x Hx _ _ E)|apply Hx] end.
Qed.

Lemma ratchet_of_ok d : keeps (ratchet_of (S := S) d).
Proof. unfold ratchet_of. oks. Qed.
#[local] Hint Resolve open_link_ok add_destination_ok accepts_ok ratchet_of_ok : handlers.

Lemma send_to_ok dest d : keeps (send_to_destination (S := S) dest d).
Proof. unfold send_to_destination. oks. Qed.

Lemma send_plain_ok name d : keeps (send_to_plain_destination (S := S) name d).
Proof. unfold send_to_plain_destination. oks. Qed.

Lemma send_group_ok name d key : keeps (send_to_group_destination (S := S) name d key).
Proof. unfold send_to_group_destination, send_broadcast. oks. Qed.

Lemma dispatch_request_same inp m l packed o r oc : dispatch_packed_request inp m l packed o = Some (r, oc) -> same_link l (link_after oc).
Proof.
  unfold dispatch_packed_request. cbv zeta. intros E. repeat (case_match; simplify_option_eq); try done; try apply marks_same.
  all: match goal with H : Requests.enqueue_resource _ _ _ _ = Some (_, _) |- _ => by eapply enqueue_same in H end.
Qed.

Lemma request_on_ok r path d : keeps (request_on (S := S) r path d).
Proof.
  unfold request_on, on_link. do 2 (eapply ok_bind; [leaf|intros ? _]). eapply ok_bind; [apply ok_gets|]. intros l (h & Hh & El).
  destruct l as [l|]; [|leaf]. eapply ok_bind; [apply ok_unwrap|]. intros [x oc] E. eapply ok_bind; [apply apply_outcome_ok|intros _ _; leaf].
  eapply link_ok_same; [by eapply dispatch_request_same|exact (link_at_ok _ h _ Hh El)].
Qed.

Lemma cancel_ok i hash : keeps (cancel_resource_on (S := S) i hash).
Proof. unfold cancel_resource_on. oks. Qed.

Lemma remove_blackholed_ok : keeps (remove_blackholed_paths (S := S)).
Proof.
  unfold remove_blackholed_paths. eapply ok_bind; [apply ok_gets|]. intros h (h0 & Hh & ->). cbv zeta. oks. intros h Hh'. apply safe_paths; [|done].
  match goal with |- paths_hold _ (foldl _ _ ?l) => generalize l end. intros l. generalize (s_paths h0 Hh). generalize (th_path_table h0).
  induction l as [|d l IH]; intros t Ht; [done|]. cbn. apply IH. by apply drop_path_paths.
Qed.

Lemma persist_blackholes_ok : keeps (persist_blackholes (S := S)).
Proof. unfold persist_blackholes. oks. Qed.
#[local] Hint Resolve remove_blackholed_ok persist_blackholes_ok : handlers.

Lemma blackhole_ok i u r : keeps (blackhole_identity (S := S) i u r).
Proof. unfold blackhole_identity. oks. Qed.

Lemma unblackhole_ok i : keeps (unblackhole_identity (S := S) i).
Proof. unfold unblackhole_identity. oks. Qed.

Lemma recall_ok d : keeps (Transport_recall (S := S) d).
Proof. unfold Transport_recall, on_known. oks. Qed.

Lemma ignore_ok {A} (m : Tr S A) : keeps m -> keeps (ignore m).
Proof. intros Hm. unfold ignore. oks. Qed.
#[local] Hint Resolve send_to_ok send_plain_ok send_group_ok request_on_ok cancel_ok blackhole_ok unblackhole_ok recall_ok ignore_ok : handlers.

Lemma attach_ok ty : keeps (attach (S := S) ty).
Proof. unfold attach. oks. intros m. apply spawn_bounded. Qed.

Lemma detach_ok i : keeps (detach (S := S) i).
Proof.
  unfold detach. eapply ok_bind; [apply ok_gets|]. intros m (h & Hh & ->). eapply ok_bind; [apply ok_unwrap|]. intros [b m'] E.
  apply ok_modify. intros h' Hh'. apply safe_manager; [|done]. eapply stop_bounded; [apply (s_hops h Hh)|exact E].
Qed.

Lemma configure_ok i f : keeps (managing (S := S) (write_control i f)).
Proof. oks. intros m. apply write_bounded. Qed.

Lemma count_ok i f : keeps (managing (S := S) (fun m => (tt, with_stats i f m))).
Proof. oks. intros m. apply stats_bounded. Qed.
#[local] Hint Resolve attach_ok detach_ok configure_ok count_ok : handlers.

Lemma step_ok s : keeps (step_body (S := S) s).
Proof. destruct s; cbn [step_body]; unfold send_to_out_links; oks; apply ignore_ok; oks. Qed.

Lemma run_ok steps (h h' : Handler S) out : safe h -> transport_run steps h = Some (h', out) -> safe h' /\ Forall output_ok out.
Proof.
  revert h out. induction steps as [|[env s] steps IH]; intros h out Hh; cbn; [by intros [= <- <-]|].
  pose proof (step_ok s env 0%nat h Hh) as Hs. destruct (step_body s env 0%nat h) as [[[[u n] h1] o1]|]; [|done]. destruct Hs as (H1 & _ & Ho). cbn.
  destruct (transport_run steps h1) as [[h2 o2]|] eqn:E; [|done]. cbn. intros [= <- <-]. destruct (IH h1 o2 H1 E) as [H2 Ho2].
  split; [done|]. by apply list.Forall_app.
Qed.

Lemma new_safe config word : safe (Transport_new (S := S) config None word).
Proof.
  assert (th_persisted_loaded (Transport_new (S := S) config None word) = true) as Hl by (by apply bool_decide_true).
  constructor; first [exact Hl|apply map_Forall_empty|apply new_entries|idtac]. unfold Transport_new. cbv zeta. cbn [th_iface_manager].
  destruct (cfg_local_hops_delta config); [|destruct (_ =? 0); split; try (cbn; lia); apply map_Forall_empty].
  pose proof (Z.mod_pos_bound (word mod 256) 6 ltac:(lia)). destruct (_ =? 0); split; try (cbn; lia); apply map_Forall_empty.
Qed.

(** The hop counts of the packets that were handed to interfaces. *)
Definition sent_hops (out : list Output) : list Z := omap (fun o => match o with OSent _ m => Some (hops (header (tx_packet m))) | _ => None end) out.

Lemma sent_hops_ok out : Forall output_ok out -> Forall (fun k => k <= 127) (sent_hops out).
Proof. induction 1 as [|o out Ho _ IH]; [constructor|]. cbn. destruct o; [constructor; [exact Ho|]|..]; exact IH. Qed.

(** A table whose keys are those of what it holds. *)
Definition keyed_by {A} (key : A -> AddressHash) (m : gmap AddressHash A) : Prop := map_Forall (fun k x => key x = k) m.

(** The destination has the address under which it is filed, and that is the
    address of its name and of its identity. *)
Definition filed_under (k : AddressHash) (d : Destination Identity) : Prop :=
  desc_address_hash (desc d) = k /\ create_address_hash (dst_identity d) (desc_name (desc d)) = k.

Lemma validate_filed p d a : validate p = Ok (d, a) -> filed_under (destination p) d.
Proof.
  intros E. destruct (validate_sound p d a E) as (pk & vk & name & rand & sig & _ & _ & _ & _ & _ & Hi & _ & Ha & Hd).
  split; [exact Ha|]. rewrite Hi. by symmetry.
Qed.

(** C3: whatever a transport receives, and whatever its application asks of it,
    it routes and encrypts only by announces with a valid signature.  In every
    state that a transport without stored tables reaches, each path, and each path
    kept for a tunnel, was announced by a packet whose signature is valid and
    whose destination is that of the path; each announce that is to be repeated,
    and each that answers a path request, is such a packet; and each destination
    to which packets are encrypted is the one that such a packet announces, filed
    under the address of the packet, which is also the one that its name and
    identity hash to. *)
Theorem Transport_authentic (config : TransportConfig) (word : Z) (steps : list (Env * TransportStep)) (h : Handler S) (out : list Output)
    (Hrun : transport_run steps (Transport_new config None word) = Some (h, out)) :
  (forall d e, PathTable_get (th_path_table h) d = Some e -> announced d (pe_packet_hash e)) /\
  (forall i t d x, th_tunnels h !! i = Some t -> te_paths t !! d = Some x -> announced d (tp_packet_hash x)) /\
  (forall d e, at_map (th_announce_table h) !! d = Some e -> authentic (ae_packet e) /\ destination (ae_packet e) = d) /\
  (forall d i e, responses (th_announce_table h) !! (d, i) = Some e -> authentic (ae_packet e) /\ destination (ae_packet e) = d) /\
  (forall k d, th_single_out_destinations h !! k = Some d -> (exists p a, validate p = Ok (d, a) /\ destination p = k) /\ filed_under k d).
Proof.
  destruct (run_ok steps _ h out (new_safe config word) Hrun) as [Hs _]. destruct (s_announces h Hs) as (Ha & Hr & _). split_and!.
  - exact (s_paths h Hs).
  - intros i t d x Ht. exact (s_tunnels h Hs i t Ht d x).
  - exact Ha.
  - intros d i e. exact (Hr (d, i) e).
  - intros k d Hk. destruct (s_out h Hs k d Hk) as (p & a & Hv & <-). split; [by exists p, a|by eapply validate_filed].
Qed.

(** C10: no packet travels for ever.  A packet that a transport without stored
    tables hands to an interface, its own or one it relays, in whatever state and
    for whatever reason, has a hop count of at most 127. *)
Theorem Transport_hop_limit (config : TransportConfig) (word : Z) (steps : list (Env * TransportStep)) (h : Handler S) (out : list Output)
    (Hrun : transport_run steps (Transport_new config None word) = Some (h, out)) :
  Forall (fun k => k <= 127) (sent_hops out).
Proof. exact (sent_hops_ok out (proj2 (run_ok steps _ h out (new_safe config word) Hrun))). Qed.

(** C25: in every state that a transport without stored tables reaches, the tables
    are keyed by what they hold: incoming links by their identifier, outgoing
    links by the address of their destination, and the destinations of the
    transport by their address. *)
Theorem Transport_tables_keyed (config : TransportConfig) (word : Z) (steps : list (Env * TransportStep)) (h : Handler S) (out : list Output)
    (Hrun : transport_run steps (Transport_new config None word) = Some (h, out)) :
  keyed_by Link.id (th_in_links h) /\
  keyed_by (fun l => desc_address_hash (Link.destination l)) (th_out_links h) /\
  keyed_by (fun d => desc_address_hash (desc d)) (th_single_in_destinations h).
Proof.
  destruct (run_ok steps _ h out (new_safe config word) Hrun) as [Hs _]. split_and!; [exact (s_in_links h Hs)|exact (s_out_links h Hs)|exact (s_in h Hs)].
Qed.

End Handlers.

(** ** Witnesses *)
#[local] Existing Instance toy_sha256.
#[local] Existing Instance toy_hkdf.
#[local] Existing Instance toy_x25519.
#[local] Existing Instance toy_cbc.
#[local] Existing Instance toy_hmac.
#[local] Existing Instance toy_signing.
#[local] Existing Instance toy_verifying.
#[local] Existing Instance toy_ed25519.
#[local] Existing Instance toy_keys.
#[local] Existing Instance msgpack_rmp.
#[local] Existing Instance toy_rmp_decode.
#[local] Existing Instance toy_cursor.
#[local] Existing Instance toy_rmp_str.
#[local] Existing Instance toy_bz2.
#[local] Existing Instance toy_rmpv.
#[local] Existing Instance toy_codec.

Definition sample_env (now seed : Z) : Env :=
  mkEnv (now * NANOS) (now * NANOS) (f64_of_Z (1700000000 + now)) (1700000000 + now) (fun n => replicate 32 (seed + Z.of_nat n))
    (fun _ => mkInputs (f64_of_Z 0) 0 (fun _ => replicate 16 3) (fun _ => replicate 16 3) (fun _ => ((replicate 32 1, replicate 16 2), []))
       (replicate 16 3) ((replicate 32 1, replicate 16 2), []) (replicate 16 3)).
Definition sample_type : IfaceType := mkIfaceType "TcpClient" None false "127.0.0.1:4242".
Definition sample_config : TransportConfig := set_retransmit true (TransportConfig_new (PrivateIdentity_new (replicate 32 4) (replicate 32 5))).

(** Two interfaces, and an announce that comes in on the first. *)
Definition sample_iface (seed : Z) : AddressHash := (spawn 0 (replicate 32 seed) sample_type Manager_new).1.
Definition sample_dest : AddressHash := destination Destination.sample_announce.
Definition other_name : DestinationName := mkName (replicate 32 7).

(** The transport then repeats the announce, sends to the destination, and opens a
    link to it. *)
Definition sample_steps : list (Env * TransportStep) :=
  [(sample_env 1 1, Attach sample_type);
   (sample_env 1 2, Attach sample_type);
   (sample_env 2 10, AddDestination (PrivateIdentity_new (replicate 32 4) (replicate 32 5)) other_name);
   (sample_env 3 20, Receive [mkRx (sample_iface 1) Destination.sample_announce]);
   (sample_env 4 30, RetransmitTick false);
   (sample_env 30 30, RetransmitTick false);
   (sample_env 31 40, SendTo sample_dest [1; 2; 3]);
   (sample_env 32 41, OpenLink (mkDesc (Identity_new (replicate 32 2) (replicate 32 3)) sample_dest sample_name))].
Definition sample_start : Handler MemoryStorage := Transport_new sample_config None 0.


Definition sample_checks (h : Handler MemoryStorage) (out : list Output) : bool :=
  bool_decide (is_Some (PathTable_get (th_path_table h) sample_dest)) && bool_decide (is_Some (th_single_out_destinations h !! sample_dest))
  && bool_decide (base.size (th_out_links h) = 1%nat) && bool_decide (sent_hops out = [1; 1; 1; 1; 0; 0]).

Lemma sample_run_checks : match transport_run sample_steps sample_start with Some (h, out) => sample_checks h out | None => false end = true.
Proof. vm_compute. reflexivity. Qed.

Lemma sample_run_ends : exists h out e d, transport_run sample_steps (Transport_new sample_config None 0) = Some (h, out) /\
  PathTable_get (th_path_table h) sample_dest = Some e /\ th_single_out_destinations h !! sample_dest = Some d /\
  base.size (th_out_links h) = 1%nat /\ sent_hops out = [1; 1; 1; 1; 0; 0].
Proof.
  pose proof sample_run_checks as T. change (Transport_new sample_config None 0) with sample_start.
  destruct (transport_run sample_steps sample_start) as [[h out]|]; [|discriminate T]. unfold sample_checks in T.
  apply andb_prop in T as [T To]. apply andb_prop in T as [T Tl]. apply andb_prop in T as [Tp Td].
  apply bool_decide_eq_true in Tp as [e Ee]. apply bool_decide_eq_true in Td as [d Ed]. apply bool_decide_eq_true in Tl. apply bool_decide_eq_true in To.
  by exists h, out, e, d.
Qed.

Lemma Transport_authentic_witness :
  exists h out e d, transport_run sample_steps (Transport_new sample_config None 0) = Some (h, out) /\
    PathTable_get (th_path_table h) sample_dest = Some e /\ announced sample_dest (pe_packet_hash e) /\
    th_single_out_destinations h !! sample_dest = Some d /\ (exists p a, validate p = Ok (d, a) /\ destination p = sample_dest) /\ filed_under sample_dest d.
Proof.
  destruct sample_run_ends as (h & out & e & d & E & Ee & Ed & _).
  destruct (Transport_authentic sample_config 0 sample_steps h out E) as (P & _ & _ & _ & O).
  exists h, out, e, d. split; [exact E|]. split; [exact Ee|]. split; [exact (P _ _ Ee)|]. split; [exact Ed|exact (O _ _ Ed)].
Defined.

Lemma Transport_hop_limit_witness :
  exists h out, transport_run sample_steps (Transport_new sample_config None 0) = Some (h, out) /\ sent_hops out = [1; 1; 1; 1; 0; 0] /\
    Forall (fun k => k <= 127) (sent_hops out).
Proof.
  destruct sample_run_ends as (h & out & e & d & E & _ & _ & _ & T).
  exists h, out. split; [exact E|]. split; [exact T|exact (Transport_hop_limit sample_config 0 sample_steps h out E)].
Defined.

Lemma Transport_tables_keyed_witness :
  exists h out, transport_run sample_steps (Transport_new sample_config None 0) = Some (h, out) /\ base.size (th_out_links h) = 1%nat /\
    keyed_by (fun l => desc_address_hash (Link.destination l)) (th_out_links h).
Proof.
  destruct sample_run_ends as (h & out & e & d & E & _ & _ & T & _).
  exists h, out. split; [exact E|]. split; [exact T|].
  exact (proj1 (proj2 (Transport_tables_keyed sample_config 0 sample_steps h out E))).
Defined.
