(* ===== verification/TransportRouting.v ===== *)
(** * A packet and its proof across a line of transports

    A packet for a known destination leaves the sender, passes any number of
    relays and is delivered; the proof of the destination takes the way back that
    the relays remembered and concludes the sender's receipt.  Every node runs its
    whole packet task on every packet. *)

From S2P Require Import Prelude Float Buffer Crypto Hash Token Identity Msgpack Packet Counters Ifac PacketCache LinkTable AnnounceTable.
From S2P Require Import AnnounceLimits PathTable Destination Links PathRequests Tunnels Resource ResourceOut ResourceIn ResourceManager Requests.
From S2P Require Import IfaceControl Ifaces Storage Blackholes Inbound Handler Transport Persist Loop Api Tables TransportSafety.

(** ** Interfaces *)

(** The manager has one running interface with the address, and does not disguise
    the hops of its own packets. *)
Definition carries (m : InterfaceManager) (a : AddressHash) : Prop :=
  local_hops_delta m = 0 /\ exists l1 i l2, ifaces m = l1 ++ i :: l2 /\ if_address i = a /\ if_stopped i = false /\
    Forall (fun j => if_address j <> a) l1 /\ Forall (fun j => if_address j <> a) l2.

Lemma send_loop_none now a p l m : is_announce p = false -> Forall (fun j => if_address j <> a) l ->
  send_loop now false (mkTxMessage (TxDirect a) p) l m = Some (m, l, []).
Proof.
  intros Hp. induction 1 as [|j l Hj _ IH]; [done|]. cbn [send_loop]. unfold send_one at 1. cbn [should_send tx_type].
  rewrite bool_decide_false by congruence. cbn. by rewrite IH.
Qed.

Lemma send_loop_app now b msg l1 l2 m m1 l1' o1 m2 l2' o2 :
  send_loop now b msg l1 m = Some (m1, l1', o1) -> send_loop now b msg l2 m1 = Some (m2, l2', o2) ->
  send_loop now b msg (l1 ++ l2) m = Some (m2, l1' ++ l2', o1 ++ o2).
Proof.
  revert m m1 l1' o1. induction l1 as [|i l1 IH]; intros m m1 l1' o1 H1 H2; cbn in *; [by injection H1 as <- <- <-|].
  destruct (send_one now b msg i m) as [[[m3 i3] o3]|]; [|done]. cbn in *. destruct (send_loop now b msg l1 m3) as [[[m4 l4] o4]|] eqn:E4; [|done].
  cbn in *. injection H1 as <- <- <-. rewrite (IH _ _ _ _ E4 H2). cbn. by rewrite app_assoc.
Qed.

Lemma direct_sent now a p m : carries m a -> is_announce p = false ->
  Ifaces.send now (mkTxMessage (TxDirect a) p) m = Some (m, [(a, mkTxMessage (TxDirect a) p)]).
Proof.
  intros (Hd & l1 & i & l2 & El & Ha & Hs & H1 & H2) Hp. unfold Ifaces.send. rewrite Hd. cbn [negb andb Z.eqb]. rewrite El.
  assert (send_loop now false (mkTxMessage (TxDirect a) p) (i :: l2) m = Some (m, i :: l2, [(a, mkTxMessage (TxDirect a) p)])) as E2.
  { cbn [send_loop]. unfold send_one at 1. cbn [should_send tx_type tx_packet]. rewrite Ha, bool_decide_true, Hs, Hp by done. cbn.
    by rewrite send_loop_none by done. }
  rewrite (send_loop_app _ _ _ _ _ _ _ _ _ _ _ _ (send_loop_none now a p l1 m Hp H1) E2). cbn [mbind option_bind app].
  destruct m as [c l ct d t]. cbn in *. by subst l.
Qed.

(** A broadcast leaves on every running interface. *)
Lemma broadcast_sent now p m : local_hops_delta m = 0 -> is_announce p = false ->
  Ifaces.send now (mkTxMessage (TxBroadcast None) p) m
  = Some (m, (fun i => (if_address i, mkTxMessage (TxBroadcast None) p)) <$> List.filter (fun i => negb (if_stopped i)) (ifaces m)).
Proof.
  intros Hd Hp. unfold Ifaces.send. rewrite Hd. cbn [negb andb Z.eqb].
  assert (forall l, send_loop now false (mkTxMessage (TxBroadcast None) p) l m
    = Some (m, l, (fun i => (if_address i, mkTxMessage (TxBroadcast None) p)) <$> List.filter (fun i => negb (if_stopped i)) l)) as ->.
  { induction l as [|i l IH]; [done|]. cbn [send_loop]. unfold send_one at 1. cbn [should_send tx_type tx_packet List.filter].
    rewrite Hp. cbn. destruct (if_stopped i); cbn; rewrite IH; done. }
  cbn. by destruct m.
Qed.

(** ** Queues *)
Definition idle (q : InboundQueues) : Prop := queues q = replicate 4 [] /\ (0 < size_of TcData q)%nat.

Lemma idle_batch m q : idle q -> drain_queues (put_all [(TcData, m)] q) = ([m], q).
Proof.
  intros [Hq Hs]. destruct q as [l s d]. cbn [queues] in Hq. subst l. unfold size_of in Hs. cbn [sizes class_index] in Hs.
  assert (put_all [(TcData, m)] (mkQueues (replicate 4 []) s d) = mkQueues [[m]; []; []; []] s d) as ->.
  { unfold put_all, put. cbn. by rewrite (proj2 (Nat.leb_gt _ _) Hs). }
  unfold drain_queues. by rewrite drain_loop_spec by (cbn; lia).
Qed.

Section Routing.
Context {S : Type} `{!Storage S}.
Context `{sha : Sha256} `{kdf : Hkdf} `{dh : X25519} `{cbc : CbcCipher} `{mac : HmacSha256}.
Context `{sg : Signing} `{vf : !Verifying} `{ed : !Ed25519} `{edk : !Ed25519Keys}.
Context `{rm : Rmp} `{rd : RmpDecode} `{rc : RmpCursor} `{rs : RmpStr} `{bz : Bz2} `{rv : Manager.Rmpv} `{cd : RmpvCodec}.

(** ** A packet that a node receives *)
Definition receive (env : Env) (iface : AddressHash) (p : Packet) (h : Handler S) : option (Handler S * list Output) :=
  transport_run [(env, Receive [mkRx iface p])] h.

(** What the queues and the filters in front of the handlers ask of a packet: it is
    new, for no fixed destination, and not for another transport. *)
Record admitted (h : Handler S) (p : Packet) : Prop := {
  a_idle : idle (th_inbound_queues h);
  a_type : packet_type (header p) = Data \/ packet_type (header p) = Proof;
  a_single : destination_type (header p) = Single;
  a_context : context p = CtxNone;
  a_path : destination p <> th_fixed_dest_path_requests h;
  a_tunnel : destination p <> th_fixed_dest_tunnel_synthesize h;
  a_fresh : pc_map (th_packet_cache h) !! Packet_hash p = None;
  a_transport : transport p = None \/ transport p = Some (own_address h);
}.

(** The state a handler sees: the packet is in the cache of duplicates. *)
Definition seen (env : Env) (iface : AddressHash) (p : Packet) (h : Handler S) : Handler S :=
  set_packet_cache (PacketCache_update (th_packet_cache h) (e_now env) p).1 (record_phy p iface h).

Lemma record_phy_is p iface (h : Handler S) : exists phy, record_phy p iface h = set_phy phy h.
Proof.
  unfold record_phy. assert (h = set_phy (th_phy h) h) as Eh by (by destruct h). destruct (find_live iface (th_iface_manager h)) as [i|];
    [|by exists (th_phy h)]. destruct (rssi (if_stats i)), (snr (if_stats i)), (quality (if_stats i)); eexists; first [reflexivity|exact Eh].
Qed.

Lemma run_bind {A B} (m : Tr S A) (f : A -> Tr S B) env n h a n1 h1 o1 b n2 h2 o2 :
  m env n h = Some (a, n1, h1, o1) -> f a env n1 h1 = Some (b, n2, h2, o2) -> (m ≫= f) env n h = Some (b, n2, h2, o1 ++ o2).
Proof. intros E1 E2. unfold mbind, Tr_bind. by rewrite E1, E2. Qed.

Lemma run_with_field {F A} (get : Handler S -> F) set (f : F -> F * A) env n h :
  with_field get set f env n h = Some ((f (get h)).2, n, set (f (get h)).1 h, []).
Proof. unfold with_field. by destruct (f (get h)). Qed.

Lemma fixed_not p iface (h : Handler S) env n : destination p <> th_fixed_dest_path_requests h -> destination p <> th_fixed_dest_tunnel_synthesize h ->
  handle_fixed_destinations p iface env n h = Some (false, n, h, []).
Proof. intros H1 H2. unfold handle_fixed_destinations. eapply (run_bind _ _ _ _ _ _ _ _ []); [reflexivity|]. by rewrite !decide_False. Qed.

Lemma not_duplicate p (h : Handler S) env n : pc_map (th_packet_cache h) !! Packet_hash p = None -> packet_type (header p) = Data \/ packet_type (header p) = Proof ->
  filter_duplicate_packets p env n h = Some (true, n, set_packet_cache (PacketCache_update (th_packet_cache h) (e_now env) p).1 h, []).
Proof.
  intros Hf Ht. unfold filter_duplicate_packets. do 2 (eapply (run_bind _ _ _ _ _ _ _ _ []); [reflexivity|]). cbv zeta.
  assert ((PacketCache_update (th_packet_cache h) (e_now env) p).2 = true) as Enew by (unfold PacketCache_update; by rewrite Hf).
  destruct Ht as [-> | ->]; (eapply (run_bind _ _ _ _ _ _ _ _ []); [apply run_with_field|]); cbv beta; by rewrite Enew.
Qed.

Lemma dispatched env iface p (h h' : Handler S) n o : admitted h p -> dispatch p iface env 0%nat (seen env iface p h) = Some (tt, n, h', o) ->
  receive env iface p h = Some (h', ORx (mkRx iface p) :: o).
Proof.
  intros [Hq Ht Hs Hc Hp Htn Hf Hx] E. unfold receive. cbn [transport_run step_body].
  assert (inbound_batch [mkRx iface p] env 0%nat h = Some (tt, n, h', ORx (mkRx iface p) :: o)) as ->; [|cbn; by rewrite app_nil_r].
  assert (classify_all [mkRx iface p] env 0%nat h = Some ([(TcData, mkRx iface p)], 0%nat, h, [])) as Ec.
  { cbn [classify_all]. eapply (run_bind _ _ _ _ _ _ _ _ []).
    - eapply (run_bind _ _ _ _ _ _ _ _ []); [reflexivity|]. cbn [rx_packet]. rewrite (bool_decide_false (destination p = _)) by done.
      by rewrite andb_false_r.
    - do 2 (eapply (run_bind _ _ _ _ _ _ _ _ []); [reflexivity|]). unfold classify. cbn [rx_packet].
      rewrite (bool_decide_false (destination p = _)), andb_false_r by done. by destruct Ht as [-> | ->]. }
  unfold inbound_batch. rewrite <- (app_nil_l (ORx _ :: o)). eapply run_bind; [exact Ec|].
  rewrite <- (app_nil_l (ORx _ :: o)). eapply run_bind; [apply run_with_field|]. cbv beta. rewrite idle_batch by done. cbn [fst snd for_each].
  assert (set_inbound_queues (th_inbound_queues h) h = h) as -> by (by destruct h).
  rewrite <- (app_nil_r (ORx _ :: o)). eapply run_bind; [|reflexivity]. unfold inbound_packet. cbn [rx_packet rx_address].
  change (ORx (mkRx iface p) :: o) with ([ORx (mkRx iface p)] ++ o). eapply run_bind; [reflexivity|].
  rewrite <- (app_nil_l o). eapply run_bind; [reflexivity|]. destruct (record_phy_is p iface h) as [phy Ephy]. unfold seen in E. rewrite Ephy in E |- *.
  assert (packet_filter p = true) as -> by (unfold packet_filter, packet_filter_violation; by rewrite Hs). cbn [negb].
  rewrite <- (app_nil_l o). eapply run_bind; [by apply fixed_not|]. cbn iota.
  rewrite <- (app_nil_l o). eapply run_bind; [reflexivity|].
  assert (bool_decide (own_address h = own_address h) = true) as Eo by (by apply bool_decide_true).
  assert (for_other_instance p (set_phy phy h) = false) as ->.
  { unfold for_other_instance. change (own_address (set_phy phy h)) with (own_address h). destruct Hx as [-> | ->]; [apply andb_false_r|].
    rewrite Eo. apply andb_false_r. }
  rewrite <- (app_nil_l o). eapply run_bind; [by apply not_duplicate|]. cbn [negb].
  rewrite <- (app_nil_l o). eapply run_bind; [reflexivity|].
  change (th_packet_cache (set_phy phy h)) with (th_packet_cache h).
  assert (overheard p (set_packet_cache (PacketCache_update (th_packet_cache h) (e_now env) p).1 (set_phy phy h)) = false) as ->; [|exact E].
  unfold overheard. change (own_address (set_packet_cache _ (set_phy phy h))) with (own_address h). destruct Hx as [-> | ->]; [done|].
  rewrite Eo. cbn [negb]. by rewrite andb_false_r.
Qed.
(** ** Sending *)
Lemma run_send held msg out env n (h : Handler S) : hops (header (tx_packet msg)) <= 127 -> destination_type (header (tx_packet msg)) = Single ->
  packet_type (header (tx_packet msg)) <> LinkRequest -> Ifaces.send (e_now env) msg (th_iface_manager h) = Some (th_iface_manager h, out) ->
  send held msg env n h = Some (tt, n, set_packet_cache (PacketCache_update (th_packet_cache h) (e_now env) (tx_packet msg)).1 h,
    (fun x : AddressHash * TxMessage => OSent x.1 x.2) <$> out).
Proof.
  intros Hh Hs Ht E. unfold send. do 4 (rewrite <- (app_nil_l (_ <$> out))). eapply run_bind; [reflexivity|].
  unfold PATHFINDER_M. rewrite (proj2 (Z.ltb_ge _ _)) by lia. eapply run_bind; [reflexivity|].
  assert (note_unlocked_link_outbound held (e_mono env) (tx_packet msg) h = h) as ->
    by (unfold note_unlocked_link_outbound; rewrite Hs, decide_False, decide_False by done; done).
  eapply run_bind; [apply run_with_field|]. cbv beta. eapply run_bind; [reflexivity|]. cbn [th_iface_manager set_packet_cache]. rewrite E.
  rewrite <- (app_nil_l (_ <$> out)). eapply run_bind; [reflexivity|]. cbv beta iota. rewrite <- (app_nil_l (_ <$> out)). eapply run_bind; [reflexivity|].
  unfold emit. by destruct h.
Qed.

Lemma run_send_direct a p env n (h : Handler S) : hops (header p) <= 127 -> destination_type (header p) = Single ->
  packet_type (header p) = Data \/ packet_type (header p) = Proof -> carries (th_iface_manager h) a ->
  send_direct a p env n h = Some (tt, n, set_packet_cache (PacketCache_update (th_packet_cache h) (e_now env) p).1 h, [OSent a (mkTxMessage (TxDirect a) p)]).
Proof.
  intros Hh Hs Ht Hc. unfold send_direct. rewrite (run_send _ _ [(a, mkTxMessage (TxDirect a) p)]); [done|done|done| |].
  - cbn. by destruct Ht as [-> | ->].
  - apply direct_sent; [done|]. unfold is_announce. by destruct Ht as [-> | ->].
Qed.

(** ** Relays *)

(** What a packet in transit leaves as it was. *)
Record kept (h h' : Handler S) : Prop := {
  k_config : th_config h' = th_config h;
  k_manager : th_iface_manager h' = th_iface_manager h;
  k_queues : th_inbound_queues h' = th_inbound_queues h;
  k_path : th_fixed_dest_path_requests h' = th_fixed_dest_path_requests h;
  k_tunnel : th_fixed_dest_tunnel_synthesize h' = th_fixed_dest_tunnel_synthesize h;
  k_in : th_in_links h' = th_in_links h;
  k_out : th_out_links h' = th_out_links h;
  k_links : th_link_table h' = th_link_table h;
}.

(** Only the packet itself is new in the cache of duplicates. *)
Definition only_cached (x : Hash) (h h' : Handler S) : Prop :=
  forall y, y <> x -> pc_map (th_packet_cache h) !! y = None -> pc_map (th_packet_cache h') !! y = None.

Lemma update_other c now p y : y <> Packet_hash p -> pc_map c !! y = None -> pc_map (PacketCache_update c now p).1 !! y = None.
Proof.
  intros Hy Hn. unfold PacketCache_update. destruct (pc_map c !! Packet_hash p); cbn; by rewrite lookup_insert_ne by congruence.
Qed.

Definition forwarded_packet (e : PathEntry) (p : Packet) : Packet := fst (snd (handle_inbound_packet (mkPathTable {[destination p := e]} false) 0 p None)).

Lemma forwarded_same e p : 0 <= hops (header p) < 127 ->
  same_packet p (forwarded_packet e p) /\ hops (header (forwarded_packet e p)) = hops (header p) + 1 /\
  (pe_hops e <= 1 -> transport (forwarded_packet e p) = None) /\ (1 < pe_hops e -> transport (forwarded_packet e p) = Some (pe_received_from e)).
Proof.
  intros Hh. destruct (inbound_known (mkPathTable {[destination p := e]} false) 0 p e) as (Es & _ & Eh & _ & H1 & H2); [apply lookup_singleton_eq|].
  unfold forwarded_packet. rewrite Eh, u8_add_small by lia. split_and!; [done|done|intros; by apply H1|intros; by apply H2].
Qed.

Lemma run_next_hop p up e env n (h : Handler S) : packet_type (header p) = Data -> destination_type (header p) = Single ->
  PathTable_get (th_path_table h) (destination p) = Some e -> carries (th_iface_manager h) (pe_iface e) -> 0 <= hops (header p) < 127 ->
  exists h', send_to_next_hop p None (Some up) env n h
    = Some (true, n, h', [OSent (pe_iface e) (mkTxMessage (TxDirect (pe_iface e)) (forwarded_packet e p))]) /\
    kept h h' /\ th_receipts h' = th_receipts h /\ only_cached (Packet_hash p) h h' /\
    th_reverse_table h' = <[AddressHash_new_from_hash (Packet_hash p) := mkReverse up (pe_iface e) (e_now env)]> (th_reverse_table h).
Proof.
  intros Ht Hs He Hc Hh. destruct (forwarded_same e p Hh) as (Hsame & Hfh & _). pose proof Hsame as (Es & Et & _).
  assert (handle_inbound_packet (th_path_table h) (e_mono env) p None
    = (PathTable.touch (th_path_table h) (e_mono env) (destination p), (forwarded_packet e p, Some (pe_iface e)))) as Ei.
  { unfold forwarded_packet, handle_inbound_packet, PathTable_get in *. cbn [default]. rewrite He. cbn [pt_map]. by rewrite lookup_singleton_eq. }
  set (h1 := set_reverse_table (<[AddressHash_new_from_hash (Packet_hash p) := mkReverse up (pe_iface e) (e_now env)]> (th_reverse_table h))
    (set_path_table (PathTable.touch (th_path_table h) (e_mono env) (destination p)) h)).
  exists (set_packet_cache (PacketCache_update (th_packet_cache h1) (e_now env) (forwarded_packet e p)).1 h1). split.
  - unfold send_to_next_hop. change ([OSent ?a ?b]) with ([] ++ ([] ++ ([] ++ ([] ++ ([OSent a b] ++ []))))).
    eapply run_bind; [reflexivity|]. cbv zeta. eapply run_bind; [apply run_with_field|]. cbv beta. rewrite Ei. cbn [fst snd].
    eapply run_bind; [rewrite Ht; reflexivity|]. eapply run_bind; [reflexivity|]. eapply run_bind; [|reflexivity].
    unfold clamp_link_mtu. rewrite <- Et, Ht. cbn [bool_decide andb]. apply run_send_direct; [lia|congruence|left; congruence|done].
  - split; [by split|]. split; [done|]. split; [|done]. intros y Hy Hn. apply update_other; [by rewrite <- (Packet_hash_same _ _ Hsame)|done].
Qed.

Lemma relay_data env up p (h : Handler S) e : admitted h p -> packet_type (header p) = Data -> th_single_in_destinations h !! destination p = None ->
  transport p = Some (own_address h) -> PathTable_get (th_path_table h) (destination p) = Some e -> carries (th_iface_manager h) (pe_iface e) ->
  0 <= hops (header p) < 127 ->
  exists h', receive env up p h = Some (h', [ORx (mkRx up p); OSent (pe_iface e) (mkTxMessage (TxDirect (pe_iface e)) (forwarded_packet e p))]) /\
    kept h h' /\ th_receipts h' = th_receipts h /\ only_cached (Packet_hash p) h h' /\
    th_reverse_table h' = <[AddressHash_new_from_hash (Packet_hash p) := mkReverse up (pe_iface e) (e_now env)]> (th_reverse_table h).
Proof.
  intros Ha Ht Hin Hx He Hc Hh. pose proof Ha as [_ _ Hs Hctx _ _ _ _]. destruct (record_phy_is p up h) as [phy Ephy].
  destruct (run_next_hop p up e env 0%nat (seen env up p h)) as (h' & E & [K1 K2 K3 K4 K5 K6 K7 K8] & Kr & Kc & Kt);
    [done|done|unfold seen; by rewrite Ephy|unfold seen; by rewrite Ephy|done|].
  unfold seen in *. rewrite Ephy in *. exists h'. split.
  - eapply dispatched; [done|]. unfold seen. rewrite Ephy. unfold dispatch. rewrite Ht. unfold handle_data.
    change ([OSent ?a ?b]) with ([] ++ ([] ++ ([OSent a b] ++ []))). eapply run_bind; [by rewrite decide_False by (by rewrite Hctx)|].
    cbv iota. rewrite Hs. unfold handle_single_data. eapply run_bind; [reflexivity|]. cbn [th_single_in_destinations set_packet_cache set_phy].
    rewrite Hin. unfold when. rewrite bool_decide_true by done. eapply run_bind; [exact E|reflexivity].
  - split; [by split|]. split; [done|]. split; [|done]. intros y Hy Hn. apply Kc; [done|]. by apply update_other.
Qed.

(** The address of a proof names none of the node's links. *)
Record foreign (t : AddressHash) (h : Handler S) : Prop := {
  f_out : map_Forall (fun _ l => Link.id l <> t) (th_out_links h);
  f_in : map_Forall (fun _ l => Link.id l <> t) (th_in_links h);
  f_links : th_link_table h !! t = None;
}.

Lemma filter_none (t : AddressHash) (m : gmap AddressHash Link.t) : map_Forall (fun _ l => Link.id l <> t) m ->
  List.filter (fun e => bool_decide (Link.id e.2 = t)) (btree_iter bytes_le m) = [].
Proof.
  intros Hm. assert (Forall (fun e : AddressHash * Link.t => Link.id e.2 <> t) (btree_iter bytes_le m)) as Hl.
  { apply list.Forall_forall. intros [k l] Hk. apply elem_of_btree_iter in Hk. exact (Hm k l Hk). }
  induction Hl as [|e l He _ IH]; [done|]. cbn. by rewrite bool_decide_false.
Qed.

Lemma run_foreign_proof q down env n (h : Handler S) : foreign (destination q) h -> context q = CtxNone ->
  (outs ← gets (out_links_with (destination q));
   rebalanced ← out_link_proofs q outs None;
   _ ← rebalance_path rebalanced;
   ins ← gets (in_links_with (destination q));
   _ ← for_each ins (in_link_proof q);
   let local := negb (bool_decide (outs = [])) || negb (bool_decide (ins = [])) in
   let lr_proof := bool_decide (context q = CtxLinkRequestProof) in
   _ ← when (negb local && negb lr_proof) (route_on_link_table q down);
   when lr_proof (link_request_proof q down)) env n h = Some (tt, n, h, []).
Proof.
  intros [Ho Hi Hl] Hc. eapply (run_bind _ _ _ _ _ _ _ _ []); [reflexivity|]. unfold out_links_with. rewrite filter_none by done. cbn [fmap list_fmap].
  do 2 (eapply (run_bind _ _ _ _ _ _ _ _ []); [reflexivity|]). eapply (run_bind _ _ _ _ _ _ _ _ []); [reflexivity|].
  unfold in_links_with. rewrite filter_none by done. cbn [fmap list_fmap for_each]. eapply (run_bind _ _ _ _ _ _ _ _ []); [reflexivity|].
  rewrite Hc. cbn -[route_on_link_table]. eapply (run_bind _ _ _ _ _ _ _ _ []); [|reflexivity].
  unfold route_on_link_table. eapply (run_bind _ _ _ _ _ _ _ _ []); [reflexivity|].
  eapply (run_bind _ _ _ _ _ _ _ _ []); [apply run_with_field|]. unfold route_link_packet. rewrite Hl. cbn. by destruct h.
Qed.

Definition returned_packet (q : Packet) : Packet :=
  mkPacket (with_hops (header q) (hops (header q) + 1)) (ifac q) (destination q) (transport q) (context q) (data q).

(** A relay that remembers the packet passes its proof on. *)
Lemma relay_proof env q (h : Handler S) r : admitted h q -> packet_type (header q) = Proof -> retransmits h = true ->
  th_reverse_table h !! destination q = Some r -> carries (th_iface_manager h) (rv_received r) -> th_receipts h !! destination q = None ->
  foreign (destination q) h -> 0 <= hops (header q) < 127 ->
  exists h', receive env (rv_outbound r) q h
    = Some (h', [ORx (mkRx (rv_outbound r) q); OSent (rv_received r) (mkTxMessage (TxDirect (rv_received r)) (returned_packet q))]).
Proof.
  intros Ha Ht Hr Hrev Hc Hrec [Fo Fi Fl] Hh. pose proof Ha as [_ _ Hs Hctx _ _ _ _]. destruct (record_phy_is q (rv_outbound r) h) as [phy Ephy].
  pose proof Hc as [Hdelta _]. eexists. eapply dispatched; [done|]. unfold dispatch. rewrite Ht. unfold handle_proof, seen. rewrite Ephy.
  change ([OSent ?a ?b]) with ([] ++ ([OSent a b] ++ ([] ++ ([] ++ [])))). eapply run_bind; [by rewrite decide_False by (by rewrite Hctx)|]. cbv iota.
  eapply run_bind.
  - unfold relay_reverse_proof. rewrite !decide_False by (by rewrite Hctx). change ([OSent ?a ?b]) with ([] ++ ([] ++ [OSent a b])).
    eapply run_bind; [reflexivity|]. cbn [th_reverse_table th_iface_manager set_packet_cache set_phy]. rewrite Hrev.
    change (retransmits (set_packet_cache _ _)) with (retransmits h). rewrite Hr. cbn [negb orb]. eapply run_bind; [reflexivity|].
    rewrite decide_True by done. rewrite Hdelta. cbn [Z.eqb negb]. rewrite andb_false_r.
    assert (u8_saturating_add (hops (header q)) 1 = hops (header q) + 1) as -> by (unfold u8_saturating_add; lia).
    apply run_send_direct; [cbn; lia|done|by right|done].
  - eapply run_bind; [reflexivity|]. eapply run_bind.
    + cbn [th_receipts set_packet_cache set_phy set_reverse_table]. rewrite Hrec, (bool_decide_false (is_Some None)) by (by intros []). by rewrite andb_false_r.
    + cbv iota. by apply run_foreign_proof.
Qed.

(** ** The destination *)
Definition proof_of (implicit : bool) (key : bytes) (p : Packet) : Packet :=
  let data := if implicit then (StaticBuffer.safe_write (sign key (Packet_hash p)) PacketDataBuffer_new).2
              else (StaticBuffer.safe_write (sign key (Packet_hash p)) (StaticBuffer.safe_write (Packet_hash p) PacketDataBuffer_new).2).2 in
  mkPacket (mkHeader Open false Type1 Broadcast Single Proof 0) None (AddressHash_new_from_hash (Packet_hash p)) None CtxNone data.

Lemma proof_payload implicit key p :
  payload (proof_of implicit key p) = (if implicit then [] else Packet_hash p) ++ sign key (Packet_hash p).
Proof.
  pose proof (sign_length key (Packet_hash p)) as Hs. pose proof (sha256_length ([Z.land (to_meta (header p)) 0x0f] ++ destination p
    ++ [PacketContext_as_u8 (context p)] ++ payload p)) as Hh. fold (Packet_hash p) in Hh.
  unfold payload, proof_of. cbn [data]. destruct implicit.
  - destruct (buffer_holds_append [] PacketDataBuffer_new (sign key (Packet_hash p)) buffer_holds_new) as (_ & _ & E); [cbn; unfold PACKET_MDU; lia|exact E].
  - assert (buffer_holds ([] ++ Packet_hash p) (StaticBuffer.safe_write (Packet_hash p) PacketDataBuffer_new).2) as H1
      by (apply buffer_holds_append; [apply buffer_holds_new|cbn; unfold PACKET_MDU; lia]).
    destruct (buffer_holds_append _ _ (sign key (Packet_hash p)) H1) as (_ & _ & E); [cbn; unfold PACKET_MDU; lia|exact E].
Qed.

Lemma deliver env iface p (h : Handler S) d text : admitted h p -> packet_type (header p) = Data -> th_single_in_destinations h !! destination p = Some d ->
  Destination_decrypt d (payload p) PACKET_MDU = Ok text -> should_prove d p = true -> local_hops_delta (th_iface_manager h) = 0 ->
  let proof := proof_of (cfg_use_implicit_proof (th_config h)) (signing_key (dst_identity d)) p in
  exists h', receive env iface p h = Some (h', ORx (mkRx iface p) :: OData (destination p) text true ::
    ((fun x : AddressHash * TxMessage => OSent x.1 x.2) <$>
      ((fun i => (if_address i, mkTxMessage (TxBroadcast None) proof)) <$> List.filter (fun i => negb (if_stopped i)) (ifaces (th_iface_manager h))))).
Proof.
  intros Ha Ht Hd Hdec Hp Hdelta proof. pose proof Ha as [_ _ Hs Hctx _ _ _ _]. destruct (record_phy_is p iface h) as [phy Ephy].
  eexists. eapply dispatched; [done|]. unfold dispatch. rewrite Ht. unfold handle_data, seen. rewrite Ephy.
  rewrite <- (app_nil_l (OData _ _ _ :: _)). eapply run_bind; [by rewrite decide_False by (by rewrite Hctx)|]. cbv iota. rewrite Hs. unfold handle_single_data.
  rewrite <- (app_nil_l (OData _ _ _ :: _)). eapply run_bind; [reflexivity|]. cbn [th_single_in_destinations th_config set_packet_cache set_phy].
  rewrite Hd, Hdec. change (OData ?a ?b ?c :: ?o) with ([OData a b c] ++ o). eapply run_bind; [reflexivity|]. rewrite Hp. unfold when, create_single_destination_proof.
  cbn [negb]. unfold send_packet. apply run_send; [cbn; lia|done|done|]. by apply broadcast_sent.
Qed.

(** ** The sender *)
Lemma conclude_receipt env iface q (h : Handler S) r : admitted h q -> packet_type (header q) = Proof -> th_receipts h !! destination q = Some r ->
  th_reverse_table h !! destination q = None -> proof_of_receipt r (payload q) = true ->
  exists h', receive env iface q h = Some (h', [ORx (mkRx iface q); OReceipt (rc_destination r) (rc_packet_hash r)]) /\
    th_receipts h' = <[destination q := conclude ReceiptDelivered (e_now env) r]> (th_receipts h).
Proof.
  intros Ha Ht Hrec Hrev Hv. pose proof Ha as [_ _ Hs Hctx _ _ _ _]. destruct (record_phy_is q iface h) as [phy Ephy]. eexists. split.
  - eapply dispatched; [done|]. unfold dispatch. rewrite Ht. unfold handle_proof, seen. rewrite Ephy.
    change ([OReceipt ?a ?b]) with ([] ++ ([] ++ ([] ++ ([OReceipt a b] ++ [])))). eapply run_bind; [by rewrite decide_False by (by rewrite Hctx)|]. cbv iota.
    eapply run_bind.
    { unfold relay_reverse_proof. rewrite !decide_False by (by rewrite Hctx). eapply (run_bind _ _ _ _ _ _ _ _ []); [reflexivity|].
      cbn [th_reverse_table set_packet_cache set_phy]. by rewrite Hrev. }
    eapply run_bind; [reflexivity|]. eapply (run_bind _ _ _ _ _ true); [|reflexivity]. cbn [th_receipts set_packet_cache set_phy].
    rewrite Hs, Hrec, (bool_decide_true (is_Some _)) by done. cbn [bool_decide decide andb]. unfold validate_single_destination_proof.
    change ([OReceipt ?a ?b]) with ([] ++ ([] ++ ([] ++ ([OReceipt a b] ++ [])))). eapply run_bind; [reflexivity|]. eapply run_bind; [reflexivity|].
    cbn [th_receipts set_packet_cache set_phy]. rewrite Hrec, Hv. eapply run_bind; [reflexivity|]. eapply run_bind; reflexivity.
  - reflexivity.
Qed.

Definition first_packet (e : PathEntry) (p : Packet) : Packet := fst (PathTable_handle_packet (mkPathTable {[destination p := e]} false) p).

Lemma first_same e d token (p := open_packet Single d token) :
  same_packet p (first_packet e p) /\ hops (header (first_packet e p)) = 0 /\
  (pe_hops e <= 1 -> transport (first_packet e p) = None) /\ (1 < pe_hops e -> transport (first_packet e p) = Some (pe_received_from e)).
Proof.
  unfold first_packet, PathTable_handle_packet. subst p. cbn -[lookup singletonM]. rewrite lookup_singleton_eq. destruct (Z.leb_spec (pe_hops e) 1); cbn; split_and!; try done; intros; lia.
Qed.

(** The ratchet that the sender uses. *)
Definition current_ratchet (env : Env) (d : AddressHash) (h : Handler S) : option bytes :=
  fst (match th_storage h with
       | Some s => get_ratchet d (e_unix env) (th_known_ratchets h) s
       | None => get_ratchet d (e_unix env) (th_known_ratchets h) (∅ : MemoryStorage)
       end).

Lemma cull_keeps (now : Z) (m : gmap AddressHash PacketReceipt) (t : AddressHash) r : (base.size m < MAX_RECEIPTS)%nat -> rc_status r = ReceiptSent ->
  cull_receipts now (<[t := r]> m) !! t = Some r.
Proof.
  intros Hm Hr. unfold cull_receipts. set (k := filter _ _).
  assert (base.size k <= MAX_RECEIPTS)%nat as Hk.
  { etrans; [apply map_subseteq_size, map_filter_subseteq|]. destruct (m !! t) eqn:E; [rewrite map_size_insert_Some by (by eexists); lia|].
    rewrite map_size_insert_None by done. lia. }
  destruct (cull_loop_spec (Datatypes.S (base.size k)) k ltac:(lia)) as (_ & _ & Eq & _). rewrite Eq by done.
  apply map_lookup_filter_Some. rewrite lookup_insert_eq. split; [done|]. unfold readable, is_sent. cbn. by rewrite bool_decide_true.
Qed.

Lemma sealed_fits text : Z.of_nat (length text) <= SINGLE_PLAINTEXT_MDU -> (sealed_length text <= PACKET_MDU)%nat.
Proof.
  intros Hl. assert (SINGLE_PLAINTEXT_MDU = 383) as E by reflexivity. unfold sealed_length. rewrite pkcs7_pad_length.
  pose proof (Nat.Div0.mul_div_le (length text) 16).
  unfold SINGLE_TOKEN_PUB_OVERHEAD, Identity.RATCHET_KEY_LENGTH, FERNET_OVERHEAD_SIZE, HMAC_OUT_SIZE, IV_KEY_SIZE, PACKET_MDU, Token.AES128_BLOCKSIZE. change (256 / 8)%nat with 32%nat. lia.
Qed.

Lemma open_packet_payload d token : (length token <= PACKET_MDU)%nat -> payload (open_packet Single d token) = token.
Proof. intros Hl. by destruct (buffer_holds_append [] PacketDataBuffer_new token buffer_holds_new) as (_ & _ & E). Qed.

(** What a sender knows of a destination, and what it can send to it with. *)
Record can_send (env : Env) (d : AddressHash) (text : bytes) (o : Destination Identity) (e : PathEntry) (h : Handler S) : Prop := {
  c_known : th_single_out_destinations h !! d = Some o;
  c_text : Z.of_nat (length text) <= SINGLE_PLAINTEXT_MDU;
  c_iv : length (e_draw env 1) = IV_KEY_SIZE;
  c_path : PathTable_get (th_path_table h) d = Some e;
  c_iface : carries (th_iface_manager h) (pe_iface e);
  c_timeout : is_Some (first_hop_timeout (default 0 (read_control (pe_iface e) (fun c => bitrate (settings c)) (th_iface_manager h))));
  c_receipts : (base.size (th_receipts h) < MAX_RECEIPTS)%nat;
}.

Definition data_packet_for (env : Env) (d : AddressHash) (text : bytes) (i : Identity) (ratchet : option bytes) : Packet :=
  open_packet Single d (sealed i (e_draw env 0) (e_draw env 1) text ratchet).

Lemma send_known env d text o e (h : Handler S) : can_send env d text o e h ->
  let p := data_packet_for env d text (desc_identity (desc o)) (current_ratchet env d h) in
  exists h', transport_run [(env, SendTo d text)] h = Some (h', [OSent (pe_iface e) (mkTxMessage (TxDirect (pe_iface e)) (first_packet e p))]) /\
    kept h h' /\ only_cached (Packet_hash p) h h' /\ th_reverse_table h' = th_reverse_table h /\
    exists r, th_receipts h' !! AddressHash_new_from_hash (Packet_hash p) = Some r /\ rc_destination r = d /\ rc_packet_hash r = Packet_hash p /\
      rc_identity r = desc_identity (desc o).
Proof.
  intros [Ho Hl Hiv He Hc [first Hf] Hr] p. destruct (first_same e d (sealed (desc_identity (desc o)) (e_draw env 0) (e_draw env 1) text (current_ratchet env d h)))
    as (Hsame & Hh & _). fold (data_packet_for env d text (desc_identity (desc o)) (current_ratchet env d h)) in Hsame, Hh. fold p in Hsame, Hh.
  pose proof Hsame as (Es & Et & _).
  set (k := snd (match th_storage h with
       | Some s => get_ratchet d (e_unix env) (th_known_ratchets h) s
       | None => get_ratchet d (e_unix env) (th_known_ratchets h) (∅ : MemoryStorage)
       end)).
  set (r := mkReceipt d (Packet_hash p) (desc_identity (desc o)) (e_now env) (Some (first + TIMEOUT_PER_HOP * pe_hops e)) ReceiptSent None).
  set (h1 := set_receipts (cull_receipts (e_now env) (<[AddressHash_new_from_hash (Packet_hash p) := r]> (th_receipts h))) (set_known_ratchets k h)).
  exists (set_packet_cache (PacketCache_update (th_packet_cache h1) (e_now env) (first_packet e p)).1 h1). split.
  - cbn [transport_run step_body]. unfold ignore.
    assert (send_to_destination d text env 0%nat h = Some (Ok (Packet_hash p), 2%nat,
      set_packet_cache (PacketCache_update (th_packet_cache h1) (e_now env) (first_packet e p)).1 h1,
      [OSent (pe_iface e) (mkTxMessage (TxDirect (pe_iface e)) (first_packet e p))])) as E;
      [|erewrite (run_bind _ _ _ _ _ _ _ _ _ tt); [|exact E|reflexivity]; done].
    unfold send_to_destination. change ([OSent ?a ?b]) with ([] ++ ([] ++ ([] ++ ([] ++ ([] ++ ([] ++ ([] ++ ([] ++ ([] ++ ([OSent a b] ++ [])))))))))).
    do 2 (eapply run_bind; [reflexivity|]). rewrite (proj2 (Z.ltb_ge _ _) Hl), Ho. cbv zeta.
    eapply (run_bind _ _ _ _ _ (current_ratchet env d h) 0%nat (set_known_ratchets k h)).
    { unfold ratchet_of. do 2 (eapply (run_bind _ _ _ _ _ _ _ _ []); [reflexivity|]). unfold current_ratchet, k. by destruct (th_storage h), (get_ratchet _ _ _ _). }
    do 2 (eapply run_bind; [reflexivity|]). unfold encrypt_single. rewrite encrypt_with_ephemeral_fits by (done || by apply sealed_fits).
    eapply run_bind; [reflexivity|]. cbv iota. eapply run_bind; [reflexivity|].
    eapply (run_bind _ _ _ _ _ r); [unfold receipt_for; cbn [th_path_table th_iface_manager set_known_ratchets]; rewrite He, Hf; reflexivity|].
    eapply run_bind; [reflexivity|]. cbn [th_path_table set_known_ratchets].
    assert (PathTable_handle_packet (th_path_table h) p = (first_packet e p, Some (pe_iface e))) as Ep.
    { unfold first_packet, PathTable_handle_packet, PathTable_get in *. subst p. cbn -[lookup singletonM]. rewrite lookup_singleton_eq, He. 
      by destruct (pe_hops e <=? 1). }
    fold (data_packet_for env d text (desc_identity (desc o)) (current_ratchet env d h)). fold p. rewrite Ep.
    eapply run_bind; [|reflexivity]. apply run_send_direct; [lia|by rewrite <- Es|left; by rewrite <- Et|done].
  - split; [by split|]. split; [intros y Hy Hn; apply update_other; [by rewrite <- (Packet_hash_same _ _ Hsame)|done]|]. split; [done|].
    exists r. split; [by apply cull_keeps|done].
Qed.

(** ** A line of relays

    A relay with its interfaces towards the sender and towards the destination,
    and the times at which it sees the packet and its proof. *)
Record Hop := mkHop {
  hop_node : Handler S;
  hop_up : AddressHash;
  hop_down : AddressHash;
  hop_env : Env;
  hop_back : Env;
}.

Definition at_node (h : Handler S) (r : Hop) : Hop := mkHop h (hop_up r) (hop_down r) (hop_env r) (hop_back r).

(** The first packet handed to the interface. *)
Definition sent_on (a : AddressHash) (out : list Output) : option Packet :=
  head (omap (fun o => match o with OSent i msg => if decide (i = a) then Some (tx_packet msg) else None | _ => None end) out).

(** The packet runs down the line. *)
Fixpoint forward (relays : list Hop) (p : Packet) : option (list Hop * Packet) :=
  match relays with
  | [] => Some ([], p)
  | r :: rest =>
      '(h, out) ← receive (hop_env r) (hop_up r) p (hop_node r);
      q ← sent_on (hop_down r) out;
      '(rest, last) ← forward rest q;
      Some (at_node h r :: rest, last)
  end.

(** The proof runs up the line. *)
Fixpoint backward (relays : list Hop) (q : Packet) : option (list Hop * Packet) :=
  match relays with
  | [] => Some ([], q)
  | r :: rest =>
      '(rest, q) ← backward rest q;
      '(h, out) ← receive (hop_back r) (hop_down r) q (hop_node r);
      q ← sent_on (hop_up r) out;
      Some (at_node h r :: rest, q)
  end.

(** The path leads down the line: each relay is the next hop of the one before. *)
Fixpoint leads (d : AddressHash) (e : PathEntry) (relays : list Hop) : Prop :=
  pe_hops e = Z.of_nat (length relays) + 1 /\
  match relays with
  | [] => True
  | r :: rest => pe_received_from e = own_address (hop_node r) /\
      exists e', PathTable_get (th_path_table (hop_node r)) d = Some e' /\ pe_iface e' = hop_down r /\ leads d e' rest
  end.

(** A node that has seen neither the packet nor the proof, and to which their
    addresses mean nothing. *)
Record unconcerned (p proof : Packet) (h : Handler S) : Prop := {
  u_idle : idle (th_inbound_queues h);
  u_path : destination p <> th_fixed_dest_path_requests h /\ destination proof <> th_fixed_dest_path_requests h;
  u_tunnel : destination p <> th_fixed_dest_tunnel_synthesize h /\ destination proof <> th_fixed_dest_tunnel_synthesize h;
  u_fresh : pc_map (th_packet_cache h) !! Packet_hash p = None;
  u_fresh_proof : pc_map (th_packet_cache h) !! Packet_hash proof = None;
}.

Record relay_ready (p proof : Packet) (r : Hop) : Prop := {
  r_unconcerned : unconcerned p proof (hop_node r);
  r_retransmit : retransmits (hop_node r) = true;
  r_up : carries (th_iface_manager (hop_node r)) (hop_up r);
  r_down : carries (th_iface_manager (hop_node r)) (hop_down r);
  r_not_own : th_single_in_destinations (hop_node r) !! destination p = None;
  r_receipts : th_receipts (hop_node r) !! destination proof = None;
  r_foreign : foreign (destination proof) (hop_node r);
}.

(** A relay that has passed the packet on and remembers where it came from. *)
Record passed (p proof : Packet) (r : Hop) : Prop := {
  p_admits : forall q, same_packet proof q -> transport q = None -> admitted (hop_node r) q;
  p_retransmit : retransmits (hop_node r) = true;
  p_up : carries (th_iface_manager (hop_node r)) (hop_up r);
  p_reverse : exists now, th_reverse_table (hop_node r) !! destination proof = Some (mkReverse (hop_up r) (hop_down r) now);
  p_receipts : th_receipts (hop_node r) !! destination proof = None;
  p_foreign : foreign (destination proof) (hop_node r);
}.

(** A packet and its proof. *)
Record exchanged (p proof : Packet) : Prop := {
  x_data : packet_type (header p) = Data;
  x_single : destination_type (header p) = Single;
  x_context : context p = CtxNone;
  x_proof : packet_type (header proof) = Proof;
  x_proof_single : destination_type (header proof) = Single;
  x_proof_context : context proof = CtxNone;
  x_proof_of : destination proof = AddressHash_new_from_hash (Packet_hash p);
  x_distinct : Packet_hash proof <> Packet_hash p;
}.

Lemma unconcerned_admits p proof (h : Handler S) q : unconcerned p proof h -> exchanged p proof ->
  same_packet p q -> transport q = None \/ transport q = Some (own_address h) -> admitted h q.
Proof.
  intros [Hi [Hp _] [Ht _] Hf _] [Hd Hs Hc _ _ _ _ _] Hsame Hx. pose proof Hsame as (E1 & E2 & E3 & E4 & _). constructor; try congruence.
  - left. congruence.
  - by rewrite <- (Packet_hash_same _ _ Hsame).
Qed.

Lemma sent_direct a b iface p q : sent_on a [ORx (mkRx b p); OSent a (mkTxMessage (TxDirect iface) q)] = Some q.
Proof. unfold sent_on. cbn. by rewrite decide_True. Qed.

Definition line_head (relays : list Hop) : option AddressHash := match relays with [] => None | r :: _ => Some (own_address (hop_node r)) end.

Lemma forwarded_head d e p relays : leads d e relays -> 0 <= hops (header p) < 127 -> transport (forwarded_packet e p) = line_head relays.
Proof.
  intros Hl Hh. destruct (forwarded_same e p Hh) as (_ & _ & H1 & H2). destruct relays as [|r rest]; cbn in *; [apply H1; lia|].
  destruct Hl as (Hn & Hf & _). rewrite H2 by lia. by rewrite Hf.
Qed.

Lemma one_forward p proof r e q : relay_ready p proof r -> exchanged p proof ->
  PathTable_get (th_path_table (hop_node r)) (destination p) = Some e -> pe_iface e = hop_down r -> same_packet p q ->
  transport q = Some (own_address (hop_node r)) -> 0 <= hops (header q) < 127 ->
  exists h out, receive (hop_env r) (hop_up r) q (hop_node r) = Some (h, out) /\ sent_on (hop_down r) out = Some (forwarded_packet e q) /\
    passed p proof (at_node h r).
Proof.
  intros [Hu Hr Hup Hdown Hno Hrec Hfor] Hpp He Hif Hsame Hx Hh. pose proof Hpp as [Hd Hs Hc Hpt Hps Hpc Edest Hne]. pose proof Hsame as (E1 & E2 & E3 & _).
  destruct (relay_data (hop_env r) (hop_up r) q (hop_node r) e) as (h & E & [K1 K2 K3 K4 K5 K6 K7 K8] & Krec & Kc & Krev); try done.
  - eapply unconcerned_admits; eauto.
  - congruence.
  - by rewrite <- E3.
  - by rewrite <- E3.
  - by rewrite Hif.
  - eexists h, _. split; [exact E|]. rewrite Hif. split; [apply sent_direct|]. destruct Hu as [Hi [_ Hp] [_ Ht] _ Hfp]. destruct Hfor as [F1 F2 F3].
    split; cbn; rewrite ?K1, ?K2, ?Krec; try done.
    + intros q' Hsame' Hx'. pose proof Hsame' as (A1 & A2 & A3 & A4 & _). split; rewrite ?K3, ?K4, ?K5; try congruence; [right; congruence| |by left].
      apply Kc; rewrite <- (Packet_hash_same _ _ Hsame'); [|done]. by rewrite <- (Packet_hash_same _ _ Hsame).
    + unfold retransmits. by rewrite K1.
    + exists (e_now (hop_env r)). rewrite Krev, <- (Packet_hash_same _ _ Hsame), Edest, lookup_insert_eq. by rewrite Hif.
    + split; by rewrite ?K6, ?K7, ?K8.
Qed.

Lemma forward_runs p proof relays : exchanged p proof -> forall e q, leads (destination p) e relays -> Forall (relay_ready p proof) relays -> same_packet p q ->
  transport q = line_head relays -> 0 <= hops (header q) -> hops (header q) + Z.of_nat (length relays) <= 127 ->
  exists relays' last, forward relays q = Some (relays', last) /\ same_packet p last /\ transport last = None /\ length relays' = length relays /\
    Forall (passed p proof) relays'.
Proof.
  intros Hpp. induction relays as [|r relays IH]; intros e q Hl Hr Hsame Hx H0 Hh.
  { exists [], q. by split_and!. }
  cbn [leads line_head length] in *. destruct Hl as (_ & _ & e' & He' & Hif & Hl). apply list.Forall_cons in Hr as [Hr Hrs].
  destruct (one_forward p proof r e' q) as (h & out & E & Eo & Hpass); try done; [lia|].
  destruct (forwarded_same e' q) as (Hsame' & Hh' & _); [lia|].
  destruct (IH e' (forwarded_packet e' q)) as (relays' & last & Ef & Es & Ex & El & Hps); try done.
  - by etrans.
  - eapply forwarded_head; [exact Hl|lia].
  - lia.
  - lia.
  - cbn [forward]. rewrite E. cbn [mbind option_bind]. rewrite Eo. cbn [mbind option_bind]. rewrite Ef. eexists _, _. split; [reflexivity|].
    split_and!; try done; [cbn; lia|by constructor].
Qed.

Lemma backward_runs p proof relays : exchanged p proof -> Forall (passed p proof) relays -> transport proof = None -> 0 <= hops (header proof) ->
  hops (header proof) + Z.of_nat (length relays) <= 127 ->
  exists relays' last, backward relays proof = Some (relays', last) /\ same_packet proof last /\ transport last = None /\
    hops (header last) = hops (header proof) + Z.of_nat (length relays).
Proof.
  intros Hpp Hr Hx H0. induction relays as [|r relays IH]; intros Hh; [exists [], proof; split_and!; try done; cbn; lia|].
  apply list.Forall_cons in Hr as [[Ha Hre Hup [now Hrev] Hrec Hfor] Hrs]. cbn [length] in Hh.
  destruct (IH Hrs ltac:(lia)) as (relays' & q & Eb & Es & Ex & Eh). pose proof Es as (E1 & E2 & E3 & E4 & _).
  destruct (relay_proof (hop_back r) q (hop_node r) (mkReverse (hop_up r) (hop_down r) now)) as (h & E); try (rewrite <- E3; done); try done.
  - by apply Ha.
  - rewrite <- E2. apply Hpp.
  - lia.
  - cbn [backward]. rewrite Eb. cbn [mbind option_bind]. cbn [rv_outbound rv_received] in E. rewrite E. cbn [mbind option_bind]. rewrite sent_direct.
    eexists _, _. split; [reflexivity|]. split_and!; try done. cbn [returned_packet header with_hops hops length]. lia.
Qed.

(** ** The exchange *)

(** The destination can open what is encrypted to the ratchet, or to its identity. *)
Definition can_open (dd : Destination PrivateIdentity) (ratchet : option bytes) (env : Env) (token : bytes) : Prop :=
  let closed r := ~ opens_with (address_hash (identity (dst_identity dd))) (x25519_public (e_draw env 0)) (drop Identity.RATCHET_KEY_LENGTH token) PACKET_MDU r in
  match ratchet with
  | Some r => exists newer older, default [] (ratchets dd) = newer ++ r :: older /\ Forall closed newer
  | None => ratchets_enforced dd = false /\ Forall closed (default [] (ratchets dd))
  end.

Lemma decrypts dd secret seed env text ratchet : dst_identity dd = PrivateIdentity_new secret seed -> length (e_draw env 1) = IV_KEY_SIZE -> all_u8 text ->
  Z.of_nat (length text) <= SINGLE_PLAINTEXT_MDU ->
  let token := sealed (identity (dst_identity dd)) (e_draw env 0) (e_draw env 1) text (ratchet_public_from_private <$> ratchet) in
  can_open dd ratchet env token -> Destination_decrypt dd token PACKET_MDU = Ok text.
Proof.
  intros Hid Hiv Hu Hl token Hopen. unfold Destination_decrypt, Destination_decrypt_ratchet, can_open in *. subst token. rewrite Hid in *.
  pose proof (sealed_fits text Hl) as Hfit. assert (length (pkcs7_pad text) <= PACKET_MDU)%nat as Hin by (unfold sealed_length in Hfit; lia).
  destruct ratchet as [r|].
  - destruct Hopen as (newer & older & -> & Hn).
    destruct (sealed_opens secret seed (e_draw env 0) (e_draw env 1) text (Some r) newer older (ratchets_enforced dd) PACKET_MDU PACKET_MDU Hiv Hu Hfit Hin Hn)
      as [_ ->]. done.
  - destruct Hopen as [-> Hn].
    destruct (sealed_opens secret seed (e_draw env 0) (e_draw env 1) text None (default [] (ratchets dd)) [] false PACKET_MDU PACKET_MDU Hiv Hu Hfit Hin Hn)
      as [_ ->]. done.
Qed.

Lemma single_proof_accepted implicit seed p q r i : same_packet (proof_of implicit seed p) q -> rc_packet_hash r = Packet_hash p -> rc_identity r = i ->
  verifying_key i = ed25519_public seed -> proof_of_receipt r (payload q) = true.
Proof.
  intros (_ & _ & _ & _ & <-) Hh Hi Hk. rewrite proof_payload. unfold proof_of_receipt, Identity_verify. rewrite Hh, Hi, Hk.
  assert (length (Packet_hash p) = 32%nat) as H32 by apply sha256_length. destruct implicit; rewrite ?app_nil_l, ?length_app, sign_length, ?H32.
  - cbn. rewrite verify_sign. done.
  - cbn. replace 32%nat with (length (Packet_hash p)). rewrite take_app_length, drop_app_length, verify_sign. by rewrite !bool_decide_true.
Qed.

Record destination_ready (p proof : Packet) (dd : Destination PrivateIdentity) (iface : AddressHash) (g : Handler S) : Prop := {
  d_unconcerned : unconcerned p proof g;
  d_own : th_single_in_destinations g !! destination p = Some dd;
  d_proves : proof_strategy dd = ProveAll;
  d_iface : carries (th_iface_manager g) iface;
}.

Lemma broadcast_on a msg (m : InterfaceManager) x y : carries m a ->
  sent_on a (ORx x :: OData y.1 y.2 true :: ((fun z : AddressHash * TxMessage => OSent z.1 z.2) <$>
    ((fun i => (if_address i, msg)) <$> List.filter (fun i => negb (if_stopped i)) (ifaces m)))) = Some (tx_packet msg).
Proof.
  intros (_ & l1 & i & l2 & -> & Ha & Hs & H1 & _). unfold sent_on. cbn [omap list_omap]. induction H1 as [|j l1 Hj _ IH]; cbn.
  - rewrite Hs. cbn. by rewrite decide_True.
  - destruct (if_stopped j); cbn; [exact IH|]. by rewrite decide_False.
Qed.

(** C4: an encrypted packet reaches its destination over any number of relays, and
    its proof comes back.  The sender knows the destination from an announce and a
    path to it; the path leads over up to 127 relays that are each the next hop of
    the one before; no node has seen the packet or the proof before.  Then sending
    the text makes the sender emit one packet; handled by one relay after the
    other it arrives at the destination, which reports the text, decrypted, to its
    application and sends a proof; the relays pass the proof back the way the
    packet came; and the sender reports the packet as delivered and concludes its
    receipt.  Ratchets, and both forms of proofs, are covered. *)
Theorem Transport_delivery (s g : Handler S) (relays : list Hop) (env env_g env_back : Env) (d iface secret seed text : bytes)
    (o : Destination Identity) (dd : Destination PrivateIdentity) (e : PathEntry) (ratchet : option bytes)
    (i := identity (PrivateIdentity_new secret seed))
    (p := data_packet_for env d text i (ratchet_public_from_private <$> ratchet))
    (proof := proof_of (cfg_use_implicit_proof (th_config g)) seed p)
    (Hid : dst_identity dd = PrivateIdentity_new secret seed) (Hknown : desc_identity (desc o) = i)
    (Hsend : can_send env d text o e s) (Hratchet : current_ratchet env d s = ratchet_public_from_private <$> ratchet) (Hu8 : all_u8 text)
    (Hopen : can_open dd ratchet env (sealed i (e_draw env 0) (e_draw env 1) text (ratchet_public_from_private <$> ratchet)))
    (Hs : unconcerned p proof s) (Hrev : th_reverse_table s !! destination proof = None) (Hdistinct : Packet_hash proof <> Packet_hash p)
    (Hleads : leads d e relays) (Hlen : (length relays <= 127)%nat) (Hrelays : Forall (relay_ready p proof) relays)
    (Hg : destination_ready p proof dd iface g) :
  exists s1 p0 relays1 p1 g1 out relays2 q s2 r,
    transport_run [(env, SendTo d text)] s = Some (s1, [OSent (pe_iface e) (mkTxMessage (TxDirect (pe_iface e)) p0)]) /\
    forward relays p0 = Some (relays1, p1) /\
    receive env_g iface p1 g = Some (g1, out) /\ OData d text true ∈ out /\ sent_on iface out = Some proof /\
    backward relays1 proof = Some (relays2, q) /\
    receive env_back (pe_iface e) q s1 = Some (s2, [ORx (mkRx (pe_iface e) q); OReceipt d (Packet_hash p)]) /\
    th_receipts s2 !! AddressHash_new_from_hash (Packet_hash p) = Some r /\ rc_status r = ReceiptDelivered.
Proof.
  assert (exchanged p proof) as Hpp by (by split). pose proof Hsend as [_ Hl Hiv _ _ _ _].
  destruct (send_known env d text o e s Hsend) as (s1 & Es & [K1 K2 K3 K4 K5 K6 K7 K8] & Kc & Krev & r & Hr & Hr1 & Hr2 & Hr3).
  rewrite Hknown, Hratchet in *. fold p in Es, Kc, Hr, Hr2.
  destruct (first_same e d (sealed i (e_draw env 0) (e_draw env 1) text (ratchet_public_from_private <$> ratchet))) as (Hsame & Hh & Hx1 & Hx2).
  fold (data_packet_for env d text i (ratchet_public_from_private <$> ratchet)) in Hsame, Hh, Hx1, Hx2. fold p in Hsame, Hh, Hx1, Hx2.
  destruct (forward_runs p proof relays Hpp e (first_packet e p)) as (relays1 & p1 & Ef & Hsame1 & Hx & Elen & Hpass); try done; try lia.
  { destruct relays as [|r0 rest]; cbn in *; [apply Hx1; lia|]. destruct Hleads as (Hn & <- & _). apply Hx2. lia. }
  destruct Hg as [Hgu Hgo Hgp Hgi]. pose proof Hsame1 as (_ & _ & Ed1 & _ & Ep1).
  destruct (deliver env_g iface p1 g dd text) as (g1 & Eg).
  - eapply unconcerned_admits; eauto.
  - by rewrite <- (proj1 (proj2 Hsame1)).
  - by rewrite <- Ed1.
  - rewrite <- Ep1. unfold p, data_packet_for. rewrite open_packet_payload by (rewrite sealed_length_eq by done; by apply sealed_fits).
    subst i. rewrite <- Hid in *. eapply decrypts; eauto.
  - unfold should_prove. by rewrite Hgp.
  - apply Hgi.
  - rewrite <- Ed1 in Eg. assert (proof_of (cfg_use_implicit_proof (th_config g)) (signing_key (dst_identity dd)) p1 = proof) as Epr
      by (unfold proof, proof_of; rewrite Hid, <- (Packet_hash_same _ _ Hsame1); done). rewrite Epr in Eg.
    destruct (backward_runs p proof relays1 Hpp Hpass) as (relays2 & q & Eb & Hsq & Hxq & _); [done|done|cbn; lia|].
    destruct Hs as [Ui [_ Up] [_ Ut] _ Uf]. pose proof Hsq as (A1 & A2 & A3 & A4 & _).
    destruct (conclude_receipt env_back (pe_iface e) q s1 r) as (s2 & E2 & Hrec2).
    + split; rewrite ?K3, ?K4, ?K5; try congruence; [by rewrite <- A2; right|by rewrite <- A1|by rewrite <- A4| |by left].
      apply Kc; rewrite <- (Packet_hash_same _ _ Hsq); done.
    + by rewrite <- A2.
    + by rewrite <- A3.
    + by rewrite Krev, <- A3.
    + eapply single_proof_accepted; [exact Hsq|done|exact Hr3|done].
    + exists s1, (first_packet e p), relays1, p1, g1. eexists _, relays2, q, s2, _. split; [exact Es|]. split; [exact Ef|]. split; [exact Eg|].
      split; [right; left|]. split; [exact (broadcast_on iface (mkTxMessage (TxBroadcast None) proof) _ (mkRx iface p1) (d, text) Hgi)|]. split; [exact Eb|]. rewrite Hr1, Hr2 in E2. split; [exact E2|].
      rewrite Hrec2, <- A3. split; [apply lookup_insert_eq|done].
Qed.
End Routing.

(** ** Witness *)

(** A hash that spreads its input over all bytes. *)
Definition mixing_sha256 : Sha256.
Proof.
  refine {| sha256 d := be_encode 32 (be_decode d * (2 ^ 251 + 2 ^ 123 + 12345) mod (2 ^ 256 - 189)) |}.
  - intros. apply be_encode_length.
  - intros. apply be_encode_u8.
Defined.

#[local] Existing Instance mixing_sha256.
#[local] Existing Instance toy_hkdf.
#[local] Existing Instance toy_x25519.
#[local] Existing Instance toy_cbc.
#[local] Existing Instance toy_hmac.
#[local] Existing Instance toy_signing.
#[local] Existing Instance toy_verifying.
#[local] Existing Instance toy_ed25519.
#[local] Existing Instance toy_keys.
#[local] Existing Instance msgpack_rmp.
#[local] Existing Instance toy_rmp_decode.
#[local] Existing Instance toy_cursor.
#[local] Existing Instance toy_rmp_str.
#[local] Existing Instance toy_bz2.
#[local] Existing Instance toy_rmpv.
#[local] Existing Instance toy_codec.

(** A sender, a relay and a destination. *)
Definition line_secret : bytes := replicate 32 2.
Definition line_seed : bytes := replicate 32 3.
Definition line_own : Destination PrivateIdentity :=
  set_proof_strategy ProveAll (SingleInputDestination_new (PrivateIdentity_new line_secret line_seed) sample_name).
Definition line_dest : AddressHash := desc_address_hash (desc line_own).
Definition line_out : Destination Identity := SingleOutputDestination_new (identity (PrivateIdentity_new line_secret line_seed)) sample_name.

Definition line_base (key : Z) : Handler MemoryStorage :=
  Transport_new (set_retransmit true (TransportConfig_new (PrivateIdentity_new (replicate 32 key) (replicate 32 (key + 1))))) None 0.

Definition line_iface (key : Z) : AddressHash := replicate 16 key.
Definition line_manager (keys : list Z) : InterfaceManager :=
  set_ifaces ((fun k => mkIface (line_iface k) "tcp" "TcpClient" "127.0.0.1:4242" None false Counters_default None) <$> keys) Manager_new.
Definition line_path (hops_ key : Z) (next : AddressHash) : PathTable :=
  mkPathTable {[line_dest := mkPathEntry next hops_ (line_iface key) 0 false (replicate 32 0) Full (f64_of_Z 0) [] None]} false.

Definition line_target : Handler MemoryStorage :=
  set_single_in_destinations {[line_dest := line_own]} (set_iface_manager (line_manager [30]) (line_base 30)).
Definition line_relay : Handler MemoryStorage :=
  set_path_table (line_path 1 22 line_dest) (set_iface_manager (line_manager [21; 22]) (line_base 20)).
Definition line_sender : Handler MemoryStorage :=
  set_single_out_destinations {[line_dest := line_out]}
    (set_path_table (line_path 2 11 (own_address line_relay)) (set_iface_manager (line_manager [11]) (line_base 10))).
Definition line_env : Env :=
  mkEnv 0 0 (f64_of_Z 1700000000) 1700000000 (fun n => if (n =? 1)%nat then replicate 16 8 else replicate 32 9)
    (fun _ => mkInputs (f64_of_Z 0) 0 (fun _ => []) (fun _ => []) (fun _ => ((replicate 32 1, replicate 16 2), [])) [] ((replicate 32 1, replicate 16 2), []) []).
Definition line_hop : Hop := mkHop line_relay (line_iface 21) (line_iface 22) line_env line_env.
Definition line_text : bytes := [104; 105].

Definition line_packet : Packet := data_packet_for line_env line_dest line_text (identity (PrivateIdentity_new line_secret line_seed)) None.
Definition line_proof : Packet := proof_of true line_seed line_packet.

Lemma carries_intro m a l1 i l2 : local_hops_delta m = 0 -> ifaces m = l1 ++ i :: l2 -> if_address i = a -> if_stopped i = false ->
  forallb (fun j => negb (bool_decide (if_address j = a))) (l1 ++ l2) = true -> carries m a.
Proof.
  intros Hd El Ha Hs Hl. split; [done|]. exists l1, i, l2. rewrite forallb_app in Hl. apply andb_prop in Hl as [H1 H2].
  assert (forall l, forallb (fun j => negb (bool_decide (if_address j = a))) l = true -> Forall (fun j => if_address j <> a) l) as Hf.
  { intros l Hl. apply list.Forall_forall. intros j Hj. pose proof (proj1 (forallb_forall _ _) Hl j (proj1 (list_elem_of_In _ _) Hj)) as E. cbn in E.
    by apply negb_true_iff, bool_decide_eq_false in E. }
  split_and!; try done; by apply Hf.
Qed.

Ltac differs := refine (bool_decide_eq_false_1 _ _); vm_compute; reflexivity.
Ltac computes := vm_compute; reflexivity.
Ltac carried l i r := refine (carries_intro _ _ l i r _ _ _ _ _); [computes..].

Definition line_if (key : Z) : LocalInterface := mkIface (line_iface key) "tcp" "TcpClient" "127.0.0.1:4242" None false Counters_default None.

Lemma line_unconcerned h : h = line_sender \/ h = line_relay \/ h = line_target -> unconcerned line_packet line_proof h.
Proof.
  intros [-> |[-> | ->]].
  all: split; [split; [computes|apply Nat.ltb_lt; computes]|split; differs|split; differs|computes|computes].
Qed.

Lemma line_can_send : can_send line_env line_dest line_text line_out (mkPathEntry (own_address line_relay) 2 (line_iface 11) 0 false (replicate 32 0) Full (f64_of_Z 0) [] None) line_sender.
Proof.
  split; [computes|intros E; vm_compute in E; discriminate E|computes| |carried (@nil LocalInterface) (line_if 11) (@nil LocalInterface)|by eexists|apply Nat.ltb_lt; computes].
  apply lookup_singleton_eq.
Qed.

Lemma line_relay_ready : relay_ready line_packet line_proof line_hop.
Proof.
  split; [apply line_unconcerned; right; by left|computes|carried (@nil LocalInterface) (line_if 21) [line_if 22]|carried [line_if 21] (line_if 22) (@nil LocalInterface)
         |computes|computes|]. split; [apply map_Forall_empty..|computes].
Qed.

Lemma line_target_ready : destination_ready line_packet line_proof line_own (line_iface 30) line_target.
Proof.
  split; [apply line_unconcerned; right; by right|computes|computes|carried (@nil LocalInterface) (line_if 30) (@nil LocalInterface)].
Qed.

Lemma Transport_delivery_witness :
  exists s1 p0 relays1 p1 g1 out relays2 q s2,
    transport_run [(line_env, SendTo line_dest line_text)] line_sender = Some (s1, [OSent (line_iface 11) (mkTxMessage (TxDirect (line_iface 11)) p0)]) /\
    forward [line_hop] p0 = Some (relays1, p1) /\ receive line_env (line_iface 30) p1 line_target = Some (g1, out) /\ OData line_dest line_text true ∈ out /\
    backward relays1 line_proof = Some (relays2, q) /\
    receive line_env (line_iface 11) q s1 = Some (s2, [ORx (mkRx (line_iface 11) q); OReceipt line_dest (Packet_hash line_packet)]).
Proof.
  destruct (Transport_delivery line_sender line_target [line_hop] line_env line_env line_env line_dest (line_iface 30) line_secret line_seed line_text
    line_out line_own (mkPathEntry (own_address line_relay) 2 (line_iface 11) 0 false (replicate 32 0) Full (f64_of_Z 0) [] None) None)
    as (s1 & p0 & relays1 & p1 & g1 & out & relays2 & q & s2 & r & E1 & E2 & E3 & E4 & _ & E5 & E6 & _).
  - reflexivity.
  - reflexivity.
  - exact line_can_send.
  - vm_compute. reflexivity.
  - repeat constructor; vm_compute; congruence.
  - split; [reflexivity|constructor].
  - apply line_unconcerned. by left.
  - reflexivity.
  - differs.
  - split; [reflexivity|]. split; [reflexivity|]. eexists. split; [apply lookup_singleton_eq|]. split; [reflexivity|]. split; reflexivity.
  - cbn. lia.
  - apply list.Forall_cons. split; [exact line_relay_ready|constructor].
  - exact line_target_ready.
  - exists s1, p0, relays1, p1, g1, out, relays2, q, s2. split; [exact E1|]. split; [exact E2|]. split; [exact E3|]. split; [exact E4|]. split; [exact E5|exact E6].
Defined.
