(* ===== verification/TransportGaps.v ===== *)
(** * Where the transport departs from what it means to do

    The theorems of this file are about whole handlers and timers that do not do
    what the comments around them say. *)

From S2P Require Import Prelude Float Buffer Crypto Hash Token Identity Msgpack Packet Counters Ifac PacketCache LinkTable AnnounceTable.
From S2P Require Import AnnounceLimits PathTable Destination Links PathRequests Tunnels Resource ResourceOut ResourceIn ResourceManager Requests.
From S2P Require Import Exchange ResourceTransfer RequestExchange IfaceControl Ifaces Storage Blackholes Inbound Handler Transport Persist Loop Api Tables TransportSafety TransportRouting.

(** ** What leaves on a broadcast that is no announce *)
Definition spares (except : option AddressHash) (i : LocalInterface) : bool := negb (bool_decide (except = Some (if_address i))).

Lemma rewritten_type delta t p : packet_type (header (rewritten delta t p)) = packet_type (header p).
Proof. unfold rewritten. by destruct (_ && _), t. Qed.

Lemma outbound_type b m i p : packet_type (header (outbound_packet b m i p)) = packet_type (header p).
Proof. unfold outbound_packet. destruct (_ && _); [apply rewritten_type|done]. Qed.

Lemma broadcast_loop now b except p m l : is_announce p = false ->
  exists out, send_loop now b (mkTxMessage (TxBroadcast except) p) l m = Some (m, l, out) /\
    out.*1 = if_address <$> List.filter (fun i => spares except i && negb (if_stopped i)) l /\
    Forall (fun x => packet_type (header (tx_packet x.2)) = packet_type (header p)) out.
Proof.
  intros Hp. induction l as [|i l (out & E & Ho & Ht)]; [by exists []|]. cbn [send_loop].
  assert (should_send (mkTxMessage (TxBroadcast except) p) m i = spares except i) as Es.
  { unfold should_send. cbn [tx_type tx_packet]. rewrite Hp, andb_false_r. unfold spares. destruct except as [a|]; [|by rewrite bool_decide_false].
    f_equal. apply bool_decide_ext. naive_solver. }
  unfold send_one at 1. rewrite Es. cbn [tx_packet]. rewrite Hp. cbn [andb List.filter]. destruct (spares except i && negb (if_stopped i)); cbn [mbind option_bind].
  - rewrite E. eexists. split; [reflexivity|]. split; [cbn; by rewrite Ho|]. constructor; [apply outbound_type|done].
  - rewrite E. cbn. by exists out.
Qed.

Lemma broadcast_out now except p m : is_announce p = false ->
  exists out, Ifaces.send now (mkTxMessage (TxBroadcast except) p) m = Some (m, out) /\
    out.*1 = if_address <$> List.filter (fun i => spares except i && negb (if_stopped i)) (ifaces m) /\
    Forall (fun x => packet_type (header (tx_packet x.2)) = packet_type (header p)) out.
Proof.
  intros Hp. unfold Ifaces.send.
  match goal with |- context [send_loop now ?b _ _ _] => destruct (broadcast_loop now b except p m (ifaces m) Hp) as (out & -> & Ho & Ht) end.
  exists out. split; [|done]. cbn. by destruct m.
Qed.

(** The interfaces that run, and those that were handed a packet. *)
Definition running (m : InterfaceManager) : list AddressHash := if_address <$> List.filter (fun i => negb (if_stopped i)) (ifaces m).
Definition sent_to (out : list Output) : list AddressHash := omap (fun o => match o with OSent i _ => Some i | _ => None end) out.
Definition all_but (o : AddressHash) (l : list AddressHash) : list AddressHash := List.filter (fun a => negb (bool_decide (a = o))) l.

Lemma all_but_running o m : if_address <$> List.filter (fun i => spares (Some o) i && negb (if_stopped i)) (ifaces m) = all_but o (running m).
Proof.
  unfold running, all_but. induction (ifaces m) as [|i l IH]; [done|]. cbn. destruct (if_stopped i); cbn; [by rewrite andb_false_r|].
  rewrite andb_true_r. unfold spares at 1. rewrite (bool_decide_ext (Some o = Some (if_address i)) (if_address i = o)) by naive_solver.
  destruct (bool_decide (if_address i = o)); cbn; [done|by rewrite IH].
Qed.

Lemma sent_to_app a b : sent_to (a ++ b) = sent_to a ++ sent_to b.
Proof. apply omap_app. Qed.

Lemma sent_to_sent (out : list (AddressHash * TxMessage)) : sent_to ((fun x => OSent x.1 x.2) <$> out) = out.*1.
Proof. induction out as [|x out IH]; [done|]. unfold sent_to in *. cbn. by f_equal. Qed.

Lemma running_stats a f m : running (with_stats a f m) = running m.
Proof.
  unfold running, with_stats, update_iface. destruct m as [c l ct d t]. cbn. induction l as [|i l IH]; [done|]. cbn.
  destruct (has_address a i); cbn; destruct (if_stopped i); cbn; by rewrite ?IH.
Qed.

Lemma running_control a f m : running (control_op a f m) = running m.
Proof. unfold control_op, with_control. by destruct (controls m !! a). Qed.

Section Gaps.
Context {S : Type} `{!Storage S}.
Context `{sha : Sha256} `{kdf : Hkdf} `{dh : X25519} `{cbc : CbcCipher} `{mac : HmacSha256}.
Context `{sg : Signing} `{vf : !Verifying} `{ed : !Ed25519} `{edk : !Ed25519Keys}.
Context `{rm : Rmp} `{rd : RmpDecode} `{rc : RmpCursor} `{rs : RmpStr} `{bz : Bz2} `{rv : Manager.Rmpv} `{cd : RmpvCodec}.

(** ** Path requests *)
Lemma request_path_sends dest except tag env n (h : Handler S) :
  exists n' h' out, request_path dest (Some except) tag env n h = Some (tt, n', h', out) /\
    sent_to out = all_but except (running (th_iface_manager h)) /\ th_iface_manager h' = th_iface_manager h.
Proof.
  assert (exists p n1 h1, generate_request dest tag env n h = Some (p, n1, h1, []) /\ th_iface_manager h1 = th_iface_manager h /\
    header p = mkHeader Open false Type1 Broadcast Plain Data 0) as (p & n1 & h1 & Eg & Em & Eh).
  { unfold generate_request. destruct tag as [t|].
    - eexists _, _, _. split; [eapply (run_bind _ _ _ _ _ _ _ _ []); [reflexivity|]; eapply (run_bind _ _ _ _ _ _ _ _ []); [reflexivity|apply run_with_field]|done].
    - eexists _, _, _. split; [eapply (run_bind _ _ _ _ _ _ _ _ []); [reflexivity|]; eapply (run_bind _ _ _ _ _ _ _ _ []);
        [eapply (run_bind _ _ _ _ _ _ _ _ []); reflexivity|apply run_with_field]|done]. }
  destruct (broadcast_out (e_now env) (Some except) p (th_iface_manager h1)) as (out & Es & Eo & _); [unfold is_announce; by rewrite Eh|].
  eexists n1, _, _. split; [|split].
  - unfold request_path. eapply (run_bind _ _ _ _ _ _ _ _ []); [exact Eg|]. unfold send. eapply (run_bind _ _ _ _ _ _ _ _ []); [reflexivity|].
    cbn [tx_packet]. rewrite Eh. cbn [hops]. eapply (run_bind _ _ _ _ _ _ _ _ []); [reflexivity|].
    assert (note_unlocked_link_outbound None (e_mono env) p h1 = h1) as -> by (unfold note_unlocked_link_outbound; by rewrite Eh).
    eapply (run_bind _ _ _ _ _ _ _ _ []); [apply run_with_field|]. eapply (run_bind _ _ _ _ _ _ _ _ []); [reflexivity|]. cbn [th_iface_manager set_packet_cache].
    rewrite Es. eapply (run_bind _ _ _ _ _ _ _ _ []); [reflexivity|]. cbv beta iota. eapply (run_bind _ _ _ _ _ _ _ _ []); reflexivity.
  - rewrite !app_nil_l, sent_to_sent, Eo, Em. apply all_but_running.
  - exact Em.
Qed.

Lemma forward_sends dest tag other env n (h : Handler S) :
  exists n' h' out, forward_path_request dest tag other env n h = Some (tt, n', h', out) /\
    sent_to out = all_but other (running (th_iface_manager h)) /\ running (th_iface_manager h') = running (th_iface_manager h).
Proof.
  destruct (request_path_sends dest other tag env n (set_iface_manager (Manager_sent_path_request other (e_now env) (th_iface_manager h)) h))
    as (n' & h' & out & E & Es & Em). cbn [th_iface_manager set_iface_manager] in Es, Em. unfold Manager_sent_path_request in Es, Em.
  exists n', h', ([] ++ ([] ++ out)). split; [|by rewrite Em, !app_nil_l, Es, !running_stats, !running_control].
  unfold forward_path_request. eapply run_bind; [reflexivity|]. eapply run_bind; [apply run_with_field|exact E].
Qed.

Lemma forward_all_sends dest tag others env n (h : Handler S) :
  exists n' h' out, for_each others (forward_path_request dest tag) env n h = Some (tt, n', h', out) /\
    sent_to out = flat_map (fun o => all_but o (running (th_iface_manager h))) others.
Proof.
  revert n h. induction others as [|o others IH]; intros n h; [by exists n, h, []|]. destruct (forward_sends dest tag o env n h) as (n1 & h1 & o1 & E1 & S1 & R1).
  destruct (IH n1 h1) as (n2 & h2 & o2 & E2 & S2). exists n2, h2, (o1 ++ o2). split; [by eapply run_bind|]. by rewrite sent_to_app, S1, S2, R1.
Qed.

(** C37: a path request that a local client sends, for a destination without a
    known path, is not forwarded to the other interfaces, as the code around it
    says, but away from them: for every other interface that is online, each
    running interface except that one gets the request, the client's own included.
    If only one other interface is online, it gets nothing. *)
Theorem Path_request_misdirected (iface : AddressHash) (request : PathRequest) (env : Env) (n n' : nat) (h h' : Handler S) (out : list Output)
    (others := online_ifaces_except iface (th_iface_manager h))
    (Hclient : is_local_client_iface iface (th_iface_manager h) = true)
    (Hrun : discover_path iface request env n h = Some (tt, n', h', out)) :
  sent_to out = flat_map (fun o => all_but o (running (th_iface_manager h))) others /\ (forall o, others = [o] -> o ∉ sent_to out).
Proof.
  assert (sent_to out = flat_map (fun o => all_but o (running (th_iface_manager h))) others) as E.
  { revert Hrun. unfold discover_path, mbind at 1, Tr_bind at 1, gets at 1. rewrite Hclient.
    unfold mbind at 1, Tr_bind at 1, register_discovery, medium_discovery_timeout. unfold mbind at 1, Tr_bind at 1, ask. unfold mbind at 1, Tr_bind at 1.
    unfold mbind at 1, Tr_bind at 1, gets at 1.
    set (t := match lowest_interface_bitrate (th_iface_manager h) with Some b => if 0 <? b then unwrap (medium_timeout b) else mret 0 | None => mret 0 end).
    assert (t env n h = None \/ exists v, t env n h = Some (v, n, h, [])) as Ht.
    { subst t. destruct (lowest_interface_bitrate _) as [b|]; [|right; by eexists]. destruct (0 <? b); [|right; by eexists].
      unfold unwrap. destruct (medium_timeout b); [right; by eexists|by left]. }
    destruct Ht as [-> |[v ->]]; [done|]. rewrite run_with_field. cbv beta iota.
    unfold mbind at 1, Tr_bind at 1, gets at 1. cbn [th_iface_manager set_path_requests].
    match goal with |- context [for_each ?l ?f ?a ?b ?c] => destruct (forward_all_sends (pr_destination request) None l env b c) as (n2 & h2 & o2 & -> & E2) end.
    intros [= <- <- <-]. exact E2. }
  split; [exact E|]. intros o Ho. rewrite E, Ho. cbn. rewrite app_nil_r. unfold all_but. intros Hin. apply list_elem_of_In, filter_In in Hin as [_ Hin].
  by rewrite bool_decide_true in Hin.
Qed.

(** ** Links that are not established *)

(** A pending link, alone in the tables. *)
Record waits (key : AddressHash) (l : Link.t) (timeout : Z) (h : Handler S) : Prop := {
  w_in : th_in_links h = ∅;
  w_out : th_out_links h = {[key := l]};
  w_pending : Link.status l = Pending;
  w_timeout : establishment_timeout (desc_address_hash (Link.destination l)) h = Some timeout;
}.

Definition repeat_after (h : Handler S) : Z := out_link_repeat (cfg_timers (th_config h)).

(** The times of the checks: none is later than [gap] after the one before. *)
Fixpoint timely (gap last : Z) (envs : list Env) : Prop :=
  match envs with
  | [] => True
  | env :: envs => last <= e_mono env <= last + gap /\ timely gap (e_mono env) envs
  end.

Lemma request_waits now l (p := (Links.request now l).1) (l' := mark_outbound now (bool_decide (context p = CtxKeepAlive)) (Links.request now l).2) :
  Link.status l' = Pending /\ Link.last_inbound l' = now /\ Link.destination l' = Link.destination l /\ packet_type (header p) = LinkRequest /\
  destination_type (header p) = Single /\ hops (header p) = 0 /\ destination p = desc_address_hash (Link.destination l).
Proof. done. Qed.

Lemma keys_of_one {A} (k : AddressHash) (v : A) : keys_of {[k := v]} = [k].
Proof.
  unfold keys_of. assert (btree_iter bytes_le {[k := v]} = [(k, v)]) as ->; [|done]. apply Permutation_singleton_r.
  rewrite btree_iter_Permutation. by rewrite map_to_list_singleton.
Qed.

Lemma put_same key l (h : Handler S) : th_out_links h !! key = Some l -> put_link (OutLink key) l h = h.
Proof. intros E. unfold put_link. rewrite insert_id by done. by destruct h. Qed.

Lemma requests_sent key l env n (h : Handler S) : th_out_links h = {[key := l]} ->
  let p := (Links.request (e_mono env) l).1 in
  exists c out, send_packet (Some (OutLink key)) p env n h = Some (tt, n, set_packet_cache c h, out) /\
    Forall (fun o => match o with OSent _ msg => packet_type (header (tx_packet msg)) = LinkRequest | _ => False end) out.
Proof.
  intros Hl p. destruct (broadcast_out (e_now env) None p (th_iface_manager h) eq_refl) as (out & Es & _ & Ht).
  eexists _, _. split.
  - unfold send_packet, send. eapply (run_bind _ _ _ _ _ _ _ _ []); [reflexivity|]. cbn [tx_packet]. change (PATHFINDER_M - 1 <? hops (header p)) with false. cbv iota.
    eapply (run_bind _ _ _ _ _ _ _ _ []); [reflexivity|].
    assert (note_unlocked_link_outbound (Some (OutLink key)) (e_mono env) p h = h) as ->.
    { unfold note_unlocked_link_outbound. rewrite decide_False, decide_True by done. unfold mark_link. cbn [link_at]. rewrite Hl.
      destruct (decide (destination p = key)) as [-> |Hne]; [|by rewrite lookup_singleton_ne by congruence].
      rewrite lookup_singleton_eq. by rewrite decide_True. }
    eapply (run_bind _ _ _ _ _ _ _ _ []); [apply run_with_field|]. eapply (run_bind _ _ _ _ _ _ _ _ []); [reflexivity|]. cbn [th_iface_manager set_packet_cache].
    rewrite Es. eapply (run_bind _ _ _ _ _ _ _ _ []); [reflexivity|]. cbv beta iota. rewrite <- (app_nil_l (_ <$> out)). eapply run_bind; [reflexivity|].
    unfold emit. by destruct h.
  - rewrite !app_nil_l. apply Forall_fmap. eapply list.Forall_impl; [exact Ht|]. intros x Hx. exact Hx.
Qed.

(** One check: the link is left alone or asked for again. *)
Lemma pending_check key l timeout env n (h : Handler S) : waits key l timeout h -> Links.elapsed (e_mono env) l <= timeout -> 0 <= repeat_after h ->
  exists n' h' l' out, check_out_link key env n h = Some (KeepLink, n', h', out) /\ waits key l' timeout h' /\ th_config h' = th_config h /\
    Link.last_inbound l' <= Z.max (Link.last_inbound l) (e_mono env) /\ Links.elapsed (e_mono env) l' <= repeat_after h /\
    Forall (fun o => match o with OSent _ msg => packet_type (header (tx_packet msg)) = LinkRequest | _ => False end) out.
Proof.
  intros [Hin Hout Hp Ht] He Hr. assert (th_out_links h !! key = Some l) as Hk by (by rewrite Hout, lookup_singleton_eq).
  assert (forall r, check_pending_link key l env n h = r -> check_out_link key env n h = r) as Hco.
  { intros r <-. unfold check_out_link. unfold mbind at 1, Tr_bind at 1, ask at 1. unfold mbind at 1, Tr_bind at 1, gets at 1.
    unfold with_link at 1. unfold mbind at 1, Tr_bind at 1. unfold mbind at 1, Tr_bind at 1, gets at 1. cbn [link_at]. rewrite Hk.
    assert (keepalive_due (e_mono env) l (out_link_keep (cfg_timers (th_config h))) = false) as -> by (unfold keepalive_due; by rewrite Hp).
    unfold mbind at 1, Tr_bind at 1, mret at 1, Tr_ret at 1, modify at 1. rewrite put_same by done.
    unfold mbind at 1, Tr_bind at 1, gets at 1. cbn [link_at]. rewrite Hk, Hp. by destruct (check_pending_link key l env n h) as [[[[? ?] ?] ?]|]. }
  destruct (Z.leb_spec (Links.elapsed (e_mono env) l) (repeat_after h)) as [Hle|Hgt].
  - exists n, h, l, []. split; [|split_and!; try done; lia]. apply Hco. unfold check_pending_link.
    do 2 (eapply (run_bind _ _ _ _ _ _ _ _ []); [reflexivity|]). unfold repeat_after in Hle. by rewrite (proj2 (Z.leb_le _ _) Hle).
  - destruct (request_waits (e_mono env) l) as (R1 & R2 & R3 & _). destruct (requests_sent key l env n h Hout) as (c & out & Es & Ho).
    set (p := (Links.request (e_mono env) l).1) in *. set (l' := mark_outbound (e_mono env) (bool_decide (context p = CtxKeepAlive)) (Links.request (e_mono env) l).2) in *.
    exists n, (put_link (OutLink key) l' (set_packet_cache c h)), l', out. split.
    + apply Hco. unfold check_pending_link. do 2 (rewrite <- (app_nil_l out); eapply run_bind; [reflexivity|]). unfold repeat_after in Hgt.
      rewrite (proj2 (Z.leb_gt _ _) Hgt). rewrite <- (app_nil_l out). eapply run_bind; [reflexivity|]. rewrite Ht.
      rewrite <- (app_nil_l out). eapply run_bind; [reflexivity|]. rewrite (proj2 (Z.ltb_ge _ _) He).
      rewrite (surjective_pairing (Links.request (e_mono env) l)). fold p. rewrite <- (app_nil_r out). eapply run_bind.
      * unfold send_from_link. rewrite <- (app_nil_l out). eapply run_bind; [reflexivity|]. rewrite <- (app_nil_r out). eapply run_bind; [exact Es|reflexivity].
      * eapply (run_bind _ _ _ _ _ _ _ _ []); reflexivity.
    + split; [split|]; try done.
      * cbn [th_out_links put_link set_out_links set_packet_cache]. rewrite Hout. by rewrite insert_singleton_eq.
      * split_and!; try done; [rewrite R2; lia|]. unfold Links.elapsed, duration_since. rewrite R2. lia.
Qed.

Lemma pending_tick key l timeout env (h : Handler S) : waits key l timeout h -> Links.elapsed (e_mono env) l <= timeout -> 0 <= repeat_after h ->
  exists n' h' l' out, link_tick env 0%nat h = Some (tt, n', h', out) /\ waits key l' timeout h' /\ th_config h' = th_config h /\
    Link.last_inbound l' <= Z.max (Link.last_inbound l) (e_mono env) /\ Links.elapsed (e_mono env) l' <= repeat_after h /\
    Forall (fun o => match o with OSent _ msg => packet_type (header (tx_packet msg)) = LinkRequest | _ => False end) out.
Proof.
  intros Hw He Hr. set (h0 := set_receipts (check_receipts (e_now env) (th_receipts h)) h).
  assert (waits key l timeout h0) as Hw0 by (by destruct Hw; split). destruct (pending_check key l timeout env 0%nat h0 Hw0 He Hr)
    as (n' & h' & l' & out & E & Hw' & Hc & Hin' & Hel & Ho). exists n', h', l', out. split; [|done]. destruct Hw0 as [Hin Hout _ _].
  unfold link_tick. do 2 (rewrite <- (app_nil_l out); eapply run_bind; [reflexivity|]). fold h0. unfold handle_check_links.
  rewrite <- (app_nil_l out). eapply run_bind; [reflexivity|]. rewrite Hin. do 2 (rewrite <- (app_nil_l out); eapply run_bind; [reflexivity|]).
  rewrite <- (app_nil_l out). eapply run_bind; [reflexivity|]. rewrite Hout, keys_of_one. cbn [check_each].
  rewrite <- (app_nil_r out). eapply (run_bind _ _ _ _ _ [(key, KeepLink)]).
  - rewrite <- (app_nil_r out). eapply run_bind; [exact E|reflexivity].
  - reflexivity.
Qed.

(** C38: a link that nobody answers is never given up.  Each repetition of the
    request restarts the clock against which the time limit for its establishment
    is measured, so that with checks at most the limit less the repetition
    interval apart, whatever number of them, the link stays pending and nothing
    but link requests is sent: no teardown, and no search for another path. *)
Theorem Pending_link_never_expires (key : AddressHash) (l : Link.t) (timeout : Z) (envs : list Env) (h : Handler S)
    (Hw : waits key l timeout h) (Hrepeat : 0 <= repeat_after h <= timeout)
    (Htimes : timely (timeout - repeat_after h) (Link.last_inbound l) envs) :
  exists h' l' out, transport_run ((fun env => (env, LinkTick)) <$> envs) h = Some (h', out) /\
    th_out_links h' = {[key := l']} /\ Link.status l' = Pending /\
    Forall (fun o => match o with OSent _ msg => packet_type (header (tx_packet msg)) = LinkRequest | _ => False end) out.
Proof.
  assert (exists last, timely (timeout - repeat_after h) last envs /\ Link.last_inbound l <= last /\ last - Link.last_inbound l <= repeat_after h)
    as (last & Ht & Hlast & Hold) by (exists (Link.last_inbound l); split; [done|lia]). clear Htimes.
  revert h l last Hw Hrepeat Ht Hlast Hold. induction envs as [|env envs IH]; intros h l last Hw Hr Ht Hlast Hold.
  { exists h, l, []. destruct Hw. by split_and!. }
  cbn [timely] in Ht. destruct Ht as [Hg Ht].
  destruct (pending_tick key l timeout env h Hw) as (n' & h1 & l1 & o1 & E1 & Hw1 & Hc & Hin & Hel & Ho1); [unfold Links.elapsed, duration_since; lia|lia|].
  assert (repeat_after h1 = repeat_after h) as Er by (unfold repeat_after; by rewrite Hc). unfold Links.elapsed, duration_since in Hel.
  destruct (IH h1 l1 (e_mono env)) as (h2 & l2 & o2 & E2 & Ho & Hp & Ho2); rewrite ?Er; try done; [lia|lia|].
  exists h2, l2, (o1 ++ o2). split_and!; try done; [|by apply list.Forall_app]. cbn [fmap list_fmap transport_run step_body]. rewrite E1. cbn. by rewrite E2.
Qed.

(** ** Links that this node opened *)

(** No inbound link has the identifier, and no outbound link leads to it. *)
Definition apart (id : LinkId) (h : Handler S) : Prop :=
  map_Forall (fun _ l => Link.id l <> id) (th_in_links h) /\ map_Forall (fun _ l => desc_address_hash (Link.destination l) <> id) (th_out_links h).

(** The handler changes no transfer, and sets no link under the identifier. *)
Definition aside {A} (id : LinkId) (m : Tr S A) : Prop :=
  forall env n h, apart id h -> forall a n' h' out, m env n h = Some (a, n', h', out) -> apart id h' /\ th_resources h' = th_resources h.

Lemma bind_inv {A B} (m : Tr S A) (f : A -> Tr S B) env n h b n' h' out : (m ≫= f) env n h = Some (b, n', h', out) ->
  exists a n1 h1 o1, m env n h = Some (a, n1, h1, o1) /\ exists o2, f a env n1 h1 = Some (b, n', h', o2).
Proof.
  unfold mbind, Tr_bind. destruct (m env n h) as [[[[a n1] h1] o1]|]; [|done]. destruct (f a env n1 h1) as [[[[b' n2] h2] o2]|] eqn:E; [|done].
  intros [= <- <- <- <-]. exists a, n1, h1, o1. split; [done|]. by exists o2.
Qed.

Lemma aside_bind {A B} id (m : Tr S A) (f : A -> Tr S B) : aside id m -> (forall a, aside id (f a)) -> aside id (m ≫= f).
Proof.
  intros Hm Hf env n h Hh b n' h' out E. apply bind_inv in E as (a & n1 & h1 & o1 & E1 & o2 & E2).
  destruct (Hm _ _ _ Hh _ _ _ _ E1) as [H1 <-]. exact (Hf a _ _ _ H1 _ _ _ _ E2).
Qed.

Lemma aside_pure {A} id (g : Env -> nat -> Handler S -> A) k : aside id (fun env n h => Some (g env n h, k n, h, [])).
Proof. by intros env n h Hh a n' h' out [= _ _ <- _]. Qed.

Lemma mark_aside id now b r h : apart id h -> apart id (mark_link None now b r h) /\ th_resources (mark_link None now b r h) = th_resources h.
Proof.
  intros [Hi Ho]. unfold mark_link. destruct (link_at r h) as [l|] eqn:E; [|done]. rewrite decide_False by done.
  destruct r as [k|k]; cbn in *; (split; [|done]); split; cbn; try done; apply map_Forall_insert_2; try done; [exact (Hi _ _ E)|exact (Ho _ _ E)].
Qed.

Lemma send_aside id msg : aside id (send None msg).
Proof.
  unfold send. apply aside_bind; [apply (aside_pure id (fun env _ _ => env))|]. intros env. destruct (_ <? _); [apply (aside_pure id (fun _ _ _ => tt))|].
  apply aside_bind; [|intros _; apply aside_bind; [|intros _; apply aside_bind; [apply (aside_pure id (fun _ _ h => th_iface_manager h))|intros m]]].
  - intros env' n h Hh a n' h' out [= _ _ <- _]. unfold note_unlocked_link_outbound. destruct (decide _); [|destruct (decide _); [by apply mark_aside|done]].
    destruct (th_in_links h !! _); [by apply mark_aside|]. destruct (find_by_id _ _ _); [by apply mark_aside|done].
  - intros env' n h Hh a n' h' out. rewrite run_with_field. by intros [= _ _ <- _].
  - apply aside_bind; [|intros [m' o]; apply aside_bind; [by intros env' n h Hh a n' h' out [= _ _ <- _]|intros _ env' n h Hh a n' h' out [= _ _ <- _]; done]].
    unfold unwrap. destruct (Ifaces.send _ _ _) as [x|]; [apply (aside_pure id (fun _ _ _ => x))|done].
Qed.

Lemma draw_ivs_aside id ids : aside id (draw_ivs (S := S) ids).
Proof.
  induction ids as [|i ids IH]; cbn [draw_ivs]; [apply (aside_pure id (fun _ _ _ _ _ => []))|].
  apply aside_bind; [by intros env n h Hh a n' h' out [= _ _ <- _]|]. intros x. apply aside_bind; [done|]. by intros f env n h Hh a n' h' out [= _ _ <- _].
Qed.

Lemma sends_aside id ps : aside id (for_each ps (send_packet (S := S) None)).
Proof. induction ps as [|p ps IH]; cbn [for_each]; [apply (aside_pure id (fun _ _ _ => tt))|]. apply aside_bind; [apply send_aside|done]. Qed.

Lemma apart_unfiled id h : safe h -> apart id h -> th_in_links h !! id = None /\ th_out_links h !! id = None.
Proof.
  intros Hs [Hi Ho]. split; apply eq_None_not_Some; intros [l E].
  - by apply (Hi _ _ E), (s_in_links _ Hs _ _ E).
  - by apply (Ho _ _ E), (s_out_links _ Hs _ _ E).
Qed.

Lemma tick_aside id env n n' h h' out : safe h -> apart id h -> resource_tick env n h = Some (tt, n', h', out) ->
  apart id h' /\ Manager.out_of id (th_resources h') = live_out (Manager.out_of id (th_resources h)) /\
  Manager.incoming_of id (th_resources h') = live_in (Manager.incoming_of id (th_resources h)).
Proof.
  intros Hs Ha E. destruct (apart_unfiled id h Hs Ha) as [Ei Eo]. unfold resource_tick in E.
  apply bind_inv in E as (env' & n0 & h0 & o0 & [= <- <- <- <-] & p1 & E). apply bind_inv in E as (h0 & n0 & h1 & o0 & [= <- <- <- <-] & p2 & E).
  apply bind_inv in E as (oi & n1 & h1 & o1 & E1 & p3 & E). apply bind_inv in E as (ii & n2 & h2 & o2 & E2 & p4 & E).
  apply bind_inv in E as ([m ps] & n3 & h3 & o3 & E3 & p5 & E). apply bind_inv in E as (u & n4 & h4 & o4 & [= <- <- <- <-] & p6 & E).
  apply bind_inv in E as (u5 & n5 & h5 & o5 & E5 & p7 & [= _ <- _]).
  destruct (draw_ivs_aside _ _ _ _ _ Ha _ _ _ _ E1) as [A1 _]. destruct (draw_ivs_aside _ _ _ _ _ A1 _ _ _ _ E2) as [A2 _].
  unfold unwrap in E3. destruct (Manager.check _ _ _ _ _) as [x|] eqn:Ec; [|done]. injection E3 as -> <- <- <-.
  assert (apart id (set_resources m h2)) as A3 by exact A2. destruct (sends_aside _ _ _ _ _ A3 _ _ _ _ E5) as [A5 R5].
  split; [exact A5|]. cbn [th_resources set_resources]. rewrite R5. cbn [th_resources set_resources].
  apply (sweep_other (e_unix env) (th_in_links h) (th_out_links h) oi ii (th_resources h) (Manager.cleanup (e_unix env) m) ps id Ei Eo).
  unfold resource_sweep. by rewrite Ec.
Qed.

(** The state after ticks of the resource timer. *)
Lemma ticks_aside id envs h h' out : safe h -> apart id h -> transport_run ((fun env => (env, ResourceTick)) <$> envs) h = Some (h', out) ->
  live_out (Manager.out_of id (th_resources h')) = live_out (Manager.out_of id (th_resources h)) /\
  live_in (Manager.incoming_of id (th_resources h')) = live_in (Manager.incoming_of id (th_resources h)).
Proof.
  revert h out. induction envs as [|env envs IH]; intros h out Hs Ha; cbn [fmap list_fmap transport_run step_body]; [by intros [= <- _]|].
  pose proof (step_ok ResourceTick env 0%nat h Hs) as Hok. cbn [step_body] in Hok.
  destruct (resource_tick env 0%nat h) as [[[[[] n1] h1] o1]|] eqn:Et; [|done]. destruct Hok as (Hs1 & _). cbn [mbind option_bind].
  destruct (transport_run _ h1) as [[h2 o2]|] eqn:Er; [|done]. cbn [mbind option_bind]. intros [= <- _].
  destruct (tick_aside _ _ _ _ _ _ _ Hs Ha Et) as (Ha1 & Eo & Ei). destruct (IH h1 o2 Hs1 Ha1 Er) as [-> ->]. rewrite Eo, Ei.
  unfold live_out, live_in. rewrite !list_filter_filter. split; apply list_filter_iff; intros x; tauto.
Qed.

(** C39: a transport created without storage does not attend to the links it opened
    itself.  Such a link is filed under its destination, and it is looked for by
    its identifier: unless another link happens to be filed there, whatever steps
    were run before, closing the link changes nothing and sends nothing, and
    however often the resource timer ticks, every transfer on the link stays as it
    is: nothing is sent again, nothing times out, and what is queued stays queued. *)
Theorem Own_links_unattended (config : TransportConfig) (word : Z) (steps : list (Env * TransportStep)) (h : Handler S) (out : list Output)
    (key : AddressHash) (l : Link.t) (id := Link.id l)
    (Hrun : transport_run steps (Transport_new config None word) = Some (h, out))
    (Hopened : th_out_links h !! key = Some l) (Hapart : apart id h) :
  (forall env n, link_close id env n h = Some (Ok tt, n, h, [])) /\
  (forall envs h' out', transport_run ((fun env => (env, ResourceTick)) <$> envs) h = Some (h', out') ->
    live_out (Manager.out_of id (th_resources h')) = live_out (Manager.out_of id (th_resources h)) /\
    live_in (Manager.incoming_of id (th_resources h')) = live_in (Manager.incoming_of id (th_resources h))).
Proof.
  destruct (run_ok steps _ _ _ (new_safe config word) Hrun) as [Hs _]. destruct (apart_unfiled id h Hs Hapart) as [Ei Eo]. split.
  - intros env n. unfold link_close. eapply (run_bind _ _ _ _ _ _ _ _ []); [reflexivity|]. unfold find_in_link. rewrite Ei.
    unfold teardown_link. eapply (run_bind _ _ _ _ _ _ _ _ []); [reflexivity|]. cbn [link_at]. rewrite Eo. reflexivity.
  - intros envs h' out'. by apply ticks_aside.
Qed.

End Gaps.

(** ** Witnesses *)
#[local] Existing Instance mixing_sha256.
#[local] Existing Instance toy_hkdf.
#[local] Existing Instance toy_x25519.
#[local] Existing Instance toy_cbc.
#[local] Existing Instance toy_hmac.
#[local] Existing Instance toy_signing.
#[local] Existing Instance toy_verifying.
#[local] Existing Instance toy_ed25519.
#[local] Existing Instance toy_keys.
#[local] Existing Instance msgpack_rmp.
#[local] Existing Instance toy_rmp_decode.
#[local] Existing Instance toy_cursor.
#[local] Existing Instance toy_rmp_str.
#[local] Existing Instance toy_bz2.
#[local] Existing Instance toy_rmpv.
#[local] Existing Instance toy_codec.

Definition late_link : Link.t := (Links.request 0 (Link_new (replicate 32 4) (replicate 32 5) (desc line_out) 0)).2.
Definition late_sender : Handler MemoryStorage := set_out_links {[line_dest := late_link]} line_sender.
Definition late_env (secs : Z) : Env := mkEnv (secs * NANOS) (secs * NANOS) (f64_of_Z 0) 0 (fun _ => replicate 32 9) (e_inputs line_env).

Lemma Pending_link_never_expires_witness :
  exists h' l' out, transport_run ((fun env => (env, LinkTick)) <$> [late_env 10; late_env 20; late_env 30; late_env 40]) late_sender = Some (h', out) /\
    th_out_links h' = {[line_dest := l']} /\ Link.status l' = Pending.
Proof.
  destruct (Pending_link_never_expires line_dest late_link (18 * NANOS) [late_env 10; late_env 20; late_env 30; late_env 40] late_sender)
    as (h' & l' & out & E & Ho & Hp & _).
  - split; [reflexivity|reflexivity|reflexivity|vm_compute; reflexivity].
  - vm_compute. split; congruence.
  - vm_compute. repeat split; congruence.
  - exists h', l', out. split; [exact E|]. split; [exact Ho|exact Hp].
Defined.

(** A client and one interface to the network. *)
Definition client_iface : AddressHash := (spawn 0 (replicate 32 1) sample_type Manager_new).1.
Definition client_manager : InterfaceManager :=
  let m := (spawn 0 (replicate 32 1) sample_type Manager_new).2 in
  let '(network, m) := spawn 0 (replicate 32 2) sample_type m in
  with_stats network (set_online true) (with_stats client_iface (set_online true) (set_iface_local_client client_iface m).2).
Definition client_node : Handler MemoryStorage := set_iface_manager client_manager (line_base 10).
Definition client_request : PathRequest := mkPathRequest line_dest None [1].

Lemma client_node_runs : exists n h out, discover_path client_iface client_request line_env 0%nat client_node = Some (tt, n, h, out).
Proof.
  assert (bool_decide (is_Some (discover_path client_iface client_request line_env 0%nat client_node)) = true) as E by (vm_compute; reflexivity).
  apply bool_decide_eq_true in E as [[[[[] n] h] out] E]. by exists n, h, out.
Qed.

Lemma Path_request_misdirected_witness :
  exists n h out network, discover_path client_iface client_request line_env 0%nat client_node = Some (tt, n, h, out) /\
    online_ifaces_except client_iface client_manager = [network] /\ network ∉ sent_to out.
Proof.
  destruct client_node_runs as (n & h & out & E).
  destruct (Path_request_misdirected client_iface client_request line_env 0%nat n client_node h out) as [_ H].
  - vm_compute. reflexivity.
  - exact E.
  - exists n, h, out. eexists. split; [exact E|].
    assert (online_ifaces_except client_iface client_manager = [(spawn 0 (replicate 32 2) sample_type (spawn 0 (replicate 32 1) sample_type Manager_new).2).1]) as Eo
      by (vm_compute; reflexivity).
    split; [exact Eo|exact (H _ Eo)].
Defined.

(** A node opens a link to a destination of another node, which proves it. *)
Definition own_steps : list (Env * TransportStep) :=
  [(sample_env 1 1, Attach sample_type); (sample_env 2 10, OpenLink (desc line_out))].
Definition far_identity : PrivateIdentity := PrivateIdentity_new line_secret line_seed.
Definition far_steps (p : Packet) : list (Env * TransportStep) :=
  [(sample_env 1 2, Attach sample_type); (sample_env 1 20, AddDestination far_identity (desc_name (desc line_out)));
   (sample_env 3 30, Receive [mkRx (spawn 0 (replicate 32 2) sample_type Manager_new).1 p])].
Definition own_start : Handler MemoryStorage := Transport_new sample_config None 0.
Definition last_sent (steps : list (Env * TransportStep)) : option Packet :=
  match transport_run steps own_start with
  | Some (_, out) => list.last (omap (M := list) (fun o => match o with OSent _ msg => Some (tx_packet msg) | _ => None end) out)
  | None => None
  end.
Definition own_exchange : option (list (Env * TransportStep)) :=
  request ← last_sent own_steps;
  proof ← last_sent (far_steps request);
  Some (own_steps ++ [(sample_env 4 40, Receive [mkRx (spawn 0 (replicate 32 1) sample_type Manager_new).1 proof]);
    (sample_env 5 50, RequestOnLink (OutLink line_dest) [47; 101] (replicate 1500 1))]).

(** A request too long for a packet, and two ticks long after it. *)
Definition late_ticks : list Env := [sample_env 5000 60; sample_env 9000 70].
Definition own_checks (h : Handler MemoryStorage) : bool :=
  match th_out_links h !! line_dest with
  | Some l => bool_decide (Link.status l = Active) && bool_decide (apart (Link.id l) h)
      && bool_decide (length (live_out (Manager.out_of (Link.id l) (th_resources h))) = 1%nat)
      && bool_decide (is_Some (transport_run ((fun env => (env, ResourceTick)) <$> late_ticks) h))
  | None => false
  end.

Lemma own_run_checks : match own_exchange with
  | Some steps => match transport_run steps own_start with Some (h, _) => own_checks h | None => false end
  | None => false
  end = true.
Proof. vm_compute. reflexivity. Qed.

Lemma own_run_ends : exists steps h out l h' out', transport_run steps own_start = Some (h, out) /\ th_out_links h !! line_dest = Some l /\
  Link.status l = Active /\ apart (Link.id l) h /\ length (live_out (Manager.out_of (Link.id l) (th_resources h))) = 1%nat /\
  transport_run ((fun env => (env, ResourceTick)) <$> late_ticks) h = Some (h', out').
Proof.
  pose proof own_run_checks as T. destruct own_exchange as [steps|]; [|discriminate T].
  destruct (transport_run steps own_start) as [[h out]|] eqn:E; [|discriminate T]. unfold own_checks in T.
  destruct (th_out_links h !! line_dest) as [l|] eqn:El; [|discriminate T].
  apply andb_prop in T as [T Tr]. apply andb_prop in T as [T Tn]. apply andb_prop in T as [Ts Ta].
  apply bool_decide_eq_true in Ts. apply bool_decide_eq_true in Ta. apply bool_decide_eq_true in Tn. apply bool_decide_eq_true in Tr as [[h' out'] Er].
  exists steps, h, out, l, h', out'. repeat (split; [assumption|]). exact Er.
Qed.

Lemma Own_links_unattended_witness :
  exists steps h out l h' out', transport_run steps (Transport_new sample_config None 0) = Some (h, out) /\
    Link.status l = Active /\ link_close (Link.id l) (sample_env 6 60) 0%nat h = Some (Ok tt, 0%nat, h, []) /\
    transport_run ((fun env => (env, ResourceTick)) <$> late_ticks) h = Some (h', out') /\
    length (live_out (Manager.out_of (Link.id l) (th_resources h'))) = 1%nat.
Proof.
  destruct own_run_ends as (steps & h & out & l & h' & out' & E & El & Es & Ha & Hn & Et).
  destruct (Own_links_unattended sample_config 0 steps h out line_dest l E El Ha) as [Hc Ht].
  exists steps, h, out, l, h', out'. split; [exact E|]. split; [exact Es|]. split; [exact (Hc _ _)|]. split; [exact Et|].
  rewrite (proj1 (Ht _ _ _ Et)). exact Hn.
Defined.
