(* ===== verification/Restart.v ===== *)
(** * The path table across a restart

    A transport that saves its tables and starts again on the same storage has its
    paths back, on the interfaces that are up. *)

From Stdlib Require Import SpecFloat.
From S2P Require Import Prelude Float Buffer Crypto Hash Token Identity Msgpack Packet Counters Ifac PacketCache LinkTable AnnounceTable.
From S2P Require Import AnnounceLimits PathTable Destination Links PathRequests Tunnels Resource ResourceOut ResourceIn ResourceManager Requests.
From S2P Require Import IfaceControl Ifaces Storage Blackholes Inbound Handler Transport Persist Loop Api Tables TransportSafety TransportRouting.

(** ** Rows *)
Definition stored_ok (p : PersistedPath) : Prop :=
  length (pp_destination p) = 16%nat /\ length (pp_stable_iface p) = 16%nat /\ is_u8 (pp_hops p) /\ 0 <= pp_stored_unix p < 2 ^ 64 /\
  is_u8 (pp_mode p) /\ (forall g, pp_gravity p = Some g -> - 2 ^ 63 <= g < 2 ^ 63) /\ Forall (fun b => length b = 10%nat) (pp_blobs p) /\
  small (pp_blobs p) = true /\ small (pp_announce p) = true /\ length (pp_received_from p) = 16%nat /\ length (pp_packet_hash p) = 32%nat /\
  (forall x, pp_expires_unix p = Some x -> valid_binary 53 1024 x = true).

Lemma parse_blobs_row l : Forall (fun b => length b = 10%nat) l -> parse_blobs (RArray (RBin <$> l)) = l.
Proof. unfold parse_blobs. cbn [as_array]. induction 1 as [|b l Hb _ IH]; [done|]. cbn. rewrite Hb. cbn. by rewrite IH. Qed.

Lemma parse_stored p : stored_ok p -> parse_persisted_path (waiting_row p) = Some p.
Proof.
  intros (Hd & Hi & Hh & Hs & Hm & Hg & Hb & _ & _ & Hf & Hp & Hx). destruct p as [d i h s m g u b a f k x]. cbn in *.
  rewrite is_u8_bound in Hh, Hm. unfold waiting_row, destination_table_row. cbn [pp_destination pp_stable_iface pp_hops pp_stored_unix pp_mode pp_gravity
    pp_unresponsive pp_blobs pp_announce pp_received_from pp_packet_hash pp_expires_unix].
  unfold parse_persisted_path. cbn [as_array mbind option_bind]. cbn. rewrite Hd, Hi, Hf, Hp. cbn [Nat.eqb mbind option_bind].
  rewrite (proj2 (Z.leb_le 0 h)), (proj2 (Z.leb_le 0 s)), (proj2 (Z.leb_le 0 m)) by lia. cbn [from_option id]. rewrite (wrap_small 8 h), (wrap_small 8 m) by (unfold in_width; change (2 ^ 8) with 256; lia).
  f_equal. f_equal.
  - destruct g as [g|]; [|done]. cbn. destruct (Hg g eq_refl). by rewrite (proj2 (Z.ltb_lt _ _)) by lia.
  - exact (parse_blobs_row b Hb).
  - destruct x as [x|]; [|done]. cbn. unfold value_f64. cbn [as_f64]. by rewrite f64_bits_roundtrip by (by apply Hx).
Qed.

Lemma small_fixed {A} (l : list A) : (length l <= 32)%nat -> small l = true.
Proof. intros Hl. apply Z.ltb_lt. lia. Qed.

Lemma wf_bins (l : list bytes) : Forall (fun b => length b = 10%nat) l -> forallb rv_wf (RBin <$> l) = true.
Proof. induction 1 as [|b l Hb _ IH]; [done|]. cbn. rewrite IH, small_fixed by lia. done. Qed.

Definition row_with (p : PersistedPath) (announce : option bytes) : RValue :=
  destination_table_row (pp_destination p) (pp_stable_iface p) (pp_hops p) (pp_stored_unix p) (pp_mode p) (pp_gravity p) (pp_unresponsive p)
    (RBin <$> pp_blobs p) announce (pp_received_from p) (pp_packet_hash p) (pp_expires_unix p).

Lemma row_with_wf p a : stored_ok p -> a = Some (pp_announce p) \/ a = None -> rv_wf (row_with p a) = true.
Proof.
  intros (Hd & Hi & Hh & Hs & Hm & Hg & Hb & Hbs & Ha & Hf & Hp & Hx) Ea. rewrite is_u8_bound in Hh, Hm.
  assert (forall z, 0 <= z < 2 ^ 64 -> (- 2 ^ 63 <=? z) && (z <? 2 ^ 64) = true) as Hz by (intros z Hz; apply andb_true_intro; split; [apply Z.leb_le|apply Z.ltb_lt]; lia).
  unfold row_with, destination_table_row. cbn [rv_wf]. rewrite forallb_app. cbn [forallb rv_wf]. rewrite !Hz by lia.
  rewrite (small_fixed (pp_destination p)), (small_fixed (pp_stable_iface p)), (small_fixed (pp_received_from p)), (small_fixed (pp_packet_hash p)) by lia.
  assert (rv_wf match a with Some b => RBin b | None => RNil end = true) as -> by (by destruct Ea as [-> | ->]).
  rewrite wf_bins by done. assert (small (RBin <$> pp_blobs p) = true) as -> by (unfold small; by rewrite length_fmap).
  rewrite small_fixed by (destruct (pp_expires_unix p); cbn; lia). cbn [andb].
  assert (rv_wf match pp_gravity p with Some g => RInt g | None => RNil end = true) as ->.
  { destruct (pp_gravity p) as [g|]; [|done]. destruct (Hg g eq_refl). cbn. apply andb_true_intro. split; [apply Z.leb_le|apply Z.ltb_lt]; lia. }
  destruct (pp_expires_unix p) as [x|]; [|done]. cbn. pose proof (f64_bits_range x (Hx x eq_refl)).
  rewrite (proj2 (Z.leb_le _ _)), (proj2 (Z.ltb_lt _ _)) by lia. done.
Qed.

Lemma depth_bins (l : list bytes) : (max_list (map rv_depth (RBin <$> l)) <= 1)%nat.
Proof. induction l as [|b l IH]; cbn; [lia|]. cbn in IH. lia. Qed.

Lemma row_depth d i h s m g u b a f k x : (rv_depth (destination_table_row d i h s m g u (RBin <$> b) a f k x) <= 3)%nat.
Proof.
  unfold destination_table_row. cbn [rv_depth]. rewrite map_app. pose proof (depth_bins b). cbn [map app]. 
  destruct g, a, x; cbn [map app max_list foldr rv_depth]; cbn in *; lia.
Qed.

(** ** What is saved of a path *)
Definition saved_with (now unix_now : Z) (iface announce : bytes) (d : AddressHash) (e : PathEntry) : PersistedPath :=
  mkPersisted d iface (pe_hops e) (Z.max 0 (unix_now - path_age now (timestamp e) / NANOS)) (mode_as_u8 (mode e)) (gravity e) (unresponsive e)
    (drop (length (random_blobs e) - 32) (random_blobs e)) announce (pe_received_from e) (pe_packet_hash e) (Some (expires_unix e)).

Definition saved (now unix_now : Z) (cache : PacketCache) (ids : gmap AddressHash AddressHash) (x : AddressHash * PathEntry) : option PersistedPath :=
  iface ← ids !! pe_iface x.2;
  announce ← PacketCache_get_cached_announce cache (pe_packet_hash x.2) ≫= serialize_packet;
  Some (saved_with now unix_now iface announce x.1 x.2).

(** An entry as the table holds it. *)
Definition entry_ok (d : AddressHash) (e : PathEntry) : Prop :=
  length d = 16%nat /\ is_u8 (pe_hops e) /\ (forall g, gravity e = Some g -> - 2 ^ 63 <= g < 2 ^ 63) /\
  Forall (fun b => length b = 10%nat) (random_blobs e) /\ length (pe_received_from e) = 16%nat /\ length (pe_packet_hash e) = 32%nat /\
  valid_binary 53 1024 (expires_unix e) = true.

Lemma serialize_small p b : serialize_packet p = Some b -> small b = true.
Proof.
  unfold serialize_packet. pose proof (Packet_serialize_emits p (OutputBuffer.new (replicate (Z.to_nat 2048) 0)) (ob_new_wf _)) as H.
  destruct (_ <=? _)%nat eqn:El.
  - destruct H as (n & o & -> & _ & _ & Hs & _). intros [= <-]. rewrite Hs. apply Nat.leb_le in El. unfold OutputBuffer.room in El.
    cbn [OutputBuffer.buffer OutputBuffer.offset OutputBuffer.new] in El. rewrite length_replicate in El. apply Z.ltb_lt. change (OutputBuffer.as_slice (OutputBuffer.new (replicate (Z.to_nat 2048) 0))) with (@nil Z). cbn [app]. lia.
  - by destruct H as (o & ->).
Qed.

Lemma saved_with_ok now unix_now iface announce d e : entry_ok d e -> 0 <= unix_now < 2 ^ 64 -> length iface = 16%nat -> small announce = true ->
  stored_ok (saved_with now unix_now iface announce d e).
Proof.
  intros (Hd & Hh & Hg & Hb & Hf & Hk & Hx) Hu Hi Ha. unfold stored_ok. cbn.
  assert (0 <= path_age now (timestamp e) / NANOS) as Hage
    by (apply Z.div_pos; [unfold path_age; destruct (Z.leb_spec (i64_saturating_sub (monotonic_ns now) (timestamp e)) 0); lia|unfold NANOS; lia]).
  split_and!; try done; try lia.
  - by destruct (mode e).
  - by apply list.Forall_drop.
  - apply small_fixed. rewrite length_drop. lia.
  - by intros x [= <-].
Qed.

Lemma unannounced_row p : parse_persisted_path (row_with p None) = None.
Proof.
  unfold parse_persisted_path, row_with, destination_table_row. cbn. by destruct (length (pp_destination p) =? 16)%nat, (length (pp_stable_iface p) =? 16)%nat.
Qed.

Lemma live_row_parses now unix_now cache ids x : entry_ok x.1 x.2 -> 0 <= unix_now < 2 ^ 64 -> map_Forall (fun _ i => length i = 16%nat) ids ->
  match live_row now unix_now cache ids x with
  | Some row => rv_wf row = true /\ (rv_depth row <= 3)%nat /\ parse_persisted_path row = saved now unix_now cache ids x
  | None => saved now unix_now cache ids x = None
  end.
Proof.
  intros He Hu Hids. destruct x as [d e]. cbn [fst snd] in He. unfold live_row, saved. cbn [fst snd]. destruct (ids !! pe_iface e) as [i|] eqn:Ei; [|done].
  cbn [mbind option_bind]. destruct (PacketCache_get_cached_announce cache (pe_packet_hash e)) as [a|]; cbn [mbind option_bind];
    [destruct (serialize_packet a) as [b|] eqn:Eb; cbn [mbind option_bind]|].
  - pose proof (saved_with_ok now unix_now i b d e He Hu (Hids _ _ Ei) (serialize_small _ _ Eb)) as Hs.
    split; [exact (row_with_wf _ (Some b) Hs (or_introl eq_refl))|]. split; [apply row_depth|exact (parse_stored _ Hs)].
  - pose proof (saved_with_ok now unix_now i [] d e He Hu (Hids _ _ Ei) eq_refl) as Hs.
    split; [exact (row_with_wf _ None Hs (or_intror eq_refl))|]. split; [apply row_depth|exact (unannounced_row (saved_with now unix_now i [] d e))].
  - pose proof (saved_with_ok now unix_now i [] d e He Hu (Hids _ _ Ei) eq_refl) as Hs.
    split; [exact (row_with_wf _ None Hs (or_intror eq_refl))|]. split; [apply row_depth|exact (unannounced_row (saved_with now unix_now i [] d e))].
Qed.

(** The paths in the file: those of the table, and those that still wait for their
    interface. *)
Definition saved_paths (now unix_now : Z) (cache : PacketCache) (ids : gmap AddressHash AddressHash) (t : PathTable) (waiting : option (list PersistedPath))
    : list PersistedPath :=
  omap (saved now unix_now cache ids) (btree_iter bytes_le (pt_map t))
  ++ List.filter (fun p => negb (PathTable_contains t (pp_destination p))) (default [] waiting).

Lemma rows_parse now unix_now cache ids t waiting : map_Forall entry_ok (pt_map t) -> Forall stored_ok (default [] waiting) -> 0 <= unix_now < 2 ^ 64 ->
  map_Forall (fun _ i => length i = 16%nat) ids -> let rows := path_rows now unix_now cache ids t waiting in
  omap parse_persisted_path rows = saved_paths now unix_now cache ids t waiting /\ forallb rv_wf rows = true /\ (max_list (map rv_depth rows) <= 3)%nat.
Proof.
  intros Ht Hw Hu Hids rows. unfold rows, path_rows, saved_paths. rewrite omap_app, forallb_app, map_app.
  assert (forall a b, (max_list a <= 3)%nat -> (max_list b <= 3)%nat -> (max_list (a ++ b) <= 3)%nat) as Hmax
    by (intros a b Ha Hb; induction a as [|x a IH]; cbn in *; [done|]; lia).
  assert (Forall (fun x => entry_ok x.1 x.2) (btree_iter bytes_le (pt_map t))) as Hl.
  { apply list.Forall_forall. intros [d e] Hx. apply elem_of_btree_iter in Hx. exact (Ht d e Hx). }
  assert (forall l, Forall (fun x => entry_ok x.1 x.2) l ->
    omap parse_persisted_path (omap (live_row now unix_now cache ids) l) = omap (saved now unix_now cache ids) l /\
    forallb rv_wf (omap (live_row now unix_now cache ids) l) = true /\ (max_list (map rv_depth (omap (live_row now unix_now cache ids) l)) <= 3)%nat) as H1.
  { induction 1 as [|x l Hx _ IH]; [cbn; split_and!; try done; lia|]. destruct IH as (I1 & I2 & I3). cbn [omap list_omap].
    pose proof (live_row_parses now unix_now cache ids x Hx Hu Hids) as Hr. destruct (live_row now unix_now cache ids x) as [row|].
    - destruct Hr as (W & D & E). cbn [omap list_omap forallb map max_list foldr]. rewrite E, W, I2. cbn in I1 |- *. rewrite I1. split_and!; [by destruct (saved _ _ _ _ x)|done|cbn in I3; lia].
    - by rewrite Hr. }
  assert (forall l, Forall stored_ok l -> omap parse_persisted_path (waiting_row <$> l) = l /\ forallb rv_wf (waiting_row <$> l) = true /\
    (max_list (map rv_depth (waiting_row <$> l)) <= 3)%nat) as H2.
  { induction 1 as [|p l Hp _ (I1 & I2 & I3)]; [cbn; split_and!; try done; lia|]. cbn [fmap list_fmap omap list_omap forallb map max_list foldr].
    rewrite parse_stored by done. pose proof (row_with_wf p _ Hp (or_introl eq_refl)) as W. pose proof (row_depth (pp_destination p) (pp_stable_iface p) (pp_hops p) (pp_stored_unix p)
      (pp_mode p) (pp_gravity p) (pp_unresponsive p) (pp_blobs p) (Some (pp_announce p)) (pp_received_from p) (pp_packet_hash p) (pp_expires_unix p)) as D.
    cbn in I1, I2, I3 |- *. split_and!; [by rewrite I1|by rewrite I2, andb_true_r|]. cbn in D. lia. }
  destruct (H1 _ Hl) as (A1 & A2 & A3). destruct (H2 (List.filter (fun p => negb (PathTable_contains t (pp_destination p))) (default [] waiting))) as (B1 & B2 & B3).
  { apply list.Forall_forall. intros p Hp. apply list_elem_of_In, filter_In in Hp as [Hp _]. apply list_elem_of_In in Hp. by eapply list.Forall_forall. }
  rewrite A1, A2, B1, B2. split_and!; [done|done|by apply Hmax].
Qed.

Section Restart.
Context {S : Type} `{!Storage S} `{!StorageLaws S}.
Context `{sha : Sha256} `{kdf : Hkdf} `{dh : X25519} `{cbc : CbcCipher} `{mac : HmacSha256}.
Context `{sg : Signing} `{vf : !Verifying} `{ed : !Ed25519} `{edk : !Ed25519Keys}.
Context `{rm : Rmp} `{rd : RmpDecode} `{rc : RmpCursor} `{rs : RmpStr} `{bz : Bz2} `{rv : Manager.Rmpv} `{cd : RmpvCodec}.

Lemma stable_ids_length m : map_Forall (fun _ i => length i = 16%nat) (stable_iface_map m).
Proof.
  unfold stable_iface_map. assert (map_Forall (fun _ i : AddressHash => length i = 16%nat) (∅ : gmap AddressHash AddressHash)) as H0 by apply map_Forall_empty.
  revert H0. generalize (∅ : gmap AddressHash AddressHash). induction (ifaces m) as [|i l IH]; intros acc Hacc; [done|]. cbn. apply IH.
  destruct (if_stopped i); [done|]. apply map_Forall_insert_2; [|done].
  apply (AddressHash_new_from_slice_is_address (string_bytes (if_kind i) ++ [0] ++ string_bytes (if_name i) ++ _)).
Qed.

(** ** Saving *)
Lemma write_table_reads path rows (s s' : S) : write_table path rows s = (true, s') ->
  exists b, rv_write (RArray rows) = Some b /\ read path s' = Some b /\ forall other, other <> path -> read other s' = read other s.
Proof.
  unfold write_table. destruct (rv_write (RArray rows)) as [b|]; [|done]. destruct (write path b s) as [r s1] eqn:E. intros [= Hr ->].
  apply bool_decide_eq_true in Hr as ->. exists b. split; [done|]. split; [by eapply read_written|]. intros other Ho. by eapply read_other.
Qed.

Lemma run_with_storage {A} (s : S) (f : S -> A * S) env n (h : Handler S) : with_storage s f env n h = Some ((f s).1, n, set_storage (Some (f s).2) h, []).
Proof. unfold with_storage. by destruct (f s). Qed.

Lemma persisted env n n' (h h' : Handler S) s out : th_storage h = Some s -> connected_to_shared_instance (th_iface_manager h) = false ->
  persist_handler env n h = Some (true, n', h', out) ->
  exists s' b, th_storage h' = Some s' /\ read DESTINATION_TABLE_FILE s' = Some b /\
    rv_write (RArray (path_rows (e_mono env) (e_secs env) (th_packet_cache h) (stable_iface_map (th_iface_manager h)) (th_path_table h) (th_unresolved_paths h))) = Some b.
Proof.
  intros Hs Hc. unfold persist_handler. unfold mbind at 1, Tr_bind at 1, ask. unfold mbind at 1, Tr_bind at 1, gets at 1. rewrite Hs. cbv zeta. rewrite Hc.
  set (rows := path_rows _ _ _ _ _ _). intros E.
  assert (exists ok s1, (if cfg_retransmit (th_config h) then with_storage s (write_hashlist (PacketCache_hashes (th_packet_cache h))) else mret true) env n h
    = Some (ok, n, set_storage (Some s1) h, [])) as (ok & s1 & E1).
  { destruct (cfg_retransmit (th_config h)); [rewrite run_with_storage; by eexists _, _|]. exists true, s. unfold mret, Tr_ret. rewrite <- Hs. by destruct h. }
  unfold mbind at 1, Tr_bind at 1 in E. rewrite E1 in E. unfold mbind at 1, Tr_bind at 1, gets at 1 in E. cbn [th_storage set_storage default from_option id] in E.
  unfold mbind at 1, Tr_bind at 1 in E. rewrite run_with_storage in E. destruct (write_table DESTINATION_TABLE_FILE rows s1) as [ok2 s2] eqn:E2. cbn [fst snd] in E.
  unfold mbind at 1, Tr_bind at 1, gets at 1 in E. cbn [th_storage set_storage default from_option id] in E.
  destruct (ok && ok2) eqn:Eok; [|by injection E]. apply andb_prop in Eok as [-> ->]. rewrite run_with_storage in E.
  destruct (write_table_reads _ _ _ _ E2) as (b & Hb & Hr & _). destruct (write_table TUNNELS_FILE _ s2) as [ok3 s3] eqn:E3. injection E as -> _ <- _.
  destruct (write_table_reads _ _ _ _ E3) as (_ & _ & _ & Ho). exists s3, b. split; [done|]. split; [|done]. rewrite Ho; [done|]. by vm_compute.
Qed.

(** ** Loading *)

(** The announce of the path is readable, and its identity is not blackholed. *)
Definition restorable (b : Blackholes) (p : PersistedPath) : Prop :=
  exists a, (Packet_deserialize (InputBuffer.new (pp_announce p))).1 = Ok a /\
    match announced_identity_hash a with Some i => is_blackholed i b = false | None => True end.

Lemma restore_one path iface env n (h : Handler S) :
  exists h', restore_persisted_path path iface env n h = Some (tt, n, h', []) /\ th_blackholes h' = th_blackholes h /\
    (forall d, d <> pp_destination path -> PathTable_get (th_path_table h') d = PathTable_get (th_path_table h) d) /\
    (restorable (th_blackholes h) path ->
     PathTable_get (th_path_table h') (pp_destination path) = Some (restored_entry (e_mono env) (e_secs env) path iface)).
Proof.
  unfold restore_persisted_path, restorable. destruct (Packet_deserialize (InputBuffer.new (pp_announce path))).1 as [a|e] eqn:Ea.
  2: { exists h. split; [eapply (run_bind _ _ _ _ _ _ _ _ []); reflexivity|]. split_and!; try done. by intros (a & ? & _). }
  destruct (match announced_identity_hash a with Some i => is_blackholed i (th_blackholes h) | None => false end) eqn:Eb.
  - exists h. split; [|split_and!; try done].
    + do 2 (eapply (run_bind _ _ _ _ _ _ _ _ []); [reflexivity|]). cbv beta. by rewrite Eb.
    + intros (a' & [= <-] & Hb). destruct (announced_identity_hash a); congruence.
  - eexists. split; [|split_and!].
    + do 2 (eapply (run_bind _ _ _ _ _ _ _ _ []); [reflexivity|]). cbv beta. rewrite Eb. eapply (run_bind _ _ _ _ _ _ _ _ []); reflexivity.
    + done.
    + intros d Hd. unfold PathTable_get, PathTable_restore. cbn. by rewrite lookup_insert_ne.
    + intros _. unfold PathTable_get, PathTable_restore. cbn. by rewrite lookup_insert_eq.
Qed.

Lemma restore_all live amb l env n (h : Handler S) :
  exists w h', restore_pending live amb l env n h = Some (w, n, h', []) /\ th_blackholes h' = th_blackholes h /\
    (forall d, Forall (fun p => pp_destination p <> d) l -> PathTable_get (th_path_table h') d = PathTable_get (th_path_table h) d) /\
    (forall l1 p l2 i, l = l1 ++ p :: l2 -> Forall (fun q => pp_destination q <> pp_destination p) l2 -> restorable (th_blackholes h) p ->
       pp_stable_iface p ∉ amb -> live !! pp_stable_iface p = Some i ->
       PathTable_get (th_path_table h') (pp_destination p) = Some (restored_entry (e_mono env) (e_secs env) p i)).
Proof.
  revert h. induction l as [|p l IH]; intros h.
  { exists [], h. split_and!; try done. by intros [|] ? ? ? ?. }
  assert (forall l1 q l2, p :: l = l1 ++ q :: l2 -> (l1 = [] /\ q = p /\ l2 = l) \/ exists l1', l1 = p :: l1' /\ l = l1' ++ q :: l2) as Hsplit.
  { intros [|x l1] q l2 [=]; [left; by subst|right; subst; by exists l1]. }
  cbn [restore_pending]. destruct (decide (pp_stable_iface p ∈ amb)) as [Ha|Ha]; [|destruct (live !! pp_stable_iface p) as [i|] eqn:Ei].
  - destruct (IH h) as (w & h' & E & Hb & H1 & H2). exists w, h'. split; [exact E|]. split; [done|]. split; [intros d [_ Hd]%list.Forall_cons; by apply H1|].
    intros l1 q l2 j Hl. destruct (Hsplit l1 q l2 Hl) as [(-> & -> & ->)|(l1' & -> & ->)]; [done|]. by eapply H2.
  - destruct (restore_one p i env n h) as (h1 & E1 & B1 & K1 & R1). destruct (IH h1) as (w & h' & E & Hb & H1 & H2). exists w, h'.
    split; [eapply (run_bind _ _ _ _ _ _ _ _ []); [exact E1|exact E]|]. split; [congruence|]. split.
    + intros d [Hp Hd]%list.Forall_cons. rewrite H1 by done. by apply K1.
    + intros l1 q l2 j Hl Hq Hr Hna Hj. destruct (Hsplit l1 q l2 Hl) as [(-> & -> & ->)|(l1' & -> & ->)].
      * rewrite H1 by done. assert (i = j) as -> by congruence. by apply R1.
      * rewrite <- B1 in Hr. by eapply H2.
  - destruct (IH h) as (w & h' & E & Hb & H1 & H2). exists (p :: w), h'. split; [eapply (run_bind _ _ _ _ _ _ _ _ []); [exact E|reflexivity]|].
    split; [done|]. split; [intros d [_ Hd]%list.Forall_cons; by apply H1|].
    intros l1 q l2 j Hl. destruct (Hsplit l1 q l2 Hl) as [(-> & -> & ->)|(l1' & -> & ->)]; [congruence|]. by eapply H2.
Qed.

Lemma run_load_hashlist (s : S) env n (h : Handler S) : exists c, load_hashlist s env n h = Some (tt, n, set_packet_cache c h, []).
Proof.
  unfold load_hashlist. destruct (read PACKET_HASHLIST_FILE s) as [raw|]; [eexists; eapply (run_bind _ _ _ _ _ _ _ _ []); reflexivity|].
  exists (th_packet_cache h). eapply (run_bind _ _ _ _ _ _ _ _ []); [reflexivity|]. unfold mret, Tr_ret. by destruct h.
Qed.

(** A node that starts on the storage. *)
Record starts (s : S) (live : gmap AddressHash AddressHash) (amb : gset AddressHash) (h : Handler S) : Prop := {
  st_storage : th_storage h = Some s;
  st_unloaded : th_persisted_loaded h = false;
  st_aux : th_persisted_aux_loaded h = false;
  st_waiting : th_unresolved_paths h = None;
  st_retransmit : cfg_retransmit (th_config h) = true;
  st_shared : connected_to_shared_instance (th_iface_manager h) = false;
  st_ifaces : classify_stable_ids (th_iface_manager h) = (live, amb);
}.

Lemma loads s live amb b env n n' (h h' : Handler S) u out l1 p l2 i : starts s live amb h -> read DESTINATION_TABLE_FILE s = Some b ->
  load_persisted_state env n h = Some (u, n', h', out) -> parse_persisted_paths b = l1 ++ p :: l2 ->
  Forall (fun q => pp_destination q <> pp_destination p) l2 -> restorable (th_blackholes h) p -> pp_stable_iface p ∉ amb -> live !! pp_stable_iface p = Some i ->
  PathTable_get (th_path_table h') (pp_destination p) = Some (restored_entry (e_mono env) (e_secs env) p i).
Proof.
  intros [Hs Hu Ha Hw Hr Hc Hi] Hb E Hp Hl2 Hok Hna Hlive. unfold load_persisted_state in E. unfold mbind at 1, Tr_bind at 1, ask in E.
  unfold mbind at 1, Tr_bind at 1, gets at 1 in E. cbv zeta in E. rewrite Hi, Hu, Hs, Hc, Hr, Ha, Hw, Hb in E. cbn [negb when] in E.
  assert (bool_decide (live = ∅) = false) as Hne by (apply bool_decide_false; intros ->; by rewrite lookup_empty in Hlive). rewrite Hne in E. cbn [andb] in E.
  unfold mbind at 1, Tr_bind at 1 in E. destruct (run_load_hashlist s env n h) as (c & Ec). rewrite Ec in E.
  destruct (restore_all live amb (parse_persisted_paths b) env n (set_packet_cache c h)) as (w & h1 & E1 & _ & _ & H2).
  unfold mbind at 1, Tr_bind at 1 in E. rewrite E1 in E. specialize (H2 l1 p l2 i Hp Hl2 Hok Hna Hlive).
  assert (exists h2, (match w with [] => _ ← modify (set_unresolved_paths None); modify (set_persisted_loaded true) | _ => modify (set_unresolved_paths (Some w)) end) env n h1
    = Some (tt, n, h2, []) /\ th_path_table h2 = th_path_table h1) as (h2 & E2 & T2) by (destruct w; eexists; (split; [reflexivity|done])).
  unfold mbind at 1, Tr_bind at 1 in E. rewrite E2 in E. unfold mbind at 1, Tr_bind at 1 in E. destruct (read TUNNELS_FILE s) as [bt|].
  - unfold mbind at 1, Tr_bind at 1 in E. unfold unwrap in E. destruct (load_tunnels _ _ bt _) as [t|]; [|done]. cbn in E. injection E as _ _ <- _. cbn. by rewrite T2.
  - cbn in E. injection E as _ _ <- _. cbn. by rewrite T2.
Qed.

Lemma serialized_reads a b : Packet_wf a -> serialize_packet a = Some b ->
  (Packet_deserialize (InputBuffer.new b)).1 = Ok (Packet_normalize a) /\ payload (Packet_normalize a) = payload a.
Proof.
  intros Hwf. unfold serialize_packet. pose proof (Packet_serialize_emits a (OutputBuffer.new (replicate (Z.to_nat 2048) 0)) (ob_new_wf _)) as H.
  destruct (_ <=? _)%nat; [|by destruct H as (o & ->)]. destruct H as (n & o & -> & _ & _ & Hs & _). intros [= <-]. rewrite Hs.
  rewrite Packet_deserialize_parse by apply ib_new_wf. rewrite ib_new_rest. split; [by apply parse_wire|]. by apply payload_buffer_payload, Packet_wf_payload.
Qed.

Lemma saved_position now unix_now cache ids t waiting d e p : pt_map t !! d = Some e -> saved now unix_now cache ids (d, e) = Some p ->
  exists l1 l2, saved_paths now unix_now cache ids t waiting = l1 ++ p :: l2 /\ Forall (fun q => pp_destination q <> d) l2.
Proof.
  intros He Hp. pose proof (proj2 (elem_of_btree_iter bytes_le (pt_map t) d e) He) as Hin. apply list_elem_of_split in Hin as (la & lb & El).
  pose proof (NoDup_btree_iter_keys bytes_le (pt_map t)) as Hnd. rewrite El, fmap_app, fmap_cons in Hnd. apply list.NoDup_app in Hnd as (_ & _ & Hnd).
  apply list.NoDup_cons in Hnd as [Hd _]. unfold saved_paths. rewrite El, omap_app. cbn [omap list_omap]. rewrite Hp.
  eexists _, _. split; [rewrite <- app_assoc; reflexivity|]. apply list.Forall_app. split.
  - apply list.Forall_forall. intros q Hq. apply list_elem_of_omap in Hq as ([d' e'] & Hx & Hq). intros Hqd. apply Hd. apply list_elem_of_fmap. exists (d', e').
    split; [|done]. unfold saved in Hq. destruct (ids !! _); [|done]. cbn [mbind option_bind snd] in Hq. destruct (_ ≫= serialize_packet); [|done]. cbn in Hq. injection Hq as <-. by cbn in Hqd |- *.
  - apply list.Forall_forall. intros q Hq. apply list_elem_of_In, filter_In in Hq as [_ Hq]. intros Hqd. unfold PathTable_contains in Hq.
    by rewrite Hqd, bool_decide_true in Hq by (by exists e).
Qed.

Lemma omap_length_le {A B} (f : A -> option B) l : (length (omap f l) <= length l)%nat.
Proof. induction l as [|x l IH]; cbn; [lia|]. cbn in IH. destruct (f x); cbn; lia. Qed.

Lemma path_rows_length now unix_now cache ids t waiting :
  (length (path_rows now unix_now cache ids t waiting) <= base.size (pt_map t) + length (default [] waiting))%nat.
Proof.
  unfold path_rows. rewrite length_app, length_fmap. pose proof (omap_length_le (live_row now unix_now cache ids) (btree_iter bytes_le (pt_map t))) as H1.
  rewrite btree_iter_length in H1. pose proof (List.filter_length_le (fun p => negb (PathTable_contains t (pp_destination p))) (default [] waiting)). lia.
Qed.

Lemma restored_saved now1 unix1 now2 unix2 stable b d e iface : path_age now1 (timestamp e) / NANOS < unix1 ->
  restored_entry now2 unix2 (saved_with now1 unix1 stable b d e) iface
  = mkPathEntry (pe_received_from e) (pe_hops e) iface
      (i64_saturating_sub (monotonic_ns now2) (Z.min (Z.max 0 (unix2 - (unix1 - path_age now1 (timestamp e) / NANOS)) * NANOS) I64_MAX))
      (unresponsive e) (pe_packet_hash e) (mode e) (expires_unix e) (drop (length (random_blobs e) - 32) (random_blobs e)) (gravity e).
Proof.
  intros Hc. unfold restored_entry. cbn [pp_received_from pp_hops pp_stored_unix pp_unresponsive pp_packet_hash pp_mode pp_expires_unix pp_blobs pp_gravity saved_with].
  rewrite (Z.max_r 0 (unix1 - path_age now1 (timestamp e) / NANOS)) by lia. rewrite (proj2 (Z.eqb_neq _ 0)) by lia. f_equal. by destruct (mode e).
Qed.

Lemma restored_age now unix1 unix2 age : 0 <= age < unix1 -> unix1 <= unix2 < 2 ^ 32 -> 0 <= now < 2 ^ 62 ->
  path_age now (i64_saturating_sub (monotonic_ns now) (Z.min (Z.max 0 (unix2 - (unix1 - age)) * NANOS) I64_MAX)) = (age + (unix2 - unix1)) * NANOS.
Proof.
  intros Ha Hu Hn. unfold path_age, monotonic_ns, i64_saturating_sub, I64_MAX, I64_MIN, NANOS in *.
  rewrite (Z.min_l now) by lia. rewrite (Z.max_r 0) by lia. rewrite (Z.min_l (_ * _)) by lia.
  destruct (Z.leb_spec (Z.max (- 2 ^ 63) (Z.min (2 ^ 63 - 1) (now - Z.max (- 2 ^ 63) (Z.min (2 ^ 63 - 1) (now - (unix2 - (unix1 - age)) * 1000000000))))) 0); lia.
Qed.

(** C26: paths survive a restart.  A transport saves its tables; another one,
    which retransmits, starts on the same storage, whenever it does.  Then each
    path of the first is in the table of the second, if the second has,
    unambiguously, an interface with the stable identifier of the path's, the
    announce of the path was still cached, and its identity is not blackholed:
    with next hop, hop count, mode, gravity, responsiveness, announce and time of
    expiry as they were and the last 32 random blobs, on the interface that now
    has the identifier, and as old as it was when saved plus the time that has
    passed since. *)
Theorem Paths_restart (env1 env2 : Env) (n1 n2 n1' n2' : nat) (h1 h1' h2 h2' : Handler S) (s0 s : S) (u : unit) (out1 out2 : list Output)
    (live : gmap AddressHash AddressHash) (amb : gset AddressHash) (d stable iface : AddressHash) (e : PathEntry) (a : Packet) (b : bytes)
    (Hstorage : th_storage h1 = Some s0) (Hshared : connected_to_shared_instance (th_iface_manager h1) = false)
    (Hok : map_Forall entry_ok (pt_map (th_path_table h1))) (Hwaiting : Forall stored_ok (default [] (th_unresolved_paths h1)))
    (Hsmall : Z.of_nat (base.size (pt_map (th_path_table h1)) + length (default [] (th_unresolved_paths h1))) < 2 ^ 32)
    (Hsave : persist_handler env1 n1 h1 = Some (true, n1', h1', out1)) (Hs : th_storage h1' = Some s)
    (Hstart : starts s live amb h2) (Hload : load_persisted_state env2 n2 h2 = Some (u, n2', h2', out2))
    (He : PathTable_get (th_path_table h1) d = Some e) (Hid : stable_iface_map (th_iface_manager h1) !! pe_iface e = Some stable)
    (Hcached : PacketCache_get_cached_announce (th_packet_cache h1) (pe_packet_hash e) = Some a) (Hwf : Packet_wf a)
    (Hfits : serialize_packet a = Some b)
    (Hblack : forall i, announced_identity_hash a = Some i -> is_blackholed i (th_blackholes h2) = false)
    (Hamb : stable ∉ amb) (Hlive : live !! stable = Some iface)
    (Hclock : path_age (e_mono env1) (timestamp e) / NANOS < e_secs env1 <= e_secs env2) (Hbound : e_secs env2 < 2 ^ 32) (Hmono : 0 <= e_mono env2 < 2 ^ 62) :
  exists ts, PathTable_get (th_path_table h2') d
    = Some (mkPathEntry (pe_received_from e) (pe_hops e) iface ts (unresponsive e) (pe_packet_hash e) (mode e) (expires_unix e)
              (drop (length (random_blobs e) - 32) (random_blobs e)) (gravity e)) /\
    path_age (e_mono env2) ts = (path_age (e_mono env1) (timestamp e) / NANOS + (e_secs env2 - e_secs env1)) * NANOS.
Proof.
  destruct (persisted _ _ _ _ _ _ _ Hstorage Hshared Hsave) as (s' & file & Hs' & Hread & Hw). assert (s' = s) as -> by congruence.
  assert (0 <= path_age (e_mono env1) (timestamp e) / NANOS) as Hage
    by (apply Z.div_pos; [unfold path_age; destruct (Z.leb_spec (i64_saturating_sub (monotonic_ns (e_mono env1)) (timestamp e)) 0); lia|unfold NANOS; lia]).
  destruct (rows_parse (e_mono env1) (e_secs env1) (th_packet_cache h1) _ (th_path_table h1) (th_unresolved_paths h1) Hok Hwaiting ltac:(lia)
    (stable_ids_length (th_iface_manager h1))) as (Hrows & Hrwf & Hdep). set (rows := path_rows _ _ _ _ _ _) in *.
  assert (rv_read file = Some (RArray rows)) as Hfile.
  { destruct (rv_roundtrip (RArray rows)) as (f & Ef & Er); [|cbn [rv_depth]; lia|congruence]. cbn [rv_wf]. rewrite Hrwf, andb_true_r. apply Z.ltb_lt.
    eapply Z.le_lt_trans; [|exact Hsmall]. apply Nat2Z.inj_le. by apply path_rows_length. }
  assert (parse_persisted_paths file = saved_paths (e_mono env1) (e_secs env1) (th_packet_cache h1) (stable_iface_map (th_iface_manager h1)) (th_path_table h1)
    (th_unresolved_paths h1)) as Hparse by (unfold parse_persisted_paths; rewrite Hfile; exact Hrows).
  set (p := saved_with (e_mono env1) (e_secs env1) stable b d e).
  destruct (saved_position (e_mono env1) (e_secs env1) (th_packet_cache h1) (stable_iface_map (th_iface_manager h1)) (th_path_table h1) (th_unresolved_paths h1) d e p)
    as (l1 & l2 & El & Hl2); [done|unfold saved; cbn; by rewrite Hid, Hcached; cbn; rewrite Hfits|].
  destruct (serialized_reads a b Hwf Hfits) as [Hd Hpay].
  pose proof (loads s live amb file env2 n2 n2' h2 h2' u out2 l1 p l2 iface Hstart Hread Hload (eq_trans Hparse El) Hl2) as Hres.
  assert (restorable (th_blackholes h2) p) as Hrest.
  { exists (Packet_normalize a). split; [exact Hd|]. unfold announced_identity_hash in *. rewrite Hpay. destruct (length (payload a) <? 64)%nat; [done|]. by apply Hblack. }
  specialize (Hres Hrest Hamb Hlive). change (pp_destination p) with d in Hres. rewrite Hres. unfold p. rewrite restored_saved by lia. eexists. split; [reflexivity|].
  apply restored_age; lia.
Qed.
End Restart.

(** ** An example *)
#[local] Existing Instance mixing_sha256.
#[local] Existing Instance toy_hkdf.
#[local] Existing Instance toy_x25519.
#[local] Existing Instance toy_cbc.
#[local] Existing Instance toy_hmac.
#[local] Existing Instance toy_signing.
#[local] Existing Instance toy_verifying.
#[local] Existing Instance toy_ed25519.
#[local] Existing Instance toy_keys.
#[local] Existing Instance msgpack_rmp.
#[local] Existing Instance toy_rmp_decode.
#[local] Existing Instance toy_cursor.
#[local] Existing Instance toy_rmp_str.
#[local] Existing Instance toy_bz2.
#[local] Existing Instance toy_rmpv.
#[local] Existing Instance toy_codec.

(** An announce of the destination of [line_own], two hops away, learned at second
    10 on an interface. *)
Definition saved_announce : Packet :=
  match announce_at (replicate 32 9) (replicate 32 8) None 1700000000 line_own with
  | (Ok p, _) => p
  | _ => Packet_default
  end.
Definition saved_entry : PathEntry :=
  mkPathEntry (replicate 16 5) 2 (line_iface 21) (10 * NANOS) false (Packet_hash saved_announce) Gateway (f64_of_Z 1700600000) [replicate 10 6] (Some (-3)).

(** The node that saves, at second 15, and the one that starts, 1000 seconds later
    and with a clock of its own; the interface has a new address. *)
Definition saving_node : Handler MemoryStorage :=
  set_storage (Some ∅) (set_packet_cache (PacketCache_cache_announce (PacketCache_new 16) saved_announce)
    (set_path_table (mkPathTable {[line_dest := saved_entry]} false) (set_iface_manager (line_manager [21]) (line_base 40)))).
Definition starting_node (s : MemoryStorage) : Handler MemoryStorage :=
  set_iface_manager (line_manager [22])
    (Transport_new (set_retransmit true (TransportConfig_new (PrivateIdentity_new (replicate 32 40) (replicate 32 41)))) (Some s) 0).
Definition saving_env : Env := sample_env 15 1.
Definition starting_env : Env := mkEnv (3 * NANOS) (3 * NANOS) (f64_of_Z 1700001015) 1700001015 (e_draw saving_env) (e_inputs saving_env).
Definition saved_iface : AddressHash := default [] (stable_iface_map (line_manager [21]) !! line_iface 21).
Definition saved_wire : bytes := default [] (serialize_packet saved_announce).

Lemma saving_checks :
  match persist_handler saving_env 0%nat saving_node with
  | Some (true, _, h1, _) =>
      match th_storage h1 with
      | Some s => match load_persisted_state starting_env 0%nat (starting_node s) with Some _ => true | None => false end
      | None => false
      end
  | _ => false
  end = true.
Proof. vm_compute. reflexivity. Qed.

Lemma saving_runs : exists n1 h1 out1 s n2 h2 out2, persist_handler saving_env 0%nat saving_node = Some (true, n1, h1, out1) /\ th_storage h1 = Some s /\
  load_persisted_state starting_env 0%nat (starting_node s) = Some (tt, n2, h2, out2).
Proof.
  pose proof saving_checks as T. destruct (persist_handler saving_env 0%nat saving_node) as [[[[[] n1] h1] out1]|]; [|discriminate T..].
  destruct (th_storage h1) as [s|] eqn:Es; [|discriminate T]. destruct (load_persisted_state starting_env 0%nat (starting_node s)) as [[[[[] n2] h2] out2]|] eqn:El; [|discriminate T].
  exists n1, h1, out1, s, n2, h2, out2. split; [reflexivity|]. split; [exact Es|exact El].
Qed.

Lemma saved_announce_wf : Packet_wf saved_announce.
Proof.
  unfold Packet_wf. split; [split; [apply Z.leb_le|apply Z.ltb_lt]; computes|]. split; [split; [computes|refine (bool_decide_eq_true_1 _ _); computes]|].
  split; [exact I|].
  split; [apply Nat.leb_le; computes|]. split; [computes|]. refine (bool_decide_eq_true_1 _ _). computes.
Qed.

Lemma saved_ids : stable_iface_map (line_manager [21]) !! line_iface 21 = Some saved_iface /\ serialize_packet saved_announce = Some saved_wire /\
  (classify_stable_ids (line_manager [22])).1 !! saved_iface = Some (line_iface 22) /\ (classify_stable_ids (line_manager [22])).2 = ∅.
Proof. split; [|split; [|split]]; computes. Qed.

Lemma saved_entry_ok : map_Forall entry_ok (pt_map (th_path_table saving_node)).
Proof.
  refine (proj2 (map_Forall_singleton entry_ok line_dest saved_entry) _). unfold entry_ok. split; [computes|]. split; [done|]. split; [by intros g [= <-]|].
  split; [repeat constructor|]. split; [done|]. split; computes.
Qed.

(** The path is back, 1005 seconds old. *)
Lemma Paths_restart_witness :
  exists h1 s h2 ts n1 n2 out1 out2, persist_handler saving_env 0%nat saving_node = Some (true, n1, h1, out1) /\ th_storage h1 = Some s /\
    load_persisted_state starting_env 0%nat (starting_node s) = Some (tt, n2, h2, out2) /\
    PathTable_get (th_path_table h2) line_dest
    = Some (mkPathEntry (replicate 16 5) 2 (line_iface 22) ts false (Packet_hash saved_announce) Gateway (f64_of_Z 1700600000) [replicate 10 6] (Some (-3))) /\
    path_age (e_mono starting_env) ts = 1005 * NANOS.
Proof.
  destruct saving_runs as (n1 & h1 & out1 & s & n2 & h2 & out2 & E1 & Es & E2). destruct saved_ids as (I1 & I2 & I3 & I4).
  destruct (Paths_restart saving_env starting_env 0 0 n1 n2 saving_node h1 (starting_node s) h2 ∅ s tt out1 out2
    (classify_stable_ids (line_manager [22])).1 (classify_stable_ids (line_manager [22])).2 line_dest saved_iface (line_iface 22) saved_entry saved_announce saved_wire)
    as (ts & Hp & Ha).
  - reflexivity.
  - reflexivity.
  - exact saved_entry_ok.
  - constructor.
  - reflexivity.
  - exact E1.
  - exact Es.
  - split; [reflexivity..|]. apply surjective_pairing.
  - exact E2.
  - apply lookup_singleton_eq.
  - exact I1.
  - apply lookup_singleton_eq.
  - exact saved_announce_wf.
  - exact I2.
  - reflexivity.
  - rewrite I4. apply not_elem_of_empty.
  - exact I3.
  - vm_compute. split; congruence.
  - reflexivity.
  - vm_compute. split; congruence.
  - exists h1, s, h2, ts, n1, n2, out1, out2. split; [exact E1|]. split; [exact Es|]. split; [exact E2|]. split; [exact Hp|exact Ha].
Defined.
